(* ===== verification/_CoqProject ===== *)
-Q . S2P
Prelude.v
GoTime.v
GoStrings.v
Config.v
Histogram.v
Windowing.v
UsageRecord.v
Accumulator.v
Network.v
Model.v
Cluster.v
Admission.v
PodSpec.v
WatchHealth.v
Nodes.v
Usage.v
Journal.v
Restarts.v
Goroutines.v
Disruptions.v
JobRuns.v
NodeEvents.v
Spans.v
States.v
Counters.v
Registry.v
Cadence.v
FileNames.v
PodWatcher.v
Policy.v
Metadata.v
PodIndex.v
PodRestarts.v
Revisions.v
Targeting.v
NodeIntake.v
ProcCounters.v
KeySource.v
NodeReport.v
Binding.v
Mark.v
Scan.v
Contributions.v
Inventory.v
Probe.v
Readings.v
SymbolFilter.v
Pull.v
Capture.v
Pipeline.v
NodeRole.v
Spool.v
Recover.v
OnDisk.v
Shipper.v
Delivery.v
Writers.v
Metrics.v
Kubelet.v
Endpoints.v
Gate.v
Decisions.v
Controller.v
Wiring.v
Placement.v
Handover.v
Consent.v
Lives.v
System.v
