(* ===== verification/Prelude.v ===== *)
(** * Verification of the RebuildStack runtime agent

    The runtime agent watches one Kubernetes cluster, reduces what it sees to
    payloads, keeps them as files in a spool directory, and ships them.  It has
    no database: what it knows lives in open records in memory, the spool is both
    the delivery queue and the only memory a restart has.  It runs in two roles, a
    controller and one node agent per node.  This development models both, from
    an object of the API server or a process of a node to a delivered file, and
    proves what makes them correct; above all that nothing is recorded of what
    did not consent to being collected.

    ** Parts of the program and how they meet

    In the controller a pod watcher turns informer events into an index of the
    collected pods, after a filter with opt-outs at three levels, and into
    callbacks: OOM kills, restarts, disruptions, finished jobs.  A node watcher
    does the same for nodes.  A usage poller asks every kubelet for cumulative
    counters and turns them into deltas; accumulators spread the deltas over
    wall-clock windows.  Seven journals do the same for events and for the
    agent's own states and counters.  Node agents ask the controller which pods
    they may look at, scan those processes, profile some, and push what they
    found; the controller joins it against the index into an inventory.  A
    prober, a counter and a puller visit the pprof endpoints the inventory
    names.  Once a minute a pass writes everything to the spool, which renders
    atomically, holds change-triggered kinds back by a cadence and sweeps itself.
    The shipper posts the oldest files first and removes what was acknowledged.
    At startup the agent reads the spool for windows still open and resumes them.

    ** Files

    Ground.
    - [Prelude] (this file): fixed-width integers with their wrap-around, the
      [result] type, the strict orders behind Go's [sort.Slice] calls, sums over
      lists and maps, the tactics and the hint databases.
    - [GoTime], [GoStrings]: [time] and the parts of [strings] and [strconv] the
      sources use.
    - [Config] (src/internal/config): loading, validation, defaults, the shape
      that is reported, and the address parsing the loopback rule rests on.

    Windows and usage (src/internal/rollup, src/internal/collector).
    - [Histogram] (histogram.go), [Windowing] (window.go), [UsageRecord]
      (record.go), [Accumulator] (accumulator.go), [Network] (network.go).
    - [Usage] (usage.go and the throttling half of cadvisor.go): the poller's
      whole state, [Seed], [pollOnce], [sweep] and [flush].  [Kubelet]
      (kubelet.go, the parsing half of cadvisor.go): what a poll reads.

    Watchers (src/internal/collector).
    - [Cluster]: the API objects by the fields the agent reads; [Model]
      (src/internal/model): the facts it makes of them.
    - [Admission] (filter.go), [PodSpec] (cachetransform.go, placement.go and the
      container readings of pods.go), [PodWatcher] (pods.go and its observers),
      [PodIndex] and [PodRestarts] (what the index and the restart payloads hold
      after any events), [Decisions] (decisions.go and its endpoint).
    - [Nodes] (nodes.go, nodedetail.go), [WatchHealth] (watchhealth.go).
    - [Policy] (policy.go), [Metadata] (metadata, updatestrategy.go), [Revisions]
      (revisions.go and src/internal/revisions), [Targeting].

    Journals (src/internal/journal).
    - [Journal]: the open-window core every journal repeats, behind the classes
      [JournalRecord], [JournalLaws] and [EventJournal]; proved once.
    - [Restarts], [Goroutines], [Disruptions], [JobRuns], [NodeEvents], [Spans],
      [States], [Counters]: one file per journal, each discharging the interface.
    - [Placement]: every observation of every journal leaves its records where a
      restart will look for them.

    The node role (src/internal/nodescan, nodeprofile, ebpfgate, src/cmd/agent).
    - [NodeReport], [ProcCounters], [Binding], [Mark], [Scan]: the scan, from the
      text of /proc to the report.
    - [SymbolFilter], [Capture], [Gate], [Pipeline]: the profiler, from the
      kernel's version to a posted window.
    - [NodeRole] (node.go, nodeship.go): a pass, from the scope query to the
      delivered report.

    The controller's side of the nodes (src/internal/nodeintake, nodeauth,
    inventory, pprofprobe, pprofpull).
    - [NodeIntake] (handlers and claims), [KeySource] (jwks.go), [Contributions]
      and [Inventory] (store.go), [Probe] and [Readings] (pprofprobe), [Pull].

    The spool and delivery (src/internal/sink, src/internal/shipper).
    - [Registry], [Cadence], [FileNames], [Spool] (write, publish, Sweep,
      counters), [Recover] (window writers and the startup read), [Writers] (the
      payload of each kind), [OnDisk] (a journal's files between a flush and a
      startup read), [Shipper] and [Delivery] (a round, and a run), [Handover]
      (the shipper's and the startup's use of the same files).

    The controller assembled (src/cmd/agent).
    - [Controller] (flush.go, recover.go, states.go and the journals' flushes),
      [Metrics] and [Endpoints] (what both roles answer on their listeners).
    - [Wiring] (main.go): the state all callbacks share and each callback, as
      steps; roles, start, shutdown, memlimit.go.
    - [Consent]: the promise of one life of the process, over [Wiring]; [Lives]:
      the same over its restarts, each resuming what the last one left; [System]:
      the same of the controller with its nodes and what travels between them.

    ** How state and operations correspond

    A Go struct is a record with the struct's field names where Rocq allows
    them, a pointer that may be nil an [option], a map a [gmap], a method that
    mutates its receiver a function returning the new one.  Integers are [Z];
    where Go wraps, the model wraps ([+w], [-w], [+u]).  [sort.Slice] is
    [sort_slice]; where the order is total on the keys its result is proved the
    only one a sort may return ([sort_slice_unique]), so neither the algorithm
    nor map iteration order shows.  A range over a map whose order could matter takes the list of
    entries as the order of that run.  Locks guard each component and are not
    represented: every operation holds its lock throughout, and the goroutines
    of a role are the steps of [Wiring.happen], [Pipeline.step] and
    [NodeRole.passes] in any order; [System.occur] interleaves both roles.

    The file system is a map from names to files.  What it may refuse, and what
    other writers do meanwhile, are inputs of each operation.  So are the clock,
    the answers of the network and of /proc.  encoding/json, YAML, SHA-256, the
    JWT check, label selectors, the pprof and exposition formats are parameters;
    what a theorem needs of them it says, and its witness instantiates them.

    ** What the theorems show

    - Consent.  Over any restarts and any interleaving of what the controller does
      it never panics, and each file it leaves is about objects an event found
      consenting under the filter of its life
      ([Lives.recorded_objects_consented_in_some_life]; for a single life,
      [Consent.only_consenting_objects_are_recorded]); with any nodes around it,
      over a transport that loses, delays and repeats, whatever they send names
      consenting pods too ([System.nothing_travels_without_consent]); the index
      exposes collected pods only ([PodIndex.only_consenting_pods_are_exposed]); a
      node reports and profiles only what the controller admits, and of the
      processes it drops a scan tells no more than how many there were
      ([Scan.scan_opens_only_what_it_keeps],
      [NodeRole.nodes_report_consenting_pods_only],
      [Pipeline.profiles_leave_only_in_scope]) and speaks only for itself
      ([NodeIntake.node_speaks_only_for_itself]); the inventory forgets the rest and
      nothing else ([Inventory.inventory_names_only_consenting]); the listing says
      what the filter decides, in order ([Decisions.listing_is_what_the_filter_decides]).
    - Confidentiality.  What is cached of a pod, what a profile names (by [Name]
      only; [SystemName] is not filtered) and what the labels of a scrape say ([PodSpec.cache_holds_nothing_private],
      [SymbolFilter.pulled_profiles_are_reduced],
      [SymbolFilter.captured_stacks_are_reduced], [Metrics.exposition_is_closed],
      [Config.collection_listener_is_loopback]).
    - Conservation.  A delta split over windows sums to itself
      ([Windowing.split_conserves]); over any cycles and flushes the poller credits
      a key exactly what the counters of its containers read, as long as none of
      them goes unanswered for longer than it keeps a baseline and the kubelet's
      pressure-stall block does not come and go
      ([Usage.cpu_exact_regardless_of_cadence]); restarts, state time and counter
      rises are each counted once ([Restarts.restarts_accounted],
      [States.state_time_accounted], [Counters.counter_accounted]); the two restart
      payloads agree on the run in progress, the deltas of a process that is read
      whole never overlap, the coverage counts balance
      ([PodRestarts.restart_payloads_agree], [ProcCounters.deltas_never_overlap],
      [PodIndex.coverage_balances]).
    - Refinement.  The accumulator implements an abstract log of samples
      ([Accumulator.accumulator_refines_log]), the inventory the latest report of
      each node ([Inventory.inventory_reflects_latest_reports]), the node watcher
      the last state of each node, and its callbacks are exactly those owed
      ([Nodes.nodes_follow_the_informer]); policies,
      revisions and targets follow the pods.
    - Restart.  One pass followed by a startup restores every journal
      ([Controller.restart_resumes_every_journal]); only open windows are resumed
      ([Recover.recover_only_open]); repeats are absorbed
      ([NodeEvents.events_reported_twice_count_once]).
    - The spool.  A write is all or nothing, a sweep keeps the bounds and takes
      the oldest, the gate keeps the published cadence, names are plain path
      components, payloads of two kinds never share a file.
    - Delivery.  Over a run only acknowledged payloads leave, and only if
      unreplaced, and each attempt is counted once
      ([Delivery.shipping_over_a_run]); rounds are oldest first; a refusal
      holds until replaced; an identity failure is final; the backoff is bounded.
    - Progress and health.  Every confirmed endpoint has its turn
      ([Pull.every_turn_comes]); the watchdog stops on an outage and only then
      ([WatchHealth.watchdog_stops_on_an_outage]); a node says why it is not
      profiling ([Gate.profiling_state_says_why]); a kubelet response is whole or
      refused ([Kubelet.response_is_whole_or_refused]).
    - Where the code departs from its comments or documents:
      [Consent.an_opted_out_pod_stays_in_the_open_window],
      [Consent.a_narrower_filter_resumes_what_it_excludes],
      [Usage.cpu_lost_when_psi_is_missing], [Usage.swept_baseline_counts_twice],
      [PodIndex.refused_pod_is_not_observed],
      [SymbolFilter.system_name_is_not_filtered], [Network.network_sample_on_boundary],
      [Handover.delivered_windows_are_not_resumed],
      [Spool.evicted_payload_held_back], [FileNames.profile_name_ambiguous],
      [PodIndex.recreated_pod_is_never_forgotten],
      [NodeIntake.profile_refusals_are_lost],
      [ProcCounters.unreadable_io_reports_a_lifetime],
      [Metadata.Aggregate_depends_on_order], [Targeting.tied_kinds_publish_either],
      [Readings.parseCount_accepts_an_overflow], [Readings.the_tail_is_never_read],
      [Inventory.rollout_never_writes_the_old_build],
      [Pull.ten_without_address_starve_the_rest],
      [SymbolFilter.partial_redaction_is_not_counted],
      [SymbolFilter.two_placeholders_in_a_row],
      [SymbolFilter.trailing_slash_admits_nothing],
      [Nodes.kernel_version_is_not_bounded], [Policy.two_kinds_share_a_record],
      [Policy.namespace_wide_budget_is_dropped],
      [Decisions.listing_runs_ahead_of_the_agent].

    ** Fuel

    Few loops are not structural.  [Windowing.split_loop] and [Spans.split_loop]
    get one step per window the interval touches and two to spare, and the
    theorems about [split] hold of every interval a Duration measures, so the
    fuel never runs out.  [Histogram.index_loop] walks the eight steps of an
    octave.  [Shipper.backoff_loop] doubles five seconds up to five minutes, six
    times at most, with fuel seven.  [Config.v6_groups] reads at most the eight
    groups of an address.  [Kubelet.ReadAll] takes the calls of [Read] as a list;
    enough of them that make progress decide the result.

    ** Not modelled

    Flag parsing and the construction of clients (connect); the goroutines,
    tickers and HTTP servers around the steps; the third-party code named above,
    the eBPF tracer and the informers of client-go, whose promise (each object's
    events in order, to one handler at a time) is [PodIndex.informer_order]; log
    lines; the structs that only carry fields into JSON; test-time chart rendering
    and generated code.  In [Lives] a process that is killed in the middle of a
    pass is one whose remaining writes fail; all lives that keep a spool keep it in
    the same directory, as the installation mounts it. *)

From stdpp Require Import prelude gmap strings sorting pretty.
From Stdlib Require Import ZArith Lia.
Local Open Scope Z_scope.

(** ** Machine integers

    A Go [int64] or [uint64] is a [Z] kept in its range by the wrap-around that
    the language defines for the fixed-width arithmetic operators. *)

Definition maxInt64 : Z := 2 ^ 63 - 1.
Definition minInt64 : Z := - 2 ^ 63.
Definition maxUint64 : Z := 2 ^ 64 - 1.

Definition wrap64 (z : Z) : Z := (z + 2 ^ 63) mod 2 ^ 64 - 2 ^ 63.
Definition wrapU64 (z : Z) : Z := z mod 2 ^ 64.
Definition wrap32 (z : Z) : Z := (z + 2 ^ 31) mod 2 ^ 32 - 2 ^ 31.
#[global] Arguments wrap64 : simpl never.
#[global] Arguments wrap32 : simpl never.
#[global] Arguments wrapU64 : simpl never.

(** Saturation, for the standard-library operations that saturate. *)
Definition sat64 (z : Z) : Z := Z.max minInt64 (Z.min maxInt64 z).

Definition int64_ok (z : Z) : Prop := minInt64 <= z <= maxInt64.
Definition uint64_ok (z : Z) : Prop := 0 <= z <= maxUint64.

Declare Scope go_scope.
Delimit Scope go_scope with go.
Infix "+w" := (fun a b => wrap64 (a + b)) (at level 50, left associativity) : go_scope.
Infix "-w" := (fun a b => wrap64 (a - b)) (at level 50, left associativity) : go_scope.
Infix "+u" := (fun a b => wrapU64 (a + b)) (at level 50, left associativity) : go_scope.
Open Scope go_scope.

(** Unfold the integer vocabulary down to what [lia] reads. *)
Ltac go_ints := unfold int64_ok, uint64_ok, sat64, maxInt64, minInt64, maxUint64 in *.
Ltac go_lia := go_ints; lia.
(** [lia] over quotients and remainders. *)
Ltac divmod_lia := go_ints; Z.div_mod_to_equations; lia.

(** Case on every integer test in sight. *)
Ltac ltb_cases :=
  repeat match goal with
  | |- context [?a <? ?b] => destruct (Z.ltb_spec a b)
  | H : context [?a <? ?b] |- _ => destruct (Z.ltb_spec a b)
  end; try lia; try done.

(** A call that returns a value or an error. *)
Inductive result (E A : Type) : Type :=
| Ok (a : A)
| Err (e : E).
Arguments Ok {E A} a.
Arguments Err {E A} e.

Definition result_bind {E A B} (r : result E A) (k : A -> result E B) : result E B :=
  match r with Ok a => k a | Err e => Err e end.
Notation "'let!' x := r 'in' k" := (result_bind r (fun x => k))
  (at level 10, x name, r at level 100, k at level 200) : go_scope.

Create HintDb agent.
Create Rewrite HintDb agent.

Lemma wrap64_id z : int64_ok z -> wrap64 z = z.
Proof. intros ?. unfold wrap64. rewrite Z.mod_small; go_lia. Qed.

Lemma wrap32_id z : - 2 ^ 31 <= z < 2 ^ 31 -> wrap32 z = z.
Proof. intros ?. unfold wrap32. rewrite Z.mod_small; lia. Qed.

Lemma wrap64_range z : int64_ok (wrap64 z).
Proof. unfold wrap64. go_ints. pose proof (Z.mod_pos_bound (z + 2 ^ 63) (2 ^ 64)). lia. Qed.

Lemma wrap64_mod z : wrap64 z mod 2 ^ 64 = z mod 2 ^ 64.
Proof.
  unfold wrap64. rewrite Zminus_mod_idemp_l. f_equal. lia.
Qed.

Lemma wrap64_eq_mod a b : wrap64 a = wrap64 b <-> a mod 2 ^ 64 = b mod 2 ^ 64.
Proof.
  split; intros H.
  - by rewrite <-(wrap64_mod a), <-(wrap64_mod b), H.
  - unfold wrap64. rewrite <-(Zplus_mod_idemp_l a), <-(Zplus_mod_idemp_l b), H. done.
Qed.

Lemma wrap64_add_l a b : wrap64 (wrap64 a + b) = wrap64 (a + b).
Proof.
  apply wrap64_eq_mod. by rewrite <-Zplus_mod_idemp_l, wrap64_mod, Zplus_mod_idemp_l.
Qed.

Lemma wrap64_add_r a b : wrap64 (a + wrap64 b) = wrap64 (a + b).
Proof. by rewrite Z.add_comm, wrap64_add_l, Z.add_comm. Qed.

Lemma wrap64_cong a a' b : wrap64 a = wrap64 a' -> wrap64 (a + b) = wrap64 (a' + b).
Proof. intros H. by rewrite <-wrap64_add_l, H, wrap64_add_l. Qed.

Lemma wrap64_sub_l a b : wrap64 (wrap64 a - b) = wrap64 (a - b).
Proof. apply (wrap64_add_l a (- b)). Qed.

Lemma wrap64_wrap64 a : wrap64 (wrap64 a) = wrap64 a.
Proof. apply wrap64_id, wrap64_range. Qed.

Lemma wrapU64_id z : uint64_ok z -> wrapU64 z = z.
Proof. intros ?. unfold wrapU64. apply Z.mod_small. go_lia. Qed.

Lemma wrapU64_range z : uint64_ok (wrapU64 z).
Proof. unfold wrapU64. go_ints. pose proof (Z.mod_pos_bound z (2 ^ 64)). lia. Qed.

Lemma wrapU64_add_l a b : wrapU64 (wrapU64 a + b) = wrapU64 (a + b).
Proof. apply Zplus_mod_idemp_l. Qed.

Lemma wrapU64_add_r a b : wrapU64 (a + wrapU64 b) = wrapU64 (a + b).
Proof. apply Zplus_mod_idemp_r. Qed.

#[export] Hint Resolve wrap64_range wrapU64_range : agent.
#[export] Hint Rewrite wrap64_wrap64 wrap64_add_l wrap64_add_r wrap64_sub_l
  wrapU64_add_l wrapU64_add_r : agent.

(** ** Strict total orders, as the [less] functions of the sources use them *)

Class GoOrder (A : Type) := go_lt : A -> A -> bool.

Class GoOrderLaws (A : Type) `{GoOrder A} : Prop := {
  go_lt_irrefl : forall a : A, go_lt a a = false;
  go_lt_trans : forall a b c : A, go_lt a b = true -> go_lt b c = true -> go_lt a c = true;
  go_lt_trichotomy : forall a b : A, go_lt a b = false -> go_lt b a = false -> a = b;
}.

(** The step of a lexicographic [less]:
    [if x != y { return x < y }; return rest]. *)
Definition lexi {A} `{GoOrder A, EqDecision A} (x y : A) (rest : bool) : bool :=
  if bool_decide (x = y) then rest else go_lt x y.

#[export] Instance Z_go_order : GoOrder Z := Z.ltb.
#[export] Instance Z_go_order_laws : GoOrderLaws Z.
Proof.
  split; unfold go_lt, Z_go_order; intros *; rewrite ?Z.ltb_lt, ?Z.ltb_ge; lia.
Qed.

(** Go compares strings bytewise. *)
Fixpoint string_ltb (s t : string) : bool :=
  match s, t with
  | _, EmptyString => false
  | EmptyString, String _ _ => true
  | String a s', String b t' =>
      if N.ltb (Ascii.N_of_ascii a) (Ascii.N_of_ascii b) then true
      else if N.ltb (Ascii.N_of_ascii b) (Ascii.N_of_ascii a) then false
      else string_ltb s' t'
  end.

#[export] Instance string_go_order : GoOrder string := string_ltb.
#[local] Ltac string_cases :=
  repeat match goal with
  | H : context [N.ltb ?x ?y] |- _ => destruct (N.ltb_spec x y)
  | |- context [N.ltb ?x ?y] => destruct (N.ltb_spec x y)
  end; try done; try lia.
#[export] Instance string_go_order_laws : GoOrderLaws string.
Proof.
  split; unfold go_lt, string_go_order.
  - intros a. induction a as [|c a IH]; [done|]. cbn [string_ltb]. string_cases.
  - intros a. induction a as [|x a IH]; intros [|y b] [|z c]; cbn [string_ltb]; try done.
    intros H1 H2. string_cases. by eapply IH.
  - intros a. induction a as [|x a IH]; intros [|y b]; cbn [string_ltb]; try done.
    intros H1 H2. string_cases.
    f_equal; [|by apply IH].
    rewrite <-(Ascii.ascii_N_embedding x), <-(Ascii.ascii_N_embedding y). f_equal. lia.
Qed.

#[export] Instance prod_go_order {A B} `{GoOrder A, EqDecision A, GoOrder B} : GoOrder (A * B) :=
  fun p q => lexi p.1 q.1 (go_lt p.2 q.2).
#[export] Instance prod_go_order_laws {A B}
  `{GoOrderLaws A, EqDecision A, GoOrderLaws B} : GoOrderLaws (A * B).
Proof.
  split; unfold go_lt at 1; unfold prod_go_order, lexi.
  - intros [a b]; simpl. rewrite bool_decide_eq_true_2 by done. apply go_lt_irrefl.
  - intros [a1 b1] [a2 b2] [a3 b3]; unfold go_lt; simpl; intros H12 H23.
    repeat case_bool_decide; subst; try done; eauto using go_lt_trans.
    + assert (go_lt a3 a3 = true) by eauto using go_lt_trans. by rewrite go_lt_irrefl in *.
  - intros [a1 b1] [a2 b2]; unfold go_lt; simpl; intros H12 H21.
    repeat case_bool_decide; subst; try done.
    + f_equal. by apply go_lt_trichotomy.
    + exfalso. eauto using go_lt_trichotomy.
Qed.

(** ** Sorting

    [sort.Slice] leaves the order of elements that compare equal unspecified
    and is handed whatever order a map iteration produced.  [sort_slice] is one
    such sort; [sort_slice_unique] says that on elements with pairwise distinct
    keys there is only one possible answer, whichever algorithm and iteration
    order produced it. *)

Definition not_after {A} (less : A -> A -> bool) : relation A := fun a b => less b a = false.
#[export] Instance not_after_dec {A} (less : A -> A -> bool) a b : Decision (not_after less a b).
Proof. unfold not_after. apply _. Defined.

Definition sort_slice {A} (less : A -> A -> bool) (l : list A) : list A :=
  merge_sort (not_after less) l.

(** What [sort.Slice(l, less)] may return. *)
Definition sorted_result {A} (less : A -> A -> bool) (l out : list A) : Prop :=
  out ≡ₚ l /\ StronglySorted (not_after less) out.

Lemma StronglySorted_impl {A} (R1 R2 : relation A) l :
  (forall x y, R1 x y -> R2 x y) -> StronglySorted R1 l -> StronglySorted R2 l.
Proof. intros HR. induction 1; constructor; [done|]. eapply Forall_impl; eauto. Qed.

Section sort.
Context {A K : Type} `{GoOrderLaws K}.
Context (less : A -> A -> bool) (key : A -> K).
Hypothesis less_key : forall a b, less a b = go_lt (key a) (key b).

#[local] Instance not_after_total : Total (not_after less).
Proof.
  intros a b. unfold not_after. rewrite !less_key.
  destruct (go_lt (key b) (key a)) eqn:E1; [|by left].
  destruct (go_lt (key a) (key b)) eqn:E2; [|by right].
  pose proof (go_lt_trans _ _ _ E1 E2) as E. by rewrite go_lt_irrefl in E.
Qed.

#[local] Instance not_after_trans : Transitive (not_after less).
Proof.
  intros a b c. unfold not_after. rewrite !less_key. intros Hab Hbc.
  destruct (go_lt (key c) (key a)) eqn:E; [|done].
  destruct (go_lt (key a) (key b)) eqn:E2.
  - pose proof (go_lt_trans _ _ _ E E2). congruence.
  - pose proof (go_lt_trichotomy _ _ E2 Hab) as Heq. rewrite Heq in E. congruence.
Qed.

Lemma sort_slice_sorted l : sorted_result less l (sort_slice less l).
Proof.
  split; [apply merge_sort_Permutation|]. apply StronglySorted_merge_sort; apply _.
Qed.

Lemma sort_slice_unique l out :
  NoDup (key <$> l) -> sorted_result less l out -> out = sort_slice less l.
Proof.
  intros Hnd [Hp Hs]. destruct (sort_slice_sorted l) as [Hp' Hs'].
  apply (StronglySorted_unique_strong (not_after less)); [|done|done|by rewrite Hp, Hp'].
  intros a b Ha Hb Hab Hba.
  rewrite Hp in Ha. rewrite Hp' in Hb.
  unfold not_after in *. rewrite !less_key in *.
  pose proof (go_lt_trichotomy _ _ Hba Hab) as Hk.
  apply list_elem_of_lookup in Ha as [i Hi]. apply list_elem_of_lookup in Hb as [j Hj].
  assert (i = j) as ->; [|congruence].
  eapply (NoDup_lookup (key <$> l)); [done| |].
  - rewrite list_lookup_fmap, Hi. done.
  - rewrite list_lookup_fmap, Hj. simpl. by rewrite Hk.
Qed.

(** The answer does not depend on the order the elements were gathered in. *)
Lemma sort_slice_perm l1 l2 :
  NoDup (key <$> l1) -> l1 ≡ₚ l2 -> sort_slice less l1 = sort_slice less l2.
Proof.
  intros Hnd Hp. symmetry. apply sort_slice_unique; [done|].
  destruct (sort_slice_sorted l2) as [Hp2 Hs2]. split; [|done]. by rewrite Hp2.
Qed.

(** Distinct keys come out strictly increasing. *)
Lemma sort_slice_strict l :
  NoDup (key <$> l) -> StronglySorted (fun a b => less a b = true) (sort_slice less l).
Proof.
  intros Hnd. destruct (sort_slice_sorted l) as [Hp Hs].
  assert (NoDup (key <$> sort_slice less l)) as Hn by by rewrite Hp.
  clear Hp Hnd. induction Hs as [|a out Hs IH Ha]; [constructor|].
  apply NoDup_cons in Hn as [Hn1 Hn2]. constructor; [by apply IH|].
  rewrite Forall_forall in *. intros b Hb. specialize (Ha b Hb). unfold not_after in Ha.
  rewrite less_key in *. destruct (go_lt (key a) (key b)) eqn:E; [done|].
  exfalso. apply Hn1. rewrite (go_lt_trichotomy _ _ E Ha). apply list_elem_of_fmap. eauto.
Qed.
End sort.

(** [sort.SliceStable] is determined on every input: by insertion, an element
    before the first that is not less. *)
Fixpoint insert_stable {A} (less : A -> A -> bool) (x : A) (l : list A) : list A :=
  match l with
  | [] => [x]
  | y :: l' => if less y x then y :: insert_stable less x l' else x :: l
  end.
Definition sort_stable {A} (less : A -> A -> bool) (l : list A) : list A := foldr (insert_stable less) [] l.

Section stable.
Context {A : Type} (less : A -> A -> bool) (key : A -> Z).
Hypothesis less_key : forall a b, less a b = (key a <? key b).

Lemma insert_stable_perm x l : insert_stable less x l ≡ₚ x :: l.
Proof.
  induction l as [|y l IH]; cbn; [done|]. destruct (less y x); [|done]. rewrite IH. apply Permutation_swap.
Qed.
Lemma sort_stable_perm l : sort_stable less l ≡ₚ l.
Proof. induction l as [|x l IH]; cbn; [done|]. by rewrite insert_stable_perm, IH. Qed.

Lemma insert_stable_sorted x l :
  StronglySorted (fun a b => key a <= key b) l -> StronglySorted (fun a b => key a <= key b) (insert_stable less x l).
Proof.
  induction 1 as [|y l Hs IH Hy]; cbn; [constructor; constructor|].
  rewrite less_key. destruct (Z.ltb_spec (key y) (key x)) as [Hlt|Hle].
  - constructor; [done|]. rewrite insert_stable_perm. constructor; [lia|done].
  - constructor; [by constructor|]. constructor; [done|]. eapply Forall_impl; [exact Hy|]. cbn. intros; lia.
Qed.
Lemma sort_stable_sorted l : StronglySorted (fun a b => key a <= key b) (sort_stable less l).
Proof. induction l; cbn; [constructor|by apply insert_stable_sorted]. Qed.

(** Elements with one key stay in order, an already sorted list as it is. *)
Lemma sort_stable_id l : StronglySorted (fun a b => key a <= key b) l -> sort_stable less l = l.
Proof.
  unfold sort_stable. induction 1 as [|x l Hs IH Hx]; cbn; [done|]. rewrite IH. destruct l as [|y l]; cbn; [done|].
  rewrite less_key. inv Hx. by rewrite (proj2 (Z.ltb_ge _ _)).
Qed.
End stable.

Lemma elem_of_sort_slice {A} (less : A -> A -> bool) (l : list A) x : x ∈ sort_slice less l <-> x ∈ l.
Proof. unfold sort_slice. by rewrite merge_sort_Permutation. Qed.

Lemma length_sort_slice {A} (less : A -> A -> bool) (l : list A) : length (sort_slice less l) = length l.
Proof. unfold sort_slice. by rewrite merge_sort_Permutation. Qed.

(** ** Values and sums of finite maps *)

Definition map_values {K V} `{Countable K} (m : gmap K V) : list V := (map_to_list m).*2.

Definition list_sum {A} (f : A -> Z) (l : list A) : Z := foldr (fun a acc => f a + acc) 0 l.

Definition map_sum {K V} `{Countable K} (f : V -> Z) (m : gmap K V) : Z :=
  map_fold (fun _ v acc => f v + acc) 0 m.

Section sums.
Context {K V : Type} `{Countable K}.
Implicit Types (m : gmap K V) (f : V -> Z).

Lemma list_sum_cons {A} (g : A -> Z) x l : list_sum g (x :: l) = g x + list_sum g l.
Proof. done. Qed.

Lemma list_sum_nonneg {A} (g : A -> Z) l : (forall x, 0 <= g x) -> 0 <= list_sum g l.
Proof. intros Hg. induction l as [|x l IH]; [done|]. rewrite list_sum_cons. specialize (Hg x). lia. Qed.

Lemma list_sum_filter_le {A} (g : A -> Z) (P : A -> Prop) `{!forall x, Decision (P x)} l :
  (forall x, 0 <= g x) -> list_sum g (filter P l) <= list_sum g l.
Proof.
  intros Hg. induction l as [|x l IH]; [done|]. specialize (Hg x).
  rewrite filter_cons, list_sum_cons. case_decide; rewrite ?list_sum_cons; lia.
Qed.

Lemma list_sum_app {A} (g : A -> Z) l1 l2 : list_sum g (l1 ++ l2) = list_sum g l1 + list_sum g l2.
Proof. induction l1; simpl; lia. Qed.

Lemma list_sum_perm {A} (g : A -> Z) l1 l2 : l1 ≡ₚ l2 -> list_sum g l1 = list_sum g l2.
Proof. induction 1; simpl; lia. Qed.

Lemma map_sum_empty f : map_sum f (∅ : gmap K V) = 0.
Proof. apply map_fold_empty. Qed.

Lemma map_sum_insert_None f m k v :
  m !! k = None -> map_sum f (<[k:=v]> m) = f v + map_sum f m.
Proof. intros Hk. unfold map_sum. rewrite map_fold_insert_L; [done|intros; lia|done]. Qed.

Lemma map_sum_delete f m k v :
  m !! k = Some v -> map_sum f m = f v + map_sum f (delete k m).
Proof. intros Hk. unfold map_sum. rewrite (map_fold_delete_L _ _ k v); [done|intros; lia|done]. Qed.

Lemma map_sum_insert f m k v :
  map_sum f (<[k:=v]> m) = map_sum f m + f v - from_option f 0 (m !! k).
Proof.
  destruct (m !! k) as [w|] eqn:Hk; simpl.
  - rewrite (map_sum_delete f m k w) by done.
    rewrite <-insert_delete_eq, map_sum_insert_None by apply lookup_delete_eq. lia.
  - rewrite map_sum_insert_None by done. lia.
Qed.

Lemma map_sum_values f m : map_sum f m = list_sum f (map_values m).
Proof.
  unfold map_values. induction m as [|k v m Hk IH] using map_ind.
  - by rewrite map_sum_empty, map_to_list_empty.
  - rewrite map_sum_insert_None by done.
    rewrite (list_sum_perm f (map_to_list (<[k:=v]> m)).*2 (v :: (map_to_list m).*2)).
    + simpl. by rewrite IH.
    + by rewrite map_to_list_insert.
Qed.

Lemma elem_of_map_values m v : v ∈ map_values m <-> exists k, m !! k = Some v.
Proof.
  unfold map_values. rewrite list_elem_of_fmap. split.
  - intros [[k w] [-> Hin]]. exists k. by apply elem_of_map_to_list.
  - intros [k Hk]. exists (k, v). split; [done|]. by apply elem_of_map_to_list.
Qed.

Lemma list_filter_split {A} (P : A -> Prop) `{!forall x, Decision (P x)} (l : list A) :
  filter P l ++ filter (fun x => ~ P x) l ≡ₚ l.
Proof.
  induction l as [|x l IH]; [done|].
  rewrite !filter_cons. repeat case_decide; try done; simpl.
  - by rewrite IH.
  - by rewrite <-Permutation_middle, IH.
Qed.

Lemma filter_length_split {A} (P Q : A -> Prop) `{!forall x, Decision (P x), !forall x, Decision (Q x)} (l : list A) :
  (forall x, x ∈ l -> Q x -> P x) ->
  length (filter P l) = (length (filter Q l) + length (filter (fun x => P x /\ ~ Q x) l))%nat.
Proof.
  intros Hl. induction l as [|x l IH]; [done|]. rewrite !filter_cons.
  assert (IH' := IH ltac:(intros; apply Hl; [by right|done])). assert (Hx := Hl x ltac:(left)).
  repeat case_decide; cbn; rewrite ?IH'; first [lia | tauto].
Qed.

Lemma length_filter_submseteq {A} (P : A -> Prop) `{!forall x, Decision (P x)} (l k : list A) :
  l ⊆+ k -> (length (filter P l) <= length (filter P k))%nat.
Proof. intros [k' ->]%submseteq_Permutation. rewrite filter_app, length_app. lia. Qed.

Lemma list_filter_all {A} (P : A -> Prop) `{!forall x, Decision (P x)} (l : list A) : Forall P l -> filter P l = l.
Proof. induction 1 as [|x l Hx Hl IH]; [done|]. by rewrite filter_cons_True, IH. Qed.

Lemma map_to_list_filter (P : K * V -> Prop) `{!forall x, Decision (P x)} m :
  map_to_list (filter P m) ≡ₚ filter P (map_to_list m).
Proof.
  rewrite map_filter_alt. apply map_to_list_to_map.
  eapply sublist_NoDup; [exact (NoDup_fst_map_to_list m)|].
  apply fmap_sublist, sublist_filter.
Qed.

Lemma map_values_filter_split (P : K * V -> Prop) `{!forall x, Decision (P x)} m :
  map_values (filter P m) ++ map_values (filter (fun x => ~ P x) m) ≡ₚ map_values m.
Proof.
  unfold map_values. rewrite <-fmap_app, !map_to_list_filter. by rewrite list_filter_split.
Qed.

(** Distinct keys stay distinct when read back off the records. *)
Lemma NoDup_keys_of_values {K' : Type} (rk : V -> K') (kk : K -> K') m :
  (forall k v, m !! k = Some v -> rk v = kk k) -> Inj (=) (=) kk ->
  NoDup (rk <$> map_values m).
Proof.
  intros Hrk Hinj. unfold map_values. rewrite <-list_fmap_compose.
  erewrite (list_fmap_ext _ (kk ∘ fst)).
  - rewrite list_fmap_compose. apply NoDup_fmap_2; [done|]. apply NoDup_fst_map_to_list.
  - intros i [k v] Hi. simpl. apply Hrk. apply elem_of_map_to_list.
    by eapply list_elem_of_lookup_2.
Qed.
End sums.

(** A fold whose steps commute gives one answer whatever the order. *)
Lemma foldl_perm {A B} (f : B -> A -> B) (l1 l2 : list A) e :
  (forall b x y, f (f b x) y = f (f b y) x) -> l1 ≡ₚ l2 -> foldl f e l1 = foldl f e l2.
Proof.
  intros Hf Hp. revert e. induction Hp as [|x l1 l2 _ IH|x y l|l1 l2 l3 _ IH1 _ IH2]; intros e; cbn; auto.
  - by rewrite Hf.
  - by rewrite IH1.
Qed.

(** The entries of a map some function keeps. *)
Lemma map_to_list_omap {K A B} `{Countable K} (f : A -> option B) (m : gmap K A) :
  map_to_list (omap f m) ≡ₚ omap (fun kv => (kv.1,.) <$> f kv.2) (map_to_list m).
Proof.
  induction m as [|k x m Hk IH] using map_ind.
  { by rewrite omap_empty, !map_to_list_empty. }
  rewrite omap_insert, (map_to_list_insert m k x) by done. cbn. destruct (f x) as [y|] eqn:Hf; cbn.
  - rewrite map_to_list_insert; [by rewrite IH|]. by rewrite lookup_omap, Hk.
  - rewrite delete_id; [done|]. by rewrite lookup_omap, Hk.
Qed.

Lemma sublist_bool_filter {A} (p : A -> bool) (l : list A) : sublist (List.filter p l) l.
Proof.
  induction l as [|x l IH]; [constructor|]. cbn. destruct (p x).
  - by apply sublist_skip.
  - by apply sublist_cons.
Qed.
