(* ===== verification/GoTime.v ===== *)
(** Go's [time.Time] and [time.Duration], as far as the agent uses them.

    A [Time] is the number of nanoseconds since Go's zero time (January 1, year
    1, 00:00:00 UTC), so [IsZero] is equality with zero and [Truncate] rounds
    relative to that instant, as the standard library does.  A location carries
    no information here ([UTC] is the identity), and the monotonic reading that
    [time.Now] attaches is not represented: all comparisons are of wall time.
    A [Duration] is an [int64] count of nanoseconds; [Sub] saturates. *)

From stdpp Require Import prelude.
From Stdlib Require Import ZArith Lia.
From S2P Require Import Prelude.
Local Open Scope Z_scope.

Abbreviation Time := Z (only parsing).
Abbreviation Duration := Z (only parsing).

Definition Nanosecond : Duration := 1.
Definition Second : Duration := 1000000000.
Definition Minute : Duration := 60 * Second.
Definition Hour : Duration := 60 * Minute.

(** The Unix epoch, as nanoseconds after the zero time. *)
Definition unixEpoch : Time := 62135596800 * Second.

Definition IsZero (t : Time) : bool := t =? 0.
Definition Before (t u : Time) : bool := t <? u.
Definition After (t u : Time) : bool := u <? t.
Definition Add (t : Time) (d : Duration) : Time := t + d.
Definition Sub (t u : Time) : Duration := sat64 (t - u).
Definition Truncate (t : Time) (d : Duration) : Time := if d <=? 0 then t else t - t mod d.
Definition UnixNano (t : Time) : Z := wrap64 (t - unixEpoch).
Definition Unix (t : Time) : Z := wrap64 ((t - unixEpoch) / Second).
(** [time.Unix(sec, 0)] *)
Definition unix_time (sec : Z) : Time := unixEpoch + sec * Second.
Definition maxTime (a b : Time) : Time := if After a b then a else b.

(** Instants [UnixNano] represents without wrapping (years 1678 to 2262). *)
Definition nano_ok (t : Time) : Prop := int64_ok (t - unixEpoch).

Section truncate.
Context (d : Duration) (Hd : 0 < d).

Lemma Truncate_pos t : Truncate t d = t - t mod d.
Proof. unfold Truncate. destruct (Z.leb_spec d 0); lia. Qed.

Lemma Truncate_div t : Truncate t d = d * (t / d).
Proof. rewrite Truncate_pos. pose proof (Z.div_mod t d). lia. Qed.

Lemma Truncate_bounds t : Truncate t d <= t < Truncate t d + d.
Proof. rewrite Truncate_pos. pose proof (Z.mod_pos_bound t d). lia. Qed.

(** A window start is the one multiple of [d] whose window holds [t]. *)
Lemma Truncate_unique t s :
  s mod d = 0 -> s <= t < s + d -> Truncate t d = s.
Proof.
  intros Hs Ht. rewrite Truncate_div.
  apply Z.mod_divide in Hs as [q ->]; [|lia].
  assert (t / d = q) as ->; [|lia].
  symmetry. apply (Z.div_unique t d q (t - q * d)); lia.
Qed.

Lemma Truncate_aligned t : Truncate t d mod d = 0.
Proof. rewrite Truncate_div, Z.mul_comm. apply Z.mod_mul. lia. Qed.

Lemma Truncate_idem t : Truncate (Truncate t d) d = Truncate t d.
Proof. apply Truncate_unique; [apply Truncate_aligned|lia]. Qed.

Lemma Truncate_mono t u : t <= u -> Truncate t d <= Truncate u d.
Proof. intros. rewrite !Truncate_div. pose proof (Z.div_le_mono t u d). nia. Qed.

Lemma Truncate_next t : Truncate (Truncate t d + d) d = Truncate t d + d.
Proof.
  apply Truncate_unique; [|lia].
  rewrite <-Zplus_mod_idemp_l, Truncate_aligned. simpl. apply Z.mod_same. lia.
Qed.
End truncate.

Lemma UnixNano_inj t u : nano_ok t -> nano_ok u -> UnixNano t = UnixNano u -> t = u.
Proof. unfold nano_ok, UnixNano. intros Ht Hu. rewrite !wrap64_id by done. lia. Qed.

Lemma Sub_exact t u : int64_ok (t - u) -> Sub t u = t - u.
Proof. unfold Sub. go_lia. Qed.

Lemma Sub_pos t u : 0 < Sub t u <-> u < t.
Proof. unfold Sub. go_lia. Qed.

Lemma unix_time_Unix t :
  (t - unixEpoch) mod Second = 0 -> int64_ok ((t - unixEpoch) / Second) -> unix_time (Unix t) = t.
Proof.
  unfold unix_time, Unix. intros Hm Hr. rewrite wrap64_id by done.
  pose proof (Z.div_mod (t - unixEpoch) Second). unfold Second in *. lia.
Qed.

#[export] Hint Resolve Truncate_aligned Truncate_idem Truncate_bounds : agent.
