(* ===== verification/GoStrings.v ===== *)
(** The parts of [strings] and [strconv] the agent's file names and payload keys
    rest on.  A Go string is a byte sequence: a [string] of [ascii]. *)

From stdpp Require Import prelude strings pretty.
From Stdlib Require Import ZArith Lia.
From Stdlib Require Import Ascii.
From S2P Require Import Prelude.
Local Open Scope Z_scope.

(** ** Prefixes and suffixes *)

Fixpoint CutPrefix (s prefix : string) {struct prefix} : option string :=
  match prefix with
  | EmptyString => Some s
  | String p prefix' =>
      match s with
      | EmptyString => None
      | String c s' => if bool_decide (p = c) then CutPrefix s' prefix' else None
      end
  end.

Definition HasPrefix (s prefix : string) : bool := bool_decide (is_Some (CutPrefix s prefix)).

(** The part of [s] before a final [suffix], when it ends in it. *)
Fixpoint CutSuffix (s suffix : string) : option string :=
  if bool_decide (s = suffix) then Some EmptyString
  else match s with
       | EmptyString => None
       | String c s' => String c <$> CutSuffix s' suffix
       end.

Definition HasSuffix (s suffix : string) : bool := bool_decide (is_Some (CutSuffix s suffix)).
Definition TrimSuffix (s suffix : string) : string := default s (CutSuffix s suffix).

(** [strings.Cut(s, sep)] for a one-byte separator: around its first occurrence. *)
Fixpoint Cut (s : string) (sep : Ascii.ascii) : option (string * string) :=
  match s with
  | EmptyString => None
  | String c s' =>
      if bool_decide (c = sep) then Some (EmptyString, s')
      else prod_map (String c) id <$> Cut s' sep
  end.

(** [strings.Contains(s, sep)] for one byte. *)
Fixpoint has_byte (c : Ascii.ascii) (s : string) : bool :=
  match s with EmptyString => false | String d s' => bool_decide (c = d) || has_byte c s' end.

(** ** Splitting *)

(** [strings.Split(s, sep)] for a one-byte separator. *)
Fixpoint SplitByte (s : string) (sep : Ascii.ascii) : list string :=
  match s with
  | EmptyString => [EmptyString]
  | String c s' =>
      if bool_decide (c = sep) then EmptyString :: SplitByte s' sep
      else match SplitByte s' sep with
           | [] => [String c EmptyString]
           | p :: ps => String c p :: ps
           end
  end.

(** What follows the first occurrence of [part], [strings.Index] being its place. *)
Fixpoint after_first (s part : string) : option string :=
  match CutPrefix s part with
  | Some rest => Some rest
  | None => match s with EmptyString => None | String _ s' => after_first s' part end
  end.

(** [strings.Contains], [bytes.Contains]. *)
Definition Contains (s part : string) : bool := bool_decide (is_Some (after_first s part)).

(** ** Case and space, on ASCII text *)

Definition lower (c : Ascii.ascii) : Ascii.ascii :=
  let n := N_of_ascii c in if (65 <=? n)%N && (n <=? 90)%N then ascii_of_N (n + 32) else c.
Fixpoint ToLower (s : string) : string :=
  match s with EmptyString => EmptyString | String c s => String (lower c) (ToLower s) end.

Definition is_space (c : Ascii.ascii) : bool :=
  let n := N_of_ascii c in (n =? 32)%N || ((9 <=? n)%N && (n <=? 13)%N).
Fixpoint TrimLeft (s : string) : string :=
  match s with EmptyString => EmptyString | String c s' => if is_space c then TrimLeft s' else s end.
Fixpoint TrimRight (s : string) : string :=
  match s with
  | EmptyString => EmptyString
  | String c s' =>
      match TrimRight s' with
      | EmptyString => if is_space c then EmptyString else String c EmptyString
      | t => String c t
      end
  end.
Definition TrimSpace (s : string) : string := TrimRight (TrimLeft s).


Lemma TrimRight_idem s : TrimRight (TrimRight s) = TrimRight s.
Proof.
  induction s as [|c s IH]; [done|]. cbn [TrimRight]. destruct (TrimRight s) as [|d t] eqn:E.
  - destruct (is_space c) eqn:Hc; [done|]. cbn. by rewrite Hc.
  - cbn [TrimRight] in *. by rewrite IH.
Qed.

Lemma TrimLeft_head s : TrimLeft s = EmptyString \/ exists c t, TrimLeft s = String c t /\ is_space c = false.
Proof. induction s as [|c s IH]; [by left|]. cbn. destruct (is_space c) eqn:Hc; [done|]. right. by exists c, s. Qed.

Lemma TrimSpace_idem s : TrimSpace (TrimSpace s) = TrimSpace s.
Proof.
  unfold TrimSpace. destruct (TrimLeft_head s) as [->|(c & t & -> & Hc)]; [done|].
  assert (TrimLeft (TrimRight (String c t)) = TrimRight (String c t)) as ->; [|apply TrimRight_idem].
  cbn [TrimRight]. destruct (TrimRight t); rewrite ?Hc; cbn; by rewrite ?Hc.
Qed.

(** [strings.Fields]: the maximal runs of other bytes than space. *)
Definition cons_word (w : string) (ws : list string) : list string :=
  match w with EmptyString => ws | _ => w :: ws end.
Fixpoint words (s : string) : string * list string :=
  match s with
  | EmptyString => (EmptyString, [])
  | String c s' =>
      let '(w, ws) := words s' in
      if is_space c then (EmptyString, cons_word w ws) else (String c w, ws)
  end.
Definition Fields (s : string) : list string := let '(w, ws) := words s in cons_word w ws.

(** The lines a [bufio.Scanner] reads: no final empty line, and no [\r] before
    the line feed. *)
Definition newline_byte : Ascii.ascii := ascii_of_N 10.
Definition carriage_return : string := String (ascii_of_N 13) EmptyString.
Fixpoint drop_last_empty (l : list string) : list string :=
  match l with
  | [] => []
  | [s] => if bool_decide (s = EmptyString) then [] else [s]
  | s :: l => s :: drop_last_empty l
  end.
Definition Lines (s : string) : list string :=
  (fun l => TrimSuffix l carriage_return) <$> drop_last_empty (SplitByte s newline_byte).

Lemma string_app_nil (t : string) : "" +:+ t = t.
Proof. done. Qed.
Lemma string_app_cons c (s t : string) : String c s +:+ t = String c (s +:+ t).
Proof. done. Qed.

Lemma string_app_nil_r (s : string) : s +:+ "" = s.
Proof. induction s as [|c s IH]; [done|]. by rewrite string_app_cons, IH. Qed.
Lemma string_app_assoc (s t u : string) : s +:+ (t +:+ u) = (s +:+ t) +:+ u.
Proof. induction s as [|c s IH]; [done|]. by rewrite !string_app_cons, IH. Qed.

(** Printing words and lines, and reading them back. *)
Definition print_words (ws : list string) : string := foldr (fun w s => " " +:+ w +:+ s) "" ws.
Definition print_lines (ls : list string) : string := foldr (fun l s => l +:+ String newline_byte s) "" ls.

Fixpoint no_space (w : string) : bool :=
  match w with EmptyString => true | String c w => negb (is_space c) && no_space w end.
Definition is_word (w : string) : Prop := w <> "" /\ no_space w = true.

Lemma words_app w s :
  no_space w = true -> words (w +:+ s) = (w +:+ (words s).1, (words s).2).
Proof.
  induction w as [|c w IH]; intros Hw.
  { change ("" +:+ s) with s. rewrite surjective_pairing at 1. done. }
  cbn [no_space] in Hw. apply andb_true_iff in Hw as [Hc Hw]. apply negb_true_iff in Hc.
  change (String c w +:+ s) with (String c (w +:+ s)). cbn [words]. by rewrite IH, Hc.
Qed.

Lemma words_space s : words (" " +:+ s) = ("", Fields s).
Proof. change (" " +:+ s) with (String " " s). cbn [words]. unfold Fields. by destruct (words s). Qed.

Lemma words_print ws : Forall is_word ws -> words (print_words ws) = ("", ws).
Proof.
  induction 1 as [|w ws [Hne Hw] _ IH]; [done|].
  unfold print_words. cbn [foldr]. fold (print_words ws). rewrite words_space. unfold Fields.
  rewrite words_app, IH by done. cbn [fst snd]. f_equal.
  rewrite string_app_nil_r. by destruct w.
Qed.

Lemma Fields_print ws : Forall is_word ws -> Fields (print_words ws) = ws.
Proof. intros H. unfold Fields. by rewrite words_print. Qed.

Lemma no_space_byte w c : no_space w = true -> is_space c = true -> has_byte c w = false.
Proof.
  intros Hw Hc. induction w as [|d w IH]; [done|]. cbn in *. apply andb_true_iff in Hw as [Hd Hw].
  rewrite IH, orb_false_r by done. apply bool_decide_eq_false_2. intros <-. by rewrite Hc in Hd.
Qed.

Lemma has_byte_app c s t : has_byte c (s +:+ t) = has_byte c s || has_byte c t.
Proof.
  induction s as [|d s IH]; [done|]. change (String d s +:+ t) with (String d (s +:+ t)). cbn.
  by rewrite IH, orb_assoc.
Qed.

Lemma print_words_byte c ws :
  Forall is_word ws -> is_space c = true -> c <> " "%char -> has_byte c (print_words ws) = false.
Proof.
  intros Hws Hc Hne. induction Hws as [|w ws [_ Hw] _ IH]; [done|].
  unfold print_words. cbn [foldr]. fold (print_words ws).
  rewrite !has_byte_app, IH, (no_space_byte w c) by done. cbn. by rewrite bool_decide_eq_false_2.
Qed.

Lemma SplitByte_app sep l s : has_byte sep l = false -> SplitByte (l +:+ String sep s) sep = l :: SplitByte s sep.
Proof.
  induction l as [|c l IH]; intros Hl.
  { change ("" +:+ String sep s) with (String sep s). cbn [SplitByte].
    by rewrite bool_decide_eq_true_2. }
  cbn [has_byte] in Hl. apply orb_false_iff in Hl as [Hc%bool_decide_eq_false Hl].
  change (String c l +:+ _) with (String c (l +:+ String sep s)). cbn [SplitByte].
  rewrite bool_decide_eq_false_2 by congruence. by rewrite IH.
Qed.
Lemma SplitByte_one sep s : has_byte sep s = false -> SplitByte s sep = [s].
Proof.
  induction s as [|c s IH]; [done|]. cbn [has_byte SplitByte]. intros [Hc%bool_decide_eq_false Hs]%orb_false_iff.
  rewrite bool_decide_eq_false_2 by congruence. by rewrite IH.
Qed.

Lemma SplitByte_print l s : has_byte newline_byte l = false ->
  SplitByte (l +:+ String newline_byte s) newline_byte = l :: SplitByte s newline_byte.
Proof. apply SplitByte_app. Qed.

Lemma SplitByte_lines ls :
  Forall (fun l => has_byte newline_byte l = false) ls -> SplitByte (print_lines ls) newline_byte = ls ++ [EmptyString].
Proof.
  induction 1 as [|l ls Hl _ IH]; [done|]. unfold print_lines. cbn [foldr]. fold (print_lines ls).
  by rewrite SplitByte_print, IH.
Qed.

Lemma CutSuffix_byte s t c u : CutSuffix s t = Some u -> has_byte c s = false -> has_byte c t = false.
Proof.
  revert u. induction s as [|d s IH]; intros u; cbn [CutSuffix]; case_bool_decide as Heq; try done.
  - by subst t.
  - by subst t.
  - intros Hu Hc. destruct (CutSuffix s t) eqn:E; [|done]. eapply IH; [done|].
    cbn in Hc. by apply orb_false_iff in Hc as [_ ?].
Qed.

Lemma TrimSuffix_cr l : has_byte (ascii_of_N 13) l = false -> TrimSuffix l carriage_return = l.
Proof.
  intros Hl. unfold TrimSuffix. destruct (CutSuffix l carriage_return) eqn:E; [|done].
  by apply (CutSuffix_byte _ _ (ascii_of_N 13)) in E.
Qed.

Lemma drop_last_empty_snoc ls : drop_last_empty (ls ++ [""]) = ls.
Proof. induction ls as [|l [|l' ls] IH]; [done..|]. cbn in *. by rewrite IH. Qed.

Lemma Lines_print ls :
  Forall (fun l => has_byte newline_byte l = false /\ has_byte (ascii_of_N 13) l = false) ls ->
  Lines (print_lines ls) = ls.
Proof.
  intros H. unfold Lines.
  assert (SplitByte (print_lines ls) newline_byte = ls ++ [""]) as ->.
  { induction H as [|l ls [Hl _] _ IH]; [done|]. unfold print_lines. cbn [foldr]. fold (print_lines ls).
    by rewrite SplitByte_print, IH. }
  rewrite drop_last_empty_snoc. induction H as [|l ls [_ Hl] _ IH]; [done|]. cbn.
  by rewrite TrimSuffix_cr, IH.
Qed.

Lemma CutPrefix_app p s : CutPrefix (p +:+ s) p = Some s.
Proof.
  induction p as [|c p IH]; [done|]. rewrite string_app_cons. cbn [CutPrefix].
  by rewrite bool_decide_eq_true_2.
Qed.

Lemma CutPrefix_Some s p r : CutPrefix s p = Some r -> s = p +:+ r.
Proof.
  revert s. induction p as [|c p IH]; intros s; simpl; [by intros [= <-]|].
  destruct s as [|d s]; [done|]. case_bool_decide; [|done]. intros ->%IH. by subst.
Qed.

Lemma string_app_length (s t : string) :
  String.length (s +:+ t) = (String.length s + String.length t)%nat.
Proof. induction s as [|c s IH]; [done|]. rewrite string_app_cons. simpl. by rewrite IH. Qed.

Lemma CutSuffix_app s t : CutSuffix (s +:+ t) t = Some s.
Proof.
  induction s as [|c s IH]; rewrite ?string_app_nil, ?string_app_cons.
  - destruct t; cbn [CutSuffix]; by rewrite bool_decide_eq_true_2.
  - cbn [CutSuffix]. rewrite bool_decide_eq_false_2.
    + by rewrite IH.
    + intros Heq. apply (f_equal String.length) in Heq. cbn [String.length] in Heq.
      rewrite string_app_length in Heq. lia.
Qed.

Lemma CutSuffix_Some s t r : CutSuffix s t = Some r -> s = r +:+ t.
Proof.
  revert r. induction s as [|c s IH]; intros r; cbn [CutSuffix]; case_bool_decide as E.
  1, 3: by intros [= <-].
  { done. }
  destruct (CutSuffix s t) as [r'|]; [|done]. intros [= <-].
  by rewrite string_app_cons, (IH r' eq_refl).
Qed.

Lemma HasPrefix_app p s : HasPrefix (p +:+ s) p = true.
Proof. unfold HasPrefix. rewrite CutPrefix_app. by apply bool_decide_eq_true_2. Qed.

Lemma HasPrefix_Some s p : HasPrefix s p = true -> exists r, s = p +:+ r.
Proof. unfold HasPrefix. intros [r Hr]%bool_decide_eq_true. exists r. by apply CutPrefix_Some. Qed.

Lemma HasSuffix_Some s t : HasSuffix s t = true -> exists r, s = r +:+ t.
Proof. unfold HasSuffix. intros [r Hr]%bool_decide_eq_true. exists r. by apply CutSuffix_Some. Qed.

Lemma after_first_app p s t : is_Some (after_first (p +:+ (s +:+ t)) s).
Proof.
  induction p as [|c p IH].
  - rewrite string_app_nil. destruct (s +:+ t) eqn:E; cbn [after_first]; rewrite <-E, CutPrefix_app; by eexists.
  - rewrite string_app_cons. cbn [after_first]. destruct (CutPrefix _ s); [by eexists|]. exact IH.
Qed.

Lemma after_first_Some s part t : after_first s part = Some t -> exists p, s = p +:+ (part +:+ t).
Proof.
  induction s as [|c s IH]; cbn [after_first]; destruct (CutPrefix _ part) as [r|] eqn:E; try done.
  - intros [= <-]. apply CutPrefix_Some in E. by exists EmptyString.
  - intros [= <-]. apply CutPrefix_Some in E. by exists EmptyString.
  - intros [p ->]%IH. by exists (String c p).
Qed.

Lemma Contains_spec s part : Contains s part = true <-> exists p t, s = p +:+ (part +:+ t).
Proof.
  unfold Contains. rewrite bool_decide_eq_true. split.
  - intros [t [p ->]%after_first_Some]. by exists p, t.
  - intros (p & t & ->). apply after_first_app.
Qed.

(** Two prefixes of one string: one is a prefix of the other. *)
Lemma HasPrefix_compare n p q :
  HasPrefix n p = true -> HasPrefix n q = true -> HasPrefix p q = true \/ HasPrefix q p = true.
Proof.
  intros [r ->]%HasPrefix_Some [t Ht]%HasPrefix_Some. revert q r t Ht.
  induction p as [|c p IH]; intros q r t Ht.
  - right. by destruct q.
  - destruct q as [|d q]; [by left|].
    rewrite !string_app_cons in Ht. injection Ht as -> Ht.
    destruct (IH q r t Ht) as [H|H]; [left|right]; unfold HasPrefix in *; cbn [CutPrefix];
      by rewrite (bool_decide_eq_true_2 (d = d)).
Qed.

Lemma HasSuffix_app s t : HasSuffix (s +:+ t) t = true.
Proof. unfold HasSuffix. rewrite CutSuffix_app. by apply bool_decide_eq_true_2. Qed.

Lemma TrimSuffix_app s t : TrimSuffix (s +:+ t) t = s.
Proof. unfold TrimSuffix. by rewrite CutSuffix_app. Qed.

Lemma Cut_app s t c : has_byte c s = false -> Cut (s +:+ String c t) c = Some (s, t).
Proof.
  induction s as [|d s IH]; rewrite ?string_app_nil, ?string_app_cons; cbn [Cut has_byte];
    [by rewrite bool_decide_eq_true_2|].
  intros [Hd Hs]%orb_false_iff. rewrite bool_decide_eq_false_2.
  - by rewrite IH.
  - apply bool_decide_eq_false in Hd. congruence.
Qed.

(** ** Decimal numbers *)

(** [strconv.FormatUint(n, 10)] and the [%d] verb. *)
Definition FormatUint (n : Z) : string := pretty (Z.to_N n).
Definition FormatInt (n : Z) : string := pretty n.

Definition digit_value (c : Ascii.ascii) : option Z :=
  let n := Z.of_N (Ascii.N_of_ascii c) in
  if bool_decide (48 <= n <= 57) then Some (n - 48) else None.

Fixpoint parse_digits (acc : Z) (s : string) : option Z :=
  match s with
  | EmptyString => Some acc
  | String c s' => d ← digit_value c; parse_digits (acc * 10 + d) s'
  end.

(** [strconv.ParseUint(s, 10, 64)]: digits only, at least one, in range. *)
Definition ParseUint (s : string) : option Z :=
  match s with
  | EmptyString => None
  | _ => n ← parse_digits 0 s; if n <=? maxUint64 then Some n else None
  end.

(** [strconv.ParseInt(s, 10, 64)]: an optional sign, then as [ParseUint]. *)
Definition ParseInt (s : string) : option Z :=
  match s with
  | EmptyString => None
  | String "+"%char s' => n ← ParseUint s'; if n <=? maxInt64 then Some n else None
  | String "-"%char s' => n ← ParseUint s'; if n <=? - minInt64 then Some (- n) else None
  | _ => n ← ParseUint s; if n <=? maxInt64 then Some n else None
  end.

Lemma digit_value_char (x : N) :
  (x < 10)%N -> digit_value (pretty_N_char x) = Some (Z.of_N x).
Proof.
  intros Hx.
  assert (x = 0 \/ x = 1 \/ x = 2 \/ x = 3 \/ x = 4 \/ x = 5 \/ x = 6 \/ x = 7 \/ x = 8 \/ x = 9)%N
    as Hc by lia.
  by repeat destruct Hc as [->|Hc]; [..|subst]; vm_compute.
Qed.

Fixpoint all_digits (s : string) : bool :=
  match s with EmptyString => true | String c s' => bool_decide (is_Some (digit_value c)) && all_digits s' end.

Lemma all_digits_pretty_go x s : all_digits s = true -> all_digits (pretty_N_go x s) = true.
Proof.
  revert s. induction (N.lt_wf_0 x) as [x _ IH]; intros s Hs.
  destruct (decide (x = 0)%N) as [->|Hx]; [by rewrite pretty_N_go_0|].
  rewrite pretty_N_go_step by lia. apply IH; [apply N.div_lt; lia|].
  cbn [all_digits]. rewrite digit_value_char by (apply N.mod_lt; lia).
  by rewrite bool_decide_eq_true_2.
Qed.

(** Reading back what [pretty_N_go] printed in front of [s]. *)
Lemma parse_pretty_go x acc s :
  exists k, parse_digits acc (pretty_N_go x s) = parse_digits (acc * 10 ^ k + Z.of_N x) s /\ 0 <= k.
Proof.
  revert acc s. induction (N.lt_wf_0 x) as [x _ IH]; intros acc s.
  destruct (decide (x = 0)%N) as [->|Hx].
  { exists 0. rewrite pretty_N_go_0. split; [|lia]. f_equal. lia. }
  rewrite pretty_N_go_step by lia.
  destruct (IH (x / 10)%N ltac:(apply N.div_lt; lia) acc (String (pretty_N_char (x `mod` 10)) s))
    as (k & -> & Hk).
  exists (k + 1). split; [|lia]. cbn [parse_digits].
  rewrite digit_value_char by (apply N.mod_lt; lia). cbn [mbind option_bind].
  f_equal. rewrite Z.pow_add_r by lia.
  rewrite (N.div_mod' x 10) at 3. lia.
Qed.

Lemma parse_digits_FormatUint n : 0 <= n -> parse_digits 0 (FormatUint n) = Some n.
Proof.
  intros Hn. unfold FormatUint, pretty, pretty_N. case_decide as H0.
  { assert (n = 0) as -> by lia. done. }
  destruct (parse_pretty_go (Z.to_N n) 0 "") as (k & -> & _). simpl. f_equal. lia.
Qed.

Lemma all_digits_FormatUint n : all_digits (FormatUint n) = true.
Proof.
  unfold FormatUint, pretty, pretty_N. case_decide; [done|]. by apply all_digits_pretty_go.
Qed.

Lemma pretty_go_nonempty x s : s <> "" -> pretty_N_go x s <> "".
Proof.
  revert s. induction (N.lt_wf_0 x) as [x _ IH]; intros s Hs.
  destruct (decide (x = 0)%N) as [->|Hx]; [by rewrite pretty_N_go_0|].
  rewrite pretty_N_go_step by lia. apply IH; [apply N.div_lt; lia|done].
Qed.

Lemma FormatUint_nonempty n : FormatUint n <> "".
Proof.
  unfold FormatUint, pretty, pretty_N. case_decide; [done|].
  rewrite pretty_N_go_step by lia. by apply pretty_go_nonempty.
Qed.

Lemma ParseUint_FormatUint n : uint64_ok n -> ParseUint (FormatUint n) = Some n.
Proof.
  intros Hn. unfold ParseUint. pose proof (FormatUint_nonempty n).
  rewrite parse_digits_FormatUint by go_lia. simpl.
  destruct (FormatUint n); [done|]. destruct (Z.leb_spec n maxUint64); [done|go_lia].
Qed.

Lemma all_digits_head s c t : all_digits s = true -> s = String c t -> is_Some (digit_value c).
Proof. intros H ->. cbn in H. apply andb_true_iff in H as [H _]. by apply bool_decide_eq_true in H. Qed.

Lemma ParseInt_unsigned s :
  all_digits s = true -> ParseInt s = n ← ParseUint s; if n <=? maxInt64 then Some n else None.
Proof.
  intros Hd. destruct s as [|c s]; [done|].
  destruct (all_digits_head _ _ _ Hd eq_refl) as [d Hc].
  destruct c as [[] [] [] [] [] [] [] []]; vm_compute in Hc; (discriminate || reflexivity).
Qed.

Lemma FormatInt_pos n : 0 <= n -> FormatInt n = FormatUint n.
Proof. intros Hn. unfold FormatInt, FormatUint. by destruct n as [|p|p]; [..|lia]. Qed.

Lemma FormatInt_neg n : n < 0 -> FormatInt n = String "-"%char (FormatUint (- n)).
Proof. intros Hn. unfold FormatInt, FormatUint. by destruct n as [|p|p]; [lia..|]. Qed.

Lemma ParseInt_FormatInt n : int64_ok n -> ParseInt (FormatInt n) = Some n.
Proof.
  intros Hn. destruct (Z.leb_spec 0 n).
  - rewrite FormatInt_pos by done. rewrite ParseInt_unsigned by apply all_digits_FormatUint.
    rewrite ParseUint_FormatUint by go_lia. simpl.
    destruct (Z.leb_spec n maxInt64); [done|go_lia].
  - rewrite FormatInt_neg by done. unfold ParseInt.
    rewrite ParseUint_FormatUint by go_lia. simpl.
    destruct (Z.leb_spec (- n) (- minInt64)); [f_equal; lia|go_lia].
Qed.

Lemma all_digits_no_byte s c :
  all_digits s = true -> digit_value c = None -> has_byte c s = false.
Proof.
  intros Hs Hc. induction s as [|d s IH]; [done|]. cbn in *.
  apply andb_true_iff in Hs as [Hd Hs]. rewrite IH, orb_false_r by done.
  apply bool_decide_eq_false. intros ->. apply bool_decide_eq_true in Hd as [? ?]. congruence.
Qed.

Lemma FormatUint_inj n m : 0 <= n -> 0 <= m -> FormatUint n = FormatUint m -> n = m.
Proof.
  intros Hn Hm Heq. apply (f_equal (parse_digits 0)) in Heq.
  rewrite !parse_digits_FormatUint in Heq by done. congruence.
Qed.
