(* ===== verification/Config.v ===== *)
(** The agent's configuration, [internal/config/config.go] and shape.go.

    Reading a file, strict YAML and [url.Parse] are parameters.  The split of an
    address into host and port and the parser of IP addresses, on which the
    loopback rule rests, are modelled. *)

From stdpp Require Import prelude gmap strings list.
From Stdlib Require Import ZArith Lia Ascii.
From S2P Require Import Prelude GoTime GoStrings.
Local Open Scope Z_scope.
Local Open Scope go_scope.

(** ** The schemas *)

Record NamespaceFilters := mkNamespaceFilters { Allow : list string; Deny : list string }.
Record Filters := mkFilters { Namespaces : NamespaceFilters }.
Record SpoolConfig := mkSpoolConfig { Dir : string; MaxAgeHours : Z }.
Record Backend := mkBackend { BaseURL : string }.
Record NodeIntakeConfig := mkNodeIntakeConfig {
  ni_Enabled : bool; ni_ListenAddress : string; ni_Audience : string; ni_ExpectedSubject : string;
}.
Record PprofDiscovery := mkPprofDiscovery { pd_Enabled : bool; pd_Pull : bool }.
Record ControllerProfiling := mkControllerProfiling {
  cp_Enabled : bool; cp_TopN : Z; cp_Pprof : PprofDiscovery; cp_AllowedModulePrefixes : list string; cp_ThirdPartySymbols : string;
}.
Record Health := mkHealth { h_ListenAddress : string }.
Record Collection := mkCollection { c_ListenAddress : string }.
Record Config := mkConfig {
  cf_Filters : Filters; cf_Spool : SpoolConfig; cf_Backend : Backend; cf_NodeIntake : NodeIntakeConfig;
  cf_Profiling : ControllerProfiling; cf_Health : Health; cf_Collection : Collection;
}.
Definition zeroConfig : Config :=
  mkConfig (mkFilters (mkNamespaceFilters [] [])) (mkSpoolConfig "" 0) (mkBackend "") (mkNodeIntakeConfig false "" "" "")
    (mkControllerProfiling false 0 (mkPprofDiscovery false false) [] "") (mkHealth "") (mkCollection "").

Record NodeProfiling := mkNodeProfiling {
  np_AllowedModulePrefixes : list string; np_ThirdPartySymbols : string; np_CaptureDurationSeconds : Z;
  np_IntervalSeconds : Z; np_OverheadCeilingPercent : Z;
}.
Record NodeConfig := mkNodeConfig { nc_Profiling : NodeProfiling }.
Definition zeroNodeConfig : NodeConfig := mkNodeConfig (mkNodeProfiling [] "" 0 0 0).

Definition DefaultProfilingTopN : Z := 5.
Definition DefaultProfilingCaptureDurationSeconds : Z := 60.
Definition DefaultProfilingIntervalSeconds : Z := 300.
Definition DefaultProfilingOverheadCeilingPercent : Z := 5.
Definition ThirdPartySymbolsDrop : string := "drop".
Definition ThirdPartySymbolsKeep : string := "keep".

(** ** Defaults *)

Definition positive_or (default_ n : Z) : Z := if n <=? 0 then default_ else n.

Definition ControllerNormalized (p : ControllerProfiling) : ControllerProfiling :=
  mkControllerProfiling (cp_Enabled p) (positive_or DefaultProfilingTopN (cp_TopN p)) (cp_Pprof p) (cp_AllowedModulePrefixes p)
    (cp_ThirdPartySymbols p).
Definition NodeNormalized (p : NodeProfiling) : NodeProfiling :=
  mkNodeProfiling (np_AllowedModulePrefixes p)
    (if bool_decide (np_ThirdPartySymbols p = ""%string) then ThirdPartySymbolsDrop else np_ThirdPartySymbols p)
    (positive_or DefaultProfilingCaptureDurationSeconds (np_CaptureDurationSeconds p))
    (positive_or DefaultProfilingIntervalSeconds (np_IntervalSeconds p))
    (positive_or DefaultProfilingOverheadCeilingPercent (np_OverheadCeilingPercent p)).

(** ** [net.SplitHostPort] *)

Fixpoint index_byte (c : ascii) (s : string) : option nat :=
  match s with
  | EmptyString => None
  | String d s => if bool_decide (d = c) then Some 0%nat else S <$> index_byte c s
  end.
Fixpoint last_index_byte (c : ascii) (s : string) : option nat :=
  match s with
  | EmptyString => None
  | String d s => match last_index_byte c s with
                  | Some i => Some (S i)
                  | None => if bool_decide (d = c) then Some 0%nat else None
                  end
  end.
(** [s[i:j]] and [s[i:]]. *)
Definition slice (s : string) (i j : nat) : string := String.substring i (j - i) s.
Definition slice_from (s : string) (i : nat) : string := String.substring i (String.length s - i) s.
Definition byte_at (s : string) (i : nat) : option ascii := String.get i s.

Definition SplitHostPort (hostport : string) : option (string * string) :=
  i ← last_index_byte ":"%char hostport;
  '(host, j, k) ←
    (if bool_decide (byte_at hostport 0 = Some "["%char) then
       end_ ← index_byte "]"%char hostport;
       if (S end_ =? String.length hostport)%nat then None
       else if (S end_ =? i)%nat then Some (slice hostport 1 end_, 1%nat, S end_)
       else None
     else
       let host := slice hostport 0 i in
       if has_byte ":"%char host then None else Some (host, 0%nat, 0%nat));
  if has_byte "["%char (slice_from hostport j) then None
  else if has_byte "]"%char (slice_from hostport k) then None
  else Some (host, slice_from hostport (S i)).

(** ** [net.ParseIP]: sixteen bytes, an IPv4 address in its mapped form *)

Definition v4_mapped (fields : list Z) : list Z := replicate 10 0 ++ [255; 255] ++ fields.

(** One decimal field: digits, no leading zero, at most 255. *)
Fixpoint v4_field (val : Z) (digits : nat) (s : string) : option Z :=
  match s with
  | EmptyString => if (digits =? 0)%nat then None else Some val
  | String c s =>
      d ← digit_value c;
      if (digits =? 1)%nat && (val =? 0) then None
      else let val := val * 10 + d in if 255 <? val then None else v4_field val (S digits) s
  end.
Definition parseIPv4Fields (s : string) : option (list Z) :=
  fields ← mapM (v4_field 0 0) (SplitByte s "."%char);
  if (length fields =? 4)%nat then Some fields else None.

Definition hex_digit (c : ascii) : option Z :=
  let n := Z.of_N (N_of_ascii c) in
  if (48 <=? n) && (n <=? 57) then Some (n - 48)
  else if (97 <=? n) && (n <=? 102) then Some (n - 87)
  else if (65 <=? n) && (n <=? 70) then Some (n - 55)
  else None.
(** The leading hex digits: the number, how many, and the rest. *)
Fixpoint hex_field (acc : Z) (off : nat) (s : string) : option (Z * nat * string) :=
  match s with
  | EmptyString => Some (acc, off, s)
  | String c s' =>
      match hex_digit c with
      | None => Some (acc, off, s)
      | Some d => if (3 <? off)%nat then None else hex_field (acc * 16 + d) (S off) s'
      end
  end.

(** The loop over the groups; [left] is how many more fit. *)
Fixpoint v6_groups (left_ : nat) (ip : list Z) (ellipsis : option nat) (s : string) : option (list Z * option nat * string) :=
  match left_ with
  | O => Some (ip, ellipsis, s)
  | S left' =>
      '(acc, off, rest) ← hex_field 0 0 s;
      if (off =? 0)%nat then None
      else if bool_decide (byte_at rest 0 = Some "."%char) then
        if bool_decide (ellipsis = None) && negb (length ip =? 12)%nat then None
        else if (16 <? length ip + 4)%nat then None
        else fields ← parseIPv4Fields s; Some (ip ++ fields, ellipsis, ""%string)
      else
        let ip := ip ++ [acc / 256; acc mod 256] in
        match rest with
        | EmptyString => Some (ip, ellipsis, rest)
        | String c rest =>
            if negb (bool_decide (c = ":"%char)) then None
            else match rest with
                 | EmptyString => None
                 | String c' rest' =>
                     if bool_decide (c' = ":"%char) then
                       if bool_decide (is_Some ellipsis) then None
                       else if bool_decide (rest' = ""%string) then Some (ip, Some (length ip), rest')
                       else v6_groups left' ip (Some (length ip)) rest'
                     else v6_groups left' ip ellipsis rest
                 end
        end
  end.
Definition parseIPv6 (s : string) : option (list Z) :=
  if bool_decide (s = "::"%string) then Some (replicate 16 0)
  else
    let '(ellipsis, s) := match CutPrefix s "::" with Some s => (Some 0%nat, s) | None => (None, s) end in
    '(ip, ellipsis, rest) ← v6_groups 8 [] ellipsis s;
    if negb (bool_decide (rest = ""%string)) then None
    else if (length ip <? 16)%nat then
      e ← ellipsis; Some (take e ip ++ replicate (16 - length ip) 0 ++ drop e ip)
    else if bool_decide (is_Some ellipsis) then None else Some ip.

(** The first of ".", ":" and "%" says what it is; a zone is refused. *)
Fixpoint address_kind (s : string) : option ascii :=
  match s with
  | EmptyString => None
  | String c s => if bool_decide (c ∈ [".";":";"%"]%char) then Some c else address_kind s
  end.
Definition ParseIP (s : string) : option (list Z) :=
  match address_kind s with
  | Some "."%char => v4_mapped <$> parseIPv4Fields s
  | Some ":"%char => if has_byte "%"%char s then None else parseIPv6 s
  | _ => None
  end.

Definition IsLoopback (ip : list Z) : bool :=
  if bool_decide (take 12 ip = v4_mapped []) then bool_decide (ip !! 12%nat = Some 127)
  else bool_decide (ip = replicate 15 0 ++ [1]).

(** ** Validation *)

Inductive config_error :=
| BadThirdPartySymbols (s : string) | NotHostPort (raw : string) | NotLoopback (raw : string)
| NotAURL (raw : string) | NotHTTP (raw : string) | NoHost (raw : string).

Definition validThirdPartySymbols (s : string) : option config_error :=
  if bool_decide (s ∈ [""%string; ThirdPartySymbolsDrop; ThirdPartySymbolsKeep]) then None else Some (BadThirdPartySymbols s).

Definition validCollectionListenAddress (raw : string) : option config_error :=
  if bool_decide (raw = ""%string) then None
  else match SplitHostPort raw with
       | None => Some (NotHostPort raw)
       | Some (host, _) =>
           if bool_decide (host = "localhost"%string) then None
           else match ParseIP host with
                | Some ip => if IsLoopback ip then None else Some (NotLoopback raw)
                | None => Some (NotLoopback raw)
                end
       end.

Section parse.
(** The scheme and host [url.Parse] finds. *)
Context (parse_url : string -> option (string * string)).

Definition validBackendBaseURL (raw : string) : option config_error :=
  if bool_decide (raw = ""%string) then None
  else match parse_url raw with
       | None => Some (NotAURL raw)
       | Some (scheme, host) =>
           if negb (bool_decide (scheme = "http"%string)) && negb (bool_decide (scheme = "https"%string)) then Some (NotHTTP raw)
           else if bool_decide (host = ""%string) then Some (NoHost raw) else None
       end.

Definition Validate (c : Config) : option config_error :=
  match validThirdPartySymbols (cp_ThirdPartySymbols (cf_Profiling c)) with
  | Some e => Some e
  | None =>
      match validCollectionListenAddress (c_ListenAddress (cf_Collection c)) with
      | Some e => Some e
      | None => validBackendBaseURL (BaseURL (cf_Backend c))
      end
  end.
End parse.
Definition NodeValidate (c : NodeConfig) : option config_error := validThirdPartySymbols (np_ThirdPartySymbols (nc_Profiling c)).

(** ** Loading *)

Inductive load_error := ReadingConfig | ParsingConfig (path : string) | InvalidConfig (path : string) (e : config_error).

(** [load]: what the file holds and what strict decoding makes of it, an error
    leaving whatever had been decoded by then. *)
Definition load {T} (zero : T) (validate : T -> option config_error) (read_file : string -> option string)
    (unmarshal : string -> T * bool) (path : string) : T * option load_error :=
  if bool_decide (path = ""%string) then (zero, None)
  else match read_file path with
       | None => (zero, Some ReadingConfig)
       | Some raw =>
           let '(cfg, ok) := unmarshal raw in
           if negb ok then (cfg, Some (ParsingConfig path))
           else match validate cfg with
                | Some e => (zero, Some (InvalidConfig path e))
                | None => (cfg, None)
                end
       end.
Definition Load parse_url read_file unmarshal path : Config * option load_error :=
  load zeroConfig (Validate parse_url) read_file unmarshal path.
Definition LoadNode read_file unmarshal path : NodeConfig * option load_error := load zeroNodeConfig NodeValidate read_file unmarshal path.

(** ** The shape *)

Record Shape := mkShape {
  Since : Time; NamespacesAllowed : Z; NamespacesDenied : Z; ProfilingEnabled : bool; ProfilingTopN : Z;
  PprofDiscoveryEnabled : bool; PprofPullEnabled : bool; SymbolPrefixesAllowed : Z; NodeIntakeEnabled : bool;
  BackendConfigured : bool; SpoolMaxAgeHours : Z;
}.
(** [mtime] is what [os.Stat] says of the path. *)
Definition configSince (mtime : string -> option Time) (path : string) (started : Time) : Time :=
  if bool_decide (path = ""%string) then started else default started (mtime path).
Definition Describe (mtime : string -> option Time) (c : Config) (path : string) (started : Time) : Shape :=
  mkShape (configSince mtime path started)
    (Z.of_nat (length (Allow (Namespaces (cf_Filters c))))) (Z.of_nat (length (Deny (Namespaces (cf_Filters c)))))
    (cp_Enabled (cf_Profiling c)) (cp_TopN (cf_Profiling c)) (pd_Enabled (cp_Pprof (cf_Profiling c))) (pd_Pull (cp_Pprof (cf_Profiling c)))
    (Z.of_nat (length (cp_AllowedModulePrefixes (cf_Profiling c)))) (ni_Enabled (cf_NodeIntake c))
    (negb (bool_decide (BaseURL (cf_Backend c) = ""%string))) (MaxAgeHours (cf_Spool c)).

Example addresses :
  (fun a => match validCollectionListenAddress a with None => true | _ => false end) <$>
    [""; "127.0.0.1:9091"; "localhost:1"; "[::1]:9091"; "[::ffff:127.0.0.9]:1"; "[0:0:0:0:0:0:0:1]:1";
     ":9091"; "0.0.0.0:9091"; "10.0.0.1:80"; "127.0.0.1"; "[::]:9091"; "[::1%lo]:1"; "127.0.00.1:1"; "[fe80::1]:1"; "host:1"; "[::2:1]:1";
     "1:2:3"; "[::1]"; "[::1]9091"; "]127.0.0.1:9091"]%string =
  [true; true; true; true; true; true; false; false; false; false; false; false; false; false; false; false; false; false; false; false].
Proof. vm_compute. reflexivity. Qed.

(** ** Which addresses are loopback *)

(** Membership in a list written out. *)
Ltac in_list := by apply (bool_decide_unpack _).
Ltac in_sublist H := repeat (apply elem_of_cons in H as [->|H]; [in_list|]); by apply not_elem_of_nil in H.

Lemma substring_all s : String.substring 0 (String.length s) s = s.
Proof. induction s as [|c s IH]; [done|]. cbn. by rewrite IH. Qed.
Lemma substring_take h t : String.substring 0 (String.length h) (h +:+ t) = h.
Proof. induction h as [|c h IH]; [by destruct t|]. rewrite string_app_cons. cbn. by rewrite IH. Qed.
Lemma substring_drop h t n k : String.substring (String.length h + n) k (h +:+ t) = String.substring n k t.
Proof. induction h as [|c h IH]; [done|]. rewrite string_app_cons. cbn. by rewrite IH. Qed.

Lemma last_index_byte_app c h t :
  has_byte c t = false -> last_index_byte c (h +:+ String c t) = Some (String.length h).
Proof.
  intros Ht. assert (Hnone : last_index_byte c t = None).
  { clear h. induction t as [|d t IH]; [done|]. cbn in *. apply orb_false_iff in Ht as [Hd Ht]. rewrite IH by done.
    apply bool_decide_eq_false in Hd. by rewrite bool_decide_eq_false_2 by congruence. }
  induction h as [|d h IH].
  - rewrite string_app_nil. cbn. by rewrite Hnone, bool_decide_eq_true_2.
  - rewrite string_app_cons. cbn. by rewrite IH.
Qed.

Lemma SplitHostPort_host host port :
  (forall c, c ∈ [":";"[";"]"]%char -> has_byte c host = false /\ has_byte c port = false) ->
  SplitHostPort (host +:+ ":" +:+ port) = Some (host, port).
Proof.
  intros Hb. pose proof (Hb ":"%char ltac:(in_list)) as [Hc1 Hc2]. pose proof (Hb "["%char ltac:(in_list)) as [Ho1 Ho2].
  pose proof (Hb "]"%char ltac:(in_list)) as [Hq1 Hq2]. clear Hb. change (":" +:+ port) with (String ":" port).
  unfold SplitHostPort. rewrite last_index_byte_app by done. cbn [mbind option_bind].
  assert (bool_decide (byte_at (host +:+ String ":" port) 0 = Some "["%char) = false) as ->.
  { apply bool_decide_eq_false_2. unfold byte_at. destruct host as [|c host]; [done|]. rewrite string_app_cons. cbn.
    intros [= ->]. by cbn in Ho1. }
  unfold slice. rewrite Nat.sub_0_r, substring_take, Hc1. cbn [mbind option_bind].
  unfold slice_from. rewrite Nat.sub_0_r, substring_all, !has_byte_app. cbn [has_byte]. rewrite Ho1, Ho2, Hq1, Hq2. cbn.
  replace (S (String.length host)) with (String.length host + 1)%nat by lia. rewrite substring_drop, string_app_length. cbn.
  replace (String.length host + S (String.length port) - (String.length host + 1))%nat with (String.length port) by lia.
  by rewrite substring_all.
Qed.

Definition print_v4 (a b c d : Z) : string := FormatUint a +:+ String "." (FormatUint b +:+ String "." (FormatUint c +:+ String "." (FormatUint d))).

Definition v4_field_reads (n : Z) : bool :=
  bool_decide (v4_field 0 0 (FormatUint n) = Some n) &&
  forallb (fun c => negb (has_byte c (FormatUint n))) [".";":";"%";"[";"]"]%char.
Lemma v4_field_print n : 0 <= n < 256 ->
  v4_field 0 0 (FormatUint n) = Some n /\ (forall c, c ∈ [".";":";"%";"[";"]"]%char -> has_byte c (FormatUint n) = false).
Proof.
  intros Hn. assert (Hall : forallb v4_field_reads (Z.of_nat <$> seq 0 256) = true) by by vm_compute.
  rewrite forallb_forall in Hall. specialize (Hall n). unfold v4_field_reads in Hall.
  rewrite andb_true_iff, bool_decide_eq_true, forallb_forall in Hall. destruct Hall as [H1 H2].
  { apply list_elem_of_In, list_elem_of_fmap. exists (Z.to_nat n). split; [lia|]. apply elem_of_seq. lia. }
  split; [done|]. intros c Hc. apply negb_true_iff, H2, list_elem_of_In, Hc.
Qed.

Lemma parseIPv4Fields_print a b c d :
  Forall (fun n => 0 <= n < 256) [a; b; c; d] -> parseIPv4Fields (print_v4 a b c d) = Some [a; b; c; d].
Proof.
  rewrite !Forall_cons. intros (Ha & Hb & Hc & Hd & _). unfold parseIPv4Fields, print_v4.
  destruct (v4_field_print a Ha) as [Fa Na], (v4_field_print b Hb) as [Fb Nb], (v4_field_print c Hc) as [Fc Nc], (v4_field_print d Hd) as [Fd Nd].
  rewrite !SplitByte_app, SplitByte_one by (first [apply Na|apply Nb|apply Nc|apply Nd]; in_list).
  cbn. by rewrite Fa, Fb, Fc, Fd.
Qed.

Lemma address_kind_v4 s t : (forall c, c ∈ [".";":";"%"]%char -> has_byte c s = false) -> address_kind (s +:+ String "." t) = Some "."%char.
Proof.
  intros Hs. induction s as [|x s IH]; [done|]. rewrite string_app_cons. cbn [address_kind].
  assert (Hx : x ∉ [".";":";"%"]%char).
  { intros Hin. specialize (Hs x Hin). cbn in Hs. by rewrite bool_decide_eq_true_2 in Hs. }
  rewrite bool_decide_eq_false_2 by done. apply IH. intros c Hc. specialize (Hs c Hc). cbn in Hs. by apply orb_false_iff in Hs as [_ ?].
Qed.

Lemma index_byte_app c h t : has_byte c h = false -> index_byte c (h +:+ String c t) = Some (String.length h).
Proof.
  intros Hh. induction h as [|d h IH].
  - rewrite string_app_nil. cbn. by rewrite bool_decide_eq_true_2.
  - rewrite string_app_cons. cbn in *. apply orb_false_iff in Hh as [Hd Hh]. apply bool_decide_eq_false in Hd.
    rewrite bool_decide_eq_false_2 by congruence. by rewrite IH.
Qed.

Lemma SplitHostPort_bracketed host port :
  (forall c, c ∈ ["[";"]"]%char -> has_byte c host = false) -> (forall c, c ∈ [":";"[";"]"]%char -> has_byte c port = false) ->
  SplitHostPort (String "[" (host +:+ "]:" +:+ port)) = Some (host, port).
Proof.
  intros Hh Hp. pose proof (Hh "["%char ltac:(in_list)) as Ho1. pose proof (Hh "]"%char ltac:(in_list)) as Hq1.
  pose proof (Hp ":"%char ltac:(in_list)) as Hc2. pose proof (Hp "["%char ltac:(in_list)) as Ho2.
  pose proof (Hp "]"%char ltac:(in_list)) as Hq2. clear Hh Hp.
  change ("]:" +:+ port) with (String "]" (String ":" port)).
  assert (Hi : last_index_byte ":"%char (String "[" (host +:+ String "]" (String ":" port))) = Some (S (S (String.length host)))).
  { pose proof (last_index_byte_app ":"%char (String "[" (host +:+ "]")) port Hc2) as H.
    rewrite string_app_cons, <-string_app_assoc in H. change ("]" +:+ String ":" port) with (String "]" (String ":" port)) in H.
    rewrite H. cbn. rewrite string_app_length. cbn. do 2 f_equal. lia. }
  assert (He : index_byte "]"%char (String "[" (host +:+ String "]" (String ":" port))) = Some (S (String.length host))).
  { rewrite <-string_app_cons. by rewrite (index_byte_app "]"%char (String "[" host)) by (cbn; by rewrite Hq1). }
  unfold SplitHostPort. rewrite Hi, He. cbn [mbind option_bind byte_at String.get].
  rewrite bool_decide_eq_true_2 by done. cbn [String.length]. rewrite string_app_length. cbn [String.length].
  destruct (Nat.eqb_spec (S (S (String.length host))) (S (String.length host + S (S (String.length port))))); [lia|].
  rewrite Nat.eqb_refl. cbn [mbind option_bind].
  assert (Hcons : forall n k c t, String.substring (S n) k (String c t) = String.substring n k t) by done.
  assert (Hj : slice_from (String "[" (host +:+ String "]" (String ":" port))) 1 = host +:+ String "]" (String ":" port)).
  { unfold slice_from. rewrite Hcons. cbn [String.length]. rewrite Nat.sub_succ, Nat.sub_0_r. apply substring_all. }
  assert (Hk : slice_from (String "[" (host +:+ String "]" (String ":" port))) (S (S (String.length host))) = String ":" port).
  { unfold slice_from. rewrite Hcons. replace (S (String.length host)) with (String.length host + 1)%nat by lia.
    rewrite substring_drop, Hcons. cbn [String.length]. rewrite string_app_length. cbn [String.length].
    replace (S (String.length host + S (S (String.length port))) - S (String.length host + 1))%nat with (S (String.length port)) by lia.
    apply (substring_all (String ":" port)). }
  assert (Hr : slice_from (String "[" (host +:+ String "]" (String ":" port))) (S (S (S (String.length host)))) = port).
  { unfold slice_from. rewrite Hcons. replace (S (S (String.length host))) with (String.length host + 2)%nat by lia.
    rewrite substring_drop, !Hcons. cbn [String.length]. rewrite string_app_length. cbn [String.length].
    replace (S (String.length host + S (S (String.length port))) - S (String.length host + 2))%nat with (String.length port) by lia.
    apply substring_all. }
  rewrite Hj, Hk, Hr, has_byte_app. cbn [has_byte]. rewrite Ho1, Ho2, Hq2. cbn -[slice].
  unfold slice. rewrite Hcons. replace (S (String.length host) - 1)%nat with (String.length host) by lia.
  by rewrite substring_take.
Qed.

(** The addresses of the loopback: 127.0.0.0/8, in its mapped form, and ::1. *)
Definition loopback (ip : list Z) : Prop := take 13 ip = v4_mapped [127] \/ ip = replicate 15 0 ++ [1].

Lemma IsLoopback_spec ip : IsLoopback ip = true <-> loopback ip.
Proof.
  unfold IsLoopback, loopback. case_bool_decide as Hm; rewrite bool_decide_eq_true.
  - split.
    + intros H12. left. by rewrite (take_S_r _ _ _ H12), Hm.
    + intros [H| ->]; [|by vm_compute in Hm].
      assert (H' : take 13 ip !! 12%nat = Some 127) by (by rewrite H). by rewrite lookup_take_lt in H' by lia.
  - split; [by right|]. intros [H|H]; [|done]. destruct Hm. replace 12%nat with (12 `min` 13)%nat by done.
    by rewrite <-take_take, H.
Qed.

(** A host the listener may bind. *)
Definition bindable (host : string) : Prop := host = "localhost"%string \/ exists ip, ParseIP host = Some ip /\ loopback ip.

Lemma checked_host raw host port :
  raw <> ""%string -> SplitHostPort raw = Some (host, port) ->
  (bindable host -> validCollectionListenAddress raw = None) /\
  (~ bindable host -> validCollectionListenAddress raw = Some (NotLoopback raw)).
Proof.
  intros Hne Hs. unfold validCollectionListenAddress, bindable. rewrite bool_decide_eq_false_2, Hs by done.
  case_bool_decide as Hl; [split; [done|]; intros H; destruct H; by left|].
  destruct (ParseIP host) as [ip|] eqn:Hip.
  - destruct (IsLoopback ip) eqn:Hb.
    + split; [done|]. intros H. destruct H. right. exists ip. by rewrite <-IsLoopback_spec.
    + split; [|done]. intros [?|(ip' & [= <-] & H)]; [done|]. apply IsLoopback_spec in H. congruence.
  - split; [|done]. by intros [?|(ip & ? & _)].
Qed.

(** The IPv4 addresses among them. *)
Lemma bindable_v4 a b c d :
  Forall (fun n => 0 <= n < 256) [a; b; c; d] -> bindable (print_v4 a b c d) <-> a = 127.
Proof.
  intros Hr. pose proof (parseIPv4Fields_print a b c d Hr) as Hfields.
  pose proof Hr as (Ha & _)%Forall_cons. destruct (v4_field_print a Ha) as [_ Na].
  assert (Hkind : address_kind (print_v4 a b c d) = Some "."%char).
  { unfold print_v4. apply address_kind_v4. intros x Hx. apply Na. in_sublist Hx. }
  assert (Hip : ParseIP (print_v4 a b c d) = Some (v4_mapped [a; b; c; d])) by (unfold ParseIP; by rewrite Hkind, Hfields).
  unfold bindable. rewrite Hip. split.
  - intros [E|(ip & [= <-] & [H|H])]; [by rewrite E in Hkind| |done]. by injection H.
  - intros ->. right. eexists. split; [done|]. by left.
Qed.

Lemma print_v4_plain a b c d x :
  Forall (fun n => 0 <= n < 256) [a; b; c; d] -> x ∈ [":";"[";"]"]%char -> has_byte x (print_v4 a b c d) = false.
Proof.
  rewrite !Forall_cons. intros (Ha & Hb & Hc & Hd & _) Hx.
  destruct (v4_field_print a Ha) as [_ Na], (v4_field_print b Hb) as [_ Nb], (v4_field_print c Hc) as [_ Nc], (v4_field_print d Hd) as [_ Nd].
  unfold print_v4. clear -Hx Na Nb Nc Nd. repeat (apply elem_of_cons in Hx as [->|Hx]; [|]); [..|by apply not_elem_of_nil in Hx];
    repeat (rewrite has_byte_app || cbn [has_byte]); by rewrite Na, Nb, Nc, Nd by in_list.
Qed.

(** C34. The listener that names excluded objects opens nothing or binds to the
    loopback.  The address check passes the empty address, and a host with a port
    exactly when the host is localhost or parses to an address of 127.0.0.0/8 or
    to ::1, whether the host is written plainly or in brackets; any other host
    with a port is refused as not loopback, and what is no host and port as such.
    So of the dotted IPv4 addresses exactly those that begin with 127 pass, [::1]
    does, and a bare port never does. *)
Theorem collection_listener_is_loopback :
  validCollectionListenAddress "" = None /\
  (forall raw, raw <> ""%string ->
     match SplitHostPort raw with
     | None => validCollectionListenAddress raw = Some (NotHostPort raw)
     | Some (host, _) =>
         (bindable host -> validCollectionListenAddress raw = None) /\
         (~ bindable host -> validCollectionListenAddress raw = Some (NotLoopback raw))
     end) /\
  (forall port, (forall x, x ∈ [":";"[";"]"]%char -> has_byte x port = false) ->
     (forall host, (forall x, x ∈ [":";"[";"]"]%char -> has_byte x host = false) ->
        (validCollectionListenAddress (host +:+ ":" +:+ port) = None <-> bindable host)) /\
     (forall host, (forall x, x ∈ ["[";"]"]%char -> has_byte x host = false) ->
        (validCollectionListenAddress (String "[" (host +:+ "]:" +:+ port)) = None <-> bindable host)) /\
     (forall a b c d, Forall (fun n => 0 <= n < 256) [a; b; c; d] ->
        (validCollectionListenAddress (print_v4 a b c d +:+ ":" +:+ port) = None <-> a = 127)) /\
     validCollectionListenAddress (":" +:+ port) = Some (NotLoopback (":" +:+ port))) /\
  bindable "localhost" /\ bindable "::1" /\ ~ bindable "".
Proof.
  assert (Hiff : forall raw host port, raw <> ""%string -> SplitHostPort raw = Some (host, port) ->
    (validCollectionListenAddress raw = None <-> bindable host)).
  { intros raw host port Hne Hs. destruct (checked_host raw host port Hne Hs) as [H1 H2]. split; [|done].
    intros Hv. destruct (decide (host = "localhost"%string)) as [->|Hl]; [by left|]. right.
    unfold validCollectionListenAddress in Hv. rewrite bool_decide_eq_false_2, Hs, bool_decide_eq_false_2 in Hv by done.
    destruct (ParseIP host) as [ip|]; [|done]. exists ip. split; [done|]. apply IsLoopback_spec. by destruct (IsLoopback ip). }
  assert (Hempty : ~ bindable "") by (by intros [?|(ip & ? & _)]).
  split; [done|]. split; [|split; [|split_and!; [by left| |done]]].
  - intros raw Hne. destruct (SplitHostPort raw) as [[host port]|] eqn:Hs; [by apply checked_host with port|].
    unfold validCollectionListenAddress. by rewrite bool_decide_eq_false_2, Hs.
  - intros port Hp.
    assert (Hplain : forall host, (forall x, x ∈ [":";"[";"]"]%char -> has_byte x host = false) ->
      SplitHostPort (host +:+ ":" +:+ port) = Some (host, port)).
    { intros host Hh. apply SplitHostPort_host. intros c Hc. split; [by apply Hh|by apply Hp]. }
    assert (Hne : forall host, host +:+ ":" +:+ port <> ""%string).
    { intros host E. apply (f_equal String.length) in E. rewrite !string_app_length in E. cbn in E. lia. }
    split_and!.
    + intros host Hh. by apply (Hiff _ host port), Hplain.
    + intros host Hh. by apply (Hiff _ host port), SplitHostPort_bracketed.
    + intros a b c d Hr. rewrite <-(bindable_v4 a b c d Hr). apply (Hiff _ _ port); [done|]. apply Hplain.
      intros x Hx. by apply print_v4_plain.
    + apply (checked_host (":" +:+ port) "" port); [done| |done]. by apply (Hplain ""%string).
  - right. exists (replicate 15 0 ++ [1]). split; [vm_compute; reflexivity|by right].
Qed.

(** What a file must hold to be loaded. *)
Definition acceptable parse_url (c : Config) : Prop :=
  cp_ThirdPartySymbols (cf_Profiling c) ∈ [""; "drop"; "keep"]%string /\
  validCollectionListenAddress (c_ListenAddress (cf_Collection c)) = None /\
  (BaseURL (cf_Backend c) = ""%string \/
   exists scheme host, parse_url (BaseURL (cf_Backend c)) = Some (scheme, host) /\ scheme ∈ ["http"; "https"]%string /\ host <> ""%string).

(** A controller starts with the zero configuration or with one a file holds
    whole and acceptable; one that is not yields nothing of itself. *)
Lemma Load_accepts parse_url read_file unmarshal path :
  match Load parse_url read_file unmarshal path with
  | (c, None) => (path = ""%string /\ c = zeroConfig) \/
      (exists raw, read_file path = Some raw /\ unmarshal raw = (c, true) /\ acceptable parse_url c)
  | (c, Some (InvalidConfig _ _)) => c = zeroConfig
  | _ => True
  end.
Proof.
  unfold Load, load. case_bool_decide; [by left|]. destruct (read_file path) as [raw|]; [|done].
  destruct (unmarshal raw) as [c ok] eqn:Hu. destruct ok; cbn [negb]; [|done]. destruct (Validate parse_url c) as [e|] eqn:Hv; [done|].
  right. exists raw. split_and!; [done|done|]. unfold Validate, validThirdPartySymbols in Hv. unfold acceptable.
  case_bool_decide as Hs; [|done]. destruct (validCollectionListenAddress _) eqn:Hc; [done|]. split_and!; [done|done|].
  unfold validBackendBaseURL in Hv. case_bool_decide; [by left|]. right. destruct (parse_url _) as [[scheme host]|]; [|done].
  exists scheme, host. repeat case_bool_decide; cbn in Hv; try done; subst; split_and!; try done; set_solver.
Qed.

Lemma positive_or_pos d n : 0 < d -> 0 < positive_or d n.
Proof. unfold positive_or. intros. destruct (Z.leb_spec n 0); lia. Qed.
Lemma positive_or_keeps d n : 0 < n -> positive_or d n = n.
Proof. unfold positive_or. intros. destruct (Z.leb_spec n 0); lia. Qed.

(** Defaults fill what is missing and change nothing that is given, once and for all. *)
Lemma NodeNormalized_spec p :
  let q := NodeNormalized p in
  NodeNormalized q = q /\ 0 < np_CaptureDurationSeconds q /\ 0 < np_IntervalSeconds q /\ 0 < np_OverheadCeilingPercent q /\
  np_ThirdPartySymbols q <> ""%string /\ np_AllowedModulePrefixes q = np_AllowedModulePrefixes p.
Proof.
  destruct p as [prefixes symbols capture interval overhead]. unfold NodeNormalized. cbn.
  rewrite !(positive_or_keeps _ (positive_or _ _)) by by apply positive_or_pos.
  split_and!; try by apply positive_or_pos.
  - f_equal. destruct (decide (symbols = ""%string)) as [->|Hs]; [done|]. by rewrite !bool_decide_eq_false_2 by by rewrite ?bool_decide_eq_false_2.
  - by case_bool_decide.
  - done.
Qed.

Lemma collection_listener_is_loopback_witness :
  validCollectionListenAddress "[::1]:9091" = None /\ validCollectionListenAddress "10.0.0.1:9091" <> None.
Proof.
  destruct collection_listener_is_loopback as (_ & _ & H & _ & H6 & _).
  assert (Hp : forall x, x ∈ [":";"[";"]"]%char -> has_byte x "9091" = false).
  { intros x Hx. repeat (apply elem_of_cons in Hx as [->|Hx]; [reflexivity|]). by apply not_elem_of_nil in Hx. }
  destruct (H "9091"%string Hp) as (_ & Hb & H4 & _). split.
  - apply (Hb "::1"%string); [|done]. intros x Hx. repeat (apply elem_of_cons in Hx as [->|Hx]; [reflexivity|]).
    by apply not_elem_of_nil in Hx.
  - intros E. apply (H4 10 0 0 1) in E; [lia|]. repeat apply Forall_cons_2; try apply Forall_nil_2; lia.
Defined.
