(* ===== verification/Histogram.v ===== *)
(** The frozen logarithmic histogram of [internal/rollup/histogram.go]: the
    bucket grid in 32.32 fixed point, the bucket search, counting, merging, and
    the JSON form a histogram is spooled and recovered in. *)

From stdpp Require Import prelude gmap strings sorting.
From Stdlib Require Import ZArith Lia.
From S2P Require Import Prelude GoStrings.
Local Open Scope Z_scope.

(** ** The grid *)

Definition octaveSteps : list Z :=
  [4294967296; 4683695048; 5107605667; 5569883475;
   6074001000; 6623745059; 7223245206; 7877004752].

Definition fixedShift : Z := 32.
Definition cpuAnchorShift : Z := 0.
Definition memoryAnchorShift : Z := 20.

Record Histogram := mkHistogram { anchorShift : Z; counts : gmap Z Z }.

Definition NewCPUHistogram : Histogram := mkHistogram cpuAnchorShift ∅.
Definition NewMemoryHistogram : Histogram := mkHistogram memoryAnchorShift ∅.

(** [bits.Mul64]: the high and low words of the full product. *)
Definition Mul64 (x y : Z) : Z * Z := ((x * y) / 2 ^ 64, (x * y) mod 2 ^ 64).
(** [bits.Len64]: the number of bits needed to represent x. *)
Definition Len64 (x : Z) : Z := if x =? 0 then 0 else Z.log2 x + 1.

Definition octave (m : Z) : Z := nth (Z.to_nat m) octaveSteps 0.

Definition bound (h : Histogram) (j : Z) : Z :=
  if j <? 0 then 0
  else
    let shift := anchorShift h + j / 8 in
    if 62 <? shift then maxUint64
    else
      let '(hi, lo) := Mul64 (Z.shiftl 1 shift) (octave (j mod 8)) in
      Z.lor (wrapU64 (Z.shiftl hi (64 - fixedShift))) (Z.shiftr lo fixedShift).

(** The loop [for m := 7; m > 0; m--] of [Index], with its fall-through. *)
Fixpoint index_loop (h : Histogram) (u q : Z) (m : nat) : Z :=
  match m with
  | O => 8 * q + 1
  | S m' => let j := 8 * q + Z.of_nat m in
            if bound h j <=? u then j + 1 else index_loop h u q m'
  end.

Definition Index (h : Histogram) (v : Z) : Z :=
  if v <? Z.shiftl 1 (anchorShift h) then 0
  else index_loop h v (Len64 (Z.shiftr v (anchorShift h)) - 1) 7.

Definition LowerBound (h : Histogram) (i : Z) : Z := if i <=? 0 then 0 else bound h (i - 1).
Definition UpperBound (h : Histogram) (i : Z) : Z := bound h i.

(** ** Counting *)

Definition count_at (h : Histogram) (i : Z) : Z := default 0 (counts h !! i).

Definition bump (h : Histogram) (i n : Z) : Histogram :=
  mkHistogram (anchorShift h) (<[i := wrapU64 (count_at h i + n)]> (counts h)).

Definition Observe (h : Histogram) (v : Z) : Histogram := bump h (Index h v) 1.

Definition Count (h : Histogram) : Z := map_fold (fun _ c n => wrapU64 (n + c)) 0 (counts h).
Definition Counts (h : Histogram) : gmap Z Z := counts h.
Definition clone (h : Histogram) : Histogram := mkHistogram (anchorShift h) (counts h).

Inductive hist_error := DifferentAnchors | NoGrid | NotABound | OutOfRange | NotOnGrid | BadJSON.

Definition merge_counts (into from : gmap Z Z) : gmap Z Z :=
  map_fold (fun i c acc => if c =? 0 then acc
                           else <[i := wrapU64 (default 0 (acc !! i) + c)]> acc) into from.

Definition Merge (h o : Histogram) : result hist_error Histogram :=
  if negb (anchorShift h =? anchorShift o) then Err DifferentAnchors
  else Ok (mkHistogram (anchorShift h) (merge_counts (counts h) (counts o))).

(** ** The JSON form *)

Definition sorted_indices (h : Histogram) : list Z := sort_slice Z.ltb (map_to_list (counts h)).*1.

(** One member of the object: the bucket's lower bound and its count. *)
Definition entry (h : Histogram) (i : Z) : string * Z :=
  (FormatUint (LowerBound h i), count_at h i).

Definition quote : string := String (Ascii.ascii_of_nat 34) EmptyString.
Definition render_member (e : string * Z) : string :=
  quote +:+ e.1 +:+ quote +:+ ":" +:+ FormatUint e.2.
Fixpoint render_members (es : list (string * Z)) : string :=
  match es with
  | [] => ""
  | [e] => render_member e
  | e :: es' => render_member e +:+ "," +:+ render_members es'
  end.

Definition MarshalJSON (h : Histogram) : string :=
  "{" +:+ render_members (entry h <$> sorted_indices h) +:+ "}".

(** One iteration of the loop of [UnmarshalJSON]. *)
Definition unmarshal_entry (h : Histogram) (e : string * Z) : result hist_error Histogram :=
  match ParseUint e.1 with
  | None => Err NotABound
  | Some v =>
      if maxInt64 <? v then Err OutOfRange
      else let i := Index h v in
           if negb (LowerBound h i =? v) then Err NotOnGrid else Ok (bump h i e.2)
  end.

Fixpoint unmarshal_loop (h : Histogram) (es : list (string * Z)) : result hist_error Histogram :=
  match es with
  | [] => Ok h
  | e :: es' => let! h' := unmarshal_entry h e in unmarshal_loop h' es'
  end.

(** [raw] is what [encoding/json] made of the bytes as a [map[string]uint64]
    ([None] when it refused them); [h] is the receiver, [None] when it carries
    no grid ([counts == nil]).  The loop runs over the map in any order. *)
Definition UnmarshalJSON (h : option Histogram) (raw : option (gmap string Z)) : result hist_error Histogram :=
  match raw, h with
  | None, _ => Err BadJSON
  | _, None => Err NoGrid
  | Some m, Some h => unmarshal_loop h (map_to_list m)
  end.

(** ** Well-formed histograms *)

(** The two grids the constructors build satisfy [0 <= anchorShift <= 62]. *)
Definition grid_ok (h : Histogram) : Prop := 0 <= anchorShift h <= 62.

Lemma grid_ok_cpu m : grid_ok (mkHistogram cpuAnchorShift m).
Proof. done. Qed.
Lemma grid_ok_memory m : grid_ok (mkHistogram memoryAnchorShift m).
Proof. done. Qed.
#[export] Hint Resolve grid_ok_cpu grid_ok_memory : agent.

(** A bucket some representable value falls into. *)
Definition occupied (h : Histogram) (i : Z) : Prop := exists v, v <= maxInt64 /\ Index h v = i.

(** Every bucket held is one a value reached, with a nonzero count that fits. *)
Definition hist_ok (h : Histogram) : Prop :=
  grid_ok h /\ map_Forall (fun i c => 0 < c <= maxUint64 /\ occupied h i) (counts h).

(** ** Boundaries *)

Lemma lor_disjoint a b n : 0 <= n -> 0 <= b < 2 ^ n -> Z.lor (Z.shiftl a n) b = a * 2 ^ n + b.
Proof.
  intros Hn Hb.
  assert (Z.land (Z.shiftl a n) b = 0) as Hl.
  { apply Z.bits_inj'. intros i Hi. rewrite Z.land_spec, Z.bits_0.
    destruct (Z.ltb_spec i n).
    - by rewrite Z.shiftl_spec_low.
    - rewrite <-(Z.mod_small b (2 ^ n)) by lia.
      by rewrite Z.mod_pow2_bits_high, andb_false_r by lia. }
  rewrite <-Z.lxor_lor, <-Z.add_nocarry_lxor by done.
  by rewrite Z.shiftl_mul_pow2.
Qed.

Lemma octave_cases m : 0 <= m < 8 ->
  m = 0 \/ m = 1 \/ m = 2 \/ m = 3 \/ m = 4 \/ m = 5 \/ m = 6 \/ m = 7.
Proof. lia. Qed.

#[local] Ltac octaves H := repeat destruct H as [->|H]; [..|subst]; vm_compute; try done.

Lemma octave_range m : 0 <= m < 8 -> 2 ^ 32 <= octave m < 2 ^ 33.
Proof. intros H%octave_cases. octaves H. Qed.

Lemma octave_mono m : 0 <= m < 7 -> octave m < octave (m + 1).
Proof. intros H. assert (0 <= m < 8) as H8%octave_cases by lia. octaves H8. lia. Qed.

Section grid.
Context (h : Histogram) (Hg : grid_ok h).
Abbreviation a := (anchorShift h).

(** The 128-bit product shifted back down is the floor of the exact quotient. *)
Lemma bound_exact j :
  0 <= j -> a + j / 8 <= 62 -> bound h j = 2 ^ (a + j / 8) * octave (j mod 8) / 2 ^ 32.
Proof.
  intros Hj Hs. unfold bound, grid_ok in *. pose proof (Z.div_pos j 8).
  rewrite (proj2 (Z.ltb_ge j 0)), (proj2 (Z.ltb_ge 62 _)) by lia.
  cbv [Mul64 fixedShift]. rewrite Z.shiftl_1_l.
  pose proof (octave_range (j mod 8) ltac:(apply Z.mod_pos_bound; lia)) as Ho.
  assert (0 < 2 ^ (a + j / 8) <= 2 ^ 62) as Hp.
  { split; [apply Z.pow_pos_nonneg; lia|apply Z.pow_le_mono_r; lia]. }
  set (x := 2 ^ (a + j / 8) * octave (j mod 8)).
  assert (0 <= x < 2 ^ 95) as Hx by (subst x; nia).
  unfold wrapU64. rewrite Z.mod_small.
  - rewrite lor_disjoint, Z.shiftr_div_pow2 by (rewrite ?Z.shiftr_div_pow2; divmod_lia).
    divmod_lia.
  - rewrite Z.shiftl_mul_pow2 by lia. divmod_lia.
Qed.

Lemma bound_saturated j : 0 <= j -> 62 < a + j / 8 -> bound h j = maxUint64.
Proof.
  intros Hj Hs. unfold bound.
  by rewrite (proj2 (Z.ltb_ge j 0)), (proj2 (Z.ltb_lt 62 _)) by lia.
Qed.

Lemma bound_octave q : 0 <= q -> a + q <= 62 -> bound h (8 * q) = 2 ^ (a + q).
Proof.
  intros Hq Hs. assert (8 * q / 8 = q) as E by divmod_lia.
  rewrite bound_exact, E by lia.
  assert ((8 * q) mod 8 = 0) as -> by divmod_lia.
  change (octave 0) with (2 ^ 32). apply Z.div_mul. lia.
Qed.

Lemma bound_lt_max j : 0 <= j -> a + j / 8 <= 62 -> bound h j <= 2 ^ 63.
Proof.
  intros Hj Hs. rewrite bound_exact by done.
  pose proof (octave_range (j mod 8) ltac:(apply Z.mod_pos_bound; lia)).
  assert (0 < 2 ^ (a + j / 8) <= 2 ^ 62).
  { unfold grid_ok in *. pose proof (Z.div_pos j 8).
    split; [apply Z.pow_pos_nonneg; lia|apply Z.pow_le_mono_r; lia]. }
  apply Z.div_le_upper_bound; nia.
Qed.

Lemma bound_step j : bound h j <= bound h (j + 1).
Proof.
  destruct (Z.ltb_spec j 0).
  { unfold bound at 1. rewrite (proj2 (Z.ltb_lt j 0)) by lia.
    destruct (Z.ltb_spec (j + 1) 0); [by unfold bound; rewrite (proj2 (Z.ltb_lt _ 0))|].
    assert (j + 1 = 8 * 0) as -> by lia. unfold grid_ok in *.
    rewrite bound_octave by lia. lia. }
  unfold grid_ok in *. destruct (Z.ltb_spec 62 (a + (j + 1) / 8)).
  { rewrite (bound_saturated (j + 1)) by lia.
    destruct (Z.ltb_spec 62 (a + j / 8)); [by rewrite bound_saturated by lia|].
    pose proof (bound_lt_max j). go_lia. }
  assert (j / 8 <= (j + 1) / 8) by (apply Z.div_le_mono; lia).
  pose proof (Z.div_pos j 8).
  destruct (Z.eqb_spec (j mod 8) 7).
  - assert ((j + 1) / 8 = j / 8 + 1) as E by divmod_lia.
    assert (j + 1 = 8 * (j / 8 + 1)) as -> by divmod_lia.
    rewrite bound_octave, bound_exact by lia.
    pose proof (octave_range (j mod 8) ltac:(lia)).
    rewrite Z.add_assoc, (Z.pow_add_r 2 (a + j / 8) 1) by lia.
    apply Z.div_le_upper_bound; [lia|].
    change (2 ^ 1) with 2. assert (0 < 2 ^ (a + j / 8)) by (apply Z.pow_pos_nonneg; lia). nia.
  - pose proof (Z.mod_pos_bound j 8).
    assert ((j + 1) / 8 = j / 8 /\ (j + 1) mod 8 = j mod 8 + 1) as [E1 E2] by divmod_lia.
    rewrite !bound_exact, E1, E2 by lia.
    apply Z.div_le_mono; [lia|]. pose proof (octave_mono (j mod 8)).
    assert (0 < 2 ^ (a + j / 8)) by (apply Z.pow_pos_nonneg; lia). nia.
Qed.

Lemma bound_mono i j : i <= j -> bound h i <= bound h j.
Proof.
  intros Hij. replace j with (i + Z.of_nat (Z.to_nat (j - i))) by lia.
  induction (Z.to_nat (j - i)) as [|n IH]; [rewrite Z.add_0_r; lia|].
  etrans; [apply IH|]. rewrite Nat2Z.inj_succ, <-Z.add_1_r, Z.add_assoc. apply bound_step.
Qed.
End grid.

Section search.
Context (h : Histogram) (Hg : grid_ok h).
Abbreviation a := (anchorShift h).

(** The search keeps "[u] is below the bound after the one under test". *)
Lemma index_loop_spec u q m :
  bound h (8 * q) <= u -> u < bound h (8 * q + Z.of_nat m + 1) ->
  let i := index_loop h u q m in
  8 * q + 1 <= i /\ bound h (i - 1) <= u < bound h i.
Proof.
  intros Hlo. induction m as [|m IH]; cbn [index_loop]; intros Hhi.
  - rewrite Z.add_0_r in Hhi. by replace (8 * q + 1 - 1) with (8 * q) by lia.
  - destruct (Z.leb_spec (bound h (8 * q + Z.of_nat (S m))) u).
    + split; [lia|]. by rewrite Z.add_simpl_r.
    + apply IH. by replace (8 * q + Z.of_nat m + 1) with (8 * q + Z.of_nat (S m)) by lia.
Qed.

Lemma Index_above v :
  2 ^ a <= v <= maxInt64 -> 1 <= Index h v /\ bound h (Index h v - 1) <= v < bound h (Index h v).
Proof.
  intros Hv. unfold Index, grid_ok in *. rewrite Z.shiftl_1_l, (proj2 (Z.ltb_ge _ _)) by lia.
  rewrite Z.shiftr_div_pow2 by lia.
  assert (0 < 2 ^ a) by (apply Z.pow_pos_nonneg; lia).
  assert (1 <= v / 2 ^ a) by (apply Z.div_le_lower_bound; lia).
  unfold Len64. destruct (Z.eqb_spec (v / 2 ^ a) 0); [lia|]. rewrite Z.add_simpl_r.
  set (q := Z.log2 (v / 2 ^ a)).
  destruct (Z.log2_spec (v / 2 ^ a)) as [Hq1 Hq2]; [lia|]. fold q in Hq1, Hq2.
  assert (0 <= q) by apply Z.log2_nonneg.
  assert (2 ^ (a + q) <= v < 2 ^ (a + (q + 1))) as Hqv.
  { rewrite !Z.pow_add_r by lia. rewrite Z.pow_succ_r, <-Z.pow_succ_r, <-Z.add_1_r in Hq2 by lia.
    rewrite Z.pow_add_r in Hq2 by lia. divmod_lia || (Z.div_mod_to_equations; nia). }
  assert (a + q <= 62).
  { destruct (Z.leb_spec (a + q) 62); [done|].
    assert (2 ^ 63 <= 2 ^ (a + q)) by (apply Z.pow_le_mono_r; lia). go_lia. }
  destruct (index_loop_spec v q 7) as [? ?].
  - rewrite (bound_octave h Hg) by lia. lia.
  - replace (8 * q + Z.of_nat 7 + 1) with (8 * (q + 1)) by lia.
    destruct (Z.leb_spec (a + (q + 1)) 62).
    + rewrite (bound_octave h Hg) by lia. lia.
    + rewrite bound_saturated; [go_lia|lia|].
      replace (8 * (q + 1) / 8) with (q + 1) by divmod_lia. lia.
  - split; [lia|done].
Qed.

Lemma Index_below v : v < 2 ^ a -> Index h v = 0.
Proof.
  intros Hv. unfold Index, grid_ok in *. by rewrite Z.shiftl_1_l, (proj2 (Z.ltb_lt _ _)).
Qed.

Lemma Index_nonneg v : v <= maxInt64 -> 0 <= Index h v.
Proof.
  intros Hv. destruct (Z.ltb_spec v (2 ^ a)); [rewrite Index_below; lia|].
  destruct (Index_above v); lia.
Qed.

Lemma Index_spec v :
  0 <= v <= maxInt64 -> LowerBound h (Index h v) <= v < UpperBound h (Index h v).
Proof.
  intros Hv. unfold LowerBound, UpperBound. destruct (Z.ltb_spec v (2 ^ a)).
  - rewrite Index_below by done. simpl. unfold grid_ok in *.
    pose proof (bound_octave h Hg 0). rewrite Z.mul_0_r, Z.add_0_r in *. lia.
  - destruct (Index_above v) as [? ?]; [lia|].
    destruct (Z.leb_spec (Index h v) 0); lia.
Qed.

(** Buckets do not overlap: no other index fits the value. *)
Lemma Index_unique v i :
  0 <= v <= maxInt64 -> 0 <= i -> LowerBound h i <= v < UpperBound h i -> Index h v = i.
Proof.
  intros Hv Hi Hb. destruct (Index_spec v Hv) as [Hlo Hhi].
  pose proof (Index_nonneg v ltac:(lia)).
  unfold LowerBound, UpperBound in *.
  destruct (Z.lt_trichotomy (Index h v) i) as [Hlt|[->|Hgt]]; [|done|].
  - pose proof (bound_mono h Hg (Index h v) (i - 1)). destruct (Z.leb_spec i 0); lia.
  - pose proof (bound_mono h Hg i (Index h v - 1)). destruct (Z.leb_spec (Index h v) 0); lia.
Qed.

(** A bucket's lower bound falls into the bucket, so it names it. *)
Lemma Index_LowerBound i :
  occupied h i -> 0 <= LowerBound h i <= maxInt64 /\ Index h (LowerBound h i) = i.
Proof.
  intros [v [Hv <-]]. destruct (Z.ltb_spec v (2 ^ a)) as [Hlt|Hge].
  { rewrite (Index_below v) by done. cbn. split; [go_lia|].
    apply Index_below. unfold grid_ok in *. apply Z.pow_pos_nonneg; lia. }
  assert (0 < 2 ^ a) by (unfold grid_ok in *; apply Z.pow_pos_nonneg; lia).
  assert (0 <= v <= maxInt64) as Hv' by lia.
  pose proof (Index_spec v Hv') as Hs. pose proof (Index_nonneg v ltac:(lia)).
  assert (0 <= LowerBound h (Index h v)).
  { unfold LowerBound. destruct (Z.leb_spec (Index h v) 0); [lia|].
    etrans; [|apply (bound_mono h Hg (-1)); lia]. done. }
  split; [lia|]. apply Index_unique; lia.
Qed.

Lemma Index_max v : v <= maxInt64 -> 0 <= Index h v <= 8 * (62 - a) + 8.
Proof.
  intros Hv. split; [by apply Index_nonneg|]. unfold grid_ok in *.
  destruct (Z.ltb_spec v (2 ^ a)); [rewrite Index_below by done; lia|].
  destruct (Index_above v) as [? [Hl _]]; [lia|].
  destruct (Z.leb_spec (Index h v) (8 * (62 - a) + 8)); [done|].
  pose proof (bound_mono h Hg (8 * (63 - a)) (Index h v - 1)).
  assert (bound h (8 * (63 - a)) = maxUint64).
  { apply bound_saturated; [lia|]. replace (8 * (63 - a) / 8) with (63 - a) by divmod_lia. lia. }
  go_lia.
Qed.
End search.

(** ** Counting and merging *)

Section counting.
Implicit Types (h o : Histogram).

Lemma merge_counts_lookup (m n : gmap Z Z) i :
  merge_counts m n !! i =
    match n !! i with
    | Some c => if c =? 0 then m !! i else Some (wrapU64 (default 0 (m !! i) + c))
    | None => m !! i
    end.
Proof.
  unfold merge_counts.
  induction n as [|k c n Hk Hfk IH] using map_first_key_ind.
  { by rewrite map_fold_empty, lookup_empty. }
  rewrite map_fold_insert_first_key by done.
  destruct (decide (i = k)) as [->|Hne].
  - rewrite lookup_insert_eq. rewrite Hk in IH.
    destruct (Z.eqb_spec c 0); [done|]. by rewrite lookup_insert_eq, IH.
  - rewrite lookup_insert_ne by done.
    destruct (Z.eqb_spec c 0); [done|]. by rewrite lookup_insert_ne.
Qed.

Lemma observe_lookup h v i :
  counts (Observe h v) !! i =
    if bool_decide (i = Index h v) then Some (wrapU64 (count_at h i + 1)) else counts h !! i.
Proof.
  unfold Observe, bump. simpl. case_bool_decide; subst.
  - by rewrite lookup_insert_eq.
  - by rewrite lookup_insert_ne.
Qed.

Lemma Index_same_grid h o v : anchorShift h = anchorShift o -> Index h v = Index o v.
Proof. destruct h as [x m], o as [y n]. simpl. by intros ->. Qed.

Lemma occupied_same_grid h o i : anchorShift h = anchorShift o -> occupied h i -> occupied o i.
Proof. intros Ha [v [? <-]]. exists v. split; [done|]. by apply Index_same_grid. Qed.

Lemma LowerBound_same_grid h o i : anchorShift h = anchorShift o -> LowerBound h i = LowerBound o i.
Proof. destruct h as [x m], o as [y n]. simpl. by intros ->. Qed.

Definition ObserveAll h (vs : list Z) : Histogram := foldl Observe h vs.

Lemma ObserveAll_anchor h vs : anchorShift (ObserveAll h vs) = anchorShift h.
Proof. revert h. induction vs as [|v vs IH]; intros h; [done|]. simpl. by rewrite IH. Qed.

(** How many of [vs] fall into bucket [i]. *)
Definition hits h (i : Z) (vs : list Z) : Z :=
  Z.of_nat (length (filter (fun v => Index h v = i) vs)).

Lemma hits_cons h i v vs :
  hits h i (v :: vs) = (if bool_decide (Index h v = i) then 1 else 0) + hits h i vs.
Proof. unfold hits. rewrite filter_cons. case_decide; case_bool_decide; simpl; lia || done. Qed.

Lemma hits_app h i vs ws : hits h i (vs ++ ws) = hits h i vs + hits h i ws.
Proof. unfold hits. rewrite filter_app, length_app. lia. Qed.

Lemma hits_bound h i vs : 0 <= hits h i vs <= Z.of_nat (length vs).
Proof. unfold hits. pose proof (length_filter (fun v => Index h v = i) vs). lia. Qed.

Lemma hits_same_grid h o i vs : anchorShift h = anchorShift o -> hits h i vs = hits o i vs.
Proof.
  intros Ha. induction vs as [|v vs IH]; [done|].
  by rewrite !hits_cons, IH, (Index_same_grid h o) by done.
Qed.

(** What a histogram holds after a run of observations, bucket by bucket. *)
Lemma ObserveAll_lookup h vs i :
  counts (ObserveAll h vs) !! i =
    if bool_decide (hits h i vs = 0) then counts h !! i
    else Some (wrapU64 (count_at h i + hits h i vs)).
Proof.
  revert h. induction vs as [|v vs IH]; intros h; [done|].
  cbn [ObserveAll foldl]. change (foldl Observe (Observe h v) vs) with (ObserveAll (Observe h v) vs).
  rewrite IH, (hits_same_grid (Observe h v) h) by done.
  rewrite hits_cons. unfold count_at at 1. rewrite observe_lookup.
  pose proof (hits_bound h i vs).
  destruct (decide (Index h v = i)) as [<-|Hne].
  - rewrite !(bool_decide_eq_true_2 (Index h v = _)) by done.
    rewrite (bool_decide_eq_false_2 (1 + _ = 0)) by lia.
    case_bool_decide as H0; [rewrite H0; do 2 f_equal; lia|].
    simpl. rewrite wrapU64_add_l. do 2 f_equal. lia.
  - rewrite (bool_decide_eq_false_2 (i = _)), (bool_decide_eq_false_2 (_ = i)) by done.
    done.
Qed.

Lemma ObserveAll_ok h vs :
  hist_ok h -> Forall (fun v => v <= maxInt64) vs ->
  (forall i, count_at h i + hits h i vs <= maxUint64) -> hist_ok (ObserveAll h vs).
Proof.
  intros [Hg Hc] Hv Hmax. split; [unfold grid_ok; by rewrite ObserveAll_anchor|].
  intros i c. rewrite ObserveAll_lookup. pose proof (hits_bound h i vs).
  case_bool_decide as H0.
  - intros Hi. destruct (Hc i c Hi) as [? ?]. split; [done|].
    eapply occupied_same_grid; [|done]. by rewrite ObserveAll_anchor.
  - intros [= <-]. specialize (Hmax i).
    assert (0 <= count_at h i).
    { unfold count_at. destruct (counts h !! i) as [c|] eqn:E; [|done].
      destruct (Hc i c E). simpl. lia. }
    rewrite wrapU64_id by go_lia. split; [lia|].
    unfold hits in H0. destruct (filter _ vs) as [|v l] eqn:E; [done|].
    assert (v ∈ filter (fun v => Index h v = i) vs) as Hin by (rewrite E; left).
    apply list_elem_of_filter in Hin as [Hidx Hin].
    rewrite Forall_forall in Hv. exists v. split; [by apply Hv|].
    rewrite <-Hidx. apply Index_same_grid. by rewrite ObserveAll_anchor.
Qed.
End counting.

(** ** The JSON round trip *)

Section json.
Context (h : Histogram) (Hok : hist_ok h).
Let Hg : grid_ok h := proj1 Hok.

Lemma entry_decodes acc i c :
  anchorShift acc = anchorShift h -> counts h !! i = Some c ->
  unmarshal_entry acc (FormatUint (LowerBound h i), c) = Ok (bump acc i c).
Proof.
  intros Ha Hi. destruct (proj2 Hok i c Hi) as [? Hocc].
  destruct (Index_LowerBound h Hg i Hocc) as [Hr Hidx].
  unfold unmarshal_entry. cbn [fst snd].
  rewrite ParseUint_FormatUint by go_lia.
  rewrite (proj2 (Z.ltb_ge _ _)) by lia.
  rewrite (Index_same_grid acc h), Hidx, (LowerBound_same_grid acc h) by done.
  by rewrite Z.eqb_refl.
Qed.

Lemma unmarshal_loop_entries (l : list (Z * Z)) acc :
  anchorShift acc = anchorShift h ->
  Forall (fun p => counts h !! p.1 = Some p.2) l -> NoDup l.*1 ->
  (forall i, i ∈ l.*1 -> counts acc !! i = None) ->
  unmarshal_loop acc ((fun p => (FormatUint (LowerBound h p.1), p.2)) <$> l)
    = Ok (mkHistogram (anchorShift h) (list_to_map l ∪ counts acc)).
Proof.
  revert acc. induction l as [|[i c] l IH]; intros acc Ha Hl Hnd Hfresh; csimpl.
  { rewrite (left_id_L ∅ _). destruct acc. simpl in *. by subst. }
  apply Forall_cons in Hl as [Hi Hl]. apply NoDup_cons in Hnd as [Hni Hnd]. cbn in Hi.
  rewrite (entry_decodes acc i c) by done. cbn [result_bind].
  assert (counts acc !! i = None) as Hfi by (apply Hfresh; csimpl; left).
  destruct (proj2 Hok i c Hi) as [Hc _].
  unfold bump, count_at. rewrite Hfi. simpl. rewrite wrapU64_id by go_lia.
  rewrite IH; [|done|done|done|].
  - cbn [counts]. f_equal. f_equal.
    rewrite <-insert_union_r by (apply not_elem_of_list_to_map_1; done).
    by rewrite insert_union_l.
  - intros k Hk. cbn [counts]. rewrite lookup_insert_ne by (intros ->; done).
    apply Hfresh. csimpl. by right.
Qed.

Lemma sorted_indices_perm : sorted_indices h ≡ₚ (map_to_list (counts h)).*1.
Proof. apply merge_sort_Permutation. Qed.

Lemma entries_perm :
  entry h <$> sorted_indices h ≡ₚ
    (fun p => (FormatUint (LowerBound h p.1), p.2)) <$> map_to_list (counts h).
Proof.
  rewrite sorted_indices_perm, <-list_fmap_compose.
  match goal with |- ?l ≡ₚ ?r => enough (l = r) as -> by done end.
  apply list_fmap_ext. intros k [i c] Hk. simpl. unfold entry, count_at.
  apply list_elem_of_lookup_2, elem_of_map_to_list in Hk. by rewrite Hk.
Qed.

Lemma entries_NoDup : NoDup (entry h <$> sorted_indices h).*1.
Proof.
  rewrite <-list_fmap_compose. apply (NoDup_fmap_2_strong _).
  - intros i j Hi Hj Heq. simpl in Heq.
    rewrite sorted_indices_perm in Hi, Hj.
    apply list_elem_of_fmap in Hi as [[? c] [-> Hi]]. apply list_elem_of_fmap in Hj as [[? d] [-> Hj]].
    apply elem_of_map_to_list in Hi, Hj. simpl in *.
    destruct (proj2 Hok _ _ Hi) as [_ Oi], (proj2 Hok _ _ Hj) as [_ Oj].
    destruct (Index_LowerBound h Hg _ Oi) as [Bi <-], (Index_LowerBound h Hg _ Oj) as [Bj <-].
    f_equal. apply FormatUint_inj; (lia || done).
  - rewrite sorted_indices_perm. apply NoDup_fst_map_to_list.
Qed.
End json.

(** ** Properties *)

(** Every value a counter can report lands in the bucket whose half-open
    interval holds it, and in no other: [Index] inverts the grid exactly. *)
Theorem Index_is_the_bucket (h : Histogram) (v : Z) :
  grid_ok h -> 0 <= v <= maxInt64 ->
  0 <= Index h v <= 8 * (62 - anchorShift h) + 8 /\
  LowerBound h (Index h v) <= v < UpperBound h (Index h v) /\
  (forall i, 0 <= i -> LowerBound h i <= v < UpperBound h i -> i = Index h v).
Proof.
  intros Hg Hv. split; [apply Index_max; [done|lia]|]. split; [by apply Index_spec|].
  intros i Hi Hb. symmetry. by apply Index_unique.
Qed.

Lemma Index_is_the_bucket_witness :
  0 <= Index NewMemoryHistogram 1500000 <= 8 * (62 - anchorShift NewMemoryHistogram) + 8 /\
  LowerBound NewMemoryHistogram (Index NewMemoryHistogram 1500000) <= 1500000
    < UpperBound NewMemoryHistogram (Index NewMemoryHistogram 1500000) /\
  (forall i, 0 <= i -> LowerBound NewMemoryHistogram i <= 1500000 < UpperBound NewMemoryHistogram i ->
   i = Index NewMemoryHistogram 1500000).
Proof.
  apply (Index_is_the_bucket NewMemoryHistogram 1500000); [apply grid_ok_memory|go_lia].
Defined.

Lemma octave_growth m : 0 <= m < 8 ->
  1000 * (if m =? 7 then 2 * octave 0 else octave (m + 1)) <= 1091 * octave m.
Proof. intros H%octave_cases. octaves H. Qed.

Lemma octave_rounded m : 0 <= m < 8 ->
  (2 * octave m - 1) ^ 8 <= 2 ^ (264 + m) <= (2 * octave m + 1) ^ 8.
Proof. intros H%octave_cases. octaves H. Qed.

Lemma bound_growth h j :
  grid_ok h -> 0 <= j -> anchorShift h + (j + 1) / 8 <= 62 ->
  1000 * bound h (j + 1) <= 1091 * (bound h j + 1).
Proof.
  intros Hg Hj Hs. unfold grid_ok in *. set (a := anchorShift h) in *.
  assert (j / 8 <= (j + 1) / 8) by (apply Z.div_le_mono; lia). pose proof (Z.div_pos j 8).
  pose proof (Z.mod_pos_bound j 8). pose proof (octave_growth (j mod 8)) as Hgr.
  assert (0 < 2 ^ (a + j / 8)) as Hp by (apply Z.pow_pos_nonneg; lia).
  rewrite (bound_exact h Hg j), (bound_exact h Hg (j + 1)) by (fold a; lia). fold a.
  set (p := 2 ^ (a + j / 8)) in *.
  assert (1000 * (2 ^ (a + (j + 1) / 8) * octave ((j + 1) mod 8)) <= 1091 * (p * octave (j mod 8))).
  { destruct (Z.eqb_spec (j mod 8) 7).
    - assert ((j + 1) / 8 = j / 8 + 1 /\ (j + 1) mod 8 = 0) as [-> ->] by divmod_lia.
      rewrite Z.add_assoc, Z.pow_add_r by lia. fold p. nia.
    - assert ((j + 1) / 8 = j / 8 /\ (j + 1) mod 8 = j mod 8 + 1) as [-> ->] by divmod_lia.
      fold p. nia. }
  divmod_lia.
Qed.

(** The grid constants are what their comments claim.  Each step is 2^(m/8)
    rounded to the nearest 32.32 fixed-point value; a boundary that does not
    saturate is the exact floor of anchor·step, so the 128-bit product never
    overflows the word it is shifted back into; boundaries never decrease; and
    one bucket is at most 9.1% wide (plus the integer rounding). *)
Theorem grid_boundaries (h : Histogram) (j : Z) :
  grid_ok h -> 0 <= j -> anchorShift h + (j + 1) / 8 <= 62 ->
  (2 * octave (j mod 8) - 1) ^ 8 <= 2 ^ (264 + j mod 8) <= (2 * octave (j mod 8) + 1) ^ 8 /\
  bound h j = 2 ^ (anchorShift h + j / 8) * octave (j mod 8) / 2 ^ fixedShift /\
  bound h j <= bound h (j + 1) /\
  1000 * bound h (j + 1) <= 1091 * (bound h j + 1).
Proof.
  intros Hg Hj Hs. assert (j / 8 <= (j + 1) / 8) by (apply Z.div_le_mono; lia).
  split; [apply octave_rounded, Z.mod_pos_bound; lia|].
  split; [apply bound_exact; (done || lia)|].
  split; [by apply bound_step|]. by apply bound_growth.
Qed.

Lemma grid_boundaries_witness :
  (2 * octave (100 mod 8) - 1) ^ 8 <= 2 ^ (264 + 100 mod 8) <= (2 * octave (100 mod 8) + 1) ^ 8 /\
  bound NewCPUHistogram 100 =
    2 ^ (anchorShift NewCPUHistogram + 100 / 8) * octave (100 mod 8) / 2 ^ fixedShift /\
  bound NewCPUHistogram 100 <= bound NewCPUHistogram (100 + 1) /\
  1000 * bound NewCPUHistogram (100 + 1) <= 1091 * (bound NewCPUHistogram 100 + 1).
Proof.
  apply (grid_boundaries NewCPUHistogram 100); [apply grid_ok_cpu|lia|vm_compute; discriminate].
Defined.

(** The merge property the backend relies on: two histograms that observed
    two batches of samples merge into the histogram that observed both, on any
    grid, bucket by bucket and with no zero-count bucket added or lost. *)
Theorem Merge_is_union (a : Z) (vs ws : list Z) :
  Z.of_nat (length (vs ++ ws)) <= maxUint64 ->
  Merge (ObserveAll (mkHistogram a ∅) vs) (ObserveAll (mkHistogram a ∅) ws)
    = Ok (ObserveAll (mkHistogram a ∅) (vs ++ ws)).
Proof.
  intros Hlen. rewrite length_app in Hlen. unfold Merge. rewrite !ObserveAll_anchor.
  cbn [anchorShift]. rewrite Z.eqb_refl. cbn [negb]. f_equal.
  set (e := mkHistogram a ∅).
  transitivity (mkHistogram (anchorShift e) (counts (ObserveAll e (vs ++ ws)))).
  2:{ rewrite <-(ObserveAll_anchor e (vs ++ ws)). by destruct (ObserveAll e (vs ++ ws)). }
  cbn [anchorShift e]. f_equal. apply map_eq. intros i.
  rewrite merge_counts_lookup, !ObserveAll_lookup, hits_app.
  pose proof (hits_bound e i vs). pose proof (hits_bound e i ws).
  assert (count_at e i = 0) as -> by done.
  assert (counts e !! i = None) as -> by done.
  destruct (decide (hits e i ws = 0)) as [Ew|Ew], (decide (hits e i vs = 0)) as [Ev|Ev].
  all: repeat first [rewrite bool_decide_eq_true_2 by lia | rewrite bool_decide_eq_false_2 by lia].
  all: cbn [default from_option]; rewrite ?Z.add_0_l; rewrite ?(wrapU64_id (hits _ _ _)) by go_lia.
  - done.
  - by rewrite Ew, Z.add_0_r, wrapU64_id by go_lia.
  - rewrite (proj2 (Z.eqb_neq _ _)) by lia. rewrite !wrapU64_id by go_lia. f_equal; lia.
  - rewrite (proj2 (Z.eqb_neq _ _)) by lia. done.
Qed.

Lemma Merge_is_union_witness :
  Merge (ObserveAll (mkHistogram 0 ∅) [3; 5]) (ObserveAll (mkHistogram 0 ∅) [5; 900])
    = Ok (ObserveAll (mkHistogram 0 ∅) ([3; 5] ++ [5; 900])).
Proof. apply (Merge_is_union 0 [3; 5] [5; 900]). simpl. go_lia. Defined.

(** A histogram that counts values reads back as itself: the members
    [MarshalJSON] writes have pairwise distinct keys (so no bucket is lost in the
    JSON object), and [UnmarshalJSON] of that object into an empty histogram of
    the same grid restores every bucket and count, whatever order the decoded
    map is iterated in. *)
Theorem histogram_roundtrip (h : Histogram) :
  hist_ok h ->
  NoDup (entry h <$> sorted_indices h).*1 /\
  UnmarshalJSON (Some (mkHistogram (anchorShift h) ∅))
                (Some (list_to_map (entry h <$> sorted_indices h))) = Ok h.
Proof.
  intros Hok. split; [by apply entries_NoDup|]. unfold UnmarshalJSON.
  set (es := entry h <$> sorted_indices h).
  assert (map_to_list (list_to_map es : gmap string Z) ≡ₚ es) as Hp
    by (apply map_to_list_to_map, entries_NoDup; done).
  unfold es in Hp at 2. rewrite (entries_perm h) in Hp.
  apply Permutation_map_inv in Hp as [l [-> Hl]].
  erewrite (unmarshal_loop_entries h Hok l); [|done|..].
  - cbn [counts]. rewrite (right_id_L ∅ _).
    assert (list_to_map l = counts h) as ->; [|by destruct h].
    rewrite <-(list_to_map_to_list (counts h)). symmetry. apply list_to_map_proper; [|done].
    apply NoDup_fst_map_to_list.
  - rewrite Forall_forall. intros [i c] Hin. simpl. apply elem_of_map_to_list. by rewrite Hl.
  - rewrite <-Hl. apply NoDup_fst_map_to_list.
  - done.
Qed.

Lemma histogram_roundtrip_witness :
  let h := ObserveAll NewCPUHistogram [0; 7; 250; 250; 4000] in
  NoDup (entry h <$> sorted_indices h).*1 /\
  UnmarshalJSON (Some (mkHistogram (anchorShift h) ∅))
                (Some (list_to_map (entry h <$> sorted_indices h))) = Ok h.
Proof.
  apply (histogram_roundtrip (ObserveAll NewCPUHistogram [0; 7; 250; 250; 4000])).
  apply ObserveAll_ok.
  - split; [apply grid_ok_cpu|]. apply map_Forall_empty.
  - repeat constructor; go_lia.
  - intros i. pose proof (hits_bound NewCPUHistogram i [0; 7; 250; 250; 4000]) as Hh.
    cbn [length] in Hh. change (count_at NewCPUHistogram i) with 0. go_lia.
Defined.

(** Recovery refuses a histogram from another grid: when [UnmarshalJSON]
    accepts an object, every key in it was a decimal in range that is exactly a
    lower bound of this histogram's grid. *)
Theorem UnmarshalJSON_only_bounds (h h' : Histogram) (raw : gmap string Z) (k : string) (c : Z) :
  UnmarshalJSON (Some h) (Some raw) = Ok h' -> raw !! k = Some c ->
  exists v, ParseUint k = Some v /\ v <= maxInt64 /\ LowerBound h (Index h v) = v.
Proof.
  unfold UnmarshalJSON. intros Hu Hk. apply elem_of_map_to_list in Hk.
  assert (forall es acc, anchorShift acc = anchorShift h -> (k, c) ∈ es ->
    unmarshal_loop acc es = Ok h' ->
    exists v, ParseUint k = Some v /\ v <= maxInt64 /\ LowerBound h (Index h v) = v) as Hgen.
  2:{ by apply (Hgen (map_to_list raw) h). }
  clear Hu Hk. induction es as [|e es IH]; intros acc Ha Hin Hu; [by apply not_elem_of_nil in Hin|].
  cbn [unmarshal_loop] in Hu. destruct (unmarshal_entry acc e) as [acc'|] eqn:E; [|done].
  cbn [result_bind] in Hu. unfold unmarshal_entry in E.
  destruct (ParseUint e.1) as [v|] eqn:Ep; [|done].
  destruct (Z.ltb_spec maxInt64 v); [done|].
  destruct (Z.eqb_spec (LowerBound acc (Index acc v)) v) as [Hb|]; [|done].
  cbn [negb] in E. injection E as <-.
  apply elem_of_cons in Hin as [<-|Hin].
  - exists v. rewrite (Index_same_grid h acc), (LowerBound_same_grid h acc) by done. done.
  - by apply (IH (bump acc (Index acc v) e.2)).
Qed.

Lemma UnmarshalJSON_only_bounds_witness :
  exists v, ParseUint "9" = Some v /\ v <= maxInt64 /\
            LowerBound NewCPUHistogram (Index NewCPUHistogram v) = v.
Proof.
  apply (UnmarshalJSON_only_bounds NewCPUHistogram (bump NewCPUHistogram 27 4)
           {["9" := 4]} "9" 4); vm_compute; reflexivity.
Defined.
