(* ===== verification/Windowing.v ===== *)
(** The wall-clock windows of [internal/rollup/window.go]: alignment, the
    pro-rata split of a counter delta across the windows it spans, and the
    overflow-free [mulDiv] it rests on. *)

From stdpp Require Import prelude.
From Stdlib Require Import ZArith Lia.
From S2P Require Import Prelude GoTime Histogram.
Local Open Scope Z_scope.

(** [windowing] is its length. *)
Record windowing := mkWindowing { length_ : Duration }.

Definition startOf (w : windowing) (at_ : Time) : Time := Truncate at_ (length_ w).
(** [int64(w.length / time.Second)], Go's division truncating toward zero. *)
Definition seconds (w : windowing) : Z := Z.quot (length_ w) Second.

(** [bits.Div64]: the quotient of a two-word dividend. *)
Definition Div64 (hi lo y : Z) : Z := (hi * 2 ^ 64 + lo) / y.

Definition mulDiv (a b c : Z) : Z :=
  if (a <? 0) || (b <? 0) || (c <=? 0) then 0
  else
    let '(hi, lo) := Mul64 a b in
    if c <=? hi then maxInt64
    else
      let q := Div64 hi lo c in
      if maxInt64 <? q then maxInt64 else q.

(** The loop of [split].  Each element is one call of [yield]: a window start
    and its share.  [fuel] bounds the iterations. *)
Fixpoint split_loop (w : windowing) (to : Time) (amount total : Z) (fuel : nat)
    (segFrom : Time) (remaining : Z) : list (Time * Z) :=
  match fuel with
  | O => []
  | S fuel' =>
      if Before segFrom to then
        let segTo := Add (startOf w segFrom) (length_ w) in
        if Before segTo to then
          let part := mulDiv amount (Sub segTo segFrom) total in
          (startOf w segFrom, part) ::
            split_loop w to amount total fuel' segTo (remaining -w part)
        else
          (startOf w segFrom, remaining) :: split_loop w to amount total fuel' to remaining
      else []
  end.

(** One iteration per window the interval touches, and two to spare. *)
Definition split_fuel (w : windowing) (from to : Time) : nat :=
  Z.to_nat ((to - from) / length_ w + 2).

Definition split (w : windowing) (from to : Time) (amount : Z) : list (Time * Z) :=
  let total := Sub to from in
  if (total <=? 0) || (amount <? 0) then []
  else split_loop w to amount total (split_fuel w from to) from amount.

(** ** mulDiv *)

Lemma mulDiv_exact a b c :
  0 <= a <= maxInt64 -> 0 <= b <= maxInt64 -> 0 < c <= maxInt64 ->
  mulDiv a b c = Z.min maxInt64 (a * b / c).
Proof.
  intros Ha Hb Hc. unfold mulDiv, Mul64, Div64.
  rewrite (proj2 (Z.ltb_ge a 0)), (proj2 (Z.ltb_ge b 0)), (proj2 (Z.leb_gt c 0)) by lia.
  cbn [orb].
  assert (a * b / 2 ^ 64 * 2 ^ 64 + (a * b) mod 2 ^ 64 = a * b) as -> by divmod_lia.
  assert (0 <= a * b) by nia.
  destruct (Z.leb_spec c (a * b / 2 ^ 64)) as [Hhi|Hlo].
  - assert (c * 2 ^ 64 <= a * b) by divmod_lia.
    assert (2 ^ 64 <= a * b / c) by (apply Z.div_le_lower_bound; lia). go_lia.
  - destruct (Z.ltb_spec maxInt64 (a * b / c)); lia.
Qed.

(** A share of a whole never exceeds it, so it never saturates. *)
Lemma mulDiv_share a b c :
  0 <= a <= maxInt64 -> 0 <= b <= c -> 0 < c <= maxInt64 -> mulDiv a b c = a * b / c.
Proof.
  intros Ha Hb Hc. rewrite mulDiv_exact by lia. apply Z.min_r.
  assert (a * b / c <= a); [|lia]. apply Z.div_le_upper_bound; nia.
Qed.

Lemma mulDiv_whole a b : 0 <= b <= a -> 0 < a <= maxInt64 -> mulDiv a b a = b.
Proof. intros. rewrite mulDiv_share by lia. rewrite Z.mul_comm. apply Z.div_mul. lia. Qed.

(** ** The split, as a relation free of fuel *)

Section split.
Context (w : windowing) (from to : Time) (amount : Z).
Hypothesis Hw : 0 < length_ w.
Hypothesis Hft : from < to.
Hypothesis Hlen : to - from <= maxInt64.
Hypothesis Ham : 0 <= amount <= maxInt64.
Abbreviation L := (length_ w).
Abbreviation total := (to - from).

Lemma startOf_bounds t : startOf w t <= t < startOf w t + L.
Proof. by apply Truncate_bounds. Qed.

Lemma startOf_next t : startOf w (startOf w t + L) = startOf w t + L.
Proof. by apply Truncate_next. Qed.

(** [segments s r out]: from [s] on with [r] left, the yields are [out]. *)
Inductive segments : Time -> Z -> list (Time * Z) -> Prop :=
| seg_last s r :
    from <= s < to -> to <= startOf w s + L -> segments s r [(startOf w s, r)]
| seg_more s r part out :
    from <= s -> startOf w s + L < to ->
    part = amount * (startOf w s + L - s) / total ->
    segments (startOf w s + L) (r - part) out ->
    segments s r ((startOf w s, part) :: out).

(** What is left always covers the time that is left. *)
Definition covers (s : Time) (r : Z) : Prop := amount * (to - s) <= r * total /\ r <= amount.

Lemma covers_step s r :
  from <= s < to -> startOf w s + L < to -> covers s r ->
  let part := amount * (startOf w s + L - s) / total in
  0 <= part <= r /\ covers (startOf w s + L) (r - part).
Proof.
  intros Hs Hmore [Hc Hr] part. pose proof (startOf_bounds s).
  assert (0 <= part) by (apply Z.div_pos; nia).
  assert (part * total <= amount * (startOf w s + L - s)).
  { unfold part. rewrite Z.mul_comm. apply Z.mul_div_le. lia. }
  split; [nia|]. unfold covers. split; [nia|lia].
Qed.

Lemma split_loop_segments fuel s r :
  from <= s < to -> covers s r -> (startOf w (to - 1) - startOf w s) / L < Z.of_nat fuel ->
  segments s r (split_loop w to amount total fuel s r).
Proof.
  revert s r. induction fuel as [|fuel IH]; intros s r Hs Hc Hf.
  { pose proof (Z.div_pos (startOf w (to - 1) - startOf w s) L).
    pose proof (Truncate_mono L Hw s (to - 1)). unfold startOf in *. lia. }
  cbn [split_loop]. unfold Before, Add. rewrite (proj2 (Z.ltb_lt s to)) by lia.
  pose proof (startOf_bounds s) as Hb.
  destruct (Z.ltb_spec (startOf w s + L) to) as [Hmore|Hlast].
  - destruct (covers_step s r Hs Hmore Hc) as [Hp Hc'].
    rewrite Sub_exact by go_lia.
    rewrite mulDiv_share by lia. rewrite wrap64_id by (destruct Hc; go_lia).
    apply seg_more; [lia|done|done|]. apply IH; [lia|done|].
    rewrite startOf_next.
    assert (startOf w (to - 1) - (startOf w s + L) = startOf w (to - 1) - startOf w s + (-1) * L) as -> by lia.
    rewrite Z.div_add by lia. lia.
  - assert (split_loop w to amount total fuel to r = []) as ->.
    { destruct fuel; [done|]. cbn [split_loop]. unfold Before.
      by rewrite (proj2 (Z.ltb_ge to to)) by lia. }
    by apply seg_last.
Qed.

Lemma split_segments : segments from amount (split w from to amount).
Proof.
  unfold split. rewrite Sub_exact by go_lia.
  rewrite (proj2 (Z.leb_gt _ 0)), (proj2 (Z.ltb_ge amount 0)) by lia. cbn [orb].
  apply split_loop_segments; [lia|unfold covers; lia|].
  unfold split_fuel. pose proof (startOf_bounds from). pose proof (startOf_bounds (to - 1)).
  assert ((startOf w (to - 1) - startOf w from) / L <= (to - from) / L + 1).
  { rewrite <-Z.div_add by lia. apply Z.div_le_mono; lia. }
  pose proof (Z.div_pos (to - from) L). lia.
Qed.

Lemma segments_sum s r out :
  segments s r out -> covers s r ->
  list_sum snd out = r /\ Forall (fun p => 0 <= p.2) out.
Proof.
  induction 1 as [s r Hs Hl|s r part out Hs Hm -> _ IH]; intros Hc.
  - simpl. split; [lia|]. repeat constructor. simpl. destruct Hc. nia.
  - pose proof (startOf_bounds s).
    destruct (covers_step s r ltac:(lia) Hm Hc) as [Hp Hc'].
    destruct (IH Hc') as [IH1 IH2]. cbn [list_sum foldr snd].
    change (foldr _ 0 out) with (list_sum snd out). split; [lia|]. constructor; [simpl; lia|done].
Qed.

(** The windows yielded: consecutive, aligned, from the one holding [s] to the
    one holding the interval's last instant. *)
Lemma segments_starts s r out :
  segments s r out ->
  out.*1 = (fun k => startOf w s + k * L) <$> seqZ 0 ((startOf w (to - 1) - startOf w s) / L + 1).
Proof.
  induction 1 as [s r Hs Hl|s r part out Hs Hm -> _ IH].
  - assert (startOf w (to - 1) = startOf w s) as ->.
    { apply Truncate_unique; [done|by apply Truncate_aligned|]. pose proof (startOf_bounds s). lia. }
    rewrite Z.sub_diag, Z.div_0_l by lia. csimpl. f_equal. lia.
  - csimpl. rewrite IH, startOf_next. pose proof (startOf_bounds s).
    assert (startOf w s + L <= startOf w (to - 1)).
    { rewrite <-startOf_next. apply Truncate_mono; lia. }
    replace (startOf w (to - 1) - startOf w s) with
      (startOf w (to - 1) - (startOf w s + L) + 1 * L) by lia.
    rewrite Z.div_add by lia.
    set (n := (startOf w (to - 1) - (startOf w s + L)) / L).
    assert (0 <= n) by (apply Z.div_pos; lia).
    rewrite (seqZ_cons 0 (n + 1 + 1)) by lia. csimpl. f_equal; [lia|].
    replace (Z.pred (n + 1 + 1)) with (n + 1) by lia.
    replace (seqZ (Z.succ 0) (n + 1)) with (Z.add 1 <$> seqZ 0 (n + 1)) by (by rewrite fmap_add_seqZ).
    rewrite <-list_fmap_compose. apply list_fmap_ext. intros i k _. simpl. lia.
Qed.
End split.

Lemma split_conserves_sum w from to amount :
  0 < length_ w -> from < to -> to - from <= maxInt64 -> 0 <= amount <= maxInt64 ->
  list_sum snd (split w from to amount) = amount /\ Forall (fun p => 0 <= p.2) (split w from to amount).
Proof.
  intros Hw Hft Hlen Ham. pose proof (split_segments w from to amount Hw Hft Hlen Ham) as Hseg.
  eapply (segments_sum w from to amount); [done..|]. unfold covers. lia.
Qed.

(** A yield of exactly the overlap with its window. *)
Definition overlap (w : windowing) (from to s : Time) : Z :=
  Z.min to (s + length_ w) - Z.max from s.

Lemma segments_overlap w from to s r out :
  0 < length_ w -> from < to -> segments w from to (to - from) s r out ->
  r = to - s -> (s = from \/ startOf w s = s) ->
  Forall (fun p => p.2 = overlap w from to p.1) out.
Proof.
  intros Hw Hft Hseg. unfold overlap.
  induction Hseg as [s r Hs Hl|s r part out Hs Hm -> _ IH]; intros -> Hal;
    pose proof (startOf_bounds w Hw s) as Hb;
    assert (Z.max from (startOf w s) = s) as Hmax by (destruct Hal; lia).
  - repeat constructor. cbn [fst snd]. rewrite Z.min_l by lia. lia.
  - rewrite (Z.mul_comm (to - from)), Z.div_mul in * by lia.
    constructor; [cbn [fst snd]; rewrite Z.min_r by lia; lia|].
    apply IH; [lia|]. right. by apply startOf_next.
Qed.

(** ** Properties *)

(** [mulDiv] is multiplication then division without the intermediate
    overflow: for non-negative operands it is the floor of the exact quotient,
    capped at MaxInt64 where that does not fit, and zero on any other input. *)
Theorem mulDiv_correct (a b c : Z) :
  int64_ok a -> int64_ok b -> int64_ok c ->
  mulDiv a b c = (if (0 <=? a) && (0 <=? b) && (0 <? c) then Z.min maxInt64 (a * b / c) else 0).
Proof.
  intros Ha Hb Hc.
  destruct (Z.leb_spec 0 a), (Z.leb_spec 0 b), (Z.ltb_spec 0 c); cbn [andb];
    try (rewrite mulDiv_exact by go_lia; done).
  all: unfold mulDiv; destruct (Z.ltb_spec a 0), (Z.ltb_spec b 0), (Z.leb_spec c 0); done || lia.
Qed.

Lemma mulDiv_correct_witness :
  mulDiv 9000000000000000000 9000000000000000000 9100000000000000000 =
    (if (0 <=? 9000000000000000000) && (0 <=? 9000000000000000000) && (0 <? 9100000000000000000)
     then Z.min maxInt64 (9000000000000000000 * 9000000000000000000 / 9100000000000000000) else 0).
Proof. apply mulDiv_correct; go_lia. Defined.

(** C18. Splitting a counter delta loses and invents nothing.  The loop ends, its
    shares are non-negative and sum to exactly the amount, and the windows they
    go to are the consecutive aligned windows from the one holding the
    interval's first instant to the one holding its last. *)
Theorem split_conserves (w : windowing) (from to : Time) (amount : Z) :
  0 < length_ w -> from < to -> to - from <= maxInt64 -> 0 <= amount <= maxInt64 ->
  list_sum snd (split w from to amount) = amount /\
  Forall (fun p => 0 <= p.2) (split w from to amount) /\
  (split w from to amount).*1 =
    (fun k => startOf w from + k * length_ w) <$>
      seqZ 0 ((startOf w (to - 1) - startOf w from) / length_ w + 1).
Proof.
  intros Hw Hft Hlen Ham. pose proof (split_segments w from to amount Hw Hft Hlen Ham) as Hseg.
  destruct (split_conserves_sum w from to amount Hw Hft Hlen Ham).
  split; [done|]. split; [done|]. by eapply (segments_starts w from to amount).
Qed.

Lemma split_conserves_witness :
  list_sum snd (split (mkWindowing 10) 17 44 100) = 100 /\
  Forall (fun p => 0 <= p.2) (split (mkWindowing 10) 17 44 100) /\
  (split (mkWindowing 10) 17 44 100).*1 =
    (fun k => startOf (mkWindowing 10) 17 + k * 10) <$>
      seqZ 0 ((startOf (mkWindowing 10) (44 - 1) - startOf (mkWindowing 10) 17) / 10 + 1).
Proof. apply (split_conserves (mkWindowing 10) 17 44 100); simpl; go_lia. Defined.

(** Splitting an interval's own duration gives every window exactly the time
    the interval spent inside it: coverage is measured, never pro-rated. *)
Theorem split_duration_is_overlap (w : windowing) (from to : Time) :
  0 < length_ w -> from < to -> to - from <= maxInt64 ->
  Forall (fun p => p.2 = overlap w from to p.1 /\ 0 < p.2 <= length_ w)
    (split w from to (Sub to from)).
Proof.
  intros Hw Hft Hlen. rewrite Sub_exact by go_lia.
  pose proof (split_segments w from to (to - from) Hw Hft Hlen ltac:(lia)) as Hseg.
  pose proof (segments_overlap _ _ _ _ _ _ Hw Hft Hseg eq_refl (or_introl eq_refl)) as Hov.
  pose proof (segments_starts _ _ _ _ Hw _ _ _ Hseg) as Hst.
  rewrite Forall_forall in Hov |- *. intros p Hp. pose proof (Hov p Hp) as E. split; [done|].
  assert (p.1 ∈ (split w from to (to - from)).*1) as Hin by (apply list_elem_of_fmap; eauto).
  rewrite Hst in Hin. apply list_elem_of_fmap in Hin as [k [Hk Hkin]].
  apply elem_of_seqZ in Hkin. rewrite E. unfold overlap.
  pose proof (startOf_bounds w Hw from). pose proof (startOf_bounds w Hw (to - 1)).
  assert (k * length_ w <= startOf w (to - 1) - startOf w from).
  { etrans; [|apply (Z.mul_div_le _ (length_ w)); lia]. nia. }
  destruct (Z.eqb_spec k 0); [subst; lia|]. assert (length_ w <= k * length_ w) by nia. lia.
Qed.

Lemma split_duration_is_overlap_witness :
  Forall (fun p => p.2 = overlap (mkWindowing 10) 17 44 p.1 /\ 0 < p.2 <= 10)
    (split (mkWindowing 10) 17 44 (Sub 44 17)).
Proof. apply (split_duration_is_overlap (mkWindowing 10) 17 44); simpl; go_lia. Defined.
