(* ===== verification/UsageRecord.v ===== *)
(** The usage record of [internal/rollup/record.go]: its key, the CPU and memory
    sides, the sample updates, and [Merge]. *)

From stdpp Require Import prelude gmap strings.
From Stdlib Require Import ZArith Lia.
From S2P Require Import Prelude GoTime GoStrings Histogram Windowing.
Local Open Scope Z_scope.

Record Key := mkKey {
  Namespace : string;
  WorkloadKind : string;
  WorkloadName : string;
  Container : string;
}.

#[export] Instance Key_eq_dec : EqDecision Key.
Proof. solve_decision. Defined.
#[export] Instance Key_countable : Countable Key.
Proof.
  refine (inj_countable' (fun k => (Namespace k, WorkloadKind k, WorkloadName k, Container k))
    (fun '(a, b, c, d) => mkKey a b c d) _). by intros [].
Defined.

(** A [*Histogram] field: [None] is the nil pointer. *)
Record CPUUsage := mkCPU {
  CoreNanoseconds : Z;
  CoveredNanoseconds : Z;
  ThrottledPeriods : Z;
  TotalPeriods : Z;
  ThrottlingSamples : Z;
  CPU_PSIStallNanoseconds : Z;
  CPU_PSISamples : Z;
  CPU_Samples : Z;
  MinMilli : Z;
  MaxMilli : Z;
  CPU_Hist : option Histogram;
}.

Record MemoryUsage := mkMemory {
  Mem_Samples : Z;
  MinBytes : Z;
  MaxBytes : Z;
  SumBytes : Z;
  Mem_PSIStallNanoseconds : Z;
  Mem_PSISamples : Z;
  Mem_Hist : option Histogram;
}.

Record Record_ := mkRecord {
  RKey : Key;
  WindowStart : Time;
  WindowSeconds : Z;
  CPU : CPUUsage;
  Memory : MemoryUsage;
}.

(** ** Updates of one field, as the accumulator's callbacks make them *)

Definition addCoreNanoseconds (v : Z) (u : CPUUsage) : CPUUsage :=
  let '(mkCPU a b c d e f g n mi ma h) := u in mkCPU (a +w v) b c d e f g n mi ma h.
Definition addCoveredNanoseconds (v : Z) (u : CPUUsage) : CPUUsage :=
  let '(mkCPU a b c d e f g n mi ma h) := u in mkCPU a (b +w v) c d e f g n mi ma h.
Definition addThrottledPeriods (v : Z) (u : CPUUsage) : CPUUsage :=
  let '(mkCPU a b c d e f g n mi ma h) := u in mkCPU a b (c +w v) d e f g n mi ma h.
Definition addTotalPeriods (v : Z) (u : CPUUsage) : CPUUsage :=
  let '(mkCPU a b c d e f g n mi ma h) := u in mkCPU a b c (d +w v) e f g n mi ma h.
Definition incThrottlingSamples (u : CPUUsage) : CPUUsage :=
  let '(mkCPU a b c d e f g n mi ma h) := u in mkCPU a b c d (e +w 1) f g n mi ma h.
Definition addCPUPSI (v : Z) (u : CPUUsage) : CPUUsage :=
  let '(mkCPU a b c d e f g n mi ma h) := u in mkCPU a b c d e (f +w v) g n mi ma h.
Definition incCPUPSISamples (u : CPUUsage) : CPUUsage :=
  let '(mkCPU a b c d e f g n mi ma h) := u in mkCPU a b c d e f (g +w 1) n mi ma h.
Definition addMemPSI (v : Z) (u : MemoryUsage) : MemoryUsage :=
  let '(mkMemory n mi ma s p q h) := u in mkMemory n mi ma s (p +w v) q h.
Definition incMemPSISamples (u : MemoryUsage) : MemoryUsage :=
  let '(mkMemory n mi ma s p q h) := u in mkMemory n mi ma s p (q +w 1) h.

(** The two-way guards of the extrema: [if samples == 0 || x < min { min = x }]. *)
Definition lower (samples cur x : Z) : Z := if (samples =? 0) || (x <? cur) then x else cur.
Definition raise (samples cur x : Z) : Z := if (samples =? 0) || (cur <? x) then x else cur.

Definition observeRate (u : CPUUsage) (milli : Z) : CPUUsage :=
  let '(mkCPU a b c d e f g n mi ma h) := u in
  mkCPU a b c d e f g (n +w 1) (lower n mi milli) (raise n ma milli)
    ((fun h => Histogram.Observe h milli) <$> h).

Definition observe (u : MemoryUsage) (bytes : Z) : MemoryUsage :=
  let '(mkMemory n mi ma s p q h) := u in
  mkMemory (n +w 1) (lower n mi bytes) (raise n ma bytes) (s +w bytes) p q
    ((fun h => Histogram.Observe h bytes) <$> h).

Definition newRecord (k : Key) (start : Time) (windowSeconds : Z) : Record_ :=
  mkRecord k start windowSeconds
    (mkCPU 0 0 0 0 0 0 0 0 0 0 (Some NewCPUHistogram))
    (mkMemory 0 0 0 0 0 0 (Some NewMemoryHistogram)).

Definition onCPU (f : CPUUsage -> CPUUsage) (r : Record_) : Record_ :=
  mkRecord (RKey r) (WindowStart r) (WindowSeconds r) (f (CPU r)) (Memory r).
Definition onMemory (f : MemoryUsage -> MemoryUsage) (r : Record_) : Record_ :=
  mkRecord (RKey r) (WindowStart r) (WindowSeconds r) (CPU r) (f (Memory r)).

(** ** Merge *)

Inductive rec_error := DifferentIdentities | HistogramMerge (e : hist_error) | NilHistogram.

(** [h.Merge(o)] through two pointers; a nil one would panic. *)
Definition mergeHist (h o : option Histogram) : result rec_error (option Histogram) :=
  match h, o with
  | Some h, Some o =>
      match Histogram.Merge h o with Ok m => Ok (Some m) | Err e => Err (HistogramMerge e) end
  | _, _ => Err NilHistogram
  end.

(** The scalar part of the CPU side, everything before the histograms. *)
Definition mergeCPU (r o : CPUUsage) : CPUUsage :=
  let '(mkCPU a b c d e f g n mi ma h) := r in
  let '(mkCPU a' b' c' d' e' f' g' n' mi' ma' _) := o in
  if 0 <? n' then
    mkCPU (a +w a') (b +w b') (c +w c') (d +w d') (e +w e') (f +w f') (g +w g')
      (n +w n') (lower n mi mi') (raise n ma ma') h
  else
    mkCPU (a +w a') (b +w b') (c +w c') (d +w d') (e +w e') (f +w f') (g +w g') n mi ma h.

Definition mergeMemory (r o : MemoryUsage) : MemoryUsage :=
  let '(mkMemory n mi ma s p q h) := r in
  let '(mkMemory n' mi' ma' s' p' q' _) := o in
  if 0 <? n' then
    mkMemory (n +w n') (lower n mi mi') (raise n ma ma') (s +w s') (p +w p') (q +w q') h
  else mkMemory n mi ma s (p +w p') (q +w q') h.

Definition setCPUHist (h : option Histogram) (u : CPUUsage) : CPUUsage :=
  let '(mkCPU a b c d e f g n mi ma _) := u in mkCPU a b c d e f g n mi ma h.
Definition setMemHist (h : option Histogram) (u : MemoryUsage) : MemoryUsage :=
  let '(mkMemory n mi ma s p q _) := u in mkMemory n mi ma s p q h.

(** The receiver as [Merge] leaves it, and the error it returned.  A failed
    histogram merge returns with the scalar fields already added. *)
Definition Merge (r o : Record_) : Record_ * option rec_error :=
  if negb (bool_decide (RKey r = RKey o)) || negb (WindowStart r =? WindowStart o)
     || negb (WindowSeconds r =? WindowSeconds o)
  then (r, Some DifferentIdentities)
  else
    let r1 := onCPU (fun u => mergeCPU u (CPU o)) r in
    match mergeHist (CPU_Hist (CPU r)) (CPU_Hist (CPU o)) with
    | Err e => (r1, Some e)
    | Ok hc =>
        let r2 := onMemory (fun u => mergeMemory u (Memory o)) (onCPU (setCPUHist hc) r1) in
        match mergeHist (Mem_Hist (Memory r)) (Mem_Hist (Memory o)) with
        | Err e => (r2, Some e)
        | Ok hm => (onMemory (setMemHist hm) r2, None)
        end
    end.

(** Decoding into a record: the histograms are given their anchors first, and again
    if the document spelled them out as null.  [decode] is encoding/json over the
    plain struct: the record it leaves, and whether it succeeded. *)
Definition UnmarshalJSON (decode : Record_ -> string -> Record_ * bool) (b : string) (r : Record_) : Record_ * bool :=
  let anchored r :=
    onMemory (fun u => setMemHist (Some (default NewMemoryHistogram (Mem_Hist u))) u)
      (onCPU (fun u => setCPUHist (Some (default NewCPUHistogram (CPU_Hist u))) u) r) in
  let '(r, ok) := decode (onMemory (setMemHist (Some NewMemoryHistogram)) (onCPU (setCPUHist (Some NewCPUHistogram)) r)) b in
  if ok then (anchored r, true) else (r, false).
(** A record that was read has both histograms, which is what merging it needs. *)
Lemma UnmarshalJSON_anchors decode b r r' :
  UnmarshalJSON decode b r = (r', true) -> is_Some (CPU_Hist (CPU r')) /\ is_Some (Mem_Hist (Memory r')).
Proof. unfold UnmarshalJSON. destruct (decode _ b) as [x []]; [|done]. intros [= <-]. destruct x as [? ? ? [] []]. by split; eexists. Qed.

(** A deep copy; values here have no aliases, so the copy is the value. *)
Definition clone (r : Record_) : Record_ :=
  onMemory (fun u => setMemHist (Histogram.clone <$> Mem_Hist u) u)
    (onCPU (fun u => setCPUHist (Histogram.clone <$> CPU_Hist u) u) r).

(** ** A record as the sum of the samples it observed *)

(** Every way the accumulator changes an open record. *)
Inductive sample :=
| SCore (v : Z) | SCovered (v : Z) | SThrottled (v : Z) | STotal (v : Z) | SThrottlingSample
| SCPUPSI (v : Z) | SCPUPSISample | SRate (milli : Z)
| SMemory (bytes : Z) | SMemPSI (v : Z) | SMemPSISample.

Definition apply_sample (r : Record_) (s : sample) : Record_ :=
  match s with
  | SCore v => onCPU (addCoreNanoseconds v) r
  | SCovered v => onCPU (addCoveredNanoseconds v) r
  | SThrottled v => onCPU (addThrottledPeriods v) r
  | STotal v => onCPU (addTotalPeriods v) r
  | SThrottlingSample => onCPU incThrottlingSamples r
  | SCPUPSI v => onCPU (addCPUPSI v) r
  | SCPUPSISample => onCPU incCPUPSISamples r
  | SRate m => onCPU (fun u => observeRate u m) r
  | SMemory b => onMemory (fun u => observe u b) r
  | SMemPSI v => onMemory (addMemPSI v) r
  | SMemPSISample => onMemory incMemPSISamples r
  end.

Definition applyAll (r : Record_) (ss : list sample) : Record_ := foldl apply_sample r ss.

(** What holds of a record built from samples: fields in range, the histograms
    present and on their field's grid, and no bucket above the sample count. *)
Definition counted (n : Z) (a : Z) (h : option Histogram) : Prop :=
  exists m, h = Some (mkHistogram a m) /\ map_Forall (fun _ c => 0 < c <= n) m.

Definition cpu_ok (u : CPUUsage) : Prop :=
  int64_ok (CoreNanoseconds u) /\ int64_ok (CoveredNanoseconds u) /\ int64_ok (ThrottledPeriods u) /\
  int64_ok (TotalPeriods u) /\ int64_ok (ThrottlingSamples u) /\ int64_ok (CPU_PSIStallNanoseconds u) /\
  int64_ok (CPU_PSISamples u) /\ 0 <= CPU_Samples u <= maxInt64 /\
  counted (CPU_Samples u) cpuAnchorShift (CPU_Hist u).

Definition mem_ok (u : MemoryUsage) : Prop :=
  int64_ok (SumBytes u) /\ int64_ok (Mem_PSIStallNanoseconds u) /\ int64_ok (Mem_PSISamples u) /\
  0 <= Mem_Samples u <= maxInt64 /\ (Mem_Samples u = 0 -> SumBytes u = 0) /\
  counted (Mem_Samples u) memoryAnchorShift (Mem_Hist u).

Definition rec_ok (r : Record_) : Prop := cpu_ok (CPU r) /\ mem_ok (Memory r).

Definition same_identity (r o : Record_) : Prop :=
  RKey r = RKey o /\ WindowStart r = WindowStart o /\ WindowSeconds r = WindowSeconds o.

(** ** Merge commutes with observation *)

Lemma counted_observe n a h v :
  counted n a h -> 0 <= n < maxInt64 ->
  counted (n + 1) a ((fun h => Histogram.Observe h v) <$> h).
Proof.
  intros [m [-> Hm]] Hn. eexists. split; [done|]. intros i c. simpl.
  destruct (decide (i = Index (mkHistogram a m) v)) as [->|Hne].
  - rewrite lookup_insert_eq. intros [= <-]. unfold count_at. cbn [counts].
    destruct (m !! _) as [c|] eqn:E; cbn [default from_option id].
    + destruct (Hm _ _ E). rewrite wrapU64_id by go_lia. lia.
    + rewrite wrapU64_id by go_lia. lia.
  - rewrite lookup_insert_ne by done. intros Hi. destruct (Hm _ _ Hi). lia.
Qed.

Lemma counted_mono n n' a h : n <= n' -> counted n a h -> counted n' a h.
Proof. intros Hn [m [-> Hm]]. eexists. split; [done|]. intros i c Hi. destruct (Hm i c Hi). lia. Qed.

Lemma merge_counts_observe (m m' : gmap Z Z) (n i : Z) :
  map_Forall (fun _ c => 0 < c <= n) m' -> n < maxInt64 ->
  merge_counts m (<[i := wrapU64 (default 0 (m' !! i) + 1)]> m')
    = <[i := wrapU64 (default 0 (merge_counts m m' !! i) + 1)]> (merge_counts m m').
Proof.
  intros Hm' Hn. apply map_eq. intros j. rewrite merge_counts_lookup.
  destruct (decide (j = i)) as [->|Hne].
  - rewrite !lookup_insert_eq, merge_counts_lookup.
    destruct (m' !! i) as [c|] eqn:E; cbn [default from_option id].
    + destruct (Hm' _ _ E). rewrite wrapU64_id by go_lia.
      rewrite !(proj2 (Z.eqb_neq _ _)) by lia. cbn [default from_option id].
      rewrite wrapU64_add_l. do 2 f_equal. lia.
    + rewrite wrapU64_id by go_lia. done.
  - rewrite !lookup_insert_ne, merge_counts_lookup by done. done.
Qed.

(** The histogram of a merge of two histograms on one grid. *)
Definition mergedHist (h o : option Histogram) : option Histogram :=
  match h, o with
  | Some h, Some o => Some (mkHistogram (anchorShift h) (merge_counts (counts h) (counts o)))
  | _, _ => None
  end.

Lemma mergeHist_ok n n' a h o :
  counted n a h -> counted n' a o -> mergeHist h o = Ok (mergedHist h o).
Proof.
  intros [m [-> _]] [m' [-> _]]. unfold mergeHist, Histogram.Merge. simpl.
  by rewrite Z.eqb_refl.
Qed.

Lemma mergedHist_observe n n' a h o v :
  counted n a h -> counted n' a o -> n' < maxInt64 ->
  mergedHist h ((fun h => Histogram.Observe h v) <$> o)
    = (fun h => Histogram.Observe h v) <$> mergedHist h o.
Proof.
  intros [m [-> _]] [m' [-> Hm']] Hn. simpl. f_equal. unfold Histogram.Observe, bump, count_at. simpl.
  f_equal. rewrite (Index_same_grid (mkHistogram a m') (mkHistogram a (merge_counts m m'))) by done.
  by eapply merge_counts_observe.
Qed.

Lemma mergedHist_empty n a h : counted n a h -> mergedHist h (Some (mkHistogram a ∅)) = h.
Proof. intros [m [-> _]]. simpl. unfold merge_counts. by rewrite map_fold_empty. Qed.

Lemma lower_lower n n' mi mi' x :
  0 <= n -> 0 <= n' ->
  lower n mi (lower n' mi' x) =
    if 0 <? n' then lower (n + n') (lower n mi mi') x else lower n mi x.
Proof.
  intros Hn Hn'. unfold lower.
  destruct (Z.ltb_spec 0 n'), (Z.eqb_spec n' 0), (Z.eqb_spec n 0), (Z.eqb_spec (n + n') 0);
    try lia; cbn [orb]; ltb_cases.
Qed.

Lemma raise_raise n n' ma ma' x :
  0 <= n -> 0 <= n' ->
  raise n ma (raise n' ma' x) =
    if 0 <? n' then raise (n + n') (raise n ma ma') x else raise n ma x.
Proof.
  intros Hn Hn'. unfold raise.
  destruct (Z.ltb_spec 0 n'), (Z.eqb_spec n' 0), (Z.eqb_spec n 0), (Z.eqb_spec (n + n') 0);
    try lia; cbn [orb]; ltb_cases.
Qed.

(** Re-associate wrapped additions. *)
Ltac wrap_assoc := autorewrite with agent; repeat (f_equal; try lia).

Definition mergedCPU (u o : CPUUsage) : CPUUsage :=
  setCPUHist (mergedHist (CPU_Hist u) (CPU_Hist o)) (mergeCPU u o).
Definition mergedMemory (u o : MemoryUsage) : MemoryUsage :=
  setMemHist (mergedHist (Mem_Hist u) (Mem_Hist o)) (mergeMemory u o).

Lemma mergedCPU_rate u o m :
  cpu_ok u -> cpu_ok o -> CPU_Samples u + CPU_Samples o < maxInt64 ->
  mergedCPU u (observeRate o m) = observeRate (mergedCPU u o) m.
Proof.
  intros Hu Ho Hs. destruct u as [a b c d e f g n mi ma h], o as [a' b' c' d' e' f' g' n' mi' ma' h'].
  destruct Hu as (_&_&_&_&_&_&_&Hn&Hh), Ho as (_&_&_&_&_&_&_&Hn'&Hh'). cbn in Hn, Hh, Hn', Hh', Hs.
  unfold mergedCPU. cbn [CPU_Hist observeRate mergeCPU setCPUHist].
  rewrite (wrap64_id (n' + 1)) by go_lia.
  rewrite (proj2 (Z.ltb_lt 0 (n' + 1))) by lia.
  erewrite mergedHist_observe by (done || lia).
  rewrite lower_lower, raise_raise by lia.
  destruct (Z.ltb_spec 0 n') as [Hp|Hz]; cbn [setCPUHist observeRate].
  - rewrite (wrap64_id (n + (n' + 1))), (wrap64_id (n + n')), (wrap64_id (n + n' + 1)) by go_lia.
    f_equal. lia.
  - assert (n' = 0) as -> by lia. done.
Qed.

Lemma mergedMemory_observe u o x :
  mem_ok u -> mem_ok o -> Mem_Samples u + Mem_Samples o < maxInt64 ->
  mergedMemory u (observe o x) = observe (mergedMemory u o) x.
Proof.
  intros Hu Ho Hs. destruct u as [n mi ma s p q h], o as [n' mi' ma' s' p' q' h'].
  destruct Hu as (_&_&_&Hn&_&Hh), Ho as (_&_&_&Hn'&Hz0&Hh'). cbn in Hn, Hh, Hn', Hh', Hs, Hz0.
  unfold mergedMemory. cbn [Mem_Hist observe mergeMemory setMemHist].
  rewrite (wrap64_id (n' + 1)) by go_lia.
  rewrite (proj2 (Z.ltb_lt 0 (n' + 1))) by lia.
  erewrite mergedHist_observe by (done || lia).
  rewrite lower_lower, raise_raise by lia.
  destruct (Z.ltb_spec 0 n') as [Hp|Hz]; cbn [setMemHist observe].
  - rewrite (wrap64_id (n + (n' + 1))), (wrap64_id (n + n')), (wrap64_id (n + n' + 1)) by go_lia.
    autorewrite with agent. f_equal; [lia|f_equal; lia].
  - assert (n' = 0) as -> by lia. rewrite Hz0 by done. autorewrite with agent. done.
Qed.

Lemma apply_identity r s : same_identity (apply_sample r s) r.
Proof. by destruct s. Qed.

Lemma applyAll_identity r ss : same_identity (applyAll r ss) r.
Proof.
  revert r. induction ss as [|s ss IH]; intros r; [done|]. cbn [applyAll foldl].
  destruct (IH (apply_sample r s)) as (?&?&?), (apply_identity r s) as (?&?&?).
  unfold same_identity, applyAll in *. repeat split; congruence.
Qed.

Definition merged (r o : Record_) : Record_ :=
  mkRecord (RKey r) (WindowStart r) (WindowSeconds r)
    (mergedCPU (CPU r) (CPU o)) (mergedMemory (Memory r) (Memory o)).

(** On records of one identity built from samples, [Merge] succeeds. *)
Lemma Merge_ok r o : rec_ok r -> rec_ok o -> same_identity r o -> Merge r o = (merged r o, None).
Proof.
  intros [Hrc Hrm] [Hoc Hom] (Hk&Hs&Hw). unfold Merge.
  rewrite (bool_decide_eq_true_2 _ Hk), Hs, Hw, !Z.eqb_refl. cbn [negb orb].
  destruct Hrc as (_&_&_&_&_&_&_&_&Hh), Hoc as (_&_&_&_&_&_&_&_&Hh').
  destruct Hrm as (_&_&_&_&_&Gh), Hom as (_&_&_&_&_&Gh').
  rewrite (mergeHist_ok _ _ _ _ _ Hh Hh'), (mergeHist_ok _ _ _ _ _ Gh Gh').
  unfold merged, mergedCPU, mergedMemory, onCPU, onMemory. cbn. by rewrite Hs, Hw.
Qed.

Definition room (n : Z) (r : Record_) : Prop :=
  CPU_Samples (CPU r) + n <= maxInt64 /\ Mem_Samples (Memory r) + n <= maxInt64.

Lemma merged_apply r o s :
  rec_ok r -> rec_ok o ->
  CPU_Samples (CPU r) + CPU_Samples (CPU o) < maxInt64 ->
  Mem_Samples (Memory r) + Mem_Samples (Memory o) < maxInt64 ->
  merged r (apply_sample o s) = apply_sample (merged r o) s.
Proof.
  intros [Hrc Hrm] [Hoc Hom] Hc Hm. unfold merged.
  destruct s; unfold apply_sample, onCPU, onMemory;
    cbn [RKey WindowStart WindowSeconds CPU Memory]; f_equal.
  8: by apply mergedCPU_rate.
  8: by apply mergedMemory_observe.
  all: destruct r as [? ? ? [] []], o as [? ? ? [] []];
    unfold mergedCPU, mergedMemory;
    cbn -[Z.add wrap64 Z.ltb mergedHist lower raise]; case_match;
    cbn -[Z.add wrap64 mergedHist lower raise]; wrap_assoc.
Qed.

Lemma newRecord_ok k st secs : rec_ok (newRecord k st secs).
Proof.
  split; repeat split; try go_lia; cbn; try go_lia; eexists; (split; [done|]); apply map_Forall_empty.
Qed.

Lemma apply_ok r s : rec_ok r -> room 1 r -> rec_ok (apply_sample r s).
Proof.
  intros [Hc Hm] [Rc Rm]. destruct r as [k st secs [] []].
  destruct Hc as (?&?&?&?&?&?&?&?&?), Hm as (?&?&?&?&?&?). cbn in *.
  destruct s; (split; [unfold cpu_ok|unfold mem_ok]); cbn -[wrap64 Z.add];
    repeat split; eauto using wrap64_range; try (rewrite wrap64_id by go_lia); try go_lia;
    try apply wrap64_range; try (apply counted_observe; [done|lia]).
Qed.

Lemma room_step n r s : rec_ok r -> 0 <= n -> room (n + 1) r -> room n (apply_sample r s).
Proof.
  intros [Hc Hm] Hn [Rc Rm]. destruct r as [k st secs [] []].
  destruct Hc as (?&?&?&?&?&?&?&?&?), Hm as (?&?&?&?&?&?). cbn in *.
  destruct s; split; cbn -[wrap64 Z.add]; try lia; rewrite wrap64_id by go_lia; lia.
Qed.

Lemma applyAll_ok r ss : rec_ok r -> room (Z.of_nat (length ss)) r -> rec_ok (applyAll r ss).
Proof.
  revert r. induction ss as [|s ss IH]; intros r Hr Hroom; [done|].
  cbn [applyAll foldl]. apply IH.
  - apply apply_ok; [done|]. unfold room in *. cbn [length] in Hroom. lia.
  - apply room_step; [done|lia|]. unfold room in *. cbn [length] in Hroom. lia.
Qed.

Lemma applyAll_samples r ss :
  rec_ok r -> room (Z.of_nat (length ss)) r ->
  CPU_Samples (CPU (applyAll r ss)) <= CPU_Samples (CPU r) + Z.of_nat (length ss) /\
  Mem_Samples (Memory (applyAll r ss)) <= Mem_Samples (Memory r) + Z.of_nat (length ss).
Proof.
  revert r. induction ss as [|s ss IH]; intros r Hr Hroom; [simpl; lia|].
  cbn [length] in Hroom.
  assert (room 1 r /\ room (Z.of_nat (length ss) + 1) r) as [R1 R2] by (unfold room in *; lia).
  destruct (IH (apply_sample r s)) as [I1 I2]; [by apply apply_ok|apply room_step; (done || lia)|].
  cbn [applyAll foldl length]. unfold applyAll in *.
  assert (CPU_Samples (CPU (apply_sample r s)) <= CPU_Samples (CPU r) + 1 /\
          Mem_Samples (Memory (apply_sample r s)) <= Mem_Samples (Memory r) + 1); [|lia].
  destruct Hr as [(_&_&_&_&_&_&_&?&_) (_&_&_&?&_&_)], R1. destruct r as [? ? ? [] []]. cbn in *.
  destruct s; cbn -[wrap64 Z.add]; rewrite ?wrap64_id by go_lia; lia.
Qed.

Lemma merged_new r k st secs : rec_ok r -> same_identity r (newRecord k st secs) ->
  merged r (newRecord k st secs) = r.
Proof.
  intros [Hc Hm] _. destruct r as [k' st' secs' [] []].
  destruct Hc as (?&?&?&?&?&?&?&?&Hh), Hm as (?&?&?&?&?&Gh). cbn in *.
  unfold merged, mergedCPU, mergedMemory. cbn -[wrap64 Z.add mergedHist].
  change NewCPUHistogram with (mkHistogram cpuAnchorShift ∅).
  change NewMemoryHistogram with (mkHistogram memoryAnchorShift ∅).
  rewrite (mergedHist_empty _ _ _ Hh), (mergedHist_empty _ _ _ Gh).
  by rewrite !Z.add_0_r, !wrap64_id by done.
Qed.

(** The homomorphism behind the merge property. *)
Lemma Merge_applyAll k st secs xs ys :
  Z.of_nat (length (xs ++ ys)) <= maxInt64 ->
  Merge (applyAll (newRecord k st secs) xs) (applyAll (newRecord k st secs) ys)
    = (applyAll (newRecord k st secs) (xs ++ ys), None).
Proof.
  intros Hlen. rewrite length_app in Hlen. set (r0 := newRecord k st secs).
  pose proof (newRecord_ok k st secs) as H0. fold r0 in H0.
  assert (forall n, Z.of_nat n <= maxInt64 -> room (Z.of_nat n) r0) as Hroom
    by (intros n Hn; split; cbn; lia).
  assert (rec_ok (applyAll r0 xs)) as Hx by (apply applyAll_ok; [done|apply Hroom; lia]).
  destruct (applyAll_samples r0 xs H0 (Hroom (length xs) ltac:(lia))) as [Sx Tx].
  rewrite Merge_ok; [|done|apply applyAll_ok; [done|apply Hroom; lia]|].
  2:{ destruct (applyAll_identity r0 xs) as (?&?&?), (applyAll_identity r0 ys) as (?&?&?).
      repeat split; congruence. }
  f_equal. revert Hlen. induction ys as [|y ys IH] using rev_ind; intros Hlen.
  - rewrite app_nil_r. apply merged_new; [done|]. apply applyAll_identity.
  - rewrite length_app in Hlen. cbn [length] in Hlen.
    rewrite app_assoc. unfold applyAll. rewrite !foldl_app. cbn [foldl].
    change (foldl apply_sample r0 ?l) with (applyAll r0 l).
    rewrite merged_apply, IH by (first [done | lia | apply applyAll_ok; [done|apply Hroom; lia] |
      (destruct (applyAll_samples r0 ys H0 (Hroom (length ys) ltac:(lia))); cbn in *; lia)]).
    unfold applyAll. by rewrite foldl_app.
Qed.

(** A fresh record is a left unit. *)
Lemma Merge_applyAll_l k st secs ss :
  Z.of_nat (length ss) <= maxInt64 ->
  Merge (newRecord k st secs) (applyAll (newRecord k st secs) ss)
    = (applyAll (newRecord k st secs) ss, None).
Proof. apply (Merge_applyAll k st secs [] ss). Qed.

(** ** Properties *)

(** Merging two partial records of one key and window equals one record over
    the union of their inputs: every total, extremum, sample count and histogram
    bucket, for any sequence of updates the accumulator makes. *)
Theorem record_Merge_is_union (k : Key) (st : Time) (secs : Z) (xs ys : list sample) :
  Z.of_nat (length (xs ++ ys)) <= maxInt64 ->
  Merge (applyAll (newRecord k st secs) xs) (applyAll (newRecord k st secs) ys)
    = (applyAll (newRecord k st secs) (xs ++ ys), None).
Proof. apply Merge_applyAll. Qed.

Lemma record_Merge_is_union_witness :
  let r0 := newRecord (mkKey "prod" "Deployment" "api" "main") 0 3600 in
  Merge (applyAll r0 [SRate 120; SCore 36; SMemory 5000000]) (applyAll r0 [SRate 80; SMemory 7000000])
    = (applyAll r0 ([SRate 120; SCore 36; SMemory 5000000] ++ [SRate 80; SMemory 7000000]), None).
Proof.
  apply (record_Merge_is_union (mkKey "prod" "Deployment" "api" "main") 0 3600
           [SRate 120; SCore 36; SMemory 5000000] [SRate 80; SMemory 7000000]).
  simpl. go_lia.
Defined.
