(* ===== verification/Accumulator.v ===== *)
(** The window accumulator of [internal/rollup/accumulator.go]: open records per
    (key, window), the counter and gauge observations, seeding from recovered
    records, closing and snapshotting.

    The abstract view is a log of [(key, window start, sample)] entries; the open
    record of a key and window is the record built from the log's samples for
    it ([acc_of_log]).  Every property of the accumulator is read off the log. *)

From stdpp Require Import prelude gmap strings sorting.
From Stdlib Require Import ZArith Lia.
From S2P Require Import Prelude GoTime GoStrings Histogram Windowing UsageRecord.
Local Open Scope Z_scope.

(** ** State and operations *)

(** [openKey]: the key, and the window start in Unix nanoseconds. *)
Abbreviation openKey := (Key * Z)%type.

Record Accumulator := mkAccumulator { win : windowing; open : gmap openKey Record_ }.

(** [NewAccumulator] panics on a length that is not positive. *)
Definition NewAccumulator (windowLength : Duration) : option Accumulator :=
  if windowLength <=? 0 then None else Some (mkAccumulator (mkWindowing windowLength) ∅).

Definition slot (k : Key) (start : Time) : openKey := (k, UnixNano start).

(** [recordAt]: the open record of a window, created on first touch. *)
Definition recordAt (a : Accumulator) (k : Key) (start : Time) : Record_ :=
  match open a !! slot k start with
  | Some r => r
  | None => newRecord k start (seconds (win a))
  end.

(** A mutation through the pointer [recordAt] returned. *)
Definition updateAt (a : Accumulator) (k : Key) (start : Time) (f : Record_ -> Record_) : Accumulator :=
  mkAccumulator (win a) (<[slot k start := f (recordAt a k start)]> (open a)).

(** The same through [record], for the window holding [at]. *)
Definition updateRecord (a : Accumulator) (k : Key) (at_ : Time) (f : Record_ -> Record_) : Accumulator :=
  updateAt a k (startOf (win a) at_) f.

Definition addProRata (a : Accumulator) (k : Key) (from to : Time) (amount : Z)
    (add : Record_ -> Z -> Record_) : Accumulator :=
  foldl (fun a p => updateAt a k p.1 (fun r => add r p.2)) a (split (win a) from to amount).

Definition ObserveCPUDelta (a : Accumulator) (k : Key) (from to : Time) (coreNanos : Z) : Accumulator :=
  if (Sub to from <=? 0) || (coreNanos <? 0) then a
  else
    let a := addProRata a k from to coreNanos (fun r v => onCPU (addCoreNanoseconds v) r) in
    let a := addProRata a k from to (Sub to from) (fun r v => onCPU (addCoveredNanoseconds v) r) in
    updateRecord a k (Add to (- Nanosecond))
      (onCPU (fun u => observeRate u (mulDiv coreNanos 1000 (Sub to from)))).

Definition ObserveThrottling (a : Accumulator) (k : Key) (from to : Time)
    (throttledPeriods totalPeriods : Z) : Accumulator :=
  let a := addProRata a k from to throttledPeriods (fun r v => onCPU (addThrottledPeriods v) r) in
  let a := addProRata a k from to totalPeriods (fun r v => onCPU (addTotalPeriods v) r) in
  if After to from then updateRecord a k (Add to (- Nanosecond)) (onCPU incThrottlingSamples) else a.

Definition ObserveCPUPSI (a : Accumulator) (k : Key) (from to : Time) (stallNanos : Z) : Accumulator :=
  let a := addProRata a k from to stallNanos (fun r v => onCPU (addCPUPSI v) r) in
  if After to from then updateRecord a k (Add to (- Nanosecond)) (onCPU incCPUPSISamples) else a.

Definition ObserveMemoryPSI (a : Accumulator) (k : Key) (from to : Time) (stallNanos : Z) : Accumulator :=
  let a := addProRata a k from to stallNanos (fun r v => onMemory (addMemPSI v) r) in
  if After to from then updateRecord a k (Add to (- Nanosecond)) (onMemory incMemPSISamples) else a.

Definition ObserveMemory (a : Accumulator) (k : Key) (at_ : Time) (workingSetBytes : Z) : Accumulator :=
  if workingSetBytes <? 0 then a
  else updateRecord a k at_ (onMemory (fun u => observe u workingSetBytes)).

Inductive seed_error :=
| ForeignWindow | OffGrid | NoHistogram | SeedMerge (e : rec_error).

Definition Seed (a : Accumulator) (r : Record_) : Accumulator * option seed_error :=
  if negb (WindowSeconds r =? seconds (win a)) then (a, Some ForeignWindow)
  else if negb (startOf (win a) (WindowStart r) =? WindowStart r) then (a, Some OffGrid)
  else match CPU_Hist (CPU r), Mem_Hist (Memory r) with
       | Some _, Some _ =>
           let '(m, e) := UsageRecord.Merge (recordAt a (RKey r) (WindowStart r)) r in
           (updateAt a (RKey r) (WindowStart r) (fun _ => m), SeedMerge <$> e)
       | _, _ => (a, Some NoHistogram)
       end.

Definition less (a b : Record_) : bool :=
  lexi (WindowStart a) (WindowStart b)
    (lexi (Namespace (RKey a)) (Namespace (RKey b))
      (lexi (WorkloadKind (RKey a)) (WorkloadKind (RKey b))
        (lexi (WorkloadName (RKey a)) (WorkloadName (RKey b))
          (go_lt (Container (RKey a)) (Container (RKey b)))))).

Definition sortRecords (rs : list Record_) : list Record_ := sort_slice less rs.

(** [!r.WindowStart.Add(length).After(now)] *)
Definition ended (w : windowing) (now : Time) (r : Record_) : bool :=
  negb (After (Add (WindowStart r) (length_ w)) now).

Definition CloseBefore (a : Accumulator) (now : Time) : list Record_ * Accumulator :=
  (sortRecords (map_values (filter (fun kr => ended (win a) now kr.2 = true) (open a))),
   mkAccumulator (win a) (filter (fun kr => ~ ended (win a) now kr.2 = true) (open a))).

Definition Snapshots (a : Accumulator) : list Record_ :=
  sortRecords (UsageRecord.clone <$> map_values (open a)).

(** ** The log *)

Record log_entry := mkEntry { e_key : Key; e_start : Time; e_sample : sample }.

Definition log_apply (a : Accumulator) (e : log_entry) : Accumulator :=
  updateAt a (e_key e) (e_start e) (fun r => apply_sample r (e_sample e)).
Definition log_run (a : Accumulator) (l : list log_entry) : Accumulator := foldl log_apply a l.

(** One call of the accumulator's API. *)
Inductive observation :=
| OCPU (k : Key) (from to : Time) (coreNanos : Z)
| OThrottling (k : Key) (from to : Time) (throttled total : Z)
| OCPUPSI (k : Key) (from to : Time) (stall : Z)
| OMemoryPSI (k : Key) (from to : Time) (stall : Z)
| OMemory (k : Key) (at_ : Time) (bytes : Z).

Definition step (a : Accumulator) (o : observation) : Accumulator :=
  match o with
  | OCPU k from to n => ObserveCPUDelta a k from to n
  | OThrottling k from to x y => ObserveThrottling a k from to x y
  | OCPUPSI k from to n => ObserveCPUPSI a k from to n
  | OMemoryPSI k from to n => ObserveMemoryPSI a k from to n
  | OMemory k t b => ObserveMemory a k t b
  end.
Definition run (a : Accumulator) (os : list observation) : Accumulator := foldl step a os.

Definition shares (w : windowing) (k : Key) (from to : Time) (n : Z) (s : Z -> sample) : list log_entry :=
  (fun p => mkEntry k p.1 (s p.2)) <$> split w from to n.
Definition at_last_instant (w : windowing) (k : Key) (to : Time) (s : sample) : log_entry :=
  mkEntry k (startOf w (to - 1)) s.

(** The entries an observation appends. *)
Definition effects (w : windowing) (o : observation) : list log_entry :=
  match o with
  | OCPU k from to n =>
      if (Sub to from <=? 0) || (n <? 0) then []
      else shares w k from to n SCore ++ shares w k from to (Sub to from) SCovered ++
           [at_last_instant w k to (SRate (mulDiv n 1000 (Sub to from)))]
  | OThrottling k from to x y =>
      shares w k from to x SThrottled ++ shares w k from to y STotal ++
      (if After to from then [at_last_instant w k to SThrottlingSample] else [])
  | OCPUPSI k from to n =>
      shares w k from to n SCPUPSI ++
      (if After to from then [at_last_instant w k to SCPUPSISample] else [])
  | OMemoryPSI k from to n =>
      shares w k from to n SMemPSI ++
      (if After to from then [at_last_instant w k to SMemPSISample] else [])
  | OMemory k t b => if b <? 0 then [] else [mkEntry k (startOf w t) (SMemory b)]
  end.
Definition log_of (w : windowing) (os : list observation) : list log_entry := os ≫= effects w.

(** The samples the log holds for one open key. *)
Definition samples_of (ok : openKey) (l : list log_entry) : list sample :=
  omap (fun e => if bool_decide (slot (e_key e) (e_start e) = ok) then Some (e_sample e) else None) l.

(** Every start representable, so open keys name windows. *)
Definition log_ok (l : list log_entry) : Prop := Forall (fun e => nano_ok (e_start e)) l.

(** Each record sits under its own key and window. *)
Definition placed (m : gmap openKey Record_) : Prop :=
  map_Forall (fun ok r => slot (RKey r) (WindowStart r) = ok /\ nano_ok (WindowStart r)) m.

(** The open map a log describes: the record of a slot is built from its samples. *)
Definition acc_of_log (w : windowing) (l : list log_entry) (m : gmap openKey Record_) : Prop :=
  placed m /\
  forall k start, nano_ok start ->
    m !! slot k start =
      match samples_of (slot k start) l with
      | [] => None
      | ss => Some (applyAll (newRecord k start (seconds w)) ss)
      end.

(** ** The operations append to the log *)

Lemma log_run_app a l1 l2 : log_run a (l1 ++ l2) = log_run (log_run a l1) l2.
Proof. apply foldl_app. Qed.

Lemma log_run_win a l : win (log_run a l) = win a.
Proof. revert a. induction l as [|e l IH]; intros a; [done|]. cbn. by rewrite IH. Qed.

Lemma addProRata_log a k from to n add s :
  (forall r v, add r v = apply_sample r (s v)) ->
  addProRata a k from to n add = log_run a (shares (win a) k from to n s).
Proof.
  intros Hadd. unfold addProRata, shares, log_run. generalize (split (win a) from to n). intros l.
  revert a. induction l as [|p l IH]; intros a; [done|].
  cbn. rewrite IH. unfold log_apply, updateAt. cbn. by rewrite Hadd.
Qed.

Lemma updateRecord_log a k t f s :
  (forall r, f r = apply_sample r s) ->
  updateRecord a k t f = log_run a [mkEntry k (startOf (win a) t) s].
Proof. intros Hf. unfold updateRecord, updateAt. cbn. unfold log_apply, updateAt. cbn. by rewrite Hf. Qed.

#[local] Ltac to_log :=
  repeat first
    [ rewrite (addProRata_log _ _ _ _ _ _ SCore) by done
    | rewrite (addProRata_log _ _ _ _ _ _ SCovered) by done
    | rewrite (addProRata_log _ _ _ _ _ _ SThrottled) by done
    | rewrite (addProRata_log _ _ _ _ _ _ STotal) by done
    | rewrite (addProRata_log _ _ _ _ _ _ SCPUPSI) by done
    | rewrite (addProRata_log _ _ _ _ _ _ SMemPSI) by done ].

Lemma step_log a o : step a o = log_run a (effects (win a) o).
Proof.
  destruct o as [k from to n|k from to x y|k from to n|k from to n|k t b]; cbn [step effects].
  - unfold ObserveCPUDelta. case_match; [done|]. to_log.
    rewrite (updateRecord_log _ _ _ _ (SRate (mulDiv n 1000 (Sub to from)))) by done.
    rewrite !log_run_app, !log_run_win. done.
  - unfold ObserveThrottling. to_log. case_match.
    + rewrite (updateRecord_log _ _ _ _ SThrottlingSample) by done.
      rewrite !log_run_app, !log_run_win. done.
    + rewrite !log_run_app, !log_run_win. done.
  - unfold ObserveCPUPSI. to_log. case_match.
    + rewrite (updateRecord_log _ _ _ _ SCPUPSISample) by done.
      rewrite !log_run_app, !log_run_win. done.
    + by rewrite app_nil_r.
  - unfold ObserveMemoryPSI. to_log. case_match.
    + rewrite (updateRecord_log _ _ _ _ SMemPSISample) by done.
      rewrite !log_run_app, !log_run_win. done.
    + by rewrite app_nil_r.
  - unfold ObserveMemory. case_match; [done|]. by apply updateRecord_log.
Qed.

Lemma run_log a os : run a os = log_run a (log_of (win a) os).
Proof.
  revert a. induction os as [|o os IH]; intros a; [done|].
  cbn [run foldl log_of mbind list_bind]. change (foldl step ?b os) with (run b os).
  rewrite log_run_app, IH, step_log, log_run_win. done.
Qed.

(** ** The log describes the open map *)

Lemma slot_inj k k' s s' : nano_ok s -> nano_ok s' -> slot k s = slot k' s' -> k = k' /\ s = s'.
Proof. unfold slot. intros Hs Hs' [= -> H]. split; [done|]. by apply UnixNano_inj. Qed.

Lemma samples_of_app ok l1 l2 : samples_of ok (l1 ++ l2) = samples_of ok l1 ++ samples_of ok l2.
Proof. apply omap_app. Qed.

Lemma applyAll_snoc r ss x : applyAll r (ss ++ [x]) = apply_sample (applyAll r ss) x.
Proof. unfold applyAll. by rewrite foldl_app. Qed.

Lemma log_step_ok w l m e :
  acc_of_log w l m -> nano_ok (e_start e) ->
  acc_of_log w (l ++ [e]) (open (log_apply (mkAccumulator w m) e)).
Proof.
  intros [Hpl Hlk] Hn. unfold log_apply, updateAt, recordAt. cbn.
  pose proof (Hlk (e_key e) (e_start e) Hn) as Hcur.
  set (r := match m !! slot (e_key e) (e_start e) with
            | Some r => r | None => newRecord (e_key e) (e_start e) (seconds w) end).
  assert (r = applyAll (newRecord (e_key e) (e_start e) (seconds w))
                (samples_of (slot (e_key e) (e_start e)) l)) as Hr.
  { unfold r. rewrite Hcur. by destruct (samples_of _ l). }
  split.
  - intros ok x. destruct (decide (ok = slot (e_key e) (e_start e))) as [->|Hne].
    + rewrite lookup_insert_eq. intros [= <-]. rewrite Hr.
      destruct (apply_identity (applyAll (newRecord (e_key e) (e_start e) (seconds w))
        (samples_of (slot (e_key e) (e_start e)) l)) (e_sample e)) as (->&->&_).
      destruct (applyAll_identity (newRecord (e_key e) (e_start e) (seconds w))
        (samples_of (slot (e_key e) (e_start e)) l)) as (->&->&_). done.
    + rewrite lookup_insert_ne by done. apply Hpl.
  - intros k s Hs. rewrite samples_of_app. cbn [samples_of omap list_omap].
    destruct (decide (slot (e_key e) (e_start e) = slot k s)) as [Heq|Hne].
    + rewrite (bool_decide_eq_true_2 _ Heq). destruct (slot_inj _ _ _ _ Hn Hs Heq) as [<- <-].
      rewrite lookup_insert_eq, Hr.
      rewrite <-applyAll_snoc. by destruct (samples_of _ l).
    + rewrite (bool_decide_eq_false_2 _ Hne), lookup_insert_ne, app_nil_r by done. by apply Hlk.
Qed.

Lemma log_run_ok w l : log_ok l -> acc_of_log w l (open (log_run (mkAccumulator w ∅) l)).
Proof.
  induction l as [|e l IH] using rev_ind; intros Hl.
  { split; [apply map_Forall_empty|]. done. }
  apply Forall_app in Hl as [Hl He]. apply Forall_cons in He as [He _].
  rewrite log_run_app. cbn [log_run foldl].
  pose proof (log_step_ok w l _ e (IH Hl) He) as Hs.
  change (foldl log_apply (mkAccumulator w ∅) l) with (log_run (mkAccumulator w ∅) l).
  assert (log_run (mkAccumulator w ∅) l = mkAccumulator w (open (log_run (mkAccumulator w ∅) l))) as ->;
    [|done].
  rewrite <-(log_run_win (mkAccumulator w ∅) l) at 2. by destruct (log_run (mkAccumulator w ∅) l).
Qed.

(** ** Sums over the open map *)

Section sums.
Context (f : Record_ -> Z) (d : sample -> Z).
Hypothesis f_new : forall k s n, f (newRecord k s n) = 0.
Hypothesis f_apply : forall r x, wrap64 (f (apply_sample r x)) = wrap64 (f r + d x).

Lemma log_run_sum a l :
  wrap64 (map_sum f (open (log_run a l)))
    = wrap64 (map_sum f (open a) + list_sum (fun e => d (e_sample e)) l).
Proof.
  revert a. induction l as [|e l IH]; intros a; [cbn; by rewrite Z.add_0_r|].
  cbn [log_run foldl]. change (foldl log_apply ?b l) with (log_run b l).
  rewrite IH. cbn [list_sum foldr].
  change (foldr _ 0 l) with (list_sum (fun e => d (e_sample e)) l).
  rewrite <-wrap64_add_l. unfold log_apply, updateAt, recordAt. cbn [open win].
  rewrite map_sum_insert.
  destruct (open a !! slot (e_key e) (e_start e)) as [r|] eqn:E; cbn [from_option].
  - replace (map_sum f (open a) + f (apply_sample r (e_sample e)) - f r)
      with (f (apply_sample r (e_sample e)) + (map_sum f (open a) - f r)) by lia.
    rewrite <-(wrap64_add_l (f (apply_sample r (e_sample e)))), f_apply.
    autorewrite with agent. rewrite <-!Z.add_assoc. autorewrite with agent. f_equal. lia.
  - rewrite Z.sub_0_r, (Z.add_comm (map_sum f (open a))).
    rewrite <-(wrap64_add_l (f (apply_sample _ _))), f_apply, f_new.
    autorewrite with agent. rewrite <-!Z.add_assoc. autorewrite with agent. f_equal. lia.
Qed.
End sums.

Definition core (r : Record_) : Z := CoreNanoseconds (CPU r).
Definition covered (r : Record_) : Z := CoveredNanoseconds (CPU r).
Definition cpu_samples (r : Record_) : Z := CPU_Samples (CPU r).

Definition core_of (s : sample) : Z := match s with SCore v => v | _ => 0 end.
Definition covered_of (s : sample) : Z := match s with SCovered v => v | _ => 0 end.
Definition cpu_sample_of (s : sample) : Z := match s with SRate _ => 1 | _ => 0 end.

#[local] Ltac additive :=
  intros [? ? ? [] []] []; cbn -[wrap64 Z.add]; autorewrite with agent; rewrite ?Z.add_0_r; done.

Lemma core_apply : forall r x, wrap64 (core (apply_sample r x)) = wrap64 (core r + core_of x).
Proof. unfold core. additive. Qed.
Lemma covered_apply : forall r x, wrap64 (covered (apply_sample r x)) = wrap64 (covered r + covered_of x).
Proof. unfold covered. additive. Qed.
Lemma cpu_samples_apply :
  forall r x, wrap64 (cpu_samples (apply_sample r x)) = wrap64 (cpu_samples r + cpu_sample_of x).
Proof. unfold cpu_samples. additive. Qed.

Lemma shares_sum w k from to n s d :
  list_sum (fun e => d (e_sample e)) (shares w k from to n s)
    = list_sum (fun p => d (s p.2)) (split w from to n).
Proof.
  unfold shares. induction (split w from to n) as [|p l IH]; [done|].
  unfold list_sum in *. cbn. by rewrite IH.
Qed.

Lemma list_sum_zero {A} (g : A -> Z) l : (forall x, g x = 0) -> list_sum g l = 0.
Proof. intros Hg. unfold list_sum. induction l; cbn; rewrite ?Hg; lia. Qed.

(** Only the observed key's records change. *)
Lemma log_run_frame a l k k' z :
  Forall (fun e => e_key e = k) l -> k' <> k -> open (log_run a l) !! (k', z) = open a !! (k', z).
Proof.
  intros Hl Hne. revert a. induction Hl as [|e l He Hl IH]; intros a; [done|].
  cbn [log_run foldl]. change (foldl log_apply ?b l) with (log_run b l). rewrite IH.
  unfold log_apply, updateAt, slot. cbn. rewrite lookup_insert_ne; [done|]. congruence.
Qed.

Lemma shares_key w k from to n s : Forall (fun e => e_key e = k) (shares w k from to n s).
Proof. unfold shares. apply Forall_fmap, Forall_true. done. Qed.

(** ** Determinism of what leaves the accumulator *)

Abbreviation sortKey := (Time * (string * (string * (string * string))))%type.
Definition sort_key (r : Record_) : sortKey :=
  (WindowStart r, (Namespace (RKey r), (WorkloadKind (RKey r), (WorkloadName (RKey r), Container (RKey r))))).

Lemma less_sort_key a b : less a b = go_lt (sort_key a) (sort_key b).
Proof. done. Qed.

Definition open_sort_key (ok : openKey) : sortKey :=
  (ok.2 + unixEpoch, (Namespace ok.1, (WorkloadKind ok.1, (WorkloadName ok.1, Container ok.1)))).

#[export] Instance open_sort_key_inj : Inj (=) (=) open_sort_key.
Proof. intros [[] s] [[] s']. unfold open_sort_key. cbn. intros [= ? -> -> -> ->]. f_equal. lia. Qed.

Lemma placed_sort_keys m : placed m -> NoDup (sort_key <$> map_values m).
Proof.
  intros Hp. apply (NoDup_keys_of_values sort_key open_sort_key); [|apply _].
  intros ok r Hr. destruct (Hp ok r Hr) as [<- Hn].
  unfold sort_key, open_sort_key, slot, UnixNano. cbn. rewrite wrap64_id by done. by rewrite Z.sub_add.
Qed.

Lemma placed_filter P `{!forall x, Decision (P x)} m : placed m -> placed (filter P m).
Proof. intros Hp ok r Hr. apply map_lookup_filter_Some in Hr as [Hr _]. by apply Hp. Qed.

Lemma clone_id r : UsageRecord.clone r = r.
Proof. destruct r as [? ? ? [? ? ? ? ? ? ? ? ? ? [[]|]] [? ? ? ? ? ? [[]|]]]; done. Qed.

Lemma clone_fmap (l : list Record_) : UsageRecord.clone <$> l = l.
Proof. induction l as [|r l IH]; [done|]. csimpl. by rewrite clone_id, IH. Qed.

Lemma Snapshots_perm a : Snapshots a ≡ₚ map_values (open a).
Proof. unfold Snapshots, sortRecords, sort_slice. by rewrite merge_sort_Permutation, clone_fmap. Qed.

(** ** Resuming from recovered records *)

(** The loop of [UsagePoller.Seed] over the accumulator: errors are collected
    and the records after a refused one are still adopted. *)
Definition seed_all (a : Accumulator) (rs : list Record_) : Accumulator * list seed_error :=
  foldl (fun '(a, errs) r =>
           let '(a', e) := Seed a r in (a', errs ++ from_option (fun x => [x]) [] e)) (a, []) rs.

(** A record this accumulator could have produced. *)
Definition resumable (w : windowing) (r : Record_) : Prop :=
  nano_ok (WindowStart r) /\ startOf w (WindowStart r) = WindowStart r /\
  exists ss, r = applyAll (newRecord (RKey r) (WindowStart r) (seconds w)) ss /\
             Z.of_nat (length ss) <= maxInt64.

Lemma Seed_fresh a r :
  resumable (win a) r -> open a !! slot (RKey r) (WindowStart r) = None ->
  Seed a r = (mkAccumulator (win a) (<[slot (RKey r) (WindowStart r) := r]> (open a)), None).
Proof.
  intros (Hn & Hal & ss & Hr & Hlen) Hfresh. unfold Seed.
  set (r0 := newRecord (RKey r) (WindowStart r) (seconds (win a))) in *.
  assert (rec_ok r) as [Hc Hm].
  { rewrite Hr. apply applyAll_ok; [apply newRecord_ok|]. split; cbn; lia. }
  assert (WindowSeconds r = seconds (win a)) as ->.
  { rewrite Hr. destruct (applyAll_identity r0 ss) as (_&_&->). done. }
  rewrite Z.eqb_refl, Hal, Z.eqb_refl. cbn [negb].
  destruct Hc as (_&_&_&_&_&_&_&_&(mc&->&_)), Hm as (_&_&_&_&_&(mm&->&_)).
  unfold updateAt, recordAt. rewrite Hfresh. fold r0.
  pose proof (Merge_applyAll_l (RKey r) (WindowStart r) (seconds (win a)) ss Hlen) as HM.
  fold r0 in HM. rewrite <-Hr in HM. by rewrite HM.
Qed.

Lemma seed_all_fresh rs a errs :
  Forall (resumable (win a)) rs -> NoDup ((fun r => slot (RKey r) (WindowStart r)) <$> rs) ->
  (forall r, r ∈ rs -> open a !! slot (RKey r) (WindowStart r) = None) ->
  foldl (fun '(a, errs) r =>
           let '(a', e) := Seed a r in (a', errs ++ from_option (fun x => [x]) [] e)) (a, errs) rs
    = (mkAccumulator (win a)
        (list_to_map ((fun r => (slot (RKey r) (WindowStart r), r)) <$> rs) ∪ open a), errs).
Proof.
  revert a. induction rs as [|r rs IH]; intros a Hres Hnd Hfresh.
  { cbn. rewrite (left_id_L ∅ _). by destruct a. }
  apply Forall_cons in Hres as [Hr Hres]. csimpl in Hnd. apply NoDup_cons in Hnd as [Hni Hnd].
  cbn [foldl]. rewrite Seed_fresh by (done || (apply Hfresh; left)). cbn [from_option].
  rewrite app_nil_r, IH; cbn [win open]; [|done|done|].
  - csimpl. f_equal. f_equal.
    rewrite <-insert_union_r.
    + by rewrite insert_union_l.
    + apply not_elem_of_list_to_map_1. rewrite <-list_fmap_compose. done.
  - intros r' Hr'. rewrite lookup_insert_ne.
    + apply Hfresh. by right.
    + intros Heq. apply Hni. rewrite Heq. apply list_elem_of_fmap. by exists r'.
Qed.

(** Starts yielded by a split are window starts. *)
Lemma split_aligned w from to n : 0 < length_ w ->
  Forall (fun p => startOf w p.1 = p.1) (split w from to n).
Proof.
  intros Hw. unfold split. destruct ((Sub to from <=? 0) || (n <? 0)); [constructor|].
  generalize (Sub to from) as tot, (split_fuel w from to) as fuel.
  generalize n at 2 as r. intros r tot fuel. revert from r.
  induction fuel as [|fuel IH]; intros s r; cbn [split_loop]; [constructor|].
  case_match; [|constructor]. case_match; (constructor; [by apply Truncate_idem|apply IH]).
Qed.

Lemma effects_aligned w o : 0 < length_ w ->
  Forall (fun e => startOf w (e_start e) = e_start e) (effects w o).
Proof.
  intros Hw.
  assert (forall k from to n s, Forall (fun e => startOf w (e_start e) = e_start e)
    (shares w k from to n s)) as Hsh.
  { intros. unfold shares. apply Forall_fmap. by apply split_aligned. }
  assert (forall t, startOf w (startOf w t) = startOf w t) as Hid by (intros; by apply Truncate_idem).
  destruct o; cbn [effects]; repeat case_match; rewrite ?Forall_app; repeat split; auto;
    repeat constructor; apply Hid.
Qed.

Lemma log_of_aligned w os : 0 < length_ w ->
  Forall (fun e => startOf w (e_start e) = e_start e) (log_of w os).
Proof.
  intros Hw. unfold log_of. induction os as [|o os IH]; [constructor|].
  cbn. apply Forall_app. split; [by apply effects_aligned|done].
Qed.

Lemma length_samples_of ok l : (length (samples_of ok l) <= length l)%nat.
Proof. unfold samples_of. induction l as [|e l IH]; cbn; [done|]. case_match; cbn; lia. Qed.

(** Records of a run are resumable. *)
Lemma run_resumable w os :
  0 < length_ w -> log_ok (log_of w os) -> Z.of_nat (length (log_of w os)) <= maxInt64 ->
  Forall (resumable w) (map_values (open (run (mkAccumulator w ∅) os))).
Proof.
  intros Hw Hl Hlen. rewrite run_log. cbn [win]. rewrite Forall_forall. intros r Hr.
  apply elem_of_map_values in Hr as [ok Hr].
  destruct (log_run_ok w _ Hl) as [Hpl Hlk].
  destruct (Hpl ok r Hr) as [<- Hn]. rewrite Hlk in Hr by done.
  destruct (samples_of (slot (RKey r) (WindowStart r)) (log_of w os)) as [|x ss] eqn:E; [done|].
  pose proof (length_samples_of (slot (RKey r) (WindowStart r)) (log_of w os)) as Hls.
  rewrite E in Hls.
  assert (exists e, e ∈ log_of w os /\ slot (e_key e) (e_start e) = slot (RKey r) (WindowStart r))
    as (e & He & Hse).
  { assert (x ∈ samples_of (slot (RKey r) (WindowStart r)) (log_of w os)) as Hx by (rewrite E; left).
    apply list_elem_of_omap in Hx as (e & He & Hx). case_bool_decide; [|done]. eauto. }
  pose proof (log_of_aligned w os Hw) as Hal. rewrite Forall_forall in Hal.
  unfold log_ok in Hl. rewrite Forall_forall in Hl.
  destruct (slot_inj _ _ _ _ (Hl e He) Hn Hse) as [_ Hst].
  split; [done|]. split; [rewrite <-Hst; by apply Hal|].
  exists (x :: ss). split; [congruence|lia].
Qed.

(** ** Properties *)

(** C15. The accumulator implements its abstract log.  After any sequence of CPU,
    throttling, PSI and memory observations, the open record of every key and
    window is exactly the record built from the samples the log holds for that
    key and window, and windows without samples have no record. *)
Theorem accumulator_refines_log (w : windowing) (os : list observation) :
  log_ok (log_of w os) ->
  acc_of_log w (log_of w os) (open (run (mkAccumulator w ∅) os)).
Proof. intros Hl. rewrite run_log. by apply log_run_ok. Qed.

Definition demo_key : Key := mkKey "prod" "Deployment" "api" "main".
Definition demo_win : windowing := mkWindowing Hour.
(** 2026-01-01T00:00:00Z *)
Definition demo_t0 : Time := unixEpoch + 1767225600 * Second.
Definition demo_obs : list observation :=
  [OCPU demo_key (demo_t0 + 3590 * Second) (demo_t0 + 3620 * Second) 15000000000;
   OMemory demo_key (demo_t0 + 3600 * Second) 70000000;
   OThrottling demo_key (demo_t0 + 3590 * Second) (demo_t0 + 3620 * Second) 3 300].

Lemma demo_log_ok : log_ok (log_of demo_win demo_obs).
Proof.
  unfold log_ok, nano_ok, int64_ok.
  replace (log_of demo_win demo_obs) with (ltac:(let x := eval vm_compute in (log_of demo_win demo_obs) in exact x))
    by (vm_compute; reflexivity).
  repeat constructor; vm_compute; discriminate.
Defined.

Lemma accumulator_refines_log_witness :
  acc_of_log demo_win (log_of demo_win demo_obs) (open (run (mkAccumulator demo_win ∅) demo_obs)).
Proof. apply (accumulator_refines_log demo_win demo_obs), demo_log_ok. Defined.

(** A CPU observation adds exactly the consumed time, exactly its own
    duration of coverage and exactly one rate sample to the open records, however
    many windows it spans, and touches no record of another key. *)
Theorem ObserveCPUDelta_conserves (a : Accumulator) (k : Key) (from to : Time) (n : Z) :
  0 < length_ (win a) -> from < to -> to - from <= maxInt64 -> 0 <= n <= maxInt64 ->
  let a' := ObserveCPUDelta a k from to n in
  wrap64 (map_sum core (open a')) = wrap64 (map_sum core (open a) + n) /\
  wrap64 (map_sum covered (open a')) = wrap64 (map_sum covered (open a) + (to - from)) /\
  wrap64 (map_sum cpu_samples (open a')) = wrap64 (map_sum cpu_samples (open a) + 1) /\
  (forall k' z, k' <> k -> open a' !! (k', z) = open a !! (k', z)).
Proof.
  intros Hw Hft Hlen Hn. cbv zeta.
  change (ObserveCPUDelta a k from to n) with (step a (OCPU k from to n)). rewrite step_log.
  cbn [effects]. pose proof (proj2 (Sub_pos to from) Hft).
  rewrite (proj2 (Z.leb_gt (Sub to from) 0)), (proj2 (Z.ltb_ge n 0)) by lia. cbn [orb].
  rewrite (log_run_sum core core_of) by (done || apply core_apply).
  rewrite (log_run_sum covered covered_of) by (done || apply covered_apply).
  rewrite (log_run_sum cpu_samples cpu_sample_of) by (done || apply cpu_samples_apply).
  rewrite !list_sum_app, !shares_sum.
  destruct (split_conserves_sum (win a) from to n Hw Hft Hlen Hn) as [Hs _].
  destruct (split_conserves_sum (win a) from to (to - from) Hw Hft Hlen ltac:(lia)) as [Hs' _].
  rewrite Sub_exact by go_lia. cbn [core_of covered_of cpu_sample_of].
  rewrite !(list_sum_zero (fun _ => 0)) by done.
  change (list_sum (fun p => p.2) ?l) with (list_sum snd l). rewrite Hs, Hs'.
  split; [|split; [|split]].
  1-3: f_equal; cbn; lia.
  intros k' z Hne. apply (log_run_frame _ _ k); [|done].
  rewrite !Forall_app. repeat split; [apply shares_key..|]. by repeat constructor.
Qed.

Lemma ObserveCPUDelta_conserves_witness :
  let a := mkAccumulator demo_win ∅ in
  let from := demo_t0 + 3590 * Second in
  let to := demo_t0 + 3620 * Second in
  let a' := ObserveCPUDelta a demo_key from to 15000000000 in
  wrap64 (map_sum core (open a')) = wrap64 (map_sum core (open a) + 15000000000) /\
  wrap64 (map_sum covered (open a')) = wrap64 (map_sum covered (open a) + (to - from)) /\
  wrap64 (map_sum cpu_samples (open a')) = wrap64 (map_sum cpu_samples (open a) + 1) /\
  (forall k' z, k' <> demo_key -> open a' !! (k', z) = open a !! (k', z)).
Proof.
  apply (ObserveCPUDelta_conserves (mkAccumulator demo_win ∅) demo_key
           (demo_t0 + 3590 * Second) (demo_t0 + 3620 * Second) 15000000000);
    vm_compute; intuition discriminate.
Defined.

(** Splitting the observations between two accumulators and merging the
    records slot by slot gives what one accumulator over all of them holds: the
    merge never fails, and a window seen by one side only is that side's record. *)
Theorem accumulators_merge (w : windowing) (os os' : list observation) (k : Key) (start : Time) :
  log_ok (log_of w (os ++ os')) -> Z.of_nat (length (log_of w (os ++ os'))) <= maxInt64 ->
  nano_ok start ->
  let held os := open (run (mkAccumulator w ∅) os) !! slot k start in
  match held os, held os' with
  | Some r, Some r' => exists m, UsageRecord.Merge r r' = (m, None) /\ held (os ++ os') = Some m
  | Some r, None => held (os ++ os') = Some r
  | None, Some r' => held (os ++ os') = Some r'
  | None, None => held (os ++ os') = None
  end.
Proof.
  intros Hl Hlen Hn. cbv beta zeta. rewrite !run_log. cbn [win].
  unfold log_of in *. rewrite bind_app in *. unfold log_ok in Hl. rewrite Forall_app in Hl.
  destruct Hl as [Hl1 Hl2].
  destruct (log_run_ok w _ Hl1) as [_ H1], (log_run_ok w _ Hl2) as [_ H2].
  destruct (log_run_ok w _ (proj2 (Forall_app _ _ _) (conj Hl1 Hl2))) as [_ H12].
  rewrite (H1 k start Hn), (H2 k start Hn), (H12 k start Hn), samples_of_app.
  pose proof (length_samples_of (slot k start) ((os ≫= effects w) ++ (os' ≫= effects w))) as Hls.
  rewrite samples_of_app in Hls.
  destruct (samples_of (slot k start) (os ≫= effects w)) as [|x xs],
    (samples_of (slot k start) (os' ≫= effects w)) as [|y ys];
    cbn [app] in *; rewrite ?app_nil_r; try done.
  eexists. split; [apply (Merge_applyAll k start (seconds w) (x :: xs) (y :: ys)); cbn [app]; lia|done].
Qed.

Lemma accumulators_merge_witness :
  let held os := open (run (mkAccumulator demo_win ∅) os) !! slot demo_key (demo_t0 + Hour) in
  match held [OMemory demo_key (demo_t0 + 3600 * Second) 70000000], held (drop 2 demo_obs) with
  | Some r, Some r' => exists m, UsageRecord.Merge r r' = (m, None) /\
      held ([OMemory demo_key (demo_t0 + 3600 * Second) 70000000] ++ drop 2 demo_obs) = Some m
  | Some r, None => held ([OMemory demo_key (demo_t0 + 3600 * Second) 70000000] ++ drop 2 demo_obs) = Some r
  | None, Some r' => held ([OMemory demo_key (demo_t0 + 3600 * Second) 70000000] ++ drop 2 demo_obs) = Some r'
  | None, None => held ([OMemory demo_key (demo_t0 + 3600 * Second) 70000000] ++ drop 2 demo_obs) = None
  end.
Proof.
  apply (accumulators_merge demo_win [OMemory demo_key (demo_t0 + 3600 * Second) 70000000]
           (drop 2 demo_obs) demo_key (demo_t0 + Hour)).
  - change (log_ok (log_of demo_win (drop 1 demo_obs))).
    pose proof demo_log_ok as H. unfold log_ok in *.
    change demo_obs with (take 1 demo_obs ++ drop 1 demo_obs) in H at 1.
    unfold log_of in H. rewrite bind_app in H. apply Forall_app in H as [_ H]. exact H.
  - vm_compute. discriminate.
  - vm_compute. split; discriminate.
Defined.

(** A restart resumes the open windows (ADR 0072): seeding a new accumulator
    with the snapshots of a running one is accepted record by record and
    restores exactly its open map, so nothing observed before is lost or counted
    twice. *)
Theorem Seed_resumes (w : windowing) (os : list observation) :
  0 < length_ w -> log_ok (log_of w os) -> Z.of_nat (length (log_of w os)) <= maxInt64 ->
  let a := run (mkAccumulator w ∅) os in
  seed_all (mkAccumulator w ∅) (Snapshots a) = (a, []).
Proof.
  intros Hw Hl Hlen a. pose proof (run_resumable w os Hw Hl Hlen) as Hres. fold a in Hres.
  assert (placed (open a)) as Hpl.
  { pose proof (proj1 (log_run_ok w _ Hl)) as H0. rewrite <-(run_log (mkAccumulator w ∅) os) in H0. exact H0. }
  assert (win a = w) as Hwin by (unfold a; rewrite run_log; apply log_run_win).
  pose proof (Snapshots_perm a) as Hp. unfold seed_all. rewrite seed_all_fresh; cbn [win open].
  - rewrite (right_id_L ∅ _). f_equal.
    transitivity (mkAccumulator (win a) (open a)); [|by destruct a].
    rewrite Hwin. f_equal.
    rewrite <-(list_to_map_to_list (open a)). apply list_to_map_proper.
    + rewrite <-list_fmap_compose, Hp. apply (NoDup_keys_of_values _ id); [|apply _].
      intros ok r Hr. by destruct (Hpl ok r Hr).
    + rewrite Hp. unfold map_values. rewrite <-list_fmap_compose.
      match goal with |- ?l ≡ₚ ?r => enough (l = r) as -> by done end.
      transitivity (id <$> map_to_list (open a)); [|apply list_fmap_id].
      apply list_fmap_ext. intros i [ok r] Hi. cbn.
      apply list_elem_of_lookup_2, elem_of_map_to_list in Hi. by destruct (Hpl ok r Hi) as [-> _].
  - by rewrite Hp.
  - rewrite Hp. apply (NoDup_keys_of_values _ id); [|apply _].
    intros ok r Hr. by destruct (Hpl ok r Hr).
  - done.
Qed.

Lemma Seed_resumes_witness :
  let a := run (mkAccumulator demo_win ∅) demo_obs in
  seed_all (mkAccumulator demo_win ∅) (Snapshots a) = (a, []).
Proof.
  apply (Seed_resumes demo_win demo_obs); [vm_compute; reflexivity|apply demo_log_ok|].
  vm_compute. discriminate.
Defined.

(** [Seed] refuses a record this accumulator could not have produced — a
    foreign window length, a start off the grid, a missing histogram — and a
    refused record leaves the accumulator as it was. *)
Theorem Seed_refuses (a : Accumulator) (r : Record_) :
  WindowSeconds r <> seconds (win a) \/ startOf (win a) (WindowStart r) <> WindowStart r \/
  CPU_Hist (CPU r) = None \/ Mem_Hist (Memory r) = None ->
  exists e, Seed a r = (a, Some e).
Proof.
  intros H. unfold Seed.
  destruct (Z.eqb_spec (WindowSeconds r) (seconds (win a))); cbn [negb]; [|eauto].
  destruct (Z.eqb_spec (startOf (win a) (WindowStart r)) (WindowStart r)); cbn [negb]; [|eauto].
  destruct (CPU_Hist (CPU r)), (Mem_Hist (Memory r)); eauto.
  destruct H as [?|[?|[?|?]]]; done.
Qed.

Lemma Seed_refuses_witness :
  exists e, Seed (mkAccumulator demo_win ∅) (newRecord demo_key (demo_t0 + 1) 3600)
            = (mkAccumulator demo_win ∅, Some e).
Proof.
  apply (Seed_refuses (mkAccumulator demo_win ∅) (newRecord demo_key (demo_t0 + 1) 3600)).
  right. left. vm_compute. discriminate.
Defined.

(** Closing takes exactly the ended windows: what [CloseBefore] returns and
    what stays open partition the open records, everything returned had ended at
    or before [now], nothing that stays has, and the payload order does not
    depend on how the map was iterated or which sort was used. *)
Theorem CloseBefore_partitions (a : Accumulator) (now : Time) :
  placed (open a) ->
  let '(out, a') := CloseBefore a now in
  out ++ Snapshots a' ≡ₚ Snapshots a /\
  Forall (fun r => WindowStart r + length_ (win a) <= now) out /\
  Forall (fun r => now < WindowStart r + length_ (win a)) (Snapshots a') /\
  (forall l res, l ≡ₚ map_values (filter (fun kr => ended (win a) now kr.2 = true) (open a)) ->
     sorted_result less l res -> res = out).
Proof.
  intros Hpl. unfold CloseBefore.
  assert (forall r, ended (win a) now r = true <-> WindowStart r + length_ (win a) <= now) as He.
  { intros r. unfold ended, After, Add. rewrite negb_true_iff, Z.ltb_ge. done. }
  split; [|split; [|split]].
  - rewrite !Snapshots_perm. cbn [open]. unfold sortRecords, sort_slice. rewrite merge_sort_Permutation.
    apply map_values_filter_split.
  - unfold sortRecords, sort_slice. rewrite merge_sort_Permutation, Forall_forall.
    intros r [ok Hr]%elem_of_map_values. apply map_lookup_filter_Some in Hr as [_ Hr]. by apply He.
  - rewrite Snapshots_perm, Forall_forall. cbn [open].
    intros r [ok Hr]%elem_of_map_values. apply map_lookup_filter_Some in Hr as [_ Hr].
    cbn in Hr. rewrite He in Hr. lia.
  - intros l res Hl [Hres Hs]. apply (sort_slice_unique less sort_key less_sort_key).
    + apply placed_sort_keys. by apply placed_filter.
    + split; [by rewrite Hres|done].
Qed.

Lemma CloseBefore_partitions_witness :
  let a := run (mkAccumulator demo_win ∅) demo_obs in
  let '(out, a') := CloseBefore a (demo_t0 + Hour) in
  out ++ Snapshots a' ≡ₚ Snapshots a /\
  Forall (fun r => WindowStart r + length_ (win a) <= demo_t0 + Hour) out /\
  Forall (fun r => demo_t0 + Hour < WindowStart r + length_ (win a)) (Snapshots a') /\
  (forall l res, l ≡ₚ map_values (filter (fun kr => ended (win a) (demo_t0 + Hour) kr.2 = true) (open a)) ->
     sorted_result less l res -> res = out).
Proof.
  apply (CloseBefore_partitions (run (mkAccumulator demo_win ∅) demo_obs) (demo_t0 + Hour)).
  rewrite run_log. exact (proj1 (log_run_ok demo_win _ demo_log_ok)).
Defined.
