(* ===== verification/Network.v ===== *)
(** The network accumulator of [internal/rollup/network.go]: pod network counter
    deltas summed per workload into wall-clock windows. *)

From stdpp Require Import prelude gmap strings sorting.
From Stdlib Require Import ZArith Lia.
From S2P Require Import Prelude GoTime GoStrings Histogram Windowing.
Local Open Scope Z_scope.

Record NetworkKey := mkNetworkKey {
  NNamespace : string;
  NWorkloadKind : string;
  NWorkloadName : string;
}.

#[export] Instance NetworkKey_eq_dec : EqDecision NetworkKey.
Proof. solve_decision. Defined.
#[export] Instance NetworkKey_countable : Countable NetworkKey.
Proof.
  refine (inj_countable' (fun k => (NNamespace k, NWorkloadKind k, NWorkloadName k))
    (fun '(a, b, c) => mkNetworkKey a b c) _). by intros [].
Defined.

Record NetworkRecord := mkNetworkRecord {
  NKey : NetworkKey;
  NWindowStart : Time;
  NWindowSeconds : Z;
  RxBytes : Z;
  TxBytes : Z;
  RxErrors : Z;
  TxErrors : Z;
  NSamples : Z;
  NCoveredNanoseconds : Z;
  Interfaces : Z;
  HostNetwork : bool;
}.

Abbreviation networkOpenKey := (NetworkKey * Z)%type.

Record NetworkAccumulator := mkNetworkAccumulator {
  nwin : windowing;
  nopen : gmap networkOpenKey NetworkRecord;
}.

Definition NewNetworkAccumulator (windowLength : Duration) : option NetworkAccumulator :=
  if windowLength <=? 0 then None else Some (mkNetworkAccumulator (mkWindowing windowLength) ∅).

Definition recordAt (a : NetworkAccumulator) (k : NetworkKey) (start : Time) : NetworkRecord :=
  match nopen a !! (k, UnixNano start) with
  | Some r => r
  | None => mkNetworkRecord k start (seconds (nwin a)) 0 0 0 0 0 0 0 false
  end.

Definition updateAt (a : NetworkAccumulator) (k : NetworkKey) (start : Time)
    (f : NetworkRecord -> NetworkRecord) : NetworkAccumulator :=
  mkNetworkAccumulator (nwin a) (<[(k, UnixNano start) := f (recordAt a k start)]> (nopen a)).

Record NetworkDelta := mkNetworkDelta {
  dRxBytes : Z; dTxBytes : Z; dRxErrors : Z; dTxErrors : Z; dInterfaces : Z;
}.

Definition addRx (v : Z) (r : NetworkRecord) : NetworkRecord :=
  let '(mkNetworkRecord k st se rx tx re te n co i h) := r in mkNetworkRecord k st se (rx +w v) tx re te n co i h.
Definition addTx (v : Z) (r : NetworkRecord) : NetworkRecord :=
  let '(mkNetworkRecord k st se rx tx re te n co i h) := r in mkNetworkRecord k st se rx (tx +w v) re te n co i h.
Definition addRxErrors (v : Z) (r : NetworkRecord) : NetworkRecord :=
  let '(mkNetworkRecord k st se rx tx re te n co i h) := r in mkNetworkRecord k st se rx tx (re +w v) te n co i h.
Definition addTxErrors (v : Z) (r : NetworkRecord) : NetworkRecord :=
  let '(mkNetworkRecord k st se rx tx re te n co i h) := r in mkNetworkRecord k st se rx tx re (te +w v) n co i h.
Definition addCovered (ifaces : Z) (host : bool) (v : Z) (r : NetworkRecord) : NetworkRecord :=
  let '(mkNetworkRecord k st se rx tx re te n co i h) := r in
  mkNetworkRecord k st se rx tx re te n (co +w v) (Z.max i ifaces) (h || host).
Definition incSamples (r : NetworkRecord) : NetworkRecord :=
  let '(mkNetworkRecord k st se rx tx re te n co i h) := r in mkNetworkRecord k st se rx tx re te (n +w 1) co i h.

(** [a.win.split(from, to, amount, ...)] with the closure [add]. *)
Definition spread (a : NetworkAccumulator) (k : NetworkKey) (from to : Time) (amount : Z)
    (add : Z -> NetworkRecord -> NetworkRecord) : NetworkAccumulator :=
  foldl (fun a p => updateAt a k p.1 (add p.2)) a (split (nwin a) from to amount).

Definition Observe (a : NetworkAccumulator) (k : NetworkKey) (from to : Time) (d : NetworkDelta)
    (hostNetwork : bool) : NetworkAccumulator :=
  if negb (After to from) then a
  else
    let a := spread a k from to (dRxBytes d) addRx in
    let a := spread a k from to (dTxBytes d) addTx in
    let a := spread a k from to (dRxErrors d) addRxErrors in
    let a := spread a k from to (dTxErrors d) addTxErrors in
    let a := spread a k from to (Sub to from) (addCovered (dInterfaces d) hostNetwork) in
    updateAt a k (startOf (nwin a) to) incSamples.

Definition nless (a b : NetworkRecord) : bool :=
  lexi (NWindowStart a) (NWindowStart b)
    (lexi (NNamespace (NKey a)) (NNamespace (NKey b))
      (lexi (NWorkloadKind (NKey a)) (NWorkloadKind (NKey b))
        (go_lt (NWorkloadName (NKey a)) (NWorkloadName (NKey b))))).

Definition sortNetworkRecords (rs : list NetworkRecord) : list NetworkRecord := sort_slice nless rs.

Definition nended (w : windowing) (now : Time) (r : NetworkRecord) : bool :=
  negb (After (Add (NWindowStart r) (length_ w)) now).

Definition CloseBefore (a : NetworkAccumulator) (now : Time) : list NetworkRecord * NetworkAccumulator :=
  (sortNetworkRecords (map_values (filter (fun kr => nended (nwin a) now kr.2 = true) (nopen a))),
   mkNetworkAccumulator (nwin a) (filter (fun kr => ~ nended (nwin a) now kr.2 = true) (nopen a))).

Definition Snapshots (a : NetworkAccumulator) : list NetworkRecord :=
  sortNetworkRecords (map_values (nopen a)).

Inductive net_error := NetDifferentIdentities.

Definition Merge (r o : NetworkRecord) : result net_error NetworkRecord :=
  if negb (bool_decide (NKey r = NKey o)) || negb (NWindowStart r =? NWindowStart o)
     || negb (NWindowSeconds r =? NWindowSeconds o)
  then Err NetDifferentIdentities
  else Ok (mkNetworkRecord (NKey r) (NWindowStart r) (NWindowSeconds r)
             (RxBytes r +w RxBytes o) (TxBytes r +w TxBytes o)
             (RxErrors r +w RxErrors o) (TxErrors r +w TxErrors o)
             (NSamples r +w NSamples o) (NCoveredNanoseconds r +w NCoveredNanoseconds o)
             (Z.max (Interfaces r) (Interfaces o)) (HostNetwork r || HostNetwork o)).

(** ** Sums over the open map *)

Section sums.
Context (f : NetworkRecord -> Z).
Hypothesis f_new : forall k s n, f (mkNetworkRecord k s n 0 0 0 0 0 0 0 false) = 0.

Lemma updateAt_sum a k s g d :
  (forall r, wrap64 (f (g r)) = wrap64 (f r + d)) ->
  wrap64 (map_sum f (nopen (updateAt a k s g))) = wrap64 (map_sum f (nopen a) + d).
Proof.
  intros Hg. unfold updateAt, recordAt. cbn [nopen]. rewrite map_sum_insert.
  destruct (nopen a !! (k, UnixNano s)) as [r|]; cbn [from_option].
  - replace (map_sum f (nopen a) + f (g r) - f r) with (f (g r) + (map_sum f (nopen a) - f r)) by lia.
    rewrite <-wrap64_add_l, Hg. autorewrite with agent. f_equal. lia.
  - rewrite Z.sub_0_r, Z.add_comm, <-wrap64_add_l, Hg, f_new. autorewrite with agent. f_equal. lia.
Qed.

Lemma spread_sum a k from to n add c :
  (forall v r, wrap64 (f (add v r)) = wrap64 (f r + c * v)) ->
  wrap64 (map_sum f (nopen (spread a k from to n add)))
    = wrap64 (map_sum f (nopen a) + c * list_sum snd (split (nwin a) from to n)).
Proof.
  intros Hadd. unfold spread. generalize (split (nwin a) from to n) as l. intros l. revert a.
  induction l as [|p l IH]; intros a; [cbn; by rewrite Z.mul_0_r, Z.add_0_r|].
  cbn [foldl]. rewrite IH, <-wrap64_add_l, (updateAt_sum _ _ _ _ (c * p.2)) by apply Hadd.
  autorewrite with agent. cbn. unfold list_sum. f_equal. lia.
Qed.
End sums.

Lemma spread_win a k from to n add : nwin (spread a k from to n add) = nwin a.
Proof.
  unfold spread. generalize (split (nwin a) from to n) as l. intros l. revert a.
  induction l as [|p l IH]; intros a; [done|]. cbn [foldl]. by rewrite IH.
Qed.

(** A field that each step of [Observe] moves by a multiple of the step's share. *)
Lemma Observe_sum f c1 c2 c3 c4 c5 c6 a k from to d host :
  (forall k s n, f (mkNetworkRecord k s n 0 0 0 0 0 0 0 false) = 0) ->
  (forall v r, wrap64 (f (addRx v r)) = wrap64 (f r + c1 * v)) ->
  (forall v r, wrap64 (f (addTx v r)) = wrap64 (f r + c2 * v)) ->
  (forall v r, wrap64 (f (addRxErrors v r)) = wrap64 (f r + c3 * v)) ->
  (forall v r, wrap64 (f (addTxErrors v r)) = wrap64 (f r + c4 * v)) ->
  (forall i h v r, wrap64 (f (addCovered i h v r)) = wrap64 (f r + c5 * v)) ->
  (forall r, wrap64 (f (incSamples r)) = wrap64 (f r + c6)) ->
  0 < length_ (nwin a) -> from < to -> to - from <= maxInt64 ->
  0 <= dRxBytes d <= maxInt64 -> 0 <= dTxBytes d <= maxInt64 ->
  0 <= dRxErrors d <= maxInt64 -> 0 <= dTxErrors d <= maxInt64 ->
  wrap64 (map_sum f (nopen (Observe a k from to d host)))
    = wrap64 (map_sum f (nopen a) + (c1 * dRxBytes d + c2 * dTxBytes d + c3 * dRxErrors d
                                     + c4 * dTxErrors d + c5 * (to - from) + c6)).
Proof.
  intros Hnew H1 H2 H3 H4 H5 H6 Hw Hft Hlen B1 B2 B3 B4.
  unfold Observe, After. rewrite (proj2 (Z.ltb_lt from to)) by done. cbn [negb].
  etrans; [by apply (updateAt_sum f Hnew _ _ _ _ c6)|].
  etrans; [apply wrap64_cong, (spread_sum f Hnew _ _ _ _ _ _ c5); auto|].
  etrans; [apply wrap64_cong, wrap64_cong, (spread_sum f Hnew _ _ _ _ _ _ c4); auto|].
  etrans; [do 3 apply wrap64_cong; apply (spread_sum f Hnew _ _ _ _ _ _ c3); auto|].
  etrans; [do 4 apply wrap64_cong; apply (spread_sum f Hnew _ _ _ _ _ _ c2); auto|].
  etrans; [do 5 apply wrap64_cong; apply (spread_sum f Hnew _ _ _ _ _ _ c1); auto|].
  rewrite !spread_win, Sub_exact by go_lia.
  repeat match goal with |- context [list_sum snd (split ?w from to ?n)] =>
    rewrite (proj1 (split_conserves_sum w from to n Hw Hft Hlen ltac:(lia))) end.
  f_equal. lia.
Qed.

(** ** Properties *)

#[local] Ltac field_update :=
  intros; match goal with r : NetworkRecord |- _ => destruct r end;
  cbn -[wrap64 Z.add Z.mul]; autorewrite with agent; f_equal; lia.

#[local] Ltac conserve f c1 c2 c3 c4 c5 c6 :=
  etrans; [apply (Observe_sum f c1 c2 c3 c4 c5 c6); [done|field_update..|done|done|done|done|done|done|done]|];
  f_equal; lia.

(** One pod's network delta is conserved: the bytes and errors of the open
    windows grow by exactly the delta, coverage by exactly the interval, and the
    observation is counted once. *)
Theorem network_Observe_conserves (a : NetworkAccumulator) (k : NetworkKey) (from to : Time)
    (d : NetworkDelta) (host : bool) :
  0 < length_ (nwin a) -> from < to -> to - from <= maxInt64 ->
  0 <= dRxBytes d <= maxInt64 -> 0 <= dTxBytes d <= maxInt64 ->
  0 <= dRxErrors d <= maxInt64 -> 0 <= dTxErrors d <= maxInt64 ->
  let a' := Observe a k from to d host in
  wrap64 (map_sum RxBytes (nopen a')) = wrap64 (map_sum RxBytes (nopen a) + dRxBytes d) /\
  wrap64 (map_sum TxBytes (nopen a')) = wrap64 (map_sum TxBytes (nopen a) + dTxBytes d) /\
  wrap64 (map_sum RxErrors (nopen a')) = wrap64 (map_sum RxErrors (nopen a) + dRxErrors d) /\
  wrap64 (map_sum TxErrors (nopen a')) = wrap64 (map_sum TxErrors (nopen a) + dTxErrors d) /\
  wrap64 (map_sum NCoveredNanoseconds (nopen a'))
    = wrap64 (map_sum NCoveredNanoseconds (nopen a) + (to - from)) /\
  wrap64 (map_sum NSamples (nopen a')) = wrap64 (map_sum NSamples (nopen a) + 1).
Proof.
  intros Hw Hft Hlen B1 B2 B3 B4. cbv zeta.
  split; [conserve RxBytes 1 0 0 0 0 0|]. split; [conserve TxBytes 0 1 0 0 0 0|].
  split; [conserve RxErrors 0 0 1 0 0 0|]. split; [conserve TxErrors 0 0 0 1 0 0|].
  split; [conserve NCoveredNanoseconds 0 0 0 0 1 0|conserve NSamples 0 0 0 0 0 1].
Qed.

Definition demo_net : NetworkAccumulator := mkNetworkAccumulator (mkWindowing Hour) ∅.
Definition demo_netkey : NetworkKey := mkNetworkKey "prod" "Deployment" "api".
Definition demo_delta : NetworkDelta := mkNetworkDelta 1000 2000 1 0 2.
(** 2026-01-01T01:00:00Z, a window boundary. *)
Definition demo_hour : Time := unixEpoch + 1767229200 * Second.

Lemma network_Observe_conserves_witness :
  let a' := Observe demo_net demo_netkey (demo_hour - 20) (demo_hour + 10) demo_delta false in
  wrap64 (map_sum RxBytes (nopen a')) = wrap64 (map_sum RxBytes (nopen demo_net) + 1000) /\
  wrap64 (map_sum TxBytes (nopen a')) = wrap64 (map_sum TxBytes (nopen demo_net) + 2000) /\
  wrap64 (map_sum RxErrors (nopen a')) = wrap64 (map_sum RxErrors (nopen demo_net) + 1) /\
  wrap64 (map_sum TxErrors (nopen a')) = wrap64 (map_sum TxErrors (nopen demo_net) + 0) /\
  wrap64 (map_sum NCoveredNanoseconds (nopen a'))
    = wrap64 (map_sum NCoveredNanoseconds (nopen demo_net) + (demo_hour + 10 - (demo_hour - 20))) /\
  wrap64 (map_sum NSamples (nopen a')) = wrap64 (map_sum NSamples (nopen demo_net) + 1).
Proof.
  apply (network_Observe_conserves demo_net demo_netkey (demo_hour - 20) (demo_hour + 10) demo_delta false);
    vm_compute; intuition discriminate.
Defined.

Lemma spread_lookup_ne a k from to n add z :
  (forall p, p ∈ split (nwin a) from to n -> UnixNano p.1 <> z) ->
  nopen (spread a k from to n add) !! (k, z) = nopen a !! (k, z).
Proof.
  unfold spread. generalize (split (nwin a) from to n) as l. intros l. revert a.
  induction l as [|p l IH]; intros a Hne; [done|]. cbn [foldl]. rewrite IH.
  - unfold updateAt. cbn [nopen]. apply lookup_insert_ne.
    intros [= Heq]. apply (Hne p); [left|done].
  - intros q Hq. apply Hne. by right.
Qed.

Lemma split_starts_before w from to n p :
  0 < length_ w -> from < to -> to - from <= maxInt64 -> n <= maxInt64 ->
  p ∈ split w from to n -> startOf w from <= p.1 < to.
Proof.
  intros Hw Hft Hlen Hn Hp. destruct (Z.ltb_spec n 0) as [Hneg|Hpos].
  { unfold split in Hp. rewrite (proj2 (Z.ltb_lt n 0)), orb_true_r in Hp by done.
    by apply not_elem_of_nil in Hp. }
  pose proof (split_segments w from to n Hw Hft Hlen ltac:(lia)) as Hseg.
  apply (segments_starts w from to n Hw) in Hseg.
  assert (p.1 ∈ (split w from to n).*1) as Hin by (apply list_elem_of_fmap; eauto).
  rewrite Hseg in Hin. apply list_elem_of_fmap in Hin as [j [-> Hj]]. apply elem_of_seqZ in Hj.
  pose proof (Truncate_bounds (length_ w) Hw (to - 1)). unfold startOf in *.
  pose proof (Z.mul_div_le (Truncate (to - 1) (length_ w) - Truncate from (length_ w)) (length_ w)).
  nia.
Qed.

(** Where the sample of an interval that ends exactly on a window boundary
    goes: into the window that begins there.  That window received none of the
    interval's bytes and none of its covered time, while every window the
    interval did cover counts no sample for it — the usage accumulator, which
    steps back one nanosecond before choosing the window, puts the sample in the
    last window covered. *)
Theorem network_sample_on_boundary (a : NetworkAccumulator) (k : NetworkKey) (from to : Time)
    (d : NetworkDelta) (host : bool) :
  0 < length_ (nwin a) -> from < to -> to - from <= maxInt64 ->
  dRxBytes d <= maxInt64 -> dTxBytes d <= maxInt64 -> dRxErrors d <= maxInt64 -> dTxErrors d <= maxInt64 ->
  nano_ok (startOf (nwin a) from) -> nano_ok to ->
  startOf (nwin a) to = to -> nopen a !! (k, UnixNano to) = None ->
  nopen (Observe a k from to d host) !! (k, UnixNano to)
    = Some (mkNetworkRecord k to (seconds (nwin a)) 0 0 0 0 1 0 0 false).
Proof.
  intros Hw Hft Hlen B1 B2 B3 B4 Hnf Hnt Hal Hnone.
  unfold Observe, After. rewrite (proj2 (Z.ltb_lt from to)) by done. cbn [negb].
  rewrite !spread_win, Hal. unfold updateAt, recordAt. cbn [nopen]. rewrite lookup_insert_eq.
  rewrite !spread_lookup_ne, Hnone, !spread_win; [cbn; by rewrite wrap64_id by go_lia|..].
  all: intros p Hp Heq; rewrite ?spread_win in Hp;
    apply split_starts_before in Hp; [|done|done|done|done || (unfold Sub; go_lia)];
    apply UnixNano_inj in Heq; [lia| |done]; unfold nano_ok, int64_ok in *; lia.
Qed.

Lemma network_sample_on_boundary_witness :
  nopen (Observe demo_net demo_netkey (demo_hour - 20) demo_hour demo_delta false)
      !! (demo_netkey, UnixNano demo_hour)
    = Some (mkNetworkRecord demo_netkey demo_hour (seconds (nwin demo_net)) 0 0 0 0 1 0 0 false).
Proof.
  apply (network_sample_on_boundary demo_net demo_netkey (demo_hour - 20) demo_hour demo_delta false);
    vm_compute; intuition discriminate.
Defined.
