(* ===== verification/Model.v ===== *)
(** The facts the collectors hand to the journals, from [internal/model]:
    one record per event type, optional pointers as [option]. *)

From stdpp Require Import prelude strings gmap.
From Stdlib Require Import ZArith.
From S2P Require Import Prelude GoTime.
Local Open Scope Z_scope.

(** [workload.go] *)
Record WorkloadRef := mkWorkloadRef { Kind : string; Name : string }.
#[export] Instance WorkloadRef_eq_dec : EqDecision WorkloadRef.
Proof. solve_decision. Defined.

Record WorkloadKey := mkWorkloadKey { wkNamespace : string; wkKind : string; wkName : string }.
#[export] Instance WorkloadKey_eq_dec : EqDecision WorkloadKey.
Proof. solve_decision. Defined.
#[export] Instance WorkloadKey_countable : Countable WorkloadKey.
Proof.
  refine (inj_countable' (fun k => (wkNamespace k, (wkKind k, wkName k)))
            (fun t => mkWorkloadKey t.1 t.2.1 t.2.2) _). by intros [].
Defined.

(** An [intstr.IntOrString] is kept as its [String] renders it. *)
Record UpdateStrategy := mkUpdateStrategy {
  usType : string; usMaxUnavailable : string; usMaxSurge : string; usPartition : option Z; usMinReadySeconds : Z;
}.

(** [events.go] *)
Record ContainerRestart := mkContainerRestart {
  crNamespace : string;
  crPod : string;
  crContainer : string;
  crWorkload : WorkloadRef;
  crObservedAt : Time;
  crRestarts : Z;
  crReason : string;
  crExitCode : option Z;
}.

Record PodDisruption := mkPodDisruption {
  pdNamespace : string;
  pdPod : string;
  pdWorkload : WorkloadRef;
  pdNode : string;
  pdReason : string;
  pdDisruptedAt : Time;
}.

Record JobRun := mkJobRun {
  jrNamespace : string;
  jrWorkload : WorkloadRef;
  jrName : string;
  jrStartedAt : Time;
  jrFinishedAt : Time;
  jrResult : string;
  jrFailReason : string;
  jrSucceeded : Z;
  jrFailed : Z;
  jrParallelism : option Z;
  jrCompletions : option Z;
  jrBackoffLimit : option Z;
}.

Record GoroutineCount := mkGoroutineCount {
  gcNamespace : string;
  gcPod : string;
  gcContainer : string;
  gcWorkload : WorkloadRef;
  gcImageDigest : string;
  gcObservedAt : Time;
  gcGoroutines : Z;
}.

Record OOMKill := mkOOMKill {
  okNamespace : string;
  okPod : string;
  okContainer : string;
  okWorkload : WorkloadRef;
  okFinishedAt : Time;
  okExitCode : Z;
  okRestartCount : Z;
  okMemoryLimitBytes : option Z;
}.

Record RestartTermination := mkRestartTermination { rtReason : string; rtExitCode : Z; rtFinishedAt : Time }.

Record RestartCounter := mkRestartCounter {
  rcNamespace : string;
  rcPod : string;
  rcContainer : string;
  rcWorkload : WorkloadRef;
  rcRestarts : Z;
  rcRestartsBeforeObservation : Z;
  rcObservedSince : Time;
  rcPodCreatedAt : Time;
  rcContainerStartedAt : option Time;
  rcLastTermination : option RestartTermination;
}.

(** [placement.go] *)
Record NodeAffinityTerm := mkNodeAffinityTerm {
  natKey : string; natOperator : string; natValues : list string; natRequired : bool; natWeight : Z;
}.
Record SpreadTerm := mkSpreadTerm {
  stTopologyKey : string; stMaxSkew : Z; stWhenUnsatisfiable : string; stMinDomains : option Z;
}.
Record TopologyTerm := mkTopologyTerm { ttTopologyKey : string; ttRequired : bool; ttWeight : Z }.
Record Toleration := mkToleration {
  tolKey : string; tolOperator : string; tolValue : string; tolEffect : string; tolSeconds : option Z;
}.

Record Placement := mkPlacement {
  plNodeSelector : gmap string string;
  plNodeAffinity : list NodeAffinityTerm;
  plPodAffinity : list TopologyTerm;
  plPodAntiAffinity : list TopologyTerm;
  plTopologySpread : list SpreadTerm;
  plTolerations : list Toleration;
  plPriorityClass : string;
  plTerminationGraceSeconds : option Z;
  plHostNetwork : bool;
  plSchedulerName : string;
}.

(** [pod.go] *)
Record Resources := mkResources {
  CPURequestMilli : option Z; CPULimitMilli : option Z; MemoryRequestBytes : option Z; MemoryLimitBytes : option Z;
}.
Record ContainerPort := mkContainerPort { cpName : string; cpPort : Z; cpProtocol : string }.
Record Probe := mkProbe {
  pbKind : string; pbInitialDelaySeconds : Z; pbPeriodSeconds : Z; pbTimeoutSeconds : Z;
  pbFailureThreshold : Z; pbSuccessThreshold : Z;
}.
Record Probes := mkProbes { Liveness : option Probe; Readiness : option Probe; Startup : option Probe }.

Record Container := mkContainer {
  c_Name : string;
  c_Image : string;
  c_ImageDigest : string;
  c_Init : bool;
  c_Resources : Resources;
  c_Ports : list ContainerPort;
  c_Probes : Probes;
  c_RuntimeEnv : gmap string string;
}.

Record PodInfo := mkPodInfo {
  piNamespace : string;
  piName : string;
  piNode : string;
  piPhase : string;
  piUnscheduled : string;
  piQOSClass : string;
  piWorkload : WorkloadRef;
  piPlacement : Placement;
  piClaims : list string;
  piContainers : list Container;
}.

(** [node.go] *)
Record NodeDevice := mkNodeDevice { ndName : string; ndCapacity : Z; ndAllocatable : Z }.

Record NodeCondition := mkNodeCondition { ncType : string; ncStatus : string; ncReason : string; ncSince : Time }.
Record NodeTaint := mkNodeTaint { ntKey : string; ntValue : string; ntEffect : string }.

Record NodeInfo := mkNodeInfo {
  niName : string;
  niInstanceType : string;
  niCapacityType : string;
  niZone : string;
  niRegion : string;
  niKernelVersion : string;
  niArchitecture : string;
  niCreatedAt : Time;
  niKubeletVersion : string;
  niOSImage : string;
  niOperatingSystem : string;
  niContainerRuntime : string;
  niAllocatableCPUMilli : Z;
  niAllocatableMemoryBytes : Z;
  niCapacityCPUMilli : Z;
  niCapacityMemoryBytes : Z;
  niAllocatableEphemeralBytes : Z;
  niCapacityEphemeralBytes : Z;
  niAllocatablePods : Z;
  niCapacityPods : Z;
  niDevices : list NodeDevice;
  niConditions : list NodeCondition;
  niTaints : list NodeTaint;
}.
#[export] Instance NodeDevice_eq_dec : EqDecision NodeDevice.
Proof. solve_decision. Defined.
#[export] Instance NodeCondition_eq_dec : EqDecision NodeCondition.
Proof. solve_decision. Defined.
#[export] Instance NodeTaint_eq_dec : EqDecision NodeTaint.
Proof. solve_decision. Defined.
#[export] Instance NodeInfo_eq_dec : EqDecision NodeInfo.
Proof. solve_decision. Defined.
(** [reflect.DeepEqual]: every instant was put in UTC, every list is nil or built. *)
Definition SameAs (n other : NodeInfo) : bool := bool_decide (n = other).

Record NodeLifecycle := mkNodeLifecycle {
  nlNode : NodeInfo;
  nlJoined : bool;
  nlAt : Time;
  nlObserved : bool;
}.

(** [coverage.go] *)
Record Coverage := mkCoverage {
  PodsObserved : Z; ExcludedNamespaceFilter : Z; ExcludedNamespaceAnnotation : Z;
  ExcludedWorkloadAnnotation : Z; ExcludedPodAnnotation : Z; ExcludedProfilingAnnotation : Z;
  WorkloadUnknownKind : Z; WorkloadNotCached : Z; JobsObserved : Z; JobsExcludedNamespaceFilter : Z;
  JobsExcludedNamespaceAnnotation : Z; JobsExcludedWorkloadAnnotation : Z; JobsExcludedAnnotation : Z;
}.

Record PlacementDrops := mkPlacementDrops { Values : Z; Terms : Z }.
Record NodeDrops := mkNodeDrops { ndrConditions : Z; ndrDevices : Z; ndrTaints : Z; ndrValues : Z }.
