(* ===== verification/Cluster.v ===== *)
(** The Kubernetes objects the pod watcher reads, reduced to the fields it reads,
    and the informer caches it looks owners up in.

    These are structs of [k8s.io/api], not of the agent: a pointer is an
    [option], a slice a list, an annotation map a [gmap].  [controllerOf] is what
    [metav1.GetControllerOf] answers for the object. *)

From stdpp Require Import prelude gmap strings.
From Stdlib Require Import ZArith.
From S2P Require Import Prelude GoTime.
Local Open Scope Z_scope.

Abbreviation annotations := (gmap string string).

Record OwnerRef := mkOwnerRef { ownerKind : string; ownerName : string }.

Record ObjectMeta := mkObjectMeta {
  Namespace : string;
  ObjName : string;
  UID : string;
  Annotations : annotations;
  controllerOf : option OwnerRef;
  CreationTimestamp : Time;
}.

Record ContainerStateTerminated := mkTerminated {
  term_Reason : string; term_ExitCode : Z; term_FinishedAt : Time;
}.

Record ContainerStatus := mkContainerStatus {
  st_Name : string;
  RestartCount : Z;
  ContainerID : string;
  ImageID : string;
  LastTerminated : option ContainerStateTerminated;
  StateTerminated : option ContainerStateTerminated;
  RunningSince : option Time;  (** [State.Running.StartedAt] *)
}.

(** A [resource.Quantity], by the two readings the agent makes of one. *)
Record Quantity := mkQuantity { MilliValue : Z; Value : Z }.

Record EnvVarSource := mkEnvVarSource {
  FieldRef : option string;          (** its [FieldPath] *)
  ResourceFieldRef : option string;  (** its [Resource] *)
  ConfigMapKeyRef : option (string * string);
  SecretKeyRef : option (string * string);
}.
Record EnvVar := mkEnvVar { ev_Name : string; ev_Value : string; ev_ValueFrom : option EnvVarSource }.

Record HTTPGetAction := mkHTTPGet {
  hg_Path : string; hg_Port : string; hg_Host : string; hg_HTTPHeaders : list (string * string);
}.
Record ProbeSpec := mkProbeSpec {
  Exec : option (list string);
  HTTPGet : option HTTPGetAction;
  TCPSocket : option (string * string);   (** port and host *)
  GRPC : option (Z * option string);      (** port and service *)
  InitialDelaySeconds : Z;
  TimeoutSeconds : Z;
  PeriodSeconds : Z;
  SuccessThreshold : Z;
  FailureThreshold : Z;
}.

Record PortSpec := mkPortSpec { pt_Name : string; pt_ContainerPort : Z; pt_Protocol : string }.

Record ContainerSpec := mkContainerSpec {
  cn_Name : string;
  cn_Image : string;
  Command : list string;
  Args : list string;
  EnvFrom : list string;
  Env : list EnvVar;
  CPURequest : option Quantity;
  CPULimit : option Quantity;
  MemoryRequest : option Quantity;
  MemoryLimit : option Quantity;
  Ports : list PortSpec;
  LivenessProbe : option ProbeSpec;
  ReadinessProbe : option ProbeSpec;
  StartupProbe : option ProbeSpec;
  Lifecycle : option (list string * list string);  (** the commands of its hooks *)
}.

Record NodeSelectorRequirement := mkRequirement { rq_Key : string; rq_Operator : string; rq_Values : list string }.
Record NodeSelectorTerm := mkSelectorTerm {
  MatchExpressions : list NodeSelectorRequirement; MatchFields : list NodeSelectorRequirement;
}.
Record NodeAffinity := mkNodeAffinity {
  na_Required : option (list NodeSelectorTerm); na_Preferred : list (Z * NodeSelectorTerm);
}.
(** The topology keys of the required and of the weighted terms. *)
Record PodAffinity := mkPodAffinity { pa_Required : list string; pa_Preferred : list (Z * string) }.
Record Affinity := mkAffinity {
  af_Node : option NodeAffinity; af_Pod : option PodAffinity; af_PodAnti : option PodAffinity;
}.
Record SpreadConstraint := mkSpread {
  sc_TopologyKey : string; sc_MaxSkew : Z; sc_WhenUnsatisfiable : string; sc_MinDomains : option Z;
}.
Record TolerationSpec := mkTolerationSpec {
  tl_Key : string; tl_Operator : string; tl_Value : string; tl_Effect : string; tl_Seconds : option Z;
}.

(** A volume is the claim it mounts, if it mounts one. *)
Record PodSpec := mkPodSpec {
  ps_NodeName : string;
  ps_HostNetwork : bool;
  ps_InitContainers : list ContainerSpec;
  ps_Containers : list ContainerSpec;
  ps_EphemeralContainers : list ContainerSpec;
  Volumes : list (option string);
  NodeSelector : gmap string string;
  ps_Affinity : option Affinity;
  TopologySpreadConstraints : list SpreadConstraint;
  Tolerations : list TolerationSpec;
  PriorityClassName : string;
  TerminationGracePeriodSeconds : option Z;
  SchedulerName : string;
}.

Record Condition := mkCondition {
  cond_Type : string; cond_Status : string; cond_Reason : string; cond_LastTransitionTime : Time;
}.

Record Pod := mkPod {
  p_meta : ObjectMeta;
  Spec : PodSpec;
  Phase : string;
  StatusReason : string;
  QOSClass : string;
  PodIP : string;
  Conditions : list Condition;
  InitContainerStatuses : list ContainerStatus;
  ContainerStatuses : list ContainerStatus;
}.

Record Job := mkJob {
  j_meta : ObjectMeta;
  TemplateAnnotations : annotations;
  StartTime : option Time;
  CompletionTime : option Time;
  Succeeded : Z;
  Failed : Z;
  Parallelism : option Z;
  Completions : option Z;
  BackoffLimit : option Z;
  JobConditions : list Condition;
}.

Definition NodeName (p : Pod) : string := ps_NodeName (Spec p).
Definition InitContainers (p : Pod) : list ContainerSpec := ps_InitContainers (Spec p).
Definition Containers (p : Pod) : list ContainerSpec := ps_Containers (Spec p).

(** The listers at one instant: [None] is a lookup that failed. *)
Record caches := mkCaches {
  namespaces : string -> option annotations;
  replicaSets : string -> string -> option ObjectMeta;
  deployments : string -> string -> option ObjectMeta;
  jobs : string -> string -> option ObjectMeta;
  cronJobs : string -> string -> option ObjectMeta;
  statefulSets : string -> string -> option ObjectMeta;
  daemonSets : string -> string -> option ObjectMeta;
  pods : string -> string -> option Pod;
  podList : list Pod;
}.

Definition statuses (p : Pod) : list ContainerStatus := InitContainerStatuses p ++ ContainerStatuses p.
