(* ===== verification/Admission.v ===== *)
(** The collection filter of [internal/collector/filter.go]: namespace lists, the
    opt-out annotations at their three levels, and the counts of what was
    excluded. *)

From stdpp Require Import prelude gmap strings.
From Stdlib Require Import ZArith Lia Ascii.
From S2P Require Import Prelude GoStrings Model Cluster.
Local Open Scope Z_scope.
Local Open Scope go_scope.

Definition CollectAnnotation : string := "rebuildstack.co/collect".
Definition ProfileAnnotation : string := "rebuildstack.co/profile".

Inductive ExclusionReason :=
| ExcludedByNamespaceFilter | ExcludedByNamespaceAnnotation | ExcludedByWorkloadAnnotation
| ExcludedByPodAnnotation | ExcludedByObjectAnnotation.
#[export] Instance ExclusionReason_eq_dec : EqDecision ExclusionReason.
Proof. solve_decision. Defined.

Inductive UnresolvedWorkload := WorkloadKindUnknown | WorkloadNotCached.

(** [Unresolved] is [None] for the empty string. *)
Record WorkloadLookup := mkWorkloadLookup {
  wl_Annotations : annotations; Unresolved : option UnresolvedWorkload;
}.

(** The atomic counters of the filter, one constructor each. *)
Inductive counter :=
| podsObserved | excludedNamespaceFilter | excludedNamespaceAnnotation | excludedWorkloadAnnotation
| excludedPodAnnotation | excludedProfilingAnnotation | workloadUnknownKind | workloadNotCached
| jobsObserved | jobsExcludedNamespaceFilter | jobsExcludedNamespaceAnnotation
| jobsExcludedWorkloadAnnotation | jobsExcludedAnnotation.
#[export] Instance counter_eq_dec : EqDecision counter.
Proof. solve_decision. Defined.

Record Filter := mkFilter { allow : list string; deny : list string; count : counter -> Z }.

Definition NewFilter (allowNamespaces denyNamespaces : list string) : Filter :=
  mkFilter allowNamespaces denyNamespaces (fun _ => 0).

(** ** Globs *)

(** The loop over the parts between the first and the last. *)
Fixpoint skip_parts (parts : list string) (s : string) : option string :=
  match parts with
  | [] => Some s
  | part :: parts => s ← after_first s part; skip_parts parts s
  end.

Definition star : ascii := "*"%char.

Definition matchGlob (pattern s : string) : bool :=
  match SplitByte pattern star with
  | [] | [_] => bool_decide (pattern = s)
  | first :: rest =>
      match CutPrefix s first with
      | None => false
      | Some s =>
          match skip_parts (take (pred (length rest)) rest) s with
          | None => false
          | Some s => HasSuffix s (List.last rest EmptyString)
          end
      end
  end.

Definition matchAny (patterns : list string) (s : string) : bool := existsb (fun p => matchGlob p s) patterns.

Definition namespaceAllowed (f : Filter) (namespace : string) : bool :=
  if negb (bool_decide (allow f = [])) && negb (matchAny (allow f) namespace) then false
  else negb (matchAny (deny f) namespace).

(** ** Admission

    [None] is admitted, [Some] the first control that refused. *)

Definition says_no (annotation : string) (a : annotations) : bool :=
  bool_decide (a !! annotation = Some "false"%string).

Definition AdmitPod (f : Filter) (pod : Pod) (ns : annotations) (workload : WorkloadLookup)
    : option ExclusionReason :=
  if negb (namespaceAllowed f (Namespace (p_meta pod))) then Some ExcludedByNamespaceFilter
  else if says_no CollectAnnotation ns then Some ExcludedByNamespaceAnnotation
  else if says_no CollectAnnotation (wl_Annotations workload) then Some ExcludedByWorkloadAnnotation
  else if says_no CollectAnnotation (Annotations (p_meta pod)) then Some ExcludedByPodAnnotation
  else None.

Definition AdmitNamespace (f : Filter) (name : string) (a : annotations) : option ExclusionReason :=
  if negb (namespaceAllowed f name) then Some ExcludedByNamespaceFilter
  else if says_no CollectAnnotation a then Some ExcludedByNamespaceAnnotation
  else None.

Definition AdmitProfiling (pod : Pod) (ns : annotations) (workload : WorkloadLookup) : bool :=
  negb (says_no ProfileAnnotation ns) && negb (says_no ProfileAnnotation (wl_Annotations workload))
  && negb (says_no ProfileAnnotation (Annotations (p_meta pod))).

Definition AdmitJob (f : Filter) (job : Job) (ns : annotations) (workload : WorkloadLookup)
    : option ExclusionReason :=
  if negb (namespaceAllowed f (Namespace (j_meta job))) then Some ExcludedByNamespaceFilter
  else if says_no CollectAnnotation ns then Some ExcludedByNamespaceAnnotation
  else if says_no CollectAnnotation (wl_Annotations workload) then Some ExcludedByWorkloadAnnotation
  else if says_no CollectAnnotation (Annotations (j_meta job)) || says_no CollectAnnotation (TemplateAnnotations job)
       then Some ExcludedByObjectAnnotation
  else None.

(** ** Counting *)

(** [Add(1)] on one counter. *)
Definition inc (c : counter) (f : Filter) : Filter :=
  mkFilter (allow f) (deny f) (fun d => if decide (d = c) then count f d +w 1 else count f d).

Definition countObserved (f : Filter) : Filter := inc podsObserved f.

Definition countExcluded (reason : ExclusionReason) (f : Filter) : Filter :=
  match reason with
  | ExcludedByNamespaceFilter => inc excludedNamespaceFilter f
  | ExcludedByNamespaceAnnotation => inc excludedNamespaceAnnotation f
  | ExcludedByWorkloadAnnotation => inc excludedWorkloadAnnotation f
  | ExcludedByPodAnnotation => inc excludedPodAnnotation f
  | ExcludedByObjectAnnotation => f
  end.

Definition countExcludedProfiling (f : Filter) : Filter := inc excludedProfilingAnnotation f.
Definition countJobObserved (f : Filter) : Filter := inc jobsObserved f.

Definition countJobExcluded (reason : ExclusionReason) (f : Filter) : Filter :=
  match reason with
  | ExcludedByNamespaceFilter => inc jobsExcludedNamespaceFilter f
  | ExcludedByNamespaceAnnotation => inc jobsExcludedNamespaceAnnotation f
  | ExcludedByWorkloadAnnotation => inc jobsExcludedWorkloadAnnotation f
  | ExcludedByObjectAnnotation => inc jobsExcludedAnnotation f
  | ExcludedByPodAnnotation => f
  end.

Definition countUnresolvedWorkload (reason : UnresolvedWorkload) (f : Filter) : Filter :=
  match reason with
  | WorkloadKindUnknown => inc workloadUnknownKind f
  | WorkloadNotCached => inc workloadNotCached f
  end.

Definition Snapshot (f : Filter) : Coverage :=
  mkCoverage (count f podsObserved) (count f excludedNamespaceFilter) (count f excludedNamespaceAnnotation)
    (count f excludedWorkloadAnnotation) (count f excludedPodAnnotation) (count f excludedProfilingAnnotation)
    (count f workloadUnknownKind) (count f workloadNotCached) (count f jobsObserved)
    (count f jobsExcludedNamespaceFilter) (count f jobsExcludedNamespaceAnnotation)
    (count f jobsExcludedWorkloadAnnotation) (count f jobsExcludedAnnotation).

(** ** What a glob means *)

Inductive glob : string -> string -> Prop :=
| glob_empty : glob "" ""
| glob_byte c p s : c <> star -> glob p s -> glob (String c p) (String c s)
| glob_star p s t : glob p t -> glob (String star p) (s +:+ t).

(** The text after a star: the middle parts in order, each after any gap, and a
    final part at the end. *)
Inductive parts_in (final : string) : list string -> string -> Prop :=
| parts_final gap : parts_in final [] (gap +:+ final)
| parts_cons part parts gap rest :
    parts_in final parts rest -> parts_in final (part :: parts) (gap +:+ part +:+ rest).

(** Two readings of one string: a shorter first part leaves more behind it. *)
Lemma app_split_le (a b c d : string) :
  a +:+ b = c +:+ d -> (String.length a <= String.length c)%nat -> exists more, b = more +:+ d.
Proof.
  revert c. induction a as [|x a IH]; intros c Heq Hle.
  - exists c. by rewrite <-Heq.
  - destruct c as [|y c]; [cbn in Hle; lia|]. rewrite !string_app_cons in Heq.
    injection Heq as -> Heq. apply (IH c Heq). cbn in Hle. lia.
Qed.

(** The first occurrence leaves the most behind it. *)
Lemma after_first_most s part gap rest :
  s = gap +:+ part +:+ rest -> exists more, after_first s part = Some (more +:+ rest).
Proof.
  revert gap. induction s as [|c s IH]; intros gap Heq; cbn [after_first];
    destruct (CutPrefix _ part) as [r|] eqn:Hc.
  1, 3: apply CutPrefix_Some in Hc; rewrite Hc, string_app_assoc in Heq;
    apply app_split_le in Heq as [more ->]; [by exists more|rewrite string_app_length; lia].
  - destruct gap; [|discriminate]. rewrite string_app_nil in Heq. by rewrite Heq, CutPrefix_app in Hc.
  - destruct gap as [|d gap].
    + rewrite string_app_nil in Heq. by rewrite Heq, CutPrefix_app in Hc.
    + rewrite string_app_cons in Heq. injection Heq as _ Heq. by apply (IH gap).
Qed.

Lemma parts_in_more final parts more s : parts_in final parts s -> parts_in final parts (more +:+ s).
Proof. intros []; rewrite string_app_assoc; by constructor. Qed.

(** Taking every part at its first occurrence finds a reading if there is one. *)
Lemma skip_parts_greedy final parts s :
  parts_in final parts s <-> exists rest, skip_parts parts s = Some rest /\ HasSuffix rest final = true.
Proof.
  revert s. induction parts as [|part parts IH]; intros s; cbn [skip_parts].
  - split.
    + intros H. inversion H; subst. eexists; split; [done|]. apply HasSuffix_app.
    + intros (rest & [= <-] & [gap ->]%HasSuffix_Some). constructor.
  - split.
    + intros H. inversion H as [|? ? gap rest Hin]; subst.
      destruct (after_first_most _ part gap rest eq_refl) as [more ->]. cbn. apply IH.
      by apply parts_in_more.
    + intros (rest & Hs & Hf). apply bind_Some in Hs as (s1 & [gap ->]%after_first_Some & Hs).
      constructor. apply IH. by exists rest.
Qed.

Definition join (first : string) (rest : list string) : string :=
  foldl (fun s p => s +:+ String star p) first rest.

Lemma join_cons first p ps : join first (p :: ps) = first +:+ String star (join p ps).
Proof.
  unfold join. cbn [foldl]. revert first p. induction ps as [|q ps IH]; intros first p; cbn [foldl]; [done|].
  rewrite <-(string_app_assoc first). change (String star p +:+ String star q) with (String star (p +:+ String star q)).
  apply IH.
Qed.

Lemma SplitByte_cons s : exists first rest, SplitByte s star = first :: rest.
Proof.
  induction s as [|c s (first & rest & IH)]; cbn [SplitByte]; [by eexists _, _|].
  rewrite IH. case_bool_decide; by eexists _, _.
Qed.

Definition starless (s : string) : Prop := has_byte star s = false.

Lemma SplitByte_join s first rest :
  SplitByte s star = first :: rest -> s = join first rest /\ Forall starless (first :: rest).
Proof.
  revert first rest. induction s as [|c s IH]; intros first rest; cbn [SplitByte].
  - intros [= <- <-]. split; [done|by repeat constructor].
  - destruct (SplitByte_cons s) as (f & r & Hs). destruct (IH f r Hs) as [-> Hf]. rewrite Hs.
    case_bool_decide as Hc; intros [= <- <-].
    + subst c. rewrite join_cons, string_app_nil. split; [done|]. by constructor.
    + split; [by destruct r; [|rewrite !join_cons]|]. inversion_clear Hf. constructor; [|done].
      unfold starless in *. cbn [has_byte]. by rewrite bool_decide_eq_false_2 by congruence.
Qed.

Lemma glob_starless p q s :
  starless p -> glob (p +:+ q) s <-> exists t, s = p +:+ t /\ glob q t.
Proof.
  unfold starless. revert s. induction p as [|c p IH]; intros s Hp.
  - rewrite string_app_nil. split; [by exists s|]. by intros (t & -> & Ht).
  - apply orb_false_iff in Hp as [Hc Hp]. apply bool_decide_eq_false in Hc. rewrite string_app_cons. split.
    + intros H. inversion H as [|d p' s' Hd Hg|]; subst; [|done].
      apply IH in Hg as (t & -> & Ht); [|done]. by exists t.
    + intros (t & -> & Ht). rewrite string_app_cons. constructor; [congruence|]. apply IH; [done|by exists t].
Qed.

Lemma glob_parts p ps s :
  Forall starless (p :: ps) ->
  glob (String star (join p ps)) s <->
  parts_in (List.last (p :: ps) "") (take (length ps) (p :: ps)) s.
Proof.
  revert p s. induction ps as [|q ps IH]; intros p s [Hp Hps]%Forall_cons_1.
  - change (join p []) with p. cbn [List.last take length]. split.
    + intros H. inversion H as [| |? gap t Ht]; subst; [done|].
      rewrite <-(string_app_nil_r p) in Ht. apply glob_starless in Ht as (u & -> & Hu); [|done].
      inversion Hu; subst. rewrite string_app_nil_r. constructor.
    + intros H. inversion H; subst. constructor. rewrite <-(string_app_nil_r p) at 1.
      apply glob_starless; [done|]. exists "". rewrite string_app_nil_r. by repeat constructor.
  - rewrite join_cons. cbn [length]. rewrite firstn_cons.
    change (List.last (p :: q :: ps) "") with (List.last (q :: ps) "").
    split; intros H.
    + inversion H as [| |? gap t Ht]; subst; [done|].
      apply glob_starless in Ht as (u & -> & Hu); [|done]. constructor. by apply IH.
    + inversion H as [|? ? gap rest Hr]; subst. constructor. apply glob_starless; [done|].
      exists rest. split; [done|]. by apply IH.
Qed.

(** C22. Namespace patterns mean what they say: [matchGlob], which takes every
    part between two stars at its first occurrence and never backtracks, accepts
    exactly the names the pattern describes, a star standing for any run of
    bytes. *)
Theorem matchGlob_is_glob (pattern s : string) : matchGlob pattern s = true <-> glob pattern s.
Proof.
  unfold matchGlob. destruct (SplitByte_cons pattern) as (first & rest & Hs). rewrite Hs.
  destruct (SplitByte_join _ _ _ Hs) as [-> Hf]. pose proof Hf as [Hfirst Hrest]%Forall_cons_1.
  destruct rest as [|p ps].
  - rewrite bool_decide_eq_true. change (join first []) with first.
    rewrite <-(string_app_nil_r first) at 2. rewrite glob_starless by done. split.
    + intros <-. exists "". split; [by rewrite string_app_nil_r|constructor].
    + intros (t & -> & Ht). inversion Ht. by rewrite string_app_nil_r.
  - rewrite join_cons, glob_starless by done. cbn [length pred].
    setoid_rewrite (glob_parts p ps); [|done]. setoid_rewrite skip_parts_greedy.
    destruct (CutPrefix s first) as [t|] eqn:Hc.
    + apply CutPrefix_Some in Hc as ->. split.
      * destruct (skip_parts _ t) as [u|] eqn:Hu; [|done]. intros Hsuf. exists t. split; [done|]. by exists u.
      * intros (t' & Ht & u & Hu & Hsuf). apply (f_equal (fun s => CutPrefix s first)) in Ht.
        rewrite !CutPrefix_app in Ht. injection Ht as ->. by rewrite Hu.
    + split; [done|]. intros (t & -> & _). by rewrite CutPrefix_app in Hc.
Qed.
