(* ===== verification/PodSpec.v ===== *)
(** What the agent keeps of a pod's spec: [cachetransform.go], which strips the
    object before it is cached, [placement.go], which reduces where the pod may
    run, and the readings of a container in [pods.go]. *)

From stdpp Require Import prelude gmap strings list.
From Stdlib Require Import ZArith Lia.
From S2P Require Import Prelude GoTime GoStrings Model Cluster.
Local Open Scope Z_scope.

(** ** The cache transform *)

Definition runtimeEnvNames : list string := ["GOMAXPROCS"; "GOGC"; "GOMEMLIMIT"; "GODEBUG"; "GOTRACEBACK"]%string.

Definition kept_variable (v : EnvVar) : bool :=
  bool_decide (ev_Name v ∈ runtimeEnvNames) &&
  match ev_ValueFrom v with
  | None => true
  | Some from => bool_decide (SecretKeyRef from = None) && bool_decide (ConfigMapKeyRef from = None)
  end.
Definition keptEnv (env : list EnvVar) : list EnvVar := List.filter kept_variable env.

Definition reduceProbe (p : ProbeSpec) : ProbeSpec :=
  mkProbeSpec ((fun _ => []) <$> Exec p)
    ((fun h => mkHTTPGet "" (hg_Port h) "" []) <$> HTTPGet p)
    ((fun h => (h.1, ""%string)) <$> TCPSocket p)
    ((fun h => (h.1, None)) <$> GRPC p)
    (InitialDelaySeconds p) (TimeoutSeconds p) (PeriodSeconds p) (SuccessThreshold p) (FailureThreshold p).

Definition dropContainerFields (c : ContainerSpec) : ContainerSpec :=
  mkContainerSpec (cn_Name c) (cn_Image c) [] [] [] (keptEnv (Env c))
    (CPURequest c) (CPULimit c) (MemoryRequest c) (MemoryLimit c) (Ports c)
    (reduceProbe <$> LivenessProbe c) (reduceProbe <$> ReadinessProbe c) (reduceProbe <$> StartupProbe c) None.

Definition dropPodSpecFields (s : PodSpec) : PodSpec :=
  mkPodSpec (ps_NodeName s) (ps_HostNetwork s) (dropContainerFields <$> ps_InitContainers s)
    (dropContainerFields <$> ps_Containers s) (dropContainerFields <$> ps_EphemeralContainers s)
    (Volumes s) (NodeSelector s) (ps_Affinity s) (TopologySpreadConstraints s) (Tolerations s)
    (PriorityClassName s) (TerminationGracePeriodSeconds s) (SchedulerName s).

Definition lastAppliedAnnotation : string := "kubectl.kubernetes.io/last-applied-configuration".

(** The transform of a pod; the managed fields it clears are not modelled. *)
Definition dropUncollectedFields (p : Pod) : Pod :=
  mkPod (mkObjectMeta (Namespace (p_meta p)) (ObjName (p_meta p)) (UID (p_meta p))
           (delete lastAppliedAnnotation (Annotations (p_meta p))) (controllerOf (p_meta p))
           (CreationTimestamp (p_meta p)))
    (dropPodSpecFields (Spec p)) (Phase p) (StatusReason p) (QOSClass p) (PodIP p) (Conditions p)
    (InitContainerStatuses p) (ContainerStatuses p).

(** ** The readings of a container *)

Definition portsOf (c : ContainerSpec) : list ContainerPort :=
  (fun p => mkContainerPort (pt_Name p) (pt_ContainerPort p) (pt_Protocol p)) <$> Ports c.

Definition probeKind (p : ProbeSpec) : string :=
  if Exec p is Some _ then "exec" else if HTTPGet p is Some _ then "httpGet" else if TCPSocket p is Some _ then "tcpSocket"
  else if GRPC p is Some _ then "grpc" else "".

Definition describeProbe (p : ProbeSpec) : Probe :=
  mkProbe (probeKind p) (InitialDelaySeconds p) (PeriodSeconds p) (TimeoutSeconds p) (FailureThreshold p)
    (SuccessThreshold p).

Definition probesOf (c : ContainerSpec) : Probes :=
  mkProbes (describeProbe <$> LivenessProbe c) (describeProbe <$> ReadinessProbe c)
    (describeProbe <$> StartupProbe c).

Definition runtime_value (v : EnvVar) : option string :=
  match ev_ValueFrom v with
  | None => Some (ev_Value v)
  | Some from =>
      match ResourceFieldRef from, FieldRef from with
      | Some resource, _ => Some ("resource:" +:+ resource)
      | None, Some path => Some ("field:" +:+ path)
      | None, None => None
      end
  end.
Definition runtimeEnvOf (c : ContainerSpec) : gmap string string :=
  foldl (fun env v => match runtime_value v with Some value => <[ev_Name v := value]> env | None => env end)
    ∅ (Env c).

Definition resourcesOf (c : ContainerSpec) : Resources :=
  mkResources (MilliValue <$> CPURequest c) (MilliValue <$> CPULimit c)
    (Value <$> MemoryRequest c) (Value <$> MemoryLimit c).

(** ** The placement *)

Definition maxPlacementValue : Z := 128.
Definition maxPlacementTerms : Z := 32.
Definition maxPlacementValues : Z := 16.
Definition defaultTerminationGrace : Z := 30.
Definition defaultSchedulerName : string := "default-scheduler".
Definition defaultTolerationSeconds : Z := 300.

Definition fits (s : string) : bool := Z.of_nat (String.length s) <=? maxPlacementValue.

(** The counter of refusals is threaded through the reductions. *)
Abbreviation placementDrops := PlacementDrops.
Definition noDrops : placementDrops := mkPlacementDrops 0 0.
Definition dropValues (n : Z) (d : placementDrops) : placementDrops := mkPlacementDrops (Values d + n) (Terms d).
Definition dropTerms (n : Z) (d : placementDrops) : placementDrops := mkPlacementDrops (Values d) (Terms d + n).

Definition capTerms {A} (terms : list A) (d : placementDrops) : list A * placementDrops :=
  if Z.of_nat (length terms) <=? maxPlacementTerms then (terms, d)
  else (take (Z.to_nat maxPlacementTerms) terms, dropTerms (Z.of_nat (length terms) - maxPlacementTerms) d).

(** The loop every reduction runs: a refused item is skipped. *)
Fixpoint appendTerms {A B} (term : A -> placementDrops -> option B * placementDrops) (l : list A)
    (d : placementDrops) : list B * placementDrops :=
  match l with
  | [] => ([], d)
  | x :: l =>
      let '(y, d) := term x d in
      let '(ys, d) := appendTerms term l d in
      (match y with Some y => y :: ys | None => ys end, d)
  end.

Definition keepValues (values : list string) (d : placementDrops) : list string * placementDrops :=
  if bool_decide (values = []) then ([], d)
  else if Z.of_nat (length values) >? maxPlacementValues then ([], dropValues 1 d)
  else if forallb fits values then (values, d) else ([], dropValues 1 d).

Definition selectorRequirement (required : bool) (weight : Z) (e : NodeSelectorRequirement) (d : placementDrops)
    : option NodeAffinityTerm * placementDrops :=
  if negb (fits (rq_Key e)) then (None, dropValues 1 d)
  else let '(vs, d) := keepValues (rq_Values e) d in
       (Some (mkNodeAffinityTerm (rq_Key e) (rq_Operator e) vs required weight), d).

Definition appendSelectorTerm (out : list NodeAffinityTerm) (term : NodeSelectorTerm) (required : bool) (weight : Z)
    (d : placementDrops) : list NodeAffinityTerm * placementDrops :=
  let '(exprs, d) := appendTerms (selectorRequirement required weight) (MatchExpressions term) d in
  let '(fields, d) := appendTerms (selectorRequirement required weight) (MatchFields term) d in
  (out ++ exprs ++ fields, d).

Definition reduceNodeAffinity (na : option NodeAffinity) (d : placementDrops)
    : list NodeAffinityTerm * placementDrops :=
  match na with
  | None => ([], d)
  | Some na =>
      let out := foldl (fun od term => appendSelectorTerm od.1 term true 0 od.2) ([], d)
                   (default [] (na_Required na)) in
      let out := foldl (fun od wp => appendSelectorTerm od.1 wp.2 false wp.1 od.2) out (na_Preferred na) in
      capTerms out.1 out.2
  end.

Definition requiredTopology (key : string) (d : placementDrops) : option TopologyTerm * placementDrops :=
  if fits key then (Some (mkTopologyTerm key true 0), d) else (None, dropValues 1 d).
Definition weightedTopology (wk : Z * string) (d : placementDrops) : option TopologyTerm * placementDrops :=
  if fits wk.2 then (Some (mkTopologyTerm wk.2 false wk.1), d) else (None, dropValues 1 d).

(** [reducePodAffinity] and [reducePodAntiAffinity] have the same body. *)
Definition reducePodAffinity (pa : option PodAffinity) (d : placementDrops) : list TopologyTerm * placementDrops :=
  match pa with
  | None => ([], d)
  | Some pa =>
      let '(required, d) := appendTerms requiredTopology (pa_Required pa) d in
      let '(preferred, d) := appendTerms weightedTopology (pa_Preferred pa) d in
      capTerms (required ++ preferred) d
  end.

Definition spreadTerm (c : SpreadConstraint) (d : placementDrops) : option SpreadTerm * placementDrops :=
  if fits (sc_TopologyKey c)
  then (Some (mkSpreadTerm (sc_TopologyKey c) (sc_MaxSkew c) (sc_WhenUnsatisfiable c) (sc_MinDomains c)), d)
  else (None, dropValues 1 d).
Definition reduceSpread (cs : list SpreadConstraint) (d : placementDrops) : list SpreadTerm * placementDrops :=
  let '(out, d) := appendTerms spreadTerm cs d in capTerms out d.

Definition tolerationIsClusterDefault (t : TolerationSpec) : bool :=
  bool_decide (tl_Key t ∈ ["node.kubernetes.io/not-ready"; "node.kubernetes.io/unreachable"]%string) &&
  (bool_decide (tl_Operator t = "Exists"%string) && bool_decide (tl_Effect t = "NoExecute"%string)) &&
  bool_decide (tl_Seconds t = Some defaultTolerationSeconds).

Definition toleration (t : TolerationSpec) (d : placementDrops) : option Toleration * placementDrops :=
  if tolerationIsClusterDefault t then (None, d)
  else if negb (fits (tl_Key t)) || negb (fits (tl_Value t)) then (None, dropValues 1 d)
  else (Some (mkToleration (tl_Key t) (tl_Operator t) (tl_Value t) (tl_Effect t) (tl_Seconds t)), d).
Definition reduceTolerations (ts : list TolerationSpec) (d : placementDrops) : list Toleration * placementDrops :=
  let '(out, d) := appendTerms toleration ts d in capTerms out d.

Definition selector_fits (kv : string * string) : Prop := fits kv.1 = true /\ fits kv.2 = true.
#[export] Instance selector_fits_dec kv : Decision (selector_fits kv).
Proof. unfold selector_fits. apply _. Defined.

(** The order in which a Go map is ranged over does not show: the terms that do
    not fit are counted, the others kept. *)
Definition reduceSelector (sel : gmap string string) (d : placementDrops) : gmap string string * placementDrops :=
  (filter selector_fits sel, dropValues (Z.of_nat (size (filter (fun kv => ~ selector_fits kv) sel))) d).

Definition reducePlacement (spec : PodSpec) : Placement * placementDrops :=
  let '(selector, d) := reduceSelector (NodeSelector spec) noDrops in
  let '(node, d) := reduceNodeAffinity (ps_Affinity spec ≫= af_Node) d in
  let '(pod, d) := reducePodAffinity (ps_Affinity spec ≫= af_Pod) d in
  let '(anti, d) := reducePodAffinity (ps_Affinity spec ≫= af_PodAnti) d in
  let '(spread, d) := reduceSpread (TopologySpreadConstraints spec) d in
  let '(tolerations, d) := reduceTolerations (Tolerations spec) d in
  let '(priority, d) :=
    if fits (PriorityClassName spec) then (PriorityClassName spec, d)
    else (""%string, if bool_decide (PriorityClassName spec = ""%string) then d else dropValues 1 d) in
  let grace := match TerminationGracePeriodSeconds spec with
               | Some g => if g =? defaultTerminationGrace then None else Some g
               | None => None
               end in
  let '(scheduler, d) :=
    if bool_decide (SchedulerName spec = ""%string) || bool_decide (SchedulerName spec = defaultSchedulerName)
    then (""%string, d)
    else if fits (SchedulerName spec) then (SchedulerName spec, d) else (""%string, dropValues 1 d) in
  (mkPlacement selector node pod anti spread tolerations priority grace (ps_HostNetwork spec) scheduler, d).

Definition claimNames (spec : PodSpec) : list string :=
  omap (fun claim => match claim with Some c => if fits c then Some c else None | None => None end) (Volumes spec).

(** ** What a placement in bounds is *)

(** The requirements of a node affinity in the order they are read, each with
    whether it is required and its weight. *)
Definition term_requirements (required : bool) (weight : Z) (t : NodeSelectorTerm)
    : list (bool * Z * NodeSelectorRequirement) :=
  (fun e => (required, weight, e)) <$> MatchExpressions t ++ MatchFields t.
Definition requirements (na : NodeAffinity) : list (bool * Z * NodeSelectorRequirement) :=
  (default [] (na_Required na) ≫= term_requirements true 0) ++
  (na_Preferred na ≫= fun wp => term_requirements false wp.1 wp.2).

Definition requirement_ok (x : bool * Z * NodeSelectorRequirement) : Prop :=
  fits (rq_Key x.2) = true /\ Z.of_nat (length (rq_Values x.2)) <= maxPlacementValues /\
  forallb fits (rq_Values x.2) = true.
Definition whole_requirement (x : bool * Z * NodeSelectorRequirement) : NodeAffinityTerm :=
  mkNodeAffinityTerm (rq_Key x.2) (rq_Operator x.2) (rq_Values x.2) x.1.1 x.1.2.

(** The topology terms, required ones first. *)
Definition topologies (pa : PodAffinity) : list TopologyTerm :=
  ((fun k => mkTopologyTerm k true 0) <$> pa_Required pa) ++
  ((fun wk => mkTopologyTerm wk.2 false wk.1) <$> pa_Preferred pa).

Definition whole_spread (c : SpreadConstraint) : SpreadTerm :=
  mkSpreadTerm (sc_TopologyKey c) (sc_MaxSkew c) (sc_WhenUnsatisfiable c) (sc_MinDomains c).

Definition toleration_ok (t : TolerationSpec) : Prop :=
  tolerationIsClusterDefault t = true \/ (fits (tl_Key t) = true /\ fits (tl_Value t) = true).
Definition whole_toleration (t : TolerationSpec) : option Toleration :=
  if tolerationIsClusterDefault t then None
  else Some (mkToleration (tl_Key t) (tl_Operator t) (tl_Value t) (tl_Effect t) (tl_Seconds t)).

Definition few {A} (l : list A) : Prop := Z.of_nat (length l) <= maxPlacementTerms.

Definition node_of (s : PodSpec) : list (bool * Z * NodeSelectorRequirement) :=
  match ps_Affinity s ≫= af_Node with Some na => requirements na | None => [] end.
Definition topologies_of (pa : option PodAffinity) : list TopologyTerm :=
  match pa with Some pa => topologies pa | None => [] end.
Definition is_default_scheduler (s : PodSpec) : Prop :=
  SchedulerName s = ""%string \/ SchedulerName s = defaultSchedulerName.

(** Nothing of the placement is over a bound. *)
Definition well_sized (s : PodSpec) : Prop :=
  map_Forall (fun k v => selector_fits (k, v)) (NodeSelector s) /\
  (Forall requirement_ok (node_of s) /\ few (node_of s)) /\
  (Forall (fun t => fits (ttTopologyKey t) = true) (topologies_of (ps_Affinity s ≫= af_Pod)) /\
     few (topologies_of (ps_Affinity s ≫= af_Pod))) /\
  (Forall (fun t => fits (ttTopologyKey t) = true) (topologies_of (ps_Affinity s ≫= af_PodAnti)) /\
     few (topologies_of (ps_Affinity s ≫= af_PodAnti))) /\
  (Forall (fun c => fits (sc_TopologyKey c) = true) (TopologySpreadConstraints s) /\
     few (TopologySpreadConstraints s)) /\
  (Forall toleration_ok (Tolerations s) /\ few (omap whole_toleration (Tolerations s))) /\
  fits (PriorityClassName s) = true /\
  (is_default_scheduler s \/ fits (SchedulerName s) = true).

(** The placement of a spec, field for field. *)
Definition whole_placement (s : PodSpec) : Placement :=
  mkPlacement (NodeSelector s) (whole_requirement <$> node_of s)
    (topologies_of (ps_Affinity s ≫= af_Pod)) (topologies_of (ps_Affinity s ≫= af_PodAnti))
    (whole_spread <$> TopologySpreadConstraints s) (omap whole_toleration (Tolerations s))
    (PriorityClassName s)
    (if bool_decide (TerminationGracePeriodSeconds s = Some defaultTerminationGrace) then None
     else TerminationGracePeriodSeconds s)
    (ps_HostNetwork s)
    (if bool_decide (is_default_scheduler s) then ""%string else SchedulerName s).

(** What a reduced placement never exceeds. *)
Definition bounded (p : Placement) : Prop :=
  map_Forall (fun k v => selector_fits (k, v)) (plNodeSelector p) /\
  (few (plNodeAffinity p) /\
   Forall (fun t => fits (natKey t) = true /\ Z.of_nat (length (natValues t)) <= maxPlacementValues /\
                    forallb fits (natValues t) = true) (plNodeAffinity p)) /\
  (few (plPodAffinity p) /\ Forall (fun t => fits (ttTopologyKey t) = true) (plPodAffinity p)) /\
  (few (plPodAntiAffinity p) /\ Forall (fun t => fits (ttTopologyKey t) = true) (plPodAntiAffinity p)) /\
  (few (plTopologySpread p) /\ Forall (fun t => fits (stTopologyKey t) = true) (plTopologySpread p)) /\
  (few (plTolerations p) /\
   Forall (fun t => fits (tolKey t) = true /\ fits (tolValue t) = true) (plTolerations p)) /\
  fits (plPriorityClass p) = true /\ fits (plSchedulerName p) = true.

(** ** The reductions, list by list *)

(** A reduction that drops nothing exactly when [ok], and then keeps [whole]. *)
Definition counted {A} (d : placementDrops) (out : A * placementDrops) (ok : Prop) (whole : A) : Prop :=
  exists v t, 0 <= v /\ 0 <= t /\ out.2 = mkPlacementDrops (Values d + v) (Terms d + t) /\
    (v = 0 /\ t = 0 <-> ok) /\ (ok -> out.1 = whole).

Lemma counted_skip {A} d (x : A) : counted d (x, d) True x.
Proof. exists 0, 0. rewrite !Z.add_0_r. by destruct d. Qed.

Section reduction.
Context {A B : Type} (term : A -> placementDrops -> option B * placementDrops).
Context (ok : A -> Prop) (whole : A -> option B) (Hdec : forall x, Decision (ok x)).
Context (Hok : forall x d, ok x -> term x d = (whole x, d)).
Context (Hko : forall x d, ~ ok x -> (term x d).2 = dropValues 1 d).

Lemma appendTerms_counted l d : counted d (appendTerms term l d) (Forall ok l) (omap whole l).
Proof using Hok Hko Hdec.
  revert d. induction l as [|x l IH]; intros d.
  { exists 0, 0. cbn. rewrite !Z.add_0_r, Forall_nil. by destruct d. }
  cbn [appendTerms]. destruct (decide (ok x)) as [Hx|Hx].
  - rewrite (Hok x d Hx). destruct (IH d) as (v & t & ? & ? & Hd & Hv & Hl).
    destruct (appendTerms term l d) as [ys d']. cbn [fst snd] in *. exists v, t. split_and!; try done.
    + rewrite Forall_cons. tauto.
    + rewrite Forall_cons. intros [_ ->%Hl]. cbn. by destruct (whole x).
  - pose proof (Hko x d Hx) as Hd1. destruct (term x d) as [y d1]. cbn [snd] in Hd1. subst d1.
    destruct (IH (dropValues 1 d)) as (v & t & ? & ? & Hd & _).
    destruct (appendTerms term l _) as [ys d']. cbn [fst snd] in *. subst d'. exists (v + 1), t.
    split_and!; try lia; [cbn; f_equal; lia| |]; rewrite Forall_cons; [split; [lia|tauto]|tauto].
Qed.

Lemma reduced_counted l d :
  counted d (let '(out, d) := appendTerms term l d in capTerms out d)
    (Forall ok l /\ few (omap whole l)) (omap whole l).
Proof using Hok Hko Hdec.
  destruct (appendTerms_counted l d) as (v & t & ? & ? & Hd & Hv & Hl).
  assert (t = 0 \/ ~ (v = 0 /\ t = 0)) as Ht by lia.
  destruct (appendTerms term l d) as [ys d']. cbn [fst snd] in *. subst d'. unfold capTerms, few.
  destruct (Z.leb_spec (Z.of_nat (length ys)) maxPlacementTerms) as [Hle|Hgt].
  - exists v, t. split_and!; try done; [|tauto]. rewrite Hv. split; [|tauto]. intros Hok'. split; [done|].
    by rewrite <-Hl.
  - exists v, (t + (Z.of_nat (length ys) - maxPlacementTerms)).
    split_and!; try lia; [unfold dropTerms; cbn [Values Terms snd]; f_equal; lia| |].
    + split; [lia|]. intros [Ha Hf]. rewrite <-(Hl Ha) in Hf. lia.
    + intros [Ha Hf]. rewrite <-(Hl Ha) in Hf. lia.
Qed.

Context (P : B -> Prop) (HP : forall x d y, (term x d).1 = Some y -> P y).

Lemma appendTerms_Forall l d : Forall P (appendTerms term l d).1.
Proof using HP.
  revert d. induction l as [|x l IH]; intros d; [constructor|]. cbn [appendTerms].
  pose proof (HP x d) as Hx. destruct (term x d) as [y d1]. specialize (IH d1).
  destruct (appendTerms term l d1) as [ys d2]. cbn [fst] in *. destruct y; [|done].
  constructor; [by apply Hx|done].
Qed.

Lemma reduced_Forall l d :
  let out := (let '(out, d) := appendTerms term l d in capTerms out d) in few out.1 /\ Forall P out.1.
Proof using HP.
  pose proof (appendTerms_Forall l d) as Ha. destruct (appendTerms term l d) as [ys d']. cbn [fst] in Ha.
  unfold few, capTerms. destruct (Z.leb_spec (Z.of_nat (length ys)) maxPlacementTerms) as [Hle|Hgt]; [done|].
  cbn [fst]. split; [rewrite length_take; unfold maxPlacementTerms; lia|by apply Forall_take].
Qed.
End reduction.

Lemma appendTerms_app {A B} (term : A -> _ -> option B * placementDrops) l k d :
  appendTerms term (l ++ k) d =
  let '(xs, d) := appendTerms term l d in let '(ys, d) := appendTerms term k d in (xs ++ ys, d).
Proof.
  revert d. induction l as [|x l IH]; intros d; cbn [appendTerms app].
  { by destruct (appendTerms term k d). }
  destruct (term x d) as [y d1]. rewrite IH. destruct (appendTerms term l d1) as [xs d2].
  destruct (appendTerms term k d2) as [ys d3]. by destruct y.
Qed.

Lemma appendTerms_fmap {A B C} (term : A -> _ -> option B * placementDrops) (f : C -> A) l d :
  appendTerms term (f <$> l) d = appendTerms (fun x => term (f x)) l d.
Proof. revert d. induction l as [|x l IH]; intros d; [done|]. cbn. destruct (term (f x) d). by rewrite IH. Qed.

(** ** Each list of the placement *)

#[export] Instance requirement_ok_dec x : Decision (requirement_ok x).
Proof. unfold requirement_ok. apply _. Defined.
#[export] Instance toleration_ok_dec t : Decision (toleration_ok t).
Proof. unfold toleration_ok. apply _. Defined.
#[export] Instance is_default_scheduler_dec s : Decision (is_default_scheduler s).
Proof. unfold is_default_scheduler. apply _. Defined.

Definition selector (x : bool * Z * NodeSelectorRequirement) : placementDrops -> option NodeAffinityTerm * placementDrops :=
  selectorRequirement x.1.1 x.1.2 x.2.

Lemma appendSelectorTerm_requirements out t required weight d :
  appendSelectorTerm out t required weight d =
  let '(xs, d) := appendTerms selector (term_requirements required weight t) d in (out ++ xs, d).
Proof.
  unfold appendSelectorTerm, term_requirements. rewrite appendTerms_fmap.
  change (fun x => selector (required, weight, x)) with (selectorRequirement required weight).
  rewrite appendTerms_app. destruct (appendTerms _ (MatchExpressions t) d) as [xs d1].
  by destruct (appendTerms _ (MatchFields t) d1).
Qed.

Lemma fold_selector {X} (weight : X -> Z) (term : X -> NodeSelectorTerm) required l od :
  foldl (fun od x => appendSelectorTerm od.1 (term x) required (weight x) od.2) od l =
  let '(xs, d) := appendTerms selector (l ≫= fun x => term_requirements required (weight x) (term x)) od.2 in
  (od.1 ++ xs, d).
Proof.
  revert od. induction l as [|x l IH]; intros [out d]; cbn [foldl].
  { cbn. by rewrite app_nil_r. }
  rewrite IH, appendSelectorTerm_requirements, bind_cons, appendTerms_app. cbn [fst snd].
  destruct (appendTerms selector (term_requirements _ _ _) d) as [xs d1]. cbn [fst snd].
  destruct (appendTerms selector (l ≫= _) d1) as [ys d2]. by rewrite app_assoc.
Qed.

Lemma reduceNodeAffinity_requirements na d :
  reduceNodeAffinity (Some na) d = let '(out, d) := appendTerms selector (requirements na) d in capTerms out d.
Proof.
  cbn [reduceNodeAffinity]. unfold requirements. rewrite appendTerms_app.
  rewrite (fold_selector (fun _ => 0) (fun t => t) true). cbn [fst snd].
  destruct (appendTerms selector (_ ≫= _) d) as [xs d1].
  rewrite (fold_selector fst snd false). cbn [fst snd].
  by destruct (appendTerms selector (_ ≫= _) d1).
Qed.

Lemma selector_counted x d :
  (requirement_ok x -> selector x d = (Some (whole_requirement x), d)) /\
  (~ requirement_ok x -> (selector x d).2 = dropValues 1 d).
Proof.
  destruct x as [[required weight] e]. unfold selector, selectorRequirement, requirement_ok, keepValues. cbn [fst snd].
  unfold whole_requirement. cbn [fst snd]. destruct (fits (rq_Key e)); cbn [negb]; [|split; [by intros []|done]].
  case_bool_decide as Hv.
  { rewrite Hv. split; [done|]. intros []. split_and!; [done|cbn; unfold maxPlacementValues; lia|done]. }
  destruct (Z.gtb_spec (Z.of_nat (length (rq_Values e))) maxPlacementValues) as [Hl|Hl].
  { split; [intros (_ & ? & _); lia|done]. }
  destruct (forallb fits _); split; try done; [intros []; by split_and!|by intros (_ & _ & ?)].
Qed.

Lemma selector_bounded x d y :
  (selector x d).1 = Some y ->
  fits (natKey y) = true /\ Z.of_nat (length (natValues y)) <= maxPlacementValues /\ forallb fits (natValues y) = true.
Proof.
  destruct x as [[required weight] e]. unfold selector, selectorRequirement, keepValues. cbn [fst snd].
  destruct (fits (rq_Key e)) eqn:Hk; cbn [negb]; [|done].
  case_bool_decide as Hv; [by intros [= <-]|].
  destruct (_ >? _) eqn:Hl; [by intros [= <-]|]. destruct (forallb fits _) eqn:Hf; intros [= <-]; cbn [natKey natValues]; [|done].
  split_and!; try done; lia.
Qed.

(** A topology term is refused by its key. *)
Definition topology (t : TopologyTerm) (d : placementDrops) : option TopologyTerm * placementDrops :=
  if fits (ttTopologyKey t) then (Some t, d) else (None, dropValues 1 d).

Lemma reducePodAffinity_topologies pa d :
  reducePodAffinity (Some pa) d = let '(out, d) := appendTerms topology (topologies pa) d in capTerms out d.
Proof.
  cbn [reducePodAffinity]. unfold topologies. rewrite appendTerms_app, appendTerms_fmap.
  change (fun x => topology (mkTopologyTerm x true 0)) with requiredTopology.
  destruct (appendTerms requiredTopology _ d) as [xs d1]. rewrite appendTerms_fmap.
  change (fun x : Z * string => topology _) with weightedTopology.
  by destruct (appendTerms weightedTopology _ d1).
Qed.

Lemma omap_Some {A B} (f : A -> B) (l : list A) : omap (fun x => Some (f x)) l = f <$> l.
Proof. induction l as [|x l IH]; [done|]. cbn. by rewrite <-IH. Qed.

Lemma counted_none {A B} d (ok : A -> Prop) : counted d (@nil B, d) (Forall ok [] /\ few (@nil A)) [].
Proof.
  exists 0, 0. rewrite !Z.add_0_r. by destruct d; split_and!.
Qed.

Lemma counted_few {A B} d out (l : list A) (ok : Prop) (g : A -> B) :
  counted d out (ok /\ few (omap (fun x => Some (g x)) l)) (omap (fun x => Some (g x)) l) ->
  counted d out (ok /\ few l) (g <$> l).
Proof. by rewrite omap_Some; unfold few; rewrite length_fmap. Qed.

Lemma reduceNodeAffinity_counted na d :
  let rs := match na with Some na => requirements na | None => [] end in
  counted d (reduceNodeAffinity na d) (Forall requirement_ok rs /\ few rs) (whole_requirement <$> rs).
Proof.
  intros rs. destruct na as [na|]; subst rs.
  - rewrite reduceNodeAffinity_requirements. apply counted_few.
    apply (reduced_counted selector requirement_ok (fun x => Some (whole_requirement x)) _); intros x d'; apply selector_counted.
  - apply counted_none.
Qed.

Lemma reducePodAffinity_counted pa d :
  counted d (reducePodAffinity pa d)
    (Forall (fun t => fits (ttTopologyKey t) = true) (topologies_of pa) /\ few (topologies_of pa)) (topologies_of pa).
Proof.
  destruct pa as [pa|]; cbn [topologies_of].
  - rewrite reducePodAffinity_topologies. rewrite <-(list_fmap_id (topologies pa)) at 4. apply counted_few.
    apply (reduced_counted topology (fun t => fits (ttTopologyKey t) = true) (fun x => Some (id x)) _);
      intros x d'; unfold topology; destruct (fits _); done.
  - apply counted_none.
Qed.

Lemma reduceSpread_counted cs d :
  counted d (reduceSpread cs d)
    (Forall (fun c => fits (sc_TopologyKey c) = true) cs /\ few cs) (whole_spread <$> cs).
Proof.
  apply counted_few.
  apply (reduced_counted spreadTerm (fun c => fits (sc_TopologyKey c) = true) (fun x => Some (whole_spread x)) _);
    intros x d'; unfold spreadTerm; destruct (fits _); done.
Qed.

Lemma reduceTolerations_counted ts d :
  counted d (reduceTolerations ts d) (Forall toleration_ok ts /\ few (omap whole_toleration ts)) (omap whole_toleration ts).
Proof.
  apply (reduced_counted toleration toleration_ok whole_toleration _); intros x d'; unfold toleration, toleration_ok, whole_toleration;
    destruct (tolerationIsClusterDefault x), (fits (tl_Key x)), (fits (tl_Value x)); intuition congruence.
Qed.

Lemma reduceSelector_counted sel d :
  counted d (reduceSelector sel d) (map_Forall (fun k v => selector_fits (k, v)) sel) sel.
Proof.
  unfold reduceSelector. exists (Z.of_nat (size (filter (fun kv => ~ selector_fits kv) sel))), 0.
  split_and!; [lia|done|unfold dropValues; cbn [snd]; by rewrite Z.add_0_r| |].
  - assert (forall n, Z.of_nat n = 0 /\ 0 = 0 <-> n = 0%nat) as -> by lia.
    rewrite map_size_empty_iff. split.
    + intros He k v Hk. apply dec_stable. intros Hn. by apply (map_filter_empty_not_lookup _ _ _ _ He Hn).
    + intros H. apply map_empty. intros k. apply map_lookup_filter_None. right.
      intros v Hk Hn. by apply Hn, H.
  - intros H. cbn [fst]. by apply map_filter_id.
Qed.

Lemma counted_bind {A B} d (x : A * placementDrops) (k : A -> placementDrops -> B * placementDrops) okx wx ok wk :
  counted d x okx wx -> (forall a d', counted d' (k a d') ok (wk a)) ->
  counted d (let '(a, d') := x in k a d') (okx /\ ok) (wk wx).
Proof.
  intros (v & t & ? & ? & Hd & Hv & Hw) Hk. destruct x as [a d']. cbn [fst snd] in *. subst d'.
  destruct (Hk a (mkPlacementDrops (Values d + v) (Terms d + t))) as (v' & t' & ? & ? & Hd' & Hv' & Hw').
  exists (v + v'), (t + t'). cbn [Values Terms] in *. split_and!; try lia.
  - rewrite Hd'. f_equal; lia.
  - rewrite <-Hv, <-Hv'. lia.
  - intros [<-%Hw ?]. by apply Hw'.
Qed.

Lemma counted_iff {A} d (out : A * placementDrops) ok ok' w : (ok <-> ok') -> counted d out ok w -> counted d out ok' w.
Proof. intros Hi (v & t & ?). exists v, t. by rewrite <-Hi. Qed.

Lemma counted_choice {A} d (ok : Prop) `{Decision ok} (w x : A) :
  counted d (if bool_decide ok then (w, d) else (x, dropValues 1 d)) ok w.
Proof.
  case_bool_decide as Hok; [exists 0, 0|exists 1, 0]; unfold dropValues; cbn [fst snd]; rewrite ?Z.add_0_r;
    split_and!; try done; first [by destruct d | split; [lia|done]].
Qed.

Lemma priority_counted (s : string) d :
  counted d (if fits s then (s, d) else (""%string, if bool_decide (s = ""%string) then d else dropValues 1 d))
    (fits s = true) s.
Proof.
  pose proof (counted_choice d (fits s = true) s ""%string) as H.
  destruct (fits s) eqn:Hs; [done|]. by destruct (decide (s = ""%string)) as [->|]; [|rewrite bool_decide_eq_false_2].
Qed.

Lemma scheduler_counted s d :
  counted d
    (if bool_decide (SchedulerName s = ""%string) || bool_decide (SchedulerName s = defaultSchedulerName)
     then (""%string, d)
     else if fits (SchedulerName s) then (SchedulerName s, d) else (""%string, dropValues 1 d))
    (is_default_scheduler s \/ fits (SchedulerName s) = true)
    (if bool_decide (is_default_scheduler s) then ""%string else SchedulerName s).
Proof.
  rewrite <-bool_decide_or. fold (is_default_scheduler s).
  destruct (decide (is_default_scheduler s)) as [Hd|Hd].
  - rewrite !bool_decide_eq_true_2 by done. eapply counted_iff; [|apply counted_skip]. tauto.
  - rewrite !bool_decide_eq_false_2 by done.
    pose proof (counted_choice d (fits (SchedulerName s) = true) (SchedulerName s) ""%string) as H.
    apply (counted_iff _ _ (fits (SchedulerName s) = true)); [tauto|]. by destruct (fits _).
Qed.

Lemma grace_spec g :
  match g with Some g => if g =? defaultTerminationGrace then None else Some g | None => None end =
  if bool_decide (g = Some defaultTerminationGrace) then None else g.
Proof.
  destruct g as [g|]; [|done]. destruct (Z.eqb_spec g defaultTerminationGrace) as [->|Hg]; [done|].
  rewrite bool_decide_eq_false_2; [done|]. by intros [= ->].
Qed.

Lemma reducePlacement_counted s : counted noDrops (reducePlacement s) (well_sized s) (whole_placement s).
Proof.
  unfold reducePlacement, whole_placement. eapply counted_iff.
  2: { eapply (counted_bind _ _ _ _ _ _ (fun x => mkPlacement x _ _ _ _ _ _ _ _ _)); [apply reduceSelector_counted|intros ? ?].
    eapply (counted_bind _ _ _ _ _ _ (fun x => mkPlacement _ x _ _ _ _ _ _ _ _)); [apply reduceNodeAffinity_counted|intros ? ?].
    eapply (counted_bind _ _ _ _ _ _ (fun x => mkPlacement _ _ x _ _ _ _ _ _ _)); [apply reducePodAffinity_counted|intros ? ?].
    eapply (counted_bind _ _ _ _ _ _ (fun x => mkPlacement _ _ _ x _ _ _ _ _ _)); [apply reducePodAffinity_counted|intros ? ?].
    eapply (counted_bind _ _ _ _ _ _ (fun x => mkPlacement _ _ _ _ x _ _ _ _ _)); [apply reduceSpread_counted|intros ? ?].
    eapply (counted_bind _ _ _ _ _ _ (fun x => mkPlacement _ _ _ _ _ x _ _ _ _)); [apply reduceTolerations_counted|intros ? ?].
    eapply (counted_bind _ _ _ _ _ _ (fun x => mkPlacement _ _ _ _ _ _ x _ _ _)); [apply priority_counted|intros ? ?].
    eapply (counted_bind _ _ _ _ _ _ (fun x => mkPlacement _ _ _ _ _ _ _ _ _ x)); [apply scheduler_counted|intros ? ?].
    rewrite grace_spec. apply counted_skip. }
  unfold well_sized, selector_fits, node_of. tauto.
Qed.

(** *** The bounds, whatever the spec *)

Lemma few_nil {A} (P : A -> Prop) : few (@nil A) /\ Forall P [].
Proof. by split. Qed.

Lemma reduceNodeAffinity_bounded na d :
  let out := reduceNodeAffinity na d in
  few out.1 /\ Forall (fun t => fits (natKey t) = true /\ Z.of_nat (length (natValues t)) <= maxPlacementValues /\
                               forallb fits (natValues t) = true) out.1.
Proof.
  destruct na as [na|]; [|apply few_nil]. rewrite reduceNodeAffinity_requirements.
  apply reduced_Forall, selector_bounded.
Qed.

Lemma reducePodAffinity_bounded pa d :
  let out := reducePodAffinity pa d in few out.1 /\ Forall (fun t => fits (ttTopologyKey t) = true) out.1.
Proof.
  destruct pa as [pa|]; [|apply few_nil]. rewrite reducePodAffinity_topologies. apply reduced_Forall.
  intros x d' y. unfold topology. destruct (fits _) eqn:Hf; [|done]. by intros [= <-].
Qed.

Lemma reduceSpread_bounded cs d :
  let out := reduceSpread cs d in few out.1 /\ Forall (fun t => fits (stTopologyKey t) = true) out.1.
Proof.
  apply reduced_Forall. intros x d' y. unfold spreadTerm. destruct (fits _) eqn:Hf; [|done]. by intros [= <-].
Qed.

Lemma reduceTolerations_bounded ts d :
  let out := reduceTolerations ts d in
  few out.1 /\ Forall (fun t => fits (tolKey t) = true /\ fits (tolValue t) = true) out.1.
Proof.
  apply reduced_Forall. intros x d' y. unfold toleration. destruct (tolerationIsClusterDefault x); [done|].
  destruct (fits (tl_Key x)) eqn:Hk, (fits (tl_Value x)) eqn:Hv; try done. by intros [= <-].
Qed.

Lemma reducePlacement_bounded s : bounded (reducePlacement s).1.
Proof.
  unfold reducePlacement, bounded.
  set (sel := reduceSelector _ _). destruct sel as [selector d] eqn:Hs.
  pose proof (reduceNodeAffinity_bounded (ps_Affinity s ≫= af_Node) d) as H1.
  destruct (reduceNodeAffinity _ _) as [node d1].
  pose proof (reducePodAffinity_bounded (ps_Affinity s ≫= af_Pod) d1) as H2.
  destruct (reducePodAffinity _ d1) as [pod d2].
  pose proof (reducePodAffinity_bounded (ps_Affinity s ≫= af_PodAnti) d2) as H3.
  destruct (reducePodAffinity _ d2) as [anti d3].
  pose proof (reduceSpread_bounded (TopologySpreadConstraints s) d3) as H4. destruct (reduceSpread _ _) as [spread d4].
  pose proof (reduceTolerations_bounded (Tolerations s) d4) as H5. destruct (reduceTolerations _ _) as [tol d5].
  destruct (if fits (PriorityClassName s) then _ else _) as [priority d6] eqn:Hp.
  destruct (if _ || _ then _ else _) as [scheduler d7] eqn:Hsch. cbn in *. split_and!; try apply H1; try apply H2; try apply H3; try apply H4; try apply H5.
  - injection Hs as <- _. intros k v Hk. by apply map_lookup_filter_Some in Hk as [_ Hk].
  - destruct (fits (PriorityClassName s)) eqn:Hf; by injection Hp as <- _.
  - destruct (_ || _); [by injection Hsch as <- _|]. destruct (fits (SchedulerName s)) eqn:Hf; by injection Hsch as <- _.
Qed.

(** The reduction of a pod's placement never exceeds its bounds: no kept
    string is over 128 bytes, no list over 32 terms, no expression over 16
    values.  And it says when it left something out: both drop counters are
    non-negative, they are both zero exactly when nothing of the spec was over a
    bound, and then the reduced placement is the whole placement, field for
    field. *)
Theorem placement_bounded_and_counted (s : PodSpec) :
  let p := (reducePlacement s).1 in let d := (reducePlacement s).2 in
  bounded p /\ 0 <= Values d /\ 0 <= Terms d /\
  (d = noDrops <-> well_sized s) /\ (well_sized s -> p = whole_placement s).
Proof.
  split; [apply reducePlacement_bounded|].
  destruct (reducePlacement_counted s) as (v & t & ? & ? & -> & Hok & Hw). cbn [Values Terms noDrops].
  split_and!; try done. rewrite <-Hok. unfold noDrops. split; [|intros [-> ->]; done].
  intros [= Hv Ht]. lia.
Qed.

(** ** What the cache never holds *)

(** Two probes that make the same kind of check on the same schedule. *)
Definition same_check (p q : ProbeSpec) : Prop :=
  (is_Some (Exec p) <-> is_Some (Exec q)) /\
  (hg_Port <$> HTTPGet p = hg_Port <$> HTTPGet q) /\ (fst <$> TCPSocket p = fst <$> TCPSocket q) /\
  (fst <$> GRPC p = fst <$> GRPC q) /\
  InitialDelaySeconds p = InitialDelaySeconds q /\ TimeoutSeconds p = TimeoutSeconds q /\
  PeriodSeconds p = PeriodSeconds q /\ SuccessThreshold p = SuccessThreshold q /\
  FailureThreshold p = FailureThreshold q.

(** A variable the agent has no business reading: not a runtime knob, or one
    whose value comes out of a Secret or a ConfigMap. *)
Definition private (v : EnvVar) : Prop :=
  ev_Name v ∉ runtimeEnvNames \/
  exists from, ev_ValueFrom v = Some from /\ (SecretKeyRef from <> None \/ ConfigMapKeyRef from <> None).

(** Edits of a container that touch only what must not be collected. *)
Inductive private_edit : ContainerSpec -> ContainerSpec -> Prop :=
| edit_shell n i cmd cmd' args args' from from' env a b c d ports l r s hooks hooks' :
    private_edit (mkContainerSpec n i cmd args from env a b c d ports l r s hooks)
                 (mkContainerSpec n i cmd' args' from' env a b c d ports l r s hooks')
| edit_variable n i cmd args from before v after a b c d ports l r s hooks :
    private v ->
    private_edit (mkContainerSpec n i cmd args from (before ++ v :: after) a b c d ports l r s hooks)
                 (mkContainerSpec n i cmd args from (before ++ after) a b c d ports l r s hooks)
| edit_probes n i cmd args from env a b c d ports l l' r r' s s' hooks :
    option_Forall2 same_check l l' -> option_Forall2 same_check r r' -> option_Forall2 same_check s s' ->
    private_edit (mkContainerSpec n i cmd args from env a b c d ports l r s hooks)
                 (mkContainerSpec n i cmd args from env a b c d ports l' r' s' hooks).

(** Two pods that cannot be told apart but by what must not be collected. *)
Definition same_public (p q : Pod) : Prop :=
  let cs := Forall2 (rtsc private_edit) in
  cs (ps_InitContainers (Spec p)) (ps_InitContainers (Spec q)) /\
  cs (ps_Containers (Spec p)) (ps_Containers (Spec q)) /\
  cs (ps_EphemeralContainers (Spec p)) (ps_EphemeralContainers (Spec q)) /\
  (exists applied, p_meta q =
    mkObjectMeta (Namespace (p_meta p)) (ObjName (p_meta p)) (UID (p_meta p))
      (partial_alter (fun _ => applied) lastAppliedAnnotation (Annotations (p_meta p)))
      (controllerOf (p_meta p)) (CreationTimestamp (p_meta p))) /\
  (ps_NodeName (Spec p) = ps_NodeName (Spec q) /\ ps_HostNetwork (Spec p) = ps_HostNetwork (Spec q) /\
   Volumes (Spec p) = Volumes (Spec q) /\ NodeSelector (Spec p) = NodeSelector (Spec q) /\
   ps_Affinity (Spec p) = ps_Affinity (Spec q) /\
   TopologySpreadConstraints (Spec p) = TopologySpreadConstraints (Spec q) /\
   Tolerations (Spec p) = Tolerations (Spec q) /\ PriorityClassName (Spec p) = PriorityClassName (Spec q) /\
   TerminationGracePeriodSeconds (Spec p) = TerminationGracePeriodSeconds (Spec q) /\
   SchedulerName (Spec p) = SchedulerName (Spec q)) /\
  (Phase p = Phase q /\ StatusReason p = StatusReason q /\ QOSClass p = QOSClass q /\ PodIP p = PodIP q /\
   Conditions p = Conditions q /\ InitContainerStatuses p = InitContainerStatuses q /\
   ContainerStatuses p = ContainerStatuses q).

Lemma private_dropped v : private v -> kept_variable v = false.
Proof.
  unfold kept_variable. intros [Hn|(from & -> & H)]; [by rewrite bool_decide_eq_false_2|].
  destruct H; [rewrite (bool_decide_eq_false_2 (SecretKeyRef from = None)) by done
              |rewrite (bool_decide_eq_false_2 (ConfigMapKeyRef from = None)) by done];
    by rewrite ?andb_false_r.
Qed.

Lemma reduceProbe_same p q : same_check p q -> reduceProbe p = reduceProbe q.
Proof.
  destruct p as [e h t g i to pe su fa], q as [e' h' t' g' i' to' pe' su' fa'].
  intros (He & Hh & Ht & Hg & ? & ? & ? & ? & ?). unfold reduceProbe. cbn in *. subst. f_equal.
  - destruct e, e'; cbn; try done; exfalso; destruct He as [H1 H2];
      [by destruct H1 as [? ?]; eauto|by destruct H2 as [? ?]; eauto].
  - destruct h, h'; cbn in *; congruence.
  - destruct t, t'; cbn in *; congruence.
  - destruct g, g'; cbn in *; congruence.
Qed.

Lemma reduceProbe_same_option p q : option_Forall2 same_check p q -> reduceProbe <$> p = reduceProbe <$> q.
Proof. intros [x y ?|]; [|done]. cbn. f_equal. by apply reduceProbe_same. Qed.

Lemma private_edit_dropped c c' : rtsc private_edit c c' -> dropContainerFields c = dropContainerFields c'.
Proof.
  assert (forall c c', private_edit c c' -> dropContainerFields c = dropContainerFields c') as H1.
  { intros ? ? [|? ? ? ? ? before v after ? ? ? ? ? ? ? ? ? Hv|]; unfold dropContainerFields; cbn; f_equal;
      try (by apply reduceProbe_same_option). unfold keptEnv. rewrite !List.filter_app. cbn.
    by rewrite private_dropped. }
  intros H. induction H as [|x y z [Hxy|Hxy] _ IH]; [done| |].
  - rewrite <-IH. by apply H1.
  - rewrite <-IH. symmetry. by apply H1.
Qed.

Lemma private_edits_dropped cs cs' :
  Forall2 (rtsc private_edit) cs cs' -> dropContainerFields <$> cs = dropContainerFields <$> cs'.
Proof. intros H. induction H; [done|]. cbn. f_equal; [by apply private_edit_dropped|done]. Qed.

Lemma same_public_dropped p q : same_public p q -> dropUncollectedFields p = dropUncollectedFields q.
Proof.
  intros (Hi & Hc & He & [applied Hm] & (?&?&?&?&?&?&?&?&?&?) & (?&?&?&?&?&?&?)).
  unfold dropUncollectedFields, dropPodSpecFields.
  rewrite (private_edits_dropped _ _ Hi), (private_edits_dropped _ _ Hc), (private_edits_dropped _ _ He), Hm.
  cbn. f_equal; try done; f_equal; try done.
  apply map_eq. intros k. destruct (decide (k = lastAppliedAnnotation)) as [->|Hk];
    [by rewrite !lookup_delete_eq|]. by rewrite !lookup_delete_ne, lookup_partial_alter_ne.
Qed.

(** *** What is read from a cached container *)

Lemma runtimeEnvOf_elem c k v :
  runtimeEnvOf c !! k = Some v -> exists x, x ∈ Env c /\ ev_Name x = k /\ runtime_value x = Some v.
Proof.
  unfold runtimeEnvOf.
  assert (forall env : gmap string string, foldl (fun env x => match runtime_value x with Some value => <[ev_Name x := value]> env | None => env end) env (Env c) !! k = Some v ->
    env !! k = Some v \/ exists x, x ∈ Env c /\ ev_Name x = k /\ runtime_value x = Some v) as H.
  { induction (Env c) as [|x l IH]; intros env; cbn [foldl]; [by left|].
    intros [He|(y & Hy & Hyv)]%IH; [|right; exists y; split; [by right|done]].
    destruct (runtime_value x) as [value|] eqn:Hx; [|by left].
    apply lookup_insert_Some in He as [[Hn ->]|[_ He]]; [|by left]. right. exists x. split; [by left|done]. }
  intros [He|?]%H; [|done]. by rewrite lookup_empty in He.
Qed.

Lemma probeKind_reduced p : probeKind (reduceProbe p) = probeKind p.
Proof. unfold probeKind. destruct p as [e h t g ? ? ? ? ?]. by destruct e, h, t, g. Qed.

Lemma probesOf_dropped c : probesOf (dropContainerFields c) = probesOf c.
Proof.
  assert (forall p, describeProbe (reduceProbe p) = describeProbe p) as H
    by (intros p; unfold describeProbe; by rewrite probeKind_reduced).
  unfold probesOf. cbn. by destruct (LivenessProbe c), (ReadinessProbe c), (StartupProbe c); cbn; rewrite ?H.
Qed.

(** C8. Nothing the agent promises not to collect enters its cache: pods that
    differ only in commands, arguments, lifecycle hooks, what their probes check,
    the applied-configuration annotation, or environment variables other than
    the five runtime knobs written inline, become the same cached object.  Every
    variable read from a cached container is one of the five and its value is
    literal or a field path.  And nothing reported is lost on the way: ports,
    probe schedules, resources, placement and claims of the cached object are
    those of the pod. *)
Theorem cache_holds_nothing_private :
  (forall p q, same_public p q -> dropUncollectedFields p = dropUncollectedFields q) /\
  (forall c k value, runtimeEnvOf (dropContainerFields c) !! k = Some value ->
     k ∈ runtimeEnvNames /\
     exists v, v ∈ Env c /\ ev_Name v = k /\ ~ private v /\ runtime_value v = Some value) /\
  (forall c, portsOf (dropContainerFields c) = portsOf c /\ probesOf (dropContainerFields c) = probesOf c /\
     resourcesOf (dropContainerFields c) = resourcesOf c) /\
  (forall s, reducePlacement (dropPodSpecFields s) = reducePlacement s /\ claimNames (dropPodSpecFields s) = claimNames s).
Proof.
  split; [exact same_public_dropped|]. split.
  - intros c k value (v & Hv & <- & Hval)%runtimeEnvOf_elem. cbn in Hv.
    apply list_elem_of_In, List.filter_In in Hv as [Hv Hk]. apply list_elem_of_In in Hv.
    assert (~ private v) as Hp by (intros Hp%private_dropped; congruence).
    split; [apply dec_stable; intros ?; apply Hp; by left|]. by exists v.
  - split; [|done]. intros c. split; [done|]. split; [apply probesOf_dropped|done].
Qed.

(** A database pod: a password in its environment, a command in its probe. *)
Definition demo_env (password : string) : list EnvVar :=
  [mkEnvVar "GOGC" "50" None; mkEnvVar "PASSWORD" password None;
   mkEnvVar "GOMAXPROCS" "" (Some (mkEnvVarSource None (Some "limits.cpu"%string) None None))].
Definition demo_db (password : string) (cmd check : list string) : ContainerSpec :=
  mkContainerSpec "db" "postgres:16" cmd [] [] (demo_env password)
    (Some (mkQuantity 250 1)) None None (Some (mkQuantity 0 536870912)) [mkPortSpec "pg" 5432 "TCP"]
    (Some (mkProbeSpec (Some check) None None None 5 1 10 1 3)) None None None.
Definition demo_db_pod (c : ContainerSpec) : Pod :=
  mkPod (mkObjectMeta "shop" "db-0" "u9" ∅ None unixEpoch)
    (mkPodSpec "node-1" false [] [c] [] [] ∅ None [] [] "" None "") "Running" "" "Burstable" "10.0.0.9" [] [] [].

Lemma cache_holds_nothing_private_witness :
  let p := demo_db_pod (demo_db "hunter2" ["postgres"%string] ["pg_isready"%string]) in
  let q := demo_db_pod (demo_db "letmein" ["postgres"; "-v"]%string ["psql"; "-l"]%string) in
  same_public p q /\ dropUncollectedFields p = dropUncollectedFields q /\
  runtimeEnvOf (dropContainerFields (demo_db "hunter2" [] [])) !! "PASSWORD"%string = None /\
  runtimeEnvOf (dropContainerFields (demo_db "hunter2" [] [])) !! "GOMAXPROCS"%string = Some "resource:limits.cpu"%string.
Proof.
  intros p q. assert (same_public p q) as H.
  { split; [constructor|]. split; [constructor; [|constructor]|split; [constructor|]; split; [by exists None|done]].
    assert (forall v, private (mkEnvVar "PASSWORD" v None)) as Hp by (intros v; left; by apply (bool_decide_unpack _)).
    eapply rtc_l; [left; apply (edit_variable _ _ _ _ _ [_] _ [_]), Hp|].
    eapply rtc_l; [left; apply (edit_shell _ _ _ ["postgres"; "-v"]%string _ [] _ [] _ _ _ _ _ _ _ _ _ _ None)|].
    eapply rtc_l; [left; eapply edit_probes;
      [constructor; instantiate (1 := mkProbeSpec (Some ["psql"; "-l"]%string) None None None 5 1 10 1 3);
       split_and!; try done; by split|constructor|constructor]|].
    apply rtc_once. right. apply (edit_variable _ _ _ _ _ [mkEnvVar "GOGC" "50" None] _ [_]), Hp. }
  split; [exact H|]. split; [exact (proj1 cache_holds_nothing_private p q H)|]. split; vm_compute; reflexivity.
Defined.
