(* ===== verification/WatchHealth.v ===== *)
(** The health of a watch, [internal/collector/watchhealth.go], and the heartbeat
    of a role, [internal/health/heartbeat.go].

    A cache's failures reach [record] from the reflector, the watchdog's ticks
    read the streaks; both hold the record's lock, so a run is a sequence of
    failures and ticks.  What client-go promises, that it calls the handler on
    every failure, is that the failures are events of the run. *)

From stdpp Require Import prelude gmap strings sorting.
From Stdlib Require Import ZArith Lia.
From S2P Require Import Prelude GoTime.
Local Open Scope Z_scope.
Local Open Scope go_scope.

(** ** Durations *)

(** [Duration.Round]: half away from zero, saturating. *)
Definition Round (d m : Duration) : Duration :=
  if m <=? 0 then d
  else
    let r := Z.rem d m in
    if d <? 0
    then let r := - r in
         if r + r <? m then d + r else let d1 := d - m + r in if d1 <? minInt64 then minInt64 else d1
    else if r + r <? m then d - r else let d1 := d + m - r in if maxInt64 <? d1 then maxInt64 else d1.

(** ** One cache's record of failing *)

Definition watchStreakGap : Duration := 2 * Minute.
Definition watchFatalStreak : Duration := 5 * Minute.
Definition watchUnavailableFor : Duration := 3 * Minute.
Definition watchCheckInterval : Duration := 30 * Second.

Record watchLimits := mkWatchLimits {
  streakGap : Duration; fatalStreak : Duration; unavailableFor : Duration; checkInterval : Duration;
}.
Definition defaultWatchLimits : watchLimits :=
  mkWatchLimits watchStreakGap watchFatalStreak watchUnavailableFor watchCheckInterval.

Record watchHealth := mkWatchHealth { gap : Duration; first : Time; last_ : Time; lastErr : string }.
Definition newWatchHealth (gap : Duration) : watchHealth := mkWatchHealth gap 0 0 "".
Definition setGap (h : watchHealth) (gap : Duration) : watchHealth := mkWatchHealth gap (first h) (last_ h) (lastErr h).

Definition record (h : watchHealth) (now : Time) (err : option string) : watchHealth :=
  mkWatchHealth (gap h)
    (if IsZero (last_ h) || (gap h <? Sub now (last_ h)) then now else first h)
    now
    (match err with Some e => e | None => lastErr h end).

Definition failingFor (h : option watchHealth) (now : Time) : Duration * string :=
  match h with
  | None => (0, ""%string)
  | Some h =>
      if IsZero (last_ h) || (gap h <? Sub now (last_ h)) then (0, ""%string)
      else (Sub (last_ h) (first h), lastErr h)
  end.

Definition failingSince (h : option watchHealth) (now : Time) (d : Duration) : option Time :=
  match h with
  | None => None
  | Some h => if IsZero (last_ h) || (d <? Sub now (last_ h)) then None else Some (first h)
  end.

Definition failedWithin (h : option watchHealth) (now : Time) (d : Duration) : bool :=
  match failingSince h now d with Some _ => true | None => false end.

(** ** The watchdog *)

(** The parts of the error's text. *)
Record watch_error := mkWatchError { we_watch : string; we_for : Duration; we_err : string }.

Definition judge (limits : watchLimits) (gating : gmap string watchHealth) (at_ : Time) (name : string) : option watch_error :=
  let '(failing, err) := failingFor (gating !! name) at_ in
  if fatalStreak limits <=? failing then Some (mkWatchError name (Round failing Second) err) else None.
Definition watch_names (gating : gmap string watchHealth) : list string := sort_slice go_lt (map_to_list gating).*1.
Definition watchdog_tick (limits : watchLimits) (gating : gmap string watchHealth) (at_ : Time) : option watch_error :=
  head (omap (judge limits gating at_) (watch_names gating)).

Inductive watch_event := Failed_ (name : string) (now : Time) (err : option string) | Tick (at_ : Time) | Cancelled.

(** What the loop returns: [None] while it blocks. *)
Fixpoint watchdog (limits : watchLimits) (gating : gmap string watchHealth) (evs : list watch_event)
    : option (option watch_error) :=
  match evs with
  | [] => None
  | Failed_ name now err :: evs => watchdog limits (alter (fun h => record h now err) name gating) evs
  | Tick at_ :: evs =>
      match watchdog_tick limits gating at_ with
      | Some e => Some (Some e)
      | None => watchdog limits gating evs
      end
  | Cancelled :: _ => Some None
  end.

(** [trackWatch] for each gating cache. *)
Definition trackWatches (limits : watchLimits) (names : gset string) : gmap string watchHealth :=
  gset_to_gmap (newWatchHealth (streakGap limits)) names.

(** What a stopped watcher returns. *)
Inductive run_error := WatchFailed (e : watch_error) | RegisterFailed (resource err : string) | NotSynced (resource : string).

Definition takeWatchFailure (fatal : option watch_error) : option run_error := WatchFailed <$> fatal.
Definition registrationFailure (cancelled : bool) (fatal : option watch_error) (resource err : string) : option run_error :=
  match takeWatchFailure fatal with
  | Some verdict => Some verdict
  | None => if cancelled then None else Some (RegisterFailed resource err)
  end.

(** ** A role's heartbeat *)

Record Heartbeat := mkHeartbeat { hb_last : Time; hb_deadline : Duration }.
Definition NewHeartbeat (now : Time) (deadline : Duration) : Heartbeat := mkHeartbeat now deadline.
Definition Beat (h : Heartbeat) (now : Time) : Heartbeat := mkHeartbeat now (hb_deadline h).
Definition Alive (h : Heartbeat) (now : Time) : bool * Duration :=
  let age := Sub now (hb_last h) in (age <=? hb_deadline h, age).
Definition Last (h : Heartbeat) : Time := hb_last h.
Definition Deadline (h : Heartbeat) : Duration := hb_deadline h.

(** ** A record tells the current run of failures *)

Definition close_by (g : Duration) (a b : Time) : Prop := Sub b a <= g.

(** [ts] ends in a run of failures no two of which are further apart than [g],
    from [t0] to [tn]. *)
Definition ends_in_run (g : Duration) (ts : list Time) (before run : list Time) (t0 tn : Time) : Prop :=
  ts = before ++ run /\ head run = Some t0 /\ last run = Some tn /\ Sorted (close_by g) run.

(** ... and the failure before the run, if any, was further away. *)
Definition current_run (g : Duration) (ts : list Time) (t0 tn : Time) : Prop :=
  exists before run, ends_in_run g ts before run t0 tn /\ forall a, last before = Some a -> g < Sub t0 a.

Definition record_all (h : watchHealth) (fs : list (Time * option string)) : watchHealth :=
  foldl (fun h f => record h f.1 f.2) h fs.

Definition tracks (ts : list Time) (h : watchHealth) : Prop :=
  match last ts with
  | None => last_ h = 0
  | Some tn => last_ h = tn /\ tn <> 0 /\ current_run (gap h) ts (first h) tn
  end.

Lemma record_tracks ts h now err : now <> 0 -> tracks ts h -> tracks (ts ++ [now]) (record h now err).
Proof.
  intros Hn Ht. unfold tracks in *. rewrite last_snoc. split; [done|]. split; [done|]. cbn [record gap first last_].
  assert (Hnew : forall before, (forall a, last before = Some a -> gap h < Sub now a) -> current_run (gap h) (before ++ [now]) now now).
  { intros before Hb. exists before, [now]. split; [|done]. split_and!; [done|done|done|by repeat constructor]. }
  destruct (last ts) as [tn|] eqn:Hl.
  - destruct Ht as (-> & Hz & before & run & (-> & Hh & Hr & Hs) & Hgap). unfold IsZero.
    rewrite (proj2 (Z.eqb_neq tn 0) Hz). cbn [orb]. destruct (Z.ltb_spec (gap h) (Sub now tn)) as [Hfar|Hnear].
    + apply Hnew. intros a Ha. rewrite Hl in Ha. by injection Ha as <-.
    + exists before, (run ++ [now]). split; [|done]. split_and!.
      * by rewrite app_assoc.
      * destruct run; [done|]. by cbn in *.
      * apply last_snoc.
      * apply Sorted_snoc; [done|]. destruct run as [|x run _] using rev_ind; [done|].
        rewrite last_snoc in Hr. injection Hr as ->. by constructor.
  - apply last_None in Hl as ->. rewrite Ht. cbn [orb IsZero Z.eqb]. by apply Hnew.
Qed.

Lemma record_all_tracks g fs :
  Forall (fun f => f.1 <> 0) fs -> let h := record_all (newWatchHealth g) fs in gap h = g /\ tracks fs.*1 h.
Proof.
  induction fs as [|[t e] fs IH] using rev_ind; intros Hf; [done|]. apply Forall_app in Hf as [Hf [Ht _]%Forall_cons].
  unfold record_all. rewrite foldl_app, fmap_app. cbn [foldl]. fold (record_all (newWatchHealth g) fs).
  destruct (IH Hf) as [Hg Hh]. split; [exact Hg|exact (record_tracks _ _ t e Ht Hh)].
Qed.

(** What the payloads and the watchdog read: nothing of a cache that never
    failed, and of one that did the span from the first to the last failure of
    the current run, for as long as the last one is recent. *)
Lemma failingFor_reads_the_run g fs :
  Forall (fun f => f.1 <> 0) fs ->
  let h := Some (record_all (newWatchHealth g) fs) in
  match last fs.*1 with
  | None => forall now d, (failingFor h now).1 = 0 /\ failingSince h now d = None
  | Some tn => exists t0, current_run g fs.*1 t0 tn /\ forall now d,
      (failingFor h now).1 = (if Sub now tn <=? g then Sub tn t0 else 0) /\
      failingSince h now d = (if Sub now tn <=? d then Some t0 else None)
  end.
Proof.
  intros Hf. cbn zeta. destruct (record_all_tracks g fs Hf) as [Hg Ht]. unfold tracks in Ht.
  destruct (last fs.*1) as [tn|]; unfold failingFor, failingSince.
  - destruct Ht as (-> & Hz & Hr). rewrite Hg in Hr. exists (first (record_all (newWatchHealth g) fs)). split; [done|]. intros now d.
    unfold IsZero. rewrite (proj2 (Z.eqb_neq tn 0) Hz), Hg. cbn [orb].
    rewrite (Z.leb_antisym g), (Z.leb_antisym d). by destruct (g <? _), (d <? _).
  - intros now d. by rewrite Ht.
Qed.

(** ** When the watchdog stops the agent *)

Definition failure_of (name : string) (ev : watch_event) : option (Time * option string) :=
  match ev with Failed_ n now err => if bool_decide (n = name) then Some (now, err) else None | _ => None end.
Definition failures (name : string) (evs : list watch_event) : list (Time * option string) := omap (failure_of name) evs.

(** Failures no further apart than the gap, over at least the fatal streak, the
    last of them no longer ago than the gap. *)
Definition outage (l : watchLimits) (ts : list Time) (at_ : Time) : Prop :=
  exists before run t0 tn, ends_in_run (streakGap l) ts before run t0 tn /\
    Sub at_ tn <= streakGap l /\ fatalStreak l <= Sub tn t0.

Definition time_of (ev : watch_event) : list Time :=
  match ev with Failed_ _ now _ => [now] | Tick at_ => [at_] | Cancelled => [] end.
(** The clock reads later than the zero time and does not go back. *)
Definition clock_ok (evs : list watch_event) : Prop :=
  StronglySorted Z.le (evs ≫= time_of) /\ Forall (fun t => 0 < t) (evs ≫= time_of).

Lemma failures_times name evs : sublist (failures name evs).*1 (evs ≫= time_of).
Proof.
  induction evs as [|ev evs IH]; [constructor|]. cbn. destruct ev as [n now err|at_|]; cbn.
  - case_bool_decide; cbn; [by apply sublist_skip|by apply sublist_cons].
  - by apply sublist_cons.
  - done.
Qed.

Lemma StronglySorted_sublist {A} (R : relation A) (l k : list A) : sublist l k -> StronglySorted R k -> StronglySorted R l.
Proof.
  induction 1 as [|x l k Hs IH|x l k Hs IH]; intros Hk; [done| |].
  - apply StronglySorted_inv in Hk as [Hk Hx]. constructor; [by apply IH|].
    apply Forall_forall. intros y Hy. rewrite Forall_forall in Hx. apply Hx. by eapply elem_of_sublist.
  - apply StronglySorted_inv in Hk as [Hk _]. by apply IH.
Qed.

Lemma clock_ok_failures name evs1 evs2 :
  clock_ok (evs1 ++ evs2) -> StronglySorted Z.le (failures name evs1).*1 /\ Forall (fun f => f.1 <> 0) (failures name evs1).
Proof.
  unfold clock_ok. rewrite bind_app. intros [Hs Hp].
  assert (Hsub : sublist (failures name evs1).*1 ((evs1 ≫= time_of) ++ (evs2 ≫= time_of))).
  { etrans; [apply failures_times|]. apply sublist_inserts_r. reflexivity. }
  split; [by eapply StronglySorted_sublist|].
  apply Forall_forall. intros f Hf. rewrite Forall_forall in Hp.
  assert (0 < f.1); [|lia]. apply Hp. eapply elem_of_sublist; [|exact Hsub]. by apply list_elem_of_fmap_2.
Qed.

(** Of failures in time order the longest run is the current one. *)
Lemma run_within_current g ts before run t0 tn t0' tn' :
  StronglySorted Z.le ts -> current_run g ts t0 tn -> ends_in_run g ts before run t0' tn' -> tn' = tn /\ t0 <= t0'.
Proof.
  intros Hsort (before1 & run1 & (-> & Hh1 & Hl1 & Hs1) & Hfar) (Heq & Hh & Hl & Hs).
  assert (Hne : run <> [] /\ run1 <> []) by (split; intros ->; done). destruct Hne as [Hne Hne1].
  split.
  { assert (E : last (before1 ++ run1) = last (before ++ run)) by by rewrite Heq.
    rewrite !last_app, Hl, Hl1 in E. by injection E as ->. }
  destruct run1 as [|x run1]; [done|]. injection Hh1 as ->. destruct run as [|y run]; [done|]. injection Hh as ->.
  destruct (app_eq_inv _ _ _ _ Heq) as [(mid & -> & Hmid)|(mid & -> & Hmid)].
  - destruct mid as [|z mid _] using rev_ind; [by injection Hmid as -> ->|]. exfalso.
    rewrite app_assoc, last_snoc in Hfar. specialize (Hfar z eq_refl).
    rewrite Hmid, <-app_assoc in Hs. cbn in Hs. clear -Hs Hfar. induction mid as [|m mid IH]; cbn in Hs.
    + apply Sorted_inv in Hs as [_ Hs]. apply HdRel_inv in Hs. unfold close_by in Hs. lia.
    + apply Sorted_inv in Hs as [Hs _]. by apply IH.
  - destruct mid as [|z mid]; [by injection Hmid as -> ->|]. injection Hmid as <- ->.
    apply StronglySorted_app_1_r in Hsort. apply StronglySorted_inv in Hsort as [_ Hall].
    rewrite Forall_forall in Hall. apply Hall. set_solver.
Qed.

Lemma judge_outage l gating at_ name fs :
  0 < fatalStreak l -> gating !! name = Some (record_all (newWatchHealth (streakGap l)) fs) ->
  Forall (fun f => f.1 <> 0) fs -> StronglySorted Z.le fs.*1 ->
  is_Some (judge l gating at_ name) <-> outage l fs.*1 at_.
Proof.
  intros Hl Hg Hf Hsort. pose proof (failingFor_reads_the_run (streakGap l) fs Hf) as Hrun. cbn zeta in Hrun.
  unfold judge. rewrite Hg. set (h := Some (record_all _ fs)) in *. destruct (last fs.*1) as [tn|] eqn:Hlast.
  - destruct Hrun as (t0 & Hcur & Hread). destruct (Hread at_ 0) as [Hfor _].
    destruct (failingFor h at_) as [d err]. cbn in Hfor. subst d. split.
    + intros [e He]. destruct (Z.leb_spec (Sub at_ tn) (streakGap l)) as [Hnear|]; [|by rewrite (proj2 (Z.leb_gt _ 0)) in He by lia].
      destruct (Z.leb_spec (fatalStreak l) (Sub tn t0)) as [Hlong|]; [|done].
      destruct Hcur as (before & run & Hends & _). by exists before, run, t0, tn.
    + intros (before & run & t0' & tn' & Hends & Hnear & Hlong).
      destruct (run_within_current _ _ _ _ _ _ _ _ Hsort Hcur Hends) as [-> Hle].
      rewrite (proj2 (Z.leb_le _ _) Hnear). rewrite (proj2 (Z.leb_le (fatalStreak l) (Sub tn t0))); [by eexists|].
      unfold Sub in *. go_lia.
  - destruct (Hrun at_ 0) as [Hfor _]. destruct (failingFor h at_) as [d err]. cbn in Hfor. subst d.
    rewrite (proj2 (Z.leb_gt _ 0)) by lia. split; [by intros []|].
    intros (before & run & t0 & tn & (E & _ & Hr & _) & _). apply last_None in Hlast. rewrite Hlast in E.
    symmetry in E. apply app_eq_nil in E as [-> ->]. done.
Qed.

Lemma judge_names l gating at_ name e : judge l gating at_ name = Some e -> we_watch e = name.
Proof. unfold judge. destruct (failingFor _ _). case_match; [|done]. by intros [= <-]. Qed.

Lemma elem_of_watch_names gating name : name ∈ watch_names gating <-> is_Some (gating !! name).
Proof.
  unfold watch_names, sort_slice. rewrite merge_sort_Permutation, list_elem_of_fmap. split.
  - intros ([k h] & -> & Hin%elem_of_map_to_list). by eexists.
  - intros [h Hh]. exists (name, h). split; [done|]. by apply elem_of_map_to_list.
Qed.

(** The watchdog's map after some events. *)
Definition fed (l : watchLimits) (names : gset string) (evs : list watch_event) (gating : gmap string watchHealth) : Prop :=
  forall name, gating !! name =
    (if decide (name ∈ names) then Some (record_all (newWatchHealth (streakGap l)) (failures name evs)) else None).

Lemma fed_start l names : fed l names [] (trackWatches l names).
Proof. intros name. unfold trackWatches. rewrite lookup_gset_to_gmap. case_decide; by simplify_option_eq. Qed.

Lemma failures_snoc name evs ev :
  failures name (evs ++ [ev]) = failures name evs ++ (match failure_of name ev with Some f => [f] | None => [] end).
Proof. unfold failures. rewrite omap_app. cbn. by destruct (failure_of name ev). Qed.

Lemma fed_failed l names evs gating name now err :
  fed l names evs gating -> fed l names (evs ++ [Failed_ name now err]) (alter (fun h => record h now err) name gating).
Proof.
  intros Hfed n. rewrite failures_snoc. cbn. destruct (decide (name = n)) as [->|Hne].
  - rewrite lookup_alter_eq, (Hfed n), bool_decide_eq_true_2 by done. case_decide; [|done]. cbn.
    unfold record_all. by rewrite foldl_app.
  - rewrite lookup_alter_ne, bool_decide_eq_false_2, app_nil_r by done. apply Hfed.
Qed.
Lemma fed_quiet l names evs gating ev : (forall n, failure_of n ev = None) -> fed l names evs gating -> fed l names (evs ++ [ev]) gating.
Proof. intros Hev Hfed n. by rewrite failures_snoc, Hev, app_nil_r. Qed.

Lemma tick_outage l names pre post gating at_ :
  0 < fatalStreak l -> clock_ok (pre ++ post) -> fed l names pre gating ->
  match watchdog_tick l gating at_ with
  | Some e => we_watch e ∈ names /\ outage l (failures (we_watch e) pre).*1 at_
  | None => forall name, name ∈ names -> ~ outage l (failures name pre).*1 at_
  end.
Proof.
  intros Hl Hc Hfed.
  assert (Hj : forall name, name ∈ names -> is_Some (judge l gating at_ name) <-> outage l (failures name pre).*1 at_).
  { intros name Hn. destruct (clock_ok_failures name _ _ Hc). apply judge_outage; [done| |done|done].
    rewrite (Hfed name). by rewrite decide_True. }
  unfold watchdog_tick. destruct (omap _ _) as [|e es] eqn:E; cbn [head].
  - intros name Hn Hout. apply (Hj name Hn) in Hout as [e He].
    assert (Hin : e ∈ omap (judge l gating at_) (watch_names gating)).
    { apply list_elem_of_omap. exists name. split; [|done]. apply elem_of_watch_names. rewrite (Hfed name), decide_True by done. by eexists. }
    rewrite E in Hin. by apply not_elem_of_nil in Hin.
  - assert (Hin : e ∈ omap (judge l gating at_) (watch_names gating)) by (rewrite E; left).
    apply list_elem_of_omap in Hin as (name & Hin%elem_of_watch_names & He).
    rewrite (judge_names _ _ _ _ _ He). rewrite (Hfed name) in Hin. destruct (decide (name ∈ names)) as [Hn|]; [|by destruct Hin].
    split; [done|]. apply (Hj name Hn). by eexists.
Qed.

(** So far nobody cancelled, and no tick saw a gating cache out. *)
Definition quiet (l : watchLimits) (names : gset string) (evs : list watch_event) : Prop :=
  Cancelled ∉ evs /\
  forall pre at_ post name, evs = pre ++ Tick at_ :: post -> name ∈ names -> ~ outage l (failures name pre).*1 at_.

Lemma quiet_snoc l names evs ev :
  quiet l names evs -> ev <> Cancelled ->
  (forall at_ name, ev = Tick at_ -> name ∈ names -> ~ outage l (failures name evs).*1 at_) -> quiet l names (evs ++ [ev]).
Proof.
  intros [Hc Hq] Hev Hlast. split; [set_solver|]. intros pre at_ post name Heq Hn.
  destruct post as [|x post _] using rev_ind.
  - apply app_inj_tail in Heq as [-> ->]. by apply Hlast.
  - rewrite app_comm_cons, app_assoc in Heq. apply app_inj_tail in Heq as [-> _]. by eapply Hq.
Qed.

(** C31. The watchdog stops the agent when, and only when, a cache it gates on is
    really out.  It returns an error at the first tick at which some gating cache
    has failed without a pause longer than the gap over at least the fatal streak,
    the last failure no longer ago than the gap, and the error names such a cache;
    cancelled before that, it returns none; and while neither has happened it goes
    on.  One failure, or failures that stopped, never stop the agent, and no tick
    and no other cache's failures in between hide a streak. *)
Theorem watchdog_stops_on_an_outage l names evs :
  0 < fatalStreak l -> clock_ok evs ->
  match watchdog l (trackWatches l names) evs with
  | None => quiet l names evs
  | Some None => exists pre post, evs = pre ++ Cancelled :: post /\ quiet l names pre
  | Some (Some e) => exists pre at_ post, evs = pre ++ Tick at_ :: post /\ quiet l names pre /\
      we_watch e ∈ names /\ outage l (failures (we_watch e) pre).*1 at_
  end.
Proof.
  intros Hl. change evs with ([] ++ evs) at 1 3 4 5.
  assert (Hq : quiet l names []) by (split; [set_solver|]; intros [] *; by intros).
  pose proof (fed_start l names) as Hfed. revert Hq Hfed. generalize (trackWatches l names) as gating, (@nil watch_event) as pre.
  induction evs as [|ev evs IH]; intros gating pre Hq Hfed Hc; cbn [watchdog]; [by rewrite app_nil_r|].
  assert (Hc' : clock_ok ((pre ++ [ev]) ++ evs)) by by rewrite <-app_assoc.
  destruct ev as [name now err|at_|].
  - assert (Hq' : quiet l names (pre ++ [Failed_ name now err])) by by apply quiet_snoc.
    specialize (IH _ _ Hq' (fed_failed _ _ _ _ name now err Hfed) Hc'). by rewrite <-!app_assoc in IH.
  - pose proof (tick_outage _ _ _ _ _ at_ Hl Hc Hfed) as Ht. destruct (watchdog_tick l gating at_) as [e|].
    + by exists pre, at_, evs.
    + assert (Hq' : quiet l names (pre ++ [Tick at_])) by (apply quiet_snoc; [done|done|intros ? ? [= ->]; by apply Ht]).
      specialize (IH _ _ Hq' (fed_quiet _ _ _ _ (Tick at_) (fun _ => eq_refl) Hfed) Hc'). by rewrite <-!app_assoc in IH.
  - by exists pre, evs.
Qed.

Definition demo_outage : list watch_event :=
  [Failed_ "nodes" Hour (Some "forbidden"); Tick (Hour + 30 * Second); Failed_ "pods" (Hour + Minute) None;
   Failed_ "nodes" (Hour + 2 * Minute) None; Tick (Hour + 3 * Minute); Failed_ "nodes" (Hour + 4 * Minute) None;
   Failed_ "nodes" (Hour + 5 * Minute) None; Tick (Hour + 5 * Minute + 10 * Second); Cancelled]%string.

(** The node watch is refused for five minutes; the pod watch fails once. *)
Lemma watchdog_stops_on_an_outage_witness :
  watchdog defaultWatchLimits (trackWatches defaultWatchLimits {["nodes"; "pods"]}%string) demo_outage =
    Some (Some (mkWatchError "nodes" (5 * Minute) "forbidden")) /\
  exists pre at_ post, demo_outage = pre ++ Tick at_ :: post /\ quiet defaultWatchLimits {["nodes"; "pods"]}%string pre /\
    "nodes"%string ∈ ({["nodes"; "pods"]}%string : gset string) /\ outage defaultWatchLimits (failures "nodes" pre).*1 at_.
Proof.
  split; [vm_compute; reflexivity|].
  refine (watchdog_stops_on_an_outage defaultWatchLimits {["nodes"; "pods"]}%string demo_outage _ _); [done|].
  split; vm_compute; repeat constructor; discriminate.
Defined.
