(* ===== verification/Nodes.v ===== *)
(** The node watcher, [internal/collector/nodes.go], and the reductions of a node
    object, nodedetail.go.

    A node object is reduced to what the watcher could read of it; what it does
    not read (a condition's message, any other label) is kept here so that a
    theorem can say so.  The informer's promise, that it delivers the events of
    one object in order to one handler at a time, is that the handlers are steps. *)

From stdpp Require Import prelude gmap strings list sorting.
From Stdlib Require Import ZArith Lia Ascii.
From S2P Require Import Prelude GoTime GoStrings Model Cluster PodSpec WatchHealth.
Local Open Scope Z_scope.
Local Open Scope go_scope.

(** ** A node object *)

Record ConditionObj := mkConditionObj {
  co_Type : string; co_Status : string; co_Reason : string; co_Message : string; co_LastTransitionTime : Time;
}.
Record TaintObj := mkTaintObj { to_Key : string; to_Value : string; to_Effect : string }.
Record NodeSystemInfo := mkNodeSystemInfo {
  sy_KernelVersion : string; sy_Architecture : string; sy_KubeletVersion : string; sy_OSImage : string;
  sy_OperatingSystem : string; sy_ContainerRuntimeVersion : string;
}.
Abbreviation ResourceList := (gmap string Quantity).
Record NodeObj := mkNodeObj {
  no_Name : string; no_Labels : gmap string string; no_Annotations : annotations; no_CreationTimestamp : Time;
  no_NodeInfo : NodeSystemInfo; no_Allocatable : ResourceList; no_Capacity : ResourceList;
  no_Conditions : list ConditionObj; no_Taints : list TaintObj;
}.

(** [ResourceList.Cpu] and its like: a zero quantity where there is none. *)
Definition quantity_of (r : ResourceList) (nm : string) : Quantity := default (mkQuantity 0 0) (r !! nm).

(** ** Labels *)

Definition label (labels : gmap string string) (k : string) : string := default ""%string (labels !! k).

Definition topologyLabel (labels : gmap string string) (stable beta : string) : string :=
  if negb (bool_decide (label labels stable = ""%string)) then label labels stable else label labels beta.

Definition LabelTopologyZone : string := "topology.kubernetes.io/zone".
Definition LabelFailureDomainBetaZone : string := "failure-domain.beta.kubernetes.io/zone".
Definition LabelTopologyRegion : string := "topology.kubernetes.io/region".
Definition LabelFailureDomainBetaRegion : string := "failure-domain.beta.kubernetes.io/region".
Definition LabelInstanceTypeStable : string := "node.kubernetes.io/instance-type".
Definition LabelInstanceType : string := "beta.kubernetes.io/instance-type".

Definition instanceType (labels : gmap string string) : string :=
  if negb (bool_decide (label labels LabelInstanceTypeStable = ""%string)) then label labels LabelInstanceTypeStable
  else label labels LabelInstanceType.

(** A [switch] on a label's value: the first case that matches, if any. *)
Definition switch_on (labels : gmap string string) (k : string) (cases : list (string * string)) : option string :=
  snd <$> List.find (fun c => bool_decide (label labels k = c.1)) cases.

Definition capacityType (labels : gmap string string) : string :=
  match switch_on labels "karpenter.sh/capacity-type" [("spot", "spot"); ("on-demand", "on-demand"); ("reserved", "on-demand")]%string with
  | Some t => t
  | None =>
  match switch_on labels "eks.amazonaws.com/capacityType" [("SPOT", "spot"); ("ON_DEMAND", "on-demand")]%string with
  | Some t => t
  | None =>
  if bool_decide (label labels "cloud.google.com/gke-spot" = "true"%string)
     || bool_decide (label labels "cloud.google.com/gke-preemptible" = "true"%string) then "spot"
  else match switch_on labels "kubernetes.azure.com/scalesetpriority" [("spot", "spot"); ("regular", "on-demand")]%string with
       | Some t => t
       | None => ""
       end
  end end.

(** ** The reductions *)

Definition maxNodeTerms : Z := 32.

Definition noNodeDrops : NodeDrops := mkNodeDrops 0 0 0 0.
Definition dropCondition (d : NodeDrops) : NodeDrops := mkNodeDrops (ndrConditions d + 1) (ndrDevices d) (ndrTaints d) (ndrValues d).
Definition dropDevices (n : Z) (d : NodeDrops) : NodeDrops := mkNodeDrops (ndrConditions d) (ndrDevices d + n) (ndrTaints d) (ndrValues d).
Definition dropTaints (n : Z) (d : NodeDrops) : NodeDrops := mkNodeDrops (ndrConditions d) (ndrDevices d) (ndrTaints d + n) (ndrValues d).
Definition dropValue (d : NodeDrops) : NodeDrops := mkNodeDrops (ndrConditions d) (ndrDevices d) (ndrTaints d) (ndrValues d + 1).

Definition nodeConditionTypes : list string :=
  ["Ready"; "MemoryPressure"; "DiskPressure"; "PIDPressure"; "NetworkUnavailable"]%string.
Definition deviceVendors : list string :=
  ["nvidia.com/"; "amd.com/"; "gpu.intel.com/"; "habana.ai/"; "aws.amazon.com/"; "google.com/"; "xilinx.com/"]%string.

(** What each loop appends to and counts in. *)
Definition reduceCondition (out : list NodeCondition * NodeDrops) (c : ConditionObj) : list NodeCondition * NodeDrops :=
  if negb (bool_decide (co_Type c ∈ nodeConditionTypes)) then (out.1, dropCondition out.2)
  else
    let kept := fits (co_Reason c) in
    (out.1 ++ [mkNodeCondition (co_Type c) (co_Status c) (if kept then co_Reason c else ""%string)
                 (if IsZero (co_LastTransitionTime c) then 0 else co_LastTransitionTime c)],
     if negb kept && negb (bool_decide (co_Reason c = ""%string)) then dropValue out.2 else out.2).
Definition reduceConditions (conditions : list ConditionObj) (d : NodeDrops) : list NodeCondition * NodeDrops :=
  let '(out, d) := foldl reduceCondition ([], d) conditions in
  (sort_slice (fun a b => go_lt (ncType a) (ncType b)) out, d).

Definition capNodeTerms {T} (terms : list T) : list T * Z :=
  if Z.of_nat (length terms) <=? maxNodeTerms then (terms, 0)
  else (take (Z.to_nat maxNodeTerms) terms, Z.of_nat (length terms) - maxNodeTerms).

Definition reduceTaint (out : list NodeTaint * NodeDrops) (t : TaintObj) : list NodeTaint * NodeDrops :=
  if negb (fits (to_Key t)) || negb (fits (to_Value t)) then (out.1, dropTaints 1 out.2)
  else (out.1 ++ [mkNodeTaint (to_Key t) (to_Value t) (to_Effect t)], out.2).
Definition taint_less (a b : NodeTaint) : bool := lexi (ntKey a) (ntKey b) (go_lt (ntEffect a) (ntEffect b)).
Definition reduceTaints (taints : list TaintObj) (d : NodeDrops) : list NodeTaint * NodeDrops :=
  let '(out, d) := foldl reduceTaint ([], d) taints in
  let '(out, dropped) := capNodeTerms (sort_slice taint_less out) in (out, dropTaints dropped d).

Definition isExtendedResource (nm : string) : bool :=
  match Cut nm "/"%char with
  | None => false
  | Some (domain, _) => negb (bool_decide (domain = "kubernetes.io"%string)) && negb (HasSuffix domain ".kubernetes.io")
  end.
Definition isCollectedDevice (nm : string) : bool := existsb (HasPrefix nm) deviceVendors.

Definition reduceDevice (allocatable : ResourceList) (out : list NodeDevice * NodeDrops) (r : string * Quantity)
    : list NodeDevice * NodeDrops :=
  if negb (isExtendedResource r.1) then out
  else if negb (isCollectedDevice r.1) then (out.1, dropDevices 1 out.2)
  else (out.1 ++ [mkNodeDevice r.1 (Value r.2) (match allocatable !! r.1 with Some q => Value q | None => 0 end)], out.2).
Definition device_less (a b : NodeDevice) : bool := go_lt (ndName a) (ndName b).
(** The loop over the capacity, in the order the map was ranged over. *)
Definition reduceDevices (capacity : list (string * Quantity)) (allocatable : ResourceList) (d : NodeDrops)
    : list NodeDevice * NodeDrops :=
  let '(out, d) := foldl (reduceDevice allocatable) ([], d) capacity in
  let '(out, dropped) := capNodeTerms (sort_slice device_less out) in (out, dropDevices dropped d).

Definition bound_field (s : string) (d : NodeDrops) : string * NodeDrops := if fits s then (s, d) else (""%string, dropValue d).

Definition describeNode (node : NodeObj) : NodeInfo * NodeDrops :=
  let labels := no_Labels node in
  let system := no_NodeInfo node in
  let alloc := quantity_of (no_Allocatable node) in
  let capacity := quantity_of (no_Capacity node) in
  let '(devices, d) := reduceDevices (map_to_list (no_Capacity node)) (no_Allocatable node) noNodeDrops in
  let '(conditions, d) := reduceConditions (no_Conditions node) d in
  let '(taints, d) := reduceTaints (no_Taints node) d in
  let '(kubelet, d) := bound_field (sy_KubeletVersion system) d in
  let '(image, d) := bound_field (sy_OSImage system) d in
  let '(os, d) := bound_field (sy_OperatingSystem system) d in
  let '(runtime, d) := bound_field (sy_ContainerRuntimeVersion system) d in
  (mkNodeInfo (no_Name node) (instanceType labels) (capacityType labels)
     (topologyLabel labels LabelTopologyZone LabelFailureDomainBetaZone)
     (topologyLabel labels LabelTopologyRegion LabelFailureDomainBetaRegion)
     (sy_KernelVersion system) (sy_Architecture system)
     (if IsZero (no_CreationTimestamp node) then 0 else no_CreationTimestamp node)
     kubelet image os runtime
     (MilliValue (alloc "cpu"%string)) (Value (alloc "memory"%string)) (MilliValue (capacity "cpu"%string)) (Value (capacity "memory"%string))
     (Value (alloc "ephemeral-storage"%string)) (Value (capacity "ephemeral-storage"%string))
     (Value (alloc "pods"%string)) (Value (capacity "pods"%string))
     devices conditions taints, d).

(** ** The watcher *)

Record NodeWatcher := mkNodeWatcher {
  since : Time;
  dropped_ : NodeDrops;
  nodes : gmap string NodeInfo;
  lifecycles : bool;   (** whether [OnNodeLifecycle] registered a function *)
}.
Definition NewNodeWatcher (now : Time) : NodeWatcher := mkNodeWatcher now noNodeDrops ∅ false.
Definition OnNodeLifecycle (w : NodeWatcher) : NodeWatcher := mkNodeWatcher (since w) (dropped_ w) (nodes w) true.
Definition Drops (w : NodeWatcher) : NodeDrops := dropped_ w.
Definition node_less (a b : NodeInfo) : bool := go_lt (niName a) (niName b).
Definition Names (w : NodeWatcher) : list string := sort_slice go_lt (map_to_list (nodes w)).*1.
Definition Nodes (w : NodeWatcher) : list NodeInfo := sort_slice node_less (map_to_list (nodes w)).*2.

(** The calls of the two callbacks. *)
Inductive node_report := OnNode (info : NodeInfo) | OnLifecycle (l : NodeLifecycle).

Definition addDrops (a b : NodeDrops) : NodeDrops :=
  mkNodeDrops (ndrConditions a +w ndrConditions b) (ndrDevices a +w ndrDevices b) (ndrTaints a +w ndrTaints b) (ndrValues a +w ndrValues b).

Definition reportJoin (w : NodeWatcher) (info : NodeInfo) : list node_report :=
  if negb (lifecycles w) || IsZero (niCreatedAt info) || negb (After (niCreatedAt info) (since w)) then []
  else [OnLifecycle (mkNodeLifecycle info true (niCreatedAt info) false)].

Definition upsert (w : NodeWatcher) (node : NodeObj) : NodeWatcher * list node_report :=
  let '(info, drops) := describeNode node in
  let prev := nodes w !! niName info in
  let w := mkNodeWatcher (since w) (addDrops (dropped_ w) drops) (<[niName info := info]> (nodes w)) (lifecycles w) in
  (w, (match prev with None => reportJoin w info | Some _ => [] end) ++
      (match prev with
       | None => [OnNode info]
       | Some prev => if SameAs prev info then [] else [OnNode info]
       end)).

Definition reportDeparture (w : NodeWatcher) (nm : string) (now : Time) : NodeWatcher * list node_report :=
  let info := nodes w !! nm in
  let w := mkNodeWatcher (since w) (dropped_ w) (delete nm (nodes w)) (lifecycles w) in
  (w, match info with
      | None => []
      | Some info => if lifecycles w then [OnLifecycle (mkNodeLifecycle info false now true)] else []
      end).

(** What an informer may hand a handler: a node, the wrapper of a deletion it
    missed around what it last held, or anything else. *)
Inductive delivered := IsNode (node : NodeObj) | DeletedFinalStateUnknown (last_known : option NodeObj) | NotNode.
Inductive node_event := NodeAdded (obj : delivered) | NodeUpdated (obj : delivered) | NodeDeleted (obj : delivered) (now : Time).

Definition node_step (w : NodeWatcher) (ev : node_event) : NodeWatcher * list node_report :=
  match ev with
  | NodeAdded (IsNode node) | NodeUpdated (IsNode node) => upsert w node
  | NodeDeleted (IsNode node) now | NodeDeleted (DeletedFinalStateUnknown (Some node)) now => reportDeparture w (no_Name node) now
  | _ => (w, [])
  end.
Fixpoint node_run (w : NodeWatcher) (evs : list node_event) : NodeWatcher * list node_report :=
  match evs with
  | [] => (w, [])
  | ev :: evs => let '(w, out) := node_step w ev in let '(w, out') := node_run w evs in (w, out ++ out')
  end.

(** What [Run] returns, given how its parts ended: the wait for the cache, the
    registration, and, once it may return, the watchdog's verdict. *)
Definition Run (synced cancelled : bool) (fatal : option watch_error) (registration : option string) : option run_error :=
  if negb synced
  then match takeWatchFailure fatal with
       | Some e => Some e
       | None => if cancelled then None else Some (NotSynced "node")
       end
  else match registration with
       | Some err => registrationFailure cancelled fatal "node" err
       | None => takeWatchFailure fatal
       end.

(** ** The reductions, one by one *)

Lemma foldl_partition {A B D} (step : list B * D -> A -> list B * D) (count : D -> Z) (keeps counts : A -> bool) (P : B -> Prop) :
  (forall out x, exists extra, (step out x).1 = out.1 ++ extra /\ length extra = (if keeps x then 1 else 0)%nat /\ Forall P extra /\
     count (step out x).2 = count out.2 + (if counts x then 1 else 0)) ->
  (forall x, keeps x = true -> counts x = false) ->
  forall l out, Forall P out.1 ->
  let res := foldl step out l in
  Forall P res.1 /\
  Z.of_nat (length res.1) + count res.2 = Z.of_nat (length out.1) + count out.2 + Z.of_nat (length (List.filter (fun x => keeps x || counts x) l)).
Proof.
  intros Hstep Hex l. induction l as [|x l IH]; intros out Hout; cbn; [split; [done|lia]|].
  destruct (Hstep out x) as (extra & E & Hlen & Hp & Hc).
  destruct (IH (step out x)) as [H1 H2]; [rewrite E; by apply Forall_app|]. split; [done|]. rewrite H2, E, Hc, length_app, Hlen.
  pose proof (Hex x). destruct (keeps x); [rewrite (H eq_refl)|destruct (counts x)]; cbn [orb length]; lia.
Qed.

Lemma foldl_untouched {A D E} (step : D -> A -> D) (count : D -> E) l d :
  (forall d x, count (step d x) = count d) -> count (foldl step d l) = count d.
Proof. intros H. revert d. induction l as [|x l IH]; intros d; [done|]. cbn. by rewrite IH. Qed.

Lemma sort_slice_Forall {A} (less : A -> A -> bool) (P : A -> Prop) l : Forall P l -> Forall P (sort_slice less l).
Proof. intros H. unfold sort_slice. by rewrite merge_sort_Permutation. Qed.
Lemma sort_slice_length {A} (less : A -> A -> bool) (l : list A) : length (sort_slice less l) = length l.
Proof. unfold sort_slice. by rewrite merge_sort_Permutation. Qed.

Lemma filter_or_neg {A} (p : A -> bool) l : List.filter (fun x => p x || negb (p x)) l = l.
Proof. induction l as [|x l IH]; [done|]. cbn. by rewrite orb_negb_r, IH. Qed.

Lemma capNodeTerms_spec {T} (P : T -> Prop) (l : list T) :
  Forall P l -> let '(out, dropped) := capNodeTerms l in
  Forall P out /\ Z.of_nat (length out) <= maxNodeTerms /\ Z.of_nat (length out) + dropped = Z.of_nat (length l).
Proof.
  intros H. unfold capNodeTerms. destruct (Z.leb_spec (Z.of_nat (length l)) maxNodeTerms) as [Hle|Hgt]; [split_and!; [done|done|lia]|].
  split; [by apply Forall_take|]. rewrite length_take. unfold maxNodeTerms in *. lia.
Qed.

Definition condition_reduced (c : NodeCondition) : Prop := ncType c ∈ nodeConditionTypes /\ fits (ncReason c) = true.
Definition taint_reduced (t : NodeTaint) : Prop := fits (ntKey t) = true /\ fits (ntValue t) = true.
Definition device_reduced (d : NodeDevice) : Prop := isExtendedResource (ndName d) = true /\ isCollectedDevice (ndName d) = true.

Lemma reduceConditions_reduced cs d :
  let '(out, d') := reduceConditions cs d in
  Forall condition_reduced out /\ Z.of_nat (length out) + ndrConditions d' = Z.of_nat (length cs) + ndrConditions d /\
  (ndrDevices d', ndrTaints d') = (ndrDevices d, ndrTaints d).
Proof.
  unfold reduceConditions. destruct (foldl _ _ cs) as [out d'] eqn:E.
  set (ok := fun c => bool_decide (co_Type c ∈ nodeConditionTypes)).
  destruct (foldl_partition reduceCondition ndrConditions ok (fun c => negb (ok c)) condition_reduced) with (l := cs) (out := (@nil NodeCondition, d)) as [H1 H2].
  - intros o c. unfold reduceCondition, ok. case_bool_decide; cbn [negb].
    + exists [mkNodeCondition (co_Type c) (co_Status c) (if fits (co_Reason c) then co_Reason c else ""%string)
                (if IsZero (co_LastTransitionTime c) then 0 else co_LastTransitionTime c)].
      split_and!; [done|done| |destruct (negb _ && _); cbn; lia].
      apply Forall_singleton. split; [done|]. cbn. by destruct (fits (co_Reason c)) eqn:?.
    + exists []. rewrite app_nil_r. by split_and!.
  - by intros c ->.
  - constructor.
  - rewrite E, filter_or_neg in H2. rewrite E in H1. cbn [fst snd length] in *. rewrite sort_slice_length.
    split; [by apply sort_slice_Forall|]. split; [lia|].
    change d' with (snd (out, d')). rewrite <-E.
    apply (foldl_untouched reduceCondition (fun o => (ndrDevices o.2, ndrTaints o.2)) cs ([], d)).
    intros o c. unfold reduceCondition. destruct (negb _); [done|]. cbn. by destruct (_ && _).
Qed.

Lemma reduceTaints_reduced ts d :
  let '(out, d') := reduceTaints ts d in
  Forall taint_reduced out /\ Z.of_nat (length out) <= maxNodeTerms /\
  Z.of_nat (length out) + ndrTaints d' = Z.of_nat (length ts) + ndrTaints d /\
  (ndrDevices d', ndrConditions d') = (ndrDevices d, ndrConditions d).
Proof.
  unfold reduceTaints. destruct (foldl _ _ ts) as [out d'] eqn:E.
  set (ok := fun t => fits (to_Key t) && fits (to_Value t)).
  destruct (foldl_partition reduceTaint ndrTaints ok (fun t => negb (ok t)) taint_reduced) with (l := ts) (out := (@nil NodeTaint, d)) as [H1 H2].
  - intros o t. unfold reduceTaint, ok. rewrite <-negb_andb. destruct (fits (to_Key t) && fits (to_Value t)) eqn:Hf; cbn [negb].
    + exists [mkNodeTaint (to_Key t) (to_Value t) (to_Effect t)]. apply andb_true_iff in Hf.
      split_and!; [done|done| |cbn; lia]. by apply Forall_singleton.
    + exists []. rewrite app_nil_r. by split_and!.
  - by intros t ->.
  - constructor.
  - rewrite E, filter_or_neg in H2. rewrite E in H1. cbn [fst snd length] in *.
    pose proof (capNodeTerms_spec taint_reduced (sort_slice taint_less out) ltac:(by apply sort_slice_Forall)) as Hcap.
    destruct (capNodeTerms _) as [out' dropped]. rewrite sort_slice_length in Hcap. destruct Hcap as (H3 & H4 & H5).
    cbn [ndrTaints ndrDevices ndrConditions dropTaints]. split_and!; [done|done|lia|].
    change d' with (snd (out, d')). rewrite <-E.
    apply (foldl_untouched reduceTaint (fun o => (ndrDevices o.2, ndrConditions o.2)) ts ([], d)).
    intros o t. unfold reduceTaint. by destruct (_ || _).
Qed.

Lemma reduceDevices_reduced capacity allocatable d :
  let '(out, d') := reduceDevices capacity allocatable d in
  Forall device_reduced out /\ Z.of_nat (length out) <= maxNodeTerms /\
  Z.of_nat (length out) + ndrDevices d' =
    Z.of_nat (length (List.filter (fun r => isExtendedResource r.1) capacity)) + ndrDevices d /\
  (ndrTaints d', ndrConditions d', ndrValues d') = (ndrTaints d, ndrConditions d, ndrValues d).
Proof.
  unfold reduceDevices. destruct (foldl _ _ capacity) as [out d'] eqn:E.
  set (ok := fun r : string * Quantity => isExtendedResource r.1 && isCollectedDevice r.1).
  set (no := fun r : string * Quantity => isExtendedResource r.1 && negb (isCollectedDevice r.1)).
  destruct (foldl_partition (reduceDevice allocatable) ndrDevices ok no device_reduced) with (l := capacity) (out := (@nil NodeDevice, d)) as [H1 H2].
  - intros o r. unfold reduceDevice, ok, no. destruct (isExtendedResource r.1) eqn:He; cbn [negb andb].
    2: { exists []. rewrite app_nil_r. split_and!; [done|done|done|lia]. }
    destruct (isCollectedDevice r.1) eqn:Hc; cbn [negb andb].
    + eexists [_]. split_and!; [reflexivity|done| |cbn; lia]. by apply Forall_singleton.
    + exists []. rewrite app_nil_r. by split_and!.
  - intros r. unfold ok, no. by intros [-> ->]%andb_true_iff.
  - constructor.
  - rewrite E in H1, H2. cbn [fst snd length] in *.
    assert (Hfil : List.filter (fun r => ok r || no r) capacity = List.filter (fun r => isExtendedResource r.1) capacity).
    { apply filter_ext. intros r. unfold ok, no. by destruct (isExtendedResource r.1), (isCollectedDevice r.1). }
    rewrite Hfil in H2.
    pose proof (capNodeTerms_spec device_reduced (sort_slice device_less out) ltac:(by apply sort_slice_Forall)) as Hcap.
    destruct (capNodeTerms _) as [out' dropped]. rewrite sort_slice_length in Hcap. destruct Hcap as (H3 & H4 & H5).
    cbn [ndrTaints ndrDevices ndrConditions ndrValues dropDevices]. split_and!; [done|done|lia|].
    change d' with (snd (out, d')). rewrite <-E.
    apply (foldl_untouched (reduceDevice allocatable) (fun o => (ndrTaints o.2, ndrConditions o.2, ndrValues o.2)) capacity ([], d)).
    intros o r. unfold reduceDevice. destruct (negb _); [done|]. by destruct (negb _).
Qed.

Lemma bound_field_fits s d : let '(t, d') := bound_field s d in
  fits t = true /\ (ndrConditions d', ndrDevices d', ndrTaints d') = (ndrConditions d, ndrDevices d, ndrTaints d).
Proof. unfold bound_field. by destruct (fits s) eqn:?. Qed.

(** A node leaves only as its reduced view, and what the reductions refused is
    counted.  Every condition kept is of one of five types and with a short
    reason, every device of an allow-listed vendor and not a core resource, every
    taint short, at most 32 of each of the last two, the version strings bounded;
    and of each list the kept and the dropped add up to what the node declared. *)
Theorem node_views_are_reduced node :
  let '(info, d) := describeNode node in
  niName info = no_Name node /\
  Forall condition_reduced (niConditions info) /\
  Forall taint_reduced (niTaints info) /\ Z.of_nat (length (niTaints info)) <= maxNodeTerms /\
  Forall device_reduced (niDevices info) /\ Z.of_nat (length (niDevices info)) <= maxNodeTerms /\
  Forall (fun s => fits s = true) [niKubeletVersion info; niOSImage info; niOperatingSystem info; niContainerRuntime info] /\
  niCapacityType info ∈ [""; "spot"; "on-demand"]%string /\
  Z.of_nat (length (niConditions info)) + ndrConditions d = Z.of_nat (length (no_Conditions node)) /\
  Z.of_nat (length (niTaints info)) + ndrTaints d = Z.of_nat (length (no_Taints node)) /\
  Z.of_nat (length (niDevices info)) + ndrDevices d =
    Z.of_nat (length (List.filter (fun r => isExtendedResource r.1) (map_to_list (no_Capacity node)))).
Proof.
  unfold describeNode.
  pose proof (reduceDevices_reduced (map_to_list (no_Capacity node)) (no_Allocatable node) noNodeDrops) as H1.
  destruct (reduceDevices _ _ _) as [devices d1]. destruct H1 as (D1 & D2 & D3 & [= D4 D5 D6]).
  pose proof (reduceConditions_reduced (no_Conditions node) d1) as H2.
  destruct (reduceConditions _ _) as [conditions d2]. destruct H2 as (C1 & C2 & [= C3 C4]).
  pose proof (reduceTaints_reduced (no_Taints node) d2) as H3.
  destruct (reduceTaints _ _) as [taints d3]. destruct H3 as (T1 & T2 & T3 & [= T4 T5]).
  pose proof (bound_field_fits (sy_KubeletVersion (no_NodeInfo node)) d3) as F1. destruct (bound_field _ d3) as [kubelet d4].
  pose proof (bound_field_fits (sy_OSImage (no_NodeInfo node)) d4) as F2. destruct (bound_field _ d4) as [image d5].
  pose proof (bound_field_fits (sy_OperatingSystem (no_NodeInfo node)) d5) as F3. destruct (bound_field _ d5) as [os d6].
  pose proof (bound_field_fits (sy_ContainerRuntimeVersion (no_NodeInfo node)) d6) as F4. destruct (bound_field _ d6) as [runtime d7].
  destruct F1 as (F1 & [= G1 G2 G3]), F2 as (F2 & [= G4 G5 G6]), F3 as (F3 & [= G7 G8 G9]), F4 as (F4 & [= G10 G11 G12]).
  cbn in *. split_and!; try done; try lia; [rewrite !Forall_cons; by split_and!|].
  unfold capacityType, switch_on. cbn [List.find]. repeat (case_bool_decide; cbn; [set_solver|]).
  repeat case_match; set_solver.
Qed.

(** ** What is never read *)

Definition read_labels : list string :=
  [LabelTopologyZone; LabelFailureDomainBetaZone; LabelTopologyRegion; LabelFailureDomainBetaRegion; LabelInstanceTypeStable;
   LabelInstanceType; "karpenter.sh/capacity-type"; "eks.amazonaws.com/capacityType"; "cloud.google.com/gke-spot";
   "cloud.google.com/gke-preemptible"; "kubernetes.azure.com/scalesetpriority"]%string.

(** Conditions that differ in the message only, or of types that are refused. *)
Definition same_condition (c c' : ConditionObj) : Prop :=
  (~ (co_Type c ∈ nodeConditionTypes) /\ ~ (co_Type c' ∈ nodeConditionTypes)) \/
  (co_Type c = co_Type c' /\ co_Status c = co_Status c' /\ co_Reason c = co_Reason c' /\
   co_LastTransitionTime c = co_LastTransitionTime c').

Definition same_to_view (node node' : NodeObj) : Prop :=
  no_Name node = no_Name node' /\ no_CreationTimestamp node = no_CreationTimestamp node' /\ no_NodeInfo node = no_NodeInfo node' /\
  no_Allocatable node = no_Allocatable node' /\ no_Capacity node = no_Capacity node' /\ no_Taints node = no_Taints node' /\
  Forall (fun k => label (no_Labels node) k = label (no_Labels node') k) read_labels /\
  Forall2 same_condition (no_Conditions node) (no_Conditions node').

(** No annotation, no other label, no message and nothing of a condition of
    another type shows in the view or in the counts. *)
Lemma describeNode_reads_only node node' : same_to_view node node' -> describeNode node = describeNode node'.
Proof.
  intros (Hn & Hc & Hs & Ha & Hcap & Ht & Hl & Hco). unfold describeNode. rewrite Hn, Hc, Hs, Ha, Hcap, Ht.
  unfold read_labels in Hl. rewrite !Forall_cons in Hl. destruct Hl as (L1 & L2 & L3 & L4 & L5 & L6 & L7 & L8 & L9 & L10 & L11 & _).
  assert (forall d, reduceConditions (no_Conditions node) d = reduceConditions (no_Conditions node') d) as Hred.
  { intros d. unfold reduceConditions. generalize (@nil NodeCondition, d) as o. clear -Hco.
    induction Hco as [|c c' cs cs' Hcc Hcs IH]; intros o; [done|]. cbn [foldl].
    assert (reduceCondition o c = reduceCondition o c') as ->; [|apply IH].
    unfold reduceCondition. destruct Hcc as [[H H']|(-> & -> & -> & ->)]; [|done].
    by rewrite (bool_decide_eq_false_2 _ H), (bool_decide_eq_false_2 _ H'). }
  destruct (reduceDevices _ _ _) as [devices d1]. rewrite Hred.
  unfold instanceType, capacityType, topologyLabel, switch_on. cbn [List.find].
  by rewrite L1, L2, L3, L4, L5, L6, L7, L8, L9, L10, L11.
Qed.

(** The bound the other version strings are held to does not hold for the kernel's. *)
Lemma kernel_version_is_not_bounded (s : string) :
  let system := mkNodeSystemInfo s "amd64" "v1.33" "linux" "linux" "containerd" in
  let node := mkNodeObj "n1" ∅ ∅ 0 system ∅ ∅ [] [] in
  niKernelVersion (describeNode node).1 = s /\ (describeNode node).2 = noNodeDrops.
Proof. done. Qed.

(** ** The watcher *)

(** What a consumer of the two callbacks holds after a report; [None] for a
    report that may not come: a view that is no news, the arrival of a node that
    is there or was there before the watcher, or the departure of one that is
    not there as reported. *)
Definition consume (since : Time) (held : gmap string NodeInfo) (r : node_report) : option (gmap string NodeInfo) :=
  match r with
  | OnNode info => if bool_decide (held !! niName info = Some info) then None else Some (<[niName info := info]> held)
  | OnLifecycle (mkNodeLifecycle info true at_ observed) =>
      if bool_decide (held !! niName info = None) && bool_decide (at_ = niCreatedAt info) && (since <? at_) && negb observed
      then Some held else None
  | OnLifecycle (mkNodeLifecycle info false _ observed) =>
      if bool_decide (held !! niName info = Some info) && observed then Some (delete (niName info) held) else None
  end.
Fixpoint consume_all (since : Time) (held : gmap string NodeInfo) (rs : list node_report) : option (gmap string NodeInfo) :=
  match rs with [] => Some held | r :: rs => held ← consume since held r; consume_all since held rs end.

(** The view of the object of a name last delivered, if it was not deleted since. *)
Definition latest_step (nm : string) (v : option NodeInfo) (ev : node_event) : option NodeInfo :=
  match ev with
  | NodeAdded (IsNode node) | NodeUpdated (IsNode node) =>
      if bool_decide (no_Name node = nm) then Some (describeNode node).1 else v
  | NodeDeleted (IsNode node) _ | NodeDeleted (DeletedFinalStateUnknown (Some node)) _ =>
      if bool_decide (no_Name node = nm) then None else v
  | _ => v
  end.
Definition latest (nm : string) (evs : list node_event) : option NodeInfo := foldl (latest_step nm) None evs.

Lemma consume_all_app since held rs rs' :
  consume_all since held (rs ++ rs') = (held ← consume_all since held rs; consume_all since held rs').
Proof. revert held. induction rs as [|r rs IH]; intros held; [done|]. cbn [app consume_all]. by destruct (consume since held r); cbn. Qed.

Lemma describeNode_name node : niName (describeNode node).1 = no_Name node.
Proof.
  unfold describeNode.
  repeat match goal with |- context [let '(_, _) := ?p in _] => destruct p end. done.
Qed.

Lemma node_step_lifecycles w ev : lifecycles (node_step w ev).1 = lifecycles w /\ since (node_step w ev).1 = since w.
Proof.
  destruct ev as [[node|[node|]|]|[node|[node|]|]|[node|[node|]|] now]; cbn; try done; unfold upsert; by destruct (describeNode node).
Qed.

Lemma upsert_consumed w node :
  lifecycles w = true -> consume_all (since w) (nodes w) (upsert w node).2 = Some (nodes (upsert w node).1) /\
  nodes (upsert w node).1 = <[no_Name node := (describeNode node).1]> (nodes w).
Proof.
  intros Hl. unfold upsert. pose proof (describeNode_name node) as Hn. destruct (describeNode node) as [info drops]. cbn in Hn |- *.
  rewrite Hn. split; [|done]. destruct (nodes w !! no_Name node) as [prev|] eqn:Hp.
  - cbn. unfold SameAs. case_bool_decide as Hs; cbn.
    + subst prev. by rewrite insert_id.
    + rewrite Hn, Hp, bool_decide_eq_false_2; [done|]. by intros [= ->].
  - unfold reportJoin. cbn [lifecycles since]. rewrite Hl. cbn [negb orb].
    assert (Hnews : consume (since w) (nodes w) (OnNode info) = Some (<[no_Name node := info]> (nodes w))).
    { cbn. by rewrite Hn, Hp. }
    destruct (IsZero (niCreatedAt info) || negb (After (niCreatedAt info) (since w))) eqn:Hj; cbn [app consume_all].
    + by rewrite Hnews.
    + apply orb_false_iff in Hj as [_ Hj%negb_false_iff]. unfold After in Hj. cbn [consume].
      rewrite Hn, Hp, Hj, !bool_decide_eq_true_2 by done. cbn [andb negb mbind option_bind]. by rewrite Hp.
Qed.

Lemma departure_consumed w nm now :
  lifecycles w = true -> (forall k info, nodes w !! k = Some info -> niName info = k) ->
  consume_all (since w) (nodes w) (reportDeparture w nm now).2 = Some (nodes (reportDeparture w nm now).1).
Proof.
  intros Hl Hk. unfold reportDeparture. cbn [fst snd nodes]. destruct (nodes w !! nm) as [info|] eqn:Hi; cbn.
  - rewrite Hl. cbn. rewrite (Hk _ _ Hi), Hi. by rewrite bool_decide_eq_true_2.
  - by rewrite delete_id.
Qed.

(** A step's reports take a consumer from one map to the next. *)
Lemma node_step_consumed w ev :
  lifecycles w = true -> (forall k info, nodes w !! k = Some info -> niName info = k) ->
  consume_all (since w) (nodes w) (node_step w ev).2 = Some (nodes (node_step w ev).1) /\
  (forall k info, nodes (node_step w ev).1 !! k = Some info -> niName info = k) /\
  (forall nm, nodes (node_step w ev).1 !! nm = latest_step nm (nodes w !! nm) ev).
Proof.
  intros Hl Hk.
  assert (Hup : forall node, consume_all (since w) (nodes w) (upsert w node).2 = Some (nodes (upsert w node).1) /\
    (forall k info, nodes (upsert w node).1 !! k = Some info -> niName info = k) /\
    (forall nm, nodes (upsert w node).1 !! nm = if bool_decide (no_Name node = nm) then Some (describeNode node).1 else nodes w !! nm)).
  { intros node. destruct (upsert_consumed w node Hl) as [H1 H2]. split; [done|]. rewrite H2. split.
    - intros k info. rewrite lookup_insert_Some. intros [[<- <-]|[_ Hki]]; [apply describeNode_name|by apply Hk].
    - intros nm. case_bool_decide as Hnm; [subst; by rewrite lookup_insert_eq|by rewrite lookup_insert_ne]. }
  assert (Hdel : forall node now, consume_all (since w) (nodes w) (reportDeparture w (no_Name node) now).2 =
      Some (nodes (reportDeparture w (no_Name node) now).1) /\
    (forall k info, nodes (reportDeparture w (no_Name node) now).1 !! k = Some info -> niName info = k) /\
    (forall nm, nodes (reportDeparture w (no_Name node) now).1 !! nm = if bool_decide (no_Name node = nm) then None else nodes w !! nm)).
  { intros node now. split; [by apply departure_consumed|]. cbn [reportDeparture fst nodes]. split.
    - intros k info [_ Hki]%lookup_delete_Some. by apply Hk.
    - intros nm. case_bool_decide as Hnm; [subst; by rewrite lookup_delete_eq|by rewrite lookup_delete_ne]. }
  destruct ev as [[node|[node|]|]|[node|[node|]|]|[node|[node|]|] now]; cbn [node_step latest_step]; auto.
Qed.

(** What the callbacks owe for an event, given those before it: of a node
    delivered, its arrival if it was not there and was created after the watcher
    started, and its view if that is not the one held; of a node deleted, its
    departure with the view held, if it was there. *)
Definition arrival (started : Time) (v : option NodeInfo) (info : NodeInfo) : list node_report :=
  if bool_decide (v = None /\ niCreatedAt info <> 0 /\ started < niCreatedAt info)
  then [OnLifecycle (mkNodeLifecycle info true (niCreatedAt info) false)] else [].
Definition news (v : option NodeInfo) (info : NodeInfo) : list node_report :=
  if bool_decide (v = Some info) then [] else [OnNode info].
Definition departure (v : option NodeInfo) (at_ : Time) : list node_report :=
  match v with Some info => [OnLifecycle (mkNodeLifecycle info false at_ true)] | None => [] end.
Definition owed (started : Time) (before : list node_event) (ev : node_event) : list node_report :=
  match ev with
  | NodeAdded (IsNode node) | NodeUpdated (IsNode node) =>
      let v := latest (no_Name node) before in let info := (describeNode node).1 in arrival started v info ++ news v info
  | NodeDeleted (IsNode node) at_ | NodeDeleted (DeletedFinalStateUnknown (Some node)) at_ =>
      departure (latest (no_Name node) before) at_
  | _ => []
  end.
Fixpoint owed_all (started : Time) (before evs : list node_event) : list node_report :=
  match evs with [] => [] | ev :: evs => owed started before ev ++ owed_all started (before ++ [ev]) evs end.

Lemma node_step_owed started w before ev :
  lifecycles w = true -> since w = started -> (forall nm, nodes w !! nm = latest nm before) ->
  (node_step w ev).2 = owed started before ev.
Proof.
  intros Hl Hs Hn.
  assert (Hup : forall node, (upsert w node).2 = arrival started (latest (no_Name node) before) (describeNode node).1 ++
                                                 news (latest (no_Name node) before) (describeNode node).1).
  { intros node. unfold upsert. pose proof (describeNode_name node) as Hd. destruct (describeNode node) as [info drops].
    cbn in Hd |- *. rewrite Hd, Hn. unfold arrival, news. destruct (latest (no_Name node) before) as [prev|].
    - rewrite (bool_decide_eq_false_2 (Some prev = None /\ _)) by by intros []. cbn. unfold SameAs.
      case_bool_decide as Hp; [by subst; rewrite bool_decide_eq_true_2|by rewrite bool_decide_eq_false_2 by congruence].
    - rewrite (bool_decide_eq_false_2 (None = Some info)) by done. f_equal. unfold reportJoin. cbn. rewrite Hl, Hs. cbn [negb orb].
      unfold IsZero, After. case_bool_decide as Hj; destruct (Z.eqb_spec (niCreatedAt info) 0),
        (Z.ltb_spec started (niCreatedAt info)); cbn; try done; exfalso; intuition lia. }
  assert (Hdel : forall nm at_, (reportDeparture w nm at_).2 = departure (latest nm before) at_).
  { intros nm at_. unfold reportDeparture. cbn. rewrite Hn, Hl. by destruct (latest nm before). }
  destruct ev as [[node|[node|]|]|[node|[node|]|]|[node|[node|]|] at_]; cbn [node_step owed snd]; auto.
Qed.

Lemma latest_delivered_snoc nm before ev : latest nm (before ++ [ev]) = latest_step nm (latest nm before) ev.
Proof. unfold latest. by rewrite foldl_app. Qed.

(** C32. The node watcher holds what the informer last said, and its callbacks say
    exactly that.  Whatever events arrive, the view kept of a name is that of the
    node last delivered under it unless it was deleted since.  The calls of the
    callbacks are exactly the ones owed: an arrival for each delivery of a node
    that was not there and was created after the watcher started, a view for each
    delivery that changed it, a departure with the view held for each deletion of
    a node that was there, in the order of the events and nothing else.  So a
    consumer that starts with nothing and follows them ends with the same map,
    every report being news to it. *)
Theorem nodes_follow_the_informer now evs :
  let '(w, reports) := node_run (OnNodeLifecycle (NewNodeWatcher now)) evs in
  (forall nm, nodes w !! nm = latest nm evs) /\ reports = owed_all now [] evs /\ consume_all now ∅ reports = Some (nodes w).
Proof.
  cut (forall w before evs, lifecycles w = true -> since w = now -> (forall k info, nodes w !! k = Some info -> niName info = k) ->
    (forall nm, nodes w !! nm = latest nm before) ->
    let '(w', reports) := node_run w evs in
    (forall nm, nodes w' !! nm = latest nm (before ++ evs)) /\ reports = owed_all now before evs /\
    consume_all now (nodes w) reports = Some (nodes w')).
  { intros H. by apply (H (OnNodeLifecycle (NewNodeWatcher now)) [] evs). }
  clear evs. intros w before evs. revert w before.
  induction evs as [|ev evs IH]; intros w before Hl Hs Hk Hb; [by rewrite app_nil_r|]. cbn [node_run owed_all].
  rewrite <-(node_step_owed now w before ev Hl Hs Hb).
  destruct (node_step_consumed w ev Hl Hk) as (H1 & H2 & H3). destruct (node_step_lifecycles w ev) as [H4 H5].
  destruct (node_step w ev) as [w1 out]. cbn [fst snd] in *. rewrite Hl in H4. rewrite Hs in H1, H5.
  specialize (IH w1 (before ++ [ev]) H4 H5 H2 ltac:(intros nm; by rewrite latest_delivered_snoc, H3, Hb)).
  destruct (node_run w1 evs) as [w2 out']. rewrite <-app_assoc in IH. destruct IH as (IH1 & -> & IH3).
  split; [done|]. split; [done|]. by rewrite consume_all_app, H1.
Qed.

(** A node that was there when the watcher started does not arrive; one created
    later does, once, and each that leaves is reported once. *)
Example arrivals_and_departures :
  let node nm created := mkNodeObj nm ∅ ∅ created (mkNodeSystemInfo "6.1" "amd64" "v1.33" "linux" "linux" "containerd") ∅ ∅ [] [] in
  let '(_, reports) := node_run (OnNodeLifecycle (NewNodeWatcher 100))
    [NodeAdded (IsNode (node "n1"%string 50)); NodeAdded (IsNode (node "n2"%string 150)); NodeUpdated (IsNode (node "n2"%string 150));
     NodeDeleted (IsNode (node "n1"%string 50)) 200; NodeDeleted (IsNode (node "n1"%string 50)) 300] in
  (fun r => match r with OnNode info => (niName info, "view", 0) | OnLifecycle (mkNodeLifecycle info true at_ _) => (niName info, "joined", at_)
            | OnLifecycle (mkNodeLifecycle info false at_ _) => (niName info, "left", at_) end) <$> reports =
  [("n1", "view", 0); ("n2", "joined", 150); ("n2", "view", 0); ("n1", "left", 200)]%string.
Proof. vm_compute. reflexivity. Qed.

(** The listings: each node once, in the order of the names. *)
Lemma Names_sorted w :
  StronglySorted (fun a b => go_lt a b = true) (Names w) /\ (forall nm, nm ∈ Names w <-> is_Some (nodes w !! nm)).
Proof.
  split.
  - apply (sort_slice_strict go_lt (fun s => s)); [done|]. rewrite list_fmap_id. apply NoDup_fst_map_to_list.
  - intros nm. unfold Names, sort_slice. rewrite merge_sort_Permutation, list_elem_of_fmap. split.
    + intros ([k v] & -> & Hin%elem_of_map_to_list). by eexists.
    + intros [v Hv]. exists (nm, v). split; [done|]. by apply elem_of_map_to_list.
Qed.
