(* ===== verification/Usage.v ===== *)
(** The usage poller of [internal/collector/usage.go] and the throttling half of
    [cadvisor.go]: cumulative kubelet counters turned into deltas, fed to the
    usage and network accumulators, and the open windows it seeds, sweeps and
    flushes.

    The kubelet's answer is the structs of [k8s.io/kubelet] reduced to the
    fields the poller reads, a pointer field as an [option].  Pod attribution is
    the [PodResolver] interface, a parameter here.  Fetching is concurrent and
    pure I/O; a poll starts from what each node returned.  A Go map that is
    ranged over comes as the list of its entries in the order the range took. *)

From stdpp Require Import prelude gmap strings sorting.
From Stdlib Require Import ZArith Lia.
From S2P Require Import Prelude GoTime GoStrings Histogram Windowing UsageRecord Model.
From S2P Require Accumulator Network.
Local Open Scope Z_scope.
Local Open Scope go_scope.

Definition usagePollInterval : Duration := 30 * Second.
Definition UsageSnapshotInterval : Duration := Minute.
Definition UsageWindowLength : Duration := Hour.
Definition staleTrackerAfter : Duration := 5 * Minute.

(** ** What a kubelet returns *)

(** [PSIStats], of which only [Some.Total] is read. *)
Abbreviation PSIStats := (option Z).

Record CPUStats := mkCPUStats { cpu_at : Time; UsageCoreNanoSeconds : option Z; cpu_psi : PSIStats }.
Record MemoryStats := mkMemoryStats { mem_at : Time; WorkingSetBytes : option Z; mem_psi : PSIStats }.

Record ContainerStats := mkContainerStats {
  cs_name : string;
  StartTime : Time;
  cs_cpu : option CPUStats;
  cs_memory : option MemoryStats;
}.

Record InterfaceStats := mkInterfaceStats {
  iRxBytes : option Z; iTxBytes : option Z; iRxErrors : option Z; iTxErrors : option Z;
}.

Record NetworkStats := mkNetworkStats {
  net_time : Time;
  net_default : InterfaceStats;
  net_interfaces : list InterfaceStats;
}.

Record PodStats := mkPodStats {
  ps_uid : string;
  ps_containers : list ContainerStats;
  ps_network : option NetworkStats;
}.

(** ** State *)

Abbreviation trackerKey := (string * string)%type.

Record counterState := mkCounterState {
  cpuTime : Time; cpuCounter : Z; cpuPSI : Z;
  memTime : Time; memPSI : Z;
  lastSeen : Time;
}.

Record throttleState := mkThrottleState {
  ts : Time; throttled_ : Z; periods_ : Z; t_lastSeen : Time;
}.

Record netCounterState := mkNetCounterState {
  n_at : Time; rxBytes : Z; txBytes : Z; rxErrors : Z; txErrors : Z; n_lastSeen : Time;
}.

(** [pathCounts] *)
Record pathCounts := mkPathCounts { attempted : Z; failed : Z }.

Inductive KubeletPath := PathStatsSummary | PathMetricsCadvisor.
#[export] Instance KubeletPath_eq_dec : EqDecision KubeletPath.
Proof. solve_decision. Defined.

Definition KubeletPaths : list KubeletPath := [PathStatsSummary; PathMetricsCadvisor].

Record UsagePoller := mkUsagePoller {
  acc : Accumulator.Accumulator;
  netAcc : Network.NetworkAccumulator;
  tracker : gmap trackerKey counterState;
  throttle : gmap trackerKey throttleState;
  netTracker : gmap string netCounterState;
  resumedKeys : gset Key;
  resumedUntil : Time;
  signals : gset string;
  polls : KubeletPath -> pathCounts;
}.

Definition NewUsagePoller : UsagePoller :=
  mkUsagePoller (Accumulator.mkAccumulator (mkWindowing UsageWindowLength) ∅)
    (Network.mkNetworkAccumulator (mkWindowing UsageWindowLength) ∅)
    ∅ ∅ ∅ ∅ 0 ∅ (fun _ => mkPathCounts 0 0).

Definition setAcc (a : Accumulator.Accumulator) (p : UsagePoller) : UsagePoller :=
  mkUsagePoller a (netAcc p) (tracker p) (throttle p) (netTracker p) (resumedKeys p) (resumedUntil p)
    (signals p) (polls p).
Definition setNetAcc (a : Network.NetworkAccumulator) (p : UsagePoller) : UsagePoller :=
  mkUsagePoller (acc p) a (tracker p) (throttle p) (netTracker p) (resumedKeys p) (resumedUntil p)
    (signals p) (polls p).
Definition setTracker (t : gmap trackerKey counterState) (p : UsagePoller) : UsagePoller :=
  mkUsagePoller (acc p) (netAcc p) t (throttle p) (netTracker p) (resumedKeys p) (resumedUntil p)
    (signals p) (polls p).
Definition setThrottle (t : gmap trackerKey throttleState) (p : UsagePoller) : UsagePoller :=
  mkUsagePoller (acc p) (netAcc p) (tracker p) t (netTracker p) (resumedKeys p) (resumedUntil p)
    (signals p) (polls p).
Definition setNetTracker (t : gmap string netCounterState) (p : UsagePoller) : UsagePoller :=
  mkUsagePoller (acc p) (netAcc p) (tracker p) (throttle p) t (resumedKeys p) (resumedUntil p)
    (signals p) (polls p).
Definition setResumed (ks : gset Key) (until : Time) (p : UsagePoller) : UsagePoller :=
  mkUsagePoller (acc p) (netAcc p) (tracker p) (throttle p) (netTracker p) ks until (signals p) (polls p).
Definition markSignal (nm : string) (p : UsagePoller) : UsagePoller :=
  mkUsagePoller (acc p) (netAcc p) (tracker p) (throttle p) (netTracker p) (resumedKeys p) (resumedUntil p)
    ({[nm]} ∪ signals p) (polls p).

Definition countPoll (path : KubeletPath) (fail : bool) (p : UsagePoller) : UsagePoller :=
  let c := polls p path in
  let c := mkPathCounts (attempted c +w 1) (if fail then failed c +w 1 else failed c) in
  mkUsagePoller (acc p) (netAcc p) (tracker p) (throttle p) (netTracker p) (resumedKeys p) (resumedUntil p)
    (signals p) (fun q => if decide (q = path) then c else polls p q).

Definition clampToInt64 (v : Z) : Z := if maxInt64 <? v then maxInt64 else v.

(** ** Seeding *)

Definition seed_one (out : UsagePoller * list Accumulator.seed_error) (r : Record_)
    : UsagePoller * list Accumulator.seed_error :=
  let '(p, errs) := out in
  match Accumulator.Seed (acc p) r with
  | (a, Some e) => (setAcc a p, errs ++ [e])
  | (a, None) =>
      let end_ := Add (WindowStart r) (wrap64 (WindowSeconds r * Second)) in
      (setResumed ({[RKey r]} ∪ resumedKeys p)
         (if After end_ (resumedUntil p) then end_ else resumedUntil p) (setAcc a p), errs)
  end.

Definition Seed (p : UsagePoller) (records : list Record_) : UsagePoller * list Accumulator.seed_error :=
  foldl seed_one (p, []) records.

Definition attributableFromStart (p : UsagePoller) (k : Key) : bool := negb (bool_decide (k ∈ resumedKeys p)).

(** ** Containers *)

Definition observeCPU (key : Key) (from to : Time) (coreNanos : Z) (p : UsagePoller) : UsagePoller :=
  if negb (After to from) then p
  else setAcc (Accumulator.ObserveCPUDelta (acc p) key from to (clampToInt64 coreNanos)) p.

Definition observeCPUPSI (psi : PSIStats) (key : Key) (from to : Time) (stallNanos : Z) (p : UsagePoller)
    : UsagePoller :=
  if bool_decide (psi = None) || negb (After to from) then p
  else setAcc (Accumulator.ObserveCPUPSI (acc p) key from to (clampToInt64 stallNanos)) p.

Definition setCPUBase (at_ : Time) (counter psi : Z) (st : counterState) : counterState :=
  mkCounterState at_ counter psi (memTime st) (memPSI st) (lastSeen st).
Definition setMemBase (at_ : Time) (psi : Z) (st : counterState) : counterState :=
  mkCounterState (cpuTime st) (cpuCounter st) (cpuPSI st) at_ psi (lastSeen st).
Definition setSeen (now : Time) (st : counterState) : counterState :=
  mkCounterState (cpuTime st) (cpuCounter st) (cpuPSI st) (memTime st) (memPSI st) now.

Definition noCounters : counterState := mkCounterState 0 0 0 0 0 0.

Definition mark_psi (psi : PSIStats) (p : UsagePoller) : UsagePoller :=
  match psi with Some _ => markSignal "psi" p | None => p end.

(** The CPU half of [ingestContainer], on the container's baseline. *)
Definition ingest_cpu (key : Key) (start : Time) (c : CPUStats) (p : UsagePoller) (st : counterState)
    : UsagePoller * counterState :=
  match UsageCoreNanoSeconds c with
  | None => (p, st)
  | Some counter =>
      let p := markSignal "cpu" p in
      let at_ := cpu_at c in
      let p := mark_psi (cpu_psi c) p in
      let psi := default 0 (cpu_psi c) in
      if IsZero (cpuTime st) then
        (if attributableFromStart p key then
           observeCPUPSI (cpu_psi c) key start at_ psi (observeCPU key start at_ counter p)
         else p, setCPUBase at_ counter psi st)
      else if negb (After at_ (cpuTime st)) then (p, st)
      else if (counter <? cpuCounter st) || (psi <? cpuPSI st) then (p, setCPUBase at_ counter psi st)
      else
        (observeCPUPSI (cpu_psi c) key (cpuTime st) at_ (wrapU64 (psi - cpuPSI st))
           (observeCPU key (cpuTime st) at_ (wrapU64 (counter - cpuCounter st)) p),
         setCPUBase at_ counter psi st)
  end.

(** The memory half. *)
Definition ingest_memory (key : Key) (start : Time) (m : MemoryStats) (p : UsagePoller) (st : counterState)
    : UsagePoller * counterState :=
  match WorkingSetBytes m with
  | None => (p, st)
  | Some bytes =>
      let p := markSignal "memory" p in
      let p := mark_psi (mem_psi m) p in
      let psi := default 0 (mem_psi m) in
      let at_ := mem_at m in
      if After at_ (memTime st) then
        let p := setAcc (Accumulator.ObserveMemory (acc p) key at_ (clampToInt64 bytes)) p in
        let first := IsZero (memTime st) in
        let p :=
          if bool_decide (is_Some (mem_psi m)) && (memPSI st <=? psi)
             && (negb first || attributableFromStart p key)
          then
            let from := if first then start else memTime st in
            let delta := if first then psi else wrapU64 (psi - memPSI st) in
            if After at_ from
            then setAcc (Accumulator.ObserveMemoryPSI (acc p) key from at_ (clampToInt64 delta)) p
            else p
          else p in
        (p, setMemBase at_ psi st)
      else (p, st)
  end.

Definition ingestContainer (tk : trackerKey) (key : Key) (c : ContainerStats) (now : Time) (p : UsagePoller)
    : UsagePoller :=
  let st := setSeen now (default noCounters (tracker p !! tk)) in
  let '(p, st) := match cs_cpu c with Some cpu => ingest_cpu key (StartTime c) cpu p st | None => (p, st) end in
  let '(p, st) := match cs_memory c with Some m => ingest_memory key (StartTime c) m p st | None => (p, st) end in
  setTracker (<[tk := st]> (tracker p)) p.

(** ** Pod network *)

Definition interfacesOf (net : NetworkStats) : list InterfaceStats :=
  match net_interfaces net with [] => [net_default net] | l => l end.

Definition counted (i : InterfaceStats) : bool :=
  negb (bool_decide (iRxBytes i = None) && bool_decide (iTxBytes i = None)).

(** A [uint64] accumulator over the interfaces that carry counters. *)
Definition total (f : InterfaceStats -> option Z) (ifaces : list InterfaceStats) : Z :=
  foldl (fun n i => if counted i then wrapU64 (n + default 0 (f i)) else n) 0 ifaces.

Section resolver.
Context (LookupPod : string -> option (string * WorkloadRef)) (HostNetwork : string -> bool).
Context (LookupPodByName : string -> string -> option (string * WorkloadRef)).

Definition ingestNetwork (uid : string) (key : Network.NetworkKey) (net : option NetworkStats) (now : Time)
  (p : UsagePoller) : UsagePoller :=
match net with
| None => p
| Some net =>
    let p := markSignal "network" p in
    let ifaces := interfacesOf net in
    let rx := total iRxBytes ifaces in
    let tx := total iTxBytes ifaces in
    let rxErr := total iRxErrors ifaces in
    let txErr := total iTxErrors ifaces in
    let interfaces := Z.of_nat (length (filter (fun i => counted i = true) ifaces)) in
    if interfaces =? 0 then p
    else
      let at_ := net_time net in
      let st := default (mkNetCounterState 0 0 0 0 0 0) (netTracker p !! uid) in
      let base := mkNetCounterState at_ rx tx rxErr txErr now in
      let keep p st := setNetTracker (<[uid := st]> (netTracker p)) p in
      if IsZero (n_at st) then keep p base
      else if negb (After at_ (n_at st)) then
        keep p (mkNetCounterState (n_at st) (rxBytes st) (txBytes st) (rxErrors st) (txErrors st) now)
      else if (rx <? rxBytes st) || (tx <? txBytes st) || (rxErr <? rxErrors st) || (txErr <? txErrors st)
      then keep p base
      else
        keep (setNetAcc (Network.Observe (netAcc p) key (n_at st) at_
                (Network.mkNetworkDelta (clampToInt64 (wrapU64 (rx - rxBytes st)))
                   (clampToInt64 (wrapU64 (tx - txBytes st)))
                   (clampToInt64 (wrapU64 (rxErr - rxErrors st)))
                   (clampToInt64 (wrapU64 (txErr - txErrors st))) interfaces) (HostNetwork uid)) p) base
end.

Definition ingest_pod (now : Time) (p : UsagePoller) (pod : PodStats) : UsagePoller :=
match LookupPod (ps_uid pod) with
| None => p
| Some (namespace, workload) =>
    let p := foldl (fun p c =>
               ingestContainer (ps_uid pod, cs_name c)
                 (mkKey namespace (Kind workload) (Name workload) (cs_name c)) c now p)
             p (ps_containers pod) in
    ingestNetwork (ps_uid pod) (Network.mkNetworkKey namespace (Kind workload) (Name workload))
      (ps_network pod) now p
end.

Definition ingest (summary : list PodStats) (now : Time) (p : UsagePoller) : UsagePoller :=
foldl (ingest_pod now) p summary.

(** ** Throttling *)

Record cadvisorKey := mkCadvisorKey { ck_namespace : string; ck_pod : string; ck_container : string }.

Record cadvisorSample := mkCadvisorSample {
throttled : Z; periods : Z; hasThrottled : bool; hasPeriods : bool; sample_ts : Time; sample_start : Time;
}.

Definition setThrottleBase (at_ : Time) (s : cadvisorSample) (st : throttleState) : throttleState :=
mkThrottleState at_ (throttled s) (periods s) (t_lastSeen st).

Definition ingest_sample (now : Time) (p : UsagePoller) (ks : cadvisorKey * cadvisorSample) : UsagePoller :=
let '(key, sample) := ks in
if negb (hasThrottled sample) || negb (hasPeriods sample) then p
else match LookupPodByName (ck_namespace key) (ck_pod key) with
| None => p
| Some (uid, workload) =>
    let p := markSignal "throttling" p in
    let at_ := if IsZero (sample_ts sample) then now else sample_ts sample in
    let rk := mkKey (ck_namespace key) (Kind workload) (Name workload) (ck_container key) in
    let tk := (uid, ck_container key) in
    let st := default (mkThrottleState 0 0 0 0) (throttle p !! tk) in
    let st := mkThrottleState (ts st) (throttled_ st) (periods_ st) now in
    let keep p st := setThrottle (<[tk := st]> (throttle p)) p in
    if IsZero (ts st) then
      keep (if negb (IsZero (sample_start sample)) && After at_ (sample_start sample)
               && attributableFromStart p rk
            then setAcc (Accumulator.ObserveThrottling (acc p) rk (sample_start sample) at_
                   (clampToInt64 (throttled sample)) (clampToInt64 (periods sample))) p
            else p) (setThrottleBase at_ sample st)
    else if negb (After at_ (ts st)) then keep p st
    else if (throttled sample <? throttled_ st) || (periods sample <? periods_ st)
    then keep p (setThrottleBase at_ sample st)
    else
      keep (setAcc (Accumulator.ObserveThrottling (acc p) rk (ts st) at_
              (clampToInt64 (wrapU64 (throttled sample - throttled_ st)))
              (clampToInt64 (wrapU64 (periods sample - periods_ st)))) p) (setThrottleBase at_ sample st)
end.

Definition ingestCadvisor (samples : list (cadvisorKey * cadvisorSample)) (now : Time) (p : UsagePoller)
  : UsagePoller := foldl (ingest_sample now) p samples.

(** ** The polling cycle *)

Definition sweep (now : Time) (p : UsagePoller) : UsagePoller :=
let cutoff := Add now (- staleTrackerAfter) in
let p := setTracker (filter (fun kv => Before (lastSeen kv.2) cutoff = false) (tracker p)) p in
let p := setThrottle (filter (fun kv => Before (t_lastSeen kv.2) cutoff = false) (throttle p)) p in
let p := setNetTracker (filter (fun kv => Before (n_lastSeen kv.2) cutoff = false) (netTracker p)) p in
if negb (bool_decide (resumedKeys p = ∅)) && negb (Before now (resumedUntil p))
then setResumed ∅ (resumedUntil p) p
else p.

(** What one node's two paths returned, or [None] for an error. *)
Record nodeReads := mkNodeReads {
node : string;
summary : option (list PodStats);
samples : option (list (cadvisorKey * cadvisorSample));
}.

(** The reported errors are the nodes', in order. *)
Definition poll_node (now : Time) (out : UsagePoller * list string) (r : nodeReads)
  : UsagePoller * list string :=
let '(p, errs) := out in
let p := countPoll PathStatsSummary (bool_decide (summary r = None)) p in
let '(p, errs) := match summary r with
                  | None => (p, errs ++ [node r])
                  | Some s => (ingest s now p, errs)
                  end in
let p := countPoll PathMetricsCadvisor (bool_decide (samples r = None)) p in
match samples r with
| None => (p, errs ++ [node r])
| Some s => (ingestCadvisor s now p, errs)
end.

Definition pollOnce (cancelled : bool) (reads : list nodeReads) (now : Time) (p : UsagePoller)
  : UsagePoller * list string :=
if cancelled then (p, [])
else
  let '(p, errs) := foldl (poll_node now) (p, []) reads in
  (sweep now p, errs).
End resolver.

(** What a flush hands to its three callbacks; an empty list is not handed on. *)
Record flushed := mkFlushed {
  closed : list Record_;
  snapshot : list Record_;
  network : list Network.NetworkRecord;
}.

Definition flush (now : Time) (p : UsagePoller) : flushed * UsagePoller :=
  let '(closed, a) := Accumulator.CloseBefore (acc p) now in
  let snapshot := Accumulator.Snapshots a in
  let '(network, n) := Network.CloseBefore (netAcc p) now in
  (mkFlushed closed snapshot network, setNetAcc n (setAcc a p)).

(** ** What the poller says of itself *)

Record Observation := mkObservation {
  PollIntervalSeconds : Z; Signals_ : list string; PollsAttempted : Z; PollsFailed : Z;
}.

Definition Signals (p : UsagePoller) : list string := sort_slice go_lt (elements (signals p)).

Definition Observation_ (p : UsagePoller) : Observation :=
  let sum f := foldl (fun n path => n +w f (polls p path)) 0 KubeletPaths in
  mkObservation (Z.quot usagePollInterval Second) (Signals p) (sum attempted) (sum failed).

Definition PathReads (p : UsagePoller) : list (KubeletPath * Z * Z) :=
  (fun path => (path, attempted (polls p path), failed (polls p path))) <$> KubeletPaths.

(** ** CPU time by key *)

Definition window_length (p : UsagePoller) : Z := length_ (Accumulator.win (acc p)).

(** What the records of [k] hold of [f]. *)
Definition of_key (f : Record_ -> Z) (k : Key) (r : Record_) : Z := if decide (RKey r = k) then f r else 0.
Definition under (f : Record_ -> Z) (k : Key) (p : UsagePoller) : Z := map_sum (of_key f k) (Accumulator.open (acc p)).

(** The open records sit under their own keys. *)
Definition keyed_map (m : gmap Accumulator.openKey Record_) : Prop := map_Forall (fun ok r => RKey r = ok.1) m.
Definition keyed (p : UsagePoller) : Prop := keyed_map (Accumulator.open (acc p)).

(** [p'] is [p] with [n] core-nanoseconds and [d] nanoseconds of coverage more
    under [key], and no more under any other. *)
Definition credits (key : Key) (n d : Z) (p p' : UsagePoller) : Prop :=
  (keyed p -> keyed p') /\
  (forall k, keyed p -> wrap64 (under Accumulator.core k p') = wrap64 (under Accumulator.core k p + if decide (key = k) then n else 0)) /\
  (forall k, keyed p -> wrap64 (under Accumulator.covered k p') = wrap64 (under Accumulator.covered k p + if decide (key = k) then d else 0)) /\
  window_length p' = window_length p /\ resumedKeys p' = resumedKeys p /\ resumedUntil p' = resumedUntil p.

Lemma credits_refl key p p' :
  acc p' = acc p -> resumedKeys p' = resumedKeys p -> resumedUntil p' = resumedUntil p -> credits key 0 0 p p'.
Proof.
  intros Ha Hr Hu. unfold credits, keyed, under, window_length. rewrite Ha. split; [done|].
  split; [intros k _; f_equal; case_decide; lia|]. split; [intros k _; f_equal; case_decide; lia|]. done.
Qed.

Lemma credits_trans key n1 d1 n2 d2 p1 p2 p3 :
  credits key n1 d1 p1 p2 -> credits key n2 d2 p2 p3 -> credits key (n1 + n2) (d1 + d2) p1 p3.
Proof.
  intros (Hk & Hn & Hd & Hl & Hr & Hu) (Hk' & Hn' & Hd' & Hl' & Hr' & Hu'). split; [auto|].
  split; [|split; [|by rewrite Hl', Hr', Hu']]; intros k K; specialize (Hk K).
  - rewrite (Hn' k Hk), <-wrap64_add_l, (Hn k K), wrap64_add_l. f_equal. case_decide; lia.
  - rewrite (Hd' k Hk), <-wrap64_add_l, (Hd k K), wrap64_add_l. f_equal. case_decide; lia.
Qed.

Lemma credits_add key n1 d1 n2 d2 n d p1 p2 p3 :
  credits key n1 d1 p1 p2 -> credits key n2 d2 p2 p3 -> n = n1 + n2 -> d = d1 + d2 -> credits key n d p1 p3.
Proof. intros H1 H2 -> ->. by eapply credits_trans. Qed.

(** Nothing is credited to anyone. *)
Lemma credits_any key key' p p' : credits key 0 0 p p' -> credits key' 0 0 p p'.
Proof.
  intros (Hk & Hn & Hd & H). split; [done|]. split; [|split; [|done]]; intros k K.
  - rewrite (Hn k K). by repeat case_decide.
  - rewrite (Hd k K). by repeat case_decide.
Qed.

Lemma credits_pad key n d p1 p2 p3 p4 :
  credits key 0 0 p1 p2 -> credits key n d p2 p3 -> credits key 0 0 p3 p4 -> credits key n d p1 p4.
Proof.
  intros H1 H2 H3. replace n with (0 + n + 0) by lia. replace d with (0 + d + 0) by lia.
  eapply credits_trans; [eapply credits_trans; [exact H1|exact H2]|exact H3].
Qed.

(** The logged entries of a key add to the records of that key. *)
Lemma apply_sample_RKey r x : RKey (apply_sample r x) = RKey r.
Proof. by destruct r, x. Qed.

Lemma log_run_under (f : Record_ -> Z) (d : sample -> Z) k a l :
  (forall k s n, f (newRecord k s n) = 0) -> (forall r x, wrap64 (f (apply_sample r x)) = wrap64 (f r + d x)) ->
  keyed_map (Accumulator.open a) ->
  keyed_map (Accumulator.open (Accumulator.log_run a l)) /\
  wrap64 (map_sum (of_key f k) (Accumulator.open (Accumulator.log_run a l)))
    = wrap64 (map_sum (of_key f k) (Accumulator.open a)
              + list_sum (fun e => if decide (Accumulator.e_key e = k) then d (Accumulator.e_sample e) else 0) l).
Proof.
  intros Hnew Happly. revert a. induction l as [|e l IH]; intros a Ha; [split; [done|]; cbn; by rewrite Z.add_0_r|].
  cbn [Accumulator.log_run foldl]. change (foldl Accumulator.log_apply ?b l) with (Accumulator.log_run b l).
  set (r0 := Accumulator.recordAt a (Accumulator.e_key e) (Accumulator.e_start e)).
  assert (Hr0 : RKey r0 = Accumulator.e_key e).
  { unfold r0, Accumulator.recordAt. destruct (_ !! _) as [r|] eqn:E; [|done]. exact (Ha _ _ E). }
  assert (Ha' : keyed_map (Accumulator.open (Accumulator.log_apply a e))).
  { cbn. apply map_Forall_insert_2; [|done]. rewrite apply_sample_RKey. exact Hr0. }
  destruct (IH _ Ha') as [Hk Hs]. split; [done|]. rewrite Hs, list_sum_cons, <-wrap64_add_l.
  cbn [Accumulator.log_apply Accumulator.updateAt Accumulator.open]. rewrite map_sum_insert. fold r0.
  assert (Hval : wrap64 (of_key f k (apply_sample r0 (Accumulator.e_sample e))) =
    wrap64 (of_key f k r0 + if decide (Accumulator.e_key e = k) then d (Accumulator.e_sample e) else 0)).
  { unfold of_key. rewrite apply_sample_RKey, Hr0. case_decide; [apply Happly|done]. }
  assert (Hold : from_option (of_key f k) 0 (Accumulator.open a !! Accumulator.slot (Accumulator.e_key e) (Accumulator.e_start e))
                 = of_key f k r0).
  { unfold r0, Accumulator.recordAt. destruct (_ !! _) as [r|]; [done|]. cbn [from_option]. unfold of_key. rewrite Hnew. by destruct (decide _). }
  rewrite Hold. rewrite wrap64_add_l.
  match goal with |- wrap64 (?m + ?v - ?o + ?s) = _ => replace (m + v - o + s) with (v + (m - o + s)) by lia end.
  rewrite <-(wrap64_add_l (of_key f k (apply_sample _ _))), Hval, wrap64_add_l. f_equal. lia.
Qed.

Definition core_gain (o : Accumulator.observation) : Z :=
  match o with Accumulator.OCPU _ _ _ n => n | _ => 0 end.
Definition covered_gain (o : Accumulator.observation) : Z :=
  match o with Accumulator.OCPU _ from to _ => to - from | _ => 0 end.
Definition observed_key (o : Accumulator.observation) : Key :=
  match o with
  | Accumulator.OCPU k _ _ _ | Accumulator.OThrottling k _ _ _ _ | Accumulator.OCPUPSI k _ _ _
  | Accumulator.OMemoryPSI k _ _ _ | Accumulator.OMemory k _ _ => k
  end.
Definition observable (o : Accumulator.observation) : Prop :=
  match o with
  | Accumulator.OCPU _ from to n => from < to /\ to - from <= maxInt64 /\ 0 <= n <= maxInt64
  | _ => True
  end.

Lemma gain_of_shares w k from to n (s : Z -> sample) g :
  (forall v, g (s v) = 0) -> list_sum (fun e => g (Accumulator.e_sample e)) (Accumulator.shares w k from to n s) = 0.
Proof. intros Hg. rewrite Accumulator.shares_sum. by apply Accumulator.list_sum_zero. Qed.

Lemma effects_gain w o :
  0 < length_ w -> observable o ->
  list_sum (fun e => Accumulator.core_of (Accumulator.e_sample e)) (Accumulator.effects w o) = core_gain o /\
  list_sum (fun e => Accumulator.covered_of (Accumulator.e_sample e)) (Accumulator.effects w o) = covered_gain o.
Proof.
  intros Hw Ho. destruct o as [k from to n|k from to x y|k from to n|k from to n|k t b];
    cbn [Accumulator.effects core_gain covered_gain].
  - destruct Ho as (Hft & Hlen & Hn). pose proof (proj2 (Sub_pos to from) Hft).
    rewrite (proj2 (Z.leb_gt (Sub to from) 0)), (proj2 (Z.ltb_ge n 0)) by lia. cbn [orb].
    rewrite !list_sum_app, !Accumulator.shares_sum, Sub_exact by go_lia. cbn.
    rewrite !(Accumulator.list_sum_zero (fun _ => 0)) by done.
    change (list_sum (fun p => p.2) ?l) with (list_sum snd l).
    rewrite (proj1 (split_conserves_sum w from to n Hw Hft Hlen Hn)).
    rewrite (proj1 (split_conserves_sum w from to (to - from) Hw Hft Hlen ltac:(lia))). lia.
  - rewrite !list_sum_app, !gain_of_shares by done. by case_match.
  - rewrite !list_sum_app, !gain_of_shares by done. by case_match.
  - rewrite !list_sum_app, !gain_of_shares by done. by case_match.
  - by case_match.
Qed.

Lemma effects_key w o : Forall (fun e => Accumulator.e_key e = observed_key o) (Accumulator.effects w o).
Proof.
  destruct o; cbn [Accumulator.effects observed_key]; repeat case_match; rewrite ?Forall_app;
    repeat split; repeat constructor; try apply Accumulator.shares_key.
Qed.

Lemma list_sum_constant_key (g : Accumulator.log_entry -> Z) key k l :
  Forall (fun e => Accumulator.e_key e = key) l ->
  list_sum (fun e => if decide (Accumulator.e_key e = k) then g e else 0) l = if decide (key = k) then list_sum g l else 0.
Proof.
  induction 1 as [|e l He _ IH]; [by case_decide|]. rewrite !list_sum_cons, IH, He. case_decide; lia.
Qed.

Lemma step_credits p o :
  0 < window_length p -> observable o ->
  credits (observed_key o) (core_gain o) (covered_gain o) p (setAcc (Accumulator.step (acc p) o) p).
Proof.
  intros Hw Ho. unfold credits, keyed, under, window_length. cbn [acc setAcc resumedKeys resumedUntil].
  rewrite Accumulator.step_log. destruct (effects_gain (Accumulator.win (acc p)) o Hw Ho) as [Hc Hv].
  pose proof (effects_key (Accumulator.win (acc p)) o) as Hkey. rewrite Accumulator.log_run_win.
  split; [intros K; by apply (log_run_under Accumulator.core Accumulator.core_of (observed_key o));
          [|apply Accumulator.core_apply|]|]. split; [|split; [|done]]; intros k K.
  - rewrite (proj2 (log_run_under Accumulator.core Accumulator.core_of k _ _ ltac:(done) Accumulator.core_apply K)).
    rewrite (list_sum_constant_key (fun e => Accumulator.core_of (Accumulator.e_sample e)) _ k _ Hkey). by rewrite Hc.
  - rewrite (proj2 (log_run_under Accumulator.covered Accumulator.covered_of k _ _ ltac:(done) Accumulator.covered_apply K)).
    rewrite (list_sum_constant_key (fun e => Accumulator.covered_of (Accumulator.e_sample e)) _ k _ Hkey). by rewrite Hv.
Qed.

Lemma clampToInt64_id n : n <= maxInt64 -> clampToInt64 n = n.
Proof. unfold clampToInt64. ltb_cases. Qed.

Lemma observeCPU_credits key from to n p :
  0 < window_length p -> from < to -> to - from <= maxInt64 -> 0 <= n <= maxInt64 ->
  credits key n (to - from) p (observeCPU key from to n p).
Proof.
  intros Hw Hft Hlen Hn. unfold observeCPU, After. destruct (Z.ltb_spec from to); [cbn|lia].
  rewrite clampToInt64_id by lia. by apply (step_credits p (Accumulator.OCPU key from to n)).
Qed.

Lemma observeCPUPSI_credits psi key from to n p :
  0 < window_length p -> credits key 0 0 p (observeCPUPSI psi key from to n p).
Proof.
  intros Hw. unfold observeCPUPSI. case_match; [by apply credits_refl|].
  by apply (step_credits p (Accumulator.OCPUPSI key from to (clampToInt64 n))).
Qed.

Lemma mark_credits key nm p : credits key 0 0 p (markSignal nm p).
Proof. by apply credits_refl. Qed.

Lemma mark_psi_credits key psi p : credits key 0 0 p (mark_psi psi p).
Proof. destruct psi; by apply credits_refl. Qed.

Lemma ingest_memory_credits key start m p st :
  0 < window_length p ->
  let '(p', st') := ingest_memory key start m p st in
  credits key 0 0 p p' /\ tracker p' = tracker p /\
  cpuTime st' = cpuTime st /\ cpuCounter st' = cpuCounter st /\ cpuPSI st' = cpuPSI st.
Proof.
  intros Hw. unfold ingest_memory. destruct (WorkingSetBytes m) as [b|]; [|by split; [apply credits_refl|]].
  assert (forall q, credits key 0 0 (mark_psi (mem_psi m) (markSignal "memory" p)) q -> credits key 0 0 p q) as Hmark.
  { intros q Hq. change 0 with (0 + 0). eapply credits_trans; [|exact Hq].
    by destruct (mem_psi m); apply credits_refl. }
  set (q := mark_psi (mem_psi m) (markSignal "memory" p)) in *.
  assert (tracker q = tracker p) as Ht by (unfold q; by destruct (mem_psi m)).
  assert (0 < window_length q) as Hwq by (unfold q; by destruct (mem_psi m)).
  destruct (After (mem_at m) (memTime st)); [|split; [apply Hmark; by apply credits_refl|done]].
  pose proof (step_credits q (Accumulator.OMemory key (mem_at m) (clampToInt64 b)) Hwq I) as H1.
  cbn [Accumulator.step observed_key core_gain covered_gain] in H1.
  set (q1 := setAcc _ q) in *. assert (window_length q1 = window_length q) as Hl1 by apply H1.
  repeat match goal with |- context [if ?b then _ else _] =>
    lazymatch b with context [if _ then _ else _] => fail | _ => destruct b end end;
    cbn [tracker setAcc]; (split; [apply Hmark|done]);
    try exact H1; change 0 with (0 + 0); (eapply credits_trans; [exact H1|]).
  all: match goal with |- credits _ _ _ _ (setAcc (Accumulator.ObserveMemoryPSI _ ?k ?f ?t ?n) _) =>
         apply (step_credits q1 (Accumulator.OMemoryPSI k f t n)); [by rewrite Hl1|done] end.
Qed.

(** ** One call of [ingestContainer] *)

(** What the kernel counts of one container: its start, its CPU counter, and the
    stall counter as it is answered. *)
Record life := mkLife { li_start : Time; li_cpu : Time -> Z; li_psi : Time -> PSIStats }.

(** The CPU counter only grows and so does the stall counter, which includes that
    a pressure-stall block, once answered, is answered again. *)
Definition only_grows (l : life) : Prop :=
  0 <= li_start l /\
  forall a b, li_start l <= a -> a <= b -> 0 <= li_cpu l a <= li_cpu l b /\ default 0 (li_psi l a) <= default 0 (li_psi l b).

(** The CPU reading of an answer, if it has one. *)
Definition cpu_reading (c : ContainerStats) : option Time :=
  cpu ← cs_cpu c; _ ← UsageCoreNanoSeconds cpu; Some (cpu_at cpu).

(** An answer reads the counters as they were at the instant it names. *)
Definition reads_of (l : life) (c : ContainerStats) : Prop :=
  StartTime c = li_start l /\
  match cs_cpu c with
  | Some cpu =>
      match UsageCoreNanoSeconds cpu with
      | Some n => n = li_cpu l (cpu_at cpu) /\ cpu_psi cpu = li_psi l (cpu_at cpu) /\
                  li_start l < cpu_at cpu <= li_start l + maxInt64 /\ n <= maxInt64
      | None => True
      end
  | None => True
  end.
#[export] Instance reads_of_dec l c : Decision (reads_of l c).
Proof. unfold reads_of. repeat case_match; apply _. Defined.

(** The latest of the readings. *)
Definition latest (hi : Time) (l : list Time) : Time := foldl Z.max hi l.

(** The baseline of a container of which [l] was read. *)
Definition based (li : life) (l : list Time) (st : counterState) : Prop :=
  match l with
  | [] => cpuTime st = 0
  | a :: l => let hi := latest a l in
      li_start li < hi <= li_start li + maxInt64 /\
      cpuTime st = hi /\ cpuCounter st = li_cpu li hi /\ cpuPSI st = default 0 (li_psi li hi)
  end.

(** What it was credited with: from its start, or from the first reading when the
    window was resumed; and the time that covers. *)
Definition credited_cpu (resumed : bool) (li : life) (l : list Time) : Z :=
  match l with [] => 0 | a :: l => li_cpu li (latest a l) - if resumed then li_cpu li a else 0 end.
Definition credited_time (resumed : bool) (li : life) (l : list Time) : Z :=
  match l with [] => 0 | a :: l => latest a l - if resumed then a else li_start li end.

Lemma latest_instant_snoc a l t : latest a (l ++ [t]) = Z.max (latest a l) t.
Proof. unfold latest. by rewrite foldl_app. Qed.

Lemma ingest_cpu_tracker key start c p st :
  tracker (ingest_cpu key start c p st).1 = tracker p /\ lastSeen (ingest_cpu key start c p st).2 = lastSeen st.
Proof. unfold ingest_cpu, mark_psi, observeCPU, observeCPUPSI. repeat case_match; done. Qed.
Lemma ingest_memory_tracker key start m p st :
  tracker (ingest_memory key start m p st).1 = tracker p /\ lastSeen (ingest_memory key start m p st).2 = lastSeen st.
Proof. unfold ingest_memory, mark_psi. repeat case_match; simplify_eq; done. Qed.

Section one_call.
Context (li : life) (key : Key) (Hgrow : only_grows li).

(** The CPU half: the first reading. *)
Lemma ingest_cpu_first c p st n :
  UsageCoreNanoSeconds c = Some n -> n = li_cpu li (cpu_at c) -> cpu_psi c = li_psi li (cpu_at c) ->
  li_start li < cpu_at c <= li_start li + maxInt64 -> n <= maxInt64 ->
  0 < window_length p -> cpuTime st = 0 ->
  let out := ingest_cpu key (li_start li) c p st in
  let resumed := negb (attributableFromStart p key) in
  credits key (credited_cpu resumed li [cpu_at c]) (credited_time resumed li [cpu_at c]) p out.1 /\ based li [cpu_at c] out.2.
Proof.
  intros Hu Hn Hpsi Hat Hmax Hw Ht. unfold ingest_cpu. rewrite Hu, Ht. change (IsZero 0) with true. cbn iota zeta.
  set (q := mark_psi (cpu_psi c) (markSignal "cpu" p)).
  assert (Hq : credits key 0 0 p q) by (change 0 with (0 + 0); eapply credits_trans; [apply mark_credits|apply mark_psi_credits]).
  assert (Ha : attributableFromStart q key = attributableFromStart p key)
    by (unfold attributableFromStart; by destruct Hq as (_&_&_&_&->&_)).
  assert (Hwq : 0 < window_length q) by (by destruct Hq as (_&_&_&->&_)).
  rewrite Ha. cbn [fst snd]. split; [|cbn; rewrite Hn, Hpsi; lia]. cbn [credited_cpu credited_time latest foldl].
  destruct (attributableFromStart p key); cbn [negb]; [|by rewrite !Z.sub_diag].
  destruct (proj2 Hgrow (cpu_at c) (cpu_at c) ltac:(lia) ltac:(lia)) as [Hm _].
  rewrite <-Hn, Z.sub_0_r. pose proof (observeCPU_credits key (li_start li) (cpu_at c) n q Hwq ltac:(lia) ltac:(lia) ltac:(lia)) as Ho.
  eapply credits_pad; [exact Hq|exact Ho|]. apply observeCPUPSI_credits. by destruct Ho as (_&_&_&->&_).
Qed.

(** And any other, early, late or again. *)
Lemma ingest_cpu_next c p st n a l :
  UsageCoreNanoSeconds c = Some n -> n = li_cpu li (cpu_at c) -> cpu_psi c = li_psi li (cpu_at c) ->
  li_start li < cpu_at c <= li_start li + maxInt64 -> n <= maxInt64 ->
  0 < window_length p -> based li (a :: l) st ->
  let out := ingest_cpu key (li_start li) c p st in
  let hi := latest a l in let hi' := latest a (l ++ [cpu_at c]) in
  credits key (li_cpu li hi' - li_cpu li hi) (hi' - hi) p out.1 /\ based li (a :: l ++ [cpu_at c]) out.2.
Proof.
  intros Hu Hn Hpsi Hat Hmax Hw (Hhi & Ht & Hcnt & Hst). cbn zeta. rewrite latest_instant_snoc. unfold ingest_cpu.
  cbn [based]. rewrite latest_instant_snoc. rewrite Hu, Ht. pose proof (proj1 Hgrow). set (hi := latest a l) in *. set (at_ := cpu_at c) in *.
  unfold IsZero, After. destruct (Z.eqb_spec hi 0); [lia|].
  set (q := mark_psi (cpu_psi c) (markSignal "cpu" p)).
  assert (Hq : credits key 0 0 p q) by (change 0 with (0 + 0); eapply credits_trans; [apply mark_credits|apply mark_psi_credits]).
  assert (Hwq : 0 < window_length q) by (by destruct Hq as (_&_&_&->&_)).
  destruct (Z.ltb_spec hi at_) as [Hlt|Hge]; cbn [negb].
  - rewrite Z.max_r by lia. destruct (proj2 Hgrow hi at_ ltac:(lia) ltac:(lia)) as [Hm1 Hm2].
    rewrite Hcnt, Hst, Hn, Hpsi. destruct (Z.ltb_spec (li_cpu li at_) (li_cpu li hi)); [lia|].
    destruct (Z.ltb_spec (default 0 (li_psi li at_)) (default 0 (li_psi li hi))); [lia|]. cbn [orb fst snd].
    rewrite (wrapU64_id (li_cpu li at_ - li_cpu li hi)) by go_lia. split; [|cbn; lia].
    pose proof (observeCPU_credits key hi at_ (li_cpu li at_ - li_cpu li hi) q Hwq Hlt ltac:(lia) ltac:(lia)) as Ho.
    eapply credits_pad; [exact Hq|exact Ho|]. apply observeCPUPSI_credits. by destruct Ho as (_&_&_&->&_).
  - rewrite Z.max_l by lia. cbn [fst snd]. rewrite !Z.sub_diag. done.
Qed.

(** A call moves the credit of its container from what was read to what is read. *)
Lemma ingestContainer_credits tk c now p l resumed :
  reads_of li c -> 0 < window_length p -> based li l (default noCounters (tracker p !! tk)) ->
  resumed = negb (attributableFromStart p key) ->
  let p' := ingestContainer tk key c now p in
  let l' := l ++ option_list (cpu_reading c) in
  credits key (credited_cpu resumed li l' - credited_cpu resumed li l) (credited_time resumed li l' - credited_time resumed li l) p p' /\
  exists st, tracker p' = <[tk := st]> (tracker p) /\ lastSeen st = now /\ based li l' st.
Proof.
  intros [Hstart Hcpu] Hw Hb Hres. cbn zeta. unfold ingestContainer.
  set (st0 := setSeen now (default noCounters (tracker p !! tk))).
  assert (Hb0 : based li l st0) by (unfold based in *; by destruct l).
  set (half := match cs_cpu c with Some cpu => ingest_cpu key (StartTime c) cpu p st0 | None => (p, st0) end).
  set (l' := l ++ option_list (cpu_reading c)).
  assert (Hhalf : credits key (credited_cpu resumed li l' - credited_cpu resumed li l) (credited_time resumed li l' - credited_time resumed li l) p half.1 /\
            based li l' half.2 /\ tracker half.1 = tracker p /\ lastSeen half.2 = now).
  { unfold half, l', cpu_reading. destruct (cs_cpu c) as [cpu|]; cbn [mbind option_bind].
    2: { cbn. rewrite app_nil_r, !Z.sub_diag. split_and!; [by apply credits_refl|done..]. }
    destruct (ingest_cpu_tracker key (StartTime c) cpu p st0) as [-> ->].
    destruct (UsageCoreNanoSeconds cpu) as [n|] eqn:Hu; cbn [mbind option_bind option_list].
    2: { unfold ingest_cpu. rewrite Hu. cbn. rewrite app_nil_r, !Z.sub_diag. split_and!; [by apply credits_refl|done..]. }
    destruct Hcpu as (Hn & Hpsi & Hat & Hmax). rewrite Hstart. change (option_list (Some (cpu_at cpu))) with [cpu_at cpu]. destruct l as [|a l].
    - destruct (ingest_cpu_first cpu p st0 n Hu Hn Hpsi Hat Hmax Hw Hb0) as [Hc Hb']. rewrite <-Hres in Hc.
      cbn [app credited_cpu credited_time] in *. rewrite !Z.sub_0_r in *. by split_and!.
    - destruct (ingest_cpu_next cpu p st0 n a l Hu Hn Hpsi Hat Hmax Hw Hb0) as [Hc Hb'].
      cbn [app credited_cpu credited_time]. split_and!; [|done..].
      replace (li_cpu li (latest a (l ++ [cpu_at cpu])) - (if resumed then li_cpu li a else 0) - (li_cpu li (latest a l) - (if resumed then li_cpu li a else 0)))
        with (li_cpu li (latest a (l ++ [cpu_at cpu])) - li_cpu li (latest a l)) by (destruct resumed; lia).
      replace (latest a (l ++ [cpu_at cpu]) - (if resumed then a else li_start li) - (latest a l - (if resumed then a else li_start li)))
        with (latest a (l ++ [cpu_at cpu]) - latest a l) by (destruct resumed; lia). exact Hc. }
  destruct half as [p1 st1]. cbn [fst snd] in Hhalf. destruct Hhalf as (Hc & Hb1 & Ht & Hseen). cbn beta iota.
  destruct (cs_memory c) as [m|]; cbn [tracker setTracker].
  - assert (window_length p1 = window_length p) as Hl by apply Hc.
    pose proof (ingest_memory_credits key (StartTime c) m p1 st1 ltac:(by rewrite Hl)) as H.
    destruct (ingest_memory_tracker key (StartTime c) m p1 st1) as [_ Hs].
    destruct (ingest_memory key (StartTime c) m p1 st1) as [p2 st2]. cbn [snd] in Hs. destruct H as (Hc2 & Ht2 & H1 & H2 & H3). split.
    + eapply credits_add; [exact Hc|exact Hc2|lia|lia].
    + exists st2. split; [by rewrite Ht2, Ht|]. split; [by rewrite Hs|]. unfold based in *. destruct l'; by rewrite ?H1, ?H2, ?H3.
  - split; [exact Hc|]. exists st1. by rewrite Ht.
Qed.
End one_call.

(** ** Resumed keys *)

(** What is left of a first observation when nothing may be attributed back. *)
Definition memory_gauge (key : Key) (m : option MemoryStats) (a : Accumulator.Accumulator) : Accumulator.Accumulator :=
  match m with
  | None => a
  | Some m =>
      match WorkingSetBytes m with
      | Some bytes => if After (mem_at m) 0 then Accumulator.ObserveMemory a key (mem_at m) (clampToInt64 bytes) else a
      | None => a
      end
  end.

Lemma mark_psi_same psi p :
  acc (mark_psi psi p) = acc p /\ resumedKeys (mark_psi psi p) = resumedKeys p.
Proof. by destruct psi. Qed.

Lemma first_cpu_resumed key start c p st :
  attributableFromStart p key = false -> cpuTime st = 0 ->
  let out := ingest_cpu key start c p st in
  acc out.1 = acc p /\ resumedKeys out.1 = resumedKeys p /\ memTime out.2 = memTime st /\ memPSI out.2 = memPSI st.
Proof.
  intros Ha Ht. unfold ingest_cpu. destruct (UsageCoreNanoSeconds c); [|done]. rewrite Ht.
  change (IsZero 0) with true. cbn iota zeta. unfold attributableFromStart in *.
  destruct (mark_psi_same (cpu_psi c) (markSignal "cpu" p)) as [E1 E2]. rewrite E2. change (resumedKeys (markSignal "cpu" p)) with (resumedKeys p). rewrite Ha. cbn [fst snd].
  by rewrite E1, E2.
Qed.

Lemma first_memory_resumed key start m p st :
  attributableFromStart p key = false -> memTime st = 0 ->
  acc (ingest_memory key start m p st).1 = memory_gauge key (Some m) (acc p).
Proof.
  intros Ha Ht. unfold ingest_memory, memory_gauge. destruct (WorkingSetBytes m) as [b|]; [|done]. rewrite Ht.
  destruct (mark_psi_same (mem_psi m) (markSignal "memory" p)) as [E1 E2]. cbn zeta.
  destruct (After (mem_at m) 0); [|exact E1].
  change (IsZero 0) with true. cbn [negb orb].
  unfold attributableFromStart in *. cbn [resumedKeys setAcc]. rewrite E2. change (resumedKeys (markSignal "memory" p)) with (resumedKeys p). rewrite Ha, andb_false_r. cbn. by rewrite E1.
Qed.

(** ** Cycles of polling and flushing *)

(** A container handed to [ingestContainer]. *)
Record call := mkCall { cl_tk : trackerKey; cl_key : Key; cl_stats : ContainerStats; cl_now : Time }.
Definition ingest_call (p : UsagePoller) (cl : call) : UsagePoller :=
  ingestContainer (cl_tk cl) (cl_key cl) (cl_stats cl) (cl_now cl) p.

(** One cycle: what the resolver and every node answer in it, and the clock. *)
Record cycle := mkCycle {
  cy_cancelled : bool;
  cy_pods : string -> option (string * WorkloadRef); cy_host : string -> bool;
  cy_byName : string -> string -> option (string * WorkloadRef);
  cy_reads : list nodeReads; cy_now : Time;
}.
Definition poll (c : cycle) (p : UsagePoller) : UsagePoller :=
  (pollOnce (cy_pods c) (cy_host c) (cy_byName c) (cy_cancelled c) (cy_reads c) (cy_now c) p).1.

(** The containers of a cycle that are attributed, in order. *)
Definition pod_calls (pods : string -> option (string * WorkloadRef)) (now : Time) (pod : PodStats) : list call :=
  match pods (ps_uid pod) with
  | None => []
  | Some (namespace, workload) =>
      (fun c => mkCall (ps_uid pod, cs_name c) (mkKey namespace (Kind workload) (Name workload) (cs_name c)) c now) <$> ps_containers pod
  end.
Definition node_calls (c : cycle) (r : nodeReads) : list call :=
  default [] (summary r) ≫= pod_calls (cy_pods c) (cy_now c).
Definition calls (c : cycle) : list call := if cy_cancelled c then [] else cy_reads c ≫= node_calls c.

Inductive poller_event := Poll (c : cycle) | Flush (now : Time).
Definition polls_of (es : list poller_event) : list cycle := omap (fun e => match e with Poll c => Some c | Flush _ => None end) es.
Definition calls_of (es : list poller_event) : list call := polls_of es ≫= calls.

(** The poller, and the windows it closed so far. *)
Definition poller_step (s : UsagePoller * list Record_) (e : poller_event) : UsagePoller * list Record_ :=
  match e with
  | Poll c => (poll c s.1, s.2)
  | Flush now => ((flush now s.1).2, s.2 ++ closed (flush now s.1).1)
  end.
Definition poller_run (es : list poller_event) (p : UsagePoller) : UsagePoller * list Record_ := foldl poller_step (p, []) es.

(** *** What does not touch containers *)

Definition quiet (p p' : UsagePoller) : Prop := tracker p' = tracker p /\ forall key, credits key 0 0 p p'.

Lemma quiet_same p p' :
  acc p' = acc p -> tracker p' = tracker p -> resumedKeys p' = resumedKeys p -> resumedUntil p' = resumedUntil p -> quiet p p'.
Proof. intros Ha Ht Hr Hu. split; [done|]. intros key. by apply credits_refl. Qed.
Lemma quiet_trans p1 p2 p3 : quiet p1 p2 -> quiet p2 p3 -> quiet p1 p3.
Proof.
  intros [Ht1 H1] [Ht2 H2]. split; [by rewrite Ht2|]. intros key. change 0 with (0 + 0). by eapply credits_trans.
Qed.
Lemma quiet_window p p' : quiet p p' -> window_length p' = window_length p.
Proof. intros [_ H]. by destruct (H (mkKey "" "" "" "")) as (_&_&_&->&_). Qed.

Lemma ingestNetwork_quiet host uid key net now p : quiet p (ingestNetwork host uid key net now p).
Proof. unfold ingestNetwork. repeat case_match; by apply quiet_same. Qed.

Lemma throttling_quiet rk from to n m p :
  0 < window_length p -> quiet p (setAcc (Accumulator.ObserveThrottling (acc p) rk from to n m) p).
Proof.
  intros Hw. split; [done|]. intros key. apply (credits_any rk).
  by apply (step_credits p (Accumulator.OThrottling rk from to n m)).
Qed.

Lemma ingest_sample_quiet byName now p ks : 0 < window_length p -> quiet p (ingest_sample byName now p ks).
Proof.
  intros Hw. destruct ks as [key sample]. unfold ingest_sample. destruct (negb _ || negb _); [by apply quiet_same|].
  destruct (byName _ _) as [[uid workload]|]; [|by apply quiet_same]. cbn zeta.
  assert (Hq : quiet p (markSignal "throttling" p)) by by apply quiet_same.
  assert (Hwq : 0 < window_length (markSignal "throttling" p)) by done.
  assert (Hkeep : forall q t, quiet (markSignal "throttling" p) q -> quiet p (setThrottle t q)).
  { intros q t H. eapply quiet_trans; [exact Hq|]. eapply quiet_trans; [exact H|]. by apply quiet_same. }
  repeat match goal with |- quiet p (if ?b then _ else _) => destruct b end; apply Hkeep; try by apply quiet_same.
  - destruct (_ && _); [by apply throttling_quiet|by apply quiet_same].
  - by apply throttling_quiet.
Qed.

Lemma ingestCadvisor_quiet byName samples now p : 0 < window_length p -> quiet p (ingestCadvisor byName samples now p).
Proof.
  revert p. induction samples as [|ks samples IH]; intros p Hw; [by apply quiet_same|]. cbn.
  pose proof (ingest_sample_quiet byName now p ks Hw) as Hq. eapply quiet_trans; [exact Hq|]. apply IH. by rewrite (quiet_window _ _ Hq).
Qed.

(** *** The account of one key *)

(** What was read of a container, in the order of the calls. *)
Definition reading_of (tk : trackerKey) (cl : call) : list Time :=
  if decide (cl_tk cl = tk) then option_list (cpu_reading (cl_stats cl)) else [].
Definition readings (done : list call) (tk : trackerKey) : list Time := done ≫= reading_of tk.

Lemma list_sum_ext {A} (f g : A -> Z) l : (forall x, x ∈ l -> f x = g x) -> list_sum f l = list_sum g l.
Proof.
  induction l as [|x l IH]; intros H; [done|]. rewrite !list_sum_cons, (H x), IH; [done| |by left]. intros y Hy. apply H. by right.
Qed.
Lemma list_sum_change {A} `{EqDecision A} (g g' : A -> Z) x l :
  NoDup l -> (forall y, y <> x -> g' y = g y) ->
  list_sum g' l = list_sum g l + if decide (x ∈ l) then g' x - g x else 0.
Proof.
  intros Hl Hg. induction Hl as [|y l Hy Hl IH]; [done|]. rewrite !list_sum_cons, IH. destruct (decide (y = x)) as [->|Hne].
  - rewrite decide_False by done. rewrite decide_True by (by left). lia.
  - rewrite (Hg y Hne). destruct (decide (x ∈ l)); [rewrite decide_True by (by right); lia|].
    rewrite decide_False; [lia|]. by intros [->|]%elem_of_cons.
Qed.

Lemma readings_of_snoc done cl tk : readings (done ++ [cl]) tk = readings done tk ++ reading_of tk cl.
Proof. unfold readings. rewrite bind_app. cbn. by rewrite app_nil_r. Qed.

Section account.
Context (world : trackerKey -> life) (Hworld : forall tk, only_grows (world tk)).
(** The containers of [key]. *)
Context (key : Key) (tks : list trackerKey) (Htks : NoDup tks).
Context (resumed : bool) (until : Time) (core0 covered0 : Z).

(** An answer is about the world, and the containers of the key are the listed ones. *)
Definition fits (cl : call) : Prop := reads_of (world (cl_tk cl)) (cl_stats cl) /\ (cl_tk cl ∈ tks <-> cl_key cl = key).

Definition gained (f : bool -> life -> list Time -> Z) (done : list call) : Z :=
  list_sum (fun tk => f resumed (world tk) (readings done tk)) tks.

Record accounted (done : list call) (s : UsagePoller * list Record_) : Prop := {
  ac_keyed : keyed s.1;
  ac_window : 0 < window_length s.1;
  ac_resumed : resumed = bool_decide (key ∈ resumedKeys s.1);
  ac_until : resumedUntil s.1 = until;
  ac_based : forall tk, based (world tk) (readings done tk) (default noCounters (tracker s.1 !! tk));
  ac_core : wrap64 (under Accumulator.core key s.1 + list_sum (of_key Accumulator.core key) s.2) = wrap64 (core0 + gained credited_cpu done);
  ac_covered : wrap64 (under Accumulator.covered key s.1 + list_sum (of_key Accumulator.covered key) s.2)
                 = wrap64 (covered0 + gained credited_time done);
}.

Lemma credit_moves u u' o t n : wrap64 (u + o) = wrap64 t -> wrap64 u' = wrap64 (u + n) -> wrap64 (u' + o) = wrap64 (t + n).
Proof.
  intros H H'. rewrite <-(wrap64_add_l u'), H', wrap64_add_l. replace (u + n + o) with (u + o + n) by lia.
  by rewrite <-(wrap64_add_l (u + o)), H, wrap64_add_l.
Qed.

Lemma accounted_quiet done p p' out : quiet p p' -> accounted done (p, out) -> accounted done (p', out).
Proof.
  intros [Ht Hc] [Hk Hw Hr Hu Hb Hn Hd]. cbn [fst snd] in *. destruct (Hc key) as (Hk' & Hn' & Hd' & Hw' & Hr' & Hu').
  split; cbn [fst snd]; [auto|by rewrite Hw'|by rewrite Hr'|by rewrite Hu'|by rewrite Ht| |].
  - rewrite <-(Z.add_0_r (core0 + _)). eapply credit_moves; [exact Hn|]. rewrite (Hn' key Hk). by destruct (decide (key = key)).
  - rewrite <-(Z.add_0_r (covered0 + _)). eapply credit_moves; [exact Hd|]. rewrite (Hd' key Hk). by destruct (decide (key = key)).
Qed.

Lemma gained_snoc f done cl :
  gained f (done ++ [cl]) = gained f done +
    if decide (cl_tk cl ∈ tks)
    then f resumed (world (cl_tk cl)) (readings done (cl_tk cl) ++ option_list (cpu_reading (cl_stats cl)))
         - f resumed (world (cl_tk cl)) (readings done (cl_tk cl))
    else 0.
Proof.
  unfold gained. rewrite (list_sum_change (fun tk => f resumed (world tk) (readings done tk)) _ (cl_tk cl) tks Htks).
  - rewrite readings_of_snoc. unfold reading_of. by rewrite (decide_True (P := cl_tk cl = cl_tk cl)).
  - intros tk Hne. rewrite readings_of_snoc. unfold reading_of. by rewrite decide_False, app_nil_r by congruence.
Qed.

Lemma accounted_call done p out cl :
  fits cl -> accounted done (p, out) ->
  accounted (done ++ [cl]) (ingest_call p cl, out) /\
  exists st, tracker (ingest_call p cl) = <[cl_tk cl := st]> (tracker p) /\ lastSeen st = cl_now cl.
Proof.
  intros [Hreads Hkey] [Hk Hw Hr Hu Hb Hn Hd]. cbn [fst snd] in *. set (tk := cl_tk cl) in *.
  destruct (ingestContainer_credits (world tk) (cl_key cl) (Hworld tk) tk (cl_stats cl) (cl_now cl) p (readings done tk)
    (negb (attributableFromStart p (cl_key cl))) Hreads Hw (Hb tk) eq_refl) as [(Hk' & Hn' & Hd' & Hw' & Hr' & Hu') (st & Ht & Hseen & Hb')].
  set (p' := ingest_call p cl).
  change (ingestContainer tk (cl_key cl) (cl_stats cl) (cl_now cl) p) with p' in Hk', Hn', Hd', Hw', Hr', Hu', Ht.
  assert (Hres : cl_key cl = key -> negb (attributableFromStart p (cl_key cl)) = resumed).
  { intros ->. unfold attributableFromStart. by rewrite negb_involutive, Hr. }
  split; [|by exists st]. split; cbn [fst snd]; [auto|by rewrite Hw'|by rewrite Hr'|by rewrite Hu'| | |].
  - intros tk'. rewrite readings_of_snoc. unfold reading_of. fold tk. rewrite Ht. destruct (decide (tk = tk')) as [<-|Hne].
    + by rewrite lookup_insert_eq.
    + by rewrite lookup_insert_ne, app_nil_r.
  - rewrite gained_snoc, Z.add_assoc. eapply credit_moves; [exact Hn|]. rewrite (Hn' key Hk). do 2 f_equal. fold tk.
    destruct (decide (cl_key cl = key)) as [Heq|Hne]; [by rewrite decide_True, <-(Hres Heq) by by apply Hkey|].
    rewrite decide_False; [done|]. by intros ?%Hkey.
  - rewrite gained_snoc, Z.add_assoc. eapply credit_moves; [exact Hd|]. rewrite (Hd' key Hk). do 2 f_equal. fold tk.
    destruct (decide (cl_key cl = key)) as [Heq|Hne]; [by rewrite decide_True, <-(Hres Heq) by by apply Hkey|].
    rewrite decide_False; [done|]. by intros ?%Hkey.
Qed.

(** Closing moves records out of the open map, and loses none. *)
Lemma closed_sum f p now :
  under f key (flush now p).2 + list_sum (of_key f key) (closed (flush now p).1) = under f key p.
Proof.
  unfold flush, Accumulator.CloseBefore. destruct (Network.CloseBefore _ _) as [nw na]. cbn [fst snd closed]. unfold under. cbn [acc setAcc setNetAcc Accumulator.open].
  rewrite !map_sum_values. unfold Accumulator.sortRecords, sort_slice. rewrite (list_sum_perm _ _ _ (merge_sort_Permutation _ _)), Z.add_comm, <-list_sum_app.
  apply list_sum_perm, map_values_filter_split.
Qed.

Lemma accounted_flush done p out now :
  accounted done (p, out) -> accounted done (poller_step (p, out) (Flush now)) /\ tracker (flush now p).2 = tracker p.
Proof.
  intros [Hk Hw Hr Hu Hb Hn Hd]. cbn [fst snd poller_step] in *.
  pose proof (closed_sum Accumulator.core p now) as Sc. pose proof (closed_sum Accumulator.covered p now) as Sd.
  assert (Hsame : tracker (flush now p).2 = tracker p /\ resumedKeys (flush now p).2 = resumedKeys p /\ resumedUntil (flush now p).2 = resumedUntil p /\
                  window_length (flush now p).2 = window_length p /\ (keyed p -> keyed (flush now p).2)).
  { unfold flush, Accumulator.CloseBefore. destruct (Network.CloseBefore _ _). cbn. split_and!; try done.
    intros H. unfold keyed, keyed_map in *. cbn. intros ok r [Hin _]%map_lookup_filter_Some. by apply H. }
  destruct Hsame as (Ht & Hr' & Hu' & Hw' & Hk'). split; [|done].
  split; cbn [fst snd]; [auto|by rewrite Hw'|by rewrite Hr'|by rewrite Hu'|by rewrite Ht| |]; rewrite list_sum_app.
  - rewrite <-Hn. f_equal. lia.
  - rewrite <-Hd. f_equal. lia.
Qed.
End account.

(** *** Baselines that are kept *)

(** At each cycle every container answered before has been answered, in it or since
    [staleTrackerAfter] before it. *)
Fixpoint attended (done : list call) (cs : list cycle) : Prop :=
  match cs with
  | [] => True
  | c :: cs =>
      (cy_cancelled c = false ->
       Forall (fun cl => Exists (fun cl' => cl_tk cl' = cl_tk cl /\ Add (cy_now c) (- staleTrackerAfter) <= cl_now cl') (done ++ calls c)) done) /\
      attended (done ++ calls c) cs
  end.

#[export] Instance attended_dec done cs : Decision (attended done cs).
Proof. revert done. induction cs as [|c cs IH]; intros done; cbn [attended]; apply _. Defined.

(** A baseline belongs to a container that was answered, and knows when last. *)
Definition seen (done : list call) (p : UsagePoller) : Prop :=
  forall tk st, tracker p !! tk = Some st ->
    (exists cl, cl ∈ done /\ cl_tk cl = tk) /\ forall cl, cl ∈ done -> cl_tk cl = tk -> cl_now cl <= lastSeen st.

Lemma seen_call done p p' cl st :
  (forall cl', cl' ∈ done -> cl_now cl' <= cl_now cl) -> tracker p' = <[cl_tk cl := st]> (tracker p) -> lastSeen st = cl_now cl ->
  seen done p -> seen (done ++ [cl]) p'.
Proof.
  intros Hnow Ht Hst Hs tk st'. rewrite Ht. intros [[<- <-]|[Hne Htk]]%lookup_insert_Some.
  - split; [exists cl; set_solver|]. intros cl' [Hin| ->%list_elem_of_singleton]%elem_of_app _; [|lia]. rewrite Hst. by apply Hnow.
  - destruct (Hs tk st' Htk) as [(cl' & Hin & Hcl) Hlast]. split; [exists cl'; set_solver|].
    intros cl'' [Hin''| ->%list_elem_of_singleton]%elem_of_app Hcl''; [by apply Hlast|done].
Qed.

Section cycles.
Context (world : trackerKey -> life) (Hworld : forall tk, only_grows (world tk)).
Context (key : Key) (tks : list trackerKey) (Htks : NoDup tks) (resumed : bool) (until : Time) (core0 covered0 : Z).
Let ok := accounted world key tks resumed until core0 covered0.

Definition good (done : list call) (p : UsagePoller) (out : list Record_) : Prop := ok done (p, out) /\ seen done p.

Lemma good_quiet done p p' out : quiet p p' -> good done p out -> good done p' out.
Proof. intros Hq [Ha Hs]. split; [by eapply accounted_quiet|]. destruct Hq as [Ht _]. unfold seen in *. by rewrite Ht. Qed.

(** A container, a pod, a node, and the nodes of a cycle at [now]. *)
Context (c : cycle).
Notation now := (cy_now c).
Definition timely (done : list call) : Prop := Forall (fun cl => cl_now cl <= now) done.

Lemma good_calls l done p out :
  Forall (fits world key tks) l -> Forall (fun cl => cl_now cl = now) l -> timely done ->
  good done p out -> good (done ++ l) (foldl ingest_call p l) out.
Proof.
  revert done p. induction l as [|cl l IH]; intros done p Hf Hl Hd Hg; [by rewrite app_nil_r|].
  apply Forall_cons in Hf as [Hf1 Hf]. apply Forall_cons in Hl as [Hl1 Hl]. destruct Hg as [Ha Hs].
  destruct (accounted_call world Hworld key tks Htks resumed until core0 covered0 done p out cl Hf1 Ha) as [Ha' (st & Ht & Hst)].
  cbn [foldl]. change (cl :: l) with ([cl] ++ l). rewrite app_assoc. apply IH; [done|done| |].
  - apply Forall_app. split; [done|]. apply Forall_singleton. lia.
  - split; [done|]. eapply seen_call; [|done|done|done]. intros cl' Hin. unfold timely in Hd. rewrite Forall_forall in Hd.
    rewrite Hl1. by apply Hd.
Qed.

Lemma ingest_pod_calls p pod :
  quiet (foldl ingest_call p (pod_calls (cy_pods c) now pod)) (ingest_pod (cy_pods c) (cy_host c) now p pod).
Proof.
  unfold ingest_pod, pod_calls. destruct (cy_pods c (ps_uid pod)) as [[ns wl]|]; [|by apply quiet_same].
  eapply quiet_trans; [|apply ingestNetwork_quiet]. rewrite foldl_fmap. by apply quiet_same.
Qed.

Lemma pod_calls_now pod : Forall (fun cl => cl_now cl = now) (pod_calls (cy_pods c) now pod).
Proof. unfold pod_calls. destruct (cy_pods c _) as [[ns wl]|]; [|constructor]. by apply Forall_fmap, Forall_true. Qed.
Lemma node_calls_now r : Forall (fun cl => cl_now cl = now) (node_calls c r).
Proof. unfold node_calls. induction (default [] _) as [|pod l IH]; [constructor|]. cbn. apply Forall_app. split; [apply pod_calls_now|done]. Qed.

Lemma timely_app done l : timely done -> Forall (fun cl => cl_now cl = now) l -> timely (done ++ l).
Proof. intros Hd Hl. apply Forall_app. split; [done|]. eapply Forall_impl; [exact Hl|]. cbn. lia. Qed.

Lemma good_ingest l done p out :
  Forall (fits world key tks) (l ≫= pod_calls (cy_pods c) now) -> timely done -> good done p out ->
  good (done ++ (l ≫= pod_calls (cy_pods c) now)) (ingest (cy_pods c) (cy_host c) l now p) out.
Proof.
  revert done p. induction l as [|pod l IH]; intros done p Hf Hd Hg; [by rewrite app_nil_r|].
  cbn in *. apply Forall_app in Hf as [Hf1 Hf]. rewrite app_assoc. apply IH; [done|apply timely_app, pod_calls_now; done|].
  eapply good_quiet; [apply ingest_pod_calls|]. apply good_calls; [done|apply pod_calls_now|done|done].
Qed.

Lemma good_window done p out : good done p out -> 0 < window_length p.
Proof. by intros [[] _]. Qed.

Lemma good_node r done p errs out :
  Forall (fits world key tks) (node_calls c r) -> timely done -> good done p out ->
  good (done ++ node_calls c r) (poll_node (cy_pods c) (cy_host c) (cy_byName c) now (p, errs) r).1 out.
Proof.
  intros Hf Hd Hg. unfold poll_node. set (p1 := countPoll PathStatsSummary _ p).
  assert (Hg1 : good done p1 out) by (by apply (good_quiet done p); [apply quiet_same|]).
  match goal with |- context [match summary r with None => (p1, ?e1) | Some s => (ingest ?a ?b s now p1, ?e2) end] =>
    set (half := match summary r with None => (p1, e1) | Some s => (ingest a b s now p1, e2) end) end.
  assert (Hhalf : good (done ++ node_calls c r) half.1 out).
  { unfold half, node_calls in *. destruct (summary r) as [l|]; cbn in *; [by apply good_ingest|by rewrite app_nil_r]. }
  destruct half as [p2 errs2]. cbn [fst] in Hhalf. cbn beta iota. set (p3 := countPoll PathMetricsCadvisor _ p2).
  assert (Hg3 : good (done ++ node_calls c r) p3 out) by (by apply (good_quiet _ p2); [apply quiet_same|]).
  destruct (samples r) as [l|]; [|exact Hg3]. cbn [fst]. eapply good_quiet; [|exact Hg3].
  apply ingestCadvisor_quiet. by eapply good_window.
Qed.

Lemma good_nodes l done p errs out :
  Forall (fits world key tks) (l ≫= node_calls c) -> timely done -> good done p out ->
  good (done ++ (l ≫= node_calls c)) (foldl (poll_node (cy_pods c) (cy_host c) (cy_byName c) now) (p, errs) l).1 out.
Proof.
  revert done p errs. induction l as [|r l IH]; intros done p errs Hf Hd Hg; [by rewrite app_nil_r|].
  cbn [mbind list_bind] in *. apply Forall_app in Hf as [Hf1 Hf]. rewrite app_assoc. cbn [foldl].
  pose proof (good_node r done p errs out Hf1 Hd Hg) as Hg'. destruct (poll_node _ _ _ _ _ _) as [p' errs'].
  apply IH; [done|apply timely_app, node_calls_now; done|exact Hg'].
Qed.

(** The sweep, while every baseline is fresh. *)
Lemma good_sweep done p out :
  (forall tk st, tracker p !! tk = Some st -> Add now (- staleTrackerAfter) <= lastSeen st) ->
  (resumed = true -> now < until) -> good done p out -> good done (sweep now p) out.
Proof.
  intros Hfresh Huntil [[Hk Hw Hr Hu Hb Hn Hd] Hs]. cbn [fst snd] in *.
  assert (Ht : tracker (sweep now p) = tracker p).
  { unfold sweep. match goal with |- tracker (if ?b then _ else _) = _ => destruct b end; cbn;
      (apply map_filter_id; intros tk st Htk; cbn; unfold Before; specialize (Hfresh tk st Htk); apply Z.ltb_ge; lia). }
  assert (Ha : acc (sweep now p) = acc p) by (unfold sweep; by match goal with |- acc (if ?b then _ else _) = _ => destruct b end).
  assert (Hru : resumedUntil (sweep now p) = resumedUntil p)
    by (unfold sweep; by match goal with |- resumedUntil (if ?b then _ else _) = _ => destruct b end).
  split; [|unfold seen in *; by rewrite Ht]. unfold ok. split; cbn [fst snd]; unfold keyed, window_length, under in *; rewrite ?Ha, ?Ht, ?Hru; try done.
  unfold sweep. cbn [resumedKeys setTracker setThrottle setNetTracker resumedUntil]. rewrite Hu.
  destruct (negb _) eqn:Hne; cbn [andb]; [|done]. destruct (Before now until) eqn:Hbef; [done|].
  change (resumed = bool_decide (key ∈ (∅ : gset Key))).
  destruct resumed; [|by rewrite bool_decide_eq_false_2 by set_solver].
  specialize (Huntil eq_refl). unfold Before in Hbef. lia.
Qed.

Lemma good_poll done p out :
  Forall (fits world key tks) (calls c) -> timely done -> (resumed = true -> now < until) ->
  (cy_cancelled c = false ->
     Forall (fun cl => Exists (fun cl' => cl_tk cl' = cl_tk cl /\ Add now (- staleTrackerAfter) <= cl_now cl') (done ++ calls c)) done) ->
  good done p out -> good (done ++ calls c) (poll c p) out.
Proof.
  intros Hf Hd Hu Hatt Hg. unfold poll, pollOnce, calls in *. destruct (cy_cancelled c); [by rewrite app_nil_r|].
  pose proof (good_nodes (cy_reads c) done p [] out Hf Hd Hg) as Hg'. destruct (foldl _ (p, []) (cy_reads c)) as [p' errs]. cbn [fst] in *.
  apply good_sweep; [|done|done]. intros tk st Htk. destruct Hg' as [_ Hs]. destruct (Hs tk st Htk) as [(cl & Hin & Hcl) Hlast].
  apply elem_of_app in Hin as [Hin|Hin].
  - specialize (Hatt eq_refl). rewrite Forall_forall in Hatt. specialize (Hatt cl Hin). apply Exists_exists in Hatt as (cl' & Hin' & Hcl' & Hnow).
    specialize (Hlast cl' Hin' ltac:(congruence)). lia.
  - assert (cl_now cl = now) as Hnow.
    { apply list_elem_of_bind in Hin as (r & Hin & _). pose proof (node_calls_now r) as H. rewrite Forall_forall in H. by apply H. }
    specialize (Hlast cl ltac:(set_solver) Hcl). unfold Add, staleTrackerAfter. unfold Minute, Second in *. go_lia.
Qed.
End cycles.

Section run.
Context (world : trackerKey -> life) (Hworld : forall tk, only_grows (world tk)).
Context (key : Key) (tks : list trackerKey) (Htks : NoDup tks) (resumed : bool) (until : Time) (core0 covered0 : Z).
Abbreviation good := (good world key tks resumed until core0 covered0).

Lemma calls_now c : Forall (fun cl => cl_now cl = cy_now c) (calls c).
Proof.
  unfold calls. destruct (cy_cancelled c); [constructor|]. apply Forall_forall. intros cl (r & Hin & _)%list_elem_of_bind.
  pose proof (node_calls_now c r) as H. rewrite Forall_forall in H. by apply H.
Qed.

Lemma good_run es done p out :
  Forall (fits world key tks) (calls_of es) -> StronglySorted Z.le (cy_now <$> polls_of es) -> attended done (polls_of es) ->
  (resumed = true -> Forall (fun c => cy_now c < until) (polls_of es)) -> Forall (fun c => timely c done) (polls_of es) ->
  good done p out ->
  let s := foldl poller_step (p, out) es in good (done ++ calls_of es) s.1 s.2.
Proof.
  revert done p out. induction es as [|[c|now] es IH]; intros done p out Hf Hsort Hatt Hu Ht Hg; [by rewrite app_nil_r| |].
  - unfold calls_of in *. cbn in *. apply Forall_app in Hf as [Hf1 Hf]. apply StronglySorted_inv in Hsort as [Hsort Hle].
    destruct Hatt as [Ha Hatt]. apply Forall_cons in Ht as [Ht1 Ht]. rewrite app_assoc. apply IH; [done|done|done| | |].
    + intros Hr. specialize (Hu Hr). by apply Forall_cons in Hu as [_ ?].
    + apply Forall_forall. intros c' Hc'. pose proof (proj1 (Forall_forall _ _) Hle) as Hle'. rewrite Forall_forall in Ht.
      apply Forall_app. split; [by apply Ht|].
      eapply Forall_impl; [apply calls_now|]. cbn. intros cl ->. apply Hle'. by apply list_elem_of_fmap_2.
    + apply good_poll; [done|done|done|done| |done|done]. intros Hr. specialize (Hu Hr). by apply Forall_cons in Hu as [? _].
  - cbn [foldl]. destruct Hg as [Ha Hs]. destruct (accounted_flush world key tks resumed until core0 covered0 done p out now Ha) as [Ha' Htr].
    apply (IH done); [done..|]. split; [exact Ha'|]. unfold seen in *. cbn [poller_step fst snd]. by rewrite Htr.
Qed.
End run.

(** ** Properties *)

(** C3. CPU accounting is exact whatever the polling cadence.  Take a poller that
    tracks nothing yet, and any run of polling cycles and flushes: nodes that fail,
    pods that are not known yet, containers of any number of workloads, answers
    re-served, out of date, without a CPU block or without memory, cycles that are
    cancelled.  Then what the open windows of a key and those closed hold together
    has grown by exactly the sum, over the containers of that key, of what each CPU
    counter reads at the latest instant answered, covered for exactly the time since
    each started; for a key whose window was resumed, for as long as it is, by the
    growth since the first answer of each container.  Sums are int64's.  The
    premises: answers tell the counters as they were, which only grow (no container
    starts over), and a pressure-stall block answered once is answered again
    ([cpu_lost_when_psi_is_missing] is what happens otherwise); the poller's clock does
    not run backwards; and no container once answered goes unanswered for longer than
    [staleTrackerAfter] at a later cycle, for its baseline is then forgotten and it is
    counted from its start again ([swept_baseline_counts_twice]). *)
Theorem cpu_exact_regardless_of_cadence (world : trackerKey -> life) (p : UsagePoller) (key : Key) (tks : list trackerKey)
    (es : list poller_event) :
  (forall tk, only_grows (world tk)) -> keyed p -> 0 < window_length p -> tracker p = ∅ ->
  NoDup tks -> Forall (fits world key tks) (calls_of es) ->
  StronglySorted Z.le (cy_now <$> polls_of es) -> attended [] (polls_of es) ->
  (key ∈ resumedKeys p -> Forall (fun c => cy_now c < resumedUntil p) (polls_of es)) ->
  let '(p', closed) := poller_run es p in
  let resumed := bool_decide (key ∈ resumedKeys p) in
  wrap64 (under Accumulator.core key p' + list_sum (of_key Accumulator.core key) closed) =
    wrap64 (under Accumulator.core key p + list_sum (fun tk => credited_cpu resumed (world tk) (readings (calls_of es) tk)) tks) /\
  wrap64 (under Accumulator.covered key p' + list_sum (of_key Accumulator.covered key) closed) =
    wrap64 (under Accumulator.covered key p + list_sum (fun tk => credited_time resumed (world tk) (readings (calls_of es) tk)) tks).
Proof.
  intros Hworld Hk Hw Ht Htks Hf Hsort Hatt Hu.
  assert (Hg : good world key tks (bool_decide (key ∈ resumedKeys p)) (resumedUntil p)
                 (under Accumulator.core key p) (under Accumulator.covered key p) [] p []).
  { assert (Hz : forall f, (forall b l, f b l [] = 0) -> gained world tks (bool_decide (key ∈ resumedKeys p)) f [] = 0).
    { intros f Hzero. unfold gained, readings. cbn. clear -Hzero. induction tks as [|tk l IH]; [done|]. by rewrite list_sum_cons, IH, Hzero. }
    split; [|intros tk st; by rewrite Ht]. split; cbn [fst snd]; [done|done|done|done| |..].
    - intros tk. by rewrite Ht.
    - by rewrite Hz.
    - by rewrite Hz. }
  apply (good_run world Hworld key tks Htks _ _ _ _ es [] p []) in Hg as [[_ _ _ _ _ Hcore Hcov] _]; [|done|done|done| |].
  - unfold poller_run in *. destruct (foldl poller_step (p, []) es) as [p' out]. by split.
  - intros Hr%bool_decide_eq_true. by apply Hu.
  - apply Forall_true. intros c. constructor.
Qed.

Definition demo_key : Key := mkKey "shop" "Deployment" "web" "app".
Definition demo_start : Time := unixEpoch + 480000 * Hour.
(** Half a core, from the start on. *)
Definition demo_counter (t : Time) : Z := Z.max 0 (t - demo_start) / 2.
Definition demo_life : life := mkLife demo_start demo_counter (fun _ => None).
Lemma demo_life_grows : only_grows demo_life.
Proof.
  split; [vm_compute; discriminate|]. intros a b Ha Hab. cbn. unfold demo_counter. split; [|done].
  split; [apply Z.div_pos; lia|apply Z.div_le_mono; lia].
Defined.

Definition reading (s : Z) : ContainerStats :=
  mkContainerStats "app" demo_start (Some (mkCPUStats (demo_start + s * Second) (Some (demo_counter (demo_start + s * Second))) None))
    (Some (mkMemoryStats (demo_start + s * Second) (Some 4096) None)).
(** A cycle at [now] seconds: the answers of the replicas' nodes, [None] for a failure. *)
Definition demo_pods (uid : string) : option (string * WorkloadRef) :=
  if bool_decide (uid = "stranger"%string) then None else Some ("shop"%string, mkWorkloadRef "Deployment" "web").
Definition demo_cycle (now : Z) (answers : list (option (string * Z))) : cycle :=
  mkCycle false demo_pods (fun _ => false) (fun _ _ => None)
    ((fun a => mkNodeReads "n" ((fun x => [mkPodStats x.1 [reading x.2] None]) <$> a) None) <$> answers) (demo_start + now * Second).

Definition demo_replicas : list trackerKey := [("u1", "app"); ("u2", "app")]%string.
(** The second replica is missed once, an answer of the first is re-served, a
    window is flushed in between, and a pod nobody collects is answered. *)
Definition demo_run : list poller_event :=
  [Poll (demo_cycle 31 [Some ("u1", 30); Some ("u2", 29)]%string); Poll (demo_cycle 61 [Some ("u1", 60); None]%string);
   Flush (demo_start + 2 * Hour); Poll (demo_cycle 91 [Some ("u1", 60); Some ("u2", 90); Some ("stranger", 90)]%string)].

Lemma cpu_exact_regardless_of_cadence_witness :
  let s := poller_run demo_run NewUsagePoller in
  wrap64 (under Accumulator.core demo_key s.1 + list_sum (of_key Accumulator.core demo_key) s.2) = 75 * Second /\
  wrap64 (under Accumulator.covered demo_key s.1 + list_sum (of_key Accumulator.covered demo_key) s.2) = 150 * Second.
Proof.
  pose proof (cpu_exact_regardless_of_cadence (fun _ => demo_life) NewUsagePoller demo_key demo_replicas demo_run) as H.
  cbn zeta. destruct (poller_run demo_run NewUsagePoller) as [p' out]. cbn [fst snd]. destruct H as [H1 H2].
  - intros tk. exact demo_life_grows.
  - apply map_Forall_empty.
  - reflexivity.
  - reflexivity.
  - apply (bool_decide_unpack _). vm_compute. exact I.
  - repeat constructor; try (vm_compute; intuition discriminate); cbn; set_solver.
  - repeat constructor; vm_compute; discriminate.
  - apply (bool_decide_unpack _). vm_compute. exact I.
  - intros H. by apply not_elem_of_empty in H.
  - rewrite H1, H2. split; vm_compute; reflexivity.
Defined.


(** A container whose node fails for longer than [staleTrackerAfter] loses its
    baseline to the sweep, and the answer after that is counted from its start
    again: of 600 seconds at half a core, the first minute is counted twice. *)
Example swept_baseline_counts_twice :
  let failing now := Poll (demo_cycle now [None]) in
  let s := poller_run [Poll (demo_cycle 61 [Some ("u1"%string, 60)]); failing 121; failing 241; failing 361; failing 481;
                       Poll (demo_cycle 601 [Some ("u1"%string, 600)])] NewUsagePoller in
  under Accumulator.core demo_key s.1 = 300 * Second + 30 * Second /\ under Accumulator.covered demo_key s.1 = 660 * Second.
Proof. split; vm_compute; reflexivity. Qed.

(** A resumed window is not counted twice (ADR 0072): for a key whose open
    window this process adopted, the first sight of a container only takes a new
    baseline — no CPU, no stall time and no throttling is accrued, whatever the
    counters read; only the memory gauge, which is an instant, is observed. *)
Theorem resumed_key_rebaselines (p : UsagePoller) (key : Key) :
  key ∈ resumedKeys p ->
  (forall tk c now, tracker p !! tk = None ->
     acc (ingestContainer tk key c now p) = memory_gauge key (cs_memory c) (acc p)) /\
  (forall LookupPodByName ks uid workload now,
     LookupPodByName (ck_namespace ks.1) (ck_pod ks.1) = Some (uid, workload) ->
     mkKey (ck_namespace ks.1) (Kind workload) (Name workload) (ck_container ks.1) = key ->
     throttle p !! (uid, ck_container ks.1) = None ->
     acc (ingest_sample LookupPodByName now p ks) = acc p).
Proof.
  intros Hk. assert (attributableFromStart p key = false) as Ha.
  { unfold attributableFromStart. by rewrite bool_decide_eq_true_2. }
  split.
  - intros tk c now Ht. unfold ingestContainer. rewrite Ht. cbn [default].
    destruct (cs_cpu c) as [cpu|].
    + destruct (first_cpu_resumed key (StartTime c) cpu p (setSeen now noCounters) Ha eq_refl) as (Hacc & Hr & Hm1 & Hm2).
      destruct (ingest_cpu _ _ _ _ _) as [p1 st1]. cbn [fst snd] in *.
      destruct (cs_memory c) as [m|]; [|exact Hacc].
      pose proof (first_memory_resumed key (StartTime c) m p1 st1
                    ltac:(unfold attributableFromStart in *; by rewrite Hr) Hm1) as Hm.
      rewrite Hacc in Hm. by destruct (ingest_memory _ _ _ _ _).
    + destruct (cs_memory c) as [m|]; [|done].
      pose proof (first_memory_resumed key (StartTime c) m p (setSeen now noCounters) Ha eq_refl) as Hm.
      by destruct (ingest_memory _ _ _ _ _).
  - intros LookupPodByName [ck sample] uid workload now HL Hkey Ht. cbn [fst] in *. unfold ingest_sample.
    destruct (negb _ || negb _); [done|]. rewrite HL. cbn zeta.
    change (throttle (markSignal "throttling" p)) with (throttle p). rewrite Ht, Hkey. cbn [default ts].
    change (IsZero 0) with true. cbn iota.
    change (attributableFromStart (markSignal "throttling" p) key) with (attributableFromStart p key).
    rewrite Ha, andb_false_r. done.
Qed.

Definition cpu_answer (psi : PSIStats) (after : Duration) : ContainerStats :=
  mkContainerStats "app" demo_start (Some (mkCPUStats (demo_start + after) (Some (demo_counter (demo_start + after))) psi)) None.

Definition resumed_poller : UsagePoller :=
  (Seed NewUsagePoller [newRecord demo_key (demo_start + Hour) 3600]).1.

Lemma resumed_key_rebaselines_witness :
  acc (ingestContainer ("uid", "app")%string demo_key (cpu_answer None Hour) (demo_start + Hour) resumed_poller) = acc resumed_poller.
Proof.
  assert (demo_key ∈ resumedKeys resumed_poller) as Hk.
  { apply (bool_decide_unpack _). vm_compute. exact I. }
  apply (proj1 (resumed_key_rebaselines resumed_poller demo_key Hk)
           ("uid", "app")%string
           (cpu_answer None Hour) (demo_start + Hour)).
  reflexivity.
Defined.

(** A pressure-stall block that goes missing costs CPU: an answer without PSI
    after one that had it reads as a container restart, so the consumption since
    the previous answer is dropped although the CPU counter only grew — and no
    later answer brings it back. *)
Theorem cpu_lost_when_psi_is_missing (tk : trackerKey) (key : Key) (p : UsagePoller) (st : counterState)
    (c : ContainerStats) (now at_ counter : Z) :
  tracker p !! tk = Some st -> 0 < cpuTime st < at_ -> 0 < cpuPSI st -> cpuCounter st <= counter ->
  cs_cpu c = Some (mkCPUStats at_ (Some counter) None) -> cs_memory c = None ->
  let p' := ingestContainer tk key c now p in
  acc p' = acc p /\
  exists st', tracker p' !! tk = Some st' /\ cpuTime st' = at_ /\ cpuCounter st' = counter.
Proof.
  intros Hst Ht Hp Hc Hcpu Hmem. unfold ingestContainer. rewrite Hst, Hcpu, Hmem. cbn [default].
  unfold ingest_cpu. cbn [UsageCoreNanoSeconds cpu_at cpu_psi setSeen cpuTime cpuCounter cpuPSI default from_option id].
  change (default 0 None) with 0.
  unfold IsZero, After. destruct (Z.eqb_spec (cpuTime st) 0); [lia|].
  destruct (Z.ltb_spec (cpuTime st) at_); [|lia]. cbn [negb].
  assert ((counter <? cpuCounter st) || (0 <? cpuPSI st) = true) as ->
    by (apply orb_true_iff; right; lia).
  split; [done|]. eexists. split; [apply lookup_insert_eq|done].
Qed.

Lemma cpu_lost_when_psi_is_missing_witness :
  let p := ingestContainer ("uid", "app")%string demo_key
             (cpu_answer (Some 7) Minute)
             (demo_start + Minute) NewUsagePoller in
  acc (ingestContainer ("uid", "app")%string demo_key
         (cpu_answer None (2 * Minute))
         (demo_start + 2 * Minute) p) = acc p.
Proof.
  intros p.
  apply (cpu_lost_when_psi_is_missing ("uid", "app")%string demo_key p
           (mkCounterState (demo_start + Minute) (demo_counter (demo_start + Minute)) 7 0 0 (demo_start + Minute))
           (cpu_answer None (2 * Minute))
           (demo_start + 2 * Minute) (demo_start + 2 * Minute) (demo_counter (demo_start + 2 * Minute)));
    [vm_compute; reflexivity|vm_compute; split; reflexivity|reflexivity|vm_compute; discriminate|reflexivity..].
Defined.
