(* ===== verification/Journal.v ===== *)
(** * The open-window core the journals share

    Seven journals under src/internal/journal keep a map of open records keyed
    by identity and window start, and repeat the same three operations over it:
    [Snapshots] (copies of every open record, sorted), [CloseBefore] (remove and
    return the ended windows) and [Resume] (adopt a previous process's records,
    never over an observation of this one).  [JournalRecord] is what such a
    journal has to say about its record type, [JournalLaws] what the other
    components rely on; the theorems here are proved against that interface and
    each journal file discharges it. *)

From stdpp Require Import base list gmap sorting.
From Stdlib Require Import ZArith Lia.
From S2P Require Import Prelude GoTime.

Local Open Scope Z_scope.

Class JournalRecord (R K O : Type) := {
  record_key : R -> K;          (** the key of the open map, window start included *)
  record_start : R -> Time;     (** [WindowStart] *)
  record_clone : R -> R;        (** the copy handed out *)
  record_adopt : R -> R;        (** what [Resume] files for a recovered record *)
  record_less : R -> R -> bool; (** the [less] of the payload order *)
  sort_key : R -> O;            (** the tuple [record_less] compares *)
  key_of_sort : O -> K;
}.

Class JournalLaws (R K O : Type) `{JournalRecord R K O, GoOrderLaws O} : Prop := {
  less_is_sort_key : forall a b : R, record_less a b = go_lt (sort_key a) (sort_key b);
  key_from_sort : forall r : R, record_key r = key_of_sort (sort_key r);
  sort_key_clone : forall r : R, sort_key (record_clone r) = sort_key r;
  sort_key_adopt : forall r : R, sort_key (record_adopt r) = sort_key r;
  start_clone : forall r : R, record_start (record_clone r) = record_start r;
}.

(** ** Operations *)

Section ops.
Context {R K O : Type} `{JournalRecord R K O} `{Countable K}.
Implicit Types (m : gmap K R) (r : R) (rs : list R).

Definition snapshots m : list R := sort_slice record_less (record_clone <$> map_values m).

(** [rec.WindowStart.Add(windowLength).After(now)] is the test that keeps a record. *)
Definition still_open (len : Duration) (now : Time) (r : R) : bool :=
  After (Add (record_start r) len) now.

Definition close_before (len : Duration) (now : Time) m : list R * gmap K R :=
  (sort_slice record_less
     (record_clone <$> map_values (filter (fun kr => ~ still_open len now kr.2 = true) m)),
   filter (fun kr => still_open len now kr.2 = true) m).

Definition resume_one (acc : gmap K R * Z) (r : R) : gmap K R * Z :=
  let '(m, seeded) := acc in
  match m !! record_key r with
  | Some _ => (m, seeded)
  | None => (<[record_key r := record_adopt r]> m, seeded + 1)
  end.

Definition resume m rs : gmap K R * Z := foldl resume_one (m, 0) rs.

(** Every record sits under the key read off its own fields. *)
Definition filed m : Prop := forall k r, m !! k = Some r -> record_key r = k.
End ops.

(** ** What every journal promises *)

Section laws.
Context {R K O : Type} `{JournalLaws R K O} `{Countable K}.
Implicit Types (m : gmap K R) (r : R) (rs : list R).

Lemma key_clone r : record_key (record_clone r) = record_key r.
Proof. by rewrite !key_from_sort, sort_key_clone. Qed.

Lemma key_adopt r : record_key (record_adopt r) = record_key r.
Proof. by rewrite !key_from_sort, sort_key_adopt. Qed.

Lemma filed_filter (P : K * R -> Prop) `{!forall x, Decision (P x)} m :
  filed m -> filed (filter P m).
Proof. intros Hf k r [Hr _]%map_lookup_filter_Some. by apply Hf. Qed.

Lemma filed_insert m r : filed m -> filed (<[record_key r := r]> m).
Proof.
  intros Hf k r' Hr. destruct (decide (record_key r = k)) as [<-|Hne].
  - rewrite lookup_insert_eq in Hr. congruence.
  - rewrite lookup_insert_ne in Hr by done. by apply Hf.
Qed.

Lemma filed_keys m : filed m -> NoDup (record_key <$> map_values m).
Proof. intros Hf. apply (NoDup_keys_of_values record_key id); [done|apply _]. Qed.

Lemma NoDup_sort_keys (l : list R) : NoDup (record_key <$> l) -> NoDup (sort_key <$> l).
Proof.
  intros Hnd. apply (NoDup_fmap_1 key_of_sort).
  rewrite <-list_fmap_compose. erewrite list_fmap_ext; [exact Hnd|].
  intros i r _. cbn. symmetry. apply key_from_sort.
Qed.

Lemma keys_of_clones (l : list R) : record_key <$> (record_clone <$> l) = record_key <$> l.
Proof. rewrite <-list_fmap_compose. apply list_fmap_ext. intros i r _. apply key_clone. Qed.

Lemma snapshots_perm m : snapshots m ≡ₚ record_clone <$> map_values m.
Proof. apply (sort_slice_sorted record_less sort_key less_is_sort_key). Qed.

Lemma elem_of_snapshots m r :
  r ∈ snapshots m <-> exists k r0, m !! k = Some r0 /\ r = record_clone r0.
Proof.
  rewrite snapshots_perm, list_elem_of_fmap. split.
  - intros (r0 & -> & [k Hk]%elem_of_map_values). by exists k, r0.
  - intros (k & r0 & Hk & ->). exists r0. split; [done|]. apply elem_of_map_values. by exists k.
Qed.

(** Whatever order the map was iterated in and whichever sort was used, the
    payload is the same. *)
Lemma snapshots_unique m l out :
  filed m -> l ≡ₚ map_values m -> sorted_result record_less (record_clone <$> l) out ->
  out = snapshots m.
Proof.
  intros Hf Hl Hout.
  assert (NoDup (sort_key <$> (record_clone <$> l))) as Hnd.
  { apply NoDup_sort_keys. rewrite keys_of_clones, Hl. by apply filed_keys. }
  rewrite (sort_slice_unique record_less sort_key less_is_sort_key _ _ Hnd Hout).
  apply (sort_slice_perm record_less sort_key less_is_sort_key _ _ Hnd). by rewrite Hl.
Qed.

Lemma snapshots_keys m : record_key <$> snapshots m ≡ₚ record_key <$> map_values m.
Proof. by rewrite snapshots_perm, keys_of_clones. Qed.

Lemma close_before_perm len now m :
  (close_before len now m).1 ++ snapshots (close_before len now m).2 ≡ₚ snapshots m.
Proof.
  rewrite !snapshots_perm. cbn [fst snd close_before].
  rewrite (proj1 (sort_slice_sorted record_less sort_key less_is_sort_key _)).
  rewrite <-fmap_app. apply fmap_Permutation.
  rewrite (Permutation_app_comm (map_values _)).
  apply map_values_filter_split.
Qed.

Lemma close_before_closed len now m :
  Forall (fun r => record_start r + len <= now) (close_before len now m).1.
Proof.
  cbn. rewrite (proj1 (sort_slice_sorted record_less sort_key less_is_sort_key _)).
  rewrite Forall_fmap, Forall_forall. intros r [k [_ Hr]%map_lookup_filter_Some]%elem_of_map_values.
  cbn in *. rewrite start_clone. unfold still_open, After, Add in Hr.
  apply not_true_is_false, Z.ltb_ge in Hr. lia.
Qed.

Lemma close_before_open len now m k r :
  (close_before len now m).2 !! k = Some r -> m !! k = Some r /\ now < record_start r + len.
Proof.
  cbn. intros [Hr Ho]%map_lookup_filter_Some. split; [done|].
  unfold still_open, After, Add in Ho. apply Z.ltb_lt in Ho. cbn in Ho. lia.
Qed.

Lemma resume_one_lookup m n r k :
  (resume_one (m, n) r).1 !! k =
    match m !! k with Some x => Some x | None => if decide (record_key r = k) then Some (record_adopt r) else None end.
Proof.
  unfold resume_one. destruct (m !! record_key r) as [x|] eqn:Hx; cbn.
  - destruct (m !! k) eqn:Hk; [done|]. case_decide; [congruence|done].
  - case_decide as Hd; [subst; by rewrite Hx, lookup_insert_eq|].
    rewrite lookup_insert_ne by done. by destruct (m !! k).
Qed.

(** The first recovered record of a key is the one adopted, and only where the
    map had none. *)
Lemma resume_lookup m rs n k :
  (foldl resume_one (m, n) rs).1 !! k =
    match m !! k with
    | Some x => Some x
    | None => record_adopt <$> head (filter (fun r => record_key r = k) rs)
    end.
Proof.
  revert m n. induction rs as [|r rs IH]; intros m n; cbn [foldl].
  { cbn. by destruct (m !! k). }
  destruct (resume_one (m, n) r) as [m' n'] eqn:E. rewrite IH.
  pose proof (resume_one_lookup m n r k) as Hl. rewrite E in Hl. cbn in Hl. rewrite Hl.
  rewrite filter_cons. destruct (m !! k); [done|]. by case_decide.
Qed.

Lemma resume_count m rs n :
  (foldl resume_one (m, n) rs).2 = n + Z.of_nat (size (foldl resume_one (m, n) rs).1) - Z.of_nat (size m).
Proof.
  revert m n. induction rs as [|r rs IH]; intros m n; cbn [foldl]; [cbn; lia|].
  destruct (resume_one (m, n) r) as [m' n'] eqn:E. rewrite IH.
  unfold resume_one in E. destruct (m !! record_key r) eqn:Hr; simplify_eq; [lia|].
  rewrite map_size_insert_None by done. lia.
Qed.

Lemma resume_filed m rs n : filed m -> filed (foldl resume_one (m, n) rs).1.
Proof.
  revert m n. induction rs as [|r rs IH]; intros m n Hf; cbn [foldl]; [done|].
  destruct (resume_one (m, n) r) as [m' n'] eqn:E. apply IH.
  unfold resume_one in E. destruct (m !! record_key r) eqn:Hr; simplify_eq; [done|].
  rewrite <-(key_adopt r) at 1. by apply filed_insert.
Qed.

Lemma filter_keys_absent (l : list R) k :
  k ∉ record_key <$> l -> filter (fun r => record_key r = k) l = [].
Proof.
  induction l as [|x l IH]; [done|]. rewrite fmap_cons, not_elem_of_cons. intros [Hx Hl].
  rewrite filter_cons, decide_False by congruence. by apply IH.
Qed.

Lemma filter_keys_once (l : list R) r :
  NoDup (record_key <$> l) -> r ∈ l -> filter (fun x => record_key x = record_key r) l = [r].
Proof.
  induction l as [|x l IH]; intros Hnd Hin; [by apply elem_of_nil in Hin|].
  rewrite fmap_cons in Hnd. apply NoDup_cons in Hnd as [Hx Hnd]. rewrite filter_cons.
  apply elem_of_cons in Hin as [<-|Hin].
  - rewrite decide_True by done. by rewrite filter_keys_absent.
  - rewrite decide_False; [by apply IH|]. intros He. apply Hx. rewrite He.
    by apply list_elem_of_fmap_2.
Qed.

(** A filed map holds exactly one record of each of its keys. *)
Lemma filter_key_values m k :
  filed m -> filter (fun r => record_key r = k) (map_values m) = option_list (m !! k).
Proof.
  intros Hf. destruct (m !! k) as [r|] eqn:Hk; cbn.
  - rewrite <-(Hf _ _ Hk). apply filter_keys_once; [by apply filed_keys|].
    apply elem_of_map_values. by exists k.
  - apply filter_keys_absent. rewrite list_elem_of_fmap.
    intros (r & -> & [k' Hr]%elem_of_map_values). pose proof (Hf _ _ Hr). congruence.
Qed.

Lemma filter_key_clones (l : list R) k :
  filter (fun r => record_key r = k) (record_clone <$> l)
  = record_clone <$> filter (fun r => record_key r = k) l.
Proof.
  induction l as [|r l IH]; [done|]. cbn [fmap list_fmap].
  rewrite !filter_cons, key_clone, IH. by case_decide.
Qed.

(** Resuming an empty journal from a snapshot restores every open record. *)
Lemma resume_snapshots m :
  filed m -> resume ∅ (snapshots m) = ((record_adopt ∘ record_clone) <$> m, Z.of_nat (size m)).
Proof.
  intros Hf.
  assert ((resume ∅ (snapshots m)).1 = (record_adopt ∘ record_clone) <$> m) as Hm.
  { apply map_eq. intros k. unfold resume. rewrite resume_lookup, lookup_empty, lookup_fmap.
    assert (filter (fun r => record_key r = k) (snapshots m) ≡ₚ record_clone <$> option_list (m !! k)) as Hp.
    { by rewrite snapshots_perm, filter_key_clones, filter_key_values. }
    destruct (m !! k); cbn in *.
    - apply Permutation_singleton_r in Hp. by rewrite Hp.
    - apply Permutation_nil_r in Hp. by rewrite Hp. }
  rewrite (surjective_pairing (resume ∅ (snapshots m))), Hm. f_equal.
  unfold resume. rewrite resume_count. fold (resume (∅ : gmap K R) (snapshots m)).
  rewrite Hm, map_size_fmap, map_size_empty. lia.
Qed.

(** Resuming needs no order: which records are there decides what is restored. *)
Lemma resume_members m rs :
  filed m -> (forall r, r ∈ rs <-> exists k, m !! k = Some r) ->
  (resume ∅ rs).1 = record_adopt <$> m.
Proof.
  intros Hf Hin. apply map_eq. intros k. unfold resume. rewrite resume_lookup, lookup_empty, lookup_fmap.
  destruct (head (filter (fun r => record_key r = k) rs)) as [r|] eqn:E.
  - apply head_Some_elem_of, list_elem_of_filter in E as [<- [k' Hk]%Hin]. by rewrite (Hf _ _ Hk), Hk.
  - destruct (m !! k) as [r|] eqn:Hk; [|done]. exfalso.
    assert (r ∈ filter (fun r => record_key r = k) rs) as Hr.
    { apply list_elem_of_filter. split; [by apply Hf|]. apply Hin. by exists k. }
    apply head_None in E. rewrite E in Hr. by apply elem_of_nil in Hr.
Qed.
End laws.

(** ** Journals of single events

    Three of the journals keep one record per event and no counters: a later
    event of the same key replaces the record.  [event_record] is [None] for an
    event the journal does not accept. *)

Class EventJournal (E R K O : Type) `{JournalRecord R K O} := event_record : Duration -> E -> option R.

Section events.
Context {E R K O : Type} `{JournalLaws R K O, !EventJournal E R K O} `{Countable K}.
Context (len : Duration).
Implicit Types (m : gmap K R) (e : E) (es : list E).

Definition file_event m e : gmap K R :=
  match event_record len e with
  | None => m
  | Some r => <[record_key r := r]> m
  end.

Definition file_events m es : gmap K R := foldl file_event m es.

(** Two events that fall under one key report the same thing. *)
Definition consistent es : Prop :=
  forall r r', r ∈ omap (event_record len) es -> r' ∈ omap (event_record len) es ->
    record_key r = record_key r' -> r = r'.

Lemma file_events_filed m es : filed m -> filed (file_events m es).
Proof.
  revert m. induction es as [|e es IH]; intros m Hf; [done|]. cbn. apply IH.
  unfold file_event. destruct (event_record len e); [by apply filed_insert|done].
Qed.

Lemma file_events_lookup m es k :
  file_events m es !! k =
    match last (filter (fun r => record_key r = k) (omap (event_record len) es)) with
    | Some r => Some r
    | None => m !! k
    end.
Proof.
  induction es as [|e es IH] using rev_ind; [done|].
  unfold file_events in *. rewrite foldl_app, omap_app, filter_app, last_app. cbn [foldl].
  replace (omap (event_record len) [e]) with (option_list (event_record len e))
    by (cbn; by destruct (event_record len e)).
  unfold file_event at 1.
  destruct (event_record len e) as [r|] eqn:Er; [|exact IH].
  change (option_list (Some r)) with [r]. rewrite filter_cons, filter_nil. case_decide as Hk; cbn [last].
  - subst. by rewrite lookup_insert_eq.
  - by rewrite lookup_insert_ne.
Qed.

(** Filing again what is already filed changes nothing. *)
Lemma file_events_again m es :
  (forall r, r ∈ omap (event_record len) es -> m !! record_key r = Some r) -> file_events m es = m.
Proof.
  revert m. induction es as [|e es IH]; intros m Hin; [done|]. cbn [file_events foldl].
  assert (file_event m e = m) as ->.
  { unfold file_event. destruct (event_record len e) as [r|] eqn:Er; [|done].
    apply insert_id. apply Hin. cbn. rewrite Er. apply list_elem_of_here. }
  apply IH. intros r Hr. apply Hin. cbn. destruct (event_record len e); [by apply list_elem_of_further|done].
Qed.

Lemma file_events_present es r :
  consistent es -> r ∈ omap (event_record len) es -> file_events ∅ es !! record_key r = Some r.
Proof.
  intros Hc Hr. rewrite file_events_lookup.
  destruct (last _) as [r'|] eqn:El.
  - apply last_Some_elem_of, list_elem_of_filter in El as [Hk Hr']. f_equal. by apply Hc.
  - apply last_None in El. exfalso. apply (filter_nil_not_elem_of _ _ r El); done.
Qed.

(** Resuming the snapshots and being told some of the events again. *)
Lemma replay_absorbed es es' :
  (forall r : R, record_adopt (record_clone r) = r) ->
  consistent es -> es' ⊆ es ->
  file_events (resume ∅ (snapshots (file_events ∅ es))).1 es' = file_events ∅ es.
Proof.
  intros Hid Hc Hsub. rewrite resume_snapshots by by apply file_events_filed.
  cbn [fst]. rewrite (map_fmap_ext _ id) by (intros; apply Hid). rewrite map_fmap_id.
  apply file_events_again. intros r (e & He & Hr)%list_elem_of_omap.
  apply file_events_present; [done|]. apply list_elem_of_omap. exists e. split; [by apply Hsub|done].
Qed.
End events.
