(* ===== verification/Restarts.v ===== *)
(** The restart journal of [internal/journal/restarts.go]: how often each
    container restarted within a window, and for which of the known reasons. *)

From stdpp Require Import prelude gmap strings sorting.
From Stdlib Require Import ZArith Lia.
From S2P Require Import Prelude GoTime Model Journal.
Local Open Scope Z_scope.
Local Open Scope go_scope.

Definition UnknownReason : string := "other".

Definition knownReasons : list string :=
  ["OOMKilled"; "Error"; "Completed"; "ContainerCannotRun"; "ContainerStatusUnknown";
   "DeadlineExceeded"; "StartError"; "Evicted"]%string.

Record Key := mkKey { Namespace : string; Pod : string; Container : string }.

#[export] Instance Key_eq_dec : EqDecision Key.
Proof. solve_decision. Defined.
#[export] Instance Key_countable : Countable Key.
Proof.
  refine (inj_countable' (fun k => (Namespace k, Pod k, Container k))
    (fun '(a, b, c) => mkKey a b c) _). by intros [].
Defined.

(** [Reasons] is a Go map and may be nil, which a decoded record's can be:
    [None] is the nil map. *)
Record RestartRecord := mkRestartRecord {
  RKey : Key;
  Workload : WorkloadRef;
  WindowStart : Time;
  WindowSeconds : Z;
  Restarts_ : Z;
  Reasons : option (gmap string Z);
  ReasonsUnobserved : Z;
  LastExitCode : option Z;
}.

Abbreviation openKey := (Key * Z)%type.

Record Restarts := mkRestarts {
  windowLength : Duration;
  open : gmap openKey RestartRecord;
}.

Definition NewRestarts (len : Duration) : option Restarts :=
  if len <=? 0 then None else Some (mkRestarts len ∅).

Definition bucket (reason : string) : string :=
  if bool_decide (reason ∈ knownReasons) then reason else UnknownReason.

Definition addRestarts (n : Z) (r : RestartRecord) : RestartRecord :=
  mkRestartRecord (RKey r) (Workload r) (WindowStart r) (WindowSeconds r) (Restarts_ r +w n)
    (Reasons r) (ReasonsUnobserved r) (LastExitCode r).
Definition addUnobserved (n : Z) (r : RestartRecord) : RestartRecord :=
  mkRestartRecord (RKey r) (Workload r) (WindowStart r) (WindowSeconds r) (Restarts_ r)
    (Reasons r) (ReasonsUnobserved r +w n) (LastExitCode r).

(** [rec.Reasons[bucket(reason)]++]; writing a nil map panics. *)
Definition countReason (reason : string) (r : RestartRecord) : option RestartRecord :=
  counts ← Reasons r;
  Some (mkRestartRecord (RKey r) (Workload r) (WindowStart r) (WindowSeconds r) (Restarts_ r)
    (Some (<[bucket reason := default 0 (counts !! bucket reason) +w 1]> counts))
    (ReasonsUnobserved r) (LastExitCode r)).

Definition setExitCode (code : option Z) (r : RestartRecord) : RestartRecord :=
  match code with
  | None => r
  | Some _ => mkRestartRecord (RKey r) (Workload r) (WindowStart r) (WindowSeconds r) (Restarts_ r)
                (Reasons r) (ReasonsUnobserved r) code
  end.

(** What one event does to its record. *)
Definition fold_event (e : ContainerRestart) (r : RestartRecord) : option RestartRecord :=
  let r := addRestarts (crRestarts e) r in
  if bool_decide (crReason e = ""%string) then Some (addUnobserved (crRestarts e) r)
  else
    r ← countReason (crReason e) r;
    Some (setExitCode (crExitCode e) (addUnobserved (crRestarts e -w 1) r)).

Definition event_start (len : Duration) (e : ContainerRestart) : Time := Truncate (crObservedAt e) len.
Definition event_key (len : Duration) (e : ContainerRestart) : openKey :=
  (mkKey (crNamespace e) (crPod e) (crContainer e), UnixNano (event_start len e)).

Definition new_record (len : Duration) (e : ContainerRestart) : RestartRecord :=
  mkRestartRecord (event_key len e).1 (crWorkload e) (event_start len e) (Z.quot len Second)
    0 (Some ∅) 0 None.

(** [None] is a panic. *)
Definition Observe (j : Restarts) (e : ContainerRestart) : option Restarts :=
  if crRestarts e <=? 0 then Some j
  else
    let key := event_key (windowLength j) e in
    let rec := default (new_record (windowLength j) e) (open j !! key) in
    rec' ← fold_event e rec;
    Some (mkRestarts (windowLength j) (<[key := rec']> (open j))).

Definition clone (r : RestartRecord) : RestartRecord :=
  mkRestartRecord (RKey r) (Workload r) (WindowStart r) (WindowSeconds r) (Restarts_ r)
    (Reasons r) (ReasonsUnobserved r) (LastExitCode r).

(** A nil [Reasons] is replaced before the record is filed. *)
Definition adopt (r : RestartRecord) : RestartRecord :=
  let r := clone r in
  match Reasons r with
  | Some _ => r
  | None => mkRestartRecord (RKey r) (Workload r) (WindowStart r) (WindowSeconds r) (Restarts_ r)
              (Some ∅) (ReasonsUnobserved r) (LastExitCode r)
  end.

Definition less (a b : RestartRecord) : bool :=
  lexi (WindowStart a) (WindowStart b)
    (lexi (Namespace (RKey a)) (Namespace (RKey b))
      (lexi (Pod (RKey a)) (Pod (RKey b))
        (go_lt (Container (RKey a)) (Container (RKey b))))).

Abbreviation sortKey := (Time * (string * (string * string)))%type.

#[export] Instance restart_record : JournalRecord RestartRecord openKey sortKey := {
  record_key r := (RKey r, UnixNano (WindowStart r));
  record_start := WindowStart;
  record_clone := clone;
  record_adopt := adopt;
  record_less := less;
  sort_key r := (WindowStart r, (Namespace (RKey r), (Pod (RKey r), Container (RKey r))));
  key_of_sort k := (mkKey k.2.1 k.2.2.1 k.2.2.2, UnixNano k.1);
}.

#[export] Instance restart_laws : JournalLaws RestartRecord openKey sortKey.
Proof.
  split; try done.
  - intros r. by destruct r as [[]].
  - intros r. cbn. unfold adopt. by destruct (Reasons (clone r)).
Qed.

Definition Snapshots (j : Restarts) : list RestartRecord := snapshots (open j).

Definition Resume (j : Restarts) (records : list RestartRecord) : Restarts * Z :=
  let '(m, seeded) := resume (open j) records in (mkRestarts (windowLength j) m, seeded).

Definition CloseBefore (j : Restarts) (now : Time) : list RestartRecord * Restarts :=
  let '(out, m) := close_before (windowLength j) now (open j) in (out, mkRestarts (windowLength j) m).

(** Observing a sequence of events; [None] if one of them panicked. *)
Definition observe_all (j : Restarts) (es : list ContainerRestart) : option Restarts :=
  foldl (fun j e => j ≫= fun j => Observe j e) (Some j) es.

(** ** Accounting *)

Definition advance (e : ContainerRestart) : Z := Z.max 0 (crRestarts e).
Definition advances (es : list ContainerRestart) : Z := list_sum advance es.
Definition advances_at (len : Duration) (key : openKey) (es : list ContainerRestart) : Z :=
  advances (filter (fun e => event_key len e = key) es).

Definition countable_reason (reason : string) : Prop := reason ∈ UnknownReason :: knownReasons.

(** The reason breakdown and what it did not see add up to the total. *)
Definition accounted (total : Z) (r : RestartRecord) : Prop :=
  Restarts_ r = total /\ 0 <= ReasonsUnobserved r /\
  exists counts, Reasons r = Some counts /\
    map_sum id counts + ReasonsUnobserved r = total /\
    (forall reason c, counts !! reason = Some c -> 0 < c /\ countable_reason reason).

Definition journal_ok (len : Duration) (es : list ContainerRestart) (j : Restarts) : Prop :=
  windowLength j = len /\ filed (open j) /\
  map_sum Restarts_ (open j) = advances es /\
  (forall key r, open j !! key = Some r -> accounted (advances_at len key es) r) /\
  (forall key, open j !! key = None -> advances_at len key es = 0).

Lemma bucket_countable reason : countable_reason (bucket reason).
Proof.
  unfold bucket, countable_reason. rewrite elem_of_cons. case_bool_decide; [by right|by left].
Qed.

Lemma advances_nonneg es : 0 <= advances es.
Proof. apply list_sum_nonneg. unfold advance. lia. Qed.

Lemma advances_snoc es e : advances (es ++ [e]) = advances es + advance e.
Proof. unfold advances. rewrite list_sum_app. cbn. lia. Qed.

Lemma advances_at_snoc len key es e :
  advances_at len key (es ++ [e])
  = advances_at len key es + (if decide (event_key len e = key) then advance e else 0).
Proof.
  unfold advances_at. rewrite filter_app, filter_cons, filter_nil.
  case_decide; [apply advances_snoc|]. rewrite app_nil_r. lia.
Qed.

Lemma advances_at_le len key es : 0 <= advances_at len key es <= advances es.
Proof.
  split; [apply advances_nonneg|]. apply list_sum_filter_le. unfold advance. lia.
Qed.

Lemma counted_nonneg (counts : gmap string Z) :
  (forall reason c, counts !! reason = Some c -> 0 < c /\ countable_reason reason) ->
  0 <= map_sum id counts.
Proof.
  induction counts as [|k c m Hk IH] using map_ind; intros Hc.
  { by rewrite map_sum_empty. }
  rewrite map_sum_insert_None by done. unfold id at 1.
  pose proof (Hc k c (lookup_insert_eq _ _ _)) as [? _].
  assert (0 <= map_sum id m); [|lia]. apply IH. intros k' c' Hk'.
  apply (Hc k' c'). rewrite lookup_insert_ne; [done|congruence].
Qed.

Lemma count_le_sum (counts : gmap string Z) k :
  (forall reason c, counts !! reason = Some c -> 0 < c /\ countable_reason reason) ->
  0 <= default 0 (counts !! k) <= map_sum id counts.
Proof.
  intros Hc. destruct (counts !! k) as [c|] eqn:Hk; cbn; [|split; [done|by apply counted_nonneg]].
  rewrite (map_sum_delete id counts k c) by done. unfold id at 1.
  pose proof (Hc k c Hk) as [? _].
  assert (0 <= map_sum id (delete k counts)); [|lia]. apply counted_nonneg.
  intros k' c' [_ Hk']%lookup_delete_Some. by apply (Hc k').
Qed.

Lemma fold_event_accounted total e r :
  accounted total r -> 0 < crRestarts e -> 0 <= total -> total + crRestarts e <= maxInt64 ->
  exists r', fold_event e r = Some r' /\ accounted (total + crRestarts e) r' /\
             RKey r' = RKey r /\ WindowStart r' = WindowStart r.
Proof.
  intros (Ht & Hu & counts & Hr & Hs & Hc) He H0 Hmax.
  pose proof (counted_nonneg counts Hc).
  pose proof (count_le_sum counts (bucket (crReason e)) Hc) as Hle.
  unfold fold_event. case_bool_decide as Hnone.
  - eexists. split; [done|]. split; [|done]. unfold accounted. cbn.
    rewrite !wrap64_id by go_lia. split; [lia|]. split; [lia|].
    exists counts. split; [done|]. split; [lia|done].
  - unfold countReason. cbn. rewrite Hr. cbn. eexists. split; [done|].
    set (counts' := <[bucket _ := _]> counts).
    assert (accounted (total + crRestarts e)
              (mkRestartRecord (RKey r) (Workload r) (WindowStart r) (WindowSeconds r)
                 (Restarts_ r +w crRestarts e) (Some counts')
                 (ReasonsUnobserved r +w (crRestarts e -w 1)) (LastExitCode r))) as Hacc.
    { unfold accounted. cbn. rewrite (wrap64_id (crRestarts e - 1)) by go_lia.
      rewrite !wrap64_id by go_lia. split; [lia|]. split; [lia|].
      exists counts'. split; [done|]. unfold counts'. split.
      - rewrite map_sum_insert. rewrite wrap64_id by go_lia.
        destruct (counts !! bucket (crReason e)); cbn; unfold id in *; lia.
      - intros k c [[<- <-]|[_ Hk]]%lookup_insert_Some; [|by apply Hc].
        rewrite wrap64_id by go_lia. split; [lia|apply bucket_countable]. }
    by destruct (crExitCode e).
Qed.

Lemma journal_ok_new len : journal_ok len [] (mkRestarts len ∅).
Proof.
  unfold journal_ok. cbn [windowLength open]. rewrite map_sum_empty.
  split; [done|]. split; [by intros k r Hr|]. split; [done|]. split; [by intros k r Hr|done].
Qed.

Lemma Observe_journal len es e j :
  journal_ok len es j -> advances (es ++ [e]) <= maxInt64 ->
  exists j', Observe j e = Some j' /\ journal_ok len (es ++ [e]) j'.
Proof.
  intros (Hl & Hf & Hs & Hr & Hn) Hmax. unfold Observe.
  pose proof (advances_at_le len (event_key len e) es) as Hle.
  rewrite advances_snoc in Hmax. destruct (Z.leb_spec (crRestarts e) 0) as [Hz|Hp].
  { exists j. split; [done|]. assert (advance e = 0) as H0 by (unfold advance; lia).
    split; [done|]. split; [done|]. split; [by rewrite advances_snoc, H0, Z.add_0_r|].
    split; intros key; rewrite advances_at_snoc, H0; case_decide; rewrite Z.add_0_r; auto. }
  assert (advance e = crRestarts e) as Hadv by (unfold advance; lia).
  rewrite Hl. set (key := event_key len e) in *.
  assert (exists r, default (new_record len e) (open j !! key) = r /\
            accounted (advances_at len key es) r /\ record_key r = key /\
            Restarts_ r = from_option Restarts_ 0 (open j !! key)) as (r & -> & Hacc & Hkey & Hold).
  { destruct (open j !! key) as [r|] eqn:E; cbn.
    - exists r. split; [done|]. split; [by apply Hr|]. split; [by apply Hf|done].
    - exists (new_record len e). rewrite Hn by done. split; [done|]. split; [|done].
      split; [done|]. split; [done|]. exists ∅. split; [done|]. by rewrite map_sum_empty. }
  destruct (fold_event_accounted _ e r Hacc Hp) as (r' & -> & Hacc' & Hk1 & Hk2); [lia|lia|].
  eexists. split; [done|]. split; [done|]. cbn [open].
  assert (record_key r' = key) as Hkey' by (rewrite <-Hkey; cbn; congruence).
  split; [rewrite <-Hkey'; by apply filed_insert|].
  split; [rewrite map_sum_insert, advances_snoc, Hadv, (proj1 Hacc'), <-Hold, (proj1 Hacc); lia|].
  split; intros key'; rewrite advances_at_snoc; fold key; case_decide as Hd; subst.
  - intros r'' Hr''. rewrite lookup_insert_eq in Hr''. simplify_eq. by rewrite Hadv.
  - intros r''. rewrite lookup_insert_ne by done. rewrite Z.add_0_r. auto.
  - by rewrite lookup_insert_eq.
  - rewrite lookup_insert_ne by done. rewrite Z.add_0_r. auto.
Qed.

Lemma observe_all_journal len es :
  advances es <= maxInt64 ->
  exists j, observe_all (mkRestarts len ∅) es = Some j /\ journal_ok len es j.
Proof.
  induction es as [|e es IH] using rev_ind; intros Hmax.
  { exists (mkRestarts len ∅). split; [done|apply journal_ok_new]. }
  rewrite advances_snoc in Hmax. destruct IH as (j & Hj & Hok).
  { unfold advance in Hmax. lia. }
  destruct (Observe_journal len es e j Hok) as (j' & Hj' & Hok'); [by rewrite advances_snoc|].
  exists j'. split; [|done]. unfold observe_all in *. rewrite foldl_app, Hj. done.
Qed.

Lemma adopt_accounted total r : accounted total r -> adopt (clone r) = r.
Proof. intros (_ & _ & c & Hc & _). destruct r; cbn in *. subst. done. Qed.

(** Stopping after [Snapshots] and resuming from what it returned gives back the
    very journal. *)
Lemma Resume_Snapshots len es j :
  journal_ok len es j ->
  Resume (mkRestarts len ∅) (Snapshots j) = (j, Z.of_nat (size (open j))).
Proof.
  intros (Hl & Hf & _ & Hr & _). unfold Resume, Snapshots. cbn [open].
  rewrite resume_snapshots by done. cbn [windowLength]. f_equal.
  destruct j as [l m]. cbn in *. subst l. f_equal. apply map_eq. intros k.
  rewrite lookup_fmap. destruct (m !! k) eqn:E; [|done]. cbn. f_equal.
  eapply adopt_accounted. by eapply Hr.
Qed.

(** Where the windows of the open records come from. *)
Definition windowed (len : Duration) (es : list ContainerRestart) (j : Restarts) : Prop :=
  windowLength j = len /\
  forall key r, open j !! key = Some r ->
    WindowSeconds r = Z.quot len Second /\ exists e, e ∈ es /\ WindowStart r = event_start len e.

Lemma fold_event_window e r r' :
  fold_event e r = Some r' -> WindowStart r' = WindowStart r /\ WindowSeconds r' = WindowSeconds r.
Proof.
  unfold fold_event, countReason. case_bool_decide; [by intros [= <-]|]. cbn.
  destruct (Reasons r); cbn; [|done]. intros [= <-]. by destruct (crExitCode e).
Qed.

Lemma fold_event_key e r r' : fold_event e r = Some r' -> RKey r' = RKey r.
Proof.
  unfold fold_event, countReason. case_bool_decide; [by intros [= <-]|]. cbn.
  destruct (Reasons r); cbn; [|done]. intros [= <-]. by destruct (crExitCode e).
Qed.

Lemma Observe_windowed len es j e j' :
  windowed len es j -> Observe j e = Some j' -> windowed len (es ++ [e]) j'.
Proof.
  intros [Hl Hw] HO.
  assert (forall key r, open j !! key = Some r -> WindowSeconds r = Z.quot len Second /\
            exists x, x ∈ es ++ [e] /\ WindowStart r = event_start len x) as Hold.
  { intros key r Hr. destruct (Hw key r Hr) as (Hs & x & Hx & Hst). split; [done|].
    exists x. split; [|done]. apply elem_of_app. by left. }
  unfold Observe in HO. destruct (crRestarts e <=? 0); [simplify_eq; by split|].
  destruct (fold_event e _) as [r'|] eqn:Ef; [|done]. cbn in HO. simplify_eq. split; [done|].
  cbn [open]. intros key r [[_ <-]|[_ Hr]]%lookup_insert_Some; [|by eapply Hold].
  apply fold_event_window in Ef as [-> ->].
  destruct (open j !! event_key (windowLength j) e) as [r0|] eqn:E; cbn [default]; [by eapply Hold|].
  split; [done|]. exists e. split; [apply elem_of_app; right; apply list_elem_of_here|done].
Qed.

Lemma observe_all_windowed len es j :
  observe_all (mkRestarts len ∅) es = Some j -> windowed len es j.
Proof.
  revert j. induction es as [|e es IH] using rev_ind; intros j.
  { intros [= <-]. split; [done|]. by intros k r Hr. }
  unfold observe_all. rewrite foldl_app. cbn. fold (observe_all (mkRestarts len ∅) es).
  destruct (observe_all (mkRestarts len ∅) es) as [j0|]; [|done]. cbn.
  intros HO. by eapply Observe_windowed; [apply IH|].
Qed.

(** ** Properties *)

(** C10. No restart is lost or invented, and no reason breakdown implies more or
    fewer restarts than there were: after any sequence of observed counter
    advances whose sum fits an int64, nothing has panicked, each open record
    counts exactly the advances of its container seen in its window, its reasons
    plus its unobserved count add up to that total, every reason key is one of
    the nine the agent chose, and the records sum to all advances observed. *)
Theorem restarts_accounted (len : Duration) (es : list ContainerRestart) :
  advances es <= maxInt64 ->
  exists j, observe_all (mkRestarts len ∅) es = Some j /\
    map_sum Restarts_ (open j) = advances es /\
    forall key r, open j !! key = Some r ->
      Restarts_ r = advances_at len key es /\
      exists counts, Reasons r = Some counts /\
        map_sum id counts + ReasonsUnobserved r = Restarts_ r /\ 0 <= ReasonsUnobserved r /\
        forall reason c, counts !! reason = Some c -> 0 < c /\ countable_reason reason.
Proof.
  intros Hmax. destruct (observe_all_journal len es Hmax) as (j & Hj & _ & _ & Hs & Hr & _).
  exists j. split; [done|]. split; [done|]. intros key r Hk.
  destruct (Hr key r Hk) as (Ht & Hu & counts & Hc & Hsum & Hall). split; [done|].
  exists counts. rewrite Ht. done.
Qed.

Definition demo_event (n : Z) (reason : string) (at_ : Time) : ContainerRestart :=
  mkContainerRestart "shop" "web-1" "app" (mkWorkloadRef "Deployment" "web") at_ n reason (Some 137).
Definition demo_events : list ContainerRestart :=
  [demo_event 3 "OOMKilled" Hour; demo_event 2 "Weird" (Hour + Minute); demo_event 1 "" (2 * Hour)].

Lemma restarts_accounted_witness :
  advances demo_events <= maxInt64 /\
  exists j, observe_all (mkRestarts Hour ∅) demo_events = Some j /\
    map_sum Restarts_ (open j) = advances demo_events /\
    forall key r, open j !! key = Some r ->
      Restarts_ r = advances_at Hour key demo_events /\
      exists counts, Reasons r = Some counts /\
        map_sum id counts + ReasonsUnobserved r = Restarts_ r /\ 0 <= ReasonsUnobserved r /\
        forall reason c, counts !! reason = Some c -> 0 < c /\ countable_reason reason.
Proof.
  split; [vm_compute; discriminate|].
  apply (restarts_accounted Hour demo_events). vm_compute. discriminate.
Defined.

(** A restart of the agent is invisible in the restart journal: a process
    that observed [es1], wrote its snapshots and died, followed by one that
    resumes from them and observes [es2], ends in the same journal as one process
    that observed both. *)
Theorem restarts_survive_restart (len : Duration) (es1 es2 : list ContainerRestart) (j1 : Restarts) :
  advances es1 <= maxInt64 ->
  observe_all (mkRestarts len ∅) es1 = Some j1 ->
  let '(j2, seeded) := Resume (mkRestarts len ∅) (Snapshots j1) in
  seeded = Z.of_nat (length (Snapshots j1)) /\
  observe_all j2 es2 = observe_all (mkRestarts len ∅) (es1 ++ es2).
Proof.
  intros Hmax Hj1. destruct (observe_all_journal len es1 Hmax) as (j & Hj & Hok). simplify_eq.
  rewrite (Resume_Snapshots len es1 j1 Hok). split.
  - unfold Snapshots. rewrite snapshots_perm, length_fmap. unfold map_values.
    by rewrite length_fmap, length_map_to_list.
  - unfold observe_all in *. by rewrite foldl_app, Hj1.
Qed.

Lemma restarts_survive_restart_witness :
  exists j1, observe_all (mkRestarts Hour ∅) demo_events = Some j1 /\
  let '(j2, seeded) := Resume (mkRestarts Hour ∅) (Snapshots j1) in
  seeded = Z.of_nat (length (Snapshots j1)) /\
  observe_all j2 demo_events = observe_all (mkRestarts Hour ∅) (demo_events ++ demo_events).
Proof.
  assert (advances demo_events <= maxInt64) as Hmax by (vm_compute; discriminate).
  destruct (observe_all_journal Hour demo_events Hmax) as (j1 & Hj1 & _).
  exists j1. split; [exact Hj1|].
  apply (restarts_survive_restart Hour demo_events demo_events j1 Hmax Hj1).
Defined.
