(* ===== verification/Goroutines.v ===== *)
(** The goroutine series of [internal/journal/goroutines.go]: up to
    [maxSamplesPerWindow] readings per process and window, the rest counted. *)

From stdpp Require Import prelude gmap strings sorting.
From Stdlib Require Import ZArith Lia.
From S2P Require Import Prelude GoTime Model Journal.
From S2P Require Restarts.
Import Restarts (Key, mkKey, Namespace, Pod, Container).
#[local] Existing Instances Restarts.Key_eq_dec Restarts.Key_countable.
Local Open Scope Z_scope.
Local Open Scope go_scope.

Definition maxSamplesPerWindow : nat := 120.

Record GoroutineSample := mkGoroutineSample { At : Time; Goroutines_ : Z }.

Record GoroutineRecord := mkGoroutineRecord {
  RKey : Key;
  Workload : WorkloadRef;
  ImageDigest : string;
  WindowStart : Time;
  WindowSeconds : Z;
  Samples : list GoroutineSample;
  SamplesDropped : Z;
}.

Abbreviation openKey := (Key * Z)%type.

Record Goroutines := mkGoroutines {
  windowLength : Duration;
  open : gmap openKey GoroutineRecord;
}.

Definition NewGoroutines (len : Duration) : option Goroutines :=
  if len <=? 0 then None else Some (mkGoroutines len ∅).

Definition setSamples (r : GoroutineRecord) (ss : list GoroutineSample) (dropped : Z) : GoroutineRecord :=
  mkGoroutineRecord (RKey r) (Workload r) (ImageDigest r) (WindowStart r) (WindowSeconds r) ss dropped.

Definition reading_key (len : Duration) (c : GoroutineCount) : openKey :=
  (mkKey (gcNamespace c) (gcPod c) (gcContainer c), UnixNano (Truncate (gcObservedAt c) len)).

Definition new_record (len : Duration) (c : GoroutineCount) : GoroutineRecord :=
  mkGoroutineRecord (reading_key len c).1 (gcWorkload c) (gcImageDigest c)
    (Truncate (gcObservedAt c) len) (Z.quot len Second) [] 0.

Definition sample_of (c : GoroutineCount) : GoroutineSample :=
  mkGoroutineSample (gcObservedAt c) (gcGoroutines c).

Definition add_sample (c : GoroutineCount) (r : GoroutineRecord) : GoroutineRecord :=
  if (maxSamplesPerWindow <=? length (Samples r))%nat
  then setSamples r (Samples r) (SamplesDropped r +w 1)
  else setSamples r (Samples r ++ [sample_of c]) (SamplesDropped r).

Definition Observe (g : Goroutines) (c : GoroutineCount) : Goroutines :=
  if gcGoroutines c <=? 0 then g
  else
    let key := reading_key (windowLength g) c in
    let rec := default (new_record (windowLength g) c) (open g !! key) in
    mkGoroutines (windowLength g) (<[key := add_sample c rec]> (open g)).

(** [sort.Slice] by instant; readings at the same instant may come out in any
    order. *)
Definition sample_less (a b : GoroutineSample) : bool := Before (At a) (At b).

Definition clone (r : GoroutineRecord) : GoroutineRecord :=
  setSamples r (sort_slice sample_less (Samples r)) (SamplesDropped r).

(** A recovered record is cut to the cap, and what is cut is counted. *)
Definition adopt (r : GoroutineRecord) : GoroutineRecord :=
  let r := clone r in
  if (maxSamplesPerWindow <? length (Samples r))%nat
  then setSamples r (take maxSamplesPerWindow (Samples r))
         (SamplesDropped r +w Z.of_nat (length (Samples r) - maxSamplesPerWindow))
  else r.

Definition less (a b : GoroutineRecord) : bool :=
  lexi (WindowStart a) (WindowStart b)
    (lexi (Namespace (RKey a)) (Namespace (RKey b))
      (lexi (Pod (RKey a)) (Pod (RKey b))
        (go_lt (Container (RKey a)) (Container (RKey b))))).

Abbreviation sortKey := (Time * (string * (string * string)))%type.

#[export] Instance goroutine_record : JournalRecord GoroutineRecord openKey sortKey := {
  record_key r := (RKey r, UnixNano (WindowStart r));
  record_start := WindowStart;
  record_clone := clone;
  record_adopt := adopt;
  record_less := less;
  sort_key r := (WindowStart r, (Namespace (RKey r), (Pod (RKey r), Container (RKey r))));
  key_of_sort k := (mkKey k.2.1 k.2.2.1 k.2.2.2, UnixNano k.1);
}.

#[export] Instance goroutine_laws : JournalLaws GoroutineRecord openKey sortKey.
Proof.
  split; try done.
  - intros r. by destruct r as [[]].
  - intros r. cbn. unfold adopt. by destruct (_ <? _)%nat.
Qed.

Definition Snapshots (g : Goroutines) : list GoroutineRecord := snapshots (open g).

Definition Resume (g : Goroutines) (records : list GoroutineRecord) : Goroutines * Z :=
  let '(m, seeded) := resume (open g) records in (mkGoroutines (windowLength g) m, seeded).

Definition CloseBefore (g : Goroutines) (now : Time) : list GoroutineRecord * Goroutines :=
  let '(out, m) := close_before (windowLength g) now (open g) in (out, mkGoroutines (windowLength g) m).

Definition observe_all (g : Goroutines) (cs : list GoroutineCount) : Goroutines := foldl Observe g cs.

(** ** Accounting *)

(** The readings that count for one process and window, in arrival order. *)
Definition readings (len : Duration) (key : openKey) (cs : list GoroutineCount) : list GoroutineSample :=
  sample_of <$> filter (fun c => 0 < gcGoroutines c /\ reading_key len c = key) cs.

Definition series (all : list GoroutineSample) (r : GoroutineRecord) : Prop :=
  Samples r = take maxSamplesPerWindow all /\
  SamplesDropped r = Z.of_nat (length all - maxSamplesPerWindow).

Definition journal_ok (len : Duration) (cs : list GoroutineCount) (g : Goroutines) : Prop :=
  windowLength g = len /\ filed (open g) /\
  forall key, match open g !! key with
              | Some r => series (readings len key cs) r /\ readings len key cs <> []
              | None => readings len key cs = []
              end.

Lemma readings_snoc len key cs c :
  readings len key (cs ++ [c])
  = readings len key cs
    ++ (if decide (0 < gcGoroutines c /\ reading_key len c = key) then [sample_of c] else []).
Proof.
  unfold readings. rewrite filter_app, fmap_app, filter_cons, filter_nil. f_equal. by case_decide.
Qed.

Lemma readings_length len key cs : (length (readings len key cs) <= length cs)%nat.
Proof. unfold readings. rewrite length_fmap. apply length_filter. Qed.

Lemma series_add all c r :
  series all r -> Z.of_nat (length all) < maxInt64 -> series (all ++ [sample_of c]) (add_sample c r).
Proof.
  intros [Hs Hd] Hlen. unfold series, add_sample. rewrite Hs, length_take, length_app. cbn [length].
  destruct (Nat.leb_spec maxSamplesPerWindow (maxSamplesPerWindow `min` length all)) as [Hc|Hc];
    cbn [setSamples Samples SamplesDropped].
  - rewrite take_app_le by lia. split; [done|].
    rewrite Hd, wrap64_id by go_lia. lia.
  - rewrite (take_ge all), take_ge by (rewrite ?length_app; cbn [length]; lia).
    split; [done|lia].
Qed.

Lemma Observe_series len cs c g :
  journal_ok len cs g -> Z.of_nat (length cs) < maxInt64 -> journal_ok len (cs ++ [c]) (Observe g c).
Proof.
  intros (Hl & Hf & Hr) Hlen. unfold Observe. pose proof (readings_length len (reading_key len c) cs) as Hn.
  destruct (Z.leb_spec (gcGoroutines c) 0) as [Hz|Hp].
  { split; [done|]. split; [done|]. intros key. rewrite readings_snoc, decide_False by lia.
    rewrite app_nil_r. apply Hr. }
  rewrite Hl. set (key := reading_key len c) in *. split; [done|]. cbn [open].
  set (rec := default _ _).
  assert (record_key rec = key /\ series (readings len key cs) rec) as [Hk Hs].
  { specialize (Hr key). unfold rec. destruct (open g !! key) as [r|] eqn:E; cbn [default].
    - split; [by apply Hf|apply Hr].
    - unfold id. rewrite Hr. done. }
  assert (record_key (add_sample c rec) = key) as Hk'.
  { rewrite <-Hk. unfold add_sample. by destruct (_ <=? _)%nat. }
  split; [rewrite <-Hk'; by apply filed_insert|].
  intros key'. rewrite readings_snoc. fold key.
  destruct (decide (key = key')) as [<-|Hne].
  - rewrite lookup_insert_eq, decide_True by done. split; [apply series_add; [done|lia]|].
    by destruct (readings len key cs).
  - rewrite lookup_insert_ne by done. rewrite decide_False by tauto. rewrite app_nil_r. apply Hr.
Qed.

Lemma observe_all_series len cs :
  Z.of_nat (length cs) <= maxInt64 -> journal_ok len cs (observe_all (mkGoroutines len ∅) cs).
Proof.
  induction cs as [|c cs IH] using rev_ind; intros Hlen.
  { split; [done|]. split; [by intros k r Hr|]. intros key. done. }
  rewrite length_app in Hlen. cbn in Hlen. unfold observe_all. rewrite foldl_app.
  apply Observe_series; [apply IH; lia|lia].
Qed.

(** ** Properties *)

(** The cap loses nothing silently: after any number of readings, the payload
    record of a process and window lists its first 120 readings, oldest first,
    and counts exactly the others as dropped; there is a record for each process
    and window that was read and for no other. *)
Theorem goroutine_series_capped (len : Duration) (cs : list GoroutineCount) :
  Z.of_nat (length cs) <= maxInt64 ->
  let out := Snapshots (observe_all (mkGoroutines len ∅) cs) in
  (forall r, r ∈ out ->
     let all := readings len (record_key r) cs in
     Samples r ≡ₚ take 120 all /\ StronglySorted (fun a b => At a <= At b) (Samples r) /\
     Z.of_nat (length (Samples r)) + SamplesDropped r = Z.of_nat (length all)) /\
  (forall key, (exists r, r ∈ out /\ record_key r = key) <-> readings len key cs <> []).
Proof.
  intros Hlen out. destruct (observe_all_series len cs Hlen) as (Hl & Hf & Hr).
  set (m := open (observe_all (mkGoroutines len ∅) cs)) in *.
  assert (forall r, r ∈ out <-> exists key r0, m !! key = Some r0 /\ r = clone r0) as Hout.
  { intros r. exact (elem_of_snapshots m r). }
  split.
  - intros r (key & r0 & Hk & ->)%Hout. pose proof (Hf _ _ Hk) as Hkey. specialize (Hr key).
    rewrite Hk in Hr. destruct Hr as [[Hs Hd] _]. cbn zeta.
    replace (record_key (clone r0)) with key by (rewrite <-Hkey; done).
    destruct (sort_slice_sorted sample_less At (fun _ _ => eq_refl) (Samples r0)) as [Hp Hss].
    cbn [clone Samples setSamples SamplesDropped]. split; [by rewrite Hp, Hs|]. split.
    + eapply StronglySorted_impl; [|exact Hss].
      intros a b Hab. unfold not_after, sample_less, Before in Hab. apply Z.ltb_ge in Hab. done.
    + rewrite Hp, Hs, length_take, Hd. unfold maxSamplesPerWindow. lia.
  - intros key. specialize (Hr key). destruct (m !! key) as [r|] eqn:E.
    + split; [intros _; apply Hr|]. intros _. exists (clone r). split; [apply Hout; by exists key, r|].
      rewrite <-(Hf _ _ E). done.
    + split; [|done]. intros (r & (key' & r0 & Hk & ->)%Hout & Hkr).
      pose proof (Hf _ _ Hk) as Hkey. change (record_key r0 = key) in Hkr. congruence.
Qed.

Definition demo_reading (i : nat) : GoroutineCount :=
  mkGoroutineCount "shop" "web-1" "app" (mkWorkloadRef "Deployment" "web") "sha256:0"
    (Hour - Z.of_nat i) (Z.of_nat i).
Definition demo_readings : list GoroutineCount := demo_reading <$> seq 0 130.

Lemma goroutine_series_capped_witness :
  let out := Snapshots (observe_all (mkGoroutines Hour ∅) demo_readings) in
  (forall r, r ∈ out ->
     let all := readings Hour (record_key r) demo_readings in
     Samples r ≡ₚ take 120 all /\ StronglySorted (fun a b => At a <= At b) (Samples r) /\
     Z.of_nat (length (Samples r)) + SamplesDropped r = Z.of_nat (length all)) /\
  (forall key, (exists r, r ∈ out /\ record_key r = key) <-> readings Hour key demo_readings <> []).
Proof. apply (goroutine_series_capped Hour demo_readings). vm_compute. discriminate. Defined.
