(* ===== verification/Disruptions.v ===== *)
(** The disruption journal of [internal/journal/disruptions.go]: one record per
    pod and window the cluster removed. *)

From stdpp Require Import prelude gmap strings.
From Stdlib Require Import ZArith Lia.
From S2P Require Import Prelude GoTime Model Journal.
Local Open Scope Z_scope.

Record DisruptionRecord := mkDisruptionRecord {
  Namespace : string;
  Pod : string;
  Workload : WorkloadRef;
  Node : string;
  Reason : string;
  DisruptedAt : Time;
  WindowStart : Time;
  WindowSeconds : Z;
}.

Abbreviation disruptionKey := (string * string * Z)%type.

Record Disruptions := mkDisruptions {
  windowLength : Duration;
  open : gmap disruptionKey DisruptionRecord;
}.

Definition NewDisruptions (len : Duration) : option Disruptions :=
  if len <=? 0 then None else Some (mkDisruptions len ∅).

Definition less (a b : DisruptionRecord) : bool :=
  lexi (WindowStart a) (WindowStart b)
    (lexi (Namespace a) (Namespace b) (go_lt (Pod a) (Pod b))).

#[export] Instance disruption_record : JournalRecord DisruptionRecord disruptionKey (Time * (string * string)) := {
  record_key r := (Namespace r, Pod r, UnixNano (WindowStart r));
  record_start := WindowStart;
  record_clone r := r;
  record_adopt r := r;
  record_less := less;
  sort_key r := (WindowStart r, (Namespace r, Pod r));
  key_of_sort k := (k.2.1, k.2.2, UnixNano k.1);
}.

#[export] Instance disruption_laws : JournalLaws DisruptionRecord disruptionKey (Time * (string * string)).
Proof. by split. Qed.

(** The record an event becomes; [None] when it carries no instant. *)
#[export] Instance disruption_event : EventJournal PodDisruption DisruptionRecord disruptionKey (Time * (string * string)) :=
  fun len e =>
    if IsZero (pdDisruptedAt e) then None
    else
      let start := Truncate (pdDisruptedAt e) len in
      Some (mkDisruptionRecord (pdNamespace e) (pdPod e) (pdWorkload e) (pdNode e) (pdReason e)
              (pdDisruptedAt e) start (Z.quot len Second)).

Definition Observe (d : Disruptions) (e : PodDisruption) : Disruptions :=
  mkDisruptions (windowLength d) (file_event (windowLength d) (open d) e).

Definition Snapshots (d : Disruptions) : list DisruptionRecord := snapshots (open d).

Definition Resume (d : Disruptions) (records : list DisruptionRecord) : Disruptions * Z :=
  let '(m, seeded) := resume (open d) records in (mkDisruptions (windowLength d) m, seeded).

Definition CloseBefore (d : Disruptions) (now : Time) : list DisruptionRecord * Disruptions :=
  let '(out, m) := close_before (windowLength d) now (open d) in (out, mkDisruptions (windowLength d) m).

Definition observe_all (d : Disruptions) (es : list PodDisruption) : Disruptions := foldl Observe d es.

Lemma disruptions_observe_all len m es :
  observe_all (mkDisruptions len m) es = mkDisruptions len (file_events len m es).
Proof. revert m. induction es as [|e es IH]; intros m; [done|]. cbn. apply IH. Qed.

(** Events of one pod in one window tell the same story. *)
Definition one_story (len : Duration) (es : list PodDisruption) : Prop := consistent len es.

Lemma disruptions_replay len es es' :
  one_story len es -> es' ⊆ es ->
  observe_all (Resume (mkDisruptions len ∅) (Snapshots (observe_all (mkDisruptions len ∅) es))).1 es'
  = observe_all (mkDisruptions len ∅) es.
Proof.
  intros Hc Hs. rewrite (disruptions_observe_all len ∅ es). unfold Snapshots, Resume. cbn [open windowLength].
  destruct (resume _ _) as [m n] eqn:E. cbn [fst]. rewrite disruptions_observe_all. f_equal.
  pose proof (replay_absorbed len es es' (fun _ => eq_refl) Hc Hs) as H. by rewrite E in H.
Qed.
