(* ===== verification/JobRuns.v ===== *)
(** The job-run journal of [internal/journal/jobs.go]: one record per finished
    run, filed in the window it finished in. *)

From stdpp Require Import prelude gmap strings.
From Stdlib Require Import ZArith Lia.
From S2P Require Import Prelude GoTime Model Journal.
Local Open Scope Z_scope.

Record JobRunRecord := mkJobRunRecord {
  Namespace : string;
  Workload : WorkloadRef;
  Name : string;
  StartedAt : Time;
  FinishedAt : Time;
  Result : string;
  FailReason : string;
  Succeeded : Z;
  Failed : Z;
  Parallelism : option Z;
  Completions : option Z;
  BackoffLimit : option Z;
  WindowStart : Time;
  WindowSeconds : Z;
}.

Abbreviation jobRunKey := (string * string * Z)%type.

Record JobRuns := mkJobRuns {
  windowLength : Duration;
  open : gmap jobRunKey JobRunRecord;
}.

Definition NewJobRuns (len : Duration) : option JobRuns :=
  if len <=? 0 then None else Some (mkJobRuns len ∅).

Definition less (a b : JobRunRecord) : bool :=
  lexi (WindowStart a) (WindowStart b)
    (lexi (Namespace a) (Namespace b) (go_lt (Name a) (Name b))).

#[export] Instance job_run_record : JournalRecord JobRunRecord jobRunKey (Time * (string * string)) := {
  record_key r := (Namespace r, Name r, UnixNano (WindowStart r));
  record_start := WindowStart;
  record_clone r := r;
  record_adopt r := r;
  record_less := less;
  sort_key r := (WindowStart r, (Namespace r, Name r));
  key_of_sort k := (k.2.1, k.2.2, UnixNano k.1);
}.

#[export] Instance job_run_laws : JournalLaws JobRunRecord jobRunKey (Time * (string * string)).
Proof. by split. Qed.

(** The record a run becomes; [None] when it has not finished. *)
#[export] Instance job_run_event : EventJournal JobRun JobRunRecord jobRunKey (Time * (string * string)) :=
  fun len run =>
    if IsZero (jrFinishedAt run) then None
    else
      let start := Truncate (jrFinishedAt run) len in
      Some (mkJobRunRecord (jrNamespace run) (jrWorkload run) (jrName run) (jrStartedAt run)
              (jrFinishedAt run) (jrResult run) (jrFailReason run) (jrSucceeded run) (jrFailed run)
              (jrParallelism run) (jrCompletions run) (jrBackoffLimit run) start (Z.quot len Second)).

Definition Observe (j : JobRuns) (run : JobRun) : JobRuns :=
  mkJobRuns (windowLength j) (file_event (windowLength j) (open j) run).

Definition Snapshots (j : JobRuns) : list JobRunRecord := snapshots (open j).

Definition Resume (j : JobRuns) (records : list JobRunRecord) : JobRuns * Z :=
  let '(m, seeded) := resume (open j) records in (mkJobRuns (windowLength j) m, seeded).

Definition CloseBefore (j : JobRuns) (now : Time) : list JobRunRecord * JobRuns :=
  let '(out, m) := close_before (windowLength j) now (open j) in (out, mkJobRuns (windowLength j) m).

Definition observe_all (j : JobRuns) (rs : list JobRun) : JobRuns := foldl Observe j rs.

Lemma job_runs_observe_all len m es :
  observe_all (mkJobRuns len m) es = mkJobRuns len (file_events len m es).
Proof. revert m. induction es as [|e es IH]; intros m; [done|]. cbn. apply IH. Qed.

Definition one_story (len : Duration) (es : list JobRun) : Prop := consistent len es.

Lemma job_runs_replay len es es' :
  one_story len es -> es' ⊆ es ->
  observe_all (Resume (mkJobRuns len ∅) (Snapshots (observe_all (mkJobRuns len ∅) es))).1 es'
  = observe_all (mkJobRuns len ∅) es.
Proof.
  intros Hc Hs. rewrite (job_runs_observe_all len ∅ es). unfold Snapshots, Resume. cbn [open windowLength].
  destruct (resume _ _) as [m n] eqn:E. cbn [fst]. rewrite job_runs_observe_all. f_equal.
  pose proof (replay_absorbed len es es' (fun _ => eq_refl) Hc Hs) as H. by rewrite E in H.
Qed.
