(* ===== verification/NodeEvents.v ===== *)
(** The node journal of [internal/journal/nodes.go]: nodes joining and leaving,
    and what the three journals of single events share. *)

From stdpp Require Import prelude gmap strings.
From Stdlib Require Import ZArith Lia.
From S2P Require Import Prelude GoTime Model Journal.
From S2P Require Disruptions JobRuns.
Local Open Scope Z_scope.

Record NodeEventRecord := mkNodeEventRecord {
  Node : string;
  Event : string;
  At : Time;
  AtObserved : bool;
  InstanceType : string;
  CapacityType : string;
  Zone : string;
  CapacityCPUMilli : Z;
  CapacityMemoryBytes : Z;
  Devices : list NodeDevice;
  WindowStart : Time;
  WindowSeconds : Z;
}.

Definition eventJoined : string := "joined".
Definition eventLeft : string := "left".

Abbreviation nodeEventKey := (string * string * Z)%type.

Record NodeEvents := mkNodeEvents {
  windowLength : Duration;
  open : gmap nodeEventKey NodeEventRecord;
}.

Definition NewNodeEvents (len : Duration) : option NodeEvents :=
  if len <=? 0 then None else Some (mkNodeEvents len ∅).

Definition less (a b : NodeEventRecord) : bool :=
  lexi (WindowStart a) (WindowStart b) (lexi (Node a) (Node b) (go_lt (Event a) (Event b))).

#[export] Instance node_event_record : JournalRecord NodeEventRecord nodeEventKey (Time * (string * string)) := {
  record_key r := (Node r, Event r, UnixNano (WindowStart r));
  record_start := WindowStart;
  record_clone r := r;
  record_adopt r := r;
  record_less := less;
  sort_key r := (WindowStart r, (Node r, Event r));
  key_of_sort k := (k.2.1, k.2.2, UnixNano k.1);
}.

#[export] Instance node_event_laws : JournalLaws NodeEventRecord nodeEventKey (Time * (string * string)).
Proof. by split. Qed.

(** The record an event becomes; [None] without an instant or a node name. *)
#[export] Instance node_event : EventJournal NodeLifecycle NodeEventRecord nodeEventKey (Time * (string * string)) :=
  fun len ev =>
    if IsZero (nlAt ev) || bool_decide (niName (nlNode ev) = ""%string) then None
    else
      let event := if nlJoined ev then eventJoined else eventLeft in
      let start := Truncate (nlAt ev) len in
      let n := nlNode ev in
      Some (mkNodeEventRecord (niName n) event (nlAt ev) (nlObserved ev) (niInstanceType n)
              (niCapacityType n) (niZone n) (niCapacityCPUMilli n) (niCapacityMemoryBytes n)
              (niDevices n) start (Z.quot len Second)).

Definition Observe (e : NodeEvents) (ev : NodeLifecycle) : NodeEvents :=
  mkNodeEvents (windowLength e) (file_event (windowLength e) (open e) ev).

Definition Snapshots (e : NodeEvents) : list NodeEventRecord := snapshots (open e).

Definition Resume (e : NodeEvents) (records : list NodeEventRecord) : NodeEvents * Z :=
  let '(m, seeded) := resume (open e) records in (mkNodeEvents (windowLength e) m, seeded).

Definition CloseBefore (e : NodeEvents) (now : Time) : list NodeEventRecord * NodeEvents :=
  let '(out, m) := close_before (windowLength e) now (open e) in (out, mkNodeEvents (windowLength e) m).

Definition observe_all (e : NodeEvents) (evs : list NodeLifecycle) : NodeEvents := foldl Observe e evs.

Lemma node_events_observe_all len m es :
  observe_all (mkNodeEvents len m) es = mkNodeEvents len (file_events len m es).
Proof. revert m. induction es as [|e es IH]; intros m; [done|]. cbn. apply IH. Qed.

Definition one_story (len : Duration) (es : list NodeLifecycle) : Prop := consistent len es.

Lemma node_events_replay len es es' :
  one_story len es -> es' ⊆ es ->
  observe_all (Resume (mkNodeEvents len ∅) (Snapshots (observe_all (mkNodeEvents len ∅) es))).1 es'
  = observe_all (mkNodeEvents len ∅) es.
Proof.
  intros Hc Hs. rewrite (node_events_observe_all len ∅ es). unfold Snapshots, Resume. cbn [open windowLength].
  destruct (resume _ _) as [m n] eqn:E. cbn [fst]. rewrite node_events_observe_all. f_equal.
  pose proof (replay_absorbed len es es' (fun _ => eq_refl) Hc Hs) as H. by rewrite E in H.
Qed.

(** ** Properties *)

(** The event journals absorb repeats across a restart: where the events of
    one key agree, a process that filed them and wrote its snapshots, followed by
    one that resumes from those and is told any of the events again, in any
    order and number, ends with the very journal the first one had.  This holds
    of disruptions, job runs and node events. *)
Theorem events_reported_twice_count_once (len : Duration) :
  (forall es es', Disruptions.one_story len es -> es' ⊆ es ->
     let first := Disruptions.observe_all (Disruptions.mkDisruptions len ∅) es in
     Disruptions.observe_all
       (Disruptions.Resume (Disruptions.mkDisruptions len ∅) (Disruptions.Snapshots first)).1 es' = first) /\
  (forall es es', JobRuns.one_story len es -> es' ⊆ es ->
     let first := JobRuns.observe_all (JobRuns.mkJobRuns len ∅) es in
     JobRuns.observe_all
       (JobRuns.Resume (JobRuns.mkJobRuns len ∅) (JobRuns.Snapshots first)).1 es' = first) /\
  (forall es es', one_story len es -> es' ⊆ es ->
     let first := observe_all (mkNodeEvents len ∅) es in
     observe_all (Resume (mkNodeEvents len ∅) (Snapshots first)).1 es' = first).
Proof.
  split; [|split]; intros es es' Hc Hs.
  - exact (Disruptions.disruptions_replay len es es' Hc Hs).
  - exact (JobRuns.job_runs_replay len es es' Hc Hs).
  - exact (node_events_replay len es es' Hc Hs).
Qed.

Definition demo_node : NodeLifecycle :=
  mkNodeLifecycle (mkNodeInfo "n1" "m5.large" "spot" "eu-1a" "eu-1" "6.8" "amd64" 0 "v1.33" "" "linux" "" 1900 7000000 2000 8000000 0 0 110 110 [] [] []) true Hour false.
Definition demo_disruption : PodDisruption :=
  mkPodDisruption "shop" "web-1" (mkWorkloadRef "Deployment" "web") "n1" "Evicted" Hour.

Lemma events_reported_twice_count_once_witness :
  (let first := Disruptions.observe_all (Disruptions.mkDisruptions Hour ∅) [demo_disruption] in
   Disruptions.observe_all
     (Disruptions.Resume (Disruptions.mkDisruptions Hour ∅) (Disruptions.Snapshots first)).1
     [demo_disruption; demo_disruption] = first) /\
  let first := observe_all (mkNodeEvents Hour ∅) [demo_node] in
  observe_all (Resume (mkNodeEvents Hour ∅) (Snapshots first)).1 [demo_node; demo_node] = first.
Proof.
  destruct (events_reported_twice_count_once Hour) as (Hd & _ & Hn). split.
  - apply (Hd [demo_disruption] [demo_disruption; demo_disruption]).
    + intros r r' Hr Hr' _. vm_compute in Hr, Hr'.
      apply list_elem_of_singleton in Hr, Hr'. congruence.
    + intros x Hx. rewrite !elem_of_cons in *. tauto.
  - apply (Hn [demo_node] [demo_node; demo_node]).
    + intros r r' Hr Hr' _. vm_compute in Hr, Hr'.
      apply list_elem_of_singleton in Hr, Hr'. congruence.
    + intros x Hx. rewrite !elem_of_cons in *. tauto.
Defined.
