(* ===== verification/Spans.v ===== *)
(** Intervals cut at window boundaries, as the state and counter journals cut
    them ([split] in [internal/journal/states.go] and [counters.go], the same
    loop twice). *)

From stdpp Require Import prelude.
From Stdlib Require Import ZArith Lia.
From S2P Require Import Prelude GoTime.
Local Open Scope Z_scope.

Record span := mkSpan { span_start : Time; span_end : Time }.

(** One iteration per window touched; [fuel] bounds them and
    [split_chain] shows that [split_fuel] is enough. *)
Fixpoint split_loop (len : Duration) (to : Time) (fuel : nat) (from : Time) : list span :=
  match fuel with
  | O => []
  | S fuel =>
      if Before from to then
        let end_ := Add (Truncate from len) len in
        let end_ := if After end_ to then to else end_ in
        mkSpan from end_ :: split_loop len to fuel end_
      else []
  end.

Definition split_fuel (len : Duration) (from to : Time) : nat :=
  S (Z.to_nat (Truncate to len / len - Truncate from len / len)).

Definition split (len : Duration) (from to : Time) : list span :=
  split_loop len to (split_fuel len from to) from.

(** Spans that follow one another from [a] to [b], each inside one window. *)
Fixpoint chain (len : Duration) (a : Time) (ss : list span) (b : Time) : Prop :=
  match ss with
  | [] => a = b
  | s :: ss =>
      span_start s = a /\ a < span_end s <= Truncate a len + len /\ span_end s <= b /\
      chain len (span_end s) ss b
  end.

Definition span_length (s : span) : Z := span_end s - span_start s.

Section spans.
Context (len : Duration) (Hlen : 0 < len).

Lemma split_loop_chain to fuel from :
  from <= to -> Truncate to len / len - Truncate from len / len < Z.of_nat fuel ->
  chain len from (split_loop len to fuel from) to.
Proof.
  revert from. induction fuel as [|fuel IH]; intros from Hle Hf.
  { pose proof (Truncate_mono len Hlen from to Hle) as Hm.
    pose proof (Z.div_le_mono _ _ len Hlen Hm). lia. }
  cbn [split_loop]. unfold Before, After, Add. destruct (Z.ltb_spec from to) as [Hlt|Hge]; [|cbn; lia].
  pose proof (Truncate_bounds len Hlen from) as Hb.
  cbn [chain span_start span_end]. destruct (Z.ltb_spec to (Truncate from len + len)) as [Hin|Hout].
  - split; [done|]. split; [lia|]. split; [lia|].
    destruct fuel; cbn; [done|]. unfold Before. by rewrite Z.ltb_irrefl.
  - split; [done|]. split; [lia|]. split; [lia|]. apply IH; [lia|].
    assert (Truncate (Truncate from len + len) len = Truncate from len + len) as ->.
    { apply (Truncate_next len Hlen). }
    replace (Truncate from len + len) with (Truncate from len + 1 * len) by lia.
    rewrite Z.div_add by lia. lia.
Qed.

Lemma split_chain from to : from <= to -> chain len from (split len from to) to.
Proof.
  intros Hle. apply split_loop_chain; [done|]. unfold split_fuel.
  pose proof (Z.div_le_mono _ _ len Hlen (Truncate_mono len Hlen from to Hle)). lia.
Qed.

Lemma chain_le a ss b : chain len a ss b -> a <= b.
Proof. revert a. induction ss as [|s ss IH]; intros a; cbn; [lia|]. intros (? & ? & ? & ?%IH). lia. Qed.

Lemma chain_total a ss b : chain len a ss b -> list_sum span_length ss = b - a.
Proof.
  revert a. induction ss as [|s ss IH]; intros a; cbn [chain]; [intros ->; cbn; lia|].
  intros (Hs & _ & _ & Hc%IH). rewrite list_sum_cons, Hc. unfold span_length. lia.
Qed.
End spans.
