(* ===== verification/States.v ===== *)
(** The agent-state journal of [internal/journal/states.go]: how much of each
    window one of the agent's own states occupied, out of how much of it the
    agent was watching. *)

From stdpp Require Import prelude gmap strings sorting.
From Stdlib Require Import ZArith Lia.
From S2P Require Import Prelude GoTime GoStrings Journal Spans.
Local Open Scope Z_scope.
Local Open Scope go_scope.

Definition StateFailing : string := "failing".
Definition StateHalted : string := "halted".
Definition SubjectShip : string := "shipping".
Definition subjectKeySep : Ascii.ascii := Ascii.zero.

Record AgentState := mkAgentState {
  State : string;
  Subject : string;
  Since : option Time;
}.

Record StateRecord := mkStateRecord {
  rState : string;
  rSubject : string;
  WindowStart : Time;
  WindowSeconds : Z;
  OccupiedNanos : Z;
  ObservedNanos : Z;
  Entries : Z;
  AccruedTo : Time;
  OpenSince : option Time;
}.

Abbreviation stateKey := (string * string * Z)%type.

Record lastSeen := mkLastSeen { accruedTo : Time; since : option Time }.

Record States := mkStates {
  windowLength : Duration;
  open : gmap stateKey StateRecord;
  seen : gmap string lastSeen;
}.

Definition NewStates (len : Duration) : option States :=
  if len <=? 0 then None else Some (mkStates len ∅ ∅).

Definition seen_key (st : AgentState) : string := State st +:+ String subjectKeySep (Subject st).

Definition state_key (s : States) (st : AgentState) (at_ : Time) : stateKey :=
  (State st, Subject st, UnixNano (Truncate at_ (windowLength s))).

(** The record of a subject in the window holding an instant, made if absent. *)
Definition record (s : States) (st : AgentState) (at_ : Time) : StateRecord :=
  match open s !! state_key s st at_ with
  | Some r => r
  | None => mkStateRecord (State st) (Subject st) (Truncate at_ (windowLength s))
              (Z.quot (windowLength s) Second) 0 0 0 0 None
  end.

(** A change made through the pointer [record] returns. *)
Definition update (s : States) (st : AgentState) (at_ : Time) (f : StateRecord -> StateRecord) : States :=
  mkStates (windowLength s) (<[state_key s st at_ := f (record s st at_)]> (open s)) (seen s).

Definition addObserved (n : Z) (r : StateRecord) : StateRecord :=
  mkStateRecord (rState r) (rSubject r) (WindowStart r) (WindowSeconds r) (OccupiedNanos r)
    (ObservedNanos r +w n) (Entries r) (AccruedTo r) (OpenSince r).
Definition addOccupied (n : Z) (r : StateRecord) : StateRecord :=
  mkStateRecord (rState r) (rSubject r) (WindowStart r) (WindowSeconds r) (OccupiedNanos r +w n)
    (ObservedNanos r) (Entries r) (AccruedTo r) (OpenSince r).
Definition setAccrued (at_ : Time) (open_since : option Time) (r : StateRecord) : StateRecord :=
  mkStateRecord (rState r) (rSubject r) (WindowStart r) (WindowSeconds r) (OccupiedNanos r)
    (ObservedNanos r) (Entries r) at_ open_since.
Definition incEntries (r : StateRecord) : StateRecord :=
  mkStateRecord (rState r) (rSubject r) (WindowStart r) (WindowSeconds r) (OccupiedNanos r)
    (ObservedNanos r) (Entries r +w 1) (AccruedTo r) (OpenSince r).

(** From when the interval counts as occupied; the zero time is "not at all". *)
Definition occupied_from (st : AgentState) (prev : lastSeen) : Time :=
  match Since st, since prev with
  | None, _ => 0
  | Some _, Some _ => accruedTo prev
  | Some s, None => maxTime s (accruedTo prev)
  end.

(** The body of [accrue]'s loop, on the record of the span's window. *)
Definition accrue_span (st : AgentState) (occupiedFrom : Time) (sp : span) (r : StateRecord) : StateRecord :=
  let r := addObserved (Sub (span_end sp) (span_start sp)) r in
  let r := setAccrued (span_end sp) (Since st) r in
  if IsZero occupiedFrom then r
  else
    let start := maxTime occupiedFrom (span_start sp) in
    if Before start (span_end sp) then addOccupied (Sub (span_end sp) start) r else r.

Definition accrue (s : States) (st : AgentState) (prev : lastSeen) (at_ : Time) : States :=
  foldl (fun s sp => update s st (span_start sp) (accrue_span st (occupied_from st prev) sp))
    s (split (windowLength s) (accruedTo prev) at_).

(** [prev] is [None] for a subject not seen before. *)
Definition enter (s : States) (st : AgentState) (began : Time) (prev : option lastSeen) (at_ : Time) : States :=
  if bool_decide ((prev ≫= since) = Some began) then s
  else
    if bool_decide (prev = None) && bool_decide (OpenSince (record s st at_) = Some began)
    then update s st at_ id
    else update s st at_ incEntries.

Definition stamp (s : States) (st : AgentState) (at_ : Time) : States :=
  update s st at_ (setAccrued at_ (Since st)).

(** One subject of one pass. *)
Definition observe_one (at_ : Time) (s : States) (st : AgentState) : States :=
  if bool_decide (State st = ""%string) || bool_decide (Subject st = ""%string) then s
  else
    let key := seen_key st in
    let prev := seen s !! key in
    let s := match prev with
             | Some p => if After at_ (accruedTo p) then accrue s st p at_ else s
             | None => s
             end in
    let s := match Since st with Some began => enter s st began prev at_ | None => s end in
    let s := stamp s st at_ in
    mkStates (windowLength s) (open s) (<[key := mkLastSeen at_ (Since st)]> (seen s)).

Definition Observe (s : States) (at_ : Time) (states : list AgentState) : States :=
  foldl (observe_one at_) s states.

Definition clone (r : StateRecord) : StateRecord :=
  mkStateRecord (rState r) (rSubject r) (WindowStart r) (WindowSeconds r) (OccupiedNanos r)
    (ObservedNanos r) (Entries r) (AccruedTo r) (OpenSince r).

Definition less (a b : StateRecord) : bool :=
  lexi (WindowStart a) (WindowStart b) (lexi (rState a) (rState b) (go_lt (rSubject a) (rSubject b))).

#[export] Instance state_record : JournalRecord StateRecord stateKey (Time * (string * string)) := {
  record_key r := (rState r, rSubject r, UnixNano (WindowStart r));
  record_start := WindowStart;
  record_clone := clone;
  record_adopt := clone;
  record_less := less;
  sort_key r := (WindowStart r, (rState r, rSubject r));
  key_of_sort k := (k.2.1, k.2.2, UnixNano k.1);
}.

#[export] Instance state_laws : JournalLaws StateRecord stateKey (Time * (string * string)).
Proof. by split. Qed.

Definition Snapshots (s : States) : list StateRecord := snapshots (open s).

Definition Resume (s : States) (records : list StateRecord) : States * Z :=
  let '(m, seeded) := resume (open s) records in (mkStates (windowLength s) m (seen s), seeded).

Definition CloseBefore (s : States) (now : Time) : list StateRecord * States :=
  let '(out, m) := close_before (windowLength s) now (open s) in (out, mkStates (windowLength s) m (seen s)).

(** ** Invariant *)

Definition clean (st : AgentState) : Prop := has_byte subjectKeySep (State st) = false.

Definition mine (st : AgentState) (r : StateRecord) : Prop :=
  rState r = State st /\ rSubject r = Subject st.

(** A record of a window: it says nothing of time past [clk], has at most [n]
    entries, and occupancy within observation within what it has accrued. *)
Definition rec_ok (len : Duration) (clk n : Z) (r : StateRecord) : Prop :=
  nano_ok (WindowStart r) /\ Truncate (WindowStart r) len = WindowStart r /\
  WindowStart r <= AccruedTo r <= WindowStart r + len /\ AccruedTo r <= clk /\
  0 <= OccupiedNanos r <= ObservedNanos r /\ ObservedNanos r <= AccruedTo r - WindowStart r /\
  0 <= Entries r <= n.

Definition open_ok (len : Duration) (clk n : Z) (m : gmap stateKey StateRecord) : Prop :=
  forall k r, m !! k = Some r -> record_key r = k /\ rec_ok len clk n r.

(** Nothing of this subject is accrued past [t]. *)
Definition reaches (m : gmap stateKey StateRecord) (st : AgentState) (t : Time) : Prop :=
  forall k r, m !! k = Some r -> mine st r -> AccruedTo r <= t.

Definition ok (len : Duration) (clk n : Z) (s : States) : Prop :=
  windowLength s = len /\ open_ok len clk n (open s) /\
  (forall key p, seen s !! key = Some p -> accruedTo p <= clk /\ nano_ok (Truncate (accruedTo p) len)) /\
  (forall st p, clean st -> seen s !! seen_key st = Some p -> reaches (open s) st (accruedTo p)).

Lemma seen_key_inj st st' :
  clean st -> clean st' -> seen_key st = seen_key st' -> State st = State st' /\ Subject st = Subject st'.
Proof.
  unfold clean, seen_key. intros H H' E.
  pose proof (Cut_app _ (Subject st) _ H) as C. rewrite E, Cut_app in C by done. by simplify_eq.
Qed.

Lemma rec_ok_mono len clk clk' n n' r : clk <= clk' -> n <= n' -> rec_ok len clk n r -> rec_ok len clk' n' r.
Proof. unfold rec_ok. intuition lia. Qed.

Lemma open_ok_mono len clk clk' n n' m :
  clk <= clk' -> n <= n' -> open_ok len clk n m -> open_ok len clk' n' m.
Proof. intros Hc Hn H k r Hk. destruct (H k r Hk). split; [done|]. by eapply rec_ok_mono. Qed.

Lemma nano_ok_convex a b c : nano_ok a -> nano_ok c -> a <= b <= c -> nano_ok b.
Proof. unfold nano_ok. go_lia. Qed.

Lemma record_update s st a f : record (update s st a f) st a = f (record s st a).
Proof.
  unfold record at 1. change (state_key (update s st a f) st a) with (state_key s st a).
  unfold update. cbn [open]. by rewrite lookup_insert_eq.
Qed.

Lemma update_update s st a f g : update (update s st a f) st a g = update s st a (g ∘ f).
Proof.
  unfold update at 1. rewrite record_update.
  change (state_key (update s st a f) st a) with (state_key s st a).
  unfold update. cbn [windowLength open seen]. by rewrite insert_insert_eq.
Qed.

Lemma lookup_update s st a f k r :
  open (update s st a f) !! k = Some r <->
    state_key s st a = k /\ f (record s st a) = r \/ state_key s st a <> k /\ open s !! k = Some r.
Proof. apply lookup_insert_Some. Qed.

Section invariant.
Context (len : Duration) (Hlen : 0 < len) (Hmax : len <= maxInt64).

(** The record an update at [a] is handed. *)
Definition before_update (st : AgentState) (a n : Z) (r : StateRecord) : Prop :=
  mine st r /\ WindowStart r = Truncate a len /\
  0 <= OccupiedNanos r <= ObservedNanos r /\ ObservedNanos r <= a - Truncate a len /\
  0 <= Entries r <= n.

Lemma record_before s st a clk n :
  windowLength s = len -> open_ok len clk n (open s) -> 0 <= n ->
  nano_ok (Truncate a len) -> reaches (open s) st a ->
  before_update st a n (record s st a).
Proof.
  intros Hl Ho Hn Hna Hr. pose proof (Truncate_bounds len Hlen a) as Hb.
  unfold record. destruct (open s !! state_key s st a) as [r|] eqn:E.
  - destruct (Ho _ _ E) as [Hk (Hws & Hal & Ha & Hc & Hocc & Hobs & Hent)].
    unfold state_key in Hk. rewrite Hl in Hk. cbn in Hk. injection Hk as H1 H2 H3.
    pose proof (UnixNano_inj _ _ Hws Hna H3) as Hstart.
    assert (mine st r) as Hm by done. pose proof (Hr _ _ E Hm).
    split; [done|]. split; [done|]. lia.
  - rewrite Hl. split; [done|]. cbn. repeat split; lia.
Qed.

(** An update that accrues the window of [a] up to [b]. *)
Definition accrues (st : AgentState) (a b n n' : Z) (f : StateRecord -> StateRecord) : Prop :=
  forall r, before_update st a n r ->
    mine st (f r) /\ WindowStart (f r) = WindowStart r /\ AccruedTo (f r) = b /\
    0 <= OccupiedNanos (f r) <= ObservedNanos (f r) /\
    ObservedNanos (f r) <= b - Truncate a len /\ 0 <= Entries (f r) <= n'.

(** What survives of the invariant of the open records while one subject's
    interval is being accrued up to [b]. *)
Definition frame (st : AgentState) (s s' : States) : Prop :=
  windowLength s' = windowLength s /\ seen s' = seen s /\
  forall st' t, ~ (State st = State st' /\ Subject st = Subject st') ->
    reaches (open s) st' t -> reaches (open s') st' t.

Lemma frame_trans st s1 s2 s3 : frame st s1 s2 -> frame st s2 s3 -> frame st s1 s3.
Proof.
  intros (Hl & Hs & Hr) (Hl' & Hs' & Hr'). split; [congruence|]. split; [congruence|].
  intros st' t Hne H. by apply Hr', Hr.
Qed.

Lemma update_ok s st a b clk n n' f :
  windowLength s = len -> open_ok len clk n (open s) -> 0 <= n <= n' ->
  nano_ok (Truncate a len) -> reaches (open s) st a -> a <= b <= Truncate a len + len ->
  accrues st a b n n' f ->
  let s' := update s st a f in
  open_ok len (Z.max clk b) n' (open s') /\ reaches (open s') st b /\ frame st s s'.
Proof.
  intros Hl Ho Hn Hna Hr Hab Hf s'.
  pose proof (record_before s st a clk n Hl Ho ltac:(lia) Hna Hr) as Hb.
  destruct (Hf _ Hb) as ([Hm1 Hm2] & Hw & Ha & Hocc & Hobs & Hent).
  destruct Hb as (_ & Hw0 & _). rewrite Hw0 in Hw.
  pose proof (Truncate_bounds len Hlen a) as Htb.
  assert (record_key (f (record s st a)) = state_key s st a) as Hkey.
  { unfold state_key. cbn. by rewrite Hm1, Hm2, Hw, Hl. }
  split; [|split; [|split; [done|split; [done|]]]].
  - intros k r [[<- <-]|[_ Hk]]%lookup_update.
    + split; [done|]. unfold rec_ok. rewrite Hw, Ha.
      split; [done|]. split; [by apply Truncate_idem|]. lia.
    + eapply (open_ok_mono _ clk (Z.max clk b) n n'); [lia|lia|exact Ho|exact Hk].
  - intros k r [[<- <-]|[_ Hk]]%lookup_update Hm; [by rewrite Ha|].
    pose proof (Hr _ _ Hk Hm). lia.
  - intros st' t Hne Hrt k r [[<- <-]|[_ Hk]]%lookup_update [Hm1' Hm2']; [|by eapply Hrt].
    destruct Hne. split; congruence.
Qed.

Lemma accrue_span_accrues st of_ a b n :
  a <= b <= Truncate a len + len -> accrues st a b n n (accrue_span st of_ (mkSpan a b)).
Proof.
  intros Hab r ([Hm1 Hm2] & Hw & Hocc & Hobs & Hent). pose proof (Truncate_bounds len Hlen a) as Htb.
  unfold accrue_span. cbn [span_start span_end]. rewrite (Sub_exact b a) by go_lia.
  assert (wrap64 (ObservedNanos r + (b - a)) = ObservedNanos r + (b - a)) as Hw1 by (apply wrap64_id; go_lia).
  destruct (IsZero of_); [cbn; rewrite Hw1; repeat split; try done; lia|].
  assert (a <= maxTime of_ a) as Hge by (unfold maxTime, After; ltb_cases; lia).
  unfold Before. destruct (Z.ltb_spec (maxTime of_ a) b) as [Hlt|_]; cbn; rewrite Hw1.
  - rewrite Sub_exact, wrap64_id by (rewrite ?Sub_exact by go_lia; go_lia).
    repeat split; try done; lia.
  - repeat split; try done; lia.
Qed.

Lemma chain_next a s ss b :
  chain len a (s :: ss) b -> a < span_end s <= Truncate a len + len /\ span_end s <= b.
Proof. cbn. intuition. Qed.

Lemma nano_ok_between a m b :
  nano_ok (Truncate a len) -> nano_ok (Truncate b len) -> a <= m <= b -> nano_ok (Truncate m len).
Proof.
  intros Ha Hb [H1 H2]. eapply nano_ok_convex; [exact Ha|exact Hb|].
  split; by apply Truncate_mono.
Qed.

Definition accrue_spans (st : AgentState) (of_ : Time) (s : States) (ss : list span) : States :=
  foldl (fun s sp => update s st (span_start sp) (accrue_span st of_ sp)) s ss.

Lemma accrue_loop_ok st of_ n b ss s a clk :
  chain len a ss b -> 0 <= n ->
  windowLength s = len -> open_ok len clk n (open s) -> reaches (open s) st a ->
  nano_ok (Truncate a len) -> nano_ok (Truncate b len) -> a <= clk ->
  let s' := accrue_spans st of_ s ss in
  open_ok len (Z.max clk b) n (open s') /\ reaches (open s') st b /\ frame st s s'.
Proof.
  revert s a clk. induction ss as [|[x e] ss IH]; intros s a clk Hc Hn Hl Ho Hr Hna Hnb Hclk.
  { cbn in Hc. subst. cbn. split; [by eapply open_ok_mono; [| |exact Ho]; lia|].
    split; [done|]. by split. }
  pose proof (chain_next _ _ _ _ Hc) as [He Hle]. destruct Hc as (Hx & _ & _ & Hc). cbn in Hx, He, Hle, Hc. subst x.
  destruct (update_ok s st a e clk n n (accrue_span st of_ (mkSpan a e)) Hl Ho ltac:(lia) Hna Hr
              ltac:(lia) (accrue_span_accrues st of_ a e n ltac:(lia))) as (Ho' & Hr' & Hf).
  pose proof Hf as (Hl' & _).
  destruct (IH (update s st a (accrue_span st of_ (mkSpan a e))) e (Z.max clk e) Hc Hn)
    as (Ho'' & Hr'' & Hf''); [congruence|done|done|eapply (nano_ok_between a e b); [done|done|lia]|done|lia|].
  split; [eapply open_ok_mono; [| |exact Ho'']; lia|]. split; [done|]. by eapply frame_trans.
Qed.
(** Whether this pass counts an episode as begun. *)
Definition new_episode (s : States) (st : AgentState) (prev : option lastSeen) (at_ : Time) : bool :=
  match Since st with
  | None => false
  | Some began =>
      negb (bool_decide ((prev ≫= since) = Some began)) &&
      negb (bool_decide (prev = None) && bool_decide (OpenSince (record s st at_) = Some began))
  end.

Definition stamped (s : States) (st : AgentState) (prev : option lastSeen) (at_ : Time)
    (r : StateRecord) : StateRecord :=
  setAccrued at_ (Since st) (if new_episode s st prev at_ then incEntries r else r).

Lemma update_ext s st a f g : (forall r, f r = g r) -> update s st a f = update s st a g.
Proof. intros H. unfold update. by rewrite H. Qed.

(** [enter] and [stamp] are one change of one record. *)
Lemma enter_stamp s st prev at_ :
  stamp (match Since st with Some began => enter s st began prev at_ | None => s end) st at_
  = update s st at_ (stamped s st prev at_).
Proof.
  unfold stamp, stamped, new_episode. destruct (Since st) as [began|]; [|by apply update_ext].
  unfold enter. case_bool_decide as H1; cbn; [by apply update_ext|].
  destruct (bool_decide (prev = None) && _); cbn; rewrite update_update; by apply update_ext.
Qed.

Lemma stamped_accrues s st prev at_ n :
  0 <= n < maxInt64 -> accrues st at_ at_ n (n + 1) (stamped s st prev at_).
Proof.
  intros Hn r (Hm & Hw & Hocc & Hobs & Hent). unfold stamped. destruct (new_episode s st prev at_); cbn;
    [rewrite wrap64_id by go_lia|]; (split; [exact Hm|]); repeat split; lia.
Qed.

Definition accrued (s : States) (st : AgentState) (at_ : Time) : States :=
  match seen s !! seen_key st with
  | Some p => if After at_ (accruedTo p) then accrue s st p at_ else s
  | None => s
  end.

Lemma accrued_ok s st at_ clk n :
  ok len clk n s -> clean st -> clk <= at_ -> nano_ok (Truncate at_ len) -> 0 <= n ->
  open_ok len at_ n (open (accrued s st at_)) /\ reaches (open (accrued s st at_)) st at_ /\
  frame st s (accrued s st at_).
Proof.
  intros (Hl & Ho & Hseen & Hreach) Hcl Hat Hna Hn.
  assert (open_ok len at_ n (open s) /\ reaches (open s) st at_ /\ frame st s s) as Hid.
  { split; [by eapply open_ok_mono; [| |exact Ho]; lia|]. split; [|by split].
    intros k r Hk _. destruct (Ho _ _ Hk) as [_ (_&_&_&?&_)]. lia. }
  unfold accrued. destruct (seen s !! seen_key st) as [p|] eqn:E; [|exact Hid].
  unfold After. destruct (Z.ltb_spec (accruedTo p) at_) as [Hlt|_]; [|exact Hid].
  destruct (Hseen _ _ E) as [Hp Hnp].
  destruct (accrue_loop_ok st (occupied_from st p) n at_ (split len (accruedTo p) at_) s (accruedTo p) clk)
    as (H1 & H2 & H3); [by apply split_chain; [|lia]|done|done|done|by eapply Hreach|done|done|done|].
  unfold accrue. rewrite Hl. fold (accrue_spans st (occupied_from st p) s (split len (accruedTo p) at_)).
  rewrite Z.max_r in H1 by done. done.
Qed.

Lemma observe_one_ok s st at_ clk n :
  ok len clk n s -> clean st -> clk <= at_ -> nano_ok (Truncate at_ len) -> 0 <= n < maxInt64 ->
  ok len at_ (n + 1) (observe_one at_ s st).
Proof.
  intros Hok Hcl Hat Hna Hn.
  destruct (accrued_ok s st at_ clk n Hok Hcl Hat Hna ltac:(lia)) as (Ho & Hr & Hf).
  destruct Hok as (Hl & Ho0 & Hseen & Hreach).
  assert (ok len at_ (n + 1) s) as Hskip.
  { split; [done|]. split; [by eapply open_ok_mono; [| |exact Ho0]; lia|]. split; [|done].
    intros key p Hp. destruct (Hseen key p Hp). split; [lia|done]. }
  unfold observe_one. destruct (_ || _); [exact Hskip|]. clear Hskip Ho0.
  fold (accrued s st at_). set (s1 := accrued s st at_) in *. rewrite enter_stamp.
  pose proof (Truncate_bounds len Hlen at_) as Htb. pose proof Hf as (Hl1 & Hs1 & _).
  destruct (update_ok s1 st at_ at_ at_ n (n + 1) (stamped s1 st (seen s !! seen_key st) at_)) as (Ho2 & Hr2 & Hf2);
    [congruence|done|lia|done|done|lia|by apply stamped_accrues|].
  rewrite Z.max_id in Ho2. pose proof (frame_trans _ _ _ _ Hf Hf2) as (Hl3 & Hs3 & Hrest).
  unfold ok. cbn [windowLength open seen]. split; [congruence|]. split; [done|]. rewrite Hs3.
  split.
  - intros key p [[_ <-]|[_ Hp]]%lookup_insert_Some; [cbn; split; [lia|done]|].
    destruct (Hseen key p Hp). split; [lia|done].
  - intros st' p Hcl' [[Hkey <-]|[Hne Hp]]%lookup_insert_Some.
    + destruct (seen_key_inj st st' Hcl Hcl' Hkey) as [E1 E2]. cbn.
      intros k r Hk [Hm1 Hm2]. eapply Hr2; [exact Hk|]. split; congruence.
    + apply Hrest; [|by apply Hreach]. intros [E1 E2]. apply Hne. unfold seen_key. congruence.
Qed.
(** ** Totals of one subject over its open windows *)

Definition tot (h : StateRecord -> Z) (st : AgentState) (m : gmap stateKey StateRecord) : Z :=
  map_sum (fun r => if decide (rState r = State st /\ rSubject r = Subject st) then h r else 0) m.

(** A measure that a fresh record does not have any of. *)
Definition additive (h : StateRecord -> Z) : Prop :=
  forall a b c d, h (mkStateRecord a b c d 0 0 0 0 None) = 0.

Lemma fresh_or_open h s st a clk n :
  windowLength s = len -> open_ok len clk n (open s) -> additive h ->
  mine st (record s st a) /\
  from_option (fun r => if decide (rState r = State st /\ rSubject r = Subject st) then h r else 0) 0
    (open s !! state_key s st a) = h (record s st a).
Proof.
  intros Hl Ho Hh. unfold record. destruct (open s !! state_key s st a) as [r|] eqn:E; cbn.
  - destruct (Ho _ _ E) as [Hk _]. unfold state_key in Hk. cbn in Hk. injection Hk as H1 H2 H3.
    by rewrite decide_True.
  - by rewrite Hh.
Qed.

Lemma tot_update_state h s st a f clk n :
  windowLength s = len -> open_ok len clk n (open s) -> additive h ->
  mine st (f (record s st a)) ->
  tot h st (open (update s st a f)) = tot h st (open s) + h (f (record s st a)) - h (record s st a).
Proof.
  intros Hl Ho Hh Hm. destruct (fresh_or_open h s st a clk n Hl Ho Hh) as [_ Hold].
  unfold tot, update. cbn [open]. rewrite map_sum_insert, Hold.
  destruct Hm. rewrite decide_True by done. lia.
Qed.

Lemma tot_update_other h s st st' a f clk n :
  windowLength s = len -> open_ok len clk n (open s) -> additive h ->
  ~ (State st = State st' /\ Subject st = Subject st') ->
  mine st (f (record s st a)) ->
  tot h st' (open (update s st a f)) = tot h st' (open s).
Proof.
  intros Hl Ho Hh Hne [Hm1 Hm2].
  destruct (fresh_or_open (fun _ => 0) s st a clk n Hl Ho (fun _ _ _ _ => eq_refl)) as [[Hr1 Hr2] _].
  unfold tot, update. cbn [open]. rewrite map_sum_insert.
  rewrite decide_False by (intros [? ?]; apply Hne; split; congruence).
  destruct (open s !! state_key s st a) as [r|] eqn:E; cbn; [|lia].
  unfold record in Hr1, Hr2. rewrite E in Hr1, Hr2.
  rewrite decide_False by (intros [? ?]; apply Hne; split; congruence). lia.
Qed.

Lemma accrue_loop_tot h g st of_ n b ss s a clk :
  additive h ->
  (forall x e r, x < e <= Truncate x len + len -> before_update st x n r ->
     h (accrue_span st of_ (mkSpan x e) r) = h r + g (mkSpan x e)) ->
  chain len a ss b -> 0 <= n ->
  windowLength s = len -> open_ok len clk n (open s) -> reaches (open s) st a ->
  nano_ok (Truncate a len) -> nano_ok (Truncate b len) -> a <= clk ->
  tot h st (open (accrue_spans st of_ s ss)) = tot h st (open s) + list_sum g ss.
Proof.
  intros Hadd Hg. revert s a clk.
  induction ss as [|[x e] ss IH]; intros s a clk Hc Hn Hl Ho Hr Hna Hnb Hclk.
  { cbn [accrue_spans foldl list_sum foldr]. lia. }
  pose proof (chain_next _ _ _ _ Hc) as [He Hle].
  destruct Hc as (Hx & _ & _ & Hc). cbn [span_start span_end] in *. subst x.
  pose proof (accrue_span_accrues st of_ a e n ltac:(lia)) as Hacc.
  pose proof (record_before s st a clk n Hl Ho Hn Hna Hr) as Hb.
  destruct (update_ok s st a e clk n n (accrue_span st of_ (mkSpan a e)) Hl Ho ltac:(lia) Hna Hr
              ltac:(lia) Hacc) as (Ho' & Hr' & Hf).
  pose proof Hf as (Hl' & _).
  change (accrue_spans st of_ s (mkSpan a e :: ss))
    with (accrue_spans st of_ (update s st a (accrue_span st of_ (mkSpan a e))) ss).
  rewrite (IH _ e (Z.max clk e)); [|done|done|congruence|done|done|eapply (nano_ok_between a e b); [done|done|lia]|done|lia].
  rewrite (tot_update_state h s st a _ clk n Hl Ho Hadd) by apply (Hacc _ Hb).
  rewrite (Hg a e _ He Hb), list_sum_cons. lia.
Qed.

Lemma accrue_loop_tot_other h st st' of_ n b ss s a clk :
  additive h -> ~ (State st = State st' /\ Subject st = Subject st') ->
  chain len a ss b -> 0 <= n ->
  windowLength s = len -> open_ok len clk n (open s) -> reaches (open s) st a ->
  nano_ok (Truncate a len) -> nano_ok (Truncate b len) -> a <= clk ->
  tot h st' (open (accrue_spans st of_ s ss)) = tot h st' (open s).
Proof.
  intros Hadd Hne. revert s a clk.
  induction ss as [|[x e] ss IH]; intros s a clk Hc Hn Hl Ho Hr Hna Hnb Hclk; [done|].
  pose proof (chain_next _ _ _ _ Hc) as [He Hle].
  destruct Hc as (Hx & _ & _ & Hc). cbn [span_start span_end] in *. subst x.
  pose proof (accrue_span_accrues st of_ a e n ltac:(lia)) as Hacc.
  pose proof (record_before s st a clk n Hl Ho Hn Hna Hr) as Hb.
  destruct (update_ok s st a e clk n n (accrue_span st of_ (mkSpan a e)) Hl Ho ltac:(lia) Hna Hr
              ltac:(lia) Hacc) as (Ho' & Hr' & Hf).
  pose proof Hf as (Hl' & _).
  change (accrue_spans st of_ s (mkSpan a e :: ss))
    with (accrue_spans st of_ (update s st a (accrue_span st of_ (mkSpan a e))) ss).
  rewrite (IH _ e (Z.max clk e)); [|done|done|congruence|done|done|eapply (nano_ok_between a e b); [done|done|lia]|done|lia].
  apply (tot_update_other h s st st' a _ clk n Hl Ho Hadd Hne). apply (Hacc _ Hb).
Qed.
Definition occupied_in (of_ : Time) (sp : span) : Z :=
  if of_ =? 0 then 0 else Z.max 0 (span_end sp - Z.max of_ (span_start sp)).

Lemma occupied_chain of_ a ss b :
  chain len a ss b -> list_sum (occupied_in of_) ss = occupied_in of_ (mkSpan a b).
Proof.
  revert a. induction ss as [|[x e] ss IH]; intros a Hc.
  { cbn in Hc. subst. unfold occupied_in. cbn. destruct (of_ =? 0); lia. }
  destruct Hc as (Hx & He & Hle & Hc). cbn [span_start span_end] in *. subst x.
  pose proof (chain_le len _ _ _ Hc). rewrite list_sum_cons, (IH _ Hc).
  unfold occupied_in. cbn [span_start span_end]. destruct (of_ =? 0); lia.
Qed.

Lemma accrue_span_measures st of_ n x e r :
  x < e <= Truncate x len + len -> before_update st x n r ->
  let r' := accrue_span st of_ (mkSpan x e) r in
  ObservedNanos r' = ObservedNanos r + span_length (mkSpan x e) /\
  OccupiedNanos r' = OccupiedNanos r + occupied_in of_ (mkSpan x e) /\
  Entries r' = Entries r + 0.
Proof.
  intros Hxe (_ & _ & Hocc & Hobs & _) r'. pose proof (Truncate_bounds len Hlen x) as Htb.
  unfold r', accrue_span, span_length, occupied_in, IsZero. cbn [span_start span_end].
  rewrite (Sub_exact e x) by go_lia.
  destruct (Z.eqb_spec of_ 0) as [_|_]; [cbn; rewrite wrap64_id by go_lia; lia|].
  assert (maxTime of_ x = Z.max of_ x) as -> by (unfold maxTime, After; ltb_cases; lia).
  unfold Before. destruct (Z.ltb_spec (Z.max of_ x) e) as [Hlt|Hge]; cbn.
  - rewrite (Sub_exact e (Z.max of_ x)) by go_lia. rewrite !wrap64_id by go_lia. lia.
  - rewrite wrap64_id by go_lia. lia.
Qed.

(** What a subject's readings add up to, windows aside. *)
Record ledger := mkLedger { l_occupied : Z; l_observed : Z; l_entries : Z; l_prev : option lastSeen }.

(** Time since the previous reading, if the clock moved. *)
Definition elapsed (l : ledger) (at_ : Time) : Z :=
  match l_prev l with Some p => Z.max 0 (at_ - accruedTo p) | None => 0 end.

(** Open at both ends counts whole, opened in between from when it opened, and
    closed at this end not at all. *)
Definition occupied (l : ledger) (st : AgentState) (at_ : Time) : Z :=
  match Since st, l_prev l with
  | Some _, Some (mkLastSeen p (Some _)) => Z.max 0 (at_ - p)
  | Some b, Some (mkLastSeen p None) => Z.max 0 (at_ - Z.max b p)
  | _, _ => 0
  end.

Definition begins (l : ledger) (st : AgentState) : bool :=
  match Since st with
  | None => false
  | Some b => negb (bool_decide ((l_prev l ≫= since) = Some b))
  end.

Definition ledger_step (st0 : AgentState) (l : ledger) (reading : Time * AgentState) : ledger :=
  let '(at_, st) := reading in
  if decide (State st = State st0 /\ Subject st = Subject st0) then
    mkLedger (l_occupied l + occupied l st at_) (l_observed l + elapsed l at_)
      (l_entries l + Z.b2z (begins l st)) (Some (mkLastSeen at_ (Since st)))
  else l.

Definition keeps (st0 : AgentState) (l : ledger) (s : States) : Prop :=
  tot OccupiedNanos st0 (open s) = l_occupied l /\ tot ObservedNanos st0 (open s) = l_observed l /\
  tot Entries st0 (open s) = l_entries l /\ seen s !! seen_key st0 = l_prev l /\
  (l_prev l = None -> forall k r, open s !! k = Some r -> ~ mine st0 r).

Lemma nano_ok_after_zero t : nano_ok (Truncate t len) -> 0 < t.
Proof.
  intros H. pose proof (Truncate_bounds len Hlen t).
  unfold nano_ok, unixEpoch, Second in H. go_lia.
Qed.

Lemma accrued_tot h g s st p at_ clk n :
  ok len clk n s -> clean st -> clk <= at_ -> nano_ok (Truncate at_ len) -> 0 <= n ->
  seen s !! seen_key st = Some p -> accruedTo p < at_ -> additive h ->
  (forall x e r, x < e <= Truncate x len + len -> before_update st x n r ->
     h (accrue_span st (occupied_from st p) (mkSpan x e) r) = h r + g (mkSpan x e)) ->
  tot h st (open (accrued s st at_)) = tot h st (open s) + list_sum g (split len (accruedTo p) at_).
Proof.
  intros (Hl & Ho & Hseen & Hreach) Hcl Hat Hna Hn Hp Hlt Hadd Hg. destruct (Hseen _ _ Hp) as [Hpc Hnp].
  unfold accrued. rewrite Hp. unfold After. rewrite (proj2 (Z.ltb_lt _ _) Hlt). unfold accrue. rewrite Hl.
  apply (accrue_loop_tot h g st (occupied_from st p) n at_ _ s (accruedTo p) clk); try done.
  - apply split_chain; lia.
  - by eapply Hreach.
Qed.

(** One reading moves the totals of its subject as the ledger says. *)
Lemma accrued_measures s st l at_ clk n :
  ok len clk n s -> clean st -> clk <= at_ -> nano_ok (Truncate at_ len) -> 0 <= n ->
  seen s !! seen_key st = l_prev l ->
  tot ObservedNanos st (open (accrued s st at_)) = tot ObservedNanos st (open s) + elapsed l at_ /\
  tot OccupiedNanos st (open (accrued s st at_)) = tot OccupiedNanos st (open s) + occupied l st at_ /\
  tot Entries st (open (accrued s st at_)) = tot Entries st (open s).
Proof.
  intros Hok Hcl Hat Hna Hn Hp. unfold elapsed, occupied. rewrite <-Hp.
  destruct (seen s !! seen_key st) as [p|] eqn:E;
    [|unfold accrued; rewrite E; destruct (Since st); lia].
  pose proof Hok as (_ & _ & Hseen & _). destruct (Hseen _ _ E) as [Hpc Hnp].
  pose proof (nano_ok_after_zero _ Hnp) as Hpos.
  destruct (Z.ltb_spec (accruedTo p) at_) as [Hlt|Hge].
  2: { unfold accrued. rewrite E. unfold After. rewrite (proj2 (Z.ltb_ge _ _) Hge).
       destruct (Since st), p as [? []]; cbn in *; lia. }
  assert (chain len (accruedTo p) (split len (accruedTo p) at_) at_) as Hc by (apply split_chain; lia).
  pose proof (fun h g => accrued_tot h g s st p at_ clk n Hok Hcl Hat Hna Hn E Hlt) as Htot.
  rewrite (Htot ObservedNanos span_length), (Htot OccupiedNanos (occupied_in (occupied_from st p))),
    (Htot Entries (fun _ => 0));
    try (intros a b c d; reflexivity); try (intros x e r Hxe Hb; by apply (accrue_span_measures _ _ n)).
  rewrite (chain_total len _ _ _ Hc), (occupied_chain _ _ _ _ Hc).
  split; [lia|]. split.
  - f_equal. unfold occupied_in, occupied_from. cbn [span_start span_end].
    destruct (Since st) as [b|], p as [pa [ps|]]; cbn in *; try done.
    + rewrite (proj2 (Z.eqb_neq pa 0)) by lia. lia.
    + assert (maxTime b pa = Z.max b pa) as -> by (unfold maxTime, After; ltb_cases; lia).
      rewrite (proj2 (Z.eqb_neq (Z.max b pa) 0)) by lia. lia.
  - assert (forall ss : list span, list_sum (fun _ => 0) ss = 0) as -> by (induction ss; done). lia.
Qed.
Lemma keeps_same st st0 l s :
  State st = State st0 -> Subject st = Subject st0 -> keeps st l s -> keeps st0 l s.
Proof.
  unfold keeps, tot, mine, seen_key. intros -> -> H. exact H.
Qed.

(** No record of a subject: whatever it reaches is reached by none. *)
Lemma absent_reaches m st : (forall k r, m !! k = Some r -> ~ mine st r) <-> (forall t, reaches m st t).
Proof.
  split.
  - intros H t k r Hk Hm. by destruct (H k r Hk).
  - intros H k r Hk Hm. pose proof (H (AccruedTo r - 1) k r Hk Hm). lia.
Qed.

Lemma new_episode_begins s st l at_ clk n :
  windowLength s = len -> open_ok len clk n (open s) ->
  (l_prev l = None -> forall k r, open s !! k = Some r -> ~ mine st r) ->
  new_episode s st (l_prev l) at_ = begins l st.
Proof.
  intros Hl Ho Habs. unfold new_episode, begins. destruct (Since st) as [b|]; [|done].
  destruct (l_prev l) as [p|] eqn:E; [by rewrite (bool_decide_eq_false_2 (Some p = None)), andb_true_r by done|].
  rewrite andb_comm. unfold record.
  destruct (open s !! state_key s st at_) as [r|] eqn:Er; [|done].
  exfalso. destruct (fresh_or_open (fun _ => 0) s st at_ clk n Hl Ho (fun _ _ _ _ => eq_refl)) as [Hm _].
  unfold record in Hm. rewrite Er in Hm. by eapply Habs.
Qed.

Lemma stamped_tot s st l at_ n :
  windowLength s = len -> open_ok len at_ n (open s) -> reaches (open s) st at_ ->
  nano_ok (Truncate at_ len) -> 0 <= n < maxInt64 ->
  (l_prev l = None -> forall k r, open s !! k = Some r -> ~ mine st r) ->
  let s' := update s st at_ (stamped s st (l_prev l) at_) in
  tot ObservedNanos st (open s') = tot ObservedNanos st (open s) /\
  tot OccupiedNanos st (open s') = tot OccupiedNanos st (open s) /\
  tot Entries st (open s') = tot Entries st (open s) + Z.b2z (begins l st).
Proof.
  intros Hl Ho Hr Hna Hn Habs s'.
  pose proof (record_before s st at_ at_ n Hl Ho ltac:(lia) Hna Hr) as Hb.
  destruct (stamped_accrues s st (l_prev l) at_ n Hn _ Hb) as [Hm _].
  unfold s'. rewrite !(tot_update_state _ s st at_ _ at_ n Hl Ho) by done.
  unfold stamped. rewrite (new_episode_begins s st l at_ at_ n Hl Ho Habs).
  destruct Hb as (_ & _ & Hocc & Hobs & Hent).
  destruct (begins l st); cbn [setAccrued incEntries ObservedNanos OccupiedNanos Entries Z.b2z];
    [rewrite wrap64_id by go_lia|]; lia.
Qed.

Definition named (st : AgentState) : Prop := State st <> ""%string /\ Subject st <> ""%string.

Lemma observe_one_named at_ s st :
  named st ->
  observe_one at_ s st =
    let s1 := accrued s st at_ in
    let s2 := update s1 st at_ (stamped s1 st (seen s !! seen_key st) at_) in
    mkStates (windowLength s2) (open s2) (<[seen_key st := mkLastSeen at_ (Since st)]> (seen s2)).
Proof.
  intros [H1 H2]. unfold observe_one. rewrite !bool_decide_eq_false_2 by done. cbn [orb].
  fold (accrued s st at_). by rewrite enter_stamp.
Qed.

Lemma observe_one_keeps_mine st l s at_ clk n :
  ok len clk n s -> clean st -> named st -> clk <= at_ -> nano_ok (Truncate at_ len) ->
  0 <= n < maxInt64 -> keeps st l s -> keeps st (ledger_step st l (at_, st)) (observe_one at_ s st).
Proof.
  intros Hok Hcl Hnm Hat Hna Hn (Hocc & Hobs & Hent & Hseen & Habs).
  destruct (accrued_ok s st at_ clk n Hok Hcl Hat Hna ltac:(lia)) as (Ho & Hr & Hl1 & Hs1 & _).
  destruct (accrued_measures s st l at_ clk n Hok Hcl Hat Hna ltac:(lia) Hseen) as (A1 & A2 & A3).
  pose proof Hok as (Hl & _).
  assert (l_prev l = None -> forall k r, open (accrued s st at_) !! k = Some r -> ~ mine st r) as Habs1.
  { intros HN. unfold accrued. rewrite Hseen, HN. by apply Habs. }
  destruct (stamped_tot (accrued s st at_) st l at_ n) as (B1 & B2 & B3); [congruence|done..|].
  rewrite observe_one_named by done. cbn zeta. rewrite Hseen.
  unfold ledger_step. rewrite decide_True by done. unfold keeps.
  cbn [open seen l_occupied l_observed l_entries l_prev].
  split; [lia|]. split; [lia|]. split; [lia|]. split; [apply lookup_insert_eq|done].
Qed.

Lemma observe_one_keeps_other st0 st l s at_ clk n :
  ok len clk n s -> clean st -> clean st0 -> named st -> clk <= at_ -> nano_ok (Truncate at_ len) ->
  0 <= n < maxInt64 -> ~ (State st = State st0 /\ Subject st = Subject st0) ->
  keeps st0 l s -> keeps st0 l (observe_one at_ s st).
Proof.
  intros Hok Hcl Hcl0 Hnm Hat Hna Hn Hne (Hocc & Hobs & Hent & Hseen & Habs).
  destruct (accrued_ok s st at_ clk n Hok Hcl Hat Hna ltac:(lia)) as (Ho & Hr & Hf).
  pose proof Hok as (Hl & Ho0 & Hsn & Hrch). pose proof Hf as (Hl1 & Hs1 & _).
  pose proof (Truncate_bounds len Hlen at_) as Htb.
  set (s1 := accrued s st at_) in *. set (g := stamped s1 st (seen s !! seen_key st) at_).
  pose proof (stamped_accrues s1 st (seen s !! seen_key st) at_ n Hn) as Hg. fold g in Hg.
  destruct (update_ok s1 st at_ at_ at_ n (n + 1) g) as (_ & _ & Hf2); [congruence|done|lia|done|done|lia|done|].
  assert (forall h, additive h -> tot h st0 (open (update s1 st at_ g)) = tot h st0 (open s)) as Htot.
  { intros h Hadd.
    rewrite (tot_update_other h s1 st st0 at_ g at_ n ltac:(congruence) Ho Hadd Hne) by
      (apply (Hg _ (record_before s1 st at_ at_ n ltac:(congruence) Ho ltac:(lia) Hna Hr))).
    unfold s1, accrued. destruct (seen s !! seen_key st) as [p|] eqn:E; [|done].
    unfold After. destruct (Z.ltb_spec (accruedTo p) at_) as [Hlt|_]; [|done].
    destruct (Hsn _ _ E) as [Hpc Hnp]. unfold accrue. rewrite Hl.
    apply (accrue_loop_tot_other h st st0 (occupied_from st p) n at_ _ s (accruedTo p) clk); try done.
    - apply split_chain; lia.
    - lia.
    - by eapply Hrch. }
  rewrite observe_one_named by done. cbn zeta. fold s1 g. unfold keeps. cbn [open seen].
  rewrite !Htot by done. split; [done|]. split; [done|]. split; [done|].
  destruct (frame_trans _ _ _ _ Hf Hf2) as (_ & Hs3 & Hrest). rewrite Hs3. split.
  - rewrite lookup_insert_ne; [done|]. intros Hk. by apply Hne, seen_key_inj.
  - intros HN. apply absent_reaches. intros t. apply Hrest; [done|]. by apply absent_reaches, Habs.
Qed.
(** ** Sequences of passes *)

Definition observe_all (s : States) (passes : list (Time * list AgentState)) : States :=
  foldl (fun s p => Observe s p.1 p.2) s passes.

Definition readings (passes : list (Time * list AgentState)) : list (Time * AgentState) :=
  mjoin ((fun p => (fun st => (p.1, st)) <$> p.2) <$> passes).

Definition ledger_of (st0 : AgentState) (rs : list (Time * AgentState)) : ledger :=
  foldl (ledger_step st0) (mkLedger 0 0 0 None) rs.

(** The clock does not go back, and the window starts fit an [openKey]. *)
Fixpoint orderly (clk : Time) (rs : list (Time * AgentState)) : Prop :=
  match rs with
  | [] => True
  | (at_, st) :: rs => clk <= at_ /\ nano_ok (Truncate at_ len) /\ clean st /\ orderly at_ rs
  end.

Definition observe_reading (s : States) (r : Time * AgentState) : States := observe_one r.1 s r.2.

Lemma observe_all_readings s passes : observe_all s passes = foldl observe_reading s (readings passes).
Proof.
  revert s. induction passes as [|[at_ sts] ps IH]; intros s; [done|].
  cbn [observe_all foldl readings fmap list_fmap mjoin list_join].
  rewrite foldl_app. fold (observe_all (Observe s at_ sts) ps). rewrite IH. cbn [fst snd]. f_equal.
  unfold Observe. clear. revert s. induction sts as [|st sts IH]; intros s; [done|]. cbn. apply IH.
Qed.

Lemma observe_readings_ok rs s clk n :
  ok len clk n s -> orderly clk rs -> 0 <= n -> n + Z.of_nat (length rs) <= maxInt64 ->
  exists clk', clk <= clk' /\ ok len clk' (n + Z.of_nat (length rs)) (foldl observe_reading s rs).
Proof.
  revert s clk n. induction rs as [|[at_ st] rs IH]; intros s clk n Hok Hord Hn Hmx.
  { exists clk. rewrite Z.add_0_r. done. }
  destruct Hord as (Hat & Hna & Hcl & Hord). cbn [length] in Hmx.
  pose proof (observe_one_ok s st at_ clk n Hok Hcl Hat Hna ltac:(lia)) as Hok'.
  destruct (IH _ at_ (n + 1) Hok' Hord ltac:(lia) ltac:(lia)) as (clk' & Hclk & Hfin).
  exists clk'. split; [lia|]. cbn [foldl length]. unfold observe_reading at 2. cbn [fst snd].
  replace (n + Z.of_nat (S (length rs))) with (n + 1 + Z.of_nat (length rs)) by lia. exact Hfin.
Qed.

Lemma observe_readings_keeps st0 rs l s clk n :
  clean st0 -> named st0 -> ok len clk n s -> orderly clk rs -> 0 <= n ->
  n + Z.of_nat (length rs) <= maxInt64 -> keeps st0 l s ->
  keeps st0 (foldl (ledger_step st0) l rs) (foldl observe_reading s rs).
Proof.
  intros Hcl0 Hnm0. revert l s clk n.
  induction rs as [|[at_ st] rs IH]; intros l s clk n Hok Hord Hn Hmx Hk; [done|].
  destruct Hord as (Hat & Hna & Hcl & Hord). cbn [length] in Hmx.
  pose proof (observe_one_ok s st at_ clk n Hok Hcl Hat Hna ltac:(lia)) as Hok'.
  cbn [foldl]. unfold observe_reading at 2. cbn [fst snd].
  apply (IH _ _ at_ (n + 1)); [done|done|lia|lia|].
  destruct (decide (State st = State st0 /\ Subject st = Subject st0)) as [[E1 E2]|Hne].
  - assert (ledger_step st0 l (at_, st) = ledger_step st l (at_, st)) as ->.
    { unfold ledger_step. by rewrite !decide_True. }
    apply (keeps_same st); [done|done|].
    assert (named st) by (unfold named in *; by rewrite E1, E2).
    eapply observe_one_keeps_mine; try done; [lia|]. by apply (keeps_same st0).
  - assert (ledger_step st0 l (at_, st) = l) as ->.
    { unfold ledger_step. by rewrite decide_False. }
    destruct (decide (named st)) as [Hnm|Hnm].
    + eapply observe_one_keeps_other; try done. lia.
    + unfold observe_one, named in *.
      rewrite (proj2 (orb_true_iff _ _)); [done|]. rewrite !bool_decide_eq_true.
      destruct (decide (State st = ""%string)); [by left|right].
      destruct (decide (Subject st = ""%string)); [done|]. tauto.
Qed.

Lemma ok_new clk : ok len clk 0 (mkStates len ∅ ∅).
Proof.
  split; [done|]. cbn [open seen]. split; [by intros k r Hk|]. split; [by intros k p Hk|by intros st p _ Hk].
Qed.

Lemma keeps_new st0 : keeps st0 (mkLedger 0 0 0 None) (mkStates len ∅ ∅).
Proof. unfold keeps, tot. cbn. rewrite !map_sum_empty. repeat split. by intros _ k r Hk. Qed.

(** ** Everything a run of the agent does to the journal, crashes included *)

(** [reach clk n s]: [s] arises by [clk] after at most [n] readings.  A crash
    loses everything since some flush, whose records the next process resumes
    from; the spool may have lost part of them. *)
Inductive reach : Time -> Z -> States -> Prop :=
| reach_start clk : reach clk 0 (mkStates len ∅ ∅)
| reach_pass clk n s at_ sts :
    reach clk n s -> orderly clk (readings [(at_, sts)]) -> n + Z.of_nat (length sts) <= maxInt64 ->
    clk <= at_ -> reach at_ (n + Z.of_nat (length sts)) (Observe s at_ sts)
| reach_flush clk n s now : reach clk n s -> reach clk n (CloseBefore s now).2
| reach_crash clk clk' n s written :
    reach clk n s -> written ⊆ Snapshots s -> clk <= clk' ->
    reach clk' n (Resume (mkStates len ∅ ∅) written).1.

Lemma reach_nonneg clk n s : reach clk n s -> 0 <= n.
Proof. induction 1; lia. Qed.

Lemma orderly_same_time clk at_ sts :
  orderly clk (readings [(at_, sts)]) -> orderly clk ((fun st => (at_, st)) <$> sts).
Proof. unfold readings. cbn. by rewrite app_nil_r. Qed.

Lemma Observe_reaches sts s clk at_ n :
  ok len clk n s -> orderly clk ((fun st => (at_, st)) <$> sts) -> clk <= at_ ->
  0 <= n -> n + Z.of_nat (length sts) <= maxInt64 ->
  ok len at_ (n + Z.of_nat (length sts)) (Observe s at_ sts).
Proof.
  revert s clk n. induction sts as [|st sts IH]; intros s clk n Hok Hord Hat Hn Hmx.
  { destruct Hok as (Hl & Ho & Hseen & Hr). cbn. rewrite Z.add_0_r. split; [done|].
    split; [by eapply open_ok_mono; [| |exact Ho]; lia|]. split; [|done].
    intros key p Hp. destruct (Hseen key p Hp). split; [lia|done]. }
  destruct Hord as (_ & Hna & Hcl & Hord). cbn [length] in *.
  pose proof (observe_one_ok s st at_ clk n Hok Hcl Hat Hna ltac:(lia)) as Hok'.
  pose proof (IH _ at_ (n + 1) Hok' Hord ltac:(lia) ltac:(lia) ltac:(lia)) as H.
  cbn [Observe foldl]. fold (Observe (observe_one at_ s st) at_ sts).
  replace (n + Z.of_nat (S (length sts))) with (n + 1 + Z.of_nat (length sts)) by lia. exact H.
Qed.

Lemma resume_clones_lookup (written : list StateRecord) (m : gmap stateKey StateRecord) k r :
  (forall r, r ∈ written -> exists k, m !! k = Some r /\ record_key r = k) ->
  (resume (∅ : gmap stateKey StateRecord) written).1 !! k = Some r -> m !! k = Some r.
Proof.
  intros Hw. unfold resume. rewrite resume_lookup, lookup_empty.
  destruct (head _) as [r0|] eqn:E; [|done]. cbn. intros [= <-].
  apply head_Some_elem_of, list_elem_of_filter in E as [Hk Hin].
  destruct (Hw r0 Hin) as (k' & Hm & Hk'). assert (clone r0 = r0) as -> by by destruct r0.
  rewrite <-Hk, Hk'. exact Hm.
Qed.

Lemma reach_ok clk n s : reach clk n s -> ok len clk n s.
Proof.
  induction 1 as [clk|clk n s at_ sts Hs IH Hord Hmx Hat|clk n s now Hs IH|clk clk' n s written Hs IH Hw Hclk].
  - apply ok_new.
  - eapply Observe_reaches; [done|by apply orderly_same_time|done|by eapply reach_nonneg|done].
  - destruct IH as (Hl & Ho & Hseen & Hr). unfold CloseBefore.
    pose proof (close_before_open (windowLength s) now (open s)) as Hc.
    destruct (close_before (windowLength s) now (open s)) as [out m]. cbn [snd] in *.
    split; [done|]. cbn [open seen]. split; [intros k r Hk; apply Ho; by apply Hc|]. split; [done|].
    intros st p Hcl Hp k r Hk. eapply Hr; [done|done|by apply Hc].
  - destruct IH as (Hl & Ho & _ & _). unfold Resume. cbn [open windowLength seen].
    pose proof (resume_clones_lookup written (open s)) as Hres.
    destruct (resume ∅ written) as [m seeded]. cbn [fst] in *.
    split; [done|]. cbn [open seen]. split; [|split; [by intros key p Hp|by intros st p _ Hp]].
    intros k r Hk. apply (open_ok_mono len clk clk' n n _) in Ho; [|done|done]. apply Ho.
    apply Hres; [|done]. intros r0 Hr0. apply Hw, elem_of_snapshots in Hr0 as (k0 & r1 & Hk0 & ->).
    exists k0. destruct (Ho _ _ Hk0) as [Hkey _]. destruct r1. done.
Qed.
End invariant.

(** ** Properties *)

(** Whatever passes, flushes and crashes the agent goes through, with a clock
    that does not go back, every record of the state journal is one a reader can
    use: occupancy never exceeds observation, observation never exceeds the part
    of the window accrued so far nor the window itself, nothing is claimed about
    the future, and resuming after a crash does not measure a span twice. *)
Theorem state_records_bounded (len : Duration) (clk : Time) (n : Z) (s : States) :
  0 < len <= maxInt64 -> reach len clk n s ->
  Forall (fun r =>
    0 <= OccupiedNanos r <= ObservedNanos r /\
    ObservedNanos r <= AccruedTo r - WindowStart r <= len /\
    AccruedTo r <= clk /\ 0 <= Entries r <= n) (Snapshots s).
Proof.
  intros [Hlen Hmax] Hr. destruct (reach_ok len Hlen Hmax clk n s Hr) as (_ & Ho & _).
  apply Forall_forall. intros r (k & r0 & Hk & ->)%elem_of_snapshots.
  destruct (Ho _ _ Hk) as [_ (_ & _ & ? & ? & ? & ? & ?)]. cbn. lia.
Qed.

Definition demo_state (b : option Time) : AgentState := mkAgentState StateFailing "pods" b.
Definition demo_passes : list (Time * list AgentState) :=
  let t := unixEpoch in
  [(t, [demo_state None]); (t + 30 * Minute, [demo_state (Some (t + 10 * Minute))]);
   (t + 90 * Minute, [demo_state (Some (t + 10 * Minute))]); (t + 100 * Minute, [demo_state None])].

(** The first two passes, a crash after a flush, and the rest of the window. *)
Definition demo_crashed : States :=
  let s := Observe (Observe (mkStates Hour ∅ ∅) unixEpoch [demo_state None]) (unixEpoch + Minute)
             [demo_state (Some unixEpoch)] in
  Observe (Resume (mkStates Hour ∅ ∅) (Snapshots s)).1 (unixEpoch + 2 * Minute) [demo_state None].

Lemma orderly_one clk at_ b :
  clk <= at_ -> nano_ok (Truncate at_ Hour) -> orderly Hour clk (readings [(at_, [demo_state b])]).
Proof. intros Hle Hn. split; [done|]. split; [done|]. split; [reflexivity|exact I]. Qed.

Lemma state_records_bounded_witness :
  Forall (fun r =>
    0 <= OccupiedNanos r <= ObservedNanos r /\
    ObservedNanos r <= AccruedTo r - WindowStart r <= Hour /\
    AccruedTo r <= unixEpoch + 2 * Minute /\ 0 <= Entries r <= 3) (Snapshots demo_crashed).
Proof.
  apply (state_records_bounded Hour (unixEpoch + 2 * Minute) 3 demo_crashed);
    [vm_compute; split; [reflexivity|discriminate]|].
  assert (forall m, 0 <= m <= 2 -> nano_ok (Truncate (unixEpoch + m * Minute) Hour)) as Hn.
  { intros m Hm. apply (nano_ok_convex (unixEpoch - Hour) _ (unixEpoch + Hour));
      [vm_compute; split; discriminate..|].
    pose proof (Truncate_bounds Hour ltac:(reflexivity) (unixEpoch + m * Minute)).
    unfold Hour, Minute, unixEpoch, Second in *. lia. }
  unfold demo_crashed.
  apply (reach_pass Hour (unixEpoch + Minute) 2 _ _ [demo_state None]);
    [|apply orderly_one; [vm_compute; discriminate|apply (Hn 2); lia]|vm_compute; discriminate|vm_compute; discriminate].
  eapply reach_crash; [|reflexivity|reflexivity].
  apply (reach_pass Hour unixEpoch 1 _ _ [demo_state (Some unixEpoch)]);
    [|apply orderly_one; [vm_compute; discriminate|apply (Hn 1); lia]|vm_compute; discriminate|vm_compute; discriminate].
  apply (reach_pass Hour unixEpoch 0 _ _ [demo_state None]);
    [constructor|apply orderly_one; [reflexivity|apply (Hn 0); lia]|vm_compute; discriminate|reflexivity].
Defined.

(** C14. Cutting time at window boundaries neither loses nor invents any: for a
    process that observed a subject through any passes of a clock that does not
    go back, whatever other subjects it watched, the observed time of its records
    sums to the time between its readings, the occupied time to the part of it
    the state was open under the journal's reading rule, and the entries to the
    number of episodes begun. *)
Theorem state_time_accounted (len : Duration) (clk : Time) (passes : list (Time * list AgentState))
    (st : AgentState) :
  0 < len <= maxInt64 -> orderly len clk (readings passes) ->
  Z.of_nat (length (readings passes)) <= maxInt64 -> clean st -> named st ->
  let s := observe_all (mkStates len ∅ ∅) passes in
  let l := ledger_of st (readings passes) in
  tot ObservedNanos st (open s) = l_observed l /\
  tot OccupiedNanos st (open s) = l_occupied l /\
  tot Entries st (open s) = l_entries l.
Proof.
  intros [Hlen Hmax] Hord Hn Hcl Hnm. cbn zeta. rewrite observe_all_readings.
  destruct (observe_readings_keeps len Hlen Hmax st (readings passes) (mkLedger 0 0 0 None)
              (mkStates len ∅ ∅) clk 0) as (H1 & H2 & H3 & _);
    [done|done|apply ok_new|done|done|done|apply keeps_new|done].
Qed.

Lemma state_time_accounted_witness :
  let s := observe_all (mkStates Hour ∅ ∅) demo_passes in
  let l := ledger_of (demo_state None) (readings demo_passes) in
  l_observed l = 100 * Minute /\ l_occupied l = 80 * Minute /\ l_entries l = 1 /\
  tot ObservedNanos (demo_state None) (open s) = l_observed l /\
  tot OccupiedNanos (demo_state None) (open s) = l_occupied l /\
  tot Entries (demo_state None) (open s) = l_entries l.
Proof.
  split; [vm_compute; reflexivity|]. split; [vm_compute; reflexivity|]. split; [vm_compute; reflexivity|].
  apply (state_time_accounted Hour unixEpoch demo_passes (demo_state None)).
  - vm_compute. split; [reflexivity|discriminate].
  - vm_compute. repeat split; discriminate.
  - vm_compute. discriminate.
  - vm_compute. reflexivity.
  - split; discriminate.
Defined.
