(* ===== verification/Counters.v ===== *)
(** The counter journal of [internal/journal/counters.go]: the agent's own
    monotonic counters, as change per window. *)

From stdpp Require Import prelude gmap strings sorting.
From Stdlib Require Import ZArith Lia.
From S2P Require Import Prelude GoTime Journal Spans.
Local Open Scope Z_scope.
Local Open Scope go_scope.

Record CounterRecord := mkCounterRecord {
  Counter : string;
  WindowStart : Time;
  WindowSeconds : Z;
  Delta : Z;
  ObservedNanos : Z;
  AccruedTo : Time;
}.

Abbreviation counterKey := (string * Z)%type.

Record Counters := mkCounters {
  windowLength : Duration;
  open : gmap counterKey CounterRecord;
  prev : gmap string Z;
  prevSince : Time;
  prevAt : Time;
}.

Definition fresh (len : Duration) (m : gmap counterKey CounterRecord) : Counters := mkCounters len m ∅ 0 0.

Definition NewCounters (len : Duration) : option Counters :=
  if len <=? 0 then None else Some (fresh len ∅).

Definition counter_key (c : Counters) (name : string) (at_ : Time) : counterKey :=
  (name, UnixNano (Truncate at_ (windowLength c))).

Definition record (c : Counters) (name : string) (at_ : Time) : CounterRecord :=
  match open c !! counter_key c name at_ with
  | Some r => r
  | None => mkCounterRecord name (Truncate at_ (windowLength c)) (Z.quot (windowLength c) Second) 0 0 0
  end.

(** A change made through the pointer [record] returns. *)
Definition update (c : Counters) (name : string) (at_ : Time) (f : CounterRecord -> CounterRecord) : Counters :=
  mkCounters (windowLength c) (<[counter_key c name at_ := f (record c name at_)]> (open c))
    (prev c) (prevSince c) (prevAt c).

Definition addObserved (n : Z) (r : CounterRecord) : CounterRecord :=
  mkCounterRecord (Counter r) (WindowStart r) (WindowSeconds r) (Delta r) (ObservedNanos r +w n) (AccruedTo r).
Definition addDelta (n : Z) (r : CounterRecord) : CounterRecord :=
  mkCounterRecord (Counter r) (WindowStart r) (WindowSeconds r) (Delta r +w n) (ObservedNanos r) (AccruedTo r).
Definition setAccruedTo (at_ : Time) (r : CounterRecord) : CounterRecord :=
  mkCounterRecord (Counter r) (WindowStart r) (WindowSeconds r) (Delta r) (ObservedNanos r) at_.

(** The inner loop over one span: every counter of the pass was watched. *)
Definition observe_span (names : list (string * Z)) (c : Counters) (sp : span) : Counters :=
  foldl (fun c nr => update c nr.1 (span_start sp) (addObserved (Sub (span_end sp) (span_start sp)))) c names.

(** One counter's rise; a counter that fell, or that the previous pass did not
    have, rises by nothing. *)
Definition rise (at_ : Time) (c : Counters) (nr : string * Z) : Counters :=
  match prev c !! nr.1 with
  | Some was => if nr.2 <? was then c else update c nr.1 at_ (addDelta (nr.2 -w was))
  | None => c
  end.

Definition accrue (c : Counters) (at_ : Time) (readings : gmap string Z) : Counters :=
  let names := map_to_list readings in
  let c := foldl (observe_span names) c (split (windowLength c) (prevAt c) at_) in
  foldl (rise at_) c names.

Definition stamp (at_ : Time) (c : Counters) (nr : string * Z) : Counters :=
  update c nr.1 at_ (setAccruedTo at_).

Definition sameBase (c : Counters) (since : Time) : bool :=
  negb (IsZero (prevSince c)) && (prevSince c =? since).

Definition Observe (c : Counters) (at_ since : Time) (readings : gmap string Z) : Counters :=
  let c := if sameBase c since && After at_ (prevAt c) then accrue c at_ readings else c in
  let c := foldl (stamp at_) c (map_to_list readings) in
  mkCounters (windowLength c) (open c) readings since at_.

Definition less (a b : CounterRecord) : bool :=
  lexi (WindowStart a) (WindowStart b) (go_lt (Counter a) (Counter b)).

#[export] Instance counter_record : JournalRecord CounterRecord counterKey (Time * string) := {
  record_key r := (Counter r, UnixNano (WindowStart r));
  record_start := WindowStart;
  record_clone r := r;
  record_adopt r := r;
  record_less := less;
  sort_key r := (WindowStart r, Counter r);
  key_of_sort k := (k.2, UnixNano k.1);
}.

#[export] Instance counter_laws : JournalLaws CounterRecord counterKey (Time * string).
Proof. by split. Qed.

Definition Snapshots (c : Counters) : list CounterRecord := snapshots (open c).

Definition Resume (c : Counters) (records : list CounterRecord) : Counters * Z :=
  let '(m, seeded) := resume (open c) records in
  (mkCounters (windowLength c) m (prev c) (prevSince c) (prevAt c), seeded).

Definition CloseBefore (c : Counters) (now : Time) : list CounterRecord * Counters :=
  let '(out, m) := close_before (windowLength c) now (open c) in
  (out, mkCounters (windowLength c) m (prev c) (prevSince c) (prevAt c)).

(** ** Totals of one counter *)

Definition tot (h : CounterRecord -> Z) (name : string) (m : gmap counterKey CounterRecord) : Z :=
  map_sum (fun r => if decide (Counter r = name) then h r else 0) m.

Definition nonneg (m : gmap counterKey CounterRecord) : Prop :=
  forall k r, m !! k = Some r -> 0 <= Delta r /\ 0 <= ObservedNanos r.

(** What the passes say of one counter, windows aside: the rises between
    readings on one base, and the time between them. *)
Record ledger := mkLedger { l_delta : Z; l_observed : Z; l_prev : gmap string Z; l_since : Time; l_at : Time }.

Record pass := mkPass { p_at : Time; p_since : Time; p_readings : gmap string Z }.

Definition comparable (l : ledger) (p : pass) : bool :=
  negb (l_since l =? 0) && (l_since l =? p_since p) && (l_at l <? p_at p).

Definition ledger_step (name : string) (l : ledger) (p : pass) : ledger :=
  let d := match l_prev l !! name, p_readings p !! name with
           | Some was, Some now => Z.max 0 (now - was)
           | _, _ => 0
           end in
  let o := match p_readings p !! name with Some _ => p_at p - l_at l | None => 0 end in
  if comparable l p
  then mkLedger (l_delta l + d) (l_observed l + o) (p_readings p) (p_since p) (p_at p)
  else mkLedger (l_delta l) (l_observed l) (p_readings p) (p_since p) (p_at p).

Definition ledger_of (name : string) (l : ledger) (ps : list pass) : ledger := foldl (ledger_step name) l ps.

Definition observe_all (c : Counters) (ps : list pass) : Counters :=
  foldl (fun c p => Observe c (p_at p) (p_since p) (p_readings p)) c ps.

Section accounting.
Context (len : Duration) (Hlen : 0 < len <= maxInt64) (name : string).

Definition mine_nonneg (m : gmap counterKey CounterRecord) : Prop :=
  forall k r, m !! k = Some r -> Counter r = name -> 0 <= Delta r /\ 0 <= ObservedNanos r.

Definition sane (c : Counters) : Prop :=
  windowLength c = len /\ filed (open c) /\ mine_nonneg (open c).

(** [c'] is [c] with [d] more of the counter and [o] more of watching it. *)
Definition adds (d o : Z) (c c' : Counters) : Prop :=
  sane c' /\ prev c' = prev c /\ prevSince c' = prevSince c /\ prevAt c' = prevAt c /\
  tot Delta name (open c') = tot Delta name (open c) + d /\
  tot ObservedNanos name (open c') = tot ObservedNanos name (open c) + o.

Lemma adds_refl c : sane c -> adds 0 0 c c.
Proof. intros H. split; [exact H|]. do 3 (split; [done|]). lia. Qed.

Lemma adds_trans d1 o1 d2 o2 c1 c2 c3 : adds d1 o1 c1 c2 -> adds d2 o2 c2 c3 -> adds (d1 + d2) (o1 + o2) c1 c3.
Proof.
  intros (_ & Hp & Hs & Ha & Hd & Ho) (H & Hp' & Hs' & Ha' & Hd' & Ho').
  split; [exact H|]. split; [congruence|]. split; [congruence|]. split; [congruence|]. lia.
Qed.

Lemma record_is c n at_ :
  windowLength c = len -> filed (open c) -> record_key (record c n at_) = counter_key c n at_.
Proof.
  intros Hl Hf. unfold record. destruct (open c !! counter_key c n at_) eqn:E; [by apply Hf|done].
Qed.

Lemma record_name c n at_ : filed (open c) -> Counter (record c n at_) = n.
Proof.
  intros Hf. unfold record. destruct (open c !! counter_key c n at_) as [r|] eqn:E; [|done].
  pose proof (Hf _ _ E) as Hk. unfold counter_key in Hk. cbn in Hk. congruence.
Qed.

(** What a record holds is part of the total. *)
Lemma record_le_tot h c n at_ :
  (forall a b d e, h (mkCounterRecord a b d 0 0 e) = 0) ->
  (forall k r, open c !! k = Some r -> Counter r = name -> 0 <= h r) ->
  filed (open c) -> n = name ->
  0 <= h (record c n at_) <= tot h name (open c).
Proof.
  intros Hz Hnn Hf ->. unfold tot.
  set (g := fun r => if decide (Counter r = name) then h r else 0).
  assert (forall m : gmap counterKey CounterRecord,
            (forall k r, m !! k = Some r -> Counter r = name -> 0 <= h r) -> 0 <= map_sum g m) as Hsum.
  { intros m. induction m as [|k r m Hk IH] using map_ind; intros Hm; [by rewrite map_sum_empty|].
    rewrite map_sum_insert_None by done.
    assert (0 <= g r) by (unfold g; case_decide; [eapply Hm; [apply lookup_insert_eq|done]|lia]).
    assert (0 <= map_sum g m); [|lia]. apply IH. intros k' r' Hk'. apply (Hm k').
    rewrite lookup_insert_ne; [done|congruence]. }
  pose proof (record_name c name at_ Hf) as Hname. unfold record in *.
  destruct (open c !! counter_key c name at_) as [r|] eqn:E; [|rewrite Hz; split; [lia|by apply Hsum]].
  rewrite (map_sum_delete g _ _ r E). unfold g at 1. rewrite decide_True by done.
  pose proof (Hnn _ _ E Hname). split; [done|].
  assert (0 <= map_sum g (delete (counter_key c name at_) (open c))); [|lia].
  apply Hsum. intros k' r' [_ Hk']%lookup_delete_Some. by apply (Hnn k').
Qed.

Lemma tot_update h c n at_ f :
  (forall a b d e, h (mkCounterRecord a b d 0 0 e) = 0) ->
  filed (open c) -> Counter (f (record c n at_)) = n ->
  tot h name (open (update c n at_ f)) =
    tot h name (open c) + (if decide (n = name) then h (f (record c n at_)) - h (record c n at_) else 0).
Proof.
  intros Hz Hf Hn. pose proof (record_name c n at_ Hf) as Hname.
  unfold tot, update. cbn [open]. rewrite map_sum_insert, Hn.
  unfold record in *. destruct (open c !! counter_key c n at_) as [r|]; cbn [from_option].
  - rewrite Hname. case_decide; lia.
  - rewrite Hz. case_decide; lia.
Qed.

Lemma update_adds c n at_ f d o :
  sane c ->
  (forall r, record_key (f r) = record_key r) ->
  (n = name -> Delta (f (record c n at_)) = Delta (record c n at_) + d /\
               ObservedNanos (f (record c n at_)) = ObservedNanos (record c n at_) + o) ->
  0 <= d -> 0 <= o ->
  adds (if decide (n = name) then d else 0) (if decide (n = name) then o else 0) c (update c n at_ f).
Proof.
  intros (Hl & Hf & Hnn) Hk Hdo Hd Ho.
  assert (Counter (f (record c n at_)) = n) as Hn.
  { pose proof (Hk (record c n at_)) as E. cbn in E. injection E as -> _. by apply record_name. }
  pose proof (fun h Hz => tot_update h c n at_ f Hz Hf Hn) as Ht.
  split; [|split; [done|]; split; [done|]; split; [done|]].
  - split; [done|]. split.
    + unfold update. cbn [open]. rewrite <-(record_is c n at_ Hl Hf), <-(Hk (record c n at_)).
      by apply filed_insert.
    + intros k r Hr Hrn. unfold update in Hr. cbn [open] in Hr.
      apply lookup_insert_Some in Hr as [[<- <-]|[_ Hr]]; [|by eapply Hnn].
      assert (n = name) as E by congruence. destruct (Hdo E) as [-> ->].
      destruct (record_le_tot Delta c n at_ (fun _ _ _ _ => eq_refl)) as [? _]; [intros; by eapply Hnn|done|done|].
      destruct (record_le_tot ObservedNanos c n at_ (fun _ _ _ _ => eq_refl)) as [? _]; [intros; by eapply Hnn|done|done|].
      lia.
  - rewrite (Ht Delta), (Ht ObservedNanos) by done. case_decide as E; [|lia].
    destruct (Hdo E). lia.
Qed.

Lemma addObserved_adds c n at_ o :
  sane c -> 0 <= o -> tot ObservedNanos name (open c) + o <= maxInt64 ->
  adds 0 (if decide (n = name) then o else 0) c (update c n at_ (addObserved o)).
Proof.
  intros Hs Ho Hmax. pose proof Hs as (_ & Hf & Hnn).
  pose proof (update_adds c n at_ (addObserved o) 0 o Hs (fun _ => eq_refl)) as H.
  assert (adds (if decide (n = name) then 0 else 0) (if decide (n = name) then o else 0) c
            (update c n at_ (addObserved o))) as H0; [|by destruct (decide (n = name))].
  apply H; [|lia|done]. intros E.
  destruct (record_le_tot ObservedNanos c n at_ (fun _ _ _ _ => eq_refl)) as [? ?]; [intros; by eapply Hnn|done|done|].
  cbn. rewrite wrap64_id by go_lia. lia.
Qed.

Lemma addDelta_adds c n at_ d :
  sane c -> 0 <= d -> tot Delta name (open c) + d <= maxInt64 ->
  adds (if decide (n = name) then d else 0) 0 c (update c n at_ (addDelta d)).
Proof.
  intros Hs Hd Hmax. pose proof Hs as (_ & Hf & Hnn).
  pose proof (update_adds c n at_ (addDelta d) d 0 Hs (fun _ => eq_refl)) as H.
  assert (adds (if decide (n = name) then d else 0) (if decide (n = name) then 0 else 0) c
            (update c n at_ (addDelta d))) as H0; [|by destruct (decide (n = name))].
  apply H; [|done|lia]. intros E.
  destruct (record_le_tot Delta c n at_ (fun _ _ _ _ => eq_refl)) as [? ?]; [intros; by eapply Hnn|done|done|].
  cbn. rewrite wrap64_id by go_lia. lia.
Qed.
(** What a loop over the counters of a pass does to this one. *)
Definition share (a : string * Z -> Z) (nr : string * Z) : Z := if decide (nr.1 = name) then a nr else 0.

Definition room (d o : Z) (c : Counters) : Prop :=
  tot Delta name (open c) + d <= maxInt64 /\ tot ObservedNanos name (open c) + o <= maxInt64.

Lemma loop_adds (body : Counters -> string * Z -> Counters) (d o : string * Z -> Z) old names c :
  (forall nr, nr ∈ names -> 0 <= d nr /\ 0 <= o nr) ->
  (forall c nr, nr ∈ names -> prev c = old -> sane c -> room (share d nr) (share o nr) c ->
     adds (share d nr) (share o nr) c (body c nr)) ->
  prev c = old -> sane c -> room (list_sum (share d) names) (list_sum (share o) names) c ->
  adds (list_sum (share d) names) (list_sum (share o) names) c (foldl body c names).
Proof.
  revert c. induction names as [|nr names IH]; intros c Hpos Hbody Hprev Hs [Hrd Hro].
  { cbn. by apply adds_refl. }
  rewrite !list_sum_cons in *.
  assert (forall a, (forall x, x ∈ names -> 0 <= a x) -> 0 <= list_sum (share a) names) as Hsum.
  { intros a. clear. induction names as [|x l IH]; intros Ha; [done|]. rewrite list_sum_cons.
    pose proof (Ha x (list_elem_of_here _ _)).
    assert (0 <= list_sum (share a) l) by (apply IH; intros; apply Ha; by apply list_elem_of_further).
    unfold share at 1. case_decide; lia. }
  pose proof (Hsum d) as Hd. pose proof (Hsum o) as Ho.
  assert (forall x, x ∈ names -> 0 <= d x /\ 0 <= o x) as Hpos'
    by (intros; apply Hpos; by apply list_elem_of_further).
  specialize (Hd (fun x Hx => proj1 (Hpos' x Hx))). specialize (Ho (fun x Hx => proj2 (Hpos' x Hx))).
  destruct (Hpos nr (list_elem_of_here _ _)) as [Hd0 Ho0].
  assert (adds (share d nr) (share o nr) c (body c nr)) as Hfirst.
  { apply Hbody; [apply list_elem_of_here|done|done|]. split; lia. }
  pose proof Hfirst as (Hs1 & Hp1 & _ & _ & Hd1 & Ho1).
  eapply adds_trans; [exact Hfirst|]. cbn [foldl]. apply IH; [done| |congruence|done|split; lia].
  intros; apply Hbody; [by apply list_elem_of_further|done..].
Qed.

Lemma share_readings a (readings : gmap string Z) :
  list_sum (share a) (map_to_list readings) =
    match readings !! name with Some v => a (name, v) | None => 0 end.
Proof.
  assert (forall l : list (string * Z), name ∉ l.*1 -> list_sum (share a) l = 0) as Hzero.
  { induction l as [|[n v] l IH]; [done|]. rewrite fmap_cons, not_elem_of_cons, list_sum_cons.
    intros [Hn Hl]. rewrite IH by done. unfold share. cbn in *. rewrite decide_False by congruence. lia. }
  destruct (readings !! name) as [v|] eqn:E.
  - rewrite <-(insert_delete_id readings name v E).
    rewrite (list_sum_perm (share a) _ ((name, v) :: map_to_list (delete name readings)))
      by (apply map_to_list_insert, lookup_delete_eq).
    rewrite list_sum_cons, Hzero.
    + unfold share. cbn. rewrite decide_True by done. lia.
    + rewrite list_elem_of_fmap. intros ([n w] & Hn & Hin%elem_of_map_to_list). cbn in Hn. subst.
      by rewrite lookup_delete_eq in Hin.
  - apply Hzero. rewrite list_elem_of_fmap. intros ([n w] & Hn & Hin%elem_of_map_to_list).
    cbn in Hn. subst. congruence.
Qed.

Lemma share_none (readings : gmap string Z) : list_sum (share (fun _ => 0)) (map_to_list readings) = 0.
Proof. rewrite share_readings. by destruct (readings !! name). Qed.

Lemma observe_span_adds readings c sp :
  sane c -> 0 <= span_length sp <= maxInt64 ->
  let o := match readings !! name with Some _ => span_length sp | None => 0 end in
  room 0 o c -> adds 0 o c (observe_span (map_to_list readings) c sp).
Proof.
  intros Hs Hsp o Hroom. unfold observe_span, span_length in *. rewrite Sub_exact by go_lia.
  set (n := span_end sp - span_start sp) in *.
  pose proof (loop_adds (fun c nr => update c nr.1 (span_start sp) (addObserved n))
                (fun _ => 0) (fun _ => n) (prev c) (map_to_list readings) c) as H.
  rewrite share_none, share_readings in H. apply H; [intros; lia| |done|done|exact Hroom].
  intros c' nr _ _ Hs' [_ Hr']. unfold share in *. cbn beta in *.
  replace (if decide (nr.1 = name) then 0 else 0) with 0 by by destruct (decide (nr.1 = name)).
  destruct (decide (nr.1 = name)) as [E|E].
  - pose proof (addObserved_adds c' nr.1 (span_start sp) n Hs' (proj1 Hsp) Hr') as Ha.
    by rewrite decide_True in Ha.
  - pose proof (update_adds c' nr.1 (span_start sp) (addObserved n) 0 0 Hs' (fun _ => eq_refl)) as Ha.
    rewrite !decide_False in Ha by done. apply Ha; [done|lia|lia].
Qed.

(** How much a counter rose between two readings of it. *)
Definition risen (before : gmap string Z) (nr : string * Z) : Z :=
  match before !! nr.1 with Some was => Z.max 0 (nr.2 - was) | None => 0 end.

Definition readable (readings : gmap string Z) : Prop :=
  forall n v, readings !! n = Some v -> 0 <= v <= maxInt64.

Lemma rise_adds readings at_ c nr :
  readable (prev c) -> readable readings -> nr ∈ map_to_list readings ->
  sane c -> room (share (risen (prev c)) nr) 0 c ->
  adds (share (risen (prev c)) nr) 0 c (rise at_ c nr).
Proof.
  intros Hp Hrd Hin Hs [Hroom _]. unfold rise, share, risen in *.
  destruct nr as [n now]. apply elem_of_map_to_list in Hin. cbn in *.
  pose proof (Hrd _ _ Hin) as Hnow.
  destruct (prev c !! n) as [was|] eqn:E; [|case_decide; by apply adds_refl].
  pose proof (Hp _ _ E) as Hwas. destruct (Z.ltb_spec now was) as [Hlt|Hge].
  - replace (Z.max 0 (now - was)) with 0 by lia. case_decide; by apply adds_refl.
  - rewrite wrap64_id by go_lia. rewrite Z.max_r in * by lia. destruct (decide (n = name)) as [En|En].
    + pose proof (addDelta_adds c n at_ (now - was) Hs ltac:(lia) Hroom) as Ha. by rewrite decide_True in Ha.
    + pose proof (update_adds c n at_ (addDelta (now - was)) 0 0 Hs (fun _ => eq_refl)) as Ha.
      rewrite !decide_False in Ha by done. apply Ha; [done|lia|lia].
Qed.

Lemma rises_adds readings at_ c :
  readable (prev c) -> readable readings -> sane c ->
  let d := match readings !! name with Some v => risen (prev c) (name, v) | None => 0 end in
  room d 0 c -> adds d 0 c (foldl (rise at_) c (map_to_list readings)).
Proof.
  intros Hp Hrd Hs d Hroom.
  pose proof (loop_adds (rise at_) (risen (prev c)) (fun _ => 0) (prev c) (map_to_list readings) c) as H.
  rewrite share_none, share_readings in H. fold d in H. apply H; [| |done|done|exact Hroom].
  - intros nr _. unfold risen. destruct (prev c !! nr.1); lia.
  - intros c' nr Hin Hprev Hs' Hr'. rewrite <-Hprev in *.
    assert (share (fun _ => 0) nr = 0) as E by (unfold share; by case_decide). rewrite E in *.
    by apply (rise_adds readings).
Qed.

Lemma stamps_adds readings at_ c :
  sane c -> room 0 0 c -> adds 0 0 c (foldl (stamp at_) c (map_to_list readings)).
Proof.
  intros Hs Hroom.
  pose proof (loop_adds (stamp at_) (fun _ => 0) (fun _ => 0) (prev c) (map_to_list readings) c) as H.
  rewrite share_none in H. apply H; [intros; lia| |done|done|exact Hroom].
  intros c' nr _ _ Hs' _. unfold share, stamp.
  apply update_adds; [done|done|cbn; lia|lia|lia].
Qed.

Lemma spans_adds readings ss a b c :
  chain len a ss b -> sane c ->
  let o := match readings !! name with Some _ => b - a | None => 0 end in
  room 0 o c -> adds 0 o c (foldl (observe_span (map_to_list readings)) c ss).
Proof.
  revert a c. induction ss as [|[x e] ss IH]; intros a c Hc Hs o Hroom; unfold o in *.
  { cbn in Hc. subst. rewrite Z.sub_diag. destruct (readings !! name); by apply adds_refl. }
  destruct Hc as (Hx & He & Hle & Hc). cbn [span_start span_end] in *. subst x.
  pose proof (Truncate_bounds len ltac:(lia) a) as Htb. pose proof (chain_le len _ _ _ Hc).
  pose proof (observe_span_adds readings c (mkSpan a e) Hs) as Hone. unfold span_length in Hone. cbn in Hone.
  assert (adds 0 (match readings !! name with Some _ => e - a | None => 0 end) c
            (observe_span (map_to_list readings) c (mkSpan a e))) as Hfirst.
  { apply Hone; [lia|]. destruct Hroom. split; [lia|]. destruct (readings !! name); lia. }
  pose proof Hfirst as (Hs1 & _ & _ & _ & Hd1 & Ho1). cbn [foldl].
  assert (adds (0 + 0) (match readings !! name with Some _ => e - a | None => 0 end +
                  match readings !! name with Some _ => b - e | None => 0 end) c
            (foldl (observe_span (map_to_list readings)) (observe_span (map_to_list readings) c (mkSpan a e)) ss)) as H2.
  { eapply adds_trans; [exact Hfirst|]. apply IH; [done|done|]. destruct Hroom. split; [lia|].
    destruct (readings !! name); lia. }
  replace (match readings !! name with Some _ => b - a | None => 0 end)
    with (match readings !! name with Some _ => e - a | None => 0 end +
          match readings !! name with Some _ => b - e | None => 0 end) by (destruct (readings !! name); lia).
  exact H2.
Qed.
Definition delta_of (l : ledger) (p : pass) : Z :=
  match p_readings p !! name with Some v => risen (l_prev l) (name, v) | None => 0 end.
Definition watched_of (l : ledger) (p : pass) : Z :=
  match p_readings p !! name with Some _ => p_at p - l_at l | None => 0 end.

Lemma ledger_step_eq l p :
  ledger_step name l p =
    let c := Z.b2z (comparable l p) in
    mkLedger (l_delta l + c * delta_of l p) (l_observed l + c * watched_of l p)
      (p_readings p) (p_since p) (p_at p).
Proof.
  unfold ledger_step, delta_of, watched_of, risen. cbn [fst snd].
  destruct (comparable l p); cbn [Z.b2z]; f_equal;
    destruct (l_prev l !! name), (p_readings p !! name); lia.
Qed.

Lemma ledger_step_nonneg l p :
  0 <= Z.b2z (comparable l p) * delta_of l p /\ 0 <= Z.b2z (comparable l p) * watched_of l p.
Proof.
  unfold delta_of, watched_of, risen, comparable. cbn [fst snd].
  destruct (negb (l_since l =? 0) && (l_since l =? p_since p)); cbn [andb Z.b2z].
  - destruct (Z.ltb_spec (l_at l) (p_at p)); cbn [Z.b2z];
      destruct (l_prev l !! name), (p_readings p !! name); lia.
  - lia.
Qed.

Lemma ledger_mono ps l :
  l_delta l <= l_delta (ledger_of name l ps) /\ l_observed l <= l_observed (ledger_of name l ps).
Proof.
  revert l. induction ps as [|p ps IH]; intros l; [cbn; lia|]. cbn [ledger_of foldl].
  pose proof (IH (ledger_step name l p)) as H. fold (ledger_of name (ledger_step name l p) ps).
  pose proof (ledger_step_nonneg l p). pose proof (f_equal l_delta (ledger_step_eq l p)) as Ed.
  pose proof (f_equal l_observed (ledger_step_eq l p)) as Eo. cbn [l_delta l_observed] in Ed, Eo. lia.
Qed.

(** The journal agrees with the ledger, counted from what it resumed from. *)
Definition follows (d0 o0 : Z) (l : ledger) (c : Counters) : Prop :=
  sane c /\ prev c = l_prev l /\ prevSince c = l_since l /\ prevAt c = l_at l /\ readable (l_prev l) /\
  tot Delta name (open c) = d0 + l_delta l /\ tot ObservedNanos name (open c) = o0 + l_observed l.

Lemma Observe_follows d0 o0 l c p :
  follows d0 o0 l c -> readable (p_readings p) ->
  d0 + l_delta (ledger_step name l p) <= maxInt64 -> o0 + l_observed (ledger_step name l p) <= maxInt64 ->
  follows d0 o0 (ledger_step name l p) (Observe c (p_at p) (p_since p) (p_readings p)).
Proof.
  intros (Hs & Hp & Hsn & Hat & Hrd & Hd & Ho) Hread Hmd Hmo.
  pose proof (ledger_step_nonneg l p) as [Hnd Hno]. rewrite ledger_step_eq in *. cbn [l_delta l_observed] in *.
  set (k := Z.b2z (comparable l p)) in *.
  assert (adds (k * delta_of l p) (k * watched_of l p) c
            (if sameBase c (p_since p) && After (p_at p) (prevAt c) then accrue c (p_at p) (p_readings p) else c)) as H1.
  { unfold k, comparable, sameBase, IsZero, After in *. rewrite Hsn, Hat in *.
    destruct (negb (l_since l =? 0) && (l_since l =? p_since p)); cbn [andb Z.b2z] in *; [|by apply adds_refl].
    destruct (Z.ltb_spec (l_at l) (p_at p)) as [Hlt|_]; cbn [Z.b2z] in *; [|by apply adds_refl].
    rewrite !Z.mul_1_l in *. unfold accrue. rewrite (proj1 Hs), Hat.
    rewrite <-(Z.add_0_l (delta_of l p)), <-(Z.add_0_r (watched_of l p)).
    assert (adds 0 (watched_of l p) c (foldl (observe_span (map_to_list (p_readings p))) c
              (split len (l_at l) (p_at p)))) as Hspan.
    { apply (spans_adds (p_readings p) _ (l_at l) (p_at p)); [apply split_chain; lia|done|].
      split; [lia|]. fold (watched_of l p). lia. }
    eapply adds_trans; [exact Hspan|]. pose proof Hspan as (Hs1 & Hp1 & _ & _ & Hd1 & Ho1).
    pose proof (rises_adds (p_readings p) (p_at p) _ ltac:(by rewrite Hp1, Hp) Hread Hs1) as Hr.
    rewrite Hp1, Hp in Hr. apply Hr. split; [fold (delta_of l p); lia|lia]. }
  pose proof H1 as (Hs1 & _ & _ & _ & Hd1 & Ho1).
  pose proof (stamps_adds (p_readings p) (p_at p) _ Hs1) as H2.
  destruct H2 as (Hs2 & _ & _ & _ & Hd2 & Ho2); [split; lia|].
  unfold Observe, follows. cbn [prev prevSince prevAt open l_prev l_since l_at l_delta l_observed].
  split; [exact Hs2|]. do 4 (split; [done|]). lia.
Qed.

Lemma observe_all_follows d0 o0 ps l c :
  follows d0 o0 l c -> Forall (fun p => readable (p_readings p)) ps ->
  d0 + l_delta (ledger_of name l ps) <= maxInt64 -> o0 + l_observed (ledger_of name l ps) <= maxInt64 ->
  follows d0 o0 (ledger_of name l ps) (observe_all c ps).
Proof.
  revert l c. induction ps as [|p ps IH]; intros l c Hf Hr Hd Ho; [done|].
  apply Forall_cons in Hr as [Hr0 Hr]. cbn [ledger_of observe_all foldl] in *.
  fold (ledger_of name (ledger_step name l p) ps) in *.
  pose proof (ledger_mono ps (ledger_step name l p)).
  apply IH; [|done|done|done]. apply Observe_follows; [done|done|lia|lia].
Qed.
End accounting.

Definition no_passes : ledger := mkLedger 0 0 ∅ 0 0.

Lemma resumed_records (len : Duration) (written : list CounterRecord) k r :
  open (Resume (fresh len ∅) written).1 !! k = Some r -> r ∈ written /\ record_key r = k.
Proof.
  unfold Resume, resume. cbn [open fresh].
  pose proof (resume_lookup (∅ : gmap counterKey CounterRecord) written 0 k) as H.
  destruct (foldl resume_one (∅, 0) written) as [m n]. cbn [fst snd open] in *. rewrite H, lookup_empty.
  destruct (head _) as [r0|] eqn:E; [|done]. cbn. intros [= <-].
  apply head_Some_elem_of, list_elem_of_filter in E as [Hk Hin]. done.
Qed.

(** ** Properties *)

(** Counters survive the agent: a process that resumes from the records on
    disk and then makes any passes ends with, for every counter, exactly what was
    on disk plus the rises it saw itself and the time it was there to see them.
    Its first pass, a base that changed, a counter that fell and a clock that
    went back contribute nothing; window boundaries lose nothing. *)
Theorem counter_accounted (len : Duration) (written : list CounterRecord) (ps : list pass) (name : string) :
  0 < len <= maxInt64 ->
  Forall (fun r => 0 <= Delta r /\ 0 <= ObservedNanos r) written ->
  Forall (fun p => readable (p_readings p)) ps ->
  let c0 := (Resume (fresh len ∅) written).1 in
  let l := ledger_of name no_passes ps in
  let d0 := tot Delta name (open c0) in
  let o0 := tot ObservedNanos name (open c0) in
  d0 + l_delta l <= maxInt64 -> o0 + l_observed l <= maxInt64 ->
  tot Delta name (open (observe_all c0 ps)) = d0 + l_delta l /\
  tot ObservedNanos name (open (observe_all c0 ps)) = o0 + l_observed l.
Proof.
  intros Hlen Hw Hps c0 l d0 o0 Hd Ho.
  assert (follows len name d0 o0 no_passes c0) as H0.
  { pose proof (resumed_records len written) as Hres. fold c0 in Hres. split.
    - split; [unfold c0, Resume; by destruct (resume _ _)|]. split.
      + intros k r Hk. by apply Hres.
      + intros k r Hk _. rewrite Forall_forall in Hw. by apply Hw, (Hres k).
    - do 3 (split; [unfold c0, Resume; by destruct (resume _ _)|]).
      split; [by intros n v Hn|]. cbn. lia. }
  destruct (observe_all_follows len Hlen name d0 o0 ps no_passes c0 H0 Hps Hd Ho) as (_ & _ & _ & _ & _ & Hfin).
  exact Hfin.
Qed.

Definition demo_written : list CounterRecord :=
  [mkCounterRecord "observation.polls_failed" unixEpoch 3600 5 (10 * Minute) (unixEpoch + 10 * Minute)].
Definition demo_pass (m base v : Z) : pass :=
  mkPass (unixEpoch + m * Minute) base {[ "observation.polls_failed"%string := v ]}.
Definition demo_passes : list pass :=
  [demo_pass 20 1 7; demo_pass 30 1 9; demo_pass 70 1 10; demo_pass 80 1 4; demo_pass 90 2 50].

Lemma counter_accounted_witness :
  let c0 := (Resume (fresh Hour ∅) demo_written).1 in
  let l := ledger_of "observation.polls_failed" no_passes demo_passes in
  l_delta l = 3 /\ l_observed l = 60 * Minute /\
  tot Delta "observation.polls_failed" (open (observe_all c0 demo_passes))
    = tot Delta "observation.polls_failed" (open c0) + l_delta l /\
  tot ObservedNanos "observation.polls_failed" (open (observe_all c0 demo_passes))
    = tot ObservedNanos "observation.polls_failed" (open c0) + l_observed l.
Proof.
  split; [vm_compute; reflexivity|]. split; [vm_compute; reflexivity|].
  apply (counter_accounted Hour demo_written demo_passes).
  - vm_compute. split; [reflexivity|discriminate].
  - repeat constructor; vm_compute; discriminate.
  - repeat (apply Forall_cons; split); try done;
      intros n v Hn; cbn [p_readings demo_pass] in Hn; apply lookup_singleton_Some in Hn as [<- <-];
      vm_compute; split; discriminate.
  - vm_compute. discriminate.
  - vm_compute. discriminate.
Defined.
