(* ===== verification/Registry.v ===== *)
(** The payload registry of [internal/sink/registry.go]: what the agent ships,
    how payloads of a kind relate under their key, and when each is written. *)

From stdpp Require Import prelude strings sorting.
From Stdlib Require Import ZArith Lia.
From S2P Require Import Prelude GoTime.
Local Open Scope Z_scope.

(** [cadence.go]: what decides that a payload is written, and the gap between
    two writes of one key. *)
Inductive Trigger := TriggerAlways | TriggerChanged | TriggerEvent.

Record Cadence := mkCadence { Floor : Duration; Ceiling : Duration; Trigger_ : Trigger }.

#[export] Instance Trigger_eq_dec : EqDecision Trigger.
Proof. solve_decision. Defined.

Inductive Delivery := DeliverySupersedes | DeliveryAccumulates | DeliveryWriteOnce.

#[export] Instance Delivery_eq_dec : EqDecision Delivery.
Proof. solve_decision. Defined.

(** The provenance classes of [spool.go]. *)
Definition SourceStructural : string := "structural".
Definition SourceMeasured : string := "measured".
Definition SourceJournal : string := "journal".
Definition SourceSampled : string := "sampled".
Definition SourceAgent : string := "agent".

Record PayloadKind := mkPayloadKind {
  Kind : string;
  Source : string;
  NaturalKey : string;
  Delivery_ : Delivery;
  Cadence_ : Cadence;
  ADR : string;
}.

Definition everyPass : Cadence := mkCadence Minute Minute TriggerAlways.
Definition onChange : Cadence := mkCadence Minute (15 * Minute) TriggerChanged.
Definition onChangeDebounced : Cadence := mkCadence (5 * Minute) (15 * Minute) TriggerChanged.
Definition onEvent : Cadence := mkCadence 0 0 TriggerEvent.

Definition row_collection_coverage : PayloadKind :=
  mkPayloadKind "collection_coverage" SourceAgent
    "the kind itself (one per cluster)"
    DeliverySupersedes everyPass "0054".
Definition row_agent_states : PayloadKind :=
  mkPayloadKind "agent_states" SourceAgent
    "(window start, window length)"
    DeliverySupersedes everyPass "0088".
Definition row_agent_counters : PayloadKind :=
  mkPayloadKind "agent_counters" SourceAgent
    "(window start, window length)"
    DeliverySupersedes everyPass "0089".
Definition row_usage_snapshot : PayloadKind :=
  mkPayloadKind "usage_snapshot" SourceMeasured
    "(window start, window length)"
    DeliverySupersedes everyPass "0006, 0013".
Definition row_usage_window : PayloadKind :=
  mkPayloadKind "usage_window" SourceMeasured
    "(window start, window length)"
    DeliverySupersedes onEvent "0006, 0013".
Definition row_network_window : PayloadKind :=
  mkPayloadKind "network_window" SourceMeasured
    "(window start, window length)"
    DeliverySupersedes onEvent "0053".
Definition row_oom_kill : PayloadKind :=
  mkPayloadKind "oom_kill" SourceJournal
    "(finished-at, namespace, pod, container, restart count)"
    DeliveryAccumulates onEvent "0006, 0013".
Definition row_goroutine_counts : PayloadKind :=
  mkPayloadKind "goroutine_counts" SourceMeasured
    "(window start, window length)"
    DeliverySupersedes everyPass "0080".
Definition row_container_restarts : PayloadKind :=
  mkPayloadKind "container_restarts" SourceJournal
    "(window start, window length)"
    DeliverySupersedes everyPass "0020".
Definition row_restart_counters : PayloadKind :=
  mkPayloadKind "restart_counters" SourceJournal
    "the kind itself (one per cluster)"
    DeliverySupersedes onChangeDebounced "0034".
Definition row_pod_disruptions : PayloadKind :=
  mkPayloadKind "pod_disruptions" SourceJournal
    "(window start, window length)"
    DeliverySupersedes everyPass "0021".
Definition row_node_lifecycle : PayloadKind :=
  mkPayloadKind "node_lifecycle" SourceJournal
    "(window start, window length)"
    DeliverySupersedes everyPass "0064".
Definition row_job_runs : PayloadKind :=
  mkPayloadKind "job_runs" SourceJournal
    "(window start, window length)"
    DeliverySupersedes everyPass "0029".
Definition row_go_inventory : PayloadKind :=
  mkPayloadKind "go_inventory" SourceStructural
    "the kind itself (one per cluster)"
    DeliverySupersedes onChangeDebounced "0010, 0017, 0018".
Definition row_process_peaks : PayloadKind :=
  mkPayloadKind "process_peaks" SourceMeasured
    "the kind itself (one per cluster)"
    DeliverySupersedes onChangeDebounced "0052".
Definition row_process_counters : PayloadKind :=
  mkPayloadKind "process_counters" SourceMeasured
    "the kind itself (one per cluster)"
    DeliverySupersedes everyPass "0062".
Definition row_listening_ports : PayloadKind :=
  mkPayloadKind "listening_ports" SourceStructural
    "the kind itself (one per cluster)"
    DeliverySupersedes onChangeDebounced "0056".
Definition row_go_build : PayloadKind :=
  mkPayloadKind "go_build" SourceStructural
    "image digest"
    DeliveryWriteOnce onEvent "0017, 0019".
Definition row_workload_metadata : PayloadKind :=
  mkPayloadKind "workload_metadata" SourceStructural
    "the kind itself (one per cluster)"
    DeliverySupersedes onChangeDebounced "0012, 0014, 0021, 0031".
Definition row_workload_revisions : PayloadKind :=
  mkPayloadKind "workload_revisions" SourceStructural
    "the kind itself (one per cluster)"
    DeliverySupersedes onChangeDebounced "0030, 0049".
Definition row_workload_policy : PayloadKind :=
  mkPayloadKind "workload_policy" SourceStructural
    "the kind itself (one per cluster)"
    DeliverySupersedes onChangeDebounced "0032, 0033".
Definition row_cluster_policy : PayloadKind :=
  mkPayloadKind "cluster_policy" SourceStructural
    "the kind itself (one per cluster)"
    DeliverySupersedes onChangeDebounced "0032, 0033".
Definition row_node_metadata : PayloadKind :=
  mkPayloadKind "node_metadata" SourceStructural
    "the kind itself (one per cluster)"
    DeliverySupersedes onChange "0012, 0019".
Definition row_ebpf_profile : PayloadKind :=
  mkPayloadKind "ebpf_profile" SourceSampled
    "(namespace, workload, container, image digest, capture start–end)"
    DeliveryAccumulates onEvent "0011, 0023".
Definition row_pprof_profile : PayloadKind :=
  mkPayloadKind "pprof_profile" SourceSampled
    "(namespace, workload, container, image digest, capture start–end)"
    DeliveryAccumulates onEvent "0058".

Definition registry : list PayloadKind :=
  [row_collection_coverage; row_agent_states; row_agent_counters;
   row_usage_snapshot; row_usage_window; row_network_window;
   row_oom_kill; row_goroutine_counts; row_container_restarts;
   row_restart_counters; row_pod_disruptions; row_node_lifecycle;
   row_job_runs; row_go_inventory; row_process_peaks;
   row_process_counters; row_listening_ports; row_go_build;
   row_workload_metadata; row_workload_revisions; row_workload_policy;
   row_cluster_policy; row_node_metadata; row_ebpf_profile;
   row_pprof_profile].

Definition Registry : list PayloadKind := sort_slice (fun a b => go_lt (Kind a) (Kind b)) registry.

Fixpoint lookup_in (rows : list PayloadKind) (kind : string) : option PayloadKind :=
  match rows with
  | [] => None
  | p :: rows => if bool_decide (Kind p = kind) then Some p else lookup_in rows kind
  end.

Definition Lookup (kind : string) : option PayloadKind := lookup_in registry kind.

(** ** Properties *)

Lemma lookup_in_Some rows kind p :
  NoDup (Kind <$> rows) -> lookup_in rows kind = Some p <-> p ∈ rows /\ Kind p = kind.
Proof.
  induction rows as [|q rows IH]; intros Hnd; cbn [lookup_in].
  { split; [done|]. intros [H _]. by apply elem_of_nil in H. }
  rewrite fmap_cons in Hnd. apply NoDup_cons in Hnd as [Hq Hnd].
  rewrite elem_of_cons. case_bool_decide as Hk.
  - split; [intros [= <-]; auto|]. intros [[->|Hp] Hkp]; [done|].
    destruct Hq. rewrite Hk, <-Hkp. by apply list_elem_of_fmap_2.
  - rewrite (IH Hnd). split; [tauto|]. intros [[->|Hp] Hkp]; [done|tauto].
Qed.

Lemma registry_kinds : NoDup (Kind <$> registry).
Proof. apply (bool_decide_eq_true _). vm_compute. reflexivity. Qed.

(** What the writers rely on in a row. *)
Definition row_ok (p : PayloadKind) : bool :=
  match Trigger_ (Cadence_ p) with
  | TriggerEvent => (Floor (Cadence_ p) =? 0) && (Ceiling (Cadence_ p) =? 0)
  | TriggerAlways => (0 <? Floor (Cadence_ p)) && (Floor (Cadence_ p) =? Ceiling (Cadence_ p))
                     && bool_decide (Delivery_ p = DeliverySupersedes)
  | TriggerChanged => (0 <? Floor (Cadence_ p)) && (Floor (Cadence_ p) <? Ceiling (Cadence_ p))
                      && bool_decide (Delivery_ p = DeliverySupersedes)
  end.

Lemma registry_rows_ok : forallb row_ok registry = true.
Proof. vm_compute. reflexivity. Qed.

(** The registry is one row per kind and [Lookup] finds exactly it; a kind
    whose writes may be skipped is one whose payloads supersede each other, with
    a floor below its ceiling, so skipping a write never drops an event. *)
Theorem registry_sound (kind : string) (p : PayloadKind) :
  (Lookup kind = Some p <-> p ∈ registry /\ Kind p = kind) /\
  (Lookup kind = Some p -> Trigger_ (Cadence_ p) = TriggerChanged ->
     Delivery_ p = DeliverySupersedes /\ 0 < Floor (Cadence_ p) < Ceiling (Cadence_ p)) /\
  (Lookup kind = Some p -> Delivery_ p <> DeliverySupersedes -> Trigger_ (Cadence_ p) = TriggerEvent) /\
  StronglySorted (fun a b => go_lt (Kind b) (Kind a) = false) Registry /\ Registry ≡ₚ registry.
Proof.
  assert (Lookup kind = Some p <-> p ∈ registry /\ Kind p = kind) as HL
    by apply lookup_in_Some, registry_kinds.
  assert (Lookup kind = Some p -> row_ok p = true) as Hok.
  { intros [Hp _]%HL. pose proof registry_rows_ok as H. rewrite forallb_forall in H.
    apply H, list_elem_of_In, Hp. }
  split; [exact HL|]. split; [|split].
  - intros H Ht. specialize (Hok H). unfold row_ok in Hok. rewrite Ht in Hok.
    rewrite !andb_true_iff, bool_decide_eq_true, !Z.ltb_lt in Hok. tauto.
  - intros H Hd. specialize (Hok H). unfold row_ok in Hok.
    destruct (Trigger_ (Cadence_ p)); [| |done];
      rewrite !andb_true_iff, bool_decide_eq_true in Hok; tauto.
  - destruct (sort_slice_sorted (fun a b => go_lt (Kind a) (Kind b)) Kind (fun _ _ => eq_refl) registry) as [H1 H2].
    split; [exact H2|exact H1].
Qed.

Lemma registry_sound_witness :
  Delivery_ row_go_inventory = DeliverySupersedes /\
  0 < Floor (Cadence_ row_go_inventory) < Ceiling (Cadence_ row_go_inventory).
Proof. apply (registry_sound "go_inventory" row_go_inventory); reflexivity. Defined.
