(* ===== verification/Cadence.v ===== *)
(** The write gate of [internal/sink/cadence.go]: when a change-triggered
    payload is due, and the fingerprint that decides what a change is. *)

From stdpp Require Import prelude gmap strings.
From Stdlib Require Import ZArith Lia.
From S2P Require Import Prelude GoTime GoStrings Registry.
Local Open Scope Z_scope.

Definition newline : Ascii.ascii := Ascii.ascii_of_nat 10.

Fixpoint lines_from (cur : string) (data : string) : list string :=
  match data with
  | EmptyString => match cur with EmptyString => [] | _ => [cur] end
  | String c data =>
      if bool_decide (c = newline) then (cur +:+ String c EmptyString) :: lines_from EmptyString data
      else lines_from (cur +:+ String c EmptyString) data
  end.

(** The lines of the payload, each with its newline. *)
Definition lines (data : string) : list string := lines_from EmptyString data.

Definition quote : string := String (Ascii.ascii_of_nat 34) EmptyString.
Definition capturedAtField : string := "  " +:+ quote +:+ "captured_at" +:+ quote +:+ ": ".

(** What is hashed: every line but the capture instant. *)
Definition elided (data : string) : string :=
  foldr (fun l rest => l +:+ rest) EmptyString (filter (fun l => HasPrefix l capturedAtField = false) (lines data)).

Record written := mkWritten { at_ : Time; fp : string }.

(** [last], by natural key (the spool filename). *)
Abbreviation gate := (gmap string written).

Section gate.
(** SHA-256 of a byte string, from the standard library. *)
Context (sha256 : string -> string).

Definition fingerprint (data : string) : string := sha256 (elided data).

(** The zero [[32]byte] of a kind that is not gated. *)
Definition no_fingerprint : string := EmptyString.

Definition due (g : gate) (key : string) (c : Cadence) (data : string) (now : Time) : string * bool :=
  if bool_decide (Trigger_ c <> TriggerChanged) then (no_fingerprint, true)
  else
    let f := fingerprint data in
    match g !! key with
    | None => (f, true)
    | Some prev =>
        if Ceiling c <=? Sub now (at_ prev) then (f, true)
        else if Sub now (at_ prev) <? Floor c then (f, false)
        else (f, negb (bool_decide (f = fp prev)))
    end.

Definition wrote (g : gate) (key : string) (c : Cadence) (f : string) (now : Time) : gate :=
  if bool_decide (Trigger_ c <> TriggerChanged) then g else <[key := mkWritten now f]> g.

Definition prune (g : gate) (cutoff : Time) : gate := filter (fun kw => Before (at_ kw.2) cutoff = false) g.

(** ** Offers over time

    One key as the writers drive it: a payload offered at an instant, which
    lands when it is due, and the sweep's pruning. *)
Inductive offer := Offer (data : string) (now : Time) | Pruned (cutoff : Time).

(** The gate after an event, and the write that landed, if one did. *)
Definition offer_step (key : string) (c : Cadence) (g : gate) (o : offer) : gate * option (Time * string) :=
  match o with
  | Offer data now =>
      let '(f, d) := due g key c data now in
      if d then (wrote g key c f now, Some (now, data)) else (g, None)
  | Pruned cutoff => (prune g cutoff, None)
  end.

Fixpoint run_offers (key : string) (c : Cadence) (g : gate) (os : list offer) : gate * list (Time * string) :=
  match os with
  | [] => (g, [])
  | o :: os =>
      let '(g, w) := offer_step key c g o in
      let '(g, ws) := run_offers key c g os in
      (g, option_list w ++ ws)
  end.

(** Instants of the offers do not go back and stay within a [Duration] of each
    other; a sweep only forgets what is older than the floor. *)
Fixpoint offers_ok (c : Cadence) (t0 clk : Time) (os : list offer) : Prop :=
  match os with
  | [] => True
  | Offer _ now :: os => clk <= now /\ now - t0 <= maxInt64 /\ offers_ok c t0 now os
  | Pruned cutoff :: os => cutoff <= clk - Floor c /\ offers_ok c t0 clk os
  end.

(** The gate remembers the last write of the key, or has forgotten one that is
    at least a floor old. *)
Definition remembers (key : string) (c : Cadence) (t0 clk : Time) (g : gate) (last : option (Time * string)) : Prop :=
  match g !! key with
  | Some w => exists data, last = Some (at_ w, data) /\ fp w = fingerprint data /\ t0 <= at_ w <= clk
  | None => match last with Some (t, _) => t <= clk - Floor c | None => True end
  end.

Lemma prune_lookup g cutoff key :
  prune g cutoff !! key =
    match g !! key with Some w => if Before (at_ w) cutoff then None else Some w | None => None end.
Proof.
  unfold prune. destruct (g !! key) as [w|] eqn:E; [|by apply map_lookup_filter_None_2; left].
  destruct (Before (at_ w) cutoff) eqn:Eb.
  - apply map_lookup_filter_None_2. right. intros w' Hw. cbn. congruence.
  - by apply map_lookup_filter_Some_2.
Qed.

(** The spacing of successive writes. *)
Fixpoint spaced (floor : Duration) (last : option (Time * string)) (ws : list (Time * string)) : Prop :=
  match ws with
  | [] => True
  | w :: ws =>
      match last with Some l => floor <= w.1 - l.1 | None => True end /\ spaced floor (Some w) ws
  end.

Lemma offer_step_remembers key c t0 clk g last data now :
  Trigger_ c = TriggerChanged -> 0 <= Floor c <= Ceiling c ->
  remembers key c t0 clk g last -> clk <= now -> t0 <= clk -> now - t0 <= maxInt64 ->
  let '(g', w) := offer_step key c g (Offer data now) in
  match w with
  | Some wr => wr = (now, data) /\ remembers key c t0 now g' (Some wr) /\
               match last with Some l => Floor c <= now - l.1 | None => True end
  | None => g' = g /\ exists l, last = Some l /\ now - l.1 < Ceiling c /\
            (now - l.1 < Floor c \/ fingerprint data = fingerprint l.2)
  end.
Proof.
  intros Ht Hfc Hrem Hclk Ht0 Hspan. unfold offer_step, due.
  rewrite bool_decide_eq_false_2 by tauto.
  assert (forall l, last = l -> match l with Some l => Floor c <= now - l.1 | None => True end ->
    (fun '(g', w) => match w with
      | Some wr => wr = (now, data) /\ remembers key c t0 now g' (Some wr) /\
                   match last with Some l => Floor c <= now - l.1 | None => True end
      | None => g' = g /\ exists l, last = Some l /\ now - l.1 < Ceiling c /\
            (now - l.1 < Floor c \/ fingerprint data = fingerprint l.2)
      end) (wrote g key c (fingerprint data) now, Some (now, data))) as Hwrite.
  { intros l Hl Hsp. split; [done|]. split; [|by rewrite Hl]. unfold remembers, wrote.
    rewrite bool_decide_eq_false_2 by tauto. rewrite lookup_insert_eq. exists data. cbn. split; [done|]. split; [done|lia]. }
  unfold remembers in Hrem. destruct (g !! key) as [w|] eqn:E.
  - destruct Hrem as (d0 & Hlast & Hfp & Hat). rewrite Sub_exact by go_lia.
    destruct (Z.leb_spec (Ceiling c) (now - at_ w)) as [H1|H1].
    { apply (Hwrite _ Hlast). cbn. lia. }
    destruct (Z.ltb_spec (now - at_ w) (Floor c)) as [H2|H2].
    { split; [done|]. exists (at_ w, d0). split; [done|]. cbn. split; [lia|by left]. }
    case_bool_decide as H3; cbn.
    + split; [done|]. exists (at_ w, d0). split; [done|]. cbn. split; [lia|right; congruence].
    + apply (Hwrite _ Hlast). cbn. lia.
  - apply (Hwrite _ eq_refl). destruct last as [[t d]|]; cbn in *; [lia|done].
Qed.

Fixpoint final_clk (clk : Time) (os : list offer) : Time :=
  match os with
  | [] => clk
  | Offer _ now :: os => final_clk now os
  | Pruned _ :: os => final_clk clk os
  end.

(** The newest write: the last of [ws], or the one before them. *)
Definition newest (before : option (Time * string)) (ws : list (Time * string)) : option (Time * string) :=
  match last ws with Some w => Some w | None => before end.

Lemma newest_cons before w ws : newest before (w :: ws) = newest (Some w) ws.
Proof. unfold newest. rewrite last_cons. by destruct (last ws). Qed.

Lemma remembers_later key c t0 clk now g before :
  clk <= now -> remembers key c t0 clk g before -> remembers key c t0 now g before.
Proof.
  unfold remembers. intros Hle H. destruct (g !! key).
  - destruct H as (d & ? & ? & ?). exists d. split; [done|]. split; [done|lia].
  - destruct before as [[]|]; [lia|done].
Qed.

Lemma prune_remembers key c t0 clk g before cutoff :
  cutoff <= clk - Floor c -> remembers key c t0 clk g before -> remembers key c t0 clk (prune g cutoff) before.
Proof.
  unfold remembers. intros Hcut Hrem. rewrite prune_lookup. destruct (g !! key) as [w|]; [|done].
  destruct Hrem as (d & Hl & Hf & Hat). unfold Before.
  destruct (Z.ltb_spec (at_ w) cutoff); [|by exists d]. rewrite Hl. lia.
Qed.

Lemma run_offers_spaced key c t0 os g before clk :
  Trigger_ c = TriggerChanged -> 0 <= Floor c <= Ceiling c ->
  remembers key c t0 clk g before -> t0 <= clk -> offers_ok c t0 clk os ->
  let '(g', ws) := run_offers key c g os in
  spaced (Floor c) before ws /\ remembers key c t0 (final_clk clk os) g' (newest before ws).
Proof.
  intros Ht Hfc. revert clk g before. induction os as [|o os IH]; intros clk g before Hrem Ht0 Hok; [done|].
  cbn [run_offers]. destruct o as [data now|cutoff].
  - destruct Hok as (Hclk & Hspan & Hok).
    pose proof (offer_step_remembers key c t0 clk g before data now Ht Hfc Hrem Hclk Ht0 Hspan) as Hs.
    destruct (offer_step key c g (Offer data now)) as [g' [w|]].
    + destruct Hs as (-> & Hrem' & Hsp). specialize (IH now g' _ Hrem' ltac:(lia) Hok).
      destruct (run_offers key c g' os) as [g'' ws]. destruct IH as [IHs IHr].
      cbn [option_list app]. change (option_list (Some (now, data)) ++ ws) with ((now, data) :: ws).
      rewrite newest_cons. split; [split; [by destruct before|done]|exact IHr].
    + destruct Hs as [-> _]. specialize (IH now g _ (remembers_later _ _ _ _ _ _ _ Hclk Hrem) ltac:(lia) Hok).
      by destruct (run_offers key c g os).
  - destruct Hok as [Hcut Hok]. cbn [offer_step].
    specialize (IH clk _ _ (prune_remembers _ _ _ _ _ _ _ Hcut Hrem) Ht0 Hok).
    by destruct (run_offers key c (prune g cutoff) os).
Qed.

End gate.

Lemma final_clk_le c t0 os clk : offers_ok c t0 clk os -> clk <= final_clk clk os.
Proof.
  revert clk. induction os as [|[d n|cut] os IH]; intros clk; cbn; [lia| |].
  - intros (? & ? & H%IH). lia.
  - intros [_ H]. by apply IH.
Qed.

Lemma offers_ok_last c t0 clk os data now :
  offers_ok c t0 clk (os ++ [Offer data now]) ->
  offers_ok c t0 clk os /\ final_clk clk os <= now /\ now - t0 <= maxInt64.
Proof.
  revert clk. induction os as [|[d n|cut] os IH]; intros clk; cbn; [tauto| |];
    intros H; repeat (destruct H as [? H]); destruct (IH _ H); tauto.
Qed.
(** ** Properties *)

(** C16. A change-triggered kind keeps its published cadence: however often its
    payload is offered and whenever the spool is swept, two writes of one key are
    never closer than the floor; and an offer is held back only while the last
    write is younger than the ceiling, and then only inside the floor or because
    nothing but the capture instant changed. *)
Theorem gate_keeps_cadence (sha256 : string -> string) (key : string) (c : Cadence) (t0 : Time)
    (os : list offer) (data : string) (now : Time) :
  Trigger_ c = TriggerChanged -> 0 <= Floor c <= Ceiling c -> offers_ok c t0 t0 (os ++ [Offer data now]) ->
  let '(g, ws) := run_offers sha256 key c ∅ os in
  spaced (Floor c) None ws /\
  ((due sha256 g key c data now).2 = false ->
     exists w, last ws = Some w /\ now - w.1 < Ceiling c /\
       (now - w.1 < Floor c \/ sha256 (elided data) = sha256 (elided w.2))).
Proof.
  intros Ht Hfc Hok. destruct (offers_ok_last c t0 t0 os data now Hok) as (Hok' & Hclk & Hspan).
  assert (remembers sha256 key c t0 t0 ∅ None) as H0 by by unfold remembers; rewrite lookup_empty.
  pose proof (run_offers_spaced sha256 key c t0 os ∅ None t0 Ht Hfc H0 ltac:(lia) Hok') as Hr.
  destruct (run_offers sha256 key c ∅ os) as [g ws]. destruct Hr as [Hs Hrem]. split; [exact Hs|].
  pose proof (final_clk_le _ _ _ _ Hok') as Hle.
  pose proof (offer_step_remembers sha256 key c t0 _ g _ data now Ht Hfc Hrem Hclk Hle Hspan) as Hstep.
  unfold offer_step in Hstep. destruct (due sha256 g key c data now) as [f [|]]; [done|]. intros _.
  destruct Hstep as [_ (l & Hl & H1 & H2)]. exists l. split; [|done].
  unfold newest in Hl. by destruct (last ws).
Qed.

Definition demo_offers : list offer :=
  let t := unixEpoch in
  [Offer "a" t; Offer "b" (t + 30 * Second); Offer "b" (t + 90 * Second);
   Pruned (t + 10 * Second); Offer "b" (t + 20 * Minute)].

Lemma gate_keeps_cadence_witness :
  length (run_offers id "node-metadata.json" onChange ∅ demo_offers).2 = 3%nat /\
  let '(g, ws) := run_offers id "node-metadata.json" onChange ∅ demo_offers in
  spaced (Floor onChange) None ws /\
  ((due id g "node-metadata.json" onChange "b" (unixEpoch + 22 * Minute)).2 = false ->
     exists w, last ws = Some w /\ unixEpoch + 22 * Minute - w.1 < Ceiling onChange /\
       (unixEpoch + 22 * Minute - w.1 < Floor onChange \/ id (elided "b") = id (elided w.2))).
Proof.
  split; [vm_compute; reflexivity|].
  apply (gate_keeps_cadence id "node-metadata.json" onChange unixEpoch demo_offers "b"
           (unixEpoch + 22 * Minute)); vm_compute; repeat split; discriminate.
Defined.
