(* ===== verification/FileNames.v ===== *)
(** Spool file names: what reduces untrusted strings to one plain path component
    ([fileToken], [shortDigest], [digestFileToken] of [internal/sink/spool.go]),
    and the window names that are printed there and read back in [recover.go]. *)

From stdpp Require Import prelude countable strings.
From Stdlib Require Import ZArith Lia Ascii.
From S2P Require Import Prelude GoTime GoStrings.
Local Open Scope Z_scope.

(** ** Ranging over a string *)

Definition byte (c : Ascii.ascii) : Z := Z.of_N (Ascii.N_of_ascii c).
Definition RuneError : Z := 65533.

Definition in_range (lo hi : Z) (c : Ascii.ascii) : bool := (lo <=? byte c) && (byte c <=? hi).
Definition cont (c : Ascii.ascii) : bool := in_range 128 191 c.

(** The first rune and how many bytes it takes; a byte that starts no valid
    UTF-8 sequence is [RuneError] and takes one. *)
Definition first_rune (c : Ascii.ascii) (s : string) : Z * nat :=
  let b := byte c in
  if b <? 128 then (b, 1%nat)
  else
    match s with
    | String c1 s1 =>
        if in_range 194 223 c && cont c1 then ((b - 192) * 64 + (byte c1 - 128), 2%nat)
        else
          match s1 with
          | String c2 s2 =>
              let second_ok :=
                if b =? 224 then in_range 160 191 c1
                else if b =? 237 then in_range 128 159 c1 else cont c1 in
              if in_range 224 239 c && second_ok && cont c2
              then ((b - 224) * 4096 + (byte c1 - 128) * 64 + (byte c2 - 128), 3%nat)
              else
                match s2 with
                | String c3 _ =>
                    let second_ok :=
                      if b =? 240 then in_range 144 191 c1
                      else if b =? 244 then in_range 128 143 c1 else cont c1 in
                    if in_range 240 244 c && second_ok && cont c2 && cont c3
                    then ((b - 240) * 262144 + (byte c1 - 128) * 4096 + (byte c2 - 128) * 64
                          + (byte c3 - 128), 4%nat)
                    else (RuneError, 1%nat)
                | EmptyString => (RuneError, 1%nat)
                end
          | EmptyString => (RuneError, 1%nat)
          end
    | EmptyString => (RuneError, 1%nat)
    end.

(** [for _, r := range s]; [skip] bytes still belong to the previous rune. *)
Fixpoint runes_from (skip : nat) (s : string) : list Z :=
  match s with
  | EmptyString => []
  | String c s' =>
      match skip with
      | S skip => runes_from skip s'
      | O => let '(r, w) := first_rune c s' in r :: runes_from (w - 1) s'
      end
  end.

Definition runes (s : string) : list Z := runes_from 0 s.

(** [WriteRune] of a rune below 128. *)
Definition ascii_rune (r : Z) : string := String (Ascii.ascii_of_N (Z.to_N r)) EmptyString.

Definition between (lo hi : Ascii.ascii) (r : Z) : bool := (byte lo <=? r) && (r <=? byte hi).
Definition is_alnum (r : Z) : bool := between "0"%char "9"%char r || between "a"%char "z"%char r || between "A"%char "Z"%char r.

(** ** Components of a name *)

Definition fileTokenMax : nat := 63.
Definition unnamed : string := "unnamed".

(** One iteration: what is written, and whether only dots were seen so far. *)
Definition token_rune (r : Z) (allDots : bool) : string * bool :=
  if is_alnum r || (r =? byte "-"%char) || (r =? byte "_"%char) then (ascii_rune r, false)
  else if r =? byte "." then (ascii_rune r, allDots)
  else ("-"%string, false).

Fixpoint token_loop (b : string) (allDots : bool) (rs : list Z) : string * bool :=
  match rs with
  | [] => (b, allDots)
  | r :: rs =>
      let '(w, allDots) := token_rune r allDots in
      let b := b +:+ w in
      if (fileTokenMax <=? String.length b)%nat then (b, allDots) else token_loop b allDots rs
  end.

Definition fileToken (s : string) : string :=
  let '(b, allDots) := token_loop EmptyString true (runes s) in
  if bool_decide (b = EmptyString) || allDots then unnamed else b.

Definition digest_rune (r : Z) : string :=
  if is_alnum r || (r =? byte "-"%char) || (r =? byte "_"%char) then ascii_rune r else "-".

Definition digestFileToken (digest : string) : string :=
  foldr (fun r rest => digest_rune r +:+ rest) EmptyString (runes digest).

Definition shortDigestLen : nat := 12.
Definition noDigest : string := "nodigest".

(** [digest[strings.LastIndex(digest, ":")+1:]] *)
Fixpoint after_last (sep : Ascii.ascii) (s : string) : string :=
  match s with
  | EmptyString => EmptyString
  | String c s' =>
      if has_byte sep s' then after_last sep s'
      else if bool_decide (c = sep) then s' else s
  end.

Fixpoint short_loop (short : string) (rs : list Z) : string :=
  match rs with
  | [] => short
  | r :: rs =>
      let short := if between "0"%char "9"%char r || between "a"%char "f"%char r then short +:+ ascii_rune r else short in
      if (String.length short =? shortDigestLen)%nat then short else short_loop short rs
  end.

Definition shortDigest (digest : string) : string :=
  let short := short_loop EmptyString (runes (after_last ":"%char digest)) in
  if bool_decide (short = EmptyString) then noDigest else short.

(** ** Names *)

Record windowKey := mkWindowKey { start : Time; seconds : Z }.

#[export] Instance windowKey_eq_dec : EqDecision windowKey.
Proof. solve_decision. Defined.
#[export] Instance windowKey_countable : Countable windowKey.
Proof.
  refine (inj_countable' (fun k => (start k, seconds k)) (fun '(a, b) => mkWindowKey a b) _). by intros [].
Defined.

(** [w.start.Add(time.Duration(w.seconds) * time.Second)], the product wrapping. *)
Definition end_ (w : windowKey) : Time := Add (start w) (wrap64 (seconds w * Second)).

Definition usageNamePrefix : string := "usage-".
Definition usageSnapshotSuffix : string := ".snapshot.json".
Definition restartsNamePrefix : string := "restarts-".
Definition disruptionsNamePrefix : string := "disruptions-".
Definition nodeLifecycleNamePrefix : string := "node-lifecycle-".
Definition jobRunsNamePrefix : string := "job-runs-".
Definition goroutineCountsNamePrefix : string := "goroutine-counts-".
Definition agentStatesNamePrefix : string := "agent-states-".
Definition agentCountersNamePrefix : string := "agent-counters-".

(** The [%d-%d] of a window. *)
Definition window_numbers (k : windowKey) : string :=
  FormatInt (Unix (start k)) +:+ "-" +:+ FormatInt (seconds k).

Definition journalWindowName (prefix : string) (k : windowKey) : string :=
  prefix +:+ window_numbers k +:+ ".json".

(** [windowKey.name] *)
Definition name (w : windowKey) : string := usageNamePrefix +:+ window_numbers w.

Definition parseWindowName (nm prefix : string) : option windowKey :=
  rest ← CutPrefix nm prefix;
  '(unix, secs) ← Cut rest "-"%char;
  st ← ParseInt unix;
  len ← ParseInt secs;
  if len <=? 0 then None else Some (mkWindowKey (unix_time st) len).

Record ProfileKey := mkProfileKey {
  Namespace : string;
  Workload : string;
  Container : string;
  ImageDigest : string;
  CaptureStart : Time;
  CaptureEnd : Time;
}.

(** The file name of [WriteProfile] ("profile") and [WritePulledProfile] ("pprof"). *)
Definition profile_name (prefix : string) (key : ProfileKey) : string :=
  prefix +:+ "-" +:+ fileToken (Namespace key) +:+ "-" +:+ fileToken (Workload key) +:+ "-"
  +:+ fileToken (Container key) +:+ "-" +:+ shortDigest (ImageDigest key) +:+ "-"
  +:+ FormatInt (Unix (CaptureStart key)) +:+ "-" +:+ FormatInt (Unix (CaptureEnd key)) +:+ ".json".

Definition go_build_name (digest : string) : string := "go-build-" +:+ digestFileToken digest +:+ ".json".

(** [encodePayload]'s check; the separators are "/" and "\". *)
Definition plain_name (nm : string) : bool :=
  negb (bool_decide (nm = EmptyString)) && negb (has_byte "/"%char nm) && negb (has_byte "\"%char nm)
  && negb (bool_decide (nm = "."%string)) && negb (bool_decide (nm = ".."%string)).

Example token_evil : fileToken "x/../../etc/cron.d/evil" = "x-..-..-etc-cron.d-evil"%string.
Proof. vm_compute. reflexivity. Qed.
Example token_dots : fileToken "..." = "unnamed"%string.
Proof. vm_compute. reflexivity. Qed.
Example digest_short : shortDigest "sha256:0123456789abcdefff" = "0123456789ab"%string.
Proof. vm_compute. reflexivity. Qed.

(** ** Character classes *)

Fixpoint all_chars (p : ascii -> bool) (s : string) : bool :=
  match s with EmptyString => true | String c s => p c && all_chars p s end.

Definition safe_char (c : ascii) : bool :=
  is_alnum (byte c) || (byte c =? byte "-"%char) || (byte c =? byte "_"%char) || (byte c =? byte "."%char).
Definition dot (c : ascii) : bool := byte c =? byte "."%char.

Lemma all_chars_app p s t : all_chars p (s +:+ t) = all_chars p s && all_chars p t.
Proof.
  induction s as [|c s IH]; [done|]. rewrite string_app_cons. cbn [all_chars]. by rewrite IH, andb_assoc.
Qed.

Lemma all_chars_no_byte p s c : all_chars p s = true -> p c = false -> has_byte c s = false.
Proof.
  intros Hs Hc. induction s as [|d s IH]; [done|]. cbn in *. apply andb_true_iff in Hs as [Hd Hs].
  rewrite IH, orb_false_r by done. apply bool_decide_eq_false. congruence.
Qed.

Lemma byte_range c : 0 <= byte c < 256.
Proof. unfold byte. pose proof (N_ascii_bounded c). lia. Qed.

Lemma byte_ascii_rune r : 0 <= r < 256 -> byte (ascii_of_N (Z.to_N r)) = r.
Proof. intros Hr. unfold byte. rewrite N_ascii_embedding by lia. lia. Qed.

Lemma ascii_rune_byte c : ascii_rune (byte c) = String c EmptyString.
Proof. unfold ascii_rune, byte. by rewrite N2Z.id, ascii_N_embedding. Qed.

Lemma between_range lo hi r : between lo hi r = true -> 0 <= r < 256.
Proof.
  unfold between. rewrite andb_true_iff, !Z.leb_le.
  pose proof (byte_range lo). pose proof (byte_range hi). lia.
Qed.

Lemma is_alnum_range r : is_alnum r = true -> 0 <= r < 256.
Proof.
  unfold is_alnum. rewrite !orb_true_iff. intros [[H|H]|H]; by apply between_range in H.
Qed.

(** What one rune becomes: one safe character, a dot only for a dot. *)
Lemma token_rune_one r ad :
  exists c, token_rune r ad = (String c EmptyString, ad && dot c) /\ safe_char c = true.
Proof.
  unfold token_rune.
  destruct (is_alnum r || (r =? byte "-"%char) || (r =? byte "_"%char)) eqn:E1.
  - assert (0 <= r < 256) as Hr.
    { rewrite !orb_true_iff, !Z.eqb_eq in E1.
      destruct E1 as [[H|H]|H]; [by apply is_alnum_range|subst; apply byte_range..]. }
    exists (ascii_of_N (Z.to_N r)). pose proof (byte_ascii_rune r Hr) as Hb.
    assert (safe_char (ascii_of_N (Z.to_N r)) = true) as Hs by (unfold safe_char; by rewrite Hb, E1).
    split; [|exact Hs]. unfold ascii_rune, dot. rewrite Hb. f_equal.
    destruct (Z.eqb_spec r (byte "."%char)) as [->|]; [by vm_compute in E1|]. by rewrite andb_false_r.
  - destruct (Z.eqb_spec r (byte "."%char)) as [->|Hne].
    + exists "."%char. split; [|reflexivity]. by rewrite ascii_rune_byte, andb_true_r.
    + exists "-"%char. split; [|reflexivity]. by rewrite andb_false_r.
Qed.

Lemma token_loop_spec rs b ad :
  (String.length b < fileTokenMax)%nat -> all_chars safe_char b = true -> ad = all_chars dot b ->
  let '(b', ad') := token_loop b ad rs in
  (String.length b <= String.length b' <= fileTokenMax)%nat /\ all_chars safe_char b' = true /\
  ad' = all_chars dot b'.
Proof.
  revert b ad. induction rs as [|r rs IH]; intros b ad Hl Hs Had; cbn [token_loop].
  { split; [lia|done]. }
  destruct (token_rune_one r ad) as (c & -> & Hc).
  assert (String.length (b +:+ String c EmptyString) = S (String.length b)) as Hlen.
  { rewrite string_app_length. cbn. lia. }
  assert (all_chars safe_char (b +:+ String c EmptyString) = true) as Hs'.
  { rewrite all_chars_app, Hs. cbn. by rewrite Hc. }
  assert (ad && dot c = all_chars dot (b +:+ String c EmptyString)) as Had'.
  { rewrite all_chars_app, Had. cbn. by rewrite andb_true_r. }
  destruct (Nat.leb_spec fileTokenMax (String.length (b +:+ String c EmptyString))) as [Hge|Hlt].
  - rewrite Hlen in *. split; [lia|done].
  - specialize (IH _ _ Hlt Hs' Had').
    destruct (token_loop (b +:+ String c EmptyString) (ad && dot c) rs) as [b' ad'].
    destruct IH as (? & ? & ?). rewrite Hlen in *. split; [lia|done].
Qed.

Definition safe_token (t : string) : Prop :=
  all_chars safe_char t = true /\ (1 <= String.length t <= fileTokenMax)%nat /\ all_chars dot t = false.

Lemma fileToken_is_safe s : safe_token (fileToken s).
Proof.
  unfold fileToken. pose proof (token_loop_spec (runes s) EmptyString true) as H.
  destruct (token_loop EmptyString true (runes s)) as [b ad].
  destruct H as (Hl & Hs & ->); [unfold fileTokenMax; cbn; lia|done|done|].
  assert (safe_token unnamed) as Hun by (vm_compute; repeat split; lia).
  case_bool_decide as Hb; cbn [orb]; [exact Hun|].
  destruct (all_chars dot b) eqn:E; [exact Hun|]. split; [done|]. split; [|done].
  destruct b; [done|]. cbn in *. lia.
Qed.

Lemma safe_plain t : all_chars safe_char t = true -> t <> EmptyString -> all_chars dot t = false -> plain_name t = true.
Proof.
  intros Hs Hl Hd. unfold plain_name. rewrite !(all_chars_no_byte safe_char t) by done.
  repeat (rewrite bool_decide_eq_false_2; [|by intros ->]). done.
Qed.

Lemma safe_token_plain t : safe_token t -> plain_name t = true.
Proof. intros (Hs & Hl & Hd). apply safe_plain; [done| |done]. intros ->. cbn in Hl. lia. Qed.

(** ** Names that are already safe *)

Lemma runes_ascii s : all_chars (fun c => byte c <? 128) s = true -> runes s = byte <$> String.list_ascii_of_string s.
Proof.
  unfold runes. induction s as [|c s IH]; [done|]. cbn [all_chars runes_from String.list_ascii_of_string fmap list_fmap].
  intros [Hc Hs]%andb_true_iff. unfold first_rune. rewrite Hc. cbn [Nat.sub]. by rewrite IH.
Qed.

Lemma token_rune_safe c ad :
  safe_char c = true -> token_rune (byte c) ad = (String c EmptyString, ad && dot c).
Proof.
  intros Hc. unfold token_rune, safe_char, dot in *. rewrite ascii_rune_byte.
  destruct (Z.eqb_spec (byte c) (byte "."%char)) as [E|Hne].
  - rewrite E. by rewrite andb_true_r.
  - rewrite orb_false_r in Hc. by rewrite Hc, andb_false_r.
Qed.

Lemma token_loop_safe s b ad :
  (String.length b + String.length s <= fileTokenMax)%nat -> all_chars safe_char s = true ->
  token_loop b ad (byte <$> String.list_ascii_of_string s) = (b +:+ s, ad && all_chars dot s).
Proof.
  revert b ad. induction s as [|c s IH]; intros b ad Hl Hs; cbn [String.list_ascii_of_string fmap list_fmap token_loop].
  { rewrite andb_true_r. by rewrite string_app_nil_r. }
  cbn [all_chars] in Hs. apply andb_true_iff in Hs as [Hc Hs]. rewrite token_rune_safe by done.
  cbn [String.length all_chars] in *.
  assert (b +:+ String c s = (b +:+ String c EmptyString) +:+ s) as Happ
    by by rewrite <-string_app_assoc.
  destruct (Nat.leb_spec fileTokenMax (String.length (b +:+ String c EmptyString))) as [Hge|Hlt].
  - rewrite string_app_length in Hge. cbn in Hge.
    destruct s; [|cbn in Hl; lia]. cbn. by rewrite andb_true_r.
  - change (list_fmap _ _ byte (String.list_ascii_of_string s)) with (byte <$> String.list_ascii_of_string s).
    rewrite IH; [|rewrite string_app_length; cbn; lia|done]. by rewrite Happ, andb_assoc.
Qed.

Lemma safe_char_ascii c : safe_char c = true -> (byte c <? 128) = true.
Proof.
  intros H. destruct c as [[] [] [] [] [] [] [] []]; vm_compute in H |- *; done.
Qed.

Lemma all_chars_impl (p q : ascii -> bool) s :
  (forall c, p c = true -> q c = true) -> all_chars p s = true -> all_chars q s = true.
Proof.
  intros Hpq. induction s as [|c s IH]; [done|]. cbn. rewrite !andb_true_iff. intros [? ?]. split; auto.
Qed.

Lemma fileToken_safe_id s : safe_token s -> fileToken s = s.
Proof.
  intros (Hs & Hl & Hd). unfold fileToken.
  rewrite runes_ascii by (by apply (all_chars_impl safe_char), Hs; apply safe_char_ascii).
  rewrite (token_loop_safe s EmptyString true) by (done || (cbn; lia)).
  rewrite string_app_nil, Hd. cbn. rewrite orb_false_r.
  rewrite bool_decide_eq_false_2; [done|]. intros ->. cbn in Hl. lia.
Qed.

(** ** Windows and their names *)

Definition printable (k : windowKey) : Prop :=
  unixEpoch <= start k /\ (start k - unixEpoch) mod Second = 0 /\ start k - unixEpoch <= maxInt64 /\
  0 < seconds k <= maxInt64.

Lemma printable_unix k : printable k -> 0 <= Unix (start k) <= maxInt64 /\ unix_time (Unix (start k)) = start k.
Proof.
  intros (H1 & H2 & H3 & H4).
  assert (int64_ok ((start k - unixEpoch) / Second)) as Hr by (unfold Second in *; divmod_lia).
  split; [|by apply unix_time_Unix]. unfold Unix. rewrite wrap64_id by done.
  unfold Second in *. divmod_lia.
Qed.

Lemma FormatInt_no_dash n : 0 <= n -> has_byte "-"%char (FormatInt n) = false.
Proof.
  intros Hn. rewrite FormatInt_pos by done. by apply all_digits_no_byte; [apply all_digits_FormatUint|].
Qed.

Lemma parse_numbers prefix k :
  printable k -> parseWindowName (prefix +:+ window_numbers k) prefix = Some k.
Proof.
  intros Hk. destruct (printable_unix k Hk) as [Hu Hback]. destruct Hk as (_ & _ & _ & Hs).
  unfold parseWindowName. rewrite CutPrefix_app. cbn [mbind option_bind].
  unfold window_numbers.
  change ("-" +:+ FormatInt (seconds k))%string with (String "-"%char (FormatInt (seconds k))).
  rewrite Cut_app by (apply FormatInt_no_dash; lia). cbn [mbind option_bind].
  rewrite !ParseInt_FormatInt by go_lia. cbn [mbind option_bind].
  destruct (Z.leb_spec (seconds k) 0); [lia|]. rewrite Hback. by destruct k.
Qed.

Lemma journal_name_parses prefix k :
  printable k -> parseWindowName (TrimSuffix (journalWindowName prefix k) ".json") prefix = Some k.
Proof.
  intros Hk. unfold journalWindowName. rewrite string_app_assoc, TrimSuffix_app. by apply parse_numbers.
Qed.

Lemma journal_name_inj prefix k k' :
  printable k -> printable k' -> journalWindowName prefix k = journalWindowName prefix k' -> k = k'.
Proof.
  intros Hk Hk' Heq. pose proof (journal_name_parses prefix k Hk) as H1.
  rewrite Heq, (journal_name_parses prefix k' Hk') in H1. congruence.
Qed.

Lemma all_digits_safe s : all_digits s = true -> all_chars safe_char s = true.
Proof.
  induction s as [|c s IH]; [done|]. cbn. intros [Hc%bool_decide_eq_true Hs]%andb_true_iff.
  rewrite IH, andb_true_r by done. destruct Hc as [d Hc].
  unfold digit_value in Hc. case_bool_decide as Hb; [|done]. clear Hc.
  destruct c as [[] [] [] [] [] [] [] []];
    first [reflexivity|exfalso; revert Hb; vm_compute; intros [? ?]; congruence].
Qed.

(** A window's file name is a plain name, under any safe prefix. *)
Lemma journal_name_plain prefix k :
  all_chars safe_char prefix = true -> printable k -> plain_name (journalWindowName prefix k) = true.
Proof.
  intros Hp Hk. destruct (printable_unix k Hk) as [[Hu _] _]. destruct Hk as (_ & _ & _ & [Hs _]).
  apply safe_plain; unfold journalWindowName, window_numbers.
  - rewrite !all_chars_app, Hp, !FormatInt_pos by lia.
    by rewrite (all_digits_safe (FormatUint (Unix (start k)))), (all_digits_safe (FormatUint (seconds k)))
      by apply all_digits_FormatUint.
  - intros E. apply (f_equal String.length) in E. rewrite !string_app_length in E. cbn in E. lia.
  - rewrite !all_chars_app. cbn. by rewrite !andb_false_r.
Qed.

(** ** Last characters *)

Fixpoint last_char (s : string) : option ascii :=
  match s with
  | EmptyString => None
  | String c EmptyString => Some c
  | String _ s => last_char s
  end.

Lemma last_char_app s c t : last_char (s +:+ String c t) = last_char (String c t).
Proof.
  induction s as [|d s IH]; [done|]. rewrite string_app_cons, <-IH. cbn [last_char]. by destruct s.
Qed.

(** ** Properties *)

(** No caller-supplied string can escape its component of a file name: what
    [fileToken] returns is one to sixty-three characters of the safe alphabet,
    never a path separator and never only dots, so it is itself a plain name; and
    a name that already has that form is left alone. *)
Theorem fileToken_safe (s : string) :
  safe_token (fileToken s) /\ plain_name (fileToken s) = true /\ (safe_token s -> fileToken s = s).
Proof.
  pose proof (fileToken_is_safe s) as H.
  split; [exact H|]. split; [by apply safe_token_plain|apply fileToken_safe_id].
Qed.

Lemma fileToken_safe_witness : fileToken "web-7f" = "web-7f"%string.
Proof. apply (fileToken_safe "web-7f"). vm_compute. repeat split; lia. Defined.

(** The startup read recognises exactly what the writers named: a window that
    starts on a whole second after the epoch comes back from its own file name,
    for the journals and for usage snapshots, so two windows never share one. *)
Theorem window_name_roundtrip (prefix : string) (k k' : windowKey) :
  printable k -> printable k' ->
  parseWindowName (TrimSuffix (journalWindowName prefix k) ".json") prefix = Some k /\
  parseWindowName (TrimSuffix (name k +:+ usageSnapshotSuffix) usageSnapshotSuffix) usageNamePrefix = Some k /\
  (journalWindowName prefix k = journalWindowName prefix k' -> k = k').
Proof.
  intros Hk Hk'. split; [by apply journal_name_parses|]. split; [|by apply journal_name_inj].
  rewrite TrimSuffix_app. by apply parse_numbers.
Qed.

Definition demo_window : windowKey := mkWindowKey (unixEpoch + 480000 * Hour) 3600.
Lemma window_name_roundtrip_witness :
  parseWindowName (TrimSuffix (journalWindowName restartsNamePrefix demo_window) ".json") restartsNamePrefix
    = Some demo_window.
Proof.
  apply (window_name_roundtrip restartsNamePrefix demo_window demo_window);
    vm_compute; repeat split; discriminate.
Defined.

(** A profile's file name does not determine its key: where the dash that
    separates namespace and workload falls is lost, so captures of two different
    workloads with the same container name, build and interval share one file and
    the second replaces the first. *)
Theorem profile_name_ambiguous (prefix a b c container digest : string) (t0 t1 : Time) :
  Forall safe_token [a; b; c; a +:+ "-" +:+ b; b +:+ "-" +:+ c] ->
  let k1 := mkProfileKey a (b +:+ "-" +:+ c) container digest t0 t1 in
  let k2 := mkProfileKey (a +:+ "-" +:+ b) c container digest t0 t1 in
  k1 <> k2 /\ profile_name prefix k1 = profile_name prefix k2.
Proof.
  intros Hs k1 k2. rewrite !Forall_cons in Hs. destruct Hs as (Ha & Hb & Hc & Hab & Hbc & _). split.
  - intros [= H _]. apply (f_equal String.length) in H. rewrite !string_app_length in H. cbn in H. lia.
  - unfold profile_name, k1, k2. cbn [Namespace Workload Container ImageDigest CaptureStart CaptureEnd].
    rewrite (fileToken_safe_id a), (fileToken_safe_id c), (fileToken_safe_id _ Hab), (fileToken_safe_id _ Hbc) by done.
    by rewrite <-!string_app_assoc.
Qed.

Lemma profile_name_ambiguous_witness :
  profile_name "profile" (mkProfileKey "team" "api-web" "app" "sha256:0a" unixEpoch (unixEpoch + Minute))
  = profile_name "profile" (mkProfileKey "team-api" "web" "app" "sha256:0a" unixEpoch (unixEpoch + Minute)).
Proof.
  apply (profile_name_ambiguous "profile" "team" "api" "web" "app" "sha256:0a" unixEpoch (unixEpoch + Minute)).
  repeat (apply Forall_cons; split); try apply Forall_nil; try done; vm_compute; repeat split; lia.
Defined.
