(* ===== verification/PodWatcher.v ===== *)
(** The pod watcher of [internal/collector]: [pods.go]'s admission, index and
    event handlers, and what they report through [restarts.go],
    [restart_counters.go], [oom.go], [lifecycle.go] and [jobs.go].

    A handler is given the informer caches and the clock as they stand when it
    runs, and returns the watcher after it with the callbacks it made, in order.
    All four callbacks are registered, as [cmd/agent/main.go] registers them.
    Container IDs are ASCII, and so are [ToLower] and [TrimSpace] here. *)

From stdpp Require Import prelude gmap strings.
From Stdlib Require Import ZArith Lia Ascii.
From S2P Require Import Prelude PodSpec GoTime GoStrings Model Cluster Admission.
From S2P Require FileNames Cadence.
Local Open Scope Z_scope.
Local Open Scope go_scope.

(** ** State *)

Record restartBaseline := mkBaseline { last : Z; atFirstSight : Z; firstSeen : Time }.

Record containerIdentity := mkContainerIdentity { ci_name : string; ci_imageDigest : string }.

Record podIndexEntry := mkEntry {
  e_namespace : string;
  e_name : string;
  e_node : string;
  e_workload : WorkloadRef;
  e_containers : gmap string containerIdentity;
  e_info : PodInfo;
  e_profilable : bool;
}.

Record PodWatcher := mkPodWatcher {
  filter_ : Filter;
  reportedOOMs : gset (string * Time);
  restartCounts : gmap string restartBaseline;
  reportedDisruptions : gset string;
  reportedJobs : gset string;
  reportedSig : gmap string string;
  index : gmap string podIndexEntry;
  nameIndex : gmap string string;
  placementDropped : PlacementDrops;
}.

Definition NewPodWatcher (f : Filter) : PodWatcher := mkPodWatcher f ∅ ∅ ∅ ∅ ∅ ∅ ∅ noDrops.

Definition setFilter f w :=
  mkPodWatcher f (reportedOOMs w) (restartCounts w) (reportedDisruptions w) (reportedJobs w) (reportedSig w)
    (index w) (nameIndex w) (placementDropped w).
Definition setOOMs x w :=
  mkPodWatcher (filter_ w) x (restartCounts w) (reportedDisruptions w) (reportedJobs w) (reportedSig w)
    (index w) (nameIndex w) (placementDropped w).
Definition setRestartCounts x w :=
  mkPodWatcher (filter_ w) (reportedOOMs w) x (reportedDisruptions w) (reportedJobs w) (reportedSig w)
    (index w) (nameIndex w) (placementDropped w).
Definition setDisruptions x w :=
  mkPodWatcher (filter_ w) (reportedOOMs w) (restartCounts w) x (reportedJobs w) (reportedSig w)
    (index w) (nameIndex w) (placementDropped w).
Definition setJobs x w :=
  mkPodWatcher (filter_ w) (reportedOOMs w) (restartCounts w) (reportedDisruptions w) x (reportedSig w)
    (index w) (nameIndex w) (placementDropped w).
Definition setSig x w :=
  mkPodWatcher (filter_ w) (reportedOOMs w) (restartCounts w) (reportedDisruptions w) (reportedJobs w) x
    (index w) (nameIndex w) (placementDropped w).
Definition setIndex x y w :=
  mkPodWatcher (filter_ w) (reportedOOMs w) (restartCounts w) (reportedDisruptions w) (reportedJobs w)
    (reportedSig w) x y (placementDropped w).
Definition setDropped x w :=
  mkPodWatcher (filter_ w) (reportedOOMs w) (restartCounts w) (reportedDisruptions w) (reportedJobs w)
    (reportedSig w) (index w) (nameIndex w) x.

(** What the callbacks are called with. *)
Inductive report :=
| RPod (p : PodInfo) | ROOM (k : OOMKill) | RRestart (r : ContainerRestart)
| RDisruption (d : PodDisruption) | RJob (r : JobRun).

(** The clock at the readings a handler makes. *)
Record clock := mkClock { restarts_at : Time; condition_at : Time }.

(** ** Owners *)

Definition namespaceAnnotations (c : caches) (namespace : string) : annotations := default ∅ (namespaces c namespace).

Definition resolved (m : ObjectMeta) : WorkloadLookup := mkWorkloadLookup (Annotations m) None.
Definition unresolved (r : UnresolvedWorkload) : WorkloadLookup := mkWorkloadLookup ∅ (Some r).
Definition from_cache (m : option ObjectMeta) : WorkloadLookup :=
  match m with Some m => resolved m | None => unresolved WorkloadNotCached end.

(** An owner that may itself be managed by one object of kind [parentKind]. *)
Definition through (set : option ObjectMeta) (parentKind : string) (parents : string -> option ObjectMeta)
    : WorkloadLookup :=
  match set with
  | None => unresolved WorkloadNotCached
  | Some set =>
      match controllerOf set with
      | None => resolved set
      | Some parent =>
          if bool_decide (ownerKind parent <> parentKind) then unresolved WorkloadKindUnknown
          else from_cache (parents (ownerName parent))
      end
  end.

Definition workloadAnnotations (c : caches) (pod : Pod) : WorkloadLookup :=
  let ns := Namespace (p_meta pod) in
  match controllerOf (p_meta pod) with
  | None => mkWorkloadLookup ∅ None
  | Some owner =>
      let nm := ownerName owner in
      if bool_decide (ownerKind owner = "ReplicaSet"%string)
      then through (replicaSets c ns nm) "Deployment" (deployments c ns)
      else if bool_decide (ownerKind owner = "Job"%string) then through (jobs c ns nm) "CronJob" (cronJobs c ns)
      else if bool_decide (ownerKind owner = "StatefulSet"%string) then from_cache (statefulSets c ns nm)
      else if bool_decide (ownerKind owner = "DaemonSet"%string) then from_cache (daemonSets c ns nm)
      else unresolved WorkloadKindUnknown
  end.

Definition resolveWorkload (c : caches) (pod : Pod) : WorkloadRef :=
  let ns := Namespace (p_meta pod) in
  match controllerOf (p_meta pod) with
  | None => mkWorkloadRef "none" ""
  | Some owner =>
      let hop (set : option ObjectMeta) :=
        match set ≫= controllerOf with
        | Some parent => mkWorkloadRef (ownerKind parent) (ownerName parent)
        | None => mkWorkloadRef (ownerKind owner) (ownerName owner)
        end in
      if bool_decide (ownerKind owner = "ReplicaSet"%string) then hop (replicaSets c ns (ownerName owner))
      else if bool_decide (ownerKind owner = "Job"%string) then hop (jobs c ns (ownerName owner))
      else mkWorkloadRef (ownerKind owner) (ownerName owner)
  end.

(** ** Admission *)

Record admission := mkAdmission { collect : bool; profile : bool; reason : option ExclusionReason }.

Definition decide_pod (c : caches) (pod : Pod) (f : Filter) : admission :=
  let ns := namespaceAnnotations c (Namespace (p_meta pod)) in
  let workload := workloadAnnotations c pod in
  let reason := AdmitPod f pod ns workload in
  let allowed := bool_decide (reason = None) in
  mkAdmission allowed (allowed && AdmitProfiling pod ns workload) reason.

Definition count_reason (r : option ExclusionReason) (f : Filter) : Filter :=
  match r with Some r => countExcluded r f | None => f end.

Definition count_unresolved (l : WorkloadLookup) (f : Filter) : Filter :=
  match Unresolved l with Some r => countUnresolvedWorkload r f | None => f end.

Definition count_admission (c : caches) (pod : Pod) (d : admission) (f : Filter) : Filter :=
  let f := if negb (collect d) then count_reason (reason d) f
           else let f := countObserved f in if negb (profile d) then countExcludedProfiling f else f in
  count_unresolved (workloadAnnotations c pod) f.

Definition admit_pod (c : caches) (pod : Pod) (count : bool) (w : PodWatcher) : PodWatcher * admission :=
  let d := decide_pod c pod (filter_ w) in
  (if count then setFilter (count_admission c pod d (filter_ w)) w else w, d).

Definition decisionFor (uid : string) (w : PodWatcher) : option admission :=
  (fun e => mkAdmission true (e_profilable e) None) <$> index w !! uid.

Definition countTransition (was : option admission) (now : admission) (w : PodWatcher) : PodWatcher :=
  match was, collect now with
  | Some _, false => setFilter (count_reason (reason now) (filter_ w)) w
  | None, true =>
      let f := countObserved (filter_ w) in
      setFilter (if negb (profile now) then countExcludedProfiling f else f) w
  | Some was, true =>
      if profile was && negb (profile now) then setFilter (countExcludedProfiling (filter_ w)) w else w
  | None, false => w
  end.

(** ** The collected view *)

Definition bucketReason (reason : string) (known : list string) : string :=
  if bool_decide (reason ∈ known) then reason else "other".

Definition knownSchedulingReasons : list string := ["Unschedulable"; "SchedulingGated"; "SchedulerError"]%string.
Definition knownDisruptionReasons : list string :=
  ["TerminationByKubelet"; "PreemptionByScheduler"; "DeletionByTaintManager"; "DeletionByPodGC";
   "EvictionByEvictionAPI"]%string.

Definition podCondition (p : Pod) (want : string) : option Condition :=
  List.find (fun c => bool_decide (cond_Type c = want)) (Conditions p).

Definition unscheduledReason (p : Pod) : string :=
  match podCondition p "PodScheduled" with
  | None => ""
  | Some cond =>
      if bool_decide (cond_Status cond <> "False"%string) then ""
      else if bool_decide (cond_Reason cond = ""%string) then "other"
      else bucketReason (cond_Reason cond) knownSchedulingReasons
  end.

Definition parseImageDigest (imageID : string) : string :=
  if has_byte "@" imageID then FileNames.after_last "@" imageID
  else if HasPrefix imageID "sha256:" then imageID else "".

(** A later status of the same name overwrites an earlier one. *)
Definition containerDigests (p : Pod) : gmap string string :=
  foldl (fun m s => let digest := parseImageDigest (ImageID s) in
                    if bool_decide (digest = ""%string) then m else <[st_Name s := digest]> m) ∅ (statuses p).

(** The collected view, and what its placement refused to carry. *)
Definition container_of (digests : gmap string string) (init : bool) (s : ContainerSpec) : Container :=
  mkContainer (cn_Name s) (cn_Image s) (default ""%string (digests !! cn_Name s)) init
    (resourcesOf s) (portsOf s) (probesOf s) (runtimeEnvOf s).
Definition describe (c : caches) (p : Pod) : PodInfo :=
  let digests := containerDigests p in
  mkPodInfo (Namespace (p_meta p)) (ObjName (p_meta p)) (NodeName p) (Phase p) (unscheduledReason p) (QOSClass p)
    (resolveWorkload c p) (reducePlacement (Spec p)).1 (claimNames (Spec p))
    ((container_of digests true <$> InitContainers p) ++ (container_of digests false <$> Containers p)).
Definition countDrops (p : Pod) (w : PodWatcher) : PodWatcher :=
  let drops := (reducePlacement (Spec p)).2 in
  setDropped (mkPlacementDrops (Values (placementDropped w) +w Values drops)
                (Terms (placementDropped w) +w Terms drops)) w.

Definition PlacementDrops_ (w : PodWatcher) : PlacementDrops := placementDropped w.

(** ** The index *)

Definition normalizeContainerID (raw : string) : string :=
  ToLower (TrimSpace (default raw (after_first raw "://"))).

Definition containerIndex (p : Pod) : gmap string containerIdentity :=
  foldl (fun m s => let cid := normalizeContainerID (ContainerID s) in
                    if bool_decide (cid = ""%string) then m
                    else <[cid := mkContainerIdentity (st_Name s) (parseImageDigest (ImageID s))]> m) ∅ (statuses p).

Definition name_key (namespace nm : string) : string := namespace +:+ "/" +:+ nm.

Definition entry_of (p : Pod) (info : PodInfo) (profilable : bool) : podIndexEntry :=
  mkEntry (piNamespace info) (piName info) (piNode info) (piWorkload info) (containerIndex p) info profilable.

Definition indexPod (p : Pod) (info : PodInfo) (profilable : bool) (w : PodWatcher) : PodWatcher :=
  setIndex (<[UID (p_meta p) := entry_of p info profilable]> (index w))
    (<[name_key (piNamespace info) (piName info) := UID (p_meta p)]> (nameIndex w)) w.

Definition dropPod (uid : string) (w : PodWatcher) : PodWatcher :=
  let w := match index w !! uid with
           | None => w
           | Some entry =>
               let nameKey := name_key (e_namespace entry) (e_name entry) in
               setIndex (delete uid (index w))
                 (if bool_decide (nameIndex w !! nameKey = Some uid) then delete nameKey (nameIndex w)
                  else nameIndex w) w
           end in
  setSig (delete uid (reportedSig w)) w.

(** ** Lookups *)

Definition LookupPod (w : PodWatcher) (uid : string) : option (string * WorkloadRef) :=
  (fun e => (e_namespace e, e_workload e)) <$> index w !! uid.

Definition HostNetwork (w : PodWatcher) (uid : string) : bool :=
  match index w !! uid with Some e => plHostNetwork (piPlacement (e_info e)) | None => false end.

Definition LookupPodByName (w : PodWatcher) (namespace nm : string) : option (string * WorkloadRef) :=
  uid ← nameIndex w !! name_key namespace nm;
  entry ← index w !! uid;
  Some (uid, e_workload entry).

Definition LookupContainerOnNode (w : PodWatcher) (podUID containerID node : string)
    : option (string * WorkloadRef * containerIdentity) :=
  entry ← index w !! podUID;
  if bool_decide (node = ""%string) || bool_decide (e_node entry <> node) then None
  else ci ← e_containers entry !! normalizeContainerID containerID;
       Some (e_namespace entry, e_workload entry, ci).

Definition Pods (w : PodWatcher) : list PodInfo :=
  sort_slice (fun a b => go_lt (piNamespace a, piName a) (piNamespace b, piName b)) (e_info <$> map_values (index w)).

Definition runsBuild (e : podIndexEntry) (container imageDigest : string) : bool :=
  existsb (fun ci => bool_decide (ci_name ci = container) && bool_decide (ci_imageDigest ci = imageDigest))
    (map_values (e_containers e)).

(** A pod that may be connected to in order to profile. *)
Definition replica_of (namespace : string) (workload : WorkloadRef) (container imageDigest : string)
    (e : podIndexEntry) : bool :=
  bool_decide (e_namespace e = namespace) && bool_decide (e_workload e = workload) && e_profilable e
  && bool_decide (piPhase (e_info e) = "Running"%string) && runsBuild e container imageDigest.

Definition PodReplica (c : caches) (w : PodWatcher) (namespace : string) (workload : WorkloadRef)
    (container imageDigest : string) : option (string * string) :=
  let names := sort_slice go_lt
                 (e_name <$> List.filter (replica_of namespace workload container imageDigest)
                               (map_values (index w))) in
  let address nm := p ← pods c namespace nm; if bool_decide (PodIP p = ""%string) then None else Some (PodIP p, nm) in
  head (omap address names).

Definition PodAddress (c : caches) (w : PodWatcher) (namespace : string) (workload : WorkloadRef)
    (container imageDigest : string) : option string :=
  fst <$> PodReplica c w namespace workload container imageDigest.

(** The order of the answer is the map's. *)
Definition ContainersOnNode (w : PodWatcher) (node : string) : list (string * WorkloadRef * string) :=
  e ← List.filter (fun e => bool_decide (e_node e = node) && e_profilable e) (map_values (index w));
  (fun cid => (e_namespace e, e_workload e, cid)) <$> (map_to_list (e_containers e)).*1.

Definition AdmittedPodsOnNode (w : PodWatcher) (node : string) : list string :=
  sort_slice go_lt
    (List.filter (fun ue => bool_decide (e_node ue.2 = node)) (map_to_list (index w))).*1.

(** The workloads every indexed pod of which declines profiling. *)
Definition ProfilingOptOuts (w : PodWatcher) : list (string * WorkloadRef) :=
  let key e := (e_namespace e, e_workload e) in
  let es := map_values (index w) in
  let asks k := existsb (fun e => bool_decide (key e = k) && e_profilable e) es in
  remove_dups (List.filter (fun k => negb (asks k)) (key <$> es)).

(** ** Reports

    A report function returns the watcher and the callbacks it made. *)

Definition digestSignature (cs : list Container) : string :=
  foldl (fun b c => b +:+ c_Name c +:+ "=" +:+ c_ImageDigest c +:+ String Cadence.newline EmptyString) ""%string cs.

Definition reportPodIfChanged (uid : string) (info : PodInfo) (w : PodWatcher) : PodWatcher * list report :=
  let sig := digestSignature (piContainers info) in
  if bool_decide (reportedSig w !! uid = Some sig) then (w, [])
  else (setSig (<[uid := sig]> (reportedSig w)) w, [RPod info]).

Definition oomKilledReason : string := "OOMKilled".

Definition restartKey (p : Pod) (container : string) : string :=
  Namespace (p_meta p) +:+ "/" +:+ ObjName (p_meta p) +:+ "/" +:+ container.
Definition pod_prefix (p : Pod) : string := Namespace (p_meta p) +:+ "/" +:+ ObjName (p_meta p) +:+ "/".

(** The container and the instant, which [oomKey] prints into one string. *)
Definition oomKey (p : Pod) (container : string) (t : ContainerStateTerminated) : string * Time :=
  (restartKey p container, term_FinishedAt t).

Definition memoryLimitOf (p : Pod) (container : string) : option Z :=
  List.find (fun s => bool_decide (cn_Name s = container)) (InitContainers p ++ Containers p) ≫= (fun s => Value <$> MemoryLimit s).

Definition report_oom (c : caches) (p : Pod) (s : ContainerStatus) (out : PodWatcher * list report)
    (term : option ContainerStateTerminated) : PodWatcher * list report :=
  let '(w, rs) := out in
  match term with
  | None => (w, rs)
  | Some t =>
      if bool_decide (term_Reason t <> oomKilledReason) then (w, rs)
      else if bool_decide (oomKey p (st_Name s) t ∈ reportedOOMs w) then (w, rs)
      else (setOOMs ({[oomKey p (st_Name s) t]} ∪ reportedOOMs w) w,
            rs ++ [ROOM (mkOOMKill (Namespace (p_meta p)) (ObjName (p_meta p)) (st_Name s) (resolveWorkload c p)
                           (term_FinishedAt t) (term_ExitCode t) (RestartCount s) (memoryLimitOf p (st_Name s)))])
  end.

Definition reportOOMKills (c : caches) (p : Pod) (w : PodWatcher) : PodWatcher * list report :=
  foldl (fun out s => foldl (report_oom c p s) out [LastTerminated s; StateTerminated s]) (w, []) (statuses p).

Definition forgetOOMKills (p : Pod) (w : PodWatcher) : PodWatcher :=
  setOOMs (filter (fun k => HasPrefix k.1 (pod_prefix p) = false) (reportedOOMs w)) w.

Definition lastTerminationState (s : ContainerStatus) : option ContainerStateTerminated :=
  match LastTerminated s with Some t => Some t | None => StateTerminated s end.

Definition lastTermination (s : ContainerStatus) : string * option Z :=
  match lastTerminationState s with
  | None => (""%string, None)
  | Some t => (term_Reason t, Some (term_ExitCode t))
  end.

Definition report_restart (c : caches) (observedAt : Time) (p : Pod) (out : PodWatcher * list report)
    (s : ContainerStatus) : PodWatcher * list report :=
  let '(w, rs) := out in
  let key := restartKey p (st_Name s) in
  let keep base := setRestartCounts (<[key := base]> (restartCounts w)) w in
  let baseline := (keep (mkBaseline (RestartCount s) (RestartCount s) observedAt), rs) in
  match restartCounts w !! key with
  | None => baseline
  | Some base =>
      if RestartCount s <? last base then baseline
      else
        let w := keep (mkBaseline (RestartCount s) (atFirstSight base) (firstSeen base)) in
        if RestartCount s =? last base then (w, rs)
        else
          let '(reason, exitCode) := lastTermination s in
          (w, rs ++ [RRestart (mkContainerRestart (Namespace (p_meta p)) (ObjName (p_meta p)) (st_Name s)
                                 (resolveWorkload c p) observedAt (wrap32 (RestartCount s - last base)) reason exitCode)])
  end.

Definition reportRestarts (c : caches) (observedAt : Time) (p : Pod) (w : PodWatcher) : PodWatcher * list report :=
  foldl (report_restart c observedAt p) (w, []) (statuses p).

Definition forgetRestarts (p : Pod) (w : PodWatcher) : PodWatcher :=
  setRestartCounts (filter (fun kb => HasPrefix kb.1 (pod_prefix p) = false) (restartCounts w)) w.

Definition evictedPodReason : string := "Evicted".

Definition disruptionOf (now : Time) (p : Pod) : option (string * Time) :=
  let fallback := if bool_decide (Phase p = "Failed"%string) && bool_decide (StatusReason p = evictedPodReason)
                  then Some (evictedPodReason, now) else None in
  match podCondition p "DisruptionTarget" with
  | Some cond =>
      if bool_decide (cond_Status cond = "True"%string)
      then Some (cond_Reason cond, if IsZero (cond_LastTransitionTime cond) then now else cond_LastTransitionTime cond)
      else fallback
  | None => fallback
  end.

Definition disruption_key (p : Pod) : string := name_key (Namespace (p_meta p)) (ObjName (p_meta p)).

Definition reportDisruptions (c : caches) (now : Time) (p : Pod) (w : PodWatcher) : PodWatcher * list report :=
  match disruptionOf now p with
  | None => (w, [])
  | Some (reason, at_) =>
      if bool_decide (disruption_key p ∈ reportedDisruptions w) then (w, [])
      else (setDisruptions ({[disruption_key p]} ∪ reportedDisruptions w) w,
            [RDisruption (mkPodDisruption (Namespace (p_meta p)) (ObjName (p_meta p)) (resolveWorkload c p)
                            (NodeName p) (bucketReason reason knownDisruptionReasons) at_)])
  end.

Definition forgetDisruptions (p : Pod) (w : PodWatcher) : PodWatcher :=
  setDisruptions (reportedDisruptions w ∖ {[disruption_key p]}) w.

(** ** Pod events *)

(** What an admitted pod goes through, on an add and on an update alike. *)
Definition observe_pod (c : caches) (clk : clock) (p : Pod) (profilable : bool) (w : PodWatcher)
    : PodWatcher * list report :=
  let info := describe c p in
  let w := indexPod p info profilable (countDrops p w) in
  let '(w, pods) := reportPodIfChanged (UID (p_meta p)) info w in
  let '(w, ooms) := reportOOMKills c p w in
  let '(w, restarts) := reportRestarts c (restarts_at clk) p w in
  let '(w, disruptions) := reportDisruptions c (condition_at clk) p w in
  (w, pods ++ ooms ++ restarts ++ disruptions).

Definition AddFunc (c : caches) (clk : clock) (p : Pod) (w : PodWatcher) : PodWatcher * list report :=
  let '(w, d) := admit_pod c p true w in
  if collect d then observe_pod c clk p (profile d) w else (w, []).

(** The informer's old object is not looked at. *)
Definition UpdateFunc (c : caches) (clk : clock) (old p : Pod) (w : PodWatcher) : PodWatcher * list report :=
  let '(w, d) := admit_pod c p false w in
  let was := decisionFor (UID (p_meta p)) w in
  let '(w, rs) := if collect d then observe_pod c clk p (profile d) w
                  else (dropPod (UID (p_meta p)) w, []) in
  (countTransition was d w, rs).

Definition DeleteFunc (p : Pod) (w : PodWatcher) : PodWatcher :=
  forgetDisruptions p (forgetRestarts p (forgetOOMKills p (dropPod (UID (p_meta p)) w))).

(** ** Jobs *)

Definition jobWorkloadAnnotations (c : caches) (job : Job) : WorkloadLookup :=
  match controllerOf (j_meta job) with
  | None => mkWorkloadLookup ∅ None
  | Some owner =>
      if bool_decide (ownerKind owner <> "CronJob"%string) then unresolved WorkloadKindUnknown
      else from_cache (cronJobs c (Namespace (j_meta job)) (ownerName owner))
  end.

Definition resolveJobWorkload (job : Job) : WorkloadRef :=
  match controllerOf (j_meta job) with
  | Some owner => mkWorkloadRef (ownerKind owner) (ownerName owner)
  | None => mkWorkloadRef "Job" (ObjName (j_meta job))
  end.

Definition admitJob (c : caches) (job : Job) (w : PodWatcher) : PodWatcher * bool :=
  let workload := jobWorkloadAnnotations c job in
  let f := filter_ w in
  let f' := match AdmitJob f job (namespaceAnnotations c (Namespace (j_meta job))) workload with
            | None => countJobObserved f
            | Some reason => countJobExcluded reason f
            end in
  (setFilter (count_unresolved workload f') w,
   bool_decide (AdmitJob f job (namespaceAnnotations c (Namespace (j_meta job))) workload = None)).

Definition conditionTime (now : Time) (c : Condition) : Time :=
  if IsZero (cond_LastTransitionTime c) then now else cond_LastTransitionTime c.

(** The first true terminal condition: result, reason and instant. *)
Fixpoint outcome_loop (now : Time) (completion : option Time) (cs : list Condition) : option (string * string * Time) :=
  match cs with
  | [] => None
  | c :: cs =>
      if bool_decide (cond_Status c <> "True"%string) then outcome_loop now completion cs
      else if bool_decide (cond_Type c = "Complete"%string) then
        Some ("succeeded"%string, ""%string,
              match completion with
              | Some t => if IsZero t then conditionTime now c else t
              | None => conditionTime now c
              end)
      else if bool_decide (cond_Type c = "Failed"%string)
      then Some ("failed"%string, cond_Reason c, conditionTime now c)
      else outcome_loop now completion cs
  end.

Definition jobOutcomeOf (now : Time) (job : Job) : option (string * string * Time) :=
  outcome_loop now (CompletionTime job) (JobConditions job).

Definition reportJobRun (c : caches) (now : Time) (job : Job) (w : PodWatcher) : PodWatcher * list report :=
  match jobOutcomeOf now job with
  | None => (w, [])
  | Some (result, reason, finishedAt) =>
      let '(w, admitted) := admitJob c job w in
      if negb admitted then (w, [])
      else if bool_decide (UID (j_meta job) ∈ reportedJobs w) then (w, [])
      else (setJobs ({[UID (j_meta job)]} ∪ reportedJobs w) w,
            [RJob (mkJobRun (Namespace (j_meta job)) (resolveJobWorkload job) (ObjName (j_meta job))
                     (default 0 (StartTime job)) finishedAt result reason (Succeeded job) (Failed job)
                     (Parallelism job) (Completions job) (BackoffLimit job))])
  end.

Definition forgetJobRun (job : Job) (w : PodWatcher) : PodWatcher :=
  setJobs (reportedJobs w ∖ {[UID (j_meta job)]}) w.

(** ** The restart counters *)

Definition terminationOf (s : ContainerStatus) : option RestartTermination :=
  (fun t => mkRestartTermination (term_Reason t) (term_ExitCode t) (term_FinishedAt t)) <$> lastTerminationState s.

Definition runningSince (s : ContainerStatus) : option Time :=
  match RunningSince s with Some t => if IsZero t then None else Some t | None => None end.

Definition counter_of (w : PodWatcher) (workload : WorkloadRef) (p : Pod) (s : ContainerStatus)
    : option RestartCounter :=
  if RestartCount s <=? 0 then None
  else base ← restartCounts w !! restartKey p (st_Name s);
       Some (mkRestartCounter (Namespace (p_meta p)) (ObjName (p_meta p)) (st_Name s) workload (last base)
               (atFirstSight base) (firstSeen base) (CreationTimestamp (p_meta p)) (runningSince s) (terminationOf s)).

Definition RestartCounters (c : caches) (w : PodWatcher) : list RestartCounter :=
  sort_slice (fun a b => go_lt (rcNamespace a, rcPod a, rcContainer a) (rcNamespace b, rcPod b, rcContainer b))
    (p ← podList c;
     match LookupPod w (UID (p_meta p)) with
     | None => []
     | Some (_, workload) => omap (counter_of w workload p) (statuses p)
     end).

(** ** Runs *)

Inductive event :=
| EAdd (c : caches) (clk : clock) (p : Pod)
| EUpdate (c : caches) (clk : clock) (old p : Pod)
| EDelete (p : Pod)
| EJob (c : caches) (now : Time) (job : Job)
| EJobDelete (job : Job).

Definition step (w : PodWatcher) (e : event) : PodWatcher * list report :=
  match e with
  | EAdd c clk p => AddFunc c clk p w
  | EUpdate c clk old p => UpdateFunc c clk old p w
  | EDelete p => (DeleteFunc p w, [])
  | EJob c now job => reportJobRun c now job w
  | EJobDelete job => (forgetJobRun job w, [])
  end.

Definition step_log (out : PodWatcher * list report) (e : event) : PodWatcher * list report :=
  let '(w, rs) := step out.1 e in (w, out.2 ++ rs).

Definition run (f : Filter) (es : list event) : PodWatcher * list report := foldl step_log (NewPodWatcher f, []) es.

(** What the cluster last said of a pod, with the caches as they stood then. *)
Definition latest_step (uid : string) (was : option (caches * Pod)) (e : event) : option (caches * Pod) :=
  match e with
  | EAdd c _ p | EUpdate c _ _ p => if bool_decide (UID (p_meta p) = uid) then Some (c, p) else was
  | EDelete p => if bool_decide (UID (p_meta p) = uid) then None else was
  | _ => was
  end.
Definition latest (es : list event) (uid : string) : option (caches * Pod) := foldl (latest_step uid) None es.

(** The opt-out at its three levels, and the configured namespaces. *)
Definition consents (f : Filter) (c : caches) (p : Pod) : Prop :=
  namespaceAllowed f (Namespace (p_meta p)) = true /\
  namespaceAnnotations c (Namespace (p_meta p)) !! CollectAnnotation <> Some "false"%string /\
  wl_Annotations (workloadAnnotations c p) !! CollectAnnotation <> Some "false"%string /\
  Annotations (p_meta p) !! CollectAnnotation <> Some "false"%string.

Definition consents_to_profiling (c : caches) (p : Pod) : Prop :=
  namespaceAnnotations c (Namespace (p_meta p)) !! ProfileAnnotation <> Some "false"%string /\
  wl_Annotations (workloadAnnotations c p) !! ProfileAnnotation <> Some "false"%string /\
  Annotations (p_meta p) !! ProfileAnnotation <> Some "false"%string.
