(* ===== verification/Policy.v ===== *)
(** The policy payloads, [internal/collector/policy.go]: what constrains each
    collected workload, and the policy of each collected namespace.

    The objects are those of k8s.io/api by the fields the file reads; an
    [intstr.IntOrString] and a quantity that is only printed are their strings.
    A label selector is apimachinery's: whether it is empty and what it matches.
    A lister is what it would list, in the order of that run, [None] when there is
    none or it fails.  The index is ranged over in the order [entries] gives. *)

From stdpp Require Import prelude gmap strings list sorting.
From Stdlib Require Import ZArith Lia Ascii.
From S2P Require Import Prelude GoTime GoStrings Model Cluster Admission PodSpec WatchHealth PodWatcher.
Local Open Scope Z_scope.
Local Open Scope go_scope.

(** ** The payload *)

Record AutoscalerMetric := mkAutoscalerMetric { amType : string; amName : string; amTargetType : string; amTargetValue : string }.
Record Autoscaler := mkAutoscaler {
  asName : string; asMinReplicas : option Z; asMaxReplicas : Z; asCurrentReplicas : Z; asDesiredReplicas : Z;
  asMetrics : list AutoscalerMetric; asLimitedReason : string;
}.
Record DisruptionBudget := mkDisruptionBudget {
  dbName : string; dbMinAvailable : string; dbMaxUnavailable : string; dbDisruptionsAllowed : Z; dbCurrentHealthy : Z;
  dbDesiredHealthy : Z; dbExpectedPods : Z;
}.
Record EndpointZones := mkEndpointZones {
  ezAddressType : string; ezReady : Z; ezZones : gmap string Z; ezUnzoned : Z; ezHinted : Z;
}.
Record ServiceExposure := mkServiceExposure {
  sxName : string; sxType : string; sxHeadless : bool; sxInternalTrafficPolicy : string; sxExternalTrafficPolicy : string;
  sxTrafficDistribution : string; sxTopologyMode : string; sxEndpoints : list EndpointZones;
}.
Record VolumeClaim := mkVolumeClaim {
  vcName : string; vcStorageClass : string; vcAccessModes : list string; vcRequestedBytes : Z; vcPhase : string;
}.
Record WorkloadPolicy := mkWorkloadPolicy {
  wpNamespace : string; wpWorkload : WorkloadRef; wpBudgets : list DisruptionBudget; wpAutoscalers : list Autoscaler;
  wpClaims : list VolumeClaim; wpServices : list ServiceExposure;
}.

Record ResourceAmounts := mkResourceAmounts { raCPUMilli : option Z; raMemoryBytes : option Z; raStorageBytes : option Z }.
Record LimitRangeItem := mkLimitRangeItem {
  liType : string; liDefaultRequest : ResourceAmounts; liDefault : ResourceAmounts; liMin : ResourceAmounts; liMax : ResourceAmounts;
}.
Record LimitRangeInfo := mkLimitRangeInfo { lrName : string; lrItems : list LimitRangeItem }.
Record ResourceQuotaInfo := mkResourceQuotaInfo {
  rqName : string; rqHard : gmap string string; rqUsed : gmap string string; rqScopes : list string;
}.
Record NamespacePolicy := mkNamespacePolicy { npNamespace : string; npLimitRanges : list LimitRangeInfo; npQuotas : list ResourceQuotaInfo }.
Record PriorityClassInfo := mkPriorityClassInfo { pcName : string; pcValue : Z; pcGlobalDefault : bool; pcPreemptionPolicy : string }.
Record StorageClassInfo := mkStorageClassInfo {
  scName : string; scProvisioner : string; scReclaimPolicy : string; scVolumeBindingMode : string; scAllowVolumeExpansion : bool;
}.
Record ClusterPolicy := mkClusterPolicy {
  cpNamespaces : list NamespacePolicy; cpPriorityClasses : list PriorityClassInfo; cpStorageClasses : list StorageClassInfo;
}.

(** ** The objects *)

Record Selector := mkSelector { sel_Empty : bool; sel_Matches : gmap string string -> bool }.

Record PodDisruptionBudget := mkPDB {
  pdb_Namespace : string; pdb_Name : string;
  pdb_Selector : option Selector;   (** what [LabelSelectorAsSelector] makes of it *)
  pdb_MinAvailable : option string; pdb_MaxUnavailable : option string;
  pdb_DisruptionsAllowed : Z; pdb_CurrentHealthy : Z; pdb_DesiredHealthy : Z; pdb_ExpectedPods : Z;
}.
Record Service := mkService {
  svc_Namespace : string; svc_Name : string; svc_Annotations : annotations; svc_Selector : gmap string string; svc_Type : string;
  svc_ClusterIP : string; svc_InternalTrafficPolicy : option string; svc_ExternalTrafficPolicy : string;
  svc_TrafficDistribution : option string;
}.
Record Endpoint := mkEndpoint { ep_Ready : option bool; ep_Zone : option string; ep_ForZones : option (list string) }.
Record EndpointSlice := mkEndpointSlice {
  es_Namespace : string; es_ServiceName : option string; es_AddressType : string; es_Endpoints : list Endpoint;
}.
(** A metric source: the name of its metric and its target, of which at most one
    value is read. *)
Record MetricTarget := mkMetricTarget {
  mt_Type : string; mt_AverageUtilization : option Z; mt_AverageValue : option string; mt_Value : option string;
}.
Record MetricSpec := mkMetricSpec {
  ms_Type : string;
  ms_Resource : option (string * MetricTarget); ms_ContainerResource : option (string * MetricTarget);
  ms_Pods : option (string * MetricTarget); ms_Object : option (string * MetricTarget); ms_External : option (string * MetricTarget);
}.
Record HorizontalPodAutoscaler := mkHPA {
  hpa_Namespace : string; hpa_Name : string; hpa_TargetKind : string; hpa_TargetName : string; hpa_MinReplicas : option Z;
  hpa_MaxReplicas : Z; hpa_CurrentReplicas : Z; hpa_DesiredReplicas : Z;
  hpa_Conditions : list (string * string * string);   (** type, status, reason *)
  hpa_Metrics : list MetricSpec;
}.
Record PersistentVolumeClaim := mkPVC {
  pvc_Name : string; pvc_Phase : string; pvc_StorageClassName : option string; pvc_AccessModes : list string;
  pvc_Storage : option Quantity;
}.
Record LimitRangeSpecItem := mkLimitItem {
  lm_Type : string; lm_DefaultRequest : gmap string Quantity; lm_Default : gmap string Quantity; lm_Min : gmap string Quantity;
  lm_Max : gmap string Quantity;
}.
Record LimitRange := mkLimitRange { lrg_Namespace : string; lrg_Name : string; lrg_Limits : list LimitRangeSpecItem }.
Record ResourceQuota := mkResourceQuota {
  quo_Namespace : string; quo_Name : string; quo_SpecHard : gmap string string; quo_StatusHard : gmap string string;
  quo_StatusUsed : gmap string string; quo_Scopes : list string;
}.
Record PriorityClass := mkPriorityClass { prc_Name : string; prc_Value : Z; prc_GlobalDefault : bool; prc_PreemptionPolicy : option string }.
Record StorageClass := mkStorageClass {
  stc_Name : string; stc_Provisioner : string; stc_ReclaimPolicy : option string; stc_VolumeBindingMode : option string;
  stc_AllowVolumeExpansion : option bool;
}.
(** A cached pod, for a selector. *)
Record SelectablePod := mkSelectablePod { sp_Namespace : string; sp_Name : string; sp_Labels : gmap string string }.

Record policy_caches := mkPolicyCaches {
  selectablePods : option (list SelectablePod);
  pdbs : option (list PodDisruptionBudget);
  services : option (list Service);
  endpointSlices : option (list EndpointSlice);
  hpas : option (list HorizontalPodAutoscaler);
  claims : option (string -> string -> option PersistentVolumeClaim);
  limitRanges : option (list LimitRange);
  quotas : option (list ResourceQuota);
  priorityClassList : option (list PriorityClass);
  storageClassList : option (list StorageClass);
}.

(** ** Descriptions *)

Definition describeBudget (pdb : PodDisruptionBudget) : DisruptionBudget :=
  mkDisruptionBudget (pdb_Name pdb) (default ""%string (pdb_MinAvailable pdb)) (default ""%string (pdb_MaxUnavailable pdb))
    (pdb_DisruptionsAllowed pdb) (pdb_CurrentHealthy pdb) (pdb_DesiredHealthy pdb) (pdb_ExpectedPods pdb).

Definition topologyModeAnnotations : list string :=
  ["service.kubernetes.io/topology-mode"; "service.kubernetes.io/topology-aware-hints"]%string.
Definition maxTopologyModeValue : nat := 32.
Definition topologyMode (svc : Service) : string :=
  default ""%string (head (omap (fun nm =>
    v ← svc_Annotations svc !! nm;
    if negb (bool_decide (v = ""%string)) && (String.length v <=? maxTopologyModeValue)%nat then Some v else None) topologyModeAnnotations)).
Definition internalTrafficPolicy (svc : Service) : string := default ""%string (svc_InternalTrafficPolicy svc).
Definition describeService (svc : Service) : ServiceExposure :=
  mkServiceExposure (svc_Name svc) (svc_Type svc) (bool_decide (svc_ClusterIP svc = "None"%string)) (internalTrafficPolicy svc)
    (svc_ExternalTrafficPolicy svc) (default ""%string (svc_TrafficDistribution svc)) (topologyMode svc) [].

Definition count_endpoint (z : EndpointZones) (e : Endpoint) : EndpointZones :=
  if negb (default true (ep_Ready e)) then z
  else
    let zone := default ""%string (ep_Zone e) in
    let '(zones, unzoned) :=
      if negb (bool_decide (zone = ""%string)) then (<[zone := default 0 (ezZones z !! zone) +w 1]> (ezZones z), ezUnzoned z)
      else (ezZones z, ezUnzoned z +w 1) in
    mkEndpointZones (ezAddressType z) (ezReady z +w 1) zones unzoned
      (match ep_ForZones e with Some (_ :: _) => ezHinted z +w 1 | _ => ezHinted z end).
Definition count_slice (byFamily : gmap string EndpointZones) (s : EndpointSlice) : gmap string EndpointZones :=
  let family := es_AddressType s in
  <[family := foldl count_endpoint (default (mkEndpointZones family 0 ∅ 0 0) (byFamily !! family)) (es_Endpoints s)]> byFamily.
Definition endpointZones (c : policy_caches) (namespace service : string) : list EndpointZones :=
  match endpointSlices c with
  | None => []
  | Some slices =>
      let slices := filter (fun s => es_Namespace s = namespace /\ es_ServiceName s = Some service) slices in
      sort_slice (fun a b => go_lt (ezAddressType a) (ezAddressType b)) (map_to_list (foldl count_slice ∅ slices)).*2
  end.

Definition describeMetric (m : MetricSpec) : option AutoscalerMetric :=
  let source :=
    if bool_decide (ms_Type m = "Resource"%string) then ms_Resource m
    else if bool_decide (ms_Type m = "ContainerResource"%string) then ms_ContainerResource m
    else if bool_decide (ms_Type m = "Pods"%string) then ms_Pods m
    else if bool_decide (ms_Type m = "Object"%string) then ms_Object m
    else if bool_decide (ms_Type m = "External"%string) then ms_External m
    else None in
  '(nm, target) ← source;
  if negb (fits nm) then None
  else Some (mkAutoscalerMetric (ms_Type m) nm (mt_Type target)
               (match mt_AverageUtilization target with
                | Some u => FormatInt u
                | None => match mt_AverageValue target with
                          | Some q => q
                          | None => default ""%string (mt_Value target)
                          end
                end)).
Definition limited_reason (reason : string) (c : string * string * string) : string :=
  if bool_decide (c.1.1 = "ScalingLimited"%string) && bool_decide (c.1.2 = "True"%string) then c.2 else reason.
Definition describeAutoscaler (hpa : HorizontalPodAutoscaler) : Autoscaler :=
  mkAutoscaler (hpa_Name hpa) (hpa_MinReplicas hpa) (hpa_MaxReplicas hpa) (hpa_CurrentReplicas hpa) (hpa_DesiredReplicas hpa)
    (omap describeMetric (hpa_Metrics hpa)) (foldl limited_reason ""%string (hpa_Conditions hpa)).

Definition describeClaim (pvc : PersistentVolumeClaim) : VolumeClaim :=
  mkVolumeClaim (pvc_Name pvc)
    (match pvc_StorageClassName pvc with Some s => if fits s then s else ""%string | None => ""%string end)
    (pvc_AccessModes pvc) (match pvc_Storage pvc with Some q => Value q | None => 0 end) (pvc_Phase pvc).

Definition amountsOf (r : gmap string Quantity) : ResourceAmounts :=
  mkResourceAmounts (MilliValue <$> r !! "cpu"%string) (Value <$> r !! "memory"%string) (Value <$> r !! "storage"%string).
Definition amountsEmpty (r : ResourceAmounts) : bool :=
  bool_decide (raCPUMilli r = None) && bool_decide (raMemoryBytes r = None) && bool_decide (raStorageBytes r = None).
Definition limit_item (item : LimitRangeSpecItem) : option LimitRangeItem :=
  let reduced := mkLimitRangeItem (lm_Type item) (amountsOf (lm_DefaultRequest item)) (amountsOf (lm_Default item))
                   (amountsOf (lm_Min item)) (amountsOf (lm_Max item)) in
  if amountsEmpty (liDefaultRequest reduced) && amountsEmpty (liDefault reduced) && amountsEmpty (liMin reduced) && amountsEmpty (liMax reduced)
  then None else Some reduced.
Definition describeLimitRange (lr : LimitRange) : LimitRangeInfo := mkLimitRangeInfo (lrg_Name lr) (omap limit_item (lrg_Limits lr)).

Definition quantityMap (l : gmap string string) : gmap string string := filter (fun kv => fits kv.1 = true) l.
Definition describeQuota (q : ResourceQuota) : ResourceQuotaInfo :=
  mkResourceQuotaInfo (quo_Name q)
    (if bool_decide (quo_StatusHard q = ∅) then quantityMap (quo_SpecHard q) else quantityMap (quo_StatusHard q))
    (quantityMap (quo_StatusUsed q)) (sort_slice go_lt (quo_Scopes q)).

(** ** Which workloads a selector covers *)

Abbreviation workloadKey := (string * string)%type.
Definition key_of (e : podIndexEntry) : workloadKey := (e_namespace e, Model.Name (e_workload e)).

(** [labels.SelectorFromSet]. *)
Definition SelectorFromSet (set : gmap string string) : Selector :=
  mkSelector (bool_decide (set = ∅)) (fun labels => bool_decide (set ⊆ labels)).

Definition admitted_key (w : PodWatcher) (namespace : string) (pod : SelectablePod) : option workloadKey :=
  uid ← nameIndex w !! name_key namespace (sp_Name pod); entry ← index w !! uid; Some (key_of entry).
(** Each key once, in the order first met. *)
Definition add_new {A} `{EqDecision A} (out : list A) (x : A) : list A := if bool_decide (x ∈ out) then out else out ++ [x].
Definition workloadsSelecting (c : policy_caches) (w : PodWatcher) (namespace : string) (s : Selector) : list workloadKey :=
  match selectablePods c with
  | None => []
  | Some all =>
      let pods := filter (fun p => sp_Namespace p = namespace /\ sel_Matches s (sp_Labels p) = true) all in
      foldl add_new [] (omap (admitted_key w namespace) pods)
  end.

(** ** Workload policies *)

Abbreviation policies := (gmap workloadKey WorkloadPolicy).

Definition collect_entry (st : gmap workloadKey WorkloadRef * gmap workloadKey (list string)) (e : podIndexEntry)
    : gmap workloadKey WorkloadRef * gmap workloadKey (list string) :=
  (<[key_of e := e_workload e]> st.1,
   foldl (fun claims claim => <[key_of e := add_new (default [] (claims !! key_of e)) claim]> claims) st.2 (piClaims (e_info e))).
Definition collectedWorkloads (entries : list podIndexEntry) : gmap workloadKey WorkloadRef * gmap workloadKey (list string) :=
  foldl collect_entry (∅, ∅) entries.

Definition setBudgets x p := mkWorkloadPolicy (wpNamespace p) (wpWorkload p) x (wpAutoscalers p) (wpClaims p) (wpServices p).
Definition setAutoscalers x p := mkWorkloadPolicy (wpNamespace p) (wpWorkload p) (wpBudgets p) x (wpClaims p) (wpServices p).
Definition setClaims x p := mkWorkloadPolicy (wpNamespace p) (wpWorkload p) (wpBudgets p) (wpAutoscalers p) x (wpServices p).
Definition setServices x p := mkWorkloadPolicy (wpNamespace p) (wpWorkload p) (wpBudgets p) (wpAutoscalers p) (wpClaims p) x.

Definition by_name {A} (name : A -> string) (l : list A) : list A := sort_slice (fun a b => go_lt (name a) (name b)) l.

Definition attach_budget (c : policy_caches) (w : PodWatcher) (byKey : policies) (pdb : PodDisruptionBudget) : policies :=
  match pdb_Selector pdb with
  | None => byKey
  | Some s =>
      if sel_Empty s then byKey
      else foldl (fun byKey key => alter (fun p => setBudgets (wpBudgets p ++ [describeBudget pdb]) p) key byKey) byKey
             (workloadsSelecting c w (pdb_Namespace pdb) s)
  end.
Definition attachBudgets (c : policy_caches) (w : PodWatcher) (byKey : policies) : policies :=
  match pdbs c with
  | None => byKey
  | Some budgets => (fun p => setBudgets (by_name dbName (wpBudgets p)) p) <$> foldl (attach_budget c w) byKey budgets
  end.

Definition expose (c : policy_caches) (svc : Service) : ServiceExposure :=
  let s := describeService svc in
  mkServiceExposure (sxName s) (sxType s) (sxHeadless s) (sxInternalTrafficPolicy s) (sxExternalTrafficPolicy s)
    (sxTrafficDistribution s) (sxTopologyMode s) (endpointZones c (svc_Namespace svc) (svc_Name svc)).
Definition attach_service (c : policy_caches) (w : PodWatcher) (byKey : policies) (svc : Service) : policies :=
  if bool_decide (svc_Selector svc = ∅) then byKey
  else foldl (fun byKey key => alter (fun p => setServices (wpServices p ++ [expose c svc]) p) key byKey) byKey
         (workloadsSelecting c w (svc_Namespace svc) (SelectorFromSet (svc_Selector svc))).
Definition attachServices (c : policy_caches) (w : PodWatcher) (byKey : policies) : policies :=
  match services c with
  | None => byKey
  | Some svcs => (fun p => setServices (by_name sxName (wpServices p)) p) <$> foldl (attach_service c w) byKey svcs
  end.

Definition attach_autoscaler (byKey : policies) (hpa : HorizontalPodAutoscaler) : policies :=
  alter (fun p => if bool_decide (Model.Kind (wpWorkload p) = hpa_TargetKind hpa)
                  then setAutoscalers (wpAutoscalers p ++ [describeAutoscaler hpa]) p else p)
    (hpa_Namespace hpa, hpa_TargetName hpa) byKey.
Definition attachAutoscalers (c : policy_caches) (byKey : policies) : policies :=
  match hpas c with
  | None => byKey
  | Some scalers => (fun p => setAutoscalers (by_name asName (wpAutoscalers p)) p) <$> foldl attach_autoscaler byKey scalers
  end.

Definition attach_claims (get : string -> string -> option PersistentVolumeClaim) (byKey : policies)
    (kc : workloadKey * list string) : policies :=
  alter (fun p => setClaims (by_name vcName (wpClaims p ++ omap (fun nm => describeClaim <$> get kc.1.1 nm) kc.2)) p) kc.1 byKey.
Definition attachClaims (c : policy_caches) (byKey : policies) (claimsByWorkload : gmap workloadKey (list string)) : policies :=
  match claims c with
  | None => byKey
  | Some get => foldl (attach_claims get) byKey (map_to_list claimsByWorkload)
  end.

Definition nothing_attached (p : WorkloadPolicy) : bool :=
  match wpBudgets p, wpAutoscalers p, wpClaims p, wpServices p with [], [], [], [] => true | _, _, _, _ => false end.
Definition policy_less (a b : WorkloadPolicy) : bool :=
  lexi (wpNamespace a) (wpNamespace b)
    (lexi (Model.Kind (wpWorkload a)) (Model.Kind (wpWorkload b)) (go_lt (Model.Name (wpWorkload a)) (Model.Name (wpWorkload b)))).

Definition policy_records (c : policy_caches) (w : PodWatcher) (entries : list podIndexEntry) : list WorkloadPolicy :=
  let '(workloads, claimsByWorkload) := collectedWorkloads entries in
  if bool_decide (workloads = ∅) then []
  else
    let byKey : policies := map_imap (fun key ref => Some (mkWorkloadPolicy key.1 ref [] [] [] [])) workloads in
    let byKey := attachServices c w (attachClaims c (attachAutoscalers c (attachBudgets c w byKey)) claimsByWorkload) in
    sort_slice policy_less (List.filter (fun p => negb (nothing_attached p)) (map_to_list byKey).*2).

(** ** Cluster policy *)

Definition collectedNamespaces (entries : list podIndexEntry) : list string :=
  sort_slice go_lt (foldl add_new [] (e_namespace <$> entries)).
Definition limitRangesIn (c : policy_caches) (namespace : string) : list LimitRangeInfo :=
  match limitRanges c with
  | None => []
  | Some l => by_name lrName (describeLimitRange <$> filter (fun lr => lrg_Namespace lr = namespace) l)
  end.
Definition quotasIn (c : policy_caches) (namespace : string) : list ResourceQuotaInfo :=
  match quotas c with
  | None => []
  | Some l => by_name rqName (describeQuota <$> filter (fun q => quo_Namespace q = namespace) l)
  end.
Definition priorityClasses (c : policy_caches) : list PriorityClassInfo :=
  by_name pcName (omap (fun k =>
    if negb (fits (prc_Name k)) then None
    else Some (mkPriorityClassInfo (prc_Name k) (prc_Value k) (prc_GlobalDefault k) (default ""%string (prc_PreemptionPolicy k))))
    (default [] (priorityClassList c))).
Definition storageClasses (c : policy_caches) : list StorageClassInfo :=
  by_name scName (omap (fun k =>
    if negb (fits (stc_Name k)) || negb (fits (stc_Provisioner k)) then None
    else Some (mkStorageClassInfo (stc_Name k) (stc_Provisioner k) (default ""%string (stc_ReclaimPolicy k))
                 (default ""%string (stc_VolumeBindingMode k)) (default false (stc_AllowVolumeExpansion k))))
    (default [] (storageClassList c))).
Definition namespace_policy (c : policy_caches) (ns : string) : option NamespacePolicy :=
  match limitRangesIn c ns, quotasIn c ns with
  | [], [] => None
  | lrs, qs => Some (mkNamespacePolicy ns lrs qs)
  end.
Definition cluster_records (c : policy_caches) (entries : list podIndexEntry) : ClusterPolicy :=
  mkClusterPolicy (omap (namespace_policy c) (collectedNamespaces entries)) (priorityClasses c) (storageClasses c).

(** ** What could not be read *)

Record policySource := mkPolicySource { ps_name : string; ps_synced : option bool; ps_health : option watchHealth }.

(** The nine caches the constructor of the pod watcher lists, with what their
    informers and watch records answer. *)
Definition policySourceNames : list string :=
  ["services"; "endpoint_slices"; "pod_disruption_budgets"; "horizontal_pod_autoscalers"; "persistent_volume_claims";
   "limit_ranges"; "resource_quotas"; "priority_classes"; "storage_classes"]%string.
Definition policySources (synced : string -> bool) (health : string -> option watchHealth) : list policySource :=
  (fun nm => mkPolicySource nm (Some (synced nm)) (health nm)) <$> policySourceNames.

Definition unavailablePolicySources (sources : list policySource) (unavailable_for : Duration) (now : Time) (want : list string) : list string :=
  let window := if unavailable_for =? 0 then watchUnavailableFor else unavailable_for in
  sort_slice go_lt (omap (fun s =>
    if negb (bool_decide (ps_name s ∈ want)) then None
    else if negb (default false (ps_synced s)) || failedWithin (ps_health s) now window then Some (ps_name s) else None) sources).

Definition workloadPolicySources : list string :=
  ["services"; "endpoint_slices"; "pod_disruption_budgets"; "horizontal_pod_autoscalers"; "persistent_volume_claims"]%string.
Definition clusterPolicySources : list string := ["limit_ranges"; "resource_quotas"; "priority_classes"; "storage_classes"]%string.

Definition WorkloadPolicies (c : policy_caches) (w : PodWatcher) (entries : list podIndexEntry) (sources : list policySource)
    (unavailable_for : Duration) (now : Time) : list WorkloadPolicy * list string :=
  (policy_records c w entries, unavailablePolicySources sources unavailable_for now workloadPolicySources).
Definition ClusterPolicies (c : policy_caches) (entries : list podIndexEntry) (sources : list policySource) (unavailable_for : Duration)
    (now : Time) : ClusterPolicy * list string :=
  (cluster_records c entries, unavailablePolicySources sources unavailable_for now clusterPolicySources).

Record SourceHealth := mkSourceHealth { shName : string; shSynced : bool; shFailing : bool; shFailingSince : option Time }.
Definition SourceHealths (sources : list policySource) (unavailable_for : Duration) (now : Time) : list SourceHealth :=
  let window := if unavailable_for =? 0 then watchUnavailableFor else unavailable_for in
  by_name shName ((fun s =>
    let since := failingSince (ps_health s) now window in
    mkSourceHealth (ps_name s) (default false (ps_synced s)) (match since with Some _ => true | None => false end) since) <$> sources).

(** ** What a record holds, said of one workload at a time *)

Definition budget_on (c : policy_caches) (w : PodWatcher) (key : workloadKey) (pdb : PodDisruptionBudget) : bool :=
  match pdb_Selector pdb with
  | Some s => negb (sel_Empty s) && bool_decide (key ∈ workloadsSelecting c w (pdb_Namespace pdb) s)
  | None => false
  end.
Definition service_on (c : policy_caches) (w : PodWatcher) (key : workloadKey) (svc : Service) : bool :=
  negb (bool_decide (svc_Selector svc = ∅)) &&
  bool_decide (key ∈ workloadsSelecting c w (svc_Namespace svc) (SelectorFromSet (svc_Selector svc))).
Definition scaler_on (key : workloadKey) (ref : WorkloadRef) (hpa : HorizontalPodAutoscaler) : bool :=
  bool_decide ((hpa_Namespace hpa, hpa_TargetName hpa) = key) && bool_decide (Model.Kind ref = hpa_TargetKind hpa).

Definition policy_of (c : policy_caches) (w : PodWatcher) (claimed : list string) (key : workloadKey) (ref : WorkloadRef) : WorkloadPolicy :=
  mkWorkloadPolicy key.1 ref
    (by_name dbName (describeBudget <$> List.filter (budget_on c w key) (default [] (pdbs c))))
    (by_name asName (describeAutoscaler <$> List.filter (scaler_on key ref) (default [] (hpas c))))
    (match claims c with None => [] | Some get => by_name vcName (omap (fun nm => describeClaim <$> get key.1 nm) claimed) end)
    (by_name sxName (expose c <$> List.filter (service_on c w key) (default [] (services c)))).

(** *** Gathering without repeats *)

Lemma add_new_elem {A} `{EqDecision A} (out : list A) x y : y ∈ add_new out x <-> y ∈ out \/ y = x.
Proof. unfold add_new. case_bool_decide; [split; [by left|by intros [?| ->]]|]. rewrite elem_of_app, list_elem_of_singleton. done. Qed.
Lemma add_new_NoDup {A} `{EqDecision A} (out : list A) x : NoDup out -> NoDup (add_new out x).
Proof.
  intros H. unfold add_new. case_bool_decide; [done|]. apply NoDup_app. split_and!; [done| |apply NoDup_singleton].
  intros y Hy ->%list_elem_of_singleton. done.
Qed.
Lemma add_new_all {A} `{EqDecision A} (l out : list A) :
  NoDup out -> NoDup (foldl add_new out l) /\ forall y, y ∈ foldl add_new out l <-> y ∈ out \/ y ∈ l.
Proof.
  revert out. induction l as [|x l IH]; intros out Hout; cbn; [split; [done|]; set_solver|].
  destruct (IH (add_new out x) (add_new_NoDup _ _ Hout)) as [H1 H2]. split; [done|]. intros y.
  rewrite H2, add_new_elem, elem_of_cons. tauto.
Qed.

Lemma workloadsSelecting_NoDup c w ns s : NoDup (workloadsSelecting c w ns s).
Proof. unfold workloadsSelecting. destruct (selectablePods c); [|apply NoDup_nil_2]. apply add_new_all, NoDup_nil_2. Qed.
Lemma elem_of_workloadsSelecting c w ns s key :
  key ∈ workloadsSelecting c w ns s <->
  exists pod, pod ∈ default [] (selectablePods c) /\ sp_Namespace pod = ns /\ sel_Matches s (sp_Labels pod) = true /\
    admitted_key w ns pod = Some key.
Proof.
  unfold workloadsSelecting. destruct (selectablePods c) as [all|]; cbn.
  - rewrite (proj2 (add_new_all _ [] NoDup_nil_2)). setoid_rewrite list_elem_of_omap. setoid_rewrite list_elem_of_filter.
    split; [intros [H|(pod & ((? & ?) & ?) & ?)]; [by apply not_elem_of_nil in H|by exists pod]|].
    intros (pod & ? & ? & ? & ?). right. by exists pod.
  - split; [intros H; by apply not_elem_of_nil in H|]. intros (pod & H & _). by apply not_elem_of_nil in H.
Qed.

(** *** Attaching, seen from one key *)

Lemma alter_keys {K A} `{Countable K} (f : A -> A) (keys : list K) (m : gmap K A) k :
  NoDup keys -> foldl (fun m key => alter f key m) m keys !! k = (if bool_decide (k ∈ keys) then f <$> m !! k else m !! k).
Proof.
  intros Hnd. revert m. induction Hnd as [|key keys Hk Hnd IH]; intros m; cbn; [done|]. rewrite IH.
  destruct (decide (k = key)) as [->|Hne].
  - rewrite bool_decide_eq_false_2, bool_decide_eq_true_2, lookup_alter_eq by (done || by left). done.
  - rewrite lookup_alter_ne by done. by rewrite (bool_decide_ext (k ∈ key :: keys) (k ∈ keys)) by set_solver.
Qed.

Lemma attach_all {A} (step : policies -> A -> policies) (on : workloadKey -> A -> bool) (put : A -> WorkloadPolicy -> WorkloadPolicy) key l m :
  (forall m x, step m x !! key = if on key x then put x <$> m !! key else m !! key) ->
  foldl step m l !! key = (fun p => foldl (fun p x => put x p) p (List.filter (on key) l)) <$> m !! key.
Proof.
  intros Hstep. revert m. induction l as [|x l IH]; intros m; cbn; [by destruct (m !! key)|]. rewrite IH, Hstep.
  destruct (on key x); [|done]. by destruct (m !! key).
Qed.

Lemma attachBudgets_lookup c w m key :
  attachBudgets c w m !! key =
  (fun p => match pdbs c with
            | None => p
            | Some l => setBudgets (by_name dbName (wpBudgets p ++ (describeBudget <$> List.filter (budget_on c w key) l))) p
            end) <$> m !! key.
Proof.
  unfold attachBudgets. destruct (pdbs c) as [l|]; [|by destruct (m !! key)]. rewrite lookup_fmap.
  rewrite (attach_all _ (budget_on c w) (fun pdb p => setBudgets (wpBudgets p ++ [describeBudget pdb]) p)).
  - destruct (m !! key) as [p|]; [|done]. cbn. f_equal. revert p. induction (List.filter _ l) as [|pdb pdbs IH]; intros p; cbn.
    + rewrite app_nil_r. by destruct p.
    + rewrite IH. by destruct p; cbn; rewrite <-app_assoc.
  - intros m' pdb. unfold attach_budget, budget_on. destruct (pdb_Selector pdb) as [s|]; [|done].
    destruct (sel_Empty s); [done|]. rewrite alter_keys by apply workloadsSelecting_NoDup. done.
Qed.

Lemma attachServices_lookup c w m key :
  attachServices c w m !! key =
  (fun p => match services c with
            | None => p
            | Some l => setServices (by_name sxName (wpServices p ++ (expose c <$> List.filter (service_on c w key) l))) p
            end) <$> m !! key.
Proof.
  unfold attachServices. destruct (services c) as [l|]; [|by destruct (m !! key)]. rewrite lookup_fmap.
  rewrite (attach_all _ (service_on c w) (fun svc p => setServices (wpServices p ++ [expose c svc]) p)).
  - destruct (m !! key) as [p|]; [|done]. cbn. f_equal. revert p. induction (List.filter _ l) as [|svc svcs IH]; intros p; cbn.
    + rewrite app_nil_r. by destruct p.
    + rewrite IH. by destruct p; cbn; rewrite <-app_assoc.
  - intros m' svc. unfold attach_service, service_on. destruct (bool_decide (svc_Selector svc = ∅)); [done|].
    rewrite alter_keys by apply workloadsSelecting_NoDup. done.
Qed.

Lemma attachAutoscalers_lookup c m key :
  attachAutoscalers c m !! key =
  (fun p => match hpas c with
            | None => p
            | Some l => setAutoscalers (by_name asName (wpAutoscalers p ++ (describeAutoscaler <$> List.filter (scaler_on key (wpWorkload p)) l))) p
            end) <$> m !! key.
Proof.
  unfold attachAutoscalers. destruct (hpas c) as [l|]; [|by destruct (m !! key)]. rewrite lookup_fmap.
  rewrite (attach_all _ (fun key hpa => bool_decide ((hpa_Namespace hpa, hpa_TargetName hpa) = key))
    (fun hpa p => if bool_decide (Model.Kind (wpWorkload p) = hpa_TargetKind hpa)
                  then setAutoscalers (wpAutoscalers p ++ [describeAutoscaler hpa]) p else p)).
  - destruct (m !! key) as [p|]; [|done]. cbn. f_equal. revert p. unfold scaler_on. induction l as [|hpa l IH]; intros p; cbn.
    + rewrite app_nil_r. by destruct p.
    + destruct (bool_decide ((hpa_Namespace hpa, hpa_TargetName hpa) = key)); cbn; [|apply IH]. rewrite IH.
      case_bool_decide; cbn; [|done]. by destruct p; cbn; rewrite <-app_assoc.
  - intros m' hpa. unfold attach_autoscaler. case_bool_decide as Hk; [by rewrite Hk, lookup_alter_eq|by rewrite lookup_alter_ne].
Qed.

Lemma filter_entry {K A} `{Countable K} (m : gmap K A) key :
  List.filter (fun kx => bool_decide (kx.1 = key)) (map_to_list m) = (match m !! key with Some x => [(key, x)] | None => [] end).
Proof.
  assert (Hgen : forall l : list (K * A), NoDup l.*1 ->
    List.filter (fun kx => bool_decide (kx.1 = key)) l = (match list_find (fun kx => kx.1 = key) l with Some (_, kx) => [kx] | None => [] end)).
  { induction l as [|[k x] l IH]; [done|]. cbn. intros [Hk Hnd]%NoDup_cons. case_decide as Hd.
    - subst. rewrite bool_decide_eq_true_2 by done. f_equal. rewrite IH by done.
      destruct (list_find _ l) as [[i [k' y]]|] eqn:Hf; [|done]. apply list_find_Some in Hf as (Hi & Hk' & _). cbn in Hk'. subst.
      exfalso. apply Hk. apply list_elem_of_fmap. exists (key, y). split; [done|]. by eapply list_elem_of_lookup_2.
    - rewrite bool_decide_eq_false_2 by done. rewrite IH by done. by destruct (list_find _ l) as [[]|]. }
  rewrite Hgen by apply NoDup_fst_map_to_list. destruct (list_find _ _) as [[i [k x]]|] eqn:Hf.
  - apply list_find_Some in Hf as (Hi & Hk & _). cbn in Hk. subst. apply list_elem_of_lookup_2, elem_of_map_to_list in Hi. by rewrite Hi.
  - destruct (m !! key) as [x|] eqn:Hm; [|done]. apply elem_of_map_to_list in Hm.
    apply list_find_None in Hf. rewrite Forall_forall in Hf. by apply Hf in Hm.
Qed.

Lemma attachClaims_lookup c m claimed key :
  attachClaims c m claimed !! key =
  (fun p => match claims c, claimed !! key with
            | Some get, Some names => setClaims (by_name vcName (wpClaims p ++ omap (fun nm => describeClaim <$> get key.1 nm) names)) p
            | _, _ => p
            end) <$> m !! key.
Proof.
  unfold attachClaims. destruct (claims c) as [get|]; [|by destruct (m !! key)].
  rewrite (attach_all _ (fun key kc => bool_decide (kc.1 = key))
    (fun kc p => setClaims (by_name vcName (wpClaims p ++ omap (fun nm => describeClaim <$> get kc.1.1 nm) kc.2)) p)).
  - destruct (m !! key) as [p|]; [|done]. cbn [fmap option_fmap option_map]. f_equal. rewrite filter_entry. by destruct (claimed !! key).
  - intros m' kc. unfold attach_claims. case_bool_decide as Hk; [by rewrite Hk, lookup_alter_eq|by rewrite lookup_alter_ne].
Qed.

(** *** What was collected *)

Lemma collectedWorkloads_snoc entries e :
  collectedWorkloads (entries ++ [e]) = collect_entry (collectedWorkloads entries) e.
Proof. unfold collectedWorkloads. by rewrite foldl_app. Qed.

Lemma collected_claims entries key claim :
  claim ∈ default [] ((collectedWorkloads entries).2 !! key) <->
  exists e, e ∈ entries /\ key_of e = key /\ claim ∈ piClaims (e_info e).
Proof.
  induction entries as [|e entries IH] using rev_ind.
  { split; [intros H; by apply not_elem_of_nil in H|intros (e & H & _); by apply not_elem_of_nil in H]. }
  rewrite collectedWorkloads_snoc. unfold collect_entry. cbn [snd].
  assert (Hgen : forall l (m : gmap workloadKey (list string)), claim ∈ default [] (foldl (fun m claim => <[key_of e := add_new (default [] (m !! key_of e)) claim]> m) m l !! key) <->
    claim ∈ default [] (m !! key) \/ (key_of e = key /\ claim ∈ l)).
  { induction l as [|x l IHl]; intros m; cbn [foldl].
    - split; [by left|]. intros [?|[_ H]]; [done|by apply not_elem_of_nil in H].
    - rewrite IHl. destruct (decide (key_of e = key)) as [->|Hne].
      + rewrite lookup_insert_eq. cbn. rewrite add_new_elem, elem_of_cons. tauto.
      + rewrite lookup_insert_ne by done. tauto. }
  rewrite Hgen, IH. setoid_rewrite elem_of_app. setoid_rewrite list_elem_of_singleton. split.
  - intros [(e' & ? & ? & ?)|[? ?]]; [exists e'; tauto|exists e; tauto].
  - intros (e' & [Hin| ->] & ? & ?); [left; by exists e'|by right].
Qed.

Lemma collected_refs entries key ref :
  (collectedWorkloads entries).1 !! key = Some ref -> exists e, e ∈ entries /\ key_of e = key /\ e_workload e = ref.
Proof.
  induction entries as [|e entries IH] using rev_ind; [done|]. rewrite collectedWorkloads_snoc. unfold collect_entry. cbn [fst].
  rewrite lookup_insert_Some. setoid_rewrite elem_of_app. setoid_rewrite list_elem_of_singleton.
  intros [[<- <-]|[_ H]]; [exists e; tauto|]. destruct (IH H) as (e' & ? & ?). exists e'. tauto.
Qed.
Lemma collected_keys entries e : e ∈ entries -> is_Some ((collectedWorkloads entries).1 !! key_of e).
Proof.
  induction entries as [|e' entries IH] using rev_ind; [intros H; by apply not_elem_of_nil in H|].
  rewrite elem_of_app, list_elem_of_singleton, collectedWorkloads_snoc. unfold collect_entry. cbn [fst].
  destruct (decide (key_of e' = key_of e)) as [->|Hne]; [by rewrite lookup_insert_eq|]. rewrite lookup_insert_ne by done.
  intros [Hin| ->]; [by apply IH|done].
Qed.

Lemma by_name_nil {A} (name : A -> string) : by_name name [] = [].
Proof. done. Qed.

(** The records, out of a map that has the record of each collected name. *)
Lemma policy_records_map c w entries :
  exists byKey : policies,
    (forall key, byKey !! key =
       (fun ref => policy_of c w (default [] ((collectedWorkloads entries).2 !! key)) key ref) <$> (collectedWorkloads entries).1 !! key) /\
    policy_records c w entries ≡ₚ List.filter (fun p => negb (nothing_attached p)) (map_to_list byKey).*2.
Proof.
  unfold policy_records. destruct (collectedWorkloads entries) as [workloads claimed]. cbn [fst snd].
  case_bool_decide as Hw; [exists ∅; split; [intros; by rewrite Hw|done]|].
  eexists. split; [|apply merge_sort_Permutation]. intros key.
  rewrite attachServices_lookup, attachClaims_lookup, attachAutoscalers_lookup, attachBudgets_lookup, map_lookup_imap.
  destruct (workloads !! key) as [ref|]; [|done]. cbn. f_equal. unfold policy_of.
  destruct (pdbs c), (hpas c), (claims c), (claimed !! key), (services c); cbn; rewrite ?by_name_nil; done.
Qed.

Lemma elem_of_policy_records c w entries p :
  p ∈ policy_records c w entries <->
  exists key ref, (collectedWorkloads entries).1 !! key = Some ref /\
    p = policy_of c w (default [] ((collectedWorkloads entries).2 !! key)) key ref /\ nothing_attached p = false.
Proof.
  destruct (policy_records_map c w entries) as (byKey & Hby & ->).
  rewrite list_elem_of_In, List.filter_In, <-list_elem_of_In, list_elem_of_fmap, negb_true_iff. split.
  - intros [([key p'] & -> & Hin%elem_of_map_to_list) Hp]. rewrite Hby in Hin. apply fmap_Some in Hin as (ref & Href & Hp').
    cbn in *. by exists key, ref.
  - intros (key & ref & Href & -> & Hp). split; [|done]. eexists (key, _). split; [reflexivity|]. apply elem_of_map_to_list.
    cbn. by rewrite Hby, Href.
Qed.

(** *** What a record is meant to hold *)

(** The key of a record: the kind of its workload is not part of it. *)
Definition record_key (p : WorkloadPolicy) : workloadKey := (wpNamespace p, Model.Name (wpWorkload p)).

(** The workload of the last collected pod of a name. *)
Inductive last_under (key : workloadKey) : list podIndexEntry -> WorkloadRef -> Prop :=
| last_under_here before e after :
    key_of e = key -> (forall e', e' ∈ after -> key_of e' <> key) -> last_under key (before ++ e :: after) (e_workload e).

(** A cached pod the selector matches, of that namespace, is in the index under the
    name. *)
Definition covered (c : policy_caches) (w : PodWatcher) (ns : string) (s : Selector) (key : workloadKey) : Prop :=
  exists pod, pod ∈ default [] (selectablePods c) /\ sp_Namespace pod = ns /\ sel_Matches s (sp_Labels pod) = true /\
    admitted_key w ns pod = Some key.
Definition constrains (c : policy_caches) (w : PodWatcher) (key : workloadKey) (pdb : PodDisruptionBudget) : Prop :=
  exists s, pdb_Selector pdb = Some s /\ sel_Empty s = false /\ covered c w (pdb_Namespace pdb) s key.
Definition exposes (c : policy_caches) (w : PodWatcher) (key : workloadKey) (svc : Service) : Prop :=
  svc_Selector svc <> ∅ /\ covered c w (svc_Namespace svc) (SelectorFromSet (svc_Selector svc)) key.
Definition scales (key : workloadKey) (ref : WorkloadRef) (hpa : HorizontalPodAutoscaler) : Prop :=
  (hpa_Namespace hpa, hpa_TargetName hpa) = key /\ hpa_TargetKind hpa = Model.Kind ref.
Definition mounts (entries : list podIndexEntry) (key : workloadKey) (claim : string) : Prop :=
  exists e, e ∈ entries /\ key_of e = key /\ claim ∈ piClaims (e_info e).

(** The descriptions of those of the objects that are [on], in the order of names. *)
Definition in_name_order {B} (name : B -> string) (out : list B) : Prop :=
  StronglySorted (fun x y => go_lt (name y) (name x) = false) out.
Definition describes {A B} (on : A -> Prop) (describe : A -> B) (name : B -> string) (all : list A) (out : list B) : Prop :=
  in_name_order name out /\ exists sel : A -> bool, (forall x, sel x = true <-> on x) /\ out ≡ₚ describe <$> List.filter sel all.

Lemma by_name_in_order {B} (name : B -> string) (l : list B) : by_name name l ≡ₚ l /\ in_name_order name (by_name name l).
Proof.
  destruct (sort_slice_sorted (fun a b => go_lt (name a) (name b)) name (fun _ _ => eq_refl) l) as [Hp Hs]. split; [exact Hp|].
  eapply StronglySorted_impl, Hs. intros x y H. exact H.
Qed.
Lemma by_name_describes {A B} (on : A -> Prop) (describe : A -> B) name (sel : A -> bool) all :
  (forall x, sel x = true <-> on x) -> describes on describe name all (by_name name (describe <$> List.filter sel all)).
Proof. intros H. destruct (by_name_in_order name (describe <$> List.filter sel all)). split; [done|]. by exists sel. Qed.

Lemma budget_on_constrains c w key pdb : budget_on c w key pdb = true <-> constrains c w key pdb.
Proof.
  unfold budget_on, constrains. destruct (pdb_Selector pdb) as [s|]; [|split; [done|by intros (? & ? & _)]].
  rewrite andb_true_iff, negb_true_iff, bool_decide_eq_true, elem_of_workloadsSelecting. split; [intros [? ?]; by exists s|].
  by intros (s' & [= <-] & ? & ?).
Qed.
Lemma service_on_exposes c w key svc : service_on c w key svc = true <-> exposes c w key svc.
Proof.
  unfold service_on, exposes. by rewrite andb_true_iff, negb_true_iff, bool_decide_eq_true, bool_decide_eq_false, elem_of_workloadsSelecting.
Qed.
Lemma scaler_on_scales key ref hpa : scaler_on key ref hpa = true <-> scales key ref hpa.
Proof. unfold scaler_on, scales. rewrite andb_true_iff, !bool_decide_eq_true. intuition congruence. Qed.

Lemma collected_last entries key ref : (collectedWorkloads entries).1 !! key = Some ref <-> last_under key entries ref.
Proof.
  revert ref. induction entries as [|e entries IH] using rev_ind; intros ref.
  { split; [done|]. inversion 1 as [before e after _ _ Hnil]. by destruct before. }
  rewrite collectedWorkloads_snoc. unfold collect_entry. cbn [fst]. rewrite lookup_insert_Some, IH. split.
  - intros [[Hk <-]|[Hk H]]; [by apply (last_under_here key entries e []); [|intros ? ?%not_elem_of_nil]|].
    destruct H as [before e0 after H0 Hafter]. rewrite <-app_assoc. apply (last_under_here key before e0 (after ++ [e])); [done|].
    intros e'. rewrite elem_of_app, list_elem_of_singleton. intros [?| ->]; [by apply Hafter|done].
  - inversion 1 as [before e0 after H0 Hafter Heq Href]. destruct after as [|x after _] using rev_ind.
    + apply app_inj_tail in Heq as [-> ->]. by left.
    + rewrite app_comm_cons, app_assoc in Heq. apply app_inj_tail in Heq as [<- <-]. right. split; [apply Hafter; set_solver|].
      constructor; [done|]. intros e' He'. apply Hafter. set_solver.
Qed.

Lemma collected_claims_NoDup entries key : NoDup (default [] ((collectedWorkloads entries).2 !! key)).
Proof.
  induction entries as [|e entries IH] using rev_ind; [apply NoDup_nil_2|].
  rewrite collectedWorkloads_snoc. unfold collect_entry. cbn [snd]. generalize dependent (collectedWorkloads entries).2.
  induction (piClaims (e_info e)) as [|x l IHl]; intros m Hm; cbn [foldl]; [done|]. apply IHl.
  destruct (decide (key_of e = key)) as [->|Hne]; [|by rewrite lookup_insert_ne].
  rewrite lookup_insert_eq. cbn. by apply add_new_NoDup.
Qed.

Lemma policy_of_key c w entries claimed key ref :
  (collectedWorkloads entries).1 !! key = Some ref -> record_key (policy_of c w claimed key ref) = key.
Proof. intros (e & _ & <- & <-)%collected_refs. done. Qed.

Lemma policy_of_describes c w entries key ref :
  let p := policy_of c w (default [] ((collectedWorkloads entries).2 !! key)) key ref in
  describes (constrains c w key) describeBudget dbName (default [] (pdbs c)) (wpBudgets p) /\
  describes (exposes c w key) (expose c) sxName (default [] (services c)) (wpServices p) /\
  describes (scales key ref) describeAutoscaler asName (default [] (hpas c)) (wpAutoscalers p) /\
  in_name_order vcName (wpClaims p) /\
  exists names, NoDup names /\ (forall nm, nm ∈ names <-> mounts entries key nm) /\
    wpClaims p ≡ₚ omap (fun nm => get ← claims c; describeClaim <$> get key.1 nm) names.
Proof.
  cbn [policy_of wpBudgets wpServices wpAutoscalers wpClaims]. split_and!.
  - apply by_name_describes, budget_on_constrains.
  - apply by_name_describes, service_on_exposes.
  - apply by_name_describes, scaler_on_scales.
  - destruct (claims c); [apply by_name_in_order|constructor].
  - eexists. split_and!; [apply collected_claims_NoDup|intros; apply collected_claims|]. destruct (claims c) as [get|].
    + etrans; [apply by_name_in_order|done].
    + by induction (default _ _).
Qed.

Lemma NoDup_fmap_filter {A B} (f : A -> B) (keep : A -> bool) l : NoDup (f <$> l) -> NoDup (f <$> List.filter keep l).
Proof.
  induction l as [|x l IH]; cbn; [done|]. intros [Hx Hl]%NoDup_cons. destruct (keep x); [|by apply IH].
  apply NoDup_cons. split; [|by apply IH]. intros (y & Hy & Hin)%list_elem_of_fmap. apply Hx, list_elem_of_fmap. exists y.
  split; [done|]. by apply list_elem_of_In, List.filter_In, proj1, list_elem_of_In in Hin.
Qed.
Lemma policy_records_keys c w entries : NoDup (record_key <$> policy_records c w entries).
Proof.
  destruct (policy_records_map c w entries) as (byKey & Hby & ->).
  apply NoDup_fmap_filter. rewrite <-list_fmap_compose.
  rewrite (list_fmap_ext _ fst); [apply NoDup_fst_map_to_list|].
  intros i [key p] Hi%list_elem_of_lookup_2%elem_of_map_to_list. rewrite Hby in Hi.
  apply fmap_Some in Hi as (ref & Href & ->). by apply (policy_of_key c w entries).
Qed.

(** Something is attached to a record when one of its lists is inhabited. *)
Lemma describes_inhabited {A B} (on : A -> Prop) (describe : A -> B) name all out :
  describes on describe name all out -> out <> [] <-> exists x, x ∈ all /\ on x.
Proof.
  intros (_ & sel & Hsel & Hp). setoid_rewrite <-Hsel. split.
  - intros Hne. destruct (List.filter sel all) as [|x l] eqn:Hf; [by apply Permutation_nil_r in Hp|]. exists x.
    rewrite list_elem_of_In, <-List.filter_In, Hf. by left.
  - intros (x & Hx%list_elem_of_In & Hs) ->. assert (In x (List.filter sel all)) as H by (by apply List.filter_In).
    apply Permutation_nil_l in Hp. destruct (List.filter sel all); [done|]. discriminate.
Qed.
Lemma nothing_attached_false p :
  nothing_attached p = false <-> wpBudgets p <> [] \/ wpServices p <> [] \/ wpAutoscalers p <> [] \/ wpClaims p <> [].
Proof. unfold nothing_attached. destruct (wpBudgets p), (wpAutoscalers p), (wpClaims p), (wpServices p); naive_solver. Qed.

Lemma attached_iff c w entries key ref :
  nothing_attached (policy_of c w (default [] ((collectedWorkloads entries).2 !! key)) key ref) = false <->
  (exists pdb, pdb ∈ default [] (pdbs c) /\ constrains c w key pdb) \/
  (exists svc, svc ∈ default [] (services c) /\ exposes c w key svc) \/
  (exists hpa, hpa ∈ default [] (hpas c) /\ scales key ref hpa) \/
  (exists get nm pvc, claims c = Some get /\ mounts entries key nm /\ get key.1 nm = Some pvc).
Proof.
  destruct (policy_of_describes c w entries key ref) as (Hb & Hs & Ha & _ & names & _ & Hnames & Hc).
  rewrite nothing_attached_false. rewrite (describes_inhabited _ _ _ _ _ Hb), (describes_inhabited _ _ _ _ _ Hs), (describes_inhabited _ _ _ _ _ Ha).
  do 3 apply or_iff_compat_l. setoid_rewrite <-Hnames. split.
  - intros Hne. destruct (omap _ names) as [|v l] eqn:Ho; [by apply Permutation_nil_r in Hc|].
    assert (Hv : v ∈ v :: l) by apply list_elem_of_here. rewrite <-Ho, list_elem_of_omap in Hv. destruct Hv as (nm & Hnm & H).
    destruct (claims c) as [get|]; [|done]. cbn in H. apply fmap_Some in H as (pvc & ? & _). by exists get, nm, pvc.
  - intros (get & nm & pvc & Hget & Hnm & Hpvc) Hnil. rewrite Hnil in Hc.
    assert (H : describeClaim pvc ∈ omap (fun nm => get ← claims c; describeClaim <$> get key.1 nm) names).
    { apply list_elem_of_omap. exists nm. split; [done|]. rewrite Hget. cbn. by rewrite Hpvc. }
    rewrite <-Hc in H. by apply not_elem_of_nil in H.
Qed.

(** C35. The policy records follow the selectors.  There is at most one record for a
    namespace and workload name: the kind is left out of the key, so workloads of
    two kinds and one name share a record, and its kind is that of the last of
    their pods in the order the index was read in ([two_kinds_share_a_record]
    shows the confusion that makes; with one kind per name the record's workload is
    the pods' own).  There is a record of a collected name if and only if something
    is attached to it, and what it carries, each list exactly and in the order of
    names, is: the budgets with a selector that is not empty and matches a cached
    pod of their namespace that the index has under that name (a budget of the
    empty selector, meant for a whole namespace, is skipped:
    [namespace_wide_budget_is_dropped]); the services with a selector, by the same
    rule; the autoscalers whose target has that name and the record's kind; and, once
    each, the claims that collected pods of the name mount and that the cache holds.
    What covers only pods the index does not hold is named by no record. *)
Theorem policies_follow_the_selectors c w entries :
  NoDup (record_key <$> policy_records c w entries) /\
  (forall p, p ∈ policy_records c w entries -> let key := record_key p in
     last_under key entries (wpWorkload p) /\
     describes (constrains c w key) describeBudget dbName (default [] (pdbs c)) (wpBudgets p) /\
     describes (exposes c w key) (expose c) sxName (default [] (services c)) (wpServices p) /\
     describes (scales key (wpWorkload p)) describeAutoscaler asName (default [] (hpas c)) (wpAutoscalers p) /\
     in_name_order vcName (wpClaims p) /\
     exists names, NoDup names /\ (forall nm, nm ∈ names <-> mounts entries key nm) /\
       wpClaims p ≡ₚ omap (fun nm => get ← claims c; describeClaim <$> get key.1 nm) names) /\
  (forall key, (exists p, p ∈ policy_records c w entries /\ record_key p = key) <->
     exists ref, last_under key entries ref /\
       ((exists pdb, pdb ∈ default [] (pdbs c) /\ constrains c w key pdb) \/
        (exists svc, svc ∈ default [] (services c) /\ exposes c w key svc) \/
        (exists hpa, hpa ∈ default [] (hpas c) /\ scales key ref hpa) \/
        (exists get nm pvc, claims c = Some get /\ mounts entries key nm /\ get key.1 nm = Some pvc))).
Proof.
  split_and!; [apply policy_records_keys| |].
  - intros p Hp key. apply elem_of_policy_records in Hp as (key' & ref & Href & -> & _).
    assert (key = key') as -> by (by apply (policy_of_key c w entries)). split; [by apply collected_last|apply policy_of_describes].
  - intros key. transitivity (exists ref, (collectedWorkloads entries).1 !! key = Some ref /\
      nothing_attached (policy_of c w (default [] ((collectedWorkloads entries).2 !! key)) key ref) = false).
    { setoid_rewrite elem_of_policy_records. split.
      - intros (p & (key' & ref & Href & -> & Hn) & <-). rewrite (policy_of_key c w entries _ _ _ Href). by exists ref.
      - intros (ref & Href & Hn). eexists. split; [by exists key, ref|by apply (policy_of_key c w entries)]. }
    f_equiv; intros ref. rewrite collected_last. apply and_iff_compat_l, attached_iff.
Qed.

(** ** Where it falls short *)

Definition demo_info (ns nm kind owner : string) : PodInfo :=
  mkPodInfo ns nm "n1" "Running" "" "Burstable" (mkWorkloadRef kind owner)
    (mkPlacement ∅ [] [] [] [] [] "" None false "") [] [].
Definition demo_entry (ns nm kind owner : string) : podIndexEntry :=
  mkEntry ns nm "n1" (mkWorkloadRef kind owner) ∅ (demo_info ns nm kind owner) true.
(** Two collected pods, of a Deployment and of a StatefulSet called the same. *)
Definition demo_entries : list podIndexEntry := [demo_entry "shop" "web-1" "Deployment" "web"; demo_entry "shop" "web-0" "StatefulSet" "web"].
Definition demo_watcher : PodWatcher :=
  setIndex (list_to_map (zip ["u1"; "u2"]%string demo_entries))
    (list_to_map (zip [name_key "shop" "web-1"; name_key "shop" "web-0"] ["u1"; "u2"]%string)) (NewPodWatcher (NewFilter [] [])).
Definition demo_policy_caches (s : Selector) : policy_caches :=
  mkPolicyCaches (Some [mkSelectablePod "shop" "web-1" {["app" := "web"]}; mkSelectablePod "shop" "web-0" ∅]%string)
    (Some [mkPDB "shop" "web" (Some s) (Some "1"%string) None 0 1 1 1]) None None None None None None None None.

(** The key of a record leaves the kind out: of two workloads of one name only one
    has a record, which one the order of the index decides, and it carries what
    covers the other. *)
Lemma two_kinds_share_a_record :
  let c := demo_policy_caches (SelectorFromSet {["app" := "web"]}%string) in
  let shown entries := (fun p => (Model.Kind (wpWorkload p), dbName <$> wpBudgets p)) <$> policy_records c demo_watcher entries in
  shown demo_entries = [("StatefulSet", ["web"])]%string /\ shown (reverse demo_entries) = [("Deployment", ["web"])]%string.
Proof. split; vm_compute; reflexivity. Qed.

(** The empty selector of a budget, which in policy/v1 covers every pod of its
    namespace, is skipped: the budget is reported of no workload. *)
Lemma namespace_wide_budget_is_dropped :
  let everything := mkSelector true (fun _ => true) in
  workloadsSelecting (demo_policy_caches everything) demo_watcher "shop" everything = [("shop", "web")]%string /\
  policy_records (demo_policy_caches everything) demo_watcher demo_entries = [].
Proof. split; vm_compute; reflexivity. Qed.

(** ** Cluster policy names collected namespaces only *)
Lemma cluster_policy_is_of_collected_namespaces c entries p :
  p ∈ cpNamespaces (cluster_records c entries) ->
  (exists e, e ∈ entries /\ e_namespace e = npNamespace p) /\
  npLimitRanges p = limitRangesIn c (npNamespace p) /\ npQuotas p = quotasIn c (npNamespace p).
Proof.
  cbn [cluster_records cpNamespaces]. rewrite list_elem_of_omap. intros (ns & Hns & Hp).
  assert (p = mkNamespacePolicy ns (limitRangesIn c ns) (quotasIn c ns)) as ->.
  { unfold namespace_policy in Hp. destruct (limitRangesIn c ns), (quotasIn c ns); by simplify_eq. }
  cbn. split; [|done]. unfold collectedNamespaces, sort_slice in Hns. rewrite merge_sort_Permutation in Hns.
  apply (proj2 (add_new_all _ [] NoDup_nil_2)) in Hns as [H|H]; [by apply not_elem_of_nil in H|].
  apply list_elem_of_fmap in H as (e & -> & He). by exists e.
Qed.

(** The sources declared unavailable are the wanted ones that the health listing
    shows never filled or failing now. *)
Lemma unavailable_agrees_with_health sources d now want nm :
  nm ∈ unavailablePolicySources sources d now want <->
  nm ∈ want /\ exists h, h ∈ SourceHealths sources d now /\ shName h = nm /\ (shSynced h = false \/ shFailing h = true).
Proof.
  unfold unavailablePolicySources, SourceHealths, by_name, sort_slice. rewrite !merge_sort_Permutation, list_elem_of_omap.
  setoid_rewrite merge_sort_Permutation. setoid_rewrite list_elem_of_fmap. unfold failedWithin. split.
  - intros (s & Hs & H). case_bool_decide as Hw; [|done]. cbn in H.
    destruct (negb _ || _) eqn:Hb in H; [|done]. injection H as <-. split; [done|]. eexists. split; [by exists s|]. cbn. split; [done|].
    apply orb_true_iff in Hb as [Hb%negb_true_iff|Hb]; [by left|right]. done.
  - intros (Hw & h & (s & -> & Hs) & <- & Hd). exists s. split; [done|]. cbn in *. rewrite bool_decide_eq_true_2 by done. cbn.
    assert (negb (default false (ps_synced s)) || match failingSince (ps_health s) now (if d =? 0 then watchUnavailableFor else d) with Some _ => true | None => false end = true) as ->; [|done].
    apply orb_true_iff. destruct Hd as [->|Hd]; [by left|by right].
Qed.

(** The listing is of these nine, each once. *)
Lemma SourceHealths_names synced health d now :
  shName <$> SourceHealths (policySources synced health) d now ≡ₚ policySourceNames.
Proof.
  unfold SourceHealths, by_name, sort_slice. rewrite merge_sort_Permutation. unfold policySources.
  rewrite <-!list_fmap_compose. by rewrite (list_fmap_ext _ id) by done.
Qed.
