(* ===== verification/Metadata.v ===== *)
(** The workload metadata payload: [metadata/workload.go], the declared shape of
    every collected container and where its replicas run, with the update
    strategies of [collector/updatestrategy.go].

    [Aggregate] ranges over the pods of the index and gathers by key; the model
    gathers in a [gmap].  An [intstr.IntOrString] is what its [String] says. *)

From stdpp Require Import prelude gmap strings list sorting.
From Stdlib Require Import ZArith Lia.
From S2P Require Import Prelude GoTime Model.
Local Open Scope Z_scope.

(** ** The payload *)

Record Key := mkKey {
  kNamespace : string; kWorkloadKind : string; kWorkloadName : string; kContainer : string; kImageDigest : string;
}.
#[export] Instance Key_eq_dec : EqDecision Key.
Proof. solve_decision. Defined.

Definition key_tuple (k : Key) : string * (string * (string * (string * string))) :=
  (kNamespace k, (kWorkloadKind k, (kWorkloadName k, (kContainer k, kImageDigest k)))).
Definition key_of_tuple (t : string * (string * (string * (string * string)))) : Key :=
  let '(a, (b, (c, (d, e)))) := t in mkKey a b c d e.
#[export] Instance Key_countable : Countable Key.
Proof. refine (inj_countable' key_tuple key_of_tuple _). by intros []. Defined.

Record PodScope := mkPodScope {
  psQOSClass : string;
  Replicas : Z;
  Phases : gmap string Z;
  Nodes : gmap string Z;
  Unscheduled : gmap string Z;
  psPlacement : Placement;
}.

Record Record_ := mkRecord {
  mKey : Key;
  Image : string;
  Init : bool;
  mResources : Resources;
  mPorts : list ContainerPort;
  mProbes : Probes;
  mRuntimeEnv : gmap string string;
  mPod : PodScope;
  mUpdateStrategy : UpdateStrategy;
}.

(** ** Aggregation *)

Definition key_for (p : PodInfo) (c : Container) : Key :=
  mkKey (piNamespace p) (Kind (piWorkload p)) (Name (piWorkload p)) (c_Name c) (c_ImageDigest c).

Definition noStrategy : UpdateStrategy := mkUpdateStrategy "" "" "" None 0.

Definition newRecord (strategies : gmap WorkloadKey UpdateStrategy) (p : PodInfo) (c : Container) : Record_ :=
  mkRecord (key_for p c) (c_Image c) (c_Init c) (c_Resources c) (c_Ports c) (c_Probes c) (c_RuntimeEnv c)
    (mkPodScope (piQOSClass p) 0 ∅ ∅ ∅ (piPlacement p))
    (default noStrategy (strategies !! mkWorkloadKey (piNamespace p) (Kind (piWorkload p)) (Name (piWorkload p)))).

(** A name the pod does not have is not counted. *)
Definition bump (x : string) (m : gmap string Z) : gmap string Z :=
  if bool_decide (x = ""%string) then m else <[x := default 0 (m !! x) + 1]> m.

Definition count_replica (p : PodInfo) (r : Record_) : Record_ :=
  mkRecord (mKey r) (Image r) (Init r) (mResources r) (mPorts r) (mProbes r) (mRuntimeEnv r)
    (mkPodScope (psQOSClass (mPod r)) (Replicas (mPod r) + 1) (bump (piPhase p) (Phases (mPod r)))
       (bump (piNode p) (Nodes (mPod r))) (bump (piUnscheduled p) (Unscheduled (mPod r))) (psPlacement (mPod r)))
    (mUpdateStrategy r).

Definition add_container (strategies : gmap WorkloadKey UpdateStrategy) (p : PodInfo) (byKey : gmap Key Record_)
    (c : Container) : gmap Key Record_ :=
  let key := key_for p c in
  let rec_ := default (newRecord strategies p c) (byKey !! key) in
  <[key := count_replica p rec_]> byKey.

Definition lessKey (a b : Key) : bool :=
  lexi (kNamespace a) (kNamespace b) (lexi (kWorkloadKind a) (kWorkloadKind b)
    (lexi (kWorkloadName a) (kWorkloadName b) (lexi (kContainer a) (kContainer b)
      (go_lt (kImageDigest a) (kImageDigest b))))).

Definition gather (pods : list PodInfo) (strategies : gmap WorkloadKey UpdateStrategy) : gmap Key Record_ :=
  foldl (fun byKey p => foldl (add_container strategies p) byKey (piContainers p)) ∅ pods.

Definition Aggregate (pods : list PodInfo) (strategies : gmap WorkloadKey UpdateStrategy) : list Record_ :=
  sort_slice (fun a b => lessKey (mKey a) (mKey b)) (map_values (gather pods strategies)).

(** ** Tallies *)

Definition occurs (x : string) (l : list string) : Z := Z.of_nat (length (filter (eq x) l)).
Definition tally (l : list string) : gmap string Z := foldl (fun m x => bump x m) ∅ l.

#[local] Arguments tally : simpl never.

Lemma occurs_snoc x l y : occurs x (l ++ [y]) = occurs x l + (if bool_decide (x = y) then 1 else 0).
Proof.
  unfold occurs. rewrite filter_app, filter_cons, filter_nil, length_app.
  destruct (decide (x = y)) as [He|He]; [rewrite bool_decide_eq_true_2 by done|rewrite bool_decide_eq_false_2 by done];
    cbn; lia.
Qed.

Lemma occurs_perm x l l' : l ≡ₚ l' -> occurs x l = occurs x l'.
Proof. intros H. unfold occurs. by rewrite H. Qed.

Lemma occurs_nonneg x l : 0 <= occurs x l.
Proof. unfold occurs. lia. Qed.

Lemma tally_snoc l x : tally (l ++ [x]) = bump x (tally l).
Proof. unfold tally. by rewrite foldl_app. Qed.

Lemma tally_lookup l x :
  tally l !! x = if bool_decide (x = ""%string) || (occurs x l =? 0) then None else Some (occurs x l).
Proof.
  induction l as [|y l IH] using rev_ind; [by rewrite orb_true_r|].
  rewrite tally_snoc, occurs_snoc. unfold bump. pose proof (occurs_nonneg x l).
  destruct (decide (y = ""%string)) as [->|Hy].
  - rewrite bool_decide_eq_true_2, IH by done. destruct (decide (x = ""%string)) as [->|Hx]; [done|].
    rewrite !(bool_decide_eq_false_2 (x = ""%string)) by done. by rewrite Z.add_0_r.
  - rewrite (bool_decide_eq_false_2 (y = ""%string)) by done. destruct (decide (x = y)) as [->|Hx].
    + rewrite lookup_insert_eq, IH, bool_decide_eq_false_2, bool_decide_eq_true_2 by done. cbn [orb].
      destruct (Z.eqb_spec (occurs y l) 0) as [Hz|Hz]; cbn [default]; destruct (Z.eqb_spec (occurs y l + 1) 0); try lia;
        f_equal; lia.
    + rewrite lookup_insert_ne, IH by done. rewrite (bool_decide_eq_false_2 (x = y)) by done. by rewrite Z.add_0_r.
Qed.

Lemma tally_perm l l' : l ≡ₚ l' -> tally l = tally l'.
Proof. intros H. apply map_eq. intros x. by rewrite !tally_lookup, (occurs_perm x l l' H). Qed.

Lemma tally_sum l : map_sum id (tally l) = Z.of_nat (length (filter (fun x => x <> ""%string) l)).
Proof.
  induction l as [|y l IH] using rev_ind; [done|]. rewrite tally_snoc, filter_app, filter_cons, filter_nil, length_app.
  unfold bump. case_bool_decide; [by rewrite decide_False by tauto; rewrite IH; cbn; lia|].
  rewrite decide_True, map_sum_insert, IH by done. destruct (tally l !! y); cbn; lia.
Qed.

(** ** What a record says

    The replicas of a key are the occurrences of a container under it. *)

Abbreviation replica := (PodInfo * Container)%type.
Definition replica_key (o : replica) : Key := key_for o.1 o.2.
Definition occurrences (pods : list PodInfo) : list replica := pods ≫= fun p => pair p <$> piContainers p.
Definition replicas_of (k : Key) (os : list replica) : list replica := filter (fun o => replica_key o = k) os.

(** The record of the replicas [os] of one key, whose first is [first]. *)
Definition record_of (strategies : gmap WorkloadKey UpdateStrategy) (first : replica) (os : list replica) : Record_ :=
  let r := newRecord strategies first.1 first.2 in
  mkRecord (mKey r) (Image r) (Init r) (mResources r) (mPorts r) (mProbes r) (mRuntimeEnv r)
    (mkPodScope (psQOSClass (mPod r)) (Z.of_nat (length os)) (tally (piPhase ∘ fst <$> os))
       (tally (piNode ∘ fst <$> os)) (tally (piUnscheduled ∘ fst <$> os)) (psPlacement (mPod r)))
    (mUpdateStrategy r).

Section gather.
Context (strategies : gmap WorkloadKey UpdateStrategy).

Definition add_replica (byKey : gmap Key Record_) (o : replica) : gmap Key Record_ :=
  add_container strategies o.1 byKey o.2.
Definition gathered (os : list replica) : gmap Key Record_ := foldl add_replica ∅ os.

Lemma gather_occurrences pods : gather pods strategies = gathered (occurrences pods).
Proof.
  unfold gather, gathered, occurrences. generalize (∅ : gmap Key Record_) as m.
  induction pods as [|p pods IH]; intros m; [done|]. rewrite bind_cons, foldl_app. cbn [foldl]. rewrite IH. f_equal.
  revert m. induction (piContainers p) as [|c cs IHc]; intros m; [done|]. cbn. apply IHc.
Qed.

Definition summary (os : list replica) : option Record_ :=
  match os with [] => None | first :: _ => Some (record_of strategies first os) end.

Lemma count_replica_record_of first os o :
  count_replica o.1 (record_of strategies first os) = record_of strategies first (os ++ [o]).
Proof.
  unfold count_replica, record_of. cbn. rewrite !fmap_app, length_app. cbn [fmap list_fmap]. rewrite !tally_snoc. do 2 f_equal. cbn. lia.
Qed.

Lemma gathered_lookup os k : gathered os !! k = summary (replicas_of k os).
Proof.
  induction os as [|o os IH] using rev_ind; [done|]. unfold gathered, replicas_of in *. rewrite foldl_app, filter_app.
  cbn [foldl]. unfold add_replica at 1, add_container. fold (replica_key o). rewrite filter_cons, filter_nil.
  destruct (decide (replica_key o = k)) as [<-|Hk].
  - rewrite lookup_insert_eq, IH. destruct (filter _ os) as [|first rest] eqn:Hf; cbn [summary default app].
    + done.
    + by rewrite (count_replica_record_of first (first :: rest)).
  - rewrite lookup_insert_ne, app_nil_r by done. apply IH.
Qed.

Lemma record_key first os k : mKey (record_of strategies first os) = k <-> replica_key first = k.
Proof. done. Qed.

Lemma summary_Some k os r :
  summary (replicas_of k os) = Some r <->
  exists first rest, replicas_of k os = first :: rest /\ r = record_of strategies first (first :: rest).
Proof.
  destruct (replicas_of k os) as [|first rest]; cbn; (split; [|intros (? & ? & Hf & ->)]); try done.
  - intros [= <-]. eauto.
  - by injection Hf as <- <-.
Qed.

Lemma gathered_key os k r : gathered os !! k = Some r -> mKey r = k.
Proof.
  rewrite gathered_lookup, summary_Some. intros (first & rest & Hf & ->).
  assert (first ∈ replicas_of k os) as Hin by (rewrite Hf; by left).
  by apply list_elem_of_filter in Hin as [<- _].
Qed.
End gather.

Lemma lessKey_tuple a b : lessKey a b = go_lt (key_tuple a) (key_tuple b).
Proof. done. Qed.

Lemma Aggregate_elem pods strategies r :
  r ∈ Aggregate pods strategies <-> gathered strategies (occurrences pods) !! mKey r = Some r.
Proof.
  unfold Aggregate. rewrite elem_of_sort_slice, gather_occurrences, elem_of_map_values. split; [|by eauto].
  intros [k Hk]. by rewrite (gathered_key _ _ _ _ Hk).
Qed.

Lemma Aggregate_keys pods strategies : NoDup (mKey <$> map_values (gather pods strategies)).
Proof.
  apply (NoDup_keys_of_values mKey id); [|apply _]. intros k r. rewrite gather_occurrences. apply gathered_key.
Qed.

Lemma tally_total (f : PodInfo -> string) (os : list replica) :
  map_sum id (tally (f ∘ fst <$> os)) = Z.of_nat (length (filter (fun o => f o.1 <> ""%string) os)).
Proof.
  rewrite tally_sum. f_equal. induction os as [|o os IH]; [done|]. cbn [fmap list_fmap].
  rewrite !filter_cons. destruct (decide (f o.1 <> ""%string));
    [rewrite !decide_True by done; cbn [length]; f_equal|rewrite !decide_False by done]; apply IH.
Qed.

(** The metadata payload is one record per container of one workload and
    build, in strictly increasing key order, exactly for the keys some collected
    pod carries.  Each record counts its replicas: [Replicas] is how many
    containers the pods run under the key, [Phases] and [Nodes] how many of them
    are in each phase and on each node, so [Phases] sums to [Replicas] less the
    pods without a phase, and [Nodes] falls short of it by exactly the replicas
    not yet on a node. *)
Theorem Aggregate_counts_replicas pods strategies :
  let rs := Aggregate pods strategies in
  StronglySorted (fun a b => lessKey (mKey a) (mKey b) = true) rs /\
  (forall k, k ∈ mKey <$> rs <-> k ∈ replica_key <$> occurrences pods) /\
  forall r, r ∈ rs ->
    let os := replicas_of (mKey r) (occurrences pods) in
    Replicas (mPod r) = Z.of_nat (length os) /\
    (forall phase, phase <> ""%string -> default 0 (Phases (mPod r) !! phase) = occurs phase (piPhase ∘ fst <$> os)) /\
    (forall node, node <> ""%string -> default 0 (Nodes (mPod r) !! node) = occurs node (piNode ∘ fst <$> os)) /\
    map_sum id (Phases (mPod r)) =
      Replicas (mPod r) - Z.of_nat (length (filter (fun o => piPhase o.1 = ""%string) os)) /\
    map_sum id (Nodes (mPod r)) =
      Replicas (mPod r) - Z.of_nat (length (filter (fun o => piNode o.1 = ""%string) os)).
Proof.
  intros rs. split; [apply (sort_slice_strict _ (key_tuple ∘ mKey)); [intros; apply lessKey_tuple|]|].
  { rewrite list_fmap_compose. apply NoDup_fmap_2; [|apply Aggregate_keys].
    intros [] [] [=]. by subst. }
  assert (forall r, r ∈ rs <-> exists first rest,
    replicas_of (mKey r) (occurrences pods) = first :: rest /\ r = record_of strategies first (first :: rest)) as Hrs
    by (intros r; unfold rs; by rewrite Aggregate_elem, gathered_lookup, summary_Some).
  split.
  - intros k. rewrite !list_elem_of_fmap. split.
    + intros (r & -> & (first & rest & Hf & _)%Hrs). exists first.
      assert (first ∈ replicas_of (mKey r) (occurrences pods)) as H by (rewrite Hf; by left).
      by apply list_elem_of_filter in H as [<- H].
    + intros (o & -> & Ho). assert (o ∈ replicas_of (replica_key o) (occurrences pods)) as H
        by by apply list_elem_of_filter.
      destruct (replicas_of (replica_key o) (occurrences pods)) as [|first rest] eqn:Hf; [by apply elem_of_nil in H|].
      assert (replica_key first = replica_key o) as Hk.
      { assert (first ∈ replicas_of (replica_key o) (occurrences pods)) as H' by (rewrite Hf; by left).
        by apply list_elem_of_filter in H' as [H' _]. }
      exists (record_of strategies first (first :: rest)). split; [done|]. apply Hrs. exists first, rest.
      split; [|done]. change (mKey (record_of _ first _)) with (replica_key first). by rewrite Hk.
  - intros r (first & rest & Hf & Hr)%Hrs os. subst os. rewrite Hf.
    assert (forall f : PodInfo -> string, forall x, x <> ""%string ->
      default 0 (tally (f ∘ fst <$> first :: rest) !! x) = occurs x (f ∘ fst <$> first :: rest)) as Ht.
    { intros f x Hx. rewrite tally_lookup, bool_decide_eq_false_2 by done. cbn [orb].
      by destruct (Z.eqb_spec (occurs x (f ∘ fst <$> first :: rest)) 0) as [->|]. }
    assert (forall f : PodInfo -> string, map_sum id (tally (f ∘ fst <$> first :: rest)) =
      Z.of_nat (length (first :: rest)) - Z.of_nat (length (filter (fun o => f o.1 = ""%string) (first :: rest)))) as Hs.
    { intros f. rewrite tally_total.
      rewrite <-(list_filter_split (fun o : replica => f o.1 = ""%string) (first :: rest)) at 2.
      rewrite length_app. lia. }
    rewrite Hr. split_and!; [done|apply Ht|apply Ht|apply Hs|apply Hs].
Qed.

(** What the first replica of a key decides. *)
Definition shape (o : replica) :=
  (c_Image o.2, c_Init o.2, c_Resources o.2, c_Ports o.2, c_Probes o.2, c_RuntimeEnv o.2,
   piQOSClass o.1, piPlacement o.1).

Lemma record_of_shape strategies o o' os os' :
  replica_key o = replica_key o' -> shape o = shape o' -> os ≡ₚ os' ->
  record_of strategies o os = record_of strategies o' os'.
Proof.
  intros Hk Hs Hp. unfold record_of, newRecord. cbn. fold (replica_key o) (replica_key o').
  rewrite Hk, (tally_perm _ _ (fmap_Permutation (piPhase ∘ fst) _ _ Hp)),
    (tally_perm _ _ (fmap_Permutation (piNode ∘ fst) _ _ Hp)),
    (tally_perm _ _ (fmap_Permutation (piUnscheduled ∘ fst) _ _ Hp)), (Permutation_length Hp).
  unfold shape in Hs. unfold replica_key, key_for in Hk. by simplify_eq; congruence.
Qed.

(** The payload does not depend on the order of the pods, as long as replicas
    of one build declare the same shape.  (They need not: a rollout may change
    resources or placement and keep the image; see
    [Aggregate_depends_on_order].) *)
Theorem Aggregate_order_independent pods pods' strategies :
  pods ≡ₚ pods' ->
  (forall o o', o ∈ occurrences pods -> o' ∈ occurrences pods -> replica_key o = replica_key o' -> shape o = shape o') ->
  Aggregate pods strategies = Aggregate pods' strategies.
Proof.
  intros Hp Hshape. unfold Aggregate. f_equal. f_equal. rewrite !gather_occurrences.
  assert (occurrences pods ≡ₚ occurrences pods') as Ho by (unfold occurrences; by rewrite Hp).
  apply map_eq. intros k. rewrite !gathered_lookup.
  assert (replicas_of k (occurrences pods) ≡ₚ replicas_of k (occurrences pods')) as Hk by (unfold replicas_of; by rewrite Ho).
  assert (forall o, o ∈ replicas_of k (occurrences pods) -> o ∈ occurrences pods /\ replica_key o = k) as Hin
    by (intros o [? ?]%list_elem_of_filter; done).
  destruct (replicas_of k (occurrences pods)) as [|o os], (replicas_of k (occurrences pods')) as [|o' os'];
    [done|by apply Permutation_nil_l in Hk|by symmetry in Hk; apply Permutation_nil_l in Hk|].
  destruct (Hin o) as [Ho1 Ho2]; [by left|]. destruct (Hin o') as [Ho3 Ho4]; [rewrite Hk; by left|].
  cbn [summary]. f_equal. apply record_of_shape; [congruence| |done]. apply Hshape; [done|done|congruence].
Qed.

(** ** A rollout that keeps the image *)

Definition demo_container (cpu : Z) : Container :=
  mkContainer "app" "shop/web:1.4" "sha256:ab" false (mkResources (Some cpu) None None None) []
    (mkProbes None None None) ∅.
Definition demo_pod (nm node phase : string) (cpu : Z) : PodInfo :=
  mkPodInfo "shop" nm node phase "" "Burstable" (mkWorkloadRef "Deployment" "web")
    (mkPlacement ∅ [] [] [] [] [] "" None false "") [] [demo_container cpu].

Lemma Aggregate_counts_replicas_witness :
  let pods := [demo_pod "web-a" "node-1" "Running" 250; demo_pod "web-b" "node-2" "Running" 250;
               demo_pod "web-c" "" "Pending" 250] in
  exists r, r ∈ Aggregate pods ∅ /\ Replicas (mPod r) = 3 /\ map_sum id (Nodes (mPod r)) = 2.
Proof.
  intros pods. destruct (Aggregate_counts_replicas pods ∅) as (_ & Hk & Hc).
  destruct (proj1 (list_elem_of_fmap mKey (Aggregate pods ∅) (mkKey "shop" "Deployment" "web" "app" "sha256:ab")))
    as (r & Hr & Hin); [apply Hk; vm_compute; by left|].
  destruct (Hc r Hin) as (Hn & _ & _ & _ & Hnodes). rewrite <-Hr in Hn, Hnodes.
  exists r. split; [exact Hin|]. split; [rewrite Hn; reflexivity|]. rewrite Hnodes, Hn. vm_compute. reflexivity.
Defined.

Lemma Aggregate_order_independent_witness :
  let a := demo_pod "web-a" "node-1" "Running" 250 in let b := demo_pod "web-b" "node-2" "Pending" 250 in
  Aggregate [a; b] ∅ = Aggregate [b; a] ∅.
Proof.
  intros a b. apply (Aggregate_order_independent [a; b] [b; a] ∅); [apply Permutation_swap|].
  intros o o' Ho Ho' _. vm_compute in Ho, Ho'.
  repeat (apply elem_of_cons in Ho as [->|Ho]); [| |by apply elem_of_nil in Ho];
    repeat (apply elem_of_cons in Ho' as [->|Ho']); try (by apply elem_of_nil in Ho'); reflexivity.
Defined.

(** Two pods of one build that declare different requests: the record shows the
    request of whichever came first. *)
Lemma Aggregate_depends_on_order :
  let a := demo_pod "web-a" "node-1" "Running" 250 in let b := demo_pod "web-b" "node-2" "Running" 500 in
  CPURequestMilli ∘ mResources <$> Aggregate [a; b] ∅ = [Some 250] /\
  CPURequestMilli ∘ mResources <$> Aggregate [b; a] ∅ = [Some 500].
Proof. split; vm_compute; reflexivity. Qed.
