(* ===== verification/PodIndex.v ===== *)
(** What the pod watcher's index holds and what it exposes: the index is a
    function of the last event about each pod, an opt-out reaches everything read
    from it, and the coverage counters balance against it. *)

From stdpp Require Import prelude gmap strings.
From Stdlib Require Import ZArith Lia.
From S2P Require Import Prelude GoTime GoStrings Model Cluster Admission PodWatcher.
Local Open Scope Z_scope.
Local Open Scope go_scope.

Lemma says_no_false a m : says_no a m = false <-> m !! a <> Some "false"%string.
Proof. apply bool_decide_eq_false. Qed.

Lemma decide_pod_consents c p f : collect (decide_pod c p f) = true <-> consents f c p.
Proof.
  unfold decide_pod, AdmitPod, consents. cbn [collect]. rewrite bool_decide_eq_true, <-!says_no_false.
  destruct (namespaceAllowed _ _), (says_no _ (namespaceAnnotations _ _)), (says_no _ (wl_Annotations _)),
    (says_no _ (Annotations _)); cbn [negb]; intuition congruence.
Qed.

Lemma decide_pod_profile c p f :
  profile (decide_pod c p f) = true <-> consents f c p /\ consents_to_profiling c p.
Proof.
  rewrite <-(decide_pod_consents c p f). unfold decide_pod, AdmitProfiling, consents_to_profiling.
  cbn [collect profile]. rewrite !andb_true_iff, !negb_true_iff, <-!says_no_false. tauto.
Qed.

(** ** What reporting leaves alone *)

Definition same_index (w w' : PodWatcher) : Prop :=
  index w' = index w /\ nameIndex w' = nameIndex w /\ filter_ w' = filter_ w.

Lemma same_index_refl w : same_index w w.
Proof. done. Qed.
Lemma same_index_trans w1 w2 w3 : same_index w1 w2 -> same_index w2 w3 -> same_index w1 w3.
Proof. intros (?&?&?) (?&?&?). repeat split; congruence. Qed.
#[local] Hint Resolve same_index_refl : core.

Lemma foldl_same_index {A} (g : PodWatcher * list report -> A -> PodWatcher * list report) l :
  (forall out a, same_index out.1 (g out a).1) -> forall out, same_index out.1 (foldl g out l).1.
Proof.
  intros Hg. induction l as [|a l IH]; intros out; cbn [foldl]; [done|].
  eapply same_index_trans; [apply Hg|apply IH].
Qed.

Lemma reportPodIfChanged_same uid info w : same_index w (reportPodIfChanged uid info w).1.
Proof. unfold reportPodIfChanged. by case_match. Qed.

Lemma reportOOMKills_same c p w : same_index w (reportOOMKills c p w).1.
Proof.
  apply (foldl_same_index _ _) with (out := (w, [])). intros out s. apply foldl_same_index.
  intros [w' rs] t. unfold report_oom. by repeat case_match.
Qed.

Lemma reportRestarts_same c t p w : same_index w (reportRestarts c t p w).1.
Proof.
  apply (foldl_same_index _ _) with (out := (w, [])). intros [w' rs] s. unfold report_restart.
  by repeat case_match.
Qed.

Lemma reportDisruptions_same c t p w : same_index w (reportDisruptions c t p w).1.
Proof. unfold reportDisruptions. by repeat case_match. Qed.

Lemma observe_pod_same c clk p b w : same_index (indexPod p (describe c p) b w) (observe_pod c clk p b w).1.
Proof.
  unfold observe_pod.
  assert (same_index (indexPod p (describe c p) b w) (indexPod p (describe c p) b (countDrops p w))) as H0 by done.
  pose proof (reportPodIfChanged_same (UID (p_meta p)) (describe c p) (indexPod p (describe c p) b (countDrops p w))) as H1.
  destruct (reportPodIfChanged _ _ _) as [w1 r1]. pose proof (reportOOMKills_same c p w1) as H2.
  destruct (reportOOMKills _ _ _) as [w2 r2]. pose proof (reportRestarts_same c (restarts_at clk) p w2) as H3.
  destruct (reportRestarts _ _ _ _) as [w3 r3]. pose proof (reportDisruptions_same c (condition_at clk) p w3) as H4.
  destruct (reportDisruptions _ _ _ _) as [w4 r4].
  eauto using same_index_trans.
Qed.

Lemma reportJobRun_index c t j w :
  index (reportJobRun c t j w).1 = index w /\ nameIndex (reportJobRun c t j w).1 = nameIndex w.
Proof. unfold reportJobRun, admitJob. by repeat case_match. Qed.

(** ** The index is the last event *)

Definition same_rules (f f' : Filter) : Prop := allow f' = allow f /\ deny f' = deny f.

Lemma same_rules_trans f1 f2 f3 : same_rules f1 f2 -> same_rules f2 f3 -> same_rules f1 f3.
Proof. intros [] []. split; congruence. Qed.

Lemma decide_pod_rules c p f f' : same_rules f f' -> decide_pod c p f' = decide_pod c p f.
Proof. intros [Ha Hd]. unfold decide_pod, AdmitPod, namespaceAllowed. by rewrite Ha, Hd. Qed.

Lemma count_unresolved_rules l f : same_rules f (count_unresolved l f).
Proof. unfold count_unresolved, countUnresolvedWorkload. by repeat case_match. Qed.

Lemma count_reason_rules r f : same_rules f (count_reason r f).
Proof. unfold count_reason, countExcluded. by repeat case_match. Qed.

Lemma admit_rules c p n w : same_rules (filter_ w) (filter_ (admit_pod c p n w).1).
Proof.
  unfold admit_pod. destruct n; [|done]. cbn [fst filter_ setFilter]. unfold count_admission.
  eapply same_rules_trans; [|apply count_unresolved_rules].
  destruct (collect _); cbn [negb]; [by case_match|apply count_reason_rules].
Qed.

Lemma countTransition_rules was d w : same_rules (filter_ w) (filter_ (countTransition was d w)).
Proof.
  unfold countTransition. repeat case_match; try done. apply count_reason_rules.
Qed.

Lemma countTransition_index was d w :
  index (countTransition was d w) = index w /\ nameIndex (countTransition was d w) = nameIndex w.
Proof. unfold countTransition. by repeat case_match. Qed.

Lemma admitJob_rules c j w : same_rules (filter_ w) (filter_ (admitJob c j w).1).
Proof.
  unfold admitJob. cbn [fst filter_ setFilter].
  eapply same_rules_trans; [|apply count_unresolved_rules]. unfold countJobExcluded. by repeat case_match.
Qed.

Lemma dropPod_filter uid w : filter_ (dropPod uid w) = filter_ w.
Proof. unfold dropPod. by case_match. Qed.

Lemma dropPod_index uid w : index (dropPod uid w) = delete uid (index w).
Proof.
  unfold dropPod. destruct (index w !! uid) eqn:E; [done|]. cbn. by rewrite delete_id.
Qed.

Lemma DeleteFunc_filter p w : filter_ (DeleteFunc p w) = filter_ w.
Proof. apply dropPod_filter. Qed.

Lemma DeleteFunc_index p w : index (DeleteFunc p w) = delete (UID (p_meta p)) (index w).
Proof. apply dropPod_index. Qed.

Lemma step_rules w e : same_rules (filter_ w) (filter_ (step w e).1).
Proof.
  destruct e as [c clk p|c clk old p|p|c now job|job]; cbn [step].
  - unfold AddFunc. pose proof (admit_rules c p true w) as H. destruct (admit_pod c p true w) as [w1 d].
    destruct (collect d); [|done]. destruct (observe_pod_same c clk p (profile d) w1) as (_ & _ & ->). done.
  - unfold UpdateFunc. pose proof (admit_rules c p false w) as H. destruct (admit_pod c p false w) as [w1 d].
    destruct (collect d).
    + pose proof (observe_pod_same c clk p (profile d) w1) as (_ & _ & Hf).
      destruct (observe_pod _ _ _ _ _) as [w2 rs]. cbn in *.
      eapply same_rules_trans; [|apply countTransition_rules]. by rewrite Hf.
    + cbn. eapply same_rules_trans; [|apply countTransition_rules]. by rewrite dropPod_filter.
  - cbn [fst]. by rewrite DeleteFunc_filter.
  - unfold reportJobRun. destruct (jobOutcomeOf now job) as [[[]]|]; [|done].
    pose proof (admitJob_rules c job w) as H. destruct (admitJob c job w) as [w1 a]. by repeat case_match.
  - done.
Qed.

Definition indexed (f : Filter) (cp : option (caches * Pod)) : option podIndexEntry :=
  match cp with
  | Some (c, p) =>
      let d := decide_pod c p f in if collect d then Some (entry_of p (describe c p) (profile d)) else None
  | None => None
  end.

(** An informer adds an object it does not already have. *)
Definition informer_order (es : list event) : Prop :=
  forall before c clk p after, es = before ++ EAdd c clk p :: after -> latest before (UID (p_meta p)) = None.

Lemma informer_order_snoc es e : informer_order (es ++ [e]) -> informer_order es.
Proof. intros H before c clk p after ->. apply (H before c clk p (after ++ [e])). by rewrite <-app_assoc. Qed.

Lemma latest_snoc es e uid : latest (es ++ [e]) uid = latest_step uid (latest es uid) e.
Proof. unfold latest. by rewrite foldl_app. Qed.

Lemma run_snoc f es e :
  run f (es ++ [e]) = ((step (run f es).1 e).1, (run f es).2 ++ (step (run f es).1 e).2).
Proof. unfold run. rewrite foldl_app. cbn. unfold step_log at 1. by destruct (step _ e). Qed.

Lemma latest_uid es uid c p : latest es uid = Some (c, p) -> UID (p_meta p) = uid.
Proof.
  induction es as [|e es IH] using rev_ind; [done|]. rewrite latest_snoc.
  destruct e; cbn; try done; case_bool_decide; try done; by intros [= <- <-].
Qed.

Lemma lookup_insert_bool (uid k : string) (m : gmap string podIndexEntry) x :
  <[k := x]> m !! uid = if bool_decide (k = uid) then Some x else m !! uid.
Proof. case_bool_decide; simplify_map_eq; done. Qed.

Lemma lookup_delete_bool (uid k : string) (m : gmap string podIndexEntry) :
  delete k m !! uid = if bool_decide (k = uid) then None else m !! uid.
Proof. case_bool_decide; simplify_map_eq; done. Qed.

Lemma step_index f w e uid was :
  same_rules f (filter_ w) -> index w !! uid = indexed f was ->
  (forall c clk p, e = EAdd c clk p -> UID (p_meta p) = uid -> was = None) ->
  index (step w e).1 !! uid = indexed f (latest_step uid was e).
Proof.
  intros Hf Hw Hadd. destruct e as [c clk p|c clk old p|p|c now job|job]; cbn [step latest_step].
  - unfold AddFunc, admit_pod. rewrite (decide_pod_rules _ _ _ _ Hf). destruct (collect _) eqn:Hc.
    + destruct (observe_pod_same c clk p (profile (decide_pod c p f))
                  (setFilter (count_admission c p (decide_pod c p f) (filter_ w)) w)) as (-> & _ & _).
      cbn [index indexPod setIndex setFilter]. rewrite lookup_insert_bool. case_bool_decide; [|done].
      cbn [indexed]. by rewrite Hc.
    + cbn [fst index setFilter]. case_bool_decide as Hu; [|done].
      rewrite Hw, (Hadd _ _ _ eq_refl Hu). cbn [indexed]. by rewrite Hc.
  - unfold UpdateFunc, admit_pod. rewrite (decide_pod_rules _ _ _ _ Hf). destruct (collect _) eqn:Hc.
    + pose proof (observe_pod_same c clk p (profile (decide_pod c p f)) w) as (Hi & _ & _).
      destruct (observe_pod _ _ _ _ _) as [w1 rs]. cbn [fst] in *. rewrite (proj1 (countTransition_index _ _ _)), Hi.
      cbn [index indexPod setIndex]. rewrite lookup_insert_bool. case_bool_decide; [|done].
      cbn [indexed]. by rewrite Hc.
    + cbn [fst]. rewrite (proj1 (countTransition_index _ _ _)), dropPod_index, lookup_delete_bool.
      case_bool_decide; [|done]. cbn [indexed]. by rewrite Hc.
  - cbn [fst]. rewrite DeleteFunc_index, lookup_delete_bool. by case_bool_decide.
  - by rewrite (proj1 (reportJobRun_index c now job w)).
  - done.
Qed.

Lemma run_index f es :
  informer_order es ->
  same_rules f (filter_ (run f es).1) /\ forall uid, index (run f es).1 !! uid = indexed f (latest es uid).
Proof.
  induction es as [|e es IH] using rev_ind; intros Ho; [by split|].
  destruct (IH (informer_order_snoc _ _ Ho)) as [Hf Hi]. rewrite run_snoc. cbn [fst]. split.
  - eapply same_rules_trans; [exact Hf|apply step_rules].
  - intros uid. rewrite latest_snoc. apply step_index; [done|apply Hi|].
    intros c clk p -> <-. by apply (Ho es c clk p []).
Qed.

(** ** What is exposed *)

Definition collected (f : Filter) (es : list event) (uid : string) (c : caches) (p : Pod) : Prop :=
  latest es uid = Some (c, p) /\ consents f c p.
Definition profiled (f : Filter) (es : list event) (uid : string) (c : caches) (p : Pod) : Prop :=
  collected f es uid c p /\ consents_to_profiling c p.

Lemma indexed_Some f es uid e :
  indexed f (latest es uid) = Some e <->
  exists c p, collected f es uid c p /\ e = entry_of p (describe c p) (profile (decide_pod c p f)).
Proof.
  unfold collected. split.
  - destruct (latest es uid) as [[c p]|]; [|done]. cbn [indexed]. destruct (collect _) eqn:Hc; [|done].
    intros [= <-]. exists c, p. split; [|done]. split; [done|]. by apply decide_pod_consents.
  - intros (c & p & [-> Hc%decide_pod_consents] & ->). cbn [indexed]. by rewrite Hc.
Qed.

Section exposed.
Context (f : Filter) (es : list event) (Hes : informer_order es).
Abbreviation w := (fst (run f es)).

Lemma exposed_entry uid e :
  index w !! uid = Some e <->
  exists c p, collected f es uid c p /\ e = entry_of p (describe c p) (profile (decide_pod c p f)).
Proof. rewrite (proj2 (run_index f es Hes)). apply indexed_Some. Qed.

Lemma exposed_value e :
  e ∈ map_values (index w) <->
  exists uid c p, collected f es uid c p /\ e = entry_of p (describe c p) (profile (decide_pod c p f)).
Proof. rewrite elem_of_map_values. split; intros [uid H]; exists uid; by apply exposed_entry. Qed.

Lemma exposed_profilable e :
  e ∈ map_values (index w) -> e_profilable e = true ->
  exists uid c p, profiled f es uid c p /\ e = entry_of p (describe c p) true.
Proof.
  intros (uid & c & p & Hc & ->)%exposed_value Hp. change (profile (decide_pod c p f) = true) in Hp.
  exists uid, c, p.
  rewrite Hp. apply decide_pod_profile in Hp as [_ Hp]. by split.
Qed.

Lemma Pods_exposed info :
  info ∈ Pods w <-> exists uid c p, collected f es uid c p /\ info = describe c p.
Proof.
  unfold Pods. rewrite elem_of_sort_slice.
  rewrite list_elem_of_fmap. split.
  - intros (e & -> & (uid & c & p & Hc & ->)%exposed_value). by exists uid, c, p.
  - intros (uid & c & p & Hc & ->). eexists. split; [|apply exposed_value; by exists uid, c, p]. done.
Qed.


Lemma LookupPod_exposed uid : is_Some (LookupPod w uid) <-> exists c p, collected f es uid c p.
Proof.
  unfold LookupPod. rewrite fmap_is_Some. split.
  - intros [e (c & p & Hc & _)%exposed_entry]. by exists c, p.
  - intros (c & p & Hc). eexists. apply exposed_entry. by exists c, p.
Qed.

Lemma LookupPodByName_exposed ns nm uid wl :
  LookupPodByName w ns nm = Some (uid, wl) -> exists c p, collected f es uid c p.
Proof.
  unfold LookupPodByName. intros (u & _ & (e & He & [= <- _])%bind_Some)%bind_Some.
  apply exposed_entry in He as (c & p & Hc & _). by exists c, p.
Qed.

Lemma LookupContainerOnNode_exposed uid cid node x :
  LookupContainerOnNode w uid cid node = Some x -> exists c p, collected f es uid c p /\ NodeName p = node.
Proof.
  unfold LookupContainerOnNode.
  intros (e & (c & p & Hc & ->)%exposed_entry & Hx)%bind_Some.
  destruct (_ || _) eqn:Hn; [done|]. apply orb_false_iff in Hn as [_ Hn%bool_decide_eq_false].
  exists c, p. split; [done|]. by destruct (decide (NodeName p = node)).
Qed.

Lemma AdmittedPodsOnNode_exposed node uid :
  uid ∈ AdmittedPodsOnNode w node -> exists c p, collected f es uid c p /\ NodeName p = node.
Proof.
  unfold AdmittedPodsOnNode. rewrite elem_of_sort_slice, list_elem_of_fmap.
  intros ([u e] & -> & Hin). apply list_elem_of_In, List.filter_In in Hin as [Hin Hn].
  apply list_elem_of_In, elem_of_map_to_list, exposed_entry in Hin as (c & p & Hc & ->).
  exists c, p. split; [done|]. by apply bool_decide_eq_true in Hn.
Qed.

Lemma ContainersOnNode_exposed node x :
  x ∈ ContainersOnNode w node ->
  exists uid c p, profiled f es uid c p /\ NodeName p = node /\ x.1.1 = Namespace (p_meta p) /\
    x.1.2 = resolveWorkload c p /\ is_Some (containerIndex p !! x.2).
Proof.
  unfold ContainersOnNode. rewrite list_elem_of_bind. intros (e & Hx & He).
  apply list_elem_of_In, List.filter_In in He as [He [Hn Hp]%andb_true_iff].
  apply list_elem_of_In in He. destruct (exposed_profilable e He Hp) as (uid & c & p & Hc & ->).
  exists uid, c, p. split; [done|]. split; [by apply bool_decide_eq_true in Hn|].
  apply list_elem_of_fmap in Hx as (cid & -> & ([cid' ci] & -> & Hci)%list_elem_of_fmap).
  split; [done|]. split; [done|]. exists ci. by apply elem_of_map_to_list in Hci.
Qed.

Lemma PodReplica_exposed c' ns wl container digest addr nm :
  PodReplica c' w ns wl container digest = Some (addr, nm) ->
  exists uid c p, profiled f es uid c p /\ Namespace (p_meta p) = ns /\ ObjName (p_meta p) = nm.
Proof.
  unfold PodReplica. intros Hh%head_Some_elem_of%list_elem_of_omap.
  destruct Hh as (n & Hn & Ha). rewrite elem_of_sort_slice in Hn.
  apply list_elem_of_fmap in Hn as (e & -> & He).
  apply list_elem_of_In, List.filter_In in He as [He Hr]. apply list_elem_of_In in He.
  unfold replica_of in Hr. rewrite !andb_true_iff, !bool_decide_eq_true in Hr.
  destruct Hr as ((((Hns & _) & Hp) & _) & _).
  destruct (exposed_profilable e He Hp) as (uid & c & p & Hc & ->).
  exists uid, c, p. split; [done|]. split; [done|].
  apply bind_Some in Ha as (q & _ & Ha). case_bool_decide; [done|]. by injection Ha.
Qed.

Lemma RestartCounters_exposed c' rc :
  rc ∈ RestartCounters c' w ->
  exists q c p, q ∈ podList c' /\ collected f es (UID (p_meta q)) c p /\
    rcNamespace rc = Namespace (p_meta q) /\ rcPod rc = ObjName (p_meta q).
Proof.
  unfold RestartCounters. rewrite elem_of_sort_slice, list_elem_of_bind.
  intros (q & Hin & Hq). destruct (LookupPod w (UID (p_meta q))) as [[ns wl]|] eqn:Hl; [|set_solver].
  apply list_elem_of_omap in Hin as (s & _ & Hs). unfold counter_of in Hs.
  destruct (_ <=? 0); [done|]. apply bind_Some in Hs as (b & _ & [= <-]).
  assert (is_Some (LookupPod w (UID (p_meta q)))) as (c & p & Hc)%LookupPod_exposed by by eexists.
  by exists q, c, p.
Qed.
End exposed.

Definition job_consents (f : Filter) (c : caches) (j : Job) : Prop :=
  namespaceAllowed f (Namespace (j_meta j)) = true /\
  namespaceAnnotations c (Namespace (j_meta j)) !! CollectAnnotation <> Some "false"%string /\
  wl_Annotations (jobWorkloadAnnotations c j) !! CollectAnnotation <> Some "false"%string /\
  Annotations (j_meta j) !! CollectAnnotation <> Some "false"%string /\
  TemplateAnnotations j !! CollectAnnotation <> Some "false"%string.

Lemma AdmitJob_consents f c j :
  AdmitJob f j (namespaceAnnotations c (Namespace (j_meta j))) (jobWorkloadAnnotations c j) = None <->
  job_consents f c j.
Proof.
  unfold AdmitJob, job_consents. rewrite <-!says_no_false.
  destruct (namespaceAllowed _ _), (says_no _ (namespaceAnnotations _ _)), (says_no _ (wl_Annotations _)),
    (says_no _ (Annotations _)), (says_no _ (TemplateAnnotations _)); cbn [negb orb]; intuition congruence.
Qed.

(** The object an event is about consents to being collected. *)
Definition event_consents (f : Filter) (e : event) : Prop :=
  match e with
  | EAdd c _ p | EUpdate c _ _ p => consents f c p
  | EJob c _ j => job_consents f c j
  | EDelete _ | EJobDelete _ => False
  end.

Lemma step_reports f w e : same_rules f (filter_ w) -> (step w e).2 <> [] -> event_consents f e.
Proof.
  intros Hf. destruct e as [c clk p|c clk old p|p|c now job|job]; cbn [step event_consents]; try done.
  - unfold AddFunc, admit_pod. rewrite (decide_pod_rules _ _ _ _ Hf).
    destruct (collect _) eqn:Hc; [by intros _; apply decide_pod_consents|done].
  - unfold UpdateFunc, admit_pod. rewrite (decide_pod_rules _ _ _ _ Hf).
    destruct (collect _) eqn:Hc; [by intros _; apply decide_pod_consents|done].
  - unfold reportJobRun. destruct (jobOutcomeOf now job) as [[[]]|]; [|done].
    destruct (admitJob c job w) as [w1 a] eqn:Ha. destruct a; cbn [negb]; [|done]. intros _.
    unfold admitJob in Ha. apply (f_equal snd), bool_decide_eq_true in Ha.
    apply AdmitJob_consents. rewrite <-Ha. unfold AdmitJob, namespaceAllowed. by destruct Hf as [-> ->].
Qed.

(** C5. An opt-out reaches everything the watcher exposes.  After any events an
    informer can deliver, a pod is attributable exactly while the last event
    about it found it admitted: its namespace allowed, and [collect: "false"] on
    neither its namespace, its workload nor itself.  No lookup by name, container
    or node, no snapshot and no restart counter is of any other pod; what is
    handed to a profiler declined neither annotation at any level; and no
    callback is ever made about an object that does not consent. *)
Theorem only_consenting_pods_are_exposed (f : Filter) (es : list event) :
  informer_order es ->
  let w := (run f es).1 in
  (forall uid, is_Some (LookupPod w uid) <-> exists c p, collected f es uid c p) /\
  (forall ns nm uid wl, LookupPodByName w ns nm = Some (uid, wl) -> exists c p, collected f es uid c p) /\
  (forall uid cid node x, LookupContainerOnNode w uid cid node = Some x ->
     exists c p, collected f es uid c p /\ NodeName p = node) /\
  (forall node uid, uid ∈ AdmittedPodsOnNode w node -> exists c p, collected f es uid c p /\ NodeName p = node) /\
  (forall info, info ∈ Pods w <-> exists uid c p, collected f es uid c p /\ info = describe c p) /\
  (forall c' rc, rc ∈ RestartCounters c' w -> exists q c p, q ∈ podList c' /\
     collected f es (UID (p_meta q)) c p /\ rcNamespace rc = Namespace (p_meta q) /\ rcPod rc = ObjName (p_meta q)) /\
  (forall node x, x ∈ ContainersOnNode w node ->
     exists uid c p, profiled f es uid c p /\ NodeName p = node /\ x.1.1 = Namespace (p_meta p) /\
       x.1.2 = resolveWorkload c p /\ is_Some (containerIndex p !! x.2)) /\
  (forall c' ns wl container digest addr nm, PodReplica c' w ns wl container digest = Some (addr, nm) ->
     exists uid c p, profiled f es uid c p /\ Namespace (p_meta p) = ns /\ ObjName (p_meta p) = nm) /\
  (forall e, (step w e).2 <> [] -> event_consents f e).
Proof.
  intros Hes w. split_and!.
  - intros uid. by apply LookupPod_exposed.
  - intros ns nm uid wl. by apply LookupPodByName_exposed.
  - intros uid cid node x. by apply LookupContainerOnNode_exposed.
  - intros node uid. by apply AdmittedPodsOnNode_exposed.
  - intros info. by apply Pods_exposed.
  - intros c' rc. by apply RestartCounters_exposed.
  - intros node x. by apply ContainersOnNode_exposed.
  - intros c' ns wl container digest addr nm. by apply PodReplica_exposed.
  - intros e. apply step_reports. by apply run_index.
Qed.

Lemma informer_order_nil : informer_order [].
Proof. intros [] ? ? ? ?; discriminate. Qed.

Lemma informer_order_add es e :
  informer_order es ->
  match e with EAdd _ _ p => latest es (UID (p_meta p)) = None | _ => True end -> informer_order (es ++ [e]).
Proof.
  intros Hes He before c clk p after Heq.
  destruct after as [|a after _] using rev_ind.
  - apply app_inj_tail in Heq as [-> ->]. done.
  - rewrite app_comm_cons, app_assoc in Heq. apply app_inj_tail in Heq as [-> _].
    by apply (Hes before c clk p after).
Qed.

(** ** Pods the events forget *)

Definition about (e : event) : option string :=
  match e with EAdd _ _ p | EUpdate _ _ _ p | EDelete p => Some (UID (p_meta p)) | _ => None end.

Lemma latest_unmentioned es later uid :
  Forall (fun e => about e <> Some uid) later -> latest (es ++ later) uid = latest es uid.
Proof.
  induction later as [|e later IH] using rev_ind; [by rewrite app_nil_r|].
  intros [Hl He]%Forall_app. apply Forall_cons_1 in He as [He _]. rewrite app_assoc, latest_snoc, IH by done.
  destruct e; cbn in *; try done; case_bool_decide; congruence.
Qed.

(** A pod recreated under its name while the watch was away is never
    forgotten.  A relist reports it as one update, from the old object to the new
    one; [UpdateFunc] does not look at the old object, and the deletion that
    comes later names the new UID.  So the old pod stays in the index whatever
    events follow about other pods: every snapshot describes it, and its UID stays
    in the scan scope of its node. *)
Theorem recreated_pod_is_never_forgotten (f : Filter) (es later : list event) (c0 c : caches) (clk : clock)
    (old new : Pod) :
  let all := es ++ EUpdate c clk old new :: EDelete new :: later in
  informer_order all -> collected f es (UID (p_meta old)) c0 old -> UID (p_meta new) <> UID (p_meta old) ->
  Forall (fun e => about e <> Some (UID (p_meta old))) later ->
  let w := (run f all).1 in
  describe c0 old ∈ Pods w /\ UID (p_meta old) ∈ AdmittedPodsOnNode w (NodeName old) /\
  is_Some (LookupPod w (UID (p_meta old))).
Proof.
  intros all Ho [Hl Hc] Hne Hlater w.
  assert (collected f all (UID (p_meta old)) c0 old) as Hcol.
  { split; [|done]. unfold all. rewrite latest_unmentioned; [done|].
    constructor; [cbn; congruence|]. constructor; [cbn; congruence|done]. }
  split; [apply Pods_exposed; [done|by eauto]|]. split; [|by apply LookupPod_exposed; eauto].
  unfold AdmittedPodsOnNode. rewrite elem_of_sort_slice, list_elem_of_fmap.
  eexists (UID (p_meta old), _). split; [done|]. apply list_elem_of_In, List.filter_In. split.
  - apply list_elem_of_In, elem_of_map_to_list, exposed_entry; [done|]. by exists c0, old.
  - by apply bool_decide_eq_true.
Qed.

(** ** The coverage counters *)

(** [refused r] counts every pod the control of [r] kept out when it appeared or
    took out later. *)
Record balance := mkBalance { entered : Z; refused : ExclusionReason -> Z; optedOut : Z; deleted : Z }.

Definition known (f : Filter) (before : list event) (uid : string) : bool :=
  bool_decide (is_Some (indexed f (latest before uid))).

Definition one_more (o : option ExclusionReason) (n : ExclusionReason -> Z) (r : ExclusionReason) : Z :=
  if decide (o = Some r) then n r + 1 else n r.

(** What one event does to the set of collected pods, read off the decisions. *)
Definition balance_step (f : Filter) (before : list event) (e : event) (B : balance) : balance :=
  match e with
  | EAdd c _ p =>
      let d := decide_pod c p f in
      if collect d then mkBalance (entered B + 1) (refused B) (optedOut B) (deleted B)
      else mkBalance (entered B) (one_more (reason d) (refused B)) (optedOut B) (deleted B)
  | EUpdate c _ _ p =>
      let d := decide_pod c p f in
      match known f before (UID (p_meta p)), collect d with
      | true, false => mkBalance (entered B) (one_more (reason d) (refused B)) (optedOut B + 1) (deleted B)
      | false, true => mkBalance (entered B + 1) (refused B) (optedOut B) (deleted B)
      | _, _ => B
      end
  | EDelete p =>
      if known f before (UID (p_meta p))
      then mkBalance (entered B) (refused B) (optedOut B) (deleted B + 1) else B
  | _ => B
  end.

Definition balance_of (f : Filter) (es : list event) : balance :=
  (foldl (fun out e => (out.1 ++ [e], balance_step f out.1 e out.2)) ([], mkBalance 0 (fun _ => 0) 0 0) es).2.

Lemma balance_snoc f es e : balance_of f (es ++ [e]) = balance_step f es e (balance_of f es).
Proof.
  unfold balance_of. rewrite foldl_app. cbn. f_equal.
  induction es as [|e' es IH] using rev_ind; [done|]. rewrite foldl_app. cbn. by rewrite IH.
Qed.

(** The counter of a control; no pod is refused for an annotation of a Job. *)
Definition control_counter (r : ExclusionReason) : counter :=
  match r with
  | ExcludedByNamespaceFilter => excludedNamespaceFilter
  | ExcludedByNamespaceAnnotation => excludedNamespaceAnnotation
  | ExcludedByWorkloadAnnotation => excludedWorkloadAnnotation
  | ExcludedByPodAnnotation => excludedPodAnnotation
  | ExcludedByObjectAnnotation => jobsExcludedAnnotation
  end.

Definition tallies (n : Z) (m : ExclusionReason -> Z) (f : Filter) : Prop :=
  wrap64 (count f podsObserved) = wrap64 n /\
  forall r, r <> ExcludedByObjectAnnotation -> wrap64 (count f (control_counter r)) = wrap64 (m r).

Lemma wrap64_inc a n : wrap64 a = wrap64 n -> wrap64 (wrap64 (a + 1)) = wrap64 (n + 1).
Proof. intros H. rewrite wrap64_wrap64. by apply wrap64_cong. Qed.

Lemma tallies_observed n m f : tallies n m f -> tallies (n + 1) m (countObserved f).
Proof. intros [Hn Hm]. split; [by apply wrap64_inc|]. intros r Hr. rewrite <-(Hm r Hr). by destruct r. Qed.

Lemma countExcluded_counter r f :
  r <> ExcludedByObjectAnnotation -> countExcluded r f = inc (control_counter r) f.
Proof. by destruct r. Qed.

Lemma tallies_excluded n m r f :
  r <> ExcludedByObjectAnnotation -> tallies n m f -> tallies n (one_more (Some r) m) (countExcluded r f).
Proof.
  intros Hr [Hn Hm]. rewrite countExcluded_counter by done. split; [by destruct r|].
  intros r' Hr'. unfold one_more, inc. cbn [count]. destruct (decide (Some r = Some r')) as [[= <-]|Hne].
  - rewrite decide_True by done. by apply wrap64_inc, Hm.
  - rewrite decide_False; [by apply Hm|]. destruct r, r'; cbn; congruence.
Qed.

(** The other counters are none of the five. *)
Lemma tallies_other n m c f :
  bool_decide (c ∈ [podsObserved; excludedNamespaceFilter; excludedNamespaceAnnotation;
                    excludedWorkloadAnnotation; excludedPodAnnotation]) = false ->
  tallies n m f -> tallies n m (inc c f).
Proof.
  intros Hc [Hn Hm]. split; [by destruct c; [discriminate Hc..| | | | | | | |]|].
  intros r Hr. rewrite <-(Hm r Hr). unfold inc. cbn [count]. rewrite decide_False; [done|].
  intros Heq. destruct r; cbn in Heq; subst c; by try discriminate Hc.
Qed.

Lemma tallies_profiling n m f : tallies n m f -> tallies n m (countExcludedProfiling f).
Proof. by apply tallies_other. Qed.

Lemma tallies_unresolved n m l f : tallies n m f -> tallies n m (count_unresolved l f).
Proof.
  unfold count_unresolved, countUnresolvedWorkload. by repeat case_match; try apply tallies_other.
Qed.

Lemma tallies_job n m c j w : tallies n m (filter_ w) -> tallies n m (filter_ (admitJob c j w).1).
Proof.
  intros H. unfold admitJob. cbn [fst filter_ setFilter]. apply tallies_unresolved.
  unfold countJobObserved, countJobExcluded. by repeat case_match; try apply tallies_other.
Qed.

(** A pod is refused for one of the four reasons. *)
Lemma AdmitPod_reason f p ns l r : AdmitPod f p ns l = Some r -> r <> ExcludedByObjectAnnotation.
Proof. unfold AdmitPod. repeat case_match; congruence. Qed.

Lemma tallies_refused n m c p f g :
  collect (decide_pod c p f) = false -> tallies n m g -> tallies n (one_more (reason (decide_pod c p f)) m) (count_reason (reason (decide_pod c p f)) g).
Proof.
  unfold decide_pod, count_reason. cbn [collect reason]. intros Hc%bool_decide_eq_false Hg.
  destruct (AdmitPod _ _ _ _) as [r|] eqn:Hr; [|done]. apply tallies_excluded; [by eapply AdmitPod_reason|done].
Qed.

Lemma step_tallies f es w e B :
  same_rules f (filter_ w) ->
  (forall uid, bool_decide (is_Some (index w !! uid)) = known f es uid) ->
  tallies (entered B) (refused B) (filter_ w) ->
  tallies (entered (balance_step f es e B)) (refused (balance_step f es e B)) (filter_ (step w e).1).
Proof.
  intros Hf Hk Ht. destruct e as [c clk p|c clk old p|p|c now job|job]; cbn [step balance_step].
  - unfold AddFunc, admit_pod. rewrite (decide_pod_rules _ _ _ _ Hf). destruct (collect _) eqn:Hc.
    + destruct (observe_pod_same c clk p (profile (decide_pod c p f))
                  (setFilter (count_admission c p (decide_pod c p f) (filter_ w)) w)) as (_ & _ & ->).
      cbn [filter_ indexPod setIndex setFilter entered refused]. unfold count_admission. rewrite Hc.
      cbn [negb]. apply tallies_unresolved.
      case_match; [apply tallies_profiling|]; by apply tallies_observed.
    + cbn [fst filter_ setFilter entered refused]. unfold count_admission. rewrite Hc. cbn [negb].
      apply tallies_unresolved. by apply tallies_refused.
  - unfold UpdateFunc, admit_pod. rewrite (decide_pod_rules _ _ _ _ Hf), <-Hk.
    unfold decisionFor. destruct (collect _) eqn:Hc.
    + pose proof (observe_pod_same c clk p (profile (decide_pod c p f)) w) as (_ & _ & Hw).
      destruct (observe_pod _ _ _ _ _) as [w1 rs]. cbn [fst] in *. cbn [filter_ indexPod setIndex] in Hw.
      unfold countTransition. rewrite Hc. rewrite <-Hw in Ht.
      destruct (index w !! UID (p_meta p)) as [en|]; cbn.
      * case_match; [by apply tallies_profiling|done].
      * case_match; [apply tallies_profiling|]; by apply tallies_observed.
    + cbn [fst]. pose proof (dropPod_filter (UID (p_meta p)) w) as Hd. revert Hd.
      generalize (dropPod (UID (p_meta p)) w) as w1. intros w1 Hd. unfold countTransition. rewrite Hc.
      destruct (index w !! UID (p_meta p)) as [en|]; cbn; rewrite Hd; [|done].
      by apply tallies_refused.
  - cbn [fst]. rewrite DeleteFunc_filter. by case_match.
  - cbn. unfold reportJobRun. destruct (jobOutcomeOf now job) as [[[]]|]; [|done].
    pose proof (tallies_job _ _ c job w Ht) as H. destruct (admitJob c job w) as [w1 a]. by repeat case_match.
  - done.
Qed.

Lemma step_size f es w e B :
  same_rules f (filter_ w) ->
  (forall uid, bool_decide (is_Some (index w !! uid)) = known f es uid) ->
  (forall c clk p, e = EAdd c clk p -> index w !! UID (p_meta p) = None) ->
  Z.of_nat (size (index w)) = entered B - optedOut B - deleted B ->
  let B' := balance_step f es e B in
  Z.of_nat (size (index (step w e).1)) = entered B' - optedOut B' - deleted B'.
Proof.
  intros Hf Hk Hadd Hs. destruct e as [c clk p|c clk old p|p|c now job|job]; cbn [step balance_step].
  - unfold AddFunc, admit_pod. rewrite (decide_pod_rules _ _ _ _ Hf). destruct (collect _) eqn:Hc; [|done].
    destruct (observe_pod_same c clk p (profile (decide_pod c p f))
                (setFilter (count_admission c p (decide_pod c p f) (filter_ w)) w)) as (-> & _ & _).
    cbn [index indexPod setIndex setFilter entered optedOut deleted].
    rewrite map_size_insert_None by by eapply Hadd. lia.
  - unfold UpdateFunc, admit_pod. rewrite (decide_pod_rules _ _ _ _ Hf), <-Hk. destruct (collect _) eqn:Hc.
    + pose proof (observe_pod_same c clk p (profile (decide_pod c p f)) w) as (Hi & _ & _).
      destruct (observe_pod _ _ _ _ _) as [w1 rs]. cbn [fst] in *. rewrite (proj1 (countTransition_index _ _ _)), Hi.
      cbn [index indexPod setIndex]. rewrite map_size_insert.
      destruct (index w !! UID (p_meta p)); cbn; lia.
    + cbn [fst]. rewrite (proj1 (countTransition_index _ _ _)), dropPod_index, map_size_delete.
      destruct (index w !! UID (p_meta p)) eqn:E; cbn; [|lia].
      assert (size (index w) <> 0%nat) by by eapply map_size_non_empty_iff; intros Hz; rewrite Hz in E.
      lia.
  - cbn [fst]. rewrite DeleteFunc_index, map_size_delete, <-Hk.
    destruct (index w !! UID (p_meta p)) eqn:E; cbn; [|lia].
    assert (size (index w) <> 0%nat) by by eapply map_size_non_empty_iff; intros Hz; rewrite Hz in E.
    lia.
  - by rewrite (proj1 (reportJobRun_index c now job w)).
  - done.
Qed.

(** C11. The coverage report balances.  Through any events an informer can
    deliver, [pods_observed] counts every time a pod entered the collected set
    and nothing else, so a pod refused when it appears is in none of it; each of
    the four exclusion counters counts the pods its own control refused when they
    appeared and the collected pods it took out later, each once however many
    status updates followed; and what entered, less what opted out or was
    deleted, is exactly the pods collected now. *)
Theorem coverage_balances (f : Filter) (es : list event) :
  informer_order es -> (forall c, count f c = 0) ->
  let w := (run f es).1 in let s := Snapshot (filter_ w) in let B := balance_of f es in
  wrap64 (PodsObserved s) = wrap64 (entered B) /\
  wrap64 (ExcludedNamespaceFilter s) = wrap64 (refused B ExcludedByNamespaceFilter) /\
  wrap64 (ExcludedNamespaceAnnotation s) = wrap64 (refused B ExcludedByNamespaceAnnotation) /\
  wrap64 (ExcludedWorkloadAnnotation s) = wrap64 (refused B ExcludedByWorkloadAnnotation) /\
  wrap64 (ExcludedPodAnnotation s) = wrap64 (refused B ExcludedByPodAnnotation) /\
  Z.of_nat (length (Pods w)) = entered B - optedOut B - deleted B.
Proof.
  intros Ho Hz w s B.
  assert (tallies (entered B) (refused B) (filter_ w) /\
          Z.of_nat (size (index w)) = entered B - optedOut B - deleted B) as [[Hn Hm] Hs].
  { subst w s B. induction es as [|e es IH] using rev_ind.
    { split; [|done]. split; cbn; [by rewrite Hz|]. intros r _. by rewrite Hz. }
    pose proof (informer_order_snoc _ _ Ho) as Ho'. destruct (IH Ho') as [Ht Hs].
    destruct (run_index f es Ho') as [Hf Hi].
    assert (forall uid, bool_decide (is_Some (index (run f es).1 !! uid)) = known f es uid) as Hk
      by (intros uid; by rewrite Hi).
    rewrite run_snoc, balance_snoc. split; [by apply step_tallies|].
    apply step_size; [done|done| |done]. intros c clk p ->. by rewrite Hi, (Ho es c clk p []). }
  split; [exact Hn|].
  do 4 (split; [match goal with |- _ = wrap64 (refused B ?r) => by apply (Hm r) end|]). rewrite <-Hs. unfold Pods.
  rewrite length_sort_slice, length_fmap. unfold map_values.
  by rewrite length_fmap, length_map_to_list.
Qed.

(** ** A cluster to try it on *)

Definition demo_meta (nm uid : string) (a : annotations) : ObjectMeta := mkObjectMeta "shop" nm uid a None unixEpoch.
Definition demo_status (n : Z) : ContainerStatus := mkContainerStatus "app" n "containerd://AB12" "" None None None.
Definition demo_container : ContainerSpec :=
  mkContainerSpec "app" "img" [] [] [] [] None None None None [] None None None None.
Definition demo_pod (nm uid : string) (a : annotations) (restarts : Z) : Pod :=
  mkPod (demo_meta nm uid a) (mkPodSpec "node-1" false [] [demo_container] [] [] ∅ None [] [] "" None "") "Running" "" "Burstable" "10.0.0.7"
    [] [] [demo_status restarts].
Definition demo_caches : caches :=
  mkCaches (fun _ => Some ∅) (fun _ _ => None) (fun _ _ => None) (fun _ _ => None) (fun _ _ => None)
    (fun _ _ => None) (fun _ _ => None) (fun _ _ => None) [].
Definition demo_clock : clock := mkClock (unixEpoch + Hour) (unixEpoch + Hour).
Definition demo_filter : Filter := NewFilter [] ["kube-*"%string].
Definition opted_out : annotations := {[CollectAnnotation := "false"%string]}.

(** One pod appears and restarts twice; another opts out after a while. *)
Definition demo_events : list event :=
  [EAdd demo_caches demo_clock (demo_pod "web-0" "u1" ∅ 3);
   EAdd demo_caches demo_clock (demo_pod "db-0" "u2" ∅ 0);
   EUpdate demo_caches demo_clock (demo_pod "web-0" "u1" ∅ 3) (demo_pod "web-0" "u1" ∅ 5);
   EUpdate demo_caches demo_clock (demo_pod "db-0" "u2" ∅ 0) (demo_pod "db-0" "u2" opted_out 0)].

Lemma demo_order : informer_order demo_events.
Proof.
  apply (informer_order_add [_; _; _]); [|done]. apply (informer_order_add [_; _]); [|done].
  apply (informer_order_add [_]); [|reflexivity]. apply (informer_order_add []); [|reflexivity].
  apply informer_order_nil.
Defined.

Lemma only_consenting_pods_are_exposed_witness :
  LookupPod (run demo_filter demo_events).1 "u1" = Some ("shop"%string, mkWorkloadRef "none" "") /\
  ~ is_Some (LookupPod (run demo_filter demo_events).1 "u2") /\
  piName <$> Pods (run demo_filter demo_events).1 = ["web-0"%string].
Proof.
  destruct (only_consenting_pods_are_exposed demo_filter demo_events demo_order) as (Hl & _).
  split; [vm_compute; reflexivity|]. split; [|vm_compute; reflexivity].
  intros (c & p & [Hlast Hc])%Hl. vm_compute in Hlast. injection Hlast as <- <-.
  destruct Hc as (_ & _ & _ & Hc). apply Hc. vm_compute. reflexivity.
Defined.

Lemma recreated_pod_is_never_forgotten_witness :
  let old := demo_pod "web-0" "u1" ∅ 0 in let new := demo_pod "web-0" "u9" ∅ 0 in
  let w := (run demo_filter [EAdd demo_caches demo_clock old; EUpdate demo_caches demo_clock old new; EDelete new]).1 in
  piName <$> Pods w = ["web-0"%string] /\ "u1"%string ∈ AdmittedPodsOnNode w "node-1".
Proof.
  intros old new w. split; [vm_compute; reflexivity|].
  apply (recreated_pod_is_never_forgotten demo_filter [EAdd demo_caches demo_clock old] [] demo_caches demo_caches
           demo_clock old new).
  - apply (informer_order_add [_; _]); [|done]. apply (informer_order_add [_]); [|done].
    apply (informer_order_add []); [apply informer_order_nil|reflexivity].
  - split; [reflexivity|]. apply decide_pod_consents. vm_compute. reflexivity.
  - discriminate.
  - constructor.
Defined.

Lemma coverage_balances_witness :
  PodsObserved (Snapshot (filter_ (run demo_filter demo_events).1)) = 2 /\
  optedOut (balance_of demo_filter demo_events) = 1 /\ refused (balance_of demo_filter demo_events) ExcludedByPodAnnotation = 1 /\
  Z.of_nat (length (Pods (run demo_filter demo_events).1)) = 2 - 1 - 0.
Proof.
  do 3 (split; [vm_compute; reflexivity|]).
  apply (coverage_balances demo_filter demo_events demo_order). intros c. reflexivity.
Defined.

(** A pod the filter looked at and refused is not among the pods observed. *)
Example refused_pod_is_not_observed :
  let s := Snapshot (filter_ (run demo_filter [EAdd demo_caches demo_clock (demo_pod "db-0" "u2" opted_out 0)]).1) in
  (PodsObserved s, ExcludedPodAnnotation s) = (0, 1).
Proof. vm_compute. reflexivity. Qed.
