(* ===== verification/PodRestarts.v ===== *)
(** The restarts the pod watcher sees, in its two payloads: the advances handed to
    the restart journal and the counters reported beside them. *)

From stdpp Require Import prelude gmap strings.
From Stdlib Require Import ZArith Lia.
From S2P Require Import Prelude GoTime GoStrings Model Cluster Admission PodWatcher PodIndex.
Local Open Scope Z_scope.
Local Open Scope go_scope.

Definition report_key (r : ContainerRestart) : string :=
  crNamespace r +:+ "/" +:+ crPod r +:+ "/" +:+ crContainer r.

(** The restarts the callbacks reported of one container. *)
Definition emitted (k : string) (rs : list report) : Z :=
  list_sum (fun r => match r with
                     | RRestart x => if bool_decide (report_key x = k) then crRestarts x else 0
                     | _ => 0
                     end) rs.

#[local] Arguments emitted : simpl never.

(** One container's counter as a reader follows it: where it stood when first
    seen and where it stands, the advances since then, and all advances. *)
Record watch := mkWatch { base : option (Z * Z); since : Z; total : Z }.

Definition read (L : watch) (n : Z) : watch :=
  match base L with
  | None => mkWatch (Some (n, n)) 0 (total L)
  | Some (a, l) => if n <? l then mkWatch (Some (n, n)) 0 (total L)
                   else mkWatch (Some (a, n)) (since L + (n - l)) (total L + (n - l))
  end.
Definition forget (L : watch) : watch := mkWatch None 0 (total L).

Definition readings (k : string) (p : Pod) : list Z :=
  RestartCount <$> List.filter (fun s => bool_decide (restartKey p (st_Name s) = k)) (statuses p).

Definition watch_event (f : Filter) (k : string) (L : watch) (e : event) : watch :=
  match e with
  | EAdd c _ p | EUpdate c _ _ p => if collect (decide_pod c p f) then foldl read L (readings k p) else L
  | EDelete p => if HasPrefix k (pod_prefix p) then forget L else L
  | _ => L
  end.
Definition watch_of (f : Filter) (k : string) (es : list event) : watch :=
  foldl (watch_event f k) (mkWatch None 0 0) es.

(** The counter is a non-negative [int32]. *)
Definition int32_count (p : Pod) : Prop := Forall (fun s => 0 <= RestartCount s < 2 ^ 31) (statuses p).
Definition counts_ok (e : event) : Prop :=
  match e with EAdd _ _ p | EUpdate _ _ _ p => int32_count p | _ => True end.

Definition tracks (k : string) (L : watch) (out : PodWatcher * list report) : Prop :=
  (fun b => (atFirstSight b, last b)) <$> restartCounts out.1 !! k = base L /\
  emitted k out.2 = total L /\
  match base L with Some (a, l) => since L = l - a /\ 0 <= l < 2 ^ 31 | None => True end.

Lemma emitted_app k rs rs' : emitted k (rs ++ rs') = emitted k rs + emitted k rs'.
Proof. apply list_sum_app. Qed.

Lemma report_restart_tracks k L c t p out s :
  0 <= RestartCount s < 2 ^ 31 -> tracks k L out ->
  tracks k (if bool_decide (restartKey p (st_Name s) = k) then read L (RestartCount s) else L)
    (report_restart c t p out s).
Proof.
  intros Hs. destruct out as [w rs]. unfold tracks, report_restart. cbn [fst snd].
  set (key := restartKey p (st_Name s)). case_bool_decide as Hk.
  - rewrite Hk. intros (Hb & He & Hr). unfold read. rewrite <-Hb in *.
    destruct (restartCounts w !! k) as [b|]; cbn in *; [|rewrite lookup_insert_eq; cbn; repeat split; done || lia].
    destruct (Z.ltb_spec (RestartCount s) (last b)); cbn; [rewrite lookup_insert_eq; cbn; repeat split; done || lia|].
    destruct (Z.eqb_spec (RestartCount s) (last b)) as [Heq|Hne]; cbn.
    + rewrite lookup_insert_eq. cbn. repeat split; done || lia.
    + destruct (lastTermination s) as [r x]. cbn. rewrite lookup_insert_eq. cbn. split; [done|].
      rewrite emitted_app. unfold emitted at 2. cbn.
      change (report_key _) with key. rewrite bool_decide_eq_true_2 by done. rewrite wrap32_id by lia. repeat split; lia.
  - intros H. destruct (restartCounts w !! key) as [b|]; cbn.
    2: by rewrite lookup_insert_ne.
    destruct (_ <? _); cbn; [by rewrite lookup_insert_ne|].
    destruct (_ =? _); cbn; [by rewrite lookup_insert_ne|].
    destruct (lastTermination s) as [r x]. cbn. rewrite lookup_insert_ne by done.
    rewrite emitted_app. unfold emitted at 2. cbn. change (report_key _) with key.
    rewrite bool_decide_eq_false_2 by done. by rewrite Z.add_0_r.
Qed.

Lemma fold_restart_tracks k c t p ss L out :
  Forall (fun s => 0 <= RestartCount s < 2 ^ 31) ss -> tracks k L out ->
  tracks k (foldl read L (RestartCount <$> List.filter (fun s => bool_decide (restartKey p (st_Name s) = k)) ss))
    (foldl (report_restart c t p) out ss).
Proof.
  revert L out. induction ss as [|s ss IH]; intros L out; [done|].
  intros [Hs Hss]%Forall_cons_1 Ht. cbn [foldl List.filter].
  pose proof (report_restart_tracks k L c t p out s Hs Ht) as Ht'.
  case_bool_decide; cbn [fmap list_fmap foldl]; by apply IH.
Qed.

(** Callbacks of the other kinds, and a watcher whose baselines did not move. *)
Definition quiet (k : string) (w : PodWatcher) (out : PodWatcher * list report) : Prop :=
  restartCounts out.1 = restartCounts w /\ emitted k out.2 = 0.

Lemma quiet_tracks k L w rs out : tracks k L (w, rs) -> quiet k w out -> tracks k L (out.1, rs ++ out.2).
Proof.
  intros (Hb & He & Hr) [Hc Hq]. unfold tracks. cbn in *. by rewrite Hc, emitted_app, Hq, He, Z.add_0_r.
Qed.

Lemma reportPodIfChanged_quiet k uid info w : quiet k w (reportPodIfChanged uid info w).
Proof. unfold reportPodIfChanged. by case_match. Qed.

Lemma reportDisruptions_quiet k c t p w : quiet k w (reportDisruptions c t p w).
Proof. unfold reportDisruptions. by repeat case_match. Qed.

Lemma report_oom_quiet k c p s w out t : quiet k w out -> quiet k w (report_oom c p s out t).
Proof.
  destruct out as [w' rs]. unfold quiet. intros [Hc Hq]. unfold report_oom. repeat case_match; try done. cbn in *.
  by rewrite emitted_app, Hq.
Qed.

Lemma reportOOMKills_quiet k c p w : quiet k w (reportOOMKills c p w).
Proof.
  unfold reportOOMKills. assert (quiet k w (w, [])) as H by done. revert H. generalize (w, @nil report).
  induction (statuses p) as [|s ss IH]; intros out H; [done|]. cbn [foldl]. apply IH.
  by do 2 apply report_oom_quiet.
Qed.

Lemma reportJobRun_quiet k c t j w : quiet k w (reportJobRun c t j w).
Proof. unfold reportJobRun, admitJob. by repeat case_match. Qed.

(** The callbacks already made do not matter to the loop. *)
Lemma reportRestarts_log c t p w rs :
  foldl (report_restart c t p) (w, rs) (statuses p) =
  ((reportRestarts c t p w).1, rs ++ (reportRestarts c t p w).2).
Proof.
  unfold reportRestarts. rewrite <-(app_nil_r rs) at 1. generalize (@nil report) as r. revert w.
  induction (statuses p) as [|s ss IH]; intros w r; [done|]. cbn [foldl].
  assert (report_restart c t p (w, rs ++ r) s =
    ((report_restart c t p (w, r) s).1, rs ++ (report_restart c t p (w, r) s).2)) as ->
    by (unfold report_restart; repeat case_match; cbn; by rewrite ?app_assoc).
  destruct (report_restart c t p (w, r) s). apply IH.
Qed.

Lemma observe_pod_tracks k L c clk p b w rs :
  int32_count p -> tracks k L (w, rs) ->
  tracks k (foldl read L (readings k p)) ((observe_pod c clk p b w).1, rs ++ (observe_pod c clk p b w).2).
Proof.
  intros Hp Ht. unfold observe_pod.
  pose proof (reportPodIfChanged_quiet k (UID (p_meta p)) (describe c p) (indexPod p (describe c p) b (countDrops p w))) as H1.
  destruct (reportPodIfChanged _ _ _) as [w1 r1]. pose proof (reportOOMKills_quiet k c p w1) as H2.
  destruct (reportOOMKills _ _ _) as [w2 r2].
  assert (tracks k L (w2, (rs ++ r1) ++ r2)) as Ht2.
  { apply (quiet_tracks k L w1 (rs ++ r1) (w2, r2)); [|done].
    by apply (quiet_tracks k L (indexPod p (describe c p) b (countDrops p w)) rs (w1, r1)). }
  pose proof (fold_restart_tracks k c (restarts_at clk) p (statuses p) L (w2, (rs ++ r1) ++ r2) Hp Ht2) as Ht3.
  rewrite reportRestarts_log in Ht3.
  destruct (reportRestarts _ _ _ _) as [w3 r3]. pose proof (reportDisruptions_quiet k c (condition_at clk) p w3) as H4.
  destruct (reportDisruptions _ _ _ _) as [w4 r4]. cbn [fst snd] in *.
  rewrite !app_assoc. by apply (quiet_tracks k _ w3 _ (w4, r4)).
Qed.

Lemma dropPod_restarts uid w : restartCounts (dropPod uid w) = restartCounts w.
Proof. unfold dropPod. by destruct (index w !! uid). Qed.

Lemma DeleteFunc_restarts p w :
  restartCounts (DeleteFunc p w) = filter (fun kb => HasPrefix kb.1 (pod_prefix p) = false) (restartCounts w).
Proof. by rewrite <-(dropPod_restarts (UID (p_meta p)) w). Qed.

Lemma step_tracks f k L w rs e :
  same_rules f (filter_ w) -> counts_ok e -> tracks k L (w, rs) ->
  tracks k (watch_event f k L e) ((step w e).1, rs ++ (step w e).2).
Proof.
  intros Hf Hc Ht. destruct e as [c clk p|c clk old p|p|c now job|job]; cbn [step watch_event].
  - unfold AddFunc, admit_pod. rewrite (decide_pod_rules _ _ _ _ Hf).
    destruct (collect _); [by apply observe_pod_tracks|]. cbn. by rewrite app_nil_r.
  - unfold UpdateFunc, admit_pod. rewrite (decide_pod_rules _ _ _ _ Hf). destruct (collect _) eqn:Hd.
    + pose proof (observe_pod_tracks k L c clk p (profile (decide_pod c p f)) w rs Hc Ht) as Ht'.
      destruct (observe_pod _ _ _ _ _) as [w1 rs1]. cbn [fst snd] in *.
      unfold tracks in *. cbn [fst snd] in *.
      assert (forall was, restartCounts (countTransition was (decide_pod c p f) w1) = restartCounts w1) as ->
        by (intros was; unfold countTransition; by repeat case_match). done.
    + cbn [fst snd]. rewrite app_nil_r. unfold tracks in *. cbn [fst snd] in *.
      assert (forall was, restartCounts (countTransition was (decide_pod c p f) (dropPod (UID (p_meta p)) w))
        = restartCounts w) as -> by (intros was; unfold countTransition, dropPod; by repeat case_match). done.
  - cbn [fst snd]. rewrite app_nil_r. destruct Ht as (Hb & He & Hr). unfold tracks. cbn [fst snd] in *.
    rewrite DeleteFunc_restarts.
    destruct (HasPrefix k (pod_prefix p)) eqn:Hp.
    + rewrite map_lookup_filter_None_2; [done|]. right. intros b _. cbn. congruence.
    + destruct (restartCounts w !! k) as [b|] eqn:Hk.
      * by rewrite (map_lookup_filter_Some_2 _ _ _ _ Hk Hp).
      * rewrite map_lookup_filter_None_2; [done|by left].
  - apply (quiet_tracks k L w rs (reportJobRun c now job w)); [done|apply reportJobRun_quiet].
  - cbn. by rewrite app_nil_r.
Qed.

Lemma run_tracks f k es :
  informer_order es -> Forall counts_ok es -> tracks k (watch_of f k es) (run f es).
Proof.
  induction es as [|e es IH] using rev_ind; intros Ho Hc.
  { unfold tracks. cbn. by rewrite lookup_empty. }
  apply Forall_app in Hc as [Hc He]. apply Forall_cons_1 in He as [He _].
  pose proof (IH (informer_order_snoc _ _ Ho) Hc) as Ht.
  rewrite run_snoc. unfold watch_of. rewrite foldl_app. cbn [foldl].
  destruct (run_index f es (informer_order_snoc _ _ Ho)) as [Hf _].
  destruct (run f es) as [w rs]. cbn [fst snd] in *. apply step_tracks; [done|done|exact Ht].
Qed.

(** ** Runs of readings

    The readings of one container's counter, cut wherever it fell or its pod was
    deleted: the runs that are over, and the one in progress. *)
Record history := mkHistory { over : list (list Z); current : list Z }.

Definition latest_of (run : list Z) : Z := List.last run 0.
Definition first_of (run : list Z) : Z := match run with [] => 0 | n :: _ => n end.
(** How far the counter rose in a run. *)
Definition rise (run : list Z) : Z := latest_of run - first_of run.

Definition note (H : history) (n : Z) : history :=
  if bool_decide (current H = []) || (latest_of (current H) <=? n) then mkHistory (over H) (current H ++ [n])
  else mkHistory (over H ++ [current H]) [n].
Definition end_run (H : history) : history := mkHistory (over H ++ [current H]) [].

Definition history_event (f : Filter) (k : string) (H : history) (e : event) : history :=
  match e with
  | EAdd c _ p | EUpdate c _ _ p => if collect (decide_pod c p f) then foldl note H (readings k p) else H
  | EDelete p => if HasPrefix k (pod_prefix p) then end_run H else H
  | _ => H
  end.
Definition history_of (f : Filter) (k : string) (es : list event) : history :=
  foldl (history_event f k) (mkHistory [] []) es.

(** The reader's three figures of a history. *)
Definition watched (H : history) : watch :=
  mkWatch (match current H with [] => None | n :: _ => Some (n, latest_of (current H)) end)
    (rise (current H)) (list_sum rise (over H) + rise (current H)).

Lemma watched_note H n : watched (note H n) = read (watched H) n.
Proof.
  destruct H as [o [|a run]]; unfold note, watched, read; cbn [current over].
  { assert (Hone : rise [n] = 0) by (unfold rise; cbn; lia). cbn -[list_sum rise]. rewrite Hone. f_equal; unfold rise; cbn; lia. }
  rewrite (bool_decide_eq_false_2 (a :: run = [])) by done. cbn [orb base since total].
  assert (Hone : rise [n] = 0) by (unfold rise; cbn; lia).
  destruct (Z.leb_spec (latest_of (a :: run)) n), (Z.ltb_spec n (latest_of (a :: run))); try lia; cbn [current over].
  - change ((a :: run) ++ [n]) with (a :: (run ++ [n])).
    assert (Hl : latest_of (a :: (run ++ [n])) = n) by (unfold latest_of; by rewrite app_comm_cons, List.last_last).
    unfold rise at 1 3 4. rewrite Hl. cbn [first_of]. f_equal; unfold rise; cbn [first_of]; lia.
  - rewrite list_sum_app, list_sum_cons, Hone. change (list_sum rise []) with 0. change (latest_of [n]) with n. f_equal; lia.
Qed.
Lemma watched_end H : watched (end_run H) = forget (watched H).
Proof.
  unfold end_run, watched, forget. cbn [over current total base since]. rewrite list_sum_app, list_sum_cons.
  change (list_sum rise []) with 0. change (rise []) with 0. f_equal; lia.
Qed.

Lemma watch_of_history f k es : watch_of f k es = watched (history_of f k es).
Proof.
  assert (Hread : forall ns H, watched (foldl note H ns) = foldl read (watched H) ns).
  { induction ns as [|n ns IH]; intros H; [done|]. cbn. by rewrite IH, watched_note. }
  unfold watch_of, history_of. change (mkWatch None 0 0) with (watched (mkHistory [] [])).
  generalize (mkHistory [] []) as H. induction es as [|e es IH]; intros H; [done|]. cbn [foldl]. rewrite <-IH. f_equal.
  destruct e; cbn [watch_event history_event]; try done; case_match; by rewrite ?Hread, ?watched_end.
Qed.

(** C7. The two payloads about restarts, from one counter.  Cut the readings of a
    container's counter wherever it fell or its pod was deleted, through any
    events an informer can deliver.  The advances handed to the restart journal
    sum to how far the counter rose in each run, over all runs.  A record of the
    counter snapshot states of it the first and the last reading of the run in
    progress, so these differ by exactly the advances reported in that run, and
    by all of them when there was no other run; a container the agent is reading,
    of an indexed pod in the cache and not at zero, has such a record. *)
Theorem restart_payloads_agree (f : Filter) (es : list event) (k : string) :
  informer_order es -> Forall counts_ok es ->
  let H := history_of f k es in let w := (run f es).1 in
  emitted k (run f es).2 = list_sum rise (over H) + rise (current H) /\
  (forall c rc, rc ∈ RestartCounters c w -> rcNamespace rc +:+ "/" +:+ rcPod rc +:+ "/" +:+ rcContainer rc = k ->
     current H <> [] /\ rcRestartsBeforeObservation rc = first_of (current H) /\ rcRestarts rc = latest_of (current H) /\
     (over H = [] -> rcRestarts rc = rcRestartsBeforeObservation rc + emitted k (run f es).2)) /\
  (forall c p s, p ∈ podList c -> is_Some (LookupPod w (UID (p_meta p))) -> s ∈ statuses p -> 0 < RestartCount s ->
     restartKey p (st_Name s) = k -> current H <> [] ->
     exists rc, rc ∈ RestartCounters c w /\ rcNamespace rc +:+ "/" +:+ rcPod rc +:+ "/" +:+ rcContainer rc = k).
Proof.
  intros Ho Hc H w. destruct (run_tracks f k es Ho Hc) as (Hb & He & _). rewrite watch_of_history in Hb, He.
  fold w H in Hb, He. unfold watched in Hb, He. cbn in Hb, He. split; [done|]. split.
  - intros c rc Hin Hk. unfold RestartCounters in Hin. rewrite elem_of_sort_slice, list_elem_of_bind in Hin.
    destruct Hin as (q & Hin & _). destruct (LookupPod _ _) as [[ns wl]|]; [|set_solver].
    apply list_elem_of_omap in Hin as (s & _ & Hs). unfold counter_of in Hs.
    destruct (_ <=? 0); [done|]. apply bind_Some in Hs as (b & Hkb & [= <-]). cbn in Hk |- *.
    change (restartKey q (st_Name s) = k) in Hk. rewrite Hk in Hkb. rewrite Hkb in Hb. cbn in Hb.
    destruct (current H) as [|n run] eqn:Hcur; [done|]. injection Hb as Hf Hl.
    rewrite Hf, Hl, He. unfold rise. split_and!; [done..|]. intros ->. cbn. lia.
  - intros c p s Hp [[ns wl] Hlook] Hs Hpos Hk Hcur. unfold RestartCounters.
    destruct (current H) as [|n run] eqn:Hh; [done|].
    destruct (restartCounts w !! k) as [b|] eqn:Hkb; [|done].
    eexists. split.
    + rewrite elem_of_sort_slice, list_elem_of_bind. exists p. split; [|done]. rewrite Hlook.
      apply list_elem_of_omap. exists s. split; [done|]. unfold counter_of.
      destruct (Z.leb_spec (RestartCount s) 0); [lia|]. rewrite Hk, Hkb. reflexivity.
    + cbn. exact Hk.
Qed.

Lemma restart_payloads_agree_witness :
  emitted "shop/web-0/app" (run demo_filter demo_events).2 = 2 /\
  history_of demo_filter "shop/web-0/app" demo_events = mkHistory [] [3; 5].
Proof.
  assert (Forall counts_ok demo_events) as Hc
    by (repeat constructor; intros H; discriminate H).
  destruct (restart_payloads_agree demo_filter demo_events "shop/web-0/app" demo_order Hc) as [He _].
  split; [|vm_compute; reflexivity]. rewrite He. vm_compute. reflexivity.
Defined.

(** After a fall the snapshot speaks of the run in progress only. *)
Definition falling_events : list event :=
  let seen n := EUpdate demo_caches demo_clock (demo_pod "web-0" "u1" ∅ 0) (demo_pod "web-0" "u1" ∅ n) in
  [EAdd demo_caches demo_clock (demo_pod "web-0" "u1" ∅ 5); seen 7; seen 1; seen 3].
Example a_fall_starts_over :
  let w := (run demo_filter falling_events).1 in
  let c := mkCaches (fun _ => Some ∅) (fun _ _ => None) (fun _ _ => None) (fun _ _ => None) (fun _ _ => None)
    (fun _ _ => None) (fun _ _ => None) (fun _ _ => None) [demo_pod "web-0" "u1" ∅ 3] in
  (emitted "shop/web-0/app" (run demo_filter falling_events).2,
   (fun rc => (rcRestartsBeforeObservation rc, rcRestarts rc)) <$> RestartCounters c w,
   history_of demo_filter "shop/web-0/app" falling_events) = (4, [(1, 3)], mkHistory [[5; 7]] [1; 3]).
Proof. vm_compute. reflexivity. Qed.
