(* ===== verification/Revisions.v ===== *)
(** Workload facts read from the controllers' own objects: the update strategies
    of [collector/updatestrategy.go], and the revisions of [collector/revisions.go]
    reduced by [revisions/revisions.go]. *)

From stdpp Require Import prelude gmap strings list sorting.
From Stdlib Require Import ZArith Lia.
From S2P Require Import Prelude GoTime GoStrings Model Cluster Admission PodWatcher PodIndex.
Local Open Scope Z_scope.

(** ** Collected workloads *)

Definition entry_workload (e : podIndexEntry) : WorkloadKey :=
  mkWorkloadKey (e_namespace e) (Kind (e_workload e)) (Name (e_workload e)).
Definition collectedWorkloadKeys (w : PodWatcher) : gset WorkloadKey :=
  list_to_set (entry_workload <$> map_values (index w)).
(** The same set, gathered for the ReplicaSets. *)
Definition replicaSetOwners (w : PodWatcher) : gset WorkloadKey :=
  list_to_set (entry_workload <$> map_values (index w)).

(** ** Update strategies *)

(** What a controller object declares: its rolling update, if it has one, is the
    maximum unavailable, the maximum surge and the partition. *)
Record RollingUpdate := mkRollingUpdate {
  MaxUnavailable : option string; MaxSurge : option string; Partition : option Z;
}.
Record StrategySpec := mkStrategySpec { Type_ : string; MinReadySeconds : Z; Rolling : option RollingUpdate }.

(** The three listers; [None] is a lookup that failed. *)
Record strategy_caches := mkStrategyCaches {
  deploymentSpec : string -> string -> option StrategySpec;
  statefulSetSpec : string -> string -> option StrategySpec;
  daemonSetSpec : string -> string -> option StrategySpec;
}.

Definition intOrString (v : option string) : string := default ""%string v.

Definition strategy_with (surge partition : bool) (s : StrategySpec) : UpdateStrategy :=
  match Rolling s with
  | None => mkUpdateStrategy (Type_ s) "" "" None (MinReadySeconds s)
  | Some u =>
      mkUpdateStrategy (Type_ s) (intOrString (MaxUnavailable u))
        (if surge then intOrString (MaxSurge u) else "")
        (if partition then Partition u else None) (MinReadySeconds s)
  end.

Definition strategyOf (c : strategy_caches) (key : WorkloadKey) : option UpdateStrategy :=
  if bool_decide (wkKind key = "Deployment"%string)
  then strategy_with true false <$> deploymentSpec c (wkNamespace key) (wkName key)
  else if bool_decide (wkKind key = "StatefulSet"%string)
  then strategy_with false true <$> statefulSetSpec c (wkNamespace key) (wkName key)
  else if bool_decide (wkKind key = "DaemonSet"%string)
  then strategy_with true false <$> daemonSetSpec c (wkNamespace key) (wkName key)
  else None.

Definition UpdateStrategies (c : strategy_caches) (w : PodWatcher) : gmap WorkloadKey UpdateStrategy :=
  set_fold (fun key out => match strategyOf c key with Some s => <[key := s]> out | None => out end) ∅
    (collectedWorkloadKeys w).

(** ** ReplicaSets *)

Definition revisionAnnotation : string := "deployment.kubernetes.io/revision".

Record ReplicaSet := mkReplicaSet {
  rs_meta : ObjectMeta;
  rs_Replicas : option Z;
  rs_InitContainers : list ContainerSpec;
  rs_Containers : list ContainerSpec;
  rs_StatusReplicas : Z;
  rs_StatusReady : Z;
}.

Record RevisionContainer := mkRevisionContainer { rvName : string; rvImage : string; rvInit : bool }.
Record ReplicaSetInfo := mkReplicaSetInfo {
  riNamespace : string;
  riWorkload : WorkloadRef;
  riName : string;
  riRevision : option Z;
  riCreatedAt : Time;
  riDesiredReplicas : Z;
  riCurrentReplicas : Z;
  riReadyReplicas : Z;
  riContainers : list RevisionContainer;
}.

Definition revisionOf (set : ReplicaSet) (kind : string) : option Z :=
  if bool_decide (kind <> "Deployment"%string) then None
  else Annotations (rs_meta set) !! revisionAnnotation ≫= ParseInt.

Definition describeReplicaSet (set : ReplicaSet) (owner : WorkloadKey) : ReplicaSetInfo :=
  mkReplicaSetInfo (Namespace (rs_meta set)) (mkWorkloadRef (wkKind owner) (wkName owner)) (ObjName (rs_meta set))
    (revisionOf set (wkKind owner)) (CreationTimestamp (rs_meta set))
    (default 0 (rs_Replicas set)) (rs_StatusReplicas set) (rs_StatusReady set)
    (((fun c => mkRevisionContainer (cn_Name c) (cn_Image c) true) <$> rs_InitContainers set) ++
     ((fun c => mkRevisionContainer (cn_Name c) (cn_Image c) false) <$> rs_Containers set)).

(** [sets] is what the lister holds, in any order. *)
Definition collected_set (owners : gset WorkloadKey) (set : ReplicaSet) : option ReplicaSetInfo :=
  owner ← controllerOf (rs_meta set);
  let key := mkWorkloadKey (Namespace (rs_meta set)) (ownerKind owner) (ownerName owner) in
  if bool_decide (key ∈ owners) then Some (describeReplicaSet set key) else None.
Definition ReplicaSets (sets : list ReplicaSet) (w : PodWatcher) : list ReplicaSetInfo :=
  let owners := replicaSetOwners w in
  if bool_decide (owners = ∅) then [] else omap (collected_set owners) sets.

(** ** The revisions payload *)

Record RevisionRecord := mkRevisionRecord {
  rrNamespace : string;
  rrWorkload : WorkloadRef;
  rrName : string;
  rrRevision : option Z;
  rrCreatedAt : Time;
  rrReplicas : Z * Z * Z;
  rrContainers : list RevisionContainer;
}.

Definition revisionOrZero (r : option Z) : Z := default (-1) r.

Definition record_of (set : ReplicaSetInfo) : RevisionRecord :=
  mkRevisionRecord (riNamespace set) (riWorkload set) (riName set) (riRevision set) (riCreatedAt set)
    (riDesiredReplicas set, riCurrentReplicas set, riReadyReplicas set) (riContainers set).

Definition less (a b : RevisionRecord) : bool :=
  lexi (rrNamespace a) (rrNamespace b) (lexi (Kind (rrWorkload a)) (Kind (rrWorkload b))
    (lexi (Name (rrWorkload a)) (Name (rrWorkload b))
      (lexi (revisionOrZero (rrRevision a)) (revisionOrZero (rrRevision b))
        (if negb (bool_decide (rrCreatedAt a = rrCreatedAt b)) then Before (rrCreatedAt a) (rrCreatedAt b)
         else go_lt (rrName a) (rrName b))))).

Definition Aggregate (sets : list ReplicaSetInfo) : list RevisionRecord := sort_slice less (record_of <$> sets).

(** ** What the payload holds *)

Definition sort_key (r : RevisionRecord) : string * (string * (string * (Z * (Z * string)))) :=
  (rrNamespace r, (Kind (rrWorkload r), (Name (rrWorkload r), (revisionOrZero (rrRevision r), (rrCreatedAt r, rrName r))))).

Lemma less_key a b : less a b = go_lt (sort_key a) (sort_key b).
Proof.
  unfold less, sort_key, go_lt, prod_go_order, lexi, Before, go_lt, Z_go_order. cbn.
  by repeat case_bool_decide.
Qed.

Lemma elem_of_workloads w k :
  k ∈ replicaSetOwners w <-> exists e, e ∈ map_values (index w) /\ k = entry_workload e.
Proof. unfold replicaSetOwners. rewrite elem_of_list_to_set, list_elem_of_fmap. split; intros (e & ? & ?); by exists e. Qed.

Lemma ReplicaSets_elem sets w i :
  i ∈ ReplicaSets sets w <-> exists s, s ∈ sets /\ collected_set (replicaSetOwners w) s = Some i.
Proof.
  unfold ReplicaSets. case_bool_decide as He; [|by rewrite list_elem_of_omap].
  split; [by intros ?%elem_of_nil|]. intros (s & _ & Hs). unfold collected_set in Hs. rewrite He in Hs.
  apply bind_Some in Hs as (o & _ & Hs). by case_bool_decide.
Qed.

Lemma collected_set_Some owners s i :
  collected_set owners s = Some i <->
  exists o, controllerOf (rs_meta s) = Some o /\
    mkWorkloadKey (Namespace (rs_meta s)) (ownerKind o) (ownerName o) ∈ owners /\
    i = describeReplicaSet s (mkWorkloadKey (Namespace (rs_meta s)) (ownerKind o) (ownerName o)).
Proof.
  unfold collected_set. rewrite bind_Some. split.
  - intros (o & Ho & Hi). case_bool_decide; [|done]. injection Hi as <-. by exists o.
  - intros (o & Ho & Hin & ->). exists o. split; [done|]. by rewrite bool_decide_eq_true_2.
Qed.

Lemma NoDup_omap_keys {A B K} (g : A -> K) (h : B -> K) (f : A -> option B) l :
  NoDup (g <$> l) -> (forall x y, f x = Some y -> h y = g x) -> NoDup (h <$> omap f l).
Proof.
  intros Hnd Hf. induction l as [|x l IH]; [constructor|]. apply NoDup_cons in Hnd as [Hx Hnd].
  cbn. destruct (f x) as [y|] eqn:Hy; [|by apply IH]. cbn. constructor; [|by apply IH].
  rewrite (Hf _ _ Hy). intros (z & Hz & (x' & Hx' & Hz')%list_elem_of_omap)%list_elem_of_fmap. apply Hx.
  apply list_elem_of_fmap. exists x'. split; [|done]. by rewrite Hz, (Hf _ _ Hz').
Qed.

Lemma UpdateStrategies_lookup c w key :
  (key ∈ collectedWorkloadKeys w -> UpdateStrategies c w !! key = strategyOf c key) /\
  (key ∉ collectedWorkloadKeys w -> UpdateStrategies c w !! key = None).
Proof.
  unfold UpdateStrategies. generalize (collectedWorkloadKeys w) as X. intros X.
  apply (set_fold_ind_L (fun m X => (key ∈ X -> m !! key = strategyOf c key) /\ (key ∉ X -> m !! key = None))
    (fun key out => match strategyOf c key with Some s => <[key := s]> out | None => out end)); [done|].
  clear X. intros k X m Hk [IH1 IH2]. destruct (decide (k = key)) as [->|Hne].
  - split; [intros _|set_solver]. specialize (IH2 Hk).
    destruct (strategyOf c key); [by rewrite lookup_insert_eq|done].
  - destruct (strategyOf c k); rewrite ?lookup_insert_ne by done;
      (split; intros Hin; [apply IH1|apply IH2]; rewrite elem_of_union, elem_of_singleton in Hin; tauto || intuition congruence).
Qed.

Section payload.
Context (f : Filter) (es : list event) (Hes : informer_order es).
Abbreviation w := (fst (run f es)).

(** A workload some collected pod belongs to. *)
Definition collected_workload (k : WorkloadKey) : Prop :=
  exists uid c p, collected f es uid c p /\ Namespace (p_meta p) = wkNamespace k /\
    resolveWorkload c p = mkWorkloadRef (wkKind k) (wkName k).

Lemma owners_collected k : k ∈ replicaSetOwners w <-> collected_workload k.
Proof using Hes.
  rewrite elem_of_workloads. split.
  - intros (e & (uid & c & p & Hc & ->)%exposed_value & ->); [|done]. exists uid, c, p. split; [done|]. split; [done|].
    cbn. by destruct (resolveWorkload c p).
  - intros (uid & c & p & Hc & Hns & Hw). eexists. split; [apply exposed_value; [done|]; by exists uid, c, p|].
    destruct k. unfold entry_workload. cbn in *. rewrite Hw, <-Hns. done.
Qed.
End payload.

(** C12. The workload facts follow the pods.  A revision is reported exactly when
    its ReplicaSet's controller is the workload of some pod that is collected,
    and an update strategy exactly for such a workload: nothing of a workload
    all of whose pods opted out is read.  The revisions come out in the order of
    their workload, revision number (a missing one first), age and name, which
    no order of the lister can change. *)
Theorem workload_facts_follow_the_pods (f : Filter) (es : list event) (sets : list ReplicaSet) (c : strategy_caches)
    (Hes : informer_order es) :
  let w := (run f es).1 in
  (forall r, r ∈ Aggregate (ReplicaSets sets w) <->
     exists s o, s ∈ sets /\ controllerOf (rs_meta s) = Some o /\
       let k := mkWorkloadKey (Namespace (rs_meta s)) (ownerKind o) (ownerName o) in
       collected_workload f es k /\ r = record_of (describeReplicaSet s k)) /\
  (forall k, UpdateStrategies c w !! k = None \/ collected_workload f es k) /\
  (forall k, collected_workload f es k -> UpdateStrategies c w !! k = strategyOf c k) /\
  forall sets', sets ≡ₚ sets' ->
    NoDup ((fun s => (Namespace (rs_meta s), ObjName (rs_meta s))) <$> sets) ->
    Aggregate (ReplicaSets sets w) = Aggregate (ReplicaSets sets' w).
Proof.
  intros w. split_and!.
  - intros r. unfold Aggregate. rewrite elem_of_sort_slice, list_elem_of_fmap. split.
    + intros (i & -> & (s & Hs & (o & Ho & Hk & ->)%collected_set_Some)%ReplicaSets_elem).
      exists s, o. split_and!; try done. by apply owners_collected.
    + intros (s & o & Hs & Ho & Hk & ->). eexists. split; [done|]. apply ReplicaSets_elem. exists s. split; [done|].
      apply collected_set_Some. exists o. split_and!; try done. by apply owners_collected.
  - intros k. destruct (decide (k ∈ collectedWorkloadKeys w)) as [Hk|Hk]; [right; by apply owners_collected|left].
    by apply UpdateStrategies_lookup.
  - intros k Hk%owners_collected; [|done]. by apply UpdateStrategies_lookup.
  - intros sets' Hp Hnd. apply (sort_slice_perm less sort_key); [exact less_key| |].
    + apply (NoDup_fmap_1 (fun k => (k.1, k.2.2.2.2.2))). rewrite <-!list_fmap_compose.
      unfold ReplicaSets. case_bool_decide; [constructor|].
      apply (NoDup_omap_keys (fun s => (Namespace (rs_meta s), ObjName (rs_meta s)))); [done|].
      by intros s i (o & _ & _ & ->)%collected_set_Some.
    + unfold ReplicaSets. case_bool_decide; [done|]. by rewrite Hp.
Qed.

(** ** A Deployment in its second revision *)

Definition rs_object (nm number : string) : ReplicaSet :=
  mkReplicaSet (mkObjectMeta "shop" nm nm {[revisionAnnotation := number]} (Some (mkOwnerRef "Deployment" "web"))
                  unixEpoch) (Some 3) [] [demo_container] 3 2.
Definition rollout_caches : caches :=
  mkCaches (fun _ => Some ∅)
    (fun _ nm => Some (mkObjectMeta "shop" nm nm ∅ (Some (mkOwnerRef "Deployment" "web")) unixEpoch))
    (fun _ nm => Some (mkObjectMeta "shop" nm nm ∅ None unixEpoch)) (fun _ _ => None) (fun _ _ => None)
    (fun _ _ => None) (fun _ _ => None) (fun _ _ => None) [].
Definition rollout_pod : Pod :=
  mkPod (mkObjectMeta "shop" "web-7f-x" "u1" ∅ (Some (mkOwnerRef "ReplicaSet" "web-7f")) unixEpoch)
    (mkPodSpec "node-1" false [] [demo_container] [] [] ∅ None [] [] "" None "") "Running" "" "Burstable" "10.0.0.7"
    [] [] [demo_status 0].
Definition rollout_events : list event := [EAdd rollout_caches demo_clock rollout_pod].

Lemma rollout_order : informer_order rollout_events.
Proof. apply (informer_order_add []); [apply informer_order_nil|reflexivity]. Defined.

Lemma workload_facts_follow_the_pods_witness :
  let w := (run demo_filter rollout_events).1 in
  let c := mkStrategyCaches (fun _ _ => Some (mkStrategySpec "RollingUpdate" 5
             (Some (mkRollingUpdate (Some "25%"%string) None None)))) (fun _ _ => None) (fun _ _ => None) in
  rrRevision <$> Aggregate (ReplicaSets [rs_object "web-7f" "2"; rs_object "web-6c" "1"] w) = [Some 1; Some 2] /\
  UpdateStrategies c w !! mkWorkloadKey "shop" "Deployment" "web" =
    Some (mkUpdateStrategy "RollingUpdate" "25%" "" None 5).
Proof.
  intros w c.
  destruct (workload_facts_follow_the_pods demo_filter rollout_events
    [rs_object "web-6c" "1"; rs_object "web-7f" "2"] c rollout_order) as (_ & _ & Hs & Hp).
  fold w in Hs, Hp. split.
  - rewrite <-(Hp [rs_object "web-7f" "2"; rs_object "web-6c" "1"]); [vm_compute; reflexivity|apply Permutation_swap|].
    by apply (bool_decide_unpack _).
  - rewrite Hs; [vm_compute; reflexivity|]. exists "u1"%string, rollout_caches, rollout_pod.
    split; [|split; reflexivity]. split; [reflexivity|]. split_and!; vm_compute; done.
Defined.
