(* ===== verification/Targeting.v ===== *)
(** The selection of workloads to profile: [targeting/targeting.go], and the
    expansion of the published targets to the containers of one node
    ([nodeTargeter] of [cmd/agent/main.go]).

    The published list is an atomic pointer the poller stores and a request
    loads; it is the [current] field here. *)

From stdpp Require Import prelude gmap strings list sorting.
From Stdlib Require Import ZArith Lia.
From S2P Require Import Prelude Model PodWatcher.
From S2P Require Import UsageRecord.
Local Open Scope Z_scope.
Local Open Scope go_scope.

Record Target := mkTarget { tNamespace : string; tKind : string; tName : string }.
#[export] Instance Target_eq_dec : EqDecision Target.
Proof. solve_decision. Defined.
#[export] Instance Target_countable : Countable Target.
Proof.
  refine (inj_countable' (fun t => (tNamespace t, (tKind t, tName t))) (fun p => mkTarget p.1 p.2.1 p.2.2) _).
  by intros [].
Defined.

(** [optedOut] is what the opt-out callback answers at a publish. *)
Record Publisher := mkPublisher { topN : Z; current : option (list Target) }.
Definition NewPublisher (n : Z) : Publisher := mkPublisher (if n <=? 0 then 1 else n) None.

Definition target_of (r : Record_) : Target :=
  mkTarget (Namespace (RKey r)) (WorkloadKind (RKey r)) (WorkloadName (RKey r)).

Definition add_record (excluded : gset Target) (sum : gmap Target Z) (r : Record_) : gmap Target Z :=
  let t := target_of r in
  if bool_decide (t ∈ excluded) then sum
  else <[t := default 0 (sum !! t) +w CoreNanoseconds (CPU r)]> sum.
Definition sums (excluded : gset Target) (records : list Record_) : gmap Target Z :=
  foldl (add_record excluded) ∅ records.

(** The tie-break compares the namespace and the name. *)
Definition ranks_before (a b : Target * Z) : bool :=
  if negb (bool_decide (a.2 = b.2)) then b.2 <? a.2
  else lexi (tNamespace a.1) (tNamespace b.1) (go_lt (tName a.1) (tName b.1)).

(** What a publish may store: the sort is handed the map in some order, and its
    answer is not unique where [ranks_before] ties. *)
Definition may_publish (p : Publisher) (excluded : gset Target) (records : list Record_) (top : list Target) : Prop :=
  exists ranked, sorted_result ranks_before (map_to_list (sums excluded records)) ranked /\
    top = take (Z.to_nat (Z.min (topN p) (Z.of_nat (length ranked)))) ranked.*1.

Definition rank (excluded : gset Target) (records : list Record_) : list (Target * Z) :=
  sort_slice ranks_before (map_to_list (sums excluded records)).
Definition Publish (excluded : gset Target) (records : list Record_) (p : Publisher) : Publisher :=
  let rs := rank excluded records in
  mkPublisher (topN p) (Some (take (Z.to_nat (Z.min (topN p) (Z.of_nat (length rs)))) rs.*1)).

Definition Snapshot (p : Publisher) : list Target := default [] (current p).

(** The opt-out callback main.go installs. *)
Definition opted_out (w : PodWatcher) : gset Target :=
  list_to_set ((fun k => mkTarget k.1 (Kind k.2) (Name k.2)) <$> ProfilingOptOuts w).

Definition ContainersForNode (p : Publisher) (w : PodWatcher) (node : string) : list string :=
  let top := Snapshot p in
  if bool_decide (top = []) then []
  else omap (fun c => if bool_decide (mkTarget c.1.1 (Kind c.1.2) (Name c.1.2) ∈ (list_to_set top : gset Target))
                      then Some c.2 else None) (ContainersOnNode w node).

(** ** The ranking *)

(** CPU consumed by a workload over the records, as an integer. *)
Definition consumption (t : Target) (records : list Record_) : Z :=
  list_sum (fun r => if bool_decide (target_of r = t) then CoreNanoseconds (CPU r) else 0) records.

Lemma list_sum_snoc {A} (g : A -> Z) l x : list_sum g (l ++ [x]) = list_sum g l + g x.
Proof. rewrite list_sum_app. cbn. lia. Qed.

Lemma sums_lookup excluded records t :
  sums excluded records !! t =
  if bool_decide (t ∈ excluded \/ t ∉ target_of <$> records) then None else Some (wrap64 (consumption t records)).
Proof.
  induction records as [|r records IH] using rev_ind.
  { rewrite bool_decide_eq_true_2; [done|]. right. by apply not_elem_of_nil. }
  unfold sums, consumption in *. rewrite foldl_app, list_sum_snoc. cbn [foldl]. unfold add_record at 1.
  rewrite fmap_app. cbn [fmap list_fmap].
  destruct (decide (target_of r = t)) as [<-|Ht].
  - rewrite (bool_decide_eq_true_2 (target_of r = target_of r)) by done.
    destruct (decide (target_of r ∈ excluded)) as [He|He].
    + rewrite bool_decide_eq_true_2, IH by done. rewrite !bool_decide_eq_true_2; [done| |]; by left.
    + rewrite bool_decide_eq_false_2, lookup_insert_eq by done.
      rewrite (bool_decide_eq_false_2 (_ ∈ excluded \/ _ ∉ _ ++ _)) by (rewrite elem_of_app, list_elem_of_singleton; tauto).
      f_equal. rewrite IH. destruct (decide (target_of r ∈ target_of <$> records)) as [Hin|Hin].
      * rewrite bool_decide_eq_false_2 by tauto. cbn [from_option id]. by rewrite wrap64_add_l.
      * rewrite bool_decide_eq_true_2 by tauto. cbn [from_option id]. f_equal.
        assert (list_sum (fun r0 => if bool_decide (target_of r0 = target_of r) then CoreNanoseconds (CPU r0) else 0) records = 0) as ->; [|lia].
        clear IH. induction records as [|x l IHl]; [done|]. rewrite list_sum_cons. cbn [fmap list_fmap] in Hin.
        rewrite not_elem_of_cons in Hin. rewrite bool_decide_eq_false_2 by (destruct Hin; congruence). rewrite IHl; tauto.
  - rewrite (bool_decide_eq_false_2 (target_of r = t)) by done. rewrite Z.add_0_r.
    assert (t ∈ excluded \/ t ∉ (target_of <$> records) ++ [target_of r] <->
            t ∈ excluded \/ t ∉ target_of <$> records) as Hiff
      by (rewrite elem_of_app, list_elem_of_singleton; intuition congruence).
    rewrite (bool_decide_ext _ _ Hiff), <-IH.
    destruct (bool_decide (target_of r ∈ excluded)); [done|]. by rewrite lookup_insert_ne.
Qed.

(** What [ranks_before] compares. *)
Definition rank_key (x : Target * Z) : Z * (string * string) := (- x.2, (tNamespace x.1, tName x.1)).

Lemma ranks_before_key a b : ranks_before a b = go_lt (rank_key a) (rank_key b).
Proof.
  unfold ranks_before, rank_key, go_lt, prod_go_order, lexi, go_lt, Z_go_order. cbn.
  destruct (decide (a.2 = b.2)) as [->|Hne].
  - by rewrite !(bool_decide_eq_true_2 (_ = _ :> Z)).
  - rewrite !(bool_decide_eq_false_2 (_ = _ :> Z)) by lia. cbn. apply eq_true_iff_eq. rewrite !Z.ltb_lt. lia.
Qed.

(** No workload's consumption overflows an [int64]. *)
Definition no_overflow (records : list Record_) : Prop := forall t, int64_ok (consumption t records).

(** A workload with records that did not opt out. *)
Definition candidate (excluded : gset Target) (records : list Record_) (t : Target) : Prop :=
  (t ∉ excluded) /\ t ∈ (target_of <$> records).

Lemma sums_elem excluded records t v :
  no_overflow records ->
  ((t, v) ∈ map_to_list (sums excluded records)) <-> (candidate excluded records t /\ v = consumption t records).
Proof.
  intros Hok. rewrite elem_of_map_to_list, sums_lookup, (wrap64_id _ (Hok t)). unfold candidate.
  case_bool_decide as H; split; try done.
  - tauto.
  - intros [= <-]. split; [|done]. split; [tauto|]. apply dec_stable. tauto.
  - by intros [_ ->].
Qed.

Lemma take_split {A} (n : nat) (l : list A) (R : relation A) :
  StronglySorted R l -> forall x y, x ∈ take n l -> y ∈ drop n l -> R x y.
Proof.
  intros Hs x y Hx Hy. rewrite <-(take_drop n l) in Hs. revert Hs Hx.
  induction (take n l) as [|z k IH]; intros Hs Hx; [by apply elem_of_nil in Hx|].
  inversion Hs as [|? ? Hs' Hf]; subst. apply elem_of_cons in Hx as [->|Hx]; [|by apply IH].
  rewrite Forall_forall in Hf. apply Hf, elem_of_app. by right.
Qed.

Lemma StronglySorted_take {A} (R : relation A) n l : StronglySorted R l -> StronglySorted R (take n l).
Proof.
  intros Hs. revert n. induction Hs as [|x l Hs IH Hf]; intros n; [rewrite take_nil; constructor|].
  destruct n as [|n]; [constructor|]. cbn. constructor; [apply IH|by apply Forall_take].
Qed.

(** C17. Whatever order the sort is handed, a publish names at most [topN]
    workloads, each once and none that opted out, and as many as there are
    candidates allow; they come heaviest first, and no candidate left out
    consumed more CPU than one that was named.  (With no workload's total past
    an int64.) *)
Theorem published_are_the_heaviest p excluded records top :
  0 < topN p -> no_overflow records -> may_publish p excluded records top ->
  let heavier a b := consumption b records <= consumption a records in
  NoDup top /\ (forall t, t ∈ top -> candidate excluded records t) /\
  Z.of_nat (length top) = Z.min (topN p) (Z.of_nat (size (dom (sums excluded records)))) /\
  StronglySorted heavier top /\
  (forall t t', t ∈ top -> candidate excluded records t' -> t' ∉ top -> heavier t t').
Proof.
  intros Hn Hok (ranked & [Hp Hs] & ->) heavier.
  set (n := Z.to_nat (Z.min (topN p) (Z.of_nat (length ranked)))).
  assert (NoDup ranked.*1) as Hnd by (rewrite Hp; apply NoDup_fst_map_to_list).
  assert (forall x, x ∈ ranked -> candidate excluded records x.1 /\ x.2 = consumption x.1 records) as Hin
    by (intros [t v] Hx; rewrite Hp in Hx; by apply sums_elem).
  assert (StronglySorted heavier ranked.*1) as Hsorted.
  { clear Hp Hnd n. induction Hs as [|x l Hs IH Hf]; [constructor|]. cbn.
    constructor; [apply IH; intros y Hy; apply Hin; by right|].
    apply Forall_forall. intros t (y & -> & Hy)%list_elem_of_fmap.
    assert (not_after ranks_before x y) as Hxy by by eapply Forall_forall in Hf. clear Hf; rename Hxy into Hf.
    destruct (Hin x ltac:(by left)) as [_ Hx]. destruct (Hin y ltac:(by right)) as [_ Hy'].
    unfold not_after, ranks_before in Hf. unfold heavier. rewrite <-Hx, <-Hy'.
    case_bool_decide as He; cbn [negb] in Hf; [rewrite He; lia|]. apply Z.ltb_ge in Hf. lia. }
  assert (forall t, t ∈ take n ranked.*1 -> t ∈ ranked.*1) as Hsub
    by (intros t Ht; eapply elem_of_take in Ht as (i & Ht & _); by eapply list_elem_of_lookup_2).
  split_and!.
  - rewrite <-(take_drop n ranked.*1) in Hnd. by apply NoDup_app in Hnd as [Hnd _].
  - intros t (x & -> & Hx)%Hsub%list_elem_of_fmap. by apply Hin.
  - rewrite length_take, length_fmap. rewrite size_dom, <-length_map_to_list, <-Hp. subst n. lia.
  - by apply StronglySorted_take.
  - intros t t' Ht Hc Hout. apply (take_split n ranked.*1 heavier Hsorted); [done|].
    assert (t' ∈ ranked.*1) as Hr.
    { apply list_elem_of_fmap. exists (t', consumption t' records). split; [done|]. rewrite Hp. by apply sums_elem. }
    rewrite <-(take_drop n ranked.*1) in Hr. by apply elem_of_app in Hr as [?|?].
Qed.

(** One answer the sort may give is [Publish]'s. *)
Lemma Publish_may p excluded records :
  exists top, current (Publish excluded records p) = Some top /\ may_publish p excluded records top.
Proof.
  eexists. split; [done|]. exists (rank excluded records).
  split; [|done]. apply (sort_slice_sorted _ rank_key ranks_before_key).
Qed.

(** ** Two kinds that tie *)

Definition demo_record (kind nm : string) (cpu : Z) : Record_ :=
  UsageRecord.mkRecord (UsageRecord.mkKey "shop" kind nm "app") 0 60 (mkCPU cpu cpu 0 0 0 0 0 1 0 0 None)
    (mkMemory 0 0 0 0 0 0 None).

Lemma published_are_the_heaviest_witness :
  let records := [demo_record "Deployment" "web" 5; demo_record "Deployment" "api" 9;
                  demo_record "StatefulSet" "db" 7; demo_record "Deployment" "web" 6] in
  let p := NewPublisher 2 in let excluded : gset Target := {[mkTarget "shop" "Deployment" "api"]} in
  current (Publish excluded records p) = Some [mkTarget "shop" "Deployment" "web"; mkTarget "shop" "StatefulSet" "db"] /\
  consumption (mkTarget "shop" "StatefulSet" "db") records <= consumption (mkTarget "shop" "Deployment" "web") records.
Proof.
  intros records p excluded. destruct (Publish_may p excluded records) as (top & Htop & Hmay).
  assert (no_overflow records) as Hok.
  { intros t. unfold consumption, records, list_sum. cbn. go_ints. repeat case_bool_decide; cbn; lia. }
  destruct (published_are_the_heaviest p excluded records top eq_refl Hok Hmay) as (_ & _ & _ & Hs & _).
  assert (top = [mkTarget "shop" "Deployment" "web"; mkTarget "shop" "StatefulSet" "db"]) as ->
    by (assert (Some top = Some [mkTarget "shop" "Deployment" "web"; mkTarget "shop" "StatefulSet" "db"]) as [= ->]
          by (rewrite <-Htop; vm_compute; reflexivity); reflexivity).
  split; [exact Htop|]. inversion Hs as [|? ? _ Hf]; subst. by inversion Hf.
Defined.

(** A Deployment and a StatefulSet of one name that consumed the same are not
    told apart: with room for one, either may be published. *)
Lemma tied_kinds_publish_either :
  let records := [demo_record "Deployment" "web" 5; demo_record "StatefulSet" "web" 5] in
  let p := NewPublisher 1 in
  may_publish p ∅ records [mkTarget "shop" "Deployment" "web"] /\
  may_publish p ∅ records [mkTarget "shop" "StatefulSet" "web"].
Proof.
  intros records p.
  set (d := (mkTarget "shop" "Deployment" "web", 5)). set (s := (mkTarget "shop" "StatefulSet" "web", 5)).
  assert (map_to_list (sums ∅ records) ≡ₚ [d; s]) as Hp
    by (apply (bool_decide_unpack _); vm_compute; exact I).
  split; [exists [d; s]|exists [s; d]]; (split; [|reflexivity]); (split; [rewrite Hp; try apply Permutation_swap; reflexivity|]);
    repeat constructor.
Qed.
