(* ===== verification/NodeIntake.v ===== *)
(** The controller's receiver for its nodes: [nodeintake] (handler.go,
    profile.go, targets.go, scope.go, nodematch.go, rejections.go), the part of
    [nodeauth/verifier.go] that is the agent's own, and what main.go answers the
    two queries with.

    A request body is what the bounded decoder makes of it: over the bound, not
    decodable, or a value with or without trailing data.  Signature, algorithm,
    expiry and audience are checked by the JWT library: [parse] is its answer.  A
    response is its status code. *)

From stdpp Require Import prelude gmap strings list.
From Stdlib Require Import ZArith Lia Ascii.
From S2P Require Import Prelude GoTime GoStrings Model Cluster Admission PodWatcher PodIndex Targeting.
Local Open Scope Z_scope.
Local Open Scope go_scope.

(** ** Tokens *)

(** The claims of a token the library accepted. *)
Record nodeBoundClaims := mkClaims {
  cl_Subject : string; cl_Audience : list string; cl_ExpiresAt : option Time; cl_NodeName : string; cl_NodeUID : string;
}.

Record Identity := mkIdentity {
  Subject : string;
  id_Namespace : string;
  ServiceAccount : string;
  Node : string;
  NodeUID : string;
  Audience : list string;
  ExpiresAt : option Time;
}.

Definition splitServiceAccountSubject (sub : string) : string * string :=
  match CutPrefix sub "system:serviceaccount:" with
  | None => ("", "")%string
  | Some rest => default ("", "")%string (Cut rest ":"%char)
  end.

Record Verifier := mkVerifier { parse : string -> option nodeBoundClaims; expectedSubject : string }.

Definition Verify (v : Verifier) (token : string) : option Identity :=
  claims ← parse v token;
  if negb (bool_decide (expectedSubject v = ""%string)) && negb (bool_decide (cl_Subject claims = expectedSubject v))
  then None
  else if bool_decide (cl_NodeName claims = ""%string) then None
  else let '(ns, sa) := splitServiceAccountSubject (cl_Subject claims) in
       Some (mkIdentity (cl_Subject claims) ns sa (cl_NodeName claims) (cl_NodeUID claims) (cl_Audience claims)
               (cl_ExpiresAt claims)).

(** ** Rejections *)

Record IntakeRejections := mkRejections { Unauthorized : Z; TooLarge : Z; Malformed : Z }.

(** [*Rejections]: [None] is the nil pointer, which counts nothing.  The counters
    are [uint64]. *)
Abbreviation Rejections := (option IntakeRejections).
Definition unauthorizedAdd (r : Rejections) : Rejections :=
  (fun r => mkRejections (Unauthorized r +u 1) (TooLarge r) (Malformed r)) <$> r.
Definition tooLargeAdd (r : Rejections) : Rejections :=
  (fun r => mkRejections (Unauthorized r) (TooLarge r +u 1) (Malformed r)) <$> r.
Definition malformedAdd (r : Rejections) : Rejections :=
  (fun r => mkRejections (Unauthorized r) (TooLarge r) (Malformed r +u 1)) <$> r.
Definition RejectionsSnapshot (r : Rejections) : IntakeRejections := default (mkRejections 0 0 0) r.
Definition Plus (r o : IntakeRejections) : IntakeRejections :=
  mkRejections (Unauthorized r +u Unauthorized o) (TooLarge r +u TooLarge o) (Malformed r +u Malformed o).

(** ** Requests *)

Inductive body (A : Type) := BodyTooLarge | BodyMalformed | Body (value : A) (more : bool).
Arguments BodyTooLarge {A}.
Arguments BodyMalformed {A}.
Arguments Body {A} value more.

Record request (A : Type) := mkRequest { Method : string; Authorization : string; ReqBody : body A }.
Arguments mkRequest {A}.
Arguments Method {A}.
Arguments Authorization {A}.
Arguments ReqBody {A}.

Fixpoint cut_at (n : nat) (s : string) : option (string * string) :=
  match n, s with
  | O, _ => Some (EmptyString, s)
  | S n, String c s => prod_map (String c) id <$> cut_at n s
  | S _, EmptyString => None
  end.

Definition bearerToken (h : string) : option string :=
  match cut_at 7 h with
  | None => None
  | Some (scheme, rest) =>
      if negb (bool_decide (ToLower scheme = "bearer "%string)) then None
      else let token := TrimSpace rest in if bool_decide (token = ""%string) then None else Some token
  end.

Definition StatusOK : Z := 200.
Definition StatusAccepted : Z := 202.
Definition StatusBadRequest : Z := 400.
Definition StatusUnauthorized : Z := 401.
Definition StatusForbidden : Z := 403.
Definition StatusMethodNotAllowed : Z := 405.
Definition StatusRequestEntityTooLarge : Z := 413.

(** The refusal it writes, if it refuses. *)
Definition authorizeNode (rej : Rejections) (id : Identity) (claimed : string) : Rejections * option Z :=
  if bool_decide (claimed = ""%string) then (malformedAdd rej, Some StatusBadRequest)
  else if negb (bool_decide (claimed = Node id)) then (unauthorizedAdd rej, Some StatusForbidden)
  else (rej, None).

(** What a handler did: the counters after it, the status it wrote, and what it
    handed to its callback or answered. *)
Record outcome (B : Type) := mkOutcome { rejections : Rejections; status : Z; handed : option B }.
Arguments mkOutcome {B}.
Arguments rejections {B}.
Arguments status {B}.
Arguments handed {B}.

(** *** The pushes *)

(** [Handler.ServeHTTP] and [ProfileHandler.ServeHTTP] are the same text but for
    the report's type; [node_of] is its [Node] field. *)
Definition ServeHTTP {A} (v : Verifier) (node_of : A -> string) (rej : Rejections) (r : request A)
    : outcome (Identity * A) :=
  if negb (bool_decide (Method r = "POST"%string)) then mkOutcome rej StatusMethodNotAllowed None
  else match bearerToken (Authorization r) with
  | None => mkOutcome (unauthorizedAdd rej) StatusUnauthorized None
  | Some token =>
      match Verify v token with
      | None => mkOutcome (unauthorizedAdd rej) StatusUnauthorized None
      | Some caller =>
          match ReqBody r with
          | BodyTooLarge => mkOutcome (tooLargeAdd rej) StatusRequestEntityTooLarge None
          | BodyMalformed => mkOutcome (malformedAdd rej) StatusBadRequest None
          | Body report more =>
              if more then mkOutcome (malformedAdd rej) StatusBadRequest None
              else match authorizeNode rej caller (node_of report) with
                   | (rej, Some refusal) => mkOutcome rej refusal None
                   | (rej, None) => mkOutcome rej StatusAccepted (Some (caller, report))
                   end
          end
      end
  end.

Record ProfileReport := mkProfileReport {
  pr_Node : string; PodUID : string; pr_ContainerID : string; PID : Z; CaptureStart : Time; CaptureEnd : Time;
  Pprof : string;
}.

(** The counters each constructor gives its handler. *)
Definition NewHandler : Rejections := Some (mkRejections 0 0 0).
Definition NewProfileHandler : Rejections := None.

(** What main.go reports for the channel: both handlers' counts. *)
Definition intakeRejections (handler profileHandler : Rejections) : IntakeRejections :=
  Plus (RejectionsSnapshot handler) (RejectionsSnapshot profileHandler).

(** *** The queries *)

(** Their bodies carry the node's name alone, and no handler of theirs counts. *)
Definition serve_query (v : Verifier) (answer : string -> list string) (r : request string) : outcome (list string) :=
  if negb (bool_decide (Method r = "POST"%string)) then mkOutcome None StatusMethodNotAllowed None
  else match bearerToken (Authorization r) with
  | None => mkOutcome None StatusUnauthorized None
  | Some token =>
      match Verify v token with
      | None => mkOutcome None StatusUnauthorized None
      | Some caller =>
          match ReqBody r with
          | BodyTooLarge => mkOutcome None StatusRequestEntityTooLarge None
          | BodyMalformed => mkOutcome None StatusBadRequest None
          | Body node _ =>
              match authorizeNode None caller node with
              | (_, Some refusal) => mkOutcome None refusal None
              | (_, None) => mkOutcome None StatusOK (Some (answer (Node caller)))
              end
          end
      end
  end.

Definition TargetsServeHTTP (v : Verifier) (p : Publisher) (w : PodWatcher) : request string -> outcome (list string) :=
  serve_query v (ContainersForNode p w).
Definition ScopeServeHTTP (v : Verifier) (w : PodWatcher) : request string -> outcome (list string) :=
  serve_query v (AdmittedPodsOnNode w).

(** ** Who may speak for a node *)

Definition verified {A} (v : Verifier) (r : request A) (id : Identity) : Prop :=
  Method r = "POST"%string /\ exists token, bearerToken (Authorization r) = Some token /\ Verify v token = Some id.

Lemma Verify_identity v token id :
  Verify v token = Some id ->
  Node id <> ""%string /\ (expectedSubject v <> ""%string -> Subject id = expectedSubject v) /\
  exists claims, parse v token = Some claims /\ cl_NodeName claims = Node id /\ cl_Subject claims = Subject id.
Proof.
  unfold Verify. intros (claims & Hp & H)%bind_Some.
  destruct (negb _ && negb _) eqn:Hs; [done|]. case_bool_decide as Hn; [done|].
  destruct (splitServiceAccountSubject _). injection H as <-. cbn. split; [done|]. split; [|by exists claims].
  intros He. apply andb_false_iff in Hs as [Hs|Hs]; apply negb_false_iff, bool_decide_eq_true in Hs; congruence.
Qed.

Lemma authorizeNode_ok rej id claimed rej' :
  authorizeNode rej id claimed = (rej', None) <-> rej' = rej /\ claimed = Node id /\ claimed <> ""%string.
Proof.
  unfold authorizeNode. repeat case_bool_decide; cbn [negb]; (split; [|intros (? & ? & ?)]; intuition congruence).
Qed.

Lemma ServeHTTP_handed {A} v (node_of : A -> string) rej r id report :
  handed (ServeHTTP v node_of rej r) = Some (id, report) <->
  verified v r id /\ ReqBody r = Body report false /\ node_of report = Node id /\ Node id <> ""%string.
Proof.
  unfold ServeHTTP, verified. case_bool_decide as Hm; cbn [negb]; [|split; [done|tauto]].
  destruct (bearerToken _) as [token|]; [|split; [done|intros ((_ & ? & [=] & _) & _)]].
  destruct (Verify v token) as [id'|] eqn:Hv; [|split; [done|intros ((_ & ? & [= <-] & ?) & _); congruence]].
  destruct (ReqBody r) as [| |report' more]; [by split; [|intros (_ & [=] & _)]..|].
  destruct more; [by split; [|intros (_ & [=] & _)]|].
  destruct (authorizeNode rej id' (node_of report')) as [rej' [refusal|]] eqn:Ha; cbn [handed].
  - split; [done|]. intros ((_ & ? & [= <-] & Hid) & [= ->] & Hn & Hne). exfalso.
    rewrite Hv in Hid. injection Hid as ->.
    assert (authorizeNode rej id (node_of report) = (rej, None)) by (apply authorizeNode_ok; split_and!; congruence).
    congruence.
  - apply authorizeNode_ok in Ha as (-> & Hn & Hne). split.
    + intros [= <- <-]. split; [by eauto|]. split; [done|]. split; congruence.
    + intros ((_ & ? & [= <-] & Hid) & [= ->] & _). congruence.
Qed.

Lemma serve_query_handed v answer r out :
  handed (serve_query v answer r) = Some out ->
  exists id, verified v r id /\ out = answer (Node id) /\ exists more, ReqBody r = Body (Node id) more.
Proof.
  unfold serve_query, verified. case_bool_decide as Hm; cbn [negb]; [|done].
  destruct (bearerToken _) as [token|]; [|done]. destruct (Verify v token) as [id|] eqn:Hv; [|done].
  destruct (ReqBody r) as [| |node more]; try done.
  destruct (authorizeNode None id node) as [rej' [refusal|]] eqn:Ha; [done|].
  apply authorizeNode_ok in Ha as (_ & -> & _). intros [= <-]. exists id.
  split; [split; [done|by exists token]|]. split; [done|by exists more].
Qed.

Lemma ContainersForNode_elem p w node cid :
  cid ∈ ContainersForNode p w node ->
  exists x, x ∈ ContainersOnNode w node /\ x.2 = cid /\ mkTarget x.1.1 (Kind x.1.2) (Name x.1.2) ∈ Snapshot p.
Proof.
  unfold ContainersForNode. case_bool_decide; [by intros ?%elem_of_nil|].
  intros (x & Hx & Hc)%list_elem_of_omap. case_bool_decide as Ht; [|done]. injection Hc as <-.
  exists x. split; [done|]. split; [done|]. by apply elem_of_list_to_set in Ht.
Qed.

(** A targets answer names containers of the caller's node, of published workloads,
    whose pods declined neither collection nor profiling. *)
Lemma targets_answer_profiled v p f es (Hes : informer_order es) r cids :
  handed (TargetsServeHTTP v p (run f es).1 r) = Some cids ->
  exists id more, verified v r id /\ ReqBody r = Body (Node id) more /\
    forall cid, cid ∈ cids -> exists uid c pod, profiled f es uid c pod /\ NodeName pod = Node id /\
      is_Some (containerIndex pod !! cid) /\
      mkTarget (Namespace (p_meta pod)) (Kind (resolveWorkload c pod)) (Name (resolveWorkload c pod)) ∈ Snapshot p.
Proof.
  intros (id & Hid & -> & more & Hb)%serve_query_handed. exists id, more. split; [done|]. split; [done|].
  intros cid (x & Hx & <- & Ht)%ContainersForNode_elem.
  destruct (ContainersOnNode_exposed f es Hes _ _ Hx) as (uid & c & pod & Hc & Hn & Hns & Hw & Hi).
  exists uid, c, pod. split_and!; try done. by rewrite <-Hns, <-Hw.
Qed.
(** A scope answer, pods of the caller's node that did not decline collection. *)
Lemma scope_answer_collected v f es (Hes : informer_order es) r uids :
  handed (ScopeServeHTTP v (run f es).1 r) = Some uids ->
  exists id more, verified v r id /\ ReqBody r = Body (Node id) more /\
    forall uid, uid ∈ uids -> exists c pod, collected f es uid c pod /\ NodeName pod = Node id.
Proof.
  intros (id & Hid & -> & more & Hb)%serve_query_handed. exists id, more. split; [done|]. split; [done|].
  intros uid Hu. by apply (AdmittedPodsOnNode_exposed f es Hes).
Qed.

(** C6. A node speaks only for itself, and is told only about consenting pods on
    it.  The receiver hands a push on, whether report or profile, exactly when it
    is a POST whose bearer token the verifier accepts, whole, and about the
    node the token was issued to; that node is never empty and the token's
    subject is the configured one.  A scope answer lists only collected pods of
    the caller's own node, and a targets answer only containers there of
    published workloads whose pods declined neither collection nor profiling. *)
Theorem node_speaks_only_for_itself (v : Verifier) (f : Filter) (es : list event) (Hes : informer_order es)
    (p : Publisher) :
  let w := (run f es).1 in
  (forall A (node_of : A -> string) rej (r : request A) id report,
     handed (ServeHTTP v node_of rej r) = Some (id, report) <->
     verified v r id /\ ReqBody r = Body report false /\ node_of report = Node id /\ Node id <> ""%string) /\
  (forall A (r : request A) id, verified v r id ->
     Node id <> ""%string /\ (expectedSubject v <> ""%string -> Subject id = expectedSubject v)) /\
  (forall r uids, handed (ScopeServeHTTP v w r) = Some uids ->
     exists id, verified v r id /\
       forall uid, uid ∈ uids -> exists c pod, collected f es uid c pod /\ NodeName pod = Node id) /\
  (forall r cids, handed (TargetsServeHTTP v p w r) = Some cids ->
     exists id, verified v r id /\
       forall cid, cid ∈ cids -> exists uid c pod, profiled f es uid c pod /\ NodeName pod = Node id /\
         is_Some (containerIndex pod !! cid) /\
         mkTarget (Namespace (p_meta pod)) (Kind (resolveWorkload c pod)) (Name (resolveWorkload c pod)) ∈ Snapshot p).
Proof.
  intros w. split_and!.
  - intros. apply ServeHTTP_handed.
  - intros A r id (_ & token & _ & Hid). apply Verify_identity in Hid. tauto.
  - intros r uids (id & _ & Hid & _ & Hu)%(scope_answer_collected v f es Hes). by exists id.
  - intros r cids (id & _ & Hid & _ & Hc)%(targets_answer_profiled v p f es Hes). by exists id.
Qed.

(** ** What a refusal leaves behind *)

Definition tally_of (s : Z) : option (Rejections -> Rejections) :=
  if (s =? StatusUnauthorized) || (s =? StatusForbidden) then Some unauthorizedAdd
  else if s =? StatusRequestEntityTooLarge then Some tooLargeAdd
  else if s =? StatusBadRequest then Some malformedAdd
  else None.

Lemma ServeHTTP_counts {A} v (node_of : A -> string) rej r :
  rejections (ServeHTTP v node_of rej r) =
  match tally_of (status (ServeHTTP v node_of rej r)) with Some add => add rej | None => rej end.
Proof.
  unfold ServeHTTP. destruct (negb _); [done|]. destruct (bearerToken _); [|done]. destruct (Verify v _); [|done].
  destruct (ReqBody r) as [| |report []]; try done.
  unfold authorizeNode. by repeat case_bool_decide.
Qed.

(** A handler over a sequence of requests. *)
Definition serve_all {A} (v : Verifier) (node_of : A -> string) (rej : Rejections) (rs : list (request A)) : Rejections :=
  foldl (fun rej r => rejections (ServeHTTP v node_of rej r)) rej rs.
Definition refusals {A} (v : Verifier) (node_of : A -> string) (codes : list Z) (rs : list (request A)) : Z :=
  Z.of_nat (length (List.filter (fun r => existsb (Z.eqb (status (ServeHTTP v node_of None r))) codes) rs)).

Lemma ServeHTTP_status {A} v (node_of : A -> string) rej r :
  status (ServeHTTP v node_of rej r) = status (ServeHTTP v node_of None r).
Proof.
  unfold ServeHTTP. destruct (negb _); [done|]. destruct (bearerToken _); [|done]. destruct (Verify v _); [|done].
  destruct (ReqBody r) as [| |report []]; try done. unfold authorizeNode. by repeat case_bool_decide.
Qed.

Lemma refusals_snoc {A} v (node_of : A -> string) codes rs r :
  refusals v node_of codes (rs ++ [r]) =
  refusals v node_of codes rs + (if existsb (Z.eqb (status (ServeHTTP v node_of None r))) codes then 1 else 0).
Proof.
  unfold refusals. rewrite List.filter_app, length_app. cbn [List.filter].
  destruct (existsb _ codes); cbn [length]; lia.
Qed.

Definition counted_rejections {A} (v : Verifier) (node_of : A -> string) (rs : list (request A)) : IntakeRejections :=
  mkRejections (wrapU64 (refusals v node_of [StatusUnauthorized; StatusForbidden] rs))
    (wrapU64 (refusals v node_of [StatusRequestEntityTooLarge] rs))
    (wrapU64 (refusals v node_of [StatusBadRequest] rs)).

Lemma serve_all_counts {A} v (node_of : A -> string) rs :
  serve_all v node_of NewHandler rs = Some (counted_rejections v node_of rs).
Proof.
  induction rs as [|r rs IH] using rev_ind; [done|]. unfold serve_all in *. rewrite foldl_app. cbn [foldl].
  rewrite IH, ServeHTTP_counts, ServeHTTP_status. unfold counted_rejections. rewrite !refusals_snoc.
  generalize (refusals v node_of [StatusUnauthorized; StatusForbidden] rs) as a.
  generalize (refusals v node_of [StatusRequestEntityTooLarge] rs) as b.
  generalize (refusals v node_of [StatusBadRequest] rs) as c. intros c b a.
  unfold ServeHTTP. destruct (negb _); [by cbn; rewrite !Z.add_0_r|].
  destruct (bearerToken _) as [token|]; [|by cbn; rewrite !Z.add_0_r, wrapU64_add_l].
  destruct (Verify v _) as [id|]; [|by cbn; rewrite !Z.add_0_r, wrapU64_add_l].
  destruct (ReqBody r) as [| |report []];
    [by cbn; rewrite !Z.add_0_r, wrapU64_add_l| by cbn; rewrite !Z.add_0_r, wrapU64_add_l
    |by cbn; rewrite !Z.add_0_r, wrapU64_add_l|].
  unfold authorizeNode. repeat case_bool_decide; cbn; by rewrite !Z.add_0_r, ?wrapU64_add_l.
Qed.

(** The report receiver counts every refusal once, under its reason: after
    any requests its counters are the numbers of 401s and 403s, of 413s and of
    400s it wrote (as uint64), and a request it accepts moves none. *)
Theorem report_refusals_counted {A} (v : Verifier) (node_of : A -> string) (rs : list (request A)) (r : request A) :
  serve_all v node_of NewHandler rs = Some (counted_rejections v node_of rs) /\
  (status (ServeHTTP v node_of NewHandler r) = StatusAccepted ->
   forall rej, rejections (ServeHTTP v node_of rej r) = rej).
Proof.
  split; [apply serve_all_counts|]. intros Hs rej. rewrite ServeHTTP_counts, ServeHTTP_status.
  rewrite ServeHTTP_status in Hs. by rewrite Hs.
Qed.

Lemma serve_all_nil {A} v (node_of : A -> string) (rs : list (request A)) :
  serve_all v node_of NewProfileHandler rs = None.
Proof.
  induction rs as [|r rs IH] using rev_ind; [done|]. unfold serve_all in *. rewrite foldl_app. cbn [foldl].
  rewrite IH, ServeHTTP_counts. destruct (tally_of _) as [add|] eqn:Ht; [|done]. unfold tally_of in Ht.
  repeat (case_match; simplify_eq/=; try done).
Qed.

(** The profile receiver counts nothing: its constructor leaves the counters
    nil, so whatever it refuses, and it does answer refusals like the report
    receiver, what main.go reports for the channel is what the report receiver
    alone refused. *)
Theorem profile_refusals_are_lost {A} (v : Verifier) (node_of : A -> string) (reports : list (request A))
    (profiles : list (request ProfileReport)) :
  let counted := intakeRejections (serve_all v node_of NewHandler reports)
                   (serve_all v pr_Node NewProfileHandler profiles) in
  counted = counted_rejections v node_of reports /\
  forall r, Method r = "POST"%string -> bearerToken (Authorization r) = None ->
    status (ServeHTTP v pr_Node (serve_all v pr_Node NewProfileHandler profiles) r) = StatusUnauthorized.
Proof.
  split.
  - rewrite serve_all_nil, serve_all_counts. unfold intakeRejections, Plus. cbn.
    rewrite !Z.add_0_r. unfold counted_rejections. f_equal; apply wrapU64_id, wrapU64_range.
  - intros r Hm Hb. unfold ServeHTTP. by rewrite Hm, Hb.
Qed.

(** ** A cluster of two nodes *)

Definition demo_verifier : Verifier :=
  mkVerifier (fun t => if bool_decide (t = "token-1"%string)
                       then Some (mkClaims "system:serviceaccount:agent:node" ["controller"%string] None "node-1" "n1")
                       else None) "system:serviceaccount:agent:node".
Definition demo_request (token node : string) : request string :=
  mkRequest "POST" ("Bearer " +:+ token) (Body node false).

Lemma node_speaks_only_for_itself_witness :
  let w := (run demo_filter demo_events).1 in
  handed (ScopeServeHTTP demo_verifier w (demo_request "token-1" "node-1")) = Some ["u1"%string] /\
  (exists c pod, collected demo_filter demo_events "u1" c pod /\ NodeName pod = "node-1"%string) /\
  handed (ScopeServeHTTP demo_verifier w (demo_request "token-1" "node-2")) = None /\
  handed (ScopeServeHTTP demo_verifier w (demo_request "stolen" "node-1")) = None.
Proof.
  intros w.
  destruct (node_speaks_only_for_itself demo_verifier demo_filter demo_events demo_order (NewPublisher 1))
    as (_ & _ & Hs & _). fold w in Hs.
  assert (handed (ScopeServeHTTP demo_verifier w (demo_request "token-1" "node-1")) = Some ["u1"%string]) as H1
    by (vm_compute; reflexivity).
  split; [exact H1|]. split; [|split; vm_compute; reflexivity].
  destruct (Hs _ _ H1) as (id & (_ & token & Ht & Hid) & Hu).
  vm_compute in Ht. injection Ht as <-. vm_compute in Hid. injection Hid as <-.
  exact (Hu "u1"%string ltac:(by left)).
Defined.

Lemma report_refusals_counted_witness :
  let accepted := demo_request "token-1" "node-1" in
  serve_all demo_verifier id NewHandler
    [demo_request "token-1" "node-2"; demo_request "stolen" "node-1";
     mkRequest "POST" "Bearer token-1" BodyTooLarge; accepted] = Some (mkRejections 2 1 0) /\
  rejections (ServeHTTP demo_verifier id (Some (mkRejections 2 1 0)) accepted) = Some (mkRejections 2 1 0).
Proof.
  intros accepted.
  destruct (report_refusals_counted demo_verifier (id : string -> string)
    [demo_request "token-1" "node-2"; demo_request "stolen" "node-1";
     mkRequest "POST" "Bearer token-1" BodyTooLarge; accepted] accepted) as [Hc Ha].
  split; [rewrite Hc; vm_compute; reflexivity|]. apply Ha. vm_compute. reflexivity.
Defined.

Lemma profile_refusals_are_lost_witness :
  let refused := mkRequest "POST" "Basic x" (BodyMalformed : body ProfileReport) in
  intakeRejections (serve_all demo_verifier (id : string -> string) NewHandler [])
    (serve_all demo_verifier pr_Node NewProfileHandler [refused; refused]) = mkRejections 0 0 0 /\
  status (ServeHTTP demo_verifier pr_Node NewProfileHandler refused) = StatusUnauthorized.
Proof.
  intros refused.
  destruct (profile_refusals_are_lost demo_verifier (id : string -> string) [] [refused; refused]) as [Hc Hr].
  split; [rewrite Hc; reflexivity|]. exact (Hr refused eq_refl eq_refl).
Defined.
