(* ===== verification/ProcCounters.v ===== *)
(** What the node reads of a process: the counters of [nodescan/proccounters.go]
    and the change between two passes, the status of [procstatus.go] and the
    memory of [procmem.go].

    A process's [/proc] files are given by their contents, [None] for a file that
    could not be read.  Every line is shorter than the scanner's 64 KiB. *)

From stdpp Require Import prelude gmap strings list sorting.
From Stdlib Require Import ZArith Lia Ascii.
From S2P Require Import Prelude GoTime GoStrings.
From S2P Require FileNames.
Local Open Scope Z_scope.
Local Open Scope go_scope.

Record proc_files := mkProcFiles {
  f_stat : option string; f_schedstat : option string; f_io : option string;
  f_status : option string; f_smaps_rollup : option string;
}.

(** [io.LimitReader]. *)
Fixpoint LimitReader (n : Z) (s : string) : string :=
  match s with
  | EmptyString => EmptyString
  | String c s => if n <=? 0 then EmptyString else String c (LimitReader (n - 1) s)
  end.

(** ** Status and memory *)

Record ProcessStatus := mkProcessStatus {
  PeakRSSBytes : Z; CPUsAllowed : Z; RSSAnonBytes : Z; RSSFileBytes : Z; Threads : Z;
  st_VoluntarySwitches : Z; st_NonvoluntarySwitches : Z;
}.
Definition noStatus : ProcessStatus := mkProcessStatus 0 0 0 0 0 0 0.

Definition maxStatusBytes : Z := 64 * 1024.
Definition maxSmapsBytes : Z := 16 * 1024.
Definition maxCounterFileBytes : Z := 16 * 1024.

Definition countOf (value : string) : Z :=
  match ParseInt value with Some n => if n <? 0 then 0 else n | None => 0 end.

Definition peakBytes (value : string) : Z :=
  match Cut value " "%char with
  | None => 0
  | Some (number, unit_) =>
      if negb (bool_decide (TrimSpace unit_ = "kB"%string)) then 0
      else match ParseInt number with
           | None => 0
           | Some kb => if (kb <? 0) || (2 ^ 53 / 1024 <? kb) then 0 else kb * 1024
           end
  end.

(** [None] is the early return of zero. *)
Fixpoint cpu_spans (total : Z) (spans : list string) : option Z :=
  match spans with
  | [] => Some total
  | span :: spans =>
      if bool_decide (span = ""%string) then cpu_spans total spans
      else let '(lo, hi, ranged) := match Cut span "-"%char with
                                    | Some (lo, hi) => (lo, hi, true)
                                    | None => (span, ""%string, false)
                                    end in
           match ParseInt (TrimSpace lo) with
           | None => None
           | Some first =>
               if first <? 0 then None
               else if negb ranged then cpu_spans (total +w 1) spans
               else match ParseInt (TrimSpace hi) with
                    | None => None
                    | Some last => if last <? first then None else cpu_spans (total +w (last -w first +w 1)) spans
                    end
           end
  end.
Definition countCPUList (value : string) : Z := default 0 (cpu_spans 0 (SplitByte value ","%char)).

Definition set_status (out : ProcessStatus) (key value : string) : ProcessStatus :=
  let '(mkProcessStatus p c a f t v n) := out in
  if bool_decide (key = "VmHWM"%string) then mkProcessStatus (peakBytes value) c a f t v n
  else if bool_decide (key = "Cpus_allowed_list"%string) then mkProcessStatus p (countCPUList value) a f t v n
  else if bool_decide (key = "RssAnon"%string) then mkProcessStatus p c (peakBytes value) f t v n
  else if bool_decide (key = "RssFile"%string) then mkProcessStatus p c a (peakBytes value) t v n
  else if bool_decide (key = "Threads"%string) then
    match ParseInt value with
    | Some n' => if 0 <? n' then mkProcessStatus p c a f n' v n else out
    | None => out
    end
  else if bool_decide (key = "voluntary_ctxt_switches"%string) then mkProcessStatus p c a f t (countOf value) n
  else if bool_decide (key = "nonvoluntary_ctxt_switches"%string) then mkProcessStatus p c a f t v (countOf value)
  else out.

Definition status_line (out : ProcessStatus) (line : string) : ProcessStatus :=
  match Cut line ":"%char with
  | Some (key, value) => set_status out key (TrimSpace value)
  | None => out
  end.
Definition parseProcessStatus (text : string) : ProcessStatus := foldl status_line noStatus (Lines text).
Definition ReadProcessStatus (p : proc_files) : ProcessStatus :=
  match f_status p with Some text => parseProcessStatus (LimitReader maxStatusBytes text) | None => noStatus end.

Record ProcessMemory := mkProcessMemory { PSSBytes : Z; PrivateDirtyBytes : Z }.

Definition memory_line (out : ProcessMemory) (line : string) : ProcessMemory :=
  match Cut line ":"%char with
  | None => out
  | Some (key, value) =>
      let value := TrimSpace value in
      if bool_decide (key = "Pss"%string) then mkProcessMemory (peakBytes value) (PrivateDirtyBytes out)
      else if bool_decide (key = "Private_Dirty"%string) then mkProcessMemory (PSSBytes out) (peakBytes value)
      else out
  end.
Definition parseProcessMemory (text : string) : ProcessMemory :=
  foldl memory_line (mkProcessMemory 0 0) (Lines text).
Definition ReadProcessMemory (p : proc_files) : ProcessMemory :=
  match f_smaps_rollup p with
  | Some text => parseProcessMemory (LimitReader maxSmapsBytes text)
  | None => mkProcessMemory 0 0
  end.

(** ** One reading of the counters *)

Definition userHZ : Z := 100.
Definition nanosPerTick : Z := Second / userHZ.

Record ProcessCounters := mkCounters {
  OnCPUNanos : Z; RunDelayNanos : Z; CPUUserNanos : Z; CPUSystemNanos : Z; MajorFaults : Z;
  VoluntarySwitches : Z; NonvoluntarySwitches : Z; ReadBytes : Z; WriteBytes : Z;
}.

Definition readSmallFile (f : option string) : option string := LimitReader maxCounterFileBytes <$> f.

(** [at]: fields are counted from the third, the first after the name. *)
Definition stat_field (fields : list string) (field : nat) : option Z :=
  s ← fields !! (field - 3)%nat;
  n ← ParseInt s;
  if 0 <=? n then Some n else None.

(** The user time, the system time, the major faults and the start time. *)
Definition readProcStat (p : proc_files) : option (Z * Z * Z * Z) :=
  body ← readSmallFile (f_stat p);
  if negb (has_byte ")"%char body) then None
  else let fields := Fields (FileNames.after_last ")"%char body) in
       majflt ← stat_field fields 12;
       utime ← stat_field fields 14;
       stime ← stat_field fields 15;
       startTicks ← stat_field fields 22;
       Some (utime, stime, majflt, startTicks).

Definition readSchedStat (p : proc_files) : Z * Z :=
  match readSmallFile (f_schedstat p) with
  | None => (0, 0)
  | Some body =>
      match Fields body with
      | a :: b :: _ =>
          match ParseInt a, ParseInt b with
          | Some a, Some b => if (a <? 0) || (b <? 0) then (0, 0) else (a, b)
          | _, _ => (0, 0)
          end
      | _ => (0, 0)
      end
  end.

Definition io_line (out : Z * Z) (line : string) : Z * Z :=
  match Cut line ":"%char with
  | None => out
  | Some (key, value) =>
      match ParseInt (TrimSpace value) with
      | None => out
      | Some n =>
          if n <? 0 then out
          else if bool_decide (key = "read_bytes"%string) then (n, out.2)
          else if bool_decide (key = "write_bytes"%string) then (out.1, n)
          else out
      end
  end.
Definition readProcIO (p : proc_files) : Z * Z :=
  match f_io p with
  | None => (0, 0)
  | Some text => foldl io_line (0, 0) (Lines (LimitReader maxCounterFileBytes text))
  end.

(** The counters, and the start time that keys them. *)
Definition readProcessCounters (p : proc_files) (status : ProcessStatus) : option (ProcessCounters * Z) :=
  '(utime, stime, majflt, startTicks) ← readProcStat p;
  let '(onCPU, runDelay) := readSchedStat p in
  let '(read, written) := readProcIO p in
  Some (mkCounters onCPU runDelay (wrap64 (utime * nanosPerTick)) (wrap64 (stime * nanosPerTick)) majflt
          (st_VoluntarySwitches status) (st_NonvoluntarySwitches status) read written, startTicks).

(** ** The change between two passes *)

Record CounterDelta := mkDelta {
  ObservedNanos : Z;
  dOnCPUNanos : Z; dRunDelayNanos : Z; dCPUUserNanos : Z; dCPUSystemNanos : Z; dMajorFaults : Z;
  dVoluntarySwitches : Z; dNonvoluntarySwitches : Z; dReadBytes : Z; dWriteBytes : Z;
}.

Record reading := mkReading { rd_at : Time; rd_startTicks : Z; rd_counters : ProcessCounters }.
Record counterCache := mkCache { last : gmap Z reading; seen : gset Z }.
Definition newCounterCache : counterCache := mkCache ∅ ∅.

Definition minus (elapsed : Z) (cur prev : ProcessCounters) : CounterDelta :=
  mkDelta elapsed (OnCPUNanos cur -w OnCPUNanos prev) (RunDelayNanos cur -w RunDelayNanos prev)
    (CPUUserNanos cur -w CPUUserNanos prev) (CPUSystemNanos cur -w CPUSystemNanos prev)
    (MajorFaults cur -w MajorFaults prev) (VoluntarySwitches cur -w VoluntarySwitches prev)
    (NonvoluntarySwitches cur -w NonvoluntarySwitches prev) (ReadBytes cur -w ReadBytes prev)
    (WriteBytes cur -w WriteBytes prev).

Definition negative (d : CounterDelta) : bool :=
  (dOnCPUNanos d <? 0) || (dRunDelayNanos d <? 0) || (dCPUUserNanos d <? 0) || (dCPUSystemNanos d <? 0) ||
  (dMajorFaults d <? 0) || (dVoluntarySwitches d <? 0) || (dNonvoluntarySwitches d <? 0) ||
  (dReadBytes d <? 0) || (dWriteBytes d <? 0).

Definition delta (c : counterCache) (pid : Z) (now : Time) (p : proc_files) (status : ProcessStatus)
    : counterCache * option CounterDelta :=
  match readProcessCounters p status with
  | None => (c, None)
  | Some (cur, startTicks) =>
      let prev := last c !! pid in
      let c := mkCache (<[pid := mkReading now startTicks cur]> (last c)) ({[pid]} ∪ seen c) in
      match prev with
      | None => (c, None)
      | Some prev =>
          if negb (rd_startTicks prev =? startTicks) then (c, None)
          else let elapsed := Sub now (rd_at prev) in
               if elapsed <=? 0 then (c, None)
               else let d := minus elapsed cur (rd_counters prev) in
                    if negative d then (c, None) else (c, Some d)
      end
  end.

Definition startPass (c : counterCache) : counterCache := mkCache (last c) ∅.
Definition endPass (c : counterCache) : counterCache :=
  mkCache (filter (fun pr => pr.1 ∈ seen c) (last c)) (seen c).

(** ** Passes over a node

    A pass scans processes in some order; a scan emits the delta of the process
    it found, with the start time that names it. *)

Inductive op := Start | Scan (pid : Z) (now : Time) (p : proc_files) (status : ProcessStatus) | End_.

Definition cache_step (c : counterCache) (o : op) : counterCache * list (Z * Z * CounterDelta) :=
  match o with
  | Start => (startPass c, [])
  | End_ => (endPass c, [])
  | Scan pid now p status =>
      let '(c', d) := delta c pid now p status in
      (c', match d, readProcessCounters p status with
           | Some d, Some (_, start) => [(pid, start, d)]
           | _, _ => []
           end)
  end.
Definition cache_run (c : counterCache) (ops : list op) : counterCache * list (Z * Z * CounterDelta) :=
  foldl (fun out o => let '(c, ds) := cache_step out.1 o in (c, out.2 ++ ds)) (c, []) ops.

(** The successive readings of one process. *)
Definition reading_of (pid start : Z) (o : op) : option (Time * ProcessCounters) :=
  match o with
  | Scan q now p status =>
      if bool_decide (q = pid) then
        '(cur, s) ← readProcessCounters p status; if bool_decide (s = start) then Some (now, cur) else None
      else None
  | _ => None
  end.
Definition readings (pid start : Z) (ops : list op) : list (Time * ProcessCounters) := omap (reading_of pid start) ops.
Definition deltas_of (pid start : Z) (ds : list (Z * Z * CounterDelta)) : list CounterDelta :=
  omap (fun x => if bool_decide (x.1 = (pid, start)) then Some x.2 else None) ds.

(** Each counter with its change. *)
Definition counter_fields : list ((ProcessCounters -> Z) * (CounterDelta -> Z)) :=
  [(OnCPUNanos, dOnCPUNanos); (RunDelayNanos, dRunDelayNanos); (CPUUserNanos, dCPUUserNanos);
   (CPUSystemNanos, dCPUSystemNanos); (MajorFaults, dMajorFaults); (VoluntarySwitches, dVoluntarySwitches);
   (NonvoluntarySwitches, dNonvoluntarySwitches); (ReadBytes, dReadBytes); (WriteBytes, dWriteBytes)].

(** A process whose clock advances and whose counters only grow. *)
Definition grows (a b : Time * ProcessCounters) : Prop :=
  a.1 < b.1 /\ forall f, f ∈ counter_fields -> 0 <= f.1 a.2 <= f.1 b.2 /\ f.1 b.2 <= maxInt64.

Lemma minus_field elapsed cur prev f : f ∈ counter_fields -> f.2 (minus elapsed cur prev) = f.1 cur -w f.1 prev.
Proof. unfold counter_fields. intros Hf. repeat (apply elem_of_cons in Hf as [->|Hf]; [done|]). by apply elem_of_nil in Hf. Qed.

Lemma negative_spec d : negative d = false <-> forall f, f ∈ counter_fields -> 0 <= f.2 d.
Proof.
  rewrite <-(Forall_forall (fun f : (ProcessCounters -> Z) * _ => 0 <= f.2 d)).
  unfold negative, counter_fields. rewrite !orb_false_iff, !Z.ltb_ge, !Forall_cons, Forall_nil. cbn. tauto.
Qed.

Lemma cache_run_snoc c ops o :
  cache_run c (ops ++ [o]) =
  ((cache_step (cache_run c ops).1 o).1, (cache_run c ops).2 ++ (cache_step (cache_run c ops).1 o).2).
Proof. unfold cache_run. rewrite foldl_app. cbn. by destruct (cache_step _ o). Qed.

Lemma pass_readings_snoc pid start ops o :
  readings pid start (ops ++ [o]) =
  readings pid start ops ++ match reading_of pid start o with Some r => [r] | None => [] end.
Proof. unfold readings. rewrite omap_app. cbn. by destruct (reading_of pid start o). Qed.

Lemma deltas_of_app pid start l k : deltas_of pid start (l ++ k) = deltas_of pid start l ++ deltas_of pid start k.
Proof. apply omap_app. Qed.

(** What a scan does to the cache and emits, process by process. *)
Lemma delta_emits c pid now p status c' d :
  delta c pid now p status = (c', Some d) ->
  exists cur start prev, readProcessCounters p status = Some (cur, start) /\ last c !! pid = Some prev /\
    rd_startTicks prev = start /\ 0 < Sub now (rd_at prev) /\ d = minus (Sub now (rd_at prev)) cur (rd_counters prev) /\
    negative d = false.
Proof.
  unfold delta. destruct (readProcessCounters p status) as [[cur start]|]; [|done].
  destruct (last c !! pid) as [prev|] eqn:Hp; [|done].
  destruct (Z.eqb_spec (rd_startTicks prev) start) as [Hs|]; cbn [negb]; [|done].
  destruct (Z.leb_spec (Sub now (rd_at prev)) 0); [done|].
  destruct (negative _) eqn:Hn; [done|]. intros [= _ <-]. exists cur, start, prev. done.
Qed.

Lemma delta_cache c pid now p status cur start :
  readProcessCounters p status = Some (cur, start) ->
  (delta c pid now p status).1 = mkCache (<[pid := mkReading now start cur]> (last c)) ({[pid]} ∪ seen c).
Proof. unfold delta. intros ->. by repeat case_match. Qed.

Lemma delta_exact c pid now p status cur start prev :
  readProcessCounters p status = Some (cur, start) -> last c !! pid = Some (mkReading prev.1 start prev.2) ->
  grows prev (now, cur) -> now - prev.1 <= maxInt64 ->
  (delta c pid now p status).2 = Some (minus (now - prev.1) cur prev.2).
Proof.
  intros Hr Hl [Ht Hg] Hm. cbn [fst snd] in *. unfold delta. rewrite Hr, Hl. cbn [rd_startTicks rd_at rd_counters].
  rewrite Z.eqb_refl. cbn [negb]. assert (Sub now prev.1 = now - prev.1) as -> by (unfold Sub; go_lia).
  rewrite (proj2 (Z.leb_gt _ _)) by lia. rewrite (proj2 (negative_spec _)); [done|].
  intros f Hf. rewrite minus_field by done. specialize (Hg f Hf). rewrite wrap64_id by go_lia. lia.
Qed.

Lemma delta_unreadable c pid now p status :
  readProcessCounters p status = None -> delta c pid now p status = (c, None).
Proof. unfold delta. by intros ->. Qed.

(** ** No interval is counted twice *)

Section process.
Context (pid start : Z).

(** Each delta lies between two readings, and begins no sooner than the one
    before it ends. *)
Definition over_span (s : (Time * ProcessCounters) * (Time * ProcessCounters)) : CounterDelta :=
  minus (Sub s.2.1 s.1.1) s.2.2 s.1.2.
Definition spanned (rs : list (Time * ProcessCounters)) (ds : list CounterDelta) : Prop :=
  exists spans, ds = over_span <$> spans /\ Forall (fun s => s.1 ∈ rs /\ s.2 ∈ rs /\ s.1.1 < s.2.1) spans /\
    StronglySorted (fun a b => a.2.1 <= b.1.1) spans.

Lemma spanned_more rs r ds : spanned rs ds -> spanned (rs ++ [r]) ds.
Proof.
  intros (spans & -> & Hs & Ha). exists spans. split; [done|]. split; [|done].
  eapply Forall_impl; [exact Hs|]. intros s (H1 & H2 & H3). rewrite !elem_of_app. tauto.
Qed.

Lemma spanned_snoc rs latest r ds :
  spanned rs ds -> StronglySorted grows rs -> list.last rs = Some latest -> latest.1 < r.1 ->
  spanned (rs ++ [r]) (ds ++ [over_span (latest, r)]).
Proof.
  intros (spans & -> & Hs & Ha) Hm Hl Hr. exists (spans ++ [(latest, r)]). split; [by rewrite fmap_app|].
  rewrite Forall_forall in Hs. split.
  - apply Forall_app. split; [|constructor; [|constructor]].
    + apply Forall_forall. intros s (H1 & H2 & H3)%Hs. rewrite !elem_of_app. tauto.
    + cbn. rewrite !elem_of_app. apply last_Some_elem_of in Hl. split; [by left|]. split; [right; left|done].
  - assert (Hle : forall x, x ∈ rs -> x.1 <= latest.1).
    { intros x Hx. apply last_Some in Hl as [l' ->]. apply elem_of_app in Hx as [Hx| ->%list_elem_of_singleton]; [|done].
      assert (Hg : grows x latest) by (apply (StronglySorted_app_1_elem_of _ l' [latest]); [done|done|by left]).
      destruct Hg. lia. }
    clear - Hs Ha Hle. induction Ha as [|a spans Ha IH Hf]; cbn; [by repeat constructor|].
    constructor; [apply IH; intros s Hin; apply Hs; by right|]. apply Forall_app. split; [done|]. constructor; [|constructor].
    cbn. apply Hle. by apply (Hs a); left.
Qed.

(** What the cache and the emitted deltas [ds] say of the readings [rs]. *)
Definition accounted (rs : list (Time * ProcessCounters)) (c : counterCache) (ds : list CounterDelta) : Prop :=
  (forall prev, last c !! pid = Some prev -> rd_startTicks prev = start ->
     list.last rs = Some (rd_at prev, rd_counters prev)) /\
  Forall (fun d => 0 < ObservedNanos d /\ forall f, f ∈ counter_fields -> 0 <= f.2 d) ds /\
  spanned rs ds /\
  match head rs, list.last rs with
  | Some first, Some latest =>
      list_sum ObservedNanos ds <= latest.1 - first.1 /\
      forall f, f ∈ counter_fields -> list_sum f.2 ds <= f.1 latest.2 - f.1 first.2
  | _, _ => ds = []
  end.

Lemma accounted_same rs c c' ds :
  accounted rs c ds -> (forall prev, last c' !! pid = Some prev -> rd_startTicks prev = start -> last c !! pid = Some prev) ->
  accounted rs c' ds.
Proof. intros (Hc & Hd & Hs) Hl. split; [|done]. intros prev Hp Ht. by apply Hc, Ht; apply Hl. Qed.

Lemma Sub_le a b : 0 < Sub a b -> Sub a b <= a - b.
Proof. unfold Sub. go_lia. Qed.

Lemma last_snoc {A} (l : list A) x : list.last (l ++ [x]) = Some x.
Proof. by rewrite list.last_snoc. Qed.

(** One more reading of the process, with or without a delta. *)
Lemma accounted_reading rs c ds now cur c' out :
  accounted rs c ds -> StronglySorted grows (rs ++ [(now, cur)]) ->
  last c' !! pid = Some (mkReading now start cur) ->
  (forall d, d ∈ out -> exists prev, last c !! pid = Some prev /\ rd_startTicks prev = start /\
     0 < Sub now (rd_at prev) /\ d = minus (Sub now (rd_at prev)) cur (rd_counters prev) /\ negative d = false) ->
  (length out <= 1)%nat -> accounted (rs ++ [(now, cur)]) c' (ds ++ out).
Proof.
  intros (Hc & Hd & Hsp & Hs) Hm Hl Hout Hlen. split; [|split; [|split]].
  - intros prev Hp _. rewrite Hl in Hp. injection Hp as <-. by rewrite last_snoc.
  - apply Forall_app. split; [done|]. apply Forall_forall. intros d (prev & _ & _ & Ht & -> & Hn)%Hout.
    split; [done|]. by apply negative_spec.
  - destruct out as [|d [|? ?]]; [rewrite app_nil_r; by apply spanned_more| |cbn in Hlen; lia].
    destruct (Hout d ltac:(by left)) as (prev & Hp & Hst & Hpos & -> & _).
    apply (spanned_snoc rs (rd_at prev, rd_counters prev) (now, cur) ds); [done| |by apply Hc|cbn; unfold Sub in Hpos; go_lia].
    by eapply StronglySorted_app_1_l.
  - rewrite last_snoc. destruct (decide (rs = [])) as [->|Hne].
    { cbn in *. subst ds. destruct out as [|d out]; [split; [cbn; lia|intros f Hf; cbn; lia]|].
      destruct (Hout d ltac:(by left)) as (prev & Hp & Hst & _). by specialize (Hc prev Hp Hst). }
    destruct rs as [|first rest]; [done|]. cbn [app head] in *.
    destruct (list.last (first :: rest)) as [latest|] eqn:Hlast; [|by apply last_None in Hlast].
    assert (grows latest (now, cur)) as [Ht Hg].
    { apply (StronglySorted_app_1_elem_of _ (first :: rest) [(now, cur)]); [done| |by left].
      by apply last_Some_elem_of in Hlast. }
    destruct Hs as [Hobs Hsum]. cbn [fst snd] in *.
    destruct out as [|d [|? ?]]; [rewrite app_nil_r; split; [lia|intros f Hf]| |cbn in Hlen; lia].
    { specialize (Hsum f Hf). specialize (Hg f Hf). lia. }
    destruct (Hout d ltac:(by left)) as (prev & Hp & Hst & Hpos & -> & Hn).
    specialize (Hc prev Hp Hst). injection Hc as ->. cbn [fst snd] in *. rewrite list_sum_app. cbn [list_sum foldr].
    split; [pose proof (Sub_le _ _ Hpos); cbn [ObservedNanos minus]; lia|]. intros f Hf. rewrite list_sum_app. cbn [list_sum foldr].
    rewrite minus_field by done. specialize (Hsum f Hf). specialize (Hg f Hf). rewrite wrap64_id by go_lia. lia.
Qed.

Lemma accounted_step ops o c ds :
  accounted (readings pid start ops) c (deltas_of pid start ds) ->
  StronglySorted grows (readings pid start (ops ++ [o])) ->
  accounted (readings pid start (ops ++ [o])) (cache_step c o).1 (deltas_of pid start (ds ++ (cache_step c o).2)).
Proof.
  intros Ha Hm. rewrite pass_readings_snoc, deltas_of_app in *.
  destruct o as [|q now p status|]; cbn [cache_step reading_of fst snd] in *.
  - rewrite !app_nil_r. by apply (accounted_same _ c).
  - destruct (readProcessCounters p status) as [[cur s]|] eqn:Hr.
    2: { rewrite (delta_unreadable _ _ _ _ _ Hr). case_bool_decide; cbn; by rewrite !app_nil_r. }
    destruct (delta c q now p status) as [c' d] eqn:Hd. cbn [fst snd].
    pose proof (f_equal last (delta_cache c q now p status cur s Hr)) as Hl. rewrite Hd in Hl. cbn [fst last] in Hl.
    destruct (decide ((q, s) = (pid, start))) as [[= -> ->]|Hne].
    + rewrite !bool_decide_eq_true_2 in * by done. cbn [mbind option_bind] in *.
      rewrite !bool_decide_eq_true_2 in * by done.
      apply (accounted_reading _ c); [done|done|by rewrite Hl, lookup_insert_eq| |by destruct d; cbn; [case_bool_decide|]; cbn; lia].
      intros d' Hd'. destruct d as [d|]; cbn in Hd'; [|by apply elem_of_nil in Hd'].
      rewrite bool_decide_eq_true_2 in Hd' by done. apply list_elem_of_singleton in Hd' as ->.
      apply delta_emits in Hd as (cur' & start' & prev & Hr' & ? & ? & ? & ? & ?).
      rewrite Hr in Hr'. injection Hr' as <- <-. by exists prev.
    + assert (deltas_of pid start (match d with Some d => [(q, s, d)] | None => [] end) = []) as ->
        by (destruct d; cbn; [by rewrite bool_decide_eq_false_2|done]).
      assert ((if bool_decide (q = pid) then '(cur0, s0) ← Some (cur, s); if bool_decide (s0 = start) then Some (now, cur0) else None
               else None) = None) as Hn.
      { case_bool_decide as Hq; [|done]. cbn. rewrite bool_decide_eq_false_2; [done|]. intros ->. by subst q. }
      rewrite Hn, !app_nil_r in *. apply (accounted_same _ c); [done|]. rewrite Hl. intros prev Hp Hst.
      destruct (decide (q = pid)) as [->|Hq]; [|by rewrite lookup_insert_ne in Hp].
      rewrite lookup_insert_eq in Hp. injection Hp as <-. cbn in Hst. by subst s.
  - rewrite !app_nil_r. apply (accounted_same _ c); [done|]. intros prev Hp _.
    by apply map_lookup_filter_Some in Hp as [Hp _].
Qed.
End process.

Lemma accounted_run pid start ops :
  StronglySorted grows (readings pid start ops) ->
  accounted pid start (readings pid start ops) (cache_run newCounterCache ops).1
    (deltas_of pid start (cache_run newCounterCache ops).2).
Proof.
  induction ops as [|o ops IH] using rev_ind; intros Hm.
  { split; [done|]. split; [constructor|]. split; [|done]. exists []. by repeat constructor. }
  rewrite cache_run_snoc. cbn [fst snd]. apply accounted_step; [|done]. apply IH.
  rewrite pass_readings_snoc in Hm. eapply StronglySorted_app_1_l. exact Hm.
Qed.

(** The process as the kernel has it: counters that only grow, as far as 64 bits
    say them. *)
Definition only_grows (real : Time -> ProcessCounters) : Prop :=
  forall a b f, a <= b -> f ∈ counter_fields -> 0 <= f.1 (real a) <= f.1 (real b) /\ f.1 (real b) <= maxInt64.

(** Every reading of the process is of what the kernel had: whenever its [stat]
    could be read its other counter files could be as well. *)
Definition read_whole (real : Time -> ProcessCounters) (pid start : Z) (ops : list op) : Prop :=
  Forall (fun r => r.2 = real r.1) (readings pid start ops).

Lemma grows_real real rs :
  only_grows real -> Forall (fun r => r.2 = real r.1) rs -> StronglySorted (fun a b => a.1 < b.1) rs ->
  StronglySorted grows rs.
Proof.
  intros Hr Hw. induction 1 as [|r rs Hs IH Hf]; [constructor|]. apply Forall_cons in Hw as [Hw Hws].
  constructor; [by apply IH|]. rewrite Forall_forall in *. intros r' Hin. split; [by apply Hf|].
  intros f Hin'. rewrite Hw, (Hws r' Hin). apply Hr; [specialize (Hf r' Hin); cbn in Hf; lia|done].
Qed.

(** C13. What the node ships of a process's counters is never counted twice and
    never negative.  Take a process whose counters only grow, scanned at
    increasing instants, whose [schedstat], [io] and [status] could be read
    whenever its [stat] could.  Whatever passes are made, whichever of them miss
    it and whatever PIDs are reused, each delta emitted for it is exactly what it
    did between two of its readings, the second after the first, no delta begins
    before the one before it ended, none is negative, and all of them together
    stay within what it did between its first and its last reading; no reading
    of another process under the same PID enters.  Without the proviso it fails:
    [unreadable_io_reports_a_lifetime]. *)
Theorem deltas_never_overlap (ops : list op) (pid start : Z) (real : Time -> ProcessCounters) :
  only_grows real -> read_whole real pid start ops ->
  StronglySorted (fun a b => a.1 < b.1) (readings pid start ops) ->
  let ds := deltas_of pid start (cache_run newCounterCache ops).2 in
  (exists spans : list (Time * Time), ds = (fun s => minus (Sub s.2 s.1) (real s.2) (real s.1)) <$> spans /\
     Forall (fun s => s.1 ∈ (readings pid start ops).*1 /\ s.2 ∈ (readings pid start ops).*1 /\ s.1 < s.2) spans /\
     StronglySorted (fun a b => a.2 <= b.1) spans) /\
  Forall (fun d => 0 < ObservedNanos d /\ forall f, f ∈ counter_fields -> 0 <= f.2 d) ds /\
  match head (readings pid start ops).*1, list.last (readings pid start ops).*1 with
  | Some first, Some latest =>
      list_sum ObservedNanos ds <= latest - first /\
      forall f, f ∈ counter_fields -> list_sum f.2 ds <= f.1 (real latest) - f.1 (real first)
  | _, _ => ds = []
  end.
Proof.
  intros Hr Hw Ho ds. destruct (accounted_run pid start ops (grows_real real _ Hr Hw Ho)) as (_ & Hd & Hs & Hsum).
  fold ds in Hd, Hs, Hsum. unfold read_whole in Hw. rewrite Forall_forall in Hw. split; [|split; [done|]].
  - destruct Hs as (spans & -> & Hin & Ha). exists ((fun s => (s.1.1, s.2.1)) <$> spans). rewrite Forall_forall in Hin.
    split; [|split].
    + rewrite <-list_fmap_compose. apply list_fmap_ext. intros i s Hi. apply list_elem_of_lookup_2 in Hi.
      destruct (Hin s Hi) as (H1 & H2 & _). unfold over_span. cbn. by rewrite (Hw _ H1), (Hw _ H2).
    + apply Forall_fmap, Forall_forall. intros s Hi. destruct (Hin s Hi) as (H1 & H2 & H3). cbn.
      split_and!; [by apply list_elem_of_fmap_2|by apply list_elem_of_fmap_2|done].
    + clear -Ha. induction Ha as [|a l _ IH Hf]; cbn; constructor; [done|]. apply Forall_fmap. exact Hf.
  - rewrite fmap_last. destruct (readings pid start ops) as [|a rs]; [done|]. cbn [head fmap list_fmap] in *.
    destruct (list.last (a :: rs)) as [z|] eqn:Hl; [|done]. cbn. destruct Hsum as [Hobs Hsum].
    split; [done|]. intros f Hf. specialize (Hsum f Hf). rewrite (Hw a), (Hw z) in Hsum; [done| |by left].
    by apply last_Some_elem_of in Hl.
Qed.

(** ** Nothing is lost while a process is read in every pass *)

Definition scan : Type := Z * Time * proc_files * ProcessStatus.
Definition scan_op (s : scan) : op := Scan s.1.1.1 s.1.1.2 s.1.2 s.2.
Definition pass_ops (scans : list scan) : list op := Start :: (scan_op <$> scans) ++ [End_].
Definition passes_ops (passes : list (list scan)) : list op := passes ≫= pass_ops.

(** The pass scans [pid] exactly once, and reads the process [start] there. *)
Definition reads_once (pid start : Z) (scans : list scan) : Prop :=
  exists before s after r, scans = before ++ s :: after /\
    s.1.1.1 = pid /\ reading_of pid start (scan_op s) = Some r /\
    Forall (fun s => s.1.1.1 <> pid) (before ++ after).

Lemma cache_run_app c ops ops' :
  cache_run c (ops ++ ops') =
  ((cache_run (cache_run c ops).1 ops').1, (cache_run c ops).2 ++ (cache_run (cache_run c ops).1 ops').2).
Proof.
  induction ops' as [|o ops' IH] using rev_ind; [rewrite !app_nil_r; by destruct (cache_run c ops)|].
  rewrite app_assoc, !cache_run_snoc, IH. cbn [fst snd]. by rewrite app_assoc.
Qed.

Section steady.
Context (pid start : Z).

Lemma others_keep c scans :
  Forall (fun s : scan => s.1.1.1 <> pid) scans ->
  last (cache_run c (scan_op <$> scans)).1 !! pid = last c !! pid /\
  (pid ∈ seen c -> pid ∈ seen (cache_run c (scan_op <$> scans)).1) /\
  deltas_of pid start (cache_run c (scan_op <$> scans)).2 = [] /\
  readings pid start (scan_op <$> scans) = [].
Proof.
  induction scans as [|s scans IH] using rev_ind; [done|]. intros [H Hs]%Forall_app.
  destruct (IH H) as (Hl & Hsn & Hd & Hr). rewrite fmap_app. cbn [fmap list_fmap].
  rewrite cache_run_snoc, pass_readings_snoc, Hr. cbn [fst snd]. rewrite deltas_of_app, Hd. apply Forall_inv in Hs.
  destruct s as [[[q now] p] status]. unfold scan_op in *. cbn [fst snd cache_step reading_of] in *.
  rewrite bool_decide_eq_false_2 by done.
  destruct (readProcessCounters p status) as [[cur st]|] eqn:He.
  2: { rewrite (delta_unreadable _ _ _ _ _ He). by split_and!. }
  pose proof (delta_cache (cache_run c (scan_op <$> scans)).1 q now p status cur st He) as Hc.
  destruct (delta _ q now p status) as [c' d]. cbn [fst snd] in *. subst c'. cbn [last seen].
  rewrite lookup_insert_ne, elem_of_union by done. split_and!; [done|tauto| |done].
  destruct d; [|done]. cbn. by rewrite bool_decide_eq_false_2 by congruence.
Qed.

(** The cache after a pass that read the process. *)
Definition holds (c : counterCache) (r : Time * ProcessCounters) : Prop :=
  last c !! pid = Some (mkReading r.1 start r.2).

Lemma pass_reads c scans :
  reads_once pid start scans ->
  exists r, readings pid start (pass_ops scans) = [r] /\ holds (cache_run c (pass_ops scans)).1 r /\
    (last c !! pid = None -> deltas_of pid start (cache_run c (pass_ops scans)).2 = []) /\
    forall prev, holds c prev -> grows prev r -> r.1 - prev.1 <= maxInt64 ->
      deltas_of pid start (cache_run c (pass_ops scans)).2 = [minus (r.1 - prev.1) r.2 prev.2].
Proof.
  intros (before & s & after & r & -> & Hq & Hr & [Hb Hf]%Forall_app). exists r.
  unfold pass_ops. rewrite fmap_app. cbn [fmap list_fmap].
  replace (Start :: ((scan_op <$> before) ++ scan_op s :: (scan_op <$> after)) ++ [End_])
    with ([Start] ++ (scan_op <$> before) ++ [scan_op s] ++ (scan_op <$> after) ++ [End_])
    by (cbn; by rewrite <-app_assoc).
  set (c0 := (cache_run c [Start]).1). destruct (others_keep c0 before Hb) as (Hl1 & _ & Hd1 & Hr1).
  set (c1 := (cache_run c0 (scan_op <$> before)).1) in *.
  destruct s as [[[q now] p] status]. cbn [fst] in Hq. subst q.
  unfold scan_op at 1 in Hr. cbn [fst snd reading_of] in Hr. rewrite bool_decide_eq_true_2 in Hr by done.
  apply bind_Some in Hr as ([cur st] & Hread & Hr). case_bool_decide as Hst; [subst st|done]. injection Hr as <-.
  pose proof (delta_cache c1 pid now p status cur start Hread) as Hc2.
  set (c2 := (cache_run c1 [scan_op (pid, now, p, status)]).1).
  assert (c2 = (delta c1 pid now p status).1) as Hc by (unfold c2; cbn; by destruct (delta _ _ _ _ _)).
  destruct (others_keep c2 after Hf) as (Hl3 & Hs3 & Hd3 & Hr3). split_and!.
  - unfold readings in *. rewrite !omap_app, Hr1, Hr3. cbn. rewrite bool_decide_eq_true_2, Hread by done. cbn.
    by rewrite bool_decide_eq_true_2.
  - unfold holds. rewrite !cache_run_app. cbn [fst]. fold c0 c1 c2. cbn. apply map_lookup_filter_Some. cbn [fst].
    rewrite Hl3. split; [rewrite Hc, Hc2; cbn [last]; by rewrite lookup_insert_eq|].
    apply Hs3. rewrite Hc, Hc2. cbn [seen]. set_solver.
  - intros Hn. rewrite !cache_run_app. cbn [fst snd]. fold c0 c1 c2. rewrite !deltas_of_app, Hd1, Hd3.
    change (last c0) with (last c) in Hl1. rewrite <-Hl1 in Hn.
    assert ((delta c1 pid now p status).2 = None) as Hd2 by (unfold delta; by rewrite Hread, Hn).
    cbn. destruct (delta c1 pid now p status) as [c' d]. cbn [snd] in Hd2. by subst d.
  - intros prev Hp Hg Ht. rewrite !cache_run_app. cbn [fst snd]. fold c0 c1 c2.
    rewrite !deltas_of_app, Hd1, Hd3. unfold holds in Hp. change (last c0) with (last c) in Hl1. rewrite <-Hl1 in Hp.
    pose proof (delta_exact c1 pid now p status cur start prev Hread Hp Hg Ht) as Hd2.
    cbn. destruct (delta c1 pid now p status) as [c' d]. cbn [snd] in Hd2. subst d. rewrite Hread. cbn.
    by rewrite bool_decide_eq_true_2.
Qed.

(** The readings of a process, and what was emitted of it, add up. *)
Definition tallied (rs : list (Time * ProcessCounters)) (c : counterCache) (ds : list CounterDelta) : Prop :=
  match head rs, list.last rs with
  | Some first, Some latest =>
      holds c latest /\ list_sum ObservedNanos ds = latest.1 - first.1 /\
      forall f, f ∈ counter_fields -> list_sum f.2 ds = f.1 latest.2 - f.1 first.2
  | _, _ => last c !! pid = None /\ ds = []
  end.

Lemma passes_read passes :
  Forall (reads_once pid start) passes ->
  let rs := readings pid start (passes_ops passes) in
  StronglySorted grows rs -> (forall r r', r ∈ rs -> r' ∈ rs -> r'.1 - r.1 <= maxInt64) ->
  tallied rs (cache_run newCounterCache (passes_ops passes)).1
    (deltas_of pid start (cache_run newCounterCache (passes_ops passes)).2).
Proof.
  induction passes as [|pass passes IH] using rev_ind; [done|]. intros [Hps Hp]%Forall_app. apply Forall_inv in Hp.
  specialize (IH Hps). unfold passes_ops in *. rewrite bind_app. cbn [mbind list_bind]. rewrite app_nil_r.
  rewrite cache_run_app. cbn [fst snd]. rewrite deltas_of_app. cbn zeta in *.
  destruct (pass_reads (cache_run newCounterCache (passes ≫= pass_ops)).1 pass Hp) as (r & Hr & Hh & Hd0 & Hd).
  assert (readings pid start ((passes ≫= pass_ops) ++ pass_ops pass) =
    readings pid start (passes ≫= pass_ops) ++ [r]) as -> by (unfold readings in *; by rewrite omap_app, Hr).
  intros Hm Hb. specialize (IH (StronglySorted_app_1_l _ _ _ Hm)).
  specialize (IH ltac:(intros x y Hx Hy; apply Hb; apply elem_of_app; by left)).
  unfold tallied in *. rewrite last_snoc.
  destruct (readings pid start (passes ≫= pass_ops)) as [|first rest] eqn:Hrs.
  { destruct IH as [Hn Hds]. cbn [app head]. rewrite Hds, (Hd0 Hn). cbn. split; [done|]. split; [lia|]. intros; lia. }
  cbn [app head] in *. destruct (list.last (first :: rest)) as [latest|] eqn:Hlast; [|by apply last_None in Hlast].
  destruct IH as (Hc & Hobs & Hsum).
  assert (latest ∈ first :: rest) as Hin by by apply last_Some_elem_of in Hlast.
  assert (grows latest r) as Hg by (apply (StronglySorted_app_1_elem_of _ (first :: rest) [r]); [done|done|by left]).
  rewrite (Hd latest Hc Hg) by (apply Hb; apply (elem_of_app (first :: rest)); [by left|by right; left]).
  split; [done|]. rewrite list_sum_app, Hobs. cbn [list_sum foldr ObservedNanos minus]. split; [lia|].
  intros f Hf. rewrite list_sum_app, Hsum by done. cbn [list_sum foldr]. rewrite minus_field by done.
  destruct Hg as [_ Hg]. specialize (Hg f Hf). rewrite wrap64_id by go_lia. lia.
Qed.
End steady.

(** Nothing is lost of a process that every pass reads: its deltas add up,
    in time and in every counter, to exactly what lies between its first and its
    last reading, whatever else the passes scan and in whatever order. *)
Theorem steady_process_is_covered (passes : list (list scan)) (pid start : Z) (first latest : Time * ProcessCounters) :
  Forall (reads_once pid start) passes ->
  let rs := readings pid start (passes_ops passes) in
  StronglySorted grows rs -> (forall r r', r ∈ rs -> r' ∈ rs -> r'.1 - r.1 <= maxInt64) ->
  head rs = Some first -> list.last rs = Some latest ->
  let ds := deltas_of pid start (cache_run newCounterCache (passes_ops passes)).2 in
  list_sum ObservedNanos ds = latest.1 - first.1 /\
  forall f, f ∈ counter_fields -> list_sum f.2 ds = f.1 latest.2 - f.1 first.2.
Proof.
  intros Hp rs Hm Hb Hf Hl ds. pose proof (passes_read pid start passes Hp Hm Hb) as H.
  unfold tallied in H. fold rs in H. rewrite Hf, Hl in H. by destruct H as [_ H].
Qed.

(** ** A process with a parenthesis in its name *)

Definition demo_stat (majflt utime stime : string) : string :=
  "42 (app (x)) S 1 42 42 0 -1 4194560 100 0 " +:+ majflt +:+ " 0 " +:+ utime +:+ " " +:+ stime +:+
  " 0 0 20 0 7 0 9000 123 456".
Definition line_feed : string := String newline_byte EmptyString.
Definition demo_io (read_ written : string) : string :=
  "rchar: 99" +:+ line_feed +:+ "read_bytes: " +:+ read_ +:+ line_feed +:+ "write_bytes: " +:+ written +:+ line_feed.
Definition demo_files (utime onCPU : string) (io : option string) : proc_files :=
  mkProcFiles (Some (demo_stat "3" utime "120")) (Some (onCPU +:+ " 77 12")) io
    (Some ("Name: app" +:+ line_feed +:+ "voluntary_ctxt_switches: 8" +:+ line_feed)) None.
Definition demo_scan (at_ : Time) (utime onCPU : string) (io : option string) : scan :=
  let p := demo_files utime onCPU io in (42, at_, p, ReadProcessStatus p).

Example demo_counters :
  readProcessCounters (demo_files "250" "5000" (Some (demo_io "4096" "512")))
    (ReadProcessStatus (demo_files "250" "5000" None)) =
  Some (mkCounters 5000 77 2500000000 1200000000 3 8 0 4096 512, 9000).
Proof. vm_compute. reflexivity. Qed.

Definition demo_passes : list (list scan) :=
  [[demo_scan 1000 "250" "5000" (Some (demo_io "4096" "512"))];
   [demo_scan 3000 "260" "6000" (Some (demo_io "5096" "512"))]].

Definition demo_first : Time * ProcessCounters := (1000, mkCounters 5000 77 2500000000 1200000000 3 8 0 4096 512).
Definition demo_latest : Time * ProcessCounters := (3000, mkCounters 6000 77 2600000000 1200000000 3 8 0 5096 512).
Lemma demo_readings : readings 42 9000 (passes_ops demo_passes) = [demo_first; demo_latest].
Proof. vm_compute. reflexivity. Defined.

Lemma demo_sorted : StronglySorted grows (readings 42 9000 (passes_ops demo_passes)).
Proof.
  rewrite demo_readings. constructor; [repeat constructor|]. constructor; [|constructor]. split; [reflexivity|].
  apply Forall_forall. unfold counter_fields. repeat (constructor; [cbn; go_lia|]). constructor.
Defined.

Definition demo_real (t : Time) : ProcessCounters :=
  if t <? 3000 then demo_first.2 else demo_latest.2.
Lemma demo_only_grows : only_grows demo_real.
Proof.
  intros a b f Hab. revert f. rewrite <-Forall_forall. unfold demo_real, counter_fields.
  destruct (Z.ltb_spec a 3000), (Z.ltb_spec b 3000); try lia; repeat (constructor; [cbn; go_lia|]); constructor.
Defined.

Lemma deltas_never_overlap_witness :
  let ds := deltas_of 42 9000 (cache_run newCounterCache (passes_ops demo_passes)).2 in
  list_sum dReadBytes ds <= 1000 /\ dReadBytes <$> ds = [1000].
Proof.
  destruct (deltas_never_overlap (passes_ops demo_passes) 42 9000 demo_real demo_only_grows) as (_ & _ & H).
  - unfold read_whole. rewrite demo_readings. repeat constructor.
  - rewrite demo_readings. repeat constructor.
  - rewrite demo_readings in H. destruct H as [_ H]. split; [|vm_compute; reflexivity].
    exact (H (ReadBytes, dReadBytes) ltac:(do 7 right; by left)).
Defined.

Lemma steady_process_is_covered_witness :
  list_sum dOnCPUNanos (deltas_of 42 9000 (cache_run newCounterCache (passes_ops demo_passes)).2) = 1000 /\
  list_sum ObservedNanos (deltas_of 42 9000 (cache_run newCounterCache (passes_ops demo_passes)).2) = 2000.
Proof.
  destruct (steady_process_is_covered demo_passes 42 9000
    demo_first demo_latest) as [Ho Hf].
  - repeat constructor.
    + exists [], (demo_scan 1000 "250" "5000" (Some (demo_io "4096" "512"))), []. eexists.
      split; [reflexivity|]. split; [reflexivity|]. split; [vm_compute; reflexivity|constructor].
    + exists [], (demo_scan 3000 "260" "6000" (Some (demo_io "5096" "512"))), []. eexists.
      split; [reflexivity|]. split; [reflexivity|]. split; [vm_compute; reflexivity|constructor].
  - exact demo_sorted.
  - rewrite demo_readings. intros r r' Hr Hr'.
    repeat (apply elem_of_cons in Hr as [->|Hr]); [| |by apply elem_of_nil in Hr];
      (repeat (apply elem_of_cons in Hr' as [->|Hr']); [| |by apply elem_of_nil in Hr']); cbn; go_lia.
  - rewrite demo_readings. reflexivity.
  - rewrite demo_readings. reflexivity.
  - split; [exact (Hf (OnCPUNanos, dOnCPUNanos) ltac:(by left))|exact Ho].
Defined.

(** ** A file that could not be read once

    [readProcIO] answers zero when [io] cannot be opened, and the zero is kept as
    the reading: the next pass that can open it reports all the process ever
    read and wrote as the change of one interval. *)
Lemma unreadable_io_reports_a_lifetime (read_ written : Z) (now later : Time) (p q : proc_files) cur cur' start :
  f_io p = None -> now < later -> later - now <= maxInt64 ->
  readProcessCounters p (ReadProcessStatus p) = Some (cur, start) ->
  readProcessCounters q (ReadProcessStatus q) = Some (cur', start) ->
  grows (now, cur) (later, cur') -> readProcIO q = (read_, written) ->
  exists d, deltas_of 42 start (cache_run newCounterCache
    [Start; Scan 42 now p (ReadProcessStatus p); End_; Start; Scan 42 later q (ReadProcessStatus q)]).2 = [d] /\
    dReadBytes d = read_ /\ dWriteBytes d = written /\ ObservedNanos d = later - now.
Proof.
  intros Hio Ht Hm Hp Hq Hg Hrw.
  assert (ReadBytes cur = 0 /\ WriteBytes cur = 0) as [Hr0 Hw0].
  { unfold readProcessCounters in Hp. apply bind_Some in Hp as ([[[u s] m] st] & _ & Hp).
    destruct (readSchedStat p). unfold readProcIO in Hp. rewrite Hio in Hp. by injection Hp as <- _. }
  assert (ReadBytes cur' = read_ /\ WriteBytes cur' = written) as [Hr1 Hw1].
  { unfold readProcessCounters in Hq. apply bind_Some in Hq as ([[[u s] m] st] & _ & Hq).
    destruct (readSchedStat q). rewrite Hrw in Hq. by injection Hq as <- _. }
  destruct (delta (startPass newCounterCache) 42 now p (ReadProcessStatus p)) as [c0 d0] eqn:He.
  assert (d0 = None) as -> by (unfold delta in He; rewrite Hp in He; cbn [startPass newCounterCache last] in He;
    rewrite lookup_empty in He; congruence).
  pose proof (delta_cache (startPass newCounterCache) 42 now p _ cur start Hp) as Hc. rewrite He in Hc. cbn [fst] in Hc.
  assert (last (startPass (endPass c0)) !! 42 = Some (mkReading now start cur)) as Hl.
  { rewrite Hc. cbn. apply map_lookup_filter_Some. cbn. split; [by rewrite lookup_insert_eq|set_solver]. }
  pose proof (delta_exact _ 42 later q _ cur' start (now, cur) Hq Hl Hg Hm) as Hd. cbn [fst snd] in Hd.
  exists (minus (later - now) cur' cur). split.
  - unfold cache_run. cbn [foldl cache_step fst snd]. rewrite He. cbn [fst snd].
    destruct (delta (startPass (endPass c0)) 42 later q (ReadProcessStatus q)) as [c2 d]. cbn [snd] in Hd. subst d.
    rewrite Hq. cbn. by rewrite bool_decide_eq_true_2.
  - destruct Hg as [_ Hg].
    pose proof (Hg (ReadBytes, dReadBytes) ltac:(do 7 right; by left)) as H7.
    pose proof (Hg (WriteBytes, dWriteBytes) ltac:(do 8 right; by left)) as H8. cbn in *.
    rewrite Hr0, Hw0, Hr1, Hw1 in *. rewrite !Z.sub_0_r, !wrap64_id by go_lia. done.
Qed.
