(* ===== verification/KeySource.v ===== *)
(** The signing keys node tokens are checked against, [internal/nodeauth/jwks.go]:
    parsing a key-set document, fetching one by discovery, and the cache that
    refetches on a kid it does not hold.

    encoding/json is a parameter, as everywhere; a response of the API server is
    an input.  Base64 and the point format of crypto/ecdsa are modelled. *)

From stdpp Require Import prelude gmap strings list sorting.
From Stdlib Require Import ZArith Lia Ascii.
From S2P Require Import Prelude GoTime GoStrings.
From S2P Require ProcCounters.
Local Open Scope Z_scope.
Local Open Scope go_scope.

(** ** [base64.RawURLEncoding] *)

Definition sextet_of (c : ascii) : option Z :=
  let n := Z.of_N (N_of_ascii c) in
  if (65 <=? n) && (n <=? 90) then Some (n - 65)
  else if (97 <=? n) && (n <=? 122) then Some (n - 71)
  else if (48 <=? n) && (n <=? 57) then Some (n + 4)
  else if n =? 45 then Some 62
  else if n =? 95 then Some 63
  else None.
Definition sextet_char (v : Z) : ascii :=
  ascii_of_N (Z.to_N (if v <? 26 then v + 65 else if v <? 52 then v + 71 else if v <? 62 then v - 4 else if v =? 62 then 45 else 95)).

Fixpoint decode_quanta (l : list Z) : option (list Z) :=
  match l with
  | [] => Some []
  | [_] => None
  | [a; b] => Some [a * 4 + b / 16]
  | [a; b; c] => Some [a * 4 + b / 16; (b mod 16) * 16 + c / 4]
  | a :: b :: c :: d :: l =>
      bs ← decode_quanta l; Some (a * 4 + b / 16 :: (b mod 16) * 16 + c / 4 :: (c mod 4) * 64 + d :: bs)
  end.
Definition not_newline (c : ascii) : bool := negb (bool_decide (N_of_ascii c = 10%N)) && negb (bool_decide (N_of_ascii c = 13%N)).
Definition DecodeString (s : string) : option (list Z) :=
  sextets ← mapM sextet_of (List.filter not_newline (String.list_ascii_of_string s)); decode_quanta sextets.

Fixpoint encode_quanta (bs : list Z) : list Z :=
  match bs with
  | [] => []
  | [x] => [x / 4; (x mod 4) * 16]
  | [x; y] => [x / 4; (x mod 4) * 16 + y / 16; (y mod 16) * 4]
  | x :: y :: z :: bs => x / 4 :: (x mod 4) * 16 + y / 16 :: (y mod 16) * 4 + z / 64 :: z mod 64 :: encode_quanta bs
  end.
Definition EncodeToString (bs : list Z) : string := String.string_of_list_ascii (sextet_char <$> encode_quanta bs).

(** [big.Int.SetBytes]. *)
Definition SetBytes (bs : list Z) : Z := foldl (fun acc b => acc * 256 + b) 0 bs.

(** ** Keys *)

Record Curve := mkCurve { cv_Name : string; cv_BitSize : Z; cv_P : Z; cv_B : Z }.
Definition P256 : Curve := mkCurve "P-256" 256 (2 ^ 256 - 2 ^ 224 + 2 ^ 192 + 2 ^ 96 - 1)
  0x5ac635d8aa3a93e7b3ebbd55769886bc651d06b0cc53b0f63bce3c3e27d2604b.
Definition P384 : Curve := mkCurve "P-384" 384 (2 ^ 384 - 2 ^ 128 - 2 ^ 96 + 2 ^ 32 - 1)
  0xb3312fa7e23ee7e4988e056be3f82d19181d9c6efe8141120314088f5013875ac656398d8a2ed19d2a85c8edd3ec2aef.
Definition P521 : Curve := mkCurve "P-521" 521 (2 ^ 521 - 1)
  0x51953eb9618e1c9a1f929a21a0b68540eea2da725b99b315f3b8b489918ef109e156193951ec7e937b1652c0bd3bb1bf073573df883d2c34f1ef451fd46b503f00.

Definition on_curve (c : Curve) (x y : Z) : bool := (y * y - (x * x * x - 3 * x + cv_B c)) mod cv_P c =? 0.

(** The sizes and equations are those of the curves: their generators are on them. *)
Example P256_generator : on_curve P256
  0x6b17d1f2e12c4247f8bce6e563a440f277037d812deb33a0f4a13945d898c296
  0x4fe342e2fe1a7f9b8ee7eb4a7c0f9e162bce33576b315ececbb6406837bf51f5 = true.
Proof. vm_compute. reflexivity. Qed.

Inductive PublicKey := RSAPublicKey (N E : Z) | ECDSAPublicKey (curve : string) (X Y : Z).
#[export] Instance PublicKey_eq_dec : EqDecision PublicKey.
Proof. solve_decision. Defined.

Abbreviation KeySet := (gmap string PublicKey).

(** [KeySet.Key]; [None] is an error. *)
Definition KeySet_Key (ks : KeySet) (kid : string) : option PublicKey :=
  if bool_decide (kid = ""%string)
  then match map_to_list ks with [(_, k)] => Some k | _ => None end
  else ks !! kid.

Record jwk := mkJwk { Kty : string; Kid : string; Crv : string; jwk_N : string; jwk_E : string; jwk_X : string; jwk_Y : string }.

Inductive key_error := BadModulus | BadExponent | EmptyExponent | UnsupportedCurve | BadCoordinate | CoordinateSize | NotAPoint.
Inductive jwks_error := BadDocument | BadKey (i : nat) (kid : string) (e : key_error) | NoUsableKeys.

Definition decodeBigInt (b64 : string) : option Z :=
  raw ← DecodeString b64; if bool_decide (raw = []) then None else Some (SetBytes raw).

Definition curveFor (crv : string) : option Curve :=
  if bool_decide (crv = "P-256"%string) then Some P256
  else if bool_decide (crv = "P-384"%string) then Some P384
  else if bool_decide (crv = "P-521"%string) then Some P521 else None.

Definition field_size (c : Curve) : nat := Z.to_nat ((cv_BitSize c + 7) / 8).

Definition pad_coordinate (size : nat) (b64 : string) : result key_error (list Z) :=
  match DecodeString b64 with
  | None => Err BadCoordinate
  | Some raw =>
      if (length raw =? 0)%nat || (size <? length raw)%nat then Err CoordinateSize
      else Ok (replicate (size - length raw) 0 ++ raw)
  end.
Definition uncompressedPoint (c : Curve) (xB64 yB64 : string) : result key_error (list Z) :=
  let! x := pad_coordinate (field_size c) xB64 in
  let! y := pad_coordinate (field_size c) yB64 in
  Ok (4 :: x ++ y).

(** [ecdsa.ParseUncompressedPublicKey]. *)
Definition ParseUncompressedPublicKey (c : Curve) (data : list Z) : option PublicKey :=
  match data with
  | 4 :: rest =>
      if negb (length rest =? 2 * field_size c)%nat then None
      else
        let x := SetBytes (take (field_size c) rest) in
        let y := SetBytes (drop (field_size c) rest) in
        if (x <? cv_P c) && (y <? cv_P c) && on_curve c x y then Some (ECDSAPublicKey (cv_Name c) x y) else None
  | _ => None
  end.

(** [Ok None] is a key type that is not verified with. *)
Definition publicKey (k : jwk) : result key_error (option PublicKey) :=
  if bool_decide (Kty k = "RSA"%string) then
    match decodeBigInt (jwk_N k) with
    | None => Err BadModulus
    | Some n =>
        match DecodeString (jwk_E k) with
        | None => Err BadExponent
        | Some [] => Err EmptyExponent
        | Some eBytes => Ok (Some (RSAPublicKey n (wrap64 (SetBytes eBytes))))
        end
    end
  else if bool_decide (Kty k = "EC"%string) then
    match curveFor (Crv k) with
    | None => Err UnsupportedCurve
    | Some curve =>
        let! point := uncompressedPoint curve (jwk_X k) (jwk_Y k) in
        match ParseUncompressedPublicKey curve point with
        | None => Err NotAPoint
        | Some key => Ok (Some key)
        end
    end
  else Ok None.

Fixpoint parse_keys (i : nat) (doc : list jwk) (keys : KeySet) : result jwks_error KeySet :=
  match doc with
  | [] => if bool_decide (keys = ∅) then Err NoUsableKeys else Ok keys
  | k :: doc =>
      match publicKey k with
      | Err e => Err (BadKey i (Kid k) e)
      | Ok None => parse_keys (S i) doc keys
      | Ok (Some pub) => parse_keys (S i) doc (<[Kid k := pub]> keys)
      end
  end.

Section json.
(** [json.Unmarshal] into the key list and into the discovery document. *)
Context (decode_jwks : string -> option (list jwk)) (decode_discovery : string -> option string).

Definition ParseJWKS (data : string) : result jwks_error KeySet :=
  match decode_jwks data with None => Err BadDocument | Some doc => parse_keys 0 doc ∅ end.

(** ** Fetching *)

(** A GET as it ended: a transport error, or a status and a body. *)
Abbreviation http := (string -> option (Z * string)).
Definition maxBodyBytes : Z := Z.shiftl 1 20.
Definition getBytes (get : http) (url : string) : option string :=
  '(status, body) ← get url;
  let body := ProcCounters.LimitReader maxBodyBytes body in
  if status =? 200 then Some body else None.

Inductive fetch_error := DiscoveryFailed | NoJWKSURI | JWKSFailed | JWKSInvalid (e : jwks_error).
Definition Fetch (get : http) (issuerBaseURL : string) : result fetch_error KeySet :=
  match (body ← getBytes get (issuerBaseURL +:+ "/.well-known/openid-configuration"); decode_discovery body) with
  | None => Err DiscoveryFailed
  | Some uri =>
      if bool_decide (uri = ""%string) then Err NoJWKSURI
      else match getBytes get uri with
           | None => Err JWKSFailed
           | Some raw => match ParseJWKS raw with Ok keys => Ok keys | Err e => Err (JWKSInvalid e) end
           end
  end.
End json.

(** ** The cache *)

Definition defaultFetchTimeout : Duration := 10 * Second.
Definition defaultRefetchInterval : Duration := 30 * Second.

Record CachingKeySource := mkCachingKeySource {
  FetchTimeout : Duration; RefetchInterval : Duration; cached : option KeySet; lastFetch : Time;
}.
Definition newCachingKeySource : CachingKeySource := mkCachingKeySource 0 0 None 0.

Definition refetch_floor (c : CachingKeySource) : Duration := if RefetchInterval c <=? 0 then defaultRefetchInterval else RefetchInterval c.
Definition fetch_deadline (c : CachingKeySource) : Duration := if FetchTimeout c <=? 0 then defaultFetchTimeout else FetchTimeout c.

Inductive key_answer := KeyFound (k : PublicKey) | RefreshedTooRecently | FetchFailed | NoSuchKey.

(** [Key], given the clock and what a fetch under a deadline would return; whether
    one was made. *)
Definition Key (c : CachingKeySource) (kid : string) (at_ : Time) (fetch : Duration -> option KeySet)
    : CachingKeySource * (bool * key_answer) :=
  match cached c ≫= fun ks => KeySet_Key ks kid with
  | Some k => (c, (false, KeyFound k))
  | None =>
      if negb (IsZero (lastFetch c)) && (Sub at_ (lastFetch c) <? refetch_floor c)
      then (c, (false, RefreshedTooRecently))
      else
        let c := mkCachingKeySource (FetchTimeout c) (RefetchInterval c) (cached c) at_ in
        match fetch (fetch_deadline c) with
        | None => (c, (true, FetchFailed))
        | Some set =>
            (mkCachingKeySource (FetchTimeout c) (RefetchInterval c) (Some set) at_,
             (true, match KeySet_Key set kid with Some k => KeyFound k | None => NoSuchKey end))
        end
  end.

(** ** Base64 and big-endian numbers read back *)

Definition byte_ok (b : Z) : Prop := 0 <= b < 256.

Definition sextet_reads_back (v : Z) : bool :=
  bool_decide (sextet_of (sextet_char v) = Some v) && not_newline (sextet_char v).
Lemma sextet_char_read v : 0 <= v < 64 -> sextet_of (sextet_char v) = Some v /\ not_newline (sextet_char v) = true.
Proof.
  intros Hv. assert (Hall : forallb sextet_reads_back (Z.of_nat <$> seq 0 64) = true) by by vm_compute.
  rewrite forallb_forall in Hall. specialize (Hall v). unfold sextet_reads_back in Hall.
  rewrite andb_true_iff, bool_decide_eq_true in Hall. apply Hall, list_elem_of_In, list_elem_of_fmap.
  exists (Z.to_nat v). split; [lia|]. apply elem_of_seq. lia.
Qed.

(** Induction by three bytes at a time. *)
Lemma quanta_ind (P : list Z -> Prop) :
  P [] -> (forall x, P [x]) -> (forall x y, P [x; y]) -> (forall x y z l, P l -> P (x :: y :: z :: l)) -> forall l, P l.
Proof.
  intros H0 H1 H2 H3 l. remember (length l) as n eqn:Hn. revert l Hn. induction (lt_wf n) as [n _ IH]. intros l ->.
  destruct l as [|x [|y [|z l]]]; [done|apply H1|apply H2|]. apply H3. eapply IH; [|done]. cbn. lia.
Qed.

Lemma encode_quanta_range bs : Forall byte_ok bs -> Forall (fun v => 0 <= v < 64) (encode_quanta bs).
Proof.
  induction bs as [|x|x y|x y z l IH] using quanta_ind; rewrite ?Forall_cons; unfold byte_ok; cbn [encode_quanta].
  - done.
  - intros [Hx _]. repeat constructor; divmod_lia.
  - intros (Hx & Hy & _). repeat constructor; divmod_lia.
  - intros (Hx & Hy & Hz & Hl). repeat apply Forall_cons_2; try divmod_lia. by apply IH.
Qed.

Lemma decode_encode_quanta bs : Forall byte_ok bs -> decode_quanta (encode_quanta bs) = Some bs.
Proof.
  induction bs as [|x|x y|x y z l IH] using quanta_ind; rewrite ?Forall_cons; unfold byte_ok; cbn [encode_quanta decode_quanta].
  - done.
  - intros [Hx _]. do 2 f_equal. divmod_lia.
  - intros (Hx & Hy & _). f_equal. f_equal; [divmod_lia|]. f_equal. divmod_lia.
  - intros (Hx & Hy & Hz & Hl). rewrite IH by done. cbn. do 2 f_equal; [divmod_lia|]. f_equal; [divmod_lia|]. f_equal. divmod_lia.
Qed.

Lemma DecodeString_EncodeToString bs : Forall byte_ok bs -> DecodeString (EncodeToString bs) = Some bs.
Proof.
  intros Hb. unfold DecodeString, EncodeToString. rewrite String.list_ascii_of_string_of_list_ascii.
  pose proof (encode_quanta_range bs Hb) as Hr.
  assert (mapM sextet_of (List.filter not_newline (sextet_char <$> encode_quanta bs)) = Some (encode_quanta bs)) as ->.
  { induction Hr as [|v l Hv Hl IH]; [done|]. cbn. destruct (sextet_char_read v Hv) as [H1 ->]. cbn. by rewrite H1, IH. }
  by apply decode_encode_quanta.
Qed.

(** [k] bytes, the most significant first. *)
Fixpoint big_endian (k : nat) (n : Z) : list Z := match k with O => [] | S k => big_endian k (n / 256) ++ [n mod 256] end.

Lemma big_endian_length k n : length (big_endian k n) = k.
Proof. revert n. induction k as [|k IH]; intros n; [done|]. cbn. rewrite length_app, IH. cbn. lia. Qed.
Lemma big_endian_bytes k n : Forall byte_ok (big_endian k n).
Proof.
  revert n. induction k as [|k IH]; intros n; [constructor|]. cbn. apply Forall_app. split; [done|].
  apply Forall_singleton. unfold byte_ok. divmod_lia.
Qed.
Lemma SetBytes_big_endian k n : 0 <= n < 256 ^ Z.of_nat k -> SetBytes (big_endian k n) = n.
Proof.
  revert n. induction k as [|k IH]; intros n Hn; [cbn in *; lia|]. cbn [big_endian]. unfold SetBytes. rewrite foldl_app. cbn [foldl].
  fold (SetBytes (big_endian k (n / 256))). rewrite IH; [divmod_lia|].
  rewrite Nat2Z.inj_succ, Z.pow_succ_r in Hn by lia. divmod_lia.
Qed.

(** ** Printing a key, and reading it back *)

Definition byte_length (n : Z) : nat := Z.to_nat (Z.log2 n / 8 + 1).
Definition print_number (n : Z) : string := EncodeToString (big_endian (byte_length n) n).
Definition print_coordinate (c : Curve) (n : Z) : string := EncodeToString (big_endian (field_size c) n).

(** An issuer's entry: a key, or [None] for one of another type. *)
Definition print_jwk (kid : string) (k : option PublicKey) : jwk :=
  match k with
  | Some (RSAPublicKey n e) => mkJwk "RSA" kid "" (print_number n) (print_number e) "" ""
  | Some (ECDSAPublicKey crv x y) =>
      match curveFor crv with
      | Some c => mkJwk "EC" kid crv "" "" (print_coordinate c x) (print_coordinate c y)
      | None => mkJwk "EC" kid crv "" "" "" ""
      end
  | None => mkJwk "OKP" kid "Ed25519" "" "" "" ""
  end.

Definition key_ok (k : PublicKey) : Prop :=
  match k with
  | RSAPublicKey n e => 0 < n /\ 0 < e <= maxInt64
  | ECDSAPublicKey crv x y =>
      exists c, curveFor crv = Some c /\ 0 <= x < cv_P c /\ 0 <= y < cv_P c /\ on_curve c x y = true
  end.

Lemma byte_length_pos n : (0 < byte_length n)%nat.
Proof. unfold byte_length. pose proof (Z.log2_nonneg n). divmod_lia. Qed.
Lemma byte_length_enough n : 0 < n -> 0 <= n < 256 ^ Z.of_nat (byte_length n).
Proof.
  intros Hn. split; [lia|]. unfold byte_length. pose proof (Z.log2_nonneg n). pose proof (Z.log2_spec n Hn) as [_ Hlt].
  rewrite Z2Nat.id by divmod_lia. change 256 with (2 ^ 8). rewrite <-Z.pow_mul_r by divmod_lia.
  eapply Z.lt_le_trans; [exact Hlt|]. apply Z.pow_le_mono_r; divmod_lia.
Qed.
Lemma DecodeString_print_number n : DecodeString (print_number n) = Some (big_endian (byte_length n) n).
Proof. apply DecodeString_EncodeToString, big_endian_bytes. Qed.
Lemma big_endian_cons k n : (0 < k)%nat -> exists b bs, big_endian k n = b :: bs.
Proof. intros Hk. pose proof (big_endian_length k n). destruct (big_endian k n) as [|b bs]; [cbn in *; lia|]. by exists b, bs. Qed.

Lemma curveFor_cases crv c : curveFor crv = Some c ->
  cv_Name c = crv /\ (0 < field_size c)%nat /\ cv_P c <= 256 ^ Z.of_nat (field_size c).
Proof.
  unfold curveFor. intros H.
  repeat (case_bool_decide; [injection H as <-; subst; split; [done|]; split; [vm_compute; lia|by vm_compute]|]). done.
Qed.

Lemma pad_coordinate_print c n : (0 < field_size c)%nat -> pad_coordinate (field_size c) (print_coordinate c n) = Ok (big_endian (field_size c) n).
Proof.
  intros Hs. unfold pad_coordinate, print_coordinate. rewrite DecodeString_EncodeToString by apply big_endian_bytes.
  rewrite big_endian_length, Nat.sub_diag, Nat.ltb_irrefl. destruct (Nat.eqb_spec (field_size c) 0); [lia|]. done.
Qed.

Lemma publicKey_print kid k : from_option key_ok True k -> publicKey (print_jwk kid k) = Ok k.
Proof.
  destruct k as [[n e|crv x y]|]; cbn [from_option key_ok print_jwk]; [| |done].
  - intros (Hn & He). unfold publicKey. cbn [Kty jwk_N jwk_E]. rewrite bool_decide_eq_true_2 by done.
    unfold decodeBigInt. rewrite !DecodeString_print_number. cbn [mbind option_bind].
    destruct (big_endian_cons (byte_length n) n (byte_length_pos n)) as (b & bs & E). rewrite bool_decide_eq_false_2 by by rewrite E.
    rewrite SetBytes_big_endian by by apply byte_length_enough.
    destruct (big_endian_cons (byte_length e) e (byte_length_pos e)) as (b' & bs' & E'). rewrite E', <-E'.
    rewrite SetBytes_big_endian by (apply byte_length_enough; lia). rewrite wrap64_id by go_lia. done.
  - intros (c & Hc & Hx & Hy & Hon). destruct (curveFor_cases _ _ Hc) as (Hname & Hs & Hp). rewrite Hc. unfold publicKey.
    cbn [Kty Crv jwk_X jwk_Y]. rewrite bool_decide_eq_false_2, bool_decide_eq_true_2 by done. rewrite Hc.
    unfold uncompressedPoint. rewrite !pad_coordinate_print by done. cbn [result_bind]. unfold ParseUncompressedPublicKey.
    rewrite length_app, !big_endian_length. replace (field_size c + field_size c)%nat with (2 * field_size c)%nat by lia.
    rewrite Nat.eqb_refl. cbn [negb]. rewrite take_app_length', drop_app_length' by by rewrite big_endian_length.
    rewrite !SetBytes_big_endian by lia. rewrite (proj2 (Z.ltb_lt x _)), (proj2 (Z.ltb_lt y _)), Hon by lia. by rewrite Hname.
Qed.

Definition print_doc (doc : list (string * option PublicKey)) : list jwk := (fun e => print_jwk e.1 e.2) <$> doc.
Definition add_key (m : KeySet) (e : string * option PublicKey) : KeySet :=
  match e.2 with Some k => <[e.1 := k]> m | None => m end.
Definition keys_of (doc : list (string * option PublicKey)) : KeySet := foldl add_key ∅ doc.

(** C33. A published key set is read back.  From a document that lists RSA keys and
    points of the three curves, each under its kid, among keys of types the agent
    does not verify with, the set parsed holds exactly the usable keys, a later
    one of a kid in place of an earlier; with no usable key it is refused. *)
Theorem published_keys_are_read decode_jwks data doc :
  decode_jwks data = Some (print_doc doc) -> Forall (fun e => from_option key_ok True e.2) doc ->
  ParseJWKS decode_jwks data = (if bool_decide (keys_of doc = ∅) then Err NoUsableKeys else Ok (keys_of doc)).
Proof.
  intros Hd Hok. unfold ParseJWKS. rewrite Hd. clear Hd data decode_jwks. unfold keys_of.
  cut (forall keys i, parse_keys i (print_doc doc) keys =
         (if bool_decide (foldl add_key keys doc = ∅) then Err NoUsableKeys else Ok (foldl add_key keys doc))); [by intros ->|].
  induction Hok as [|[kid k] doc Hk Hok IH]; intros keys i; [done|]. cbn [print_doc fmap list_fmap parse_keys foldl fst snd] in *.
  rewrite publicKey_print by done. destruct k as [k|]; cbn [add_key fst snd]; [|apply IH].
  replace (Kid (print_jwk kid (Some k))) with kid; [apply IH|]. destruct k; cbn; [done|]. by destruct (curveFor _).
Qed.

Definition demo_doc : list (string * option PublicKey) :=
  [("k1", Some (RSAPublicKey 3233 65537)); ("k2", None);
   ("k3", Some (ECDSAPublicKey "P-256" 0x6b17d1f2e12c4247f8bce6e563a440f277037d812deb33a0f4a13945d898c296
                  0x4fe342e2fe1a7f9b8ee7eb4a7c0f9e162bce33576b315ececbb6406837bf51f5))]%string.

Lemma published_keys_are_read_witness :
  let decode (_ : string) := Some (print_doc demo_doc) in
  ParseJWKS decode "" = (if bool_decide (keys_of demo_doc = ∅) then Err NoUsableKeys else Ok (keys_of demo_doc)) /\
  jwk_N <$> head (print_doc demo_doc) = Some "DKE"%string /\ size (keys_of demo_doc) = 2%nat.
Proof.
  cbn zeta. split; [|vm_compute; by split]. apply published_keys_are_read; [reflexivity|].
  repeat apply Forall_cons_2; [cbn; go_lia|done|exists P256|done]. vm_compute. repeat split; discriminate.
Defined.

(** ** What the cache promises *)

(** One lookup: the kid asked for, when, and what a fetch would return. *)
Record lookup_ := mkLookup { lk_kid : string; lk_at : Time; lk_fetch : Duration -> option KeySet }.
Abbreviation outcome := (bool * key_answer)%type.
Fixpoint key_run (c : CachingKeySource) (ls : list lookup_) : CachingKeySource * list (lookup_ * outcome) :=
  match ls with
  | [] => (c, [])
  | l :: ls =>
      let '(c, out) := Key c (lk_kid l) (lk_at l) (lk_fetch l) in
      let '(c, log) := key_run c ls in (c, (l, out) :: log)
  end.

(** When something was fetched, and what came of it last. *)
Definition fetched_at (e : lookup_ * outcome) : option Time := if (e.2.1 : bool) then Some (lk_at e.1) else None.
Definition fetches (log : list (lookup_ * outcome)) : list Time := omap fetched_at log.
Definition set_in_hand (deadline : Duration) (log : list (lookup_ * outcome)) : option KeySet :=
  list.last (omap (fun e => if (e.2.1 : bool) then lk_fetch e.1 deadline else None) log).

(** An outcome is the right one after what came before. *)
Definition right_outcome (floor deadline : Duration) (before : list (lookup_ * outcome)) (l : lookup_) (out : outcome) : Prop :=
  match set_in_hand deadline before ≫= fun ks => KeySet_Key ks (lk_kid l) with
  | Some k => out = (false, KeyFound k)
  | None =>
      (out = (false, RefreshedTooRecently) /\ exists t, list.last (fetches before) = Some t /\ Sub (lk_at l) t < floor) \/
      (out = (true, match lk_fetch l deadline with
                    | None => FetchFailed
                    | Some set => match KeySet_Key set (lk_kid l) with Some k => KeyFound k | None => NoSuchKey end
                    end) /\ forall t, list.last (fetches before) = Some t -> floor <= Sub (lk_at l) t)
  end.

Definition log_ok (floor deadline : Duration) (log : list (lookup_ * outcome)) : Prop :=
  Sorted (fun t u => floor <= Sub u t) (fetches log) /\
  forall before l out after, log = before ++ (l, out) :: after -> right_outcome floor deadline before l out.

Lemma log_ok_snoc floor deadline log l out :
  log_ok floor deadline log -> right_outcome floor deadline log l out -> log_ok floor deadline (log ++ [(l, out)]).
Proof.
  intros [Hs Hr] Hout. split.
  - unfold fetches in *. rewrite omap_app. cbn. unfold fetched_at at 2. cbn [fst snd].
    destruct out as [fetched answer]; cbn [fst]. destruct fetched; [|by rewrite app_nil_r].
    apply Sorted_snoc; [done|]. unfold right_outcome, fetches in Hout.
    assert (Hfar : forall t, list.last (omap fetched_at log) = Some t -> floor <= Sub (lk_at l) t).
    { intros t Ht. destruct (_ ≫= _); [done|]. destruct Hout as [[? _]|[_ H]]; [done|by apply H]. }
    destruct (omap fetched_at log) as [|t ts _] using rev_ind; constructor. apply Hfar. apply last_snoc.
  - intros before l' out' after Heq. destruct after as [|x after _] using rev_ind.
    + apply app_inj_tail in Heq as [-> [= -> ->]]. done.
    + rewrite app_comm_cons, app_assoc in Heq. apply app_inj_tail in Heq as [-> _]. by eapply Hr.
Qed.

(** What the cache remembers of its log. *)
Definition remembers (c : CachingKeySource) (log : list (lookup_ * outcome)) : Prop :=
  cached c = set_in_hand (fetch_deadline c) log /\ lastFetch c = default 0 (list.last (fetches log)) /\ Forall (fun t => t <> 0) (fetches log).

Lemma remembers_last c log t : remembers c log -> list.last (fetches log) = Some t -> lastFetch c = t /\ t <> 0.
Proof.
  intros (_ & Hl & Hz) Ht. split; [by rewrite Hl, Ht|]. rewrite Forall_forall in Hz. apply Hz.
  apply last_Some in Ht as [l ->]. set_solver.
Qed.

Lemma Key_right c log kid at_ fetch :
  remembers c log -> at_ <> 0 ->
  let '(c', out) := Key c kid at_ fetch in
  let l := mkLookup kid at_ fetch in
  right_outcome (refetch_floor c) (fetch_deadline c) log l out /\
  remembers c' (log ++ [(l, out)]) /\ refetch_floor c' = refetch_floor c /\ fetch_deadline c' = fetch_deadline c.
Proof.
  intros Hrem Hat. pose proof Hrem as (Hc & Hl & Hz). unfold Key, right_outcome. cbn [lk_kid lk_at lk_fetch]. rewrite <-Hc.
  assert (Hquiet : forall a, remembers c (log ++ [(mkLookup kid at_ fetch, (false, a))])).
  { intros a. unfold remembers, set_in_hand, fetches. rewrite !omap_app. cbn. by rewrite !app_nil_r. }
  destruct (cached c ≫= _) as [k|] eqn:Hk; [by split_and!|].
  destruct (negb (IsZero (lastFetch c)) && (Sub at_ (lastFetch c) <? refetch_floor c)) eqn:Hrec.
  - apply andb_true_iff in Hrec as [Hnz%negb_true_iff Hlt%Z.ltb_lt]. split_and!; [|done|done|done].
    left. split; [done|]. destruct (list.last (fetches log)) as [t|] eqn:Ht.
    + exists t. split; [done|]. by destruct (remembers_last _ _ _ Hrem Ht) as [<- _].
    + rewrite Hl in Hnz. done.
  - assert (Hfar : forall t, list.last (fetches log) = Some t -> refetch_floor c <= Sub at_ t).
    { intros t Ht. destruct (remembers_last _ _ _ Hrem Ht) as [<- Hnz].
      unfold IsZero in Hrec. rewrite (proj2 (Z.eqb_neq _ 0) Hnz) in Hrec. cbn in Hrec. lia. }
    assert (Hfet : forall a, list.last (fetches (log ++ [(mkLookup kid at_ fetch, (true, a))])) = Some at_ /\
                          Forall (fun t => t <> 0) (fetches (log ++ [(mkLookup kid at_ fetch, (true, a))]))).
    { intros a. unfold fetches. rewrite omap_app. cbn. split; [apply last_snoc|]. apply Forall_app. split; [done|by apply Forall_singleton]. }
    change (fetch_deadline (mkCachingKeySource (FetchTimeout c) (RefetchInterval c) (cached c) at_)) with (fetch_deadline c).
    unfold remembers, set_in_hand.
    destruct (fetch (fetch_deadline c)) as [set|] eqn:Hf; cbn [cached lastFetch];
      unfold fetch_deadline, refetch_floor; cbn [FetchTimeout RefetchInterval];
      (split; [by right|]); (split; [|done]); rewrite omap_app; cbn [omap list_omap fst snd lk_fetch]; fold (fetch_deadline c);
      rewrite ?Hf, ?last_snoc, ?app_nil_r; (split_and!; [done|by rewrite (proj1 (Hfet _))|apply Hfet]).
Qed.

Lemma key_run_right c log ls :
  remembers c log -> log_ok (refetch_floor c) (fetch_deadline c) log -> Forall (fun l => lk_at l <> 0) ls ->
  log_ok (refetch_floor c) (fetch_deadline c) (log ++ (key_run c ls).2) /\ (key_run c ls).2.*1 = ls.
Proof.
  revert c log. induction ls as [|l ls IH]; intros c log Hrem Hok Hat; cbn [key_run]; [by rewrite app_nil_r|].
  apply Forall_cons in Hat as [Hat Hats]. pose proof (Key_right c log (lk_kid l) (lk_at l) (lk_fetch l) Hrem Hat) as Hkey.
  destruct (Key _ _ _ _) as [c1 out]. destruct l as [kid at_ fetch]. cbn [lk_kid lk_at lk_fetch] in *.
  destruct Hkey as (Hout & Hrem1 & Hf & Hd). specialize (IH c1 _ Hrem1). rewrite Hf, Hd in IH.
  specialize (IH (log_ok_snoc _ _ _ _ _ Hok Hout) Hats). destruct (key_run c1 ls) as [c2 outs]. cbn [snd fmap list_fmap fst] in *.
  destruct IH as [IH1 IH2]. rewrite <-app_assoc in IH1. split; [done|by rewrite IH2].
Qed.

(** An unknown kid cannot make the agent talk to the API server.  Whatever kids
    are asked for, and by whom, two fetches of the key set are never closer than
    the floor, failed ones included.  A kid of the set in hand, the last one
    fetched, is answered from it without a fetch; any other is fetched for unless
    the last fetch is too recent, and answered by what was fetched; a fetch that
    fails leaves the set in hand as it was. *)
Theorem refreshes_are_paced fetch_timeout interval ls :
  Forall (fun l => lk_at l <> 0) ls ->
  let c := mkCachingKeySource fetch_timeout interval None 0 in
  let log := (key_run c ls).2 in
  log.*1 = ls /\
  Sorted (fun t u => refetch_floor c <= Sub u t) (fetches log) /\
  (forall before l out after, log = before ++ (l, out) :: after ->
     right_outcome (refetch_floor c) (fetch_deadline c) before l out).
Proof.
  intros Hat. cbn zeta. set (c := mkCachingKeySource _ _ _ _).
  destruct (key_run_right c [] ls) as [[H1 H2] H3]; [done| |done|done].
  split; [constructor|]. intros before l out after Heq. by apply app_cons_not_nil in Heq.
Qed.

(** A first token, a flood of made-up kids, and a rotation half a minute later. *)
Definition demo_lookups : list lookup_ :=
  let old : KeySet := {["k1" := RSAPublicKey 3233 65537]}%string in
  let new : KeySet := {["k2" := RSAPublicKey 3127 65537]}%string in
  [mkLookup "k1" Hour (fun _ => Some old); mkLookup "made up" (Hour + Second) (fun _ => Some old);
   mkLookup "made up too" (Hour + 2 * Second) (fun _ => Some old); mkLookup "k1" (Hour + 3 * Second) (fun _ => None);
   mkLookup "k2" (Hour + 31 * Second) (fun _ => None); mkLookup "k2" (Hour + 62 * Second) (fun _ => Some new)]%string.

Lemma refreshes_are_paced_witness :
  let log := (key_run newCachingKeySource demo_lookups).2 in
  (log.*2).*2 = [KeyFound (RSAPublicKey 3233 65537); RefreshedTooRecently; RefreshedTooRecently;
                 KeyFound (RSAPublicKey 3233 65537); FetchFailed; KeyFound (RSAPublicKey 3127 65537)] /\
  fetches log = [Hour; Hour + 31 * Second; Hour + 62 * Second] /\
  log.*1 = demo_lookups /\
  Sorted (fun t u => refetch_floor newCachingKeySource <= Sub u t) (fetches log) /\
  (forall before l out after, log = before ++ (l, out) :: after ->
     right_outcome (refetch_floor newCachingKeySource) (fetch_deadline newCachingKeySource) before l out).
Proof.
  cbn zeta. split; [vm_compute; reflexivity|]. split; [vm_compute; reflexivity|].
  apply (refreshes_are_paced 0 0 demo_lookups). repeat apply Forall_cons_2; try apply Forall_nil_2; vm_compute; discriminate.
Defined.
