(* ===== verification/NodeReport.v ===== *)
(** What a node reports to the controller, from [internal/nodescan]: the shapes
    of scan.go and report.go, the modules a build compiles from source, and the
    listening sockets of listeners.go.

    A process's socket tables and descriptors are given by their contents, [None]
    for what could not be read.  Every row is shorter than the scanner's 64 KiB. *)

From stdpp Require Import prelude gmap strings list sorting.
From Stdlib Require Import ZArith Lia Ascii.
From S2P Require Import Prelude GoTime GoStrings ProcCounters.
Local Open Scope Z_scope.
Local Open Scope go_scope.

(** ** Shapes *)

Record Module_ := mkModule { m_Path : string; m_Version : string; m_Replaced : bool }.
#[export] Instance Module_eq_dec : EqDecision Module_.
Proof. solve_decision. Defined.

Record ListeningPort := mkPort { Port : Z; Loopback : bool }.
#[export] Instance ListeningPort_eq_dec : EqDecision ListeningPort.
Proof. solve_decision. Defined.

Record Footprint := mkFootprint {
  fpRSSAnonBytes : Z; fpRSSFileBytes : Z; fpPSSBytes : Z; fpPrivateDirtyBytes : Z;
  fpThreads : Z; fpOpenFiles : Z; fpOpenFilesLimit : Z;
}.
#[export] Instance Footprint_eq_dec : EqDecision Footprint.
Proof. solve_decision. Defined.

Record BinaryInfo := mkBinary {
  b_PID : Z;
  b_GoVersion : string;
  b_MainModule : string;
  b_Dependencies : list Module_;
  b_Settings : gmap string string;
  b_GoDebug : gmap string string;
  b_PGO : bool;
  b_HasPprof : bool;
  b_ListeningPorts : list ListeningPort;
  b_PeakRSSBytes : Z;
  b_CPUsAllowed : Z;
  b_Footprint : Footprint;
  b_Counters : option CounterDelta;
  b_PodUID : string;
  b_ContainerID : string;
}.

Record Counters := mkScanCounters {
  ProcessesScanned : Z; GoFound : Z; FilteredScope : Z; FilteredInfra : Z; Unreadable : Z;
}.

Record ProfilingCoverage := mkProfiling {
  State : string;
  Windows : Z; WindowsNoScope : Z; WindowsNoTargets : Z; WindowsNoSamples : Z;
  ProfilesShipped : Z; ProfilesInvalid : Z; ProfilesUnshipped : Z; SamplesOutOfScope : Z;
  ThirdPartyDropped : Z; UnsymbolizedDropped : Z; SamplesFiltered : Z;
}.

Record Report := mkReport {
  r_Node : string; r_Binaries : list BinaryInfo; r_Counters : Counters; r_Profiling : option ProfilingCoverage;
}.

(** ** Modules built from source *)

Definition built_here (m : Module_) : bool := m_Replaced m && negb (bool_decide (m_Path m = ""%string)).
Definition OwnModules (mainModule : string) (deps : list Module_) : list string :=
  (if bool_decide (mainModule = ""%string) then [] else [mainModule]) ++ (m_Path <$> List.filter built_here deps).

(** ** Ports of several sockets *)

Definition merge_port (byPort : gmap Z bool) (lp : ListeningPort) : gmap Z bool :=
  match byPort !! Port lp with
  | Some prev => <[Port lp := prev && Loopback lp]> byPort
  | None => <[Port lp := Loopback lp]> byPort
  end.

Definition less_port (a b : ListeningPort) : bool := go_lt (Port a) (Port b).
Definition MergeListeningPorts (lists : list (list ListeningPort)) : list ListeningPort :=
  sort_slice less_port ((fun pl => mkPort pl.1 pl.2) <$> map_to_list (foldl merge_port ∅ (concat lists))).

(** ** Socket tables *)

Definition tcpStateListen : string := "0A".
Definition maxSocketBytes : Z := 4 * 1024 * 1024.
Definition maxProcessFDs : Z := 65536.

Definition hex_value (c : Ascii.ascii) : option Z :=
  let n := Z.of_N (N_of_ascii c) in
  if (48 <=? n) && (n <=? 57) then Some (n - 48)
  else if (97 <=? n) && (n <=? 102) then Some (n - 87)
  else if (65 <=? n) && (n <=? 70) then Some (n - 55)
  else None.

(** [strconv.ParseUint(s, 16, 32)]. *)
Fixpoint hex_digits (acc : Z) (s : string) : option Z :=
  match s with
  | EmptyString => Some acc
  | String c s => d ← hex_value c; hex_digits (acc * 16 + d) s
  end.
Definition ParseHex32 (s : string) : option Z :=
  match s with
  | EmptyString => None
  | _ => n ← hex_digits 0 s; if n <=? 2 ^ 32 - 1 then Some n else None
  end.

(** [hex.DecodeString]. *)
Fixpoint DecodeString (s : string) : option (list Z) :=
  match s with
  | EmptyString => Some []
  | String a (String b s) => x ← hex_value a; y ← hex_value b; bs ← DecodeString s; Some (x * 16 + y :: bs)
  | String _ EmptyString => None
  end.

(** The bytes of every 32-bit word reversed. *)
Fixpoint swap_words (raw : list Z) : list Z :=
  match raw with
  | a :: b :: c :: d :: raw => d :: c :: b :: a :: swap_words raw
  | _ => raw
  end.

(** [net.IP.IsLoopback], on four or sixteen bytes. *)
Definition v4_in_v6 : list Z := repeat 0 10 ++ [255; 255].
Definition To4 (ip : list Z) : option (list Z) :=
  if bool_decide (length ip = 4%nat) then Some ip
  else if bool_decide (length ip = 16%nat) && bool_decide (take 12 ip = v4_in_v6) then Some (drop 12 ip)
  else None.
Definition IPv6loopback : list Z := repeat 0 15 ++ [1].
Definition IsLoopback (ip : list Z) : bool :=
  match To4 ip with
  | Some ip4 => bool_decide (head ip4 = Some 127)
  | None => bool_decide (ip = IPv6loopback)
  end.

Definition parseLocalAddress (field : string) : option (Z * bool) :=
  '(addrHex, portHex) ← Cut field ":"%char;
  p ← ParseHex32 portHex;
  if (p =? 0) || (65535 <? p) then None
  else raw ← DecodeString addrHex;
       if negb (bool_decide (length raw = 4%nat)) && negb (bool_decide (length raw = 16%nat)) then None
       else Some (p, IsLoopback (swap_words raw)).

(** One row: the inode and the port of a listening socket. *)
Definition listen_row (line : string) : option (Z * ListeningPort) :=
  let fields := Fields line in
  if bool_decide (length fields < 10)%nat || negb (bool_decide (fields !! 3%nat = Some tcpStateListen)) then None
  else '(port, loopback) ← fields !! 1%nat ≫= parseLocalAddress;
       inode ← fields !! 9%nat ≫= ParseUint;
       Some (inode, mkPort port loopback).

Definition parseListenRows (text : string) (byInode : gmap Z ListeningPort) : gmap Z ListeningPort :=
  foldl (fun m line => match listen_row line with Some (inode, lp) => <[inode := lp]> m | None => m end)
    byInode (Lines text).

Definition readListenRows (table : option string) (byInode : gmap Z ListeningPort) : gmap Z ListeningPort :=
  match table with
  | None => byInode
  | Some text => parseListenRows (LimitReader maxSocketBytes text) byInode
  end.

(** ** Descriptors *)

Definition socketInode (target : string) : option Z :=
  rest ← CutPrefix target "socket:[";
  digits ← CutSuffix rest "]";
  ParseUint digits.

(** What each descriptor links to, [None] where the link could not be read. *)
Definition processSocketInodes (fds : option (list (option string))) : gset Z :=
  match fds with
  | None => ∅
  | Some entries =>
      if maxProcessFDs <? Z.of_nat (length entries) then ∅
      else list_to_set (omap (fun target => target ≫= socketInode) entries)
  end.

Definition ReadListeningPorts (tcp tcp6 : option string) (fds : option (list (option string))) : list ListeningPort :=
  let byInode := readListenRows tcp6 (readListenRows tcp ∅) in
  if bool_decide (byInode = ∅) then []
  else let owned := processSocketInodes fds in
       MergeListeningPorts [(map_to_list (filter (fun il => il.1 ∈ owned) byInode)).*2].

(** ** What merging keeps *)

Definition all_loopback (port : Z) (l : list ListeningPort) : bool :=
  forallb (fun lp => negb (Port lp =? port) || Loopback lp) l.

Lemma merge_port_lookup m lp port :
  merge_port m lp !! port =
    if Port lp =? port then Some (default true (m !! port) && Loopback lp) else m !! port.
Proof.
  unfold merge_port. destruct (Z.eqb_spec (Port lp) port) as [->|Hp].
  - destruct (m !! port); by rewrite lookup_insert_eq.
  - destruct (m !! Port lp); by rewrite lookup_insert_ne.
Qed.

Lemma foldl_merge_port l port :
  foldl merge_port ∅ l !! port =
    if bool_decide (port ∈ Port <$> l) then Some (all_loopback port l) else None.
Proof.
  induction l as [|lp l IH] using rev_ind.
  { cbn. rewrite lookup_empty, bool_decide_eq_false_2; [done|]. by intros ?%elem_of_nil. }
  rewrite foldl_app. cbn [foldl]. rewrite merge_port_lookup, IH. unfold all_loopback.
  rewrite forallb_app. cbn [forallb]. rewrite andb_true_r, fmap_app.
  destruct (Z.eqb_spec (Port lp) port) as [Hp|Hp]; cbn [negb orb].
  - rewrite (bool_decide_eq_true_2 (port ∈ _ ++ _)) by set_solver.
    case_bool_decide as Hin; [done|]. cbn [default]. f_equal.
    assert (forallb (fun x => negb (Port x =? port) || Loopback x) l = true) as ->; [|done].
    apply forallb_forall. intros x Hx%list_elem_of_In.
    destruct (Z.eqb_spec (Port x) port) as [<-|]; [|done]. exfalso. apply Hin. by apply list_elem_of_fmap_2.
  - rewrite andb_true_r. destruct (decide (port ∈ Port <$> l)) as [Hin|Hin].
    + rewrite (bool_decide_eq_true_2 (port ∈ Port <$> l)), bool_decide_eq_true_2; [done| |done].
      apply elem_of_app. by left.
    + rewrite (bool_decide_eq_false_2 (port ∈ Port <$> l)), bool_decide_eq_false_2; [done| |done].
      intros [?|H%list_elem_of_fmap]%elem_of_app; [done|]. destruct H as (x & -> & ->%list_elem_of_singleton). done.
Qed.

(** A port is listed once, in order, for every port some list names; it is a
    loopback port when every binding of it is. *)
Lemma elem_of_MergeListeningPorts ls lp :
  lp ∈ MergeListeningPorts ls <->
  Port lp ∈ Port <$> concat ls /\ Loopback lp = all_loopback (Port lp) (concat ls).
Proof.
  unfold MergeListeningPorts. rewrite elem_of_sort_slice, list_elem_of_fmap. split.
  - intros ([port l] & -> & Hin%elem_of_map_to_list). cbn.
    rewrite foldl_merge_port in Hin. case_bool_decide as H; [|done]. by injection Hin as <-.
  - intros [Hin Hl]. exists (Port lp, Loopback lp). split; [by destruct lp|].
    apply elem_of_map_to_list. rewrite foldl_merge_port, bool_decide_eq_true_2, Hl by done. done.
Qed.

Lemma merged_ports_distinct ls :
  NoDup (Port <$> ((fun pl => mkPort pl.1 pl.2) <$> map_to_list (foldl merge_port ∅ (concat ls)))).
Proof. rewrite <-list_fmap_compose. apply NoDup_fst_map_to_list. Qed.

Lemma MergeListeningPorts_sorted ls :
  StronglySorted (fun a b => less_port a b = true) (MergeListeningPorts ls).
Proof. apply (sort_slice_strict _ Port); [done|]. apply merged_ports_distinct. Qed.

(** Two lists of ports in order that list the same are the same. *)
Lemma ports_sorted_unique l1 l2 :
  StronglySorted (fun a b => less_port a b = true) l1 -> StronglySorted (fun a b => less_port a b = true) l2 ->
  (forall lp, lp ∈ l1 <-> lp ∈ l2) -> l1 = l2.
Proof.
  intros H1 H2 Hin. apply (StronglySorted_unique_strong (fun a b => less_port a b = true)); [|done|done|].
  - intros a b _ _ Hab Hba. unfold less_port in *. pose proof (go_lt_trans _ _ _ Hab Hba) as H.
    by rewrite go_lt_irrefl in H.
  - assert (forall l, StronglySorted (fun a b => less_port a b = true) l -> NoDup l) as Hnd.
    { intros l. induction 1 as [|a l Hs IH Ha]; constructor; [|done].
      intros Hin'. rewrite Forall_forall in Ha. apply Ha in Hin'. unfold less_port in Hin'.
      by rewrite go_lt_irrefl in Hin'. }
    apply NoDup_Permutation; auto.
Qed.

(** Only which bindings there are matters, not how they are grouped. *)
Lemma MergeListeningPorts_bindings ls ls' :
  (forall lp, lp ∈ concat ls <-> lp ∈ concat ls') -> MergeListeningPorts ls = MergeListeningPorts ls'.
Proof.
  intros H. apply ports_sorted_unique; [apply MergeListeningPorts_sorted..|].
  intros lp. rewrite !elem_of_MergeListeningPorts.
  assert (all_loopback (Port lp) (concat ls) = all_loopback (Port lp) (concat ls')) as ->.
  { apply eq_true_iff_eq. unfold all_loopback. rewrite !forallb_forall.
    split; intros Hx x Hin; apply Hx; apply list_elem_of_In; apply H; by apply list_elem_of_In. }
  assert (Port lp ∈ Port <$> concat ls <-> Port lp ∈ Port <$> concat ls') as ->; [|done].
  rewrite !list_elem_of_fmap. split; intros (x & Hx & Hin); exists x; (split; [done|]); by apply H.
Qed.

(** Merging what was already merged loses nothing. *)
Lemma MergeListeningPorts_merged ls rest :
  MergeListeningPorts (MergeListeningPorts ls :: rest) = MergeListeningPorts (ls ++ rest).
Proof.
  apply ports_sorted_unique; [apply MergeListeningPorts_sorted..|].
  intros lp. rewrite !elem_of_MergeListeningPorts. cbn [concat]. rewrite concat_app.
  assert (forall port, port ∈ Port <$> MergeListeningPorts ls <-> port ∈ Port <$> concat ls) as Hp.
  { intros port. rewrite list_elem_of_fmap. split.
    - intros (x & -> & Hx%elem_of_MergeListeningPorts). by destruct Hx.
    - intros Hin. exists (mkPort port (all_loopback port (concat ls))). split; [done|].
      by apply elem_of_MergeListeningPorts. }
  assert (forall port, all_loopback port (MergeListeningPorts ls) = all_loopback port (concat ls)) as Hl.
  { intros port. apply eq_true_iff_eq. unfold all_loopback at 1. rewrite forallb_forall. split.
    - intros H. destruct (decide (port ∈ Port <$> concat ls)) as [Hin|Hin].
      + assert (mkPort port (all_loopback port (concat ls)) ∈ MergeListeningPorts ls) as Hm
          by by apply elem_of_MergeListeningPorts.
        apply list_elem_of_In, H in Hm. cbn in Hm. by rewrite Z.eqb_refl in Hm.
      + apply forallb_forall. intros x Hx%list_elem_of_In. destruct (Z.eqb_spec (Port x) port) as [<-|]; [|done].
        exfalso. apply Hin. by apply list_elem_of_fmap_2.
    - intros H x Hx%list_elem_of_In%elem_of_MergeListeningPorts. destruct Hx as [_ Hx].
      destruct (Z.eqb_spec (Port x) port) as [<-|]; [|done]. by rewrite Hx, H. }
  rewrite !fmap_app, !elem_of_app, Hp. unfold all_loopback in *. rewrite !forallb_app, Hl. done.
Qed.

(** ** Socket tables as the kernel prints them *)

Definition hex_char (n : Z) : Ascii.ascii := ascii_of_N (Z.to_N (if n <? 10 then n + 48 else n + 55)).
Definition print_byte (b : Z) : string := String (hex_char (b / 16)) (String (hex_char (b mod 16)) "").
Definition print_bytes (bs : list Z) : string := foldr (fun b s => print_byte b +:+ s) "" bs.

(** The address words in host order, then the port, in hexadecimal. *)
Definition print_local (ip : list Z) (port : Z) : string :=
  print_bytes (swap_words ip) +:+ ":" +:+ print_bytes [port / 256; port mod 256].

Record socket := mkSocket {
  so_slot : string;
  so_addr : list Z;
  so_port : Z;
  so_peer : string;
  so_state : string;
  so_queues : list string;   (** tx and rx queue, timer, retransmits, uid, timeout *)
  so_inode : Z;
  so_tail : list string;
}.

Definition print_row (s : socket) : string :=
  print_words (so_slot s :: print_local (so_addr s) (so_port s) :: so_peer s :: so_state s ::
               so_queues s ++ FormatUint (so_inode s) :: so_tail s).

Definition listens (s : socket) : bool := bool_decide (so_state s = tcpStateListen).
Definition port_of (s : socket) : ListeningPort := mkPort (so_port s) (IsLoopback (so_addr s)).

Definition is_byte (b : Z) : Prop := 0 <= b < 256.
Definition is_socket (s : socket) : Prop :=
  Forall is_word (so_slot s :: so_peer s :: so_state s :: so_queues s ++ so_tail s) /\
  length (so_queues s) = 5%nat /\ (length (so_addr s) = 4%nat \/ length (so_addr s) = 16%nat) /\
  Forall is_byte (so_addr s) /\ 0 < so_port s < 65536 /\ uint64_ok (so_inode s).

Lemma hex_value_char n : 0 <= n < 16 -> hex_value (hex_char n) = Some n.
Proof.
  intros Hn. assert (Forall (fun n => hex_value (hex_char n) = Some n) (seqZ 0 16)) as H by repeat constructor.
  rewrite Forall_forall in H. apply H, elem_of_seqZ. lia.
Qed.

Lemma hex_char_word n : 0 <= n < 16 -> is_space (hex_char n) = false /\ hex_char n <> ":"%char.
Proof.
  intros Hn. assert (Forall (fun n => is_space (hex_char n) = false /\ hex_char n <> ":"%char) (seqZ 0 16)) as H
    by (repeat constructor; discriminate).
  rewrite Forall_forall in H. apply H, elem_of_seqZ. lia.
Qed.

Lemma byte_nibbles b : is_byte b -> 0 <= b / 16 < 16 /\ 0 <= b mod 16 < 16 /\ b / 16 * 16 + b mod 16 = b.
Proof. unfold is_byte. intros Hb. Z.div_mod_to_equations. lia. Qed.

Lemma print_byte_cons b s :
  print_byte b +:+ s = String (hex_char (b / 16)) (String (hex_char (b mod 16)) s).
Proof. reflexivity. Qed.

Lemma DecodeString_print bs : Forall is_byte bs -> DecodeString (print_bytes bs) = Some bs.
Proof.
  induction 1 as [|b bs Hb _ IH]; [done|]. unfold print_bytes. cbn [foldr]. fold (print_bytes bs).
  destruct (byte_nibbles b Hb) as (H1 & H2 & H3). rewrite print_byte_cons. cbn [DecodeString].
  rewrite !hex_value_char by done. cbn [mbind option_bind]. rewrite IH. cbn. by rewrite H3.
Qed.

Lemma hex_digits_print acc b s :
  is_byte b -> hex_digits acc (print_byte b +:+ s) = hex_digits (acc * 256 + b) s.
Proof.
  intros Hb. destruct (byte_nibbles b Hb) as (H1 & H2 & H3). rewrite print_byte_cons. cbn [hex_digits].
  rewrite !hex_value_char by done. cbn [mbind option_bind]. f_equal. lia.
Qed.

Lemma print_bytes_word bs :
  Forall is_byte bs -> no_space (print_bytes bs) = true /\ has_byte ":"%char (print_bytes bs) = false.
Proof.
  induction 1 as [|b bs Hb _ [IH1 IH2]]; [done|]. unfold print_bytes. cbn [foldr]. fold (print_bytes bs).
  destruct (byte_nibbles b Hb) as (H1 & H2 & _).
  destruct (hex_char_word _ H1) as [S1 C1], (hex_char_word _ H2) as [S2 C2].
  rewrite print_byte_cons. cbn [no_space has_byte]. rewrite S1, S2, IH1, IH2.
  by rewrite !bool_decide_eq_false_2 by congruence.
Qed.

Lemma swap_words_swap ip :
  length ip = 4%nat \/ length ip = 16%nat ->
  swap_words (swap_words ip) = ip /\ length (swap_words ip) = length ip /\
  (Forall is_byte ip -> Forall is_byte (swap_words ip)).
Proof.
  intros [H|H]; do 4 (destruct ip as [|? ip]; [done|]).
  - destruct ip; [|done]. split_and!; [done..|]. cbn [swap_words]. rewrite !Forall_cons. tauto.
  - do 12 (destruct ip as [|? ip]; [done|]). destruct ip; [|done]. split_and!; [done..|].
    cbn [swap_words]. rewrite !Forall_cons. tauto.
Qed.

(** The port and the loopback bit survive being printed by the kernel. *)
Lemma parseLocalAddress_print ip port :
  length ip = 4%nat \/ length ip = 16%nat -> Forall is_byte ip -> 0 < port < 65536 ->
  parseLocalAddress (print_local ip port) = Some (port, IsLoopback ip).
Proof.
  intros Hl Hb Hp. destruct (swap_words_swap ip Hl) as (Hs & Hn & Hsb). specialize (Hsb Hb).
  assert (is_byte (port / 256) /\ is_byte (port mod 256) /\ port / 256 * 256 + port mod 256 = port)
    as (P1 & P2 & P3) by (unfold is_byte; Z.div_mod_to_equations; lia).
  unfold parseLocalAddress, print_local. change (":" +:+ ?s) with (String ":"%char s).
  rewrite Cut_app by by apply print_bytes_word. cbn [mbind option_bind].
  assert (ParseHex32 (print_bytes [port / 256; port mod 256]) = Some port) as ->.
  { unfold ParseHex32, print_bytes. cbn [foldr].
    rewrite hex_digits_print, hex_digits_print by done. cbn [hex_digits].
    rewrite print_byte_cons. cbn [mbind option_bind]. rewrite Z.mul_0_l, Z.add_0_l, P3.
    destruct (Z.leb_spec port (2 ^ 32 - 1)); [done|lia]. }
  cbn [mbind option_bind].
  destruct (Z.eqb_spec port 0), (Z.ltb_spec 65535 port); cbn [orb]; try lia.
  rewrite DecodeString_print by done. cbn [mbind option_bind]. rewrite Hn, Hs.
  destruct Hl as [Hl|Hl]; rewrite Hl; reflexivity.
Qed.

Lemma no_space_app s t : no_space (s +:+ t) = no_space s && no_space t.
Proof.
  induction s as [|c s IH]; [done|]. change (String c s +:+ t) with (String c (s +:+ t)). cbn [no_space].
  by rewrite IH, andb_assoc.
Qed.

Lemma print_local_word ip port :
  length ip = 4%nat \/ length ip = 16%nat -> Forall is_byte ip -> 0 < port < 65536 -> is_word (print_local ip port).
Proof.
  intros Hl Hb Hp. destruct (swap_words_swap ip Hl) as (_ & _ & Hs). specialize (Hs Hb).
  assert (Forall is_byte [port / 256; port mod 256]) as Hpb.
  { repeat constructor; unfold is_byte; Z.div_mod_to_equations; lia. }
  unfold print_local. split.
  - destruct (print_bytes (swap_words ip)); by intros [=].
  - rewrite !no_space_app. destruct (print_bytes_word _ Hs) as [-> _], (print_bytes_word _ Hpb) as [-> _]. done.
Qed.

Lemma all_digits_no_space s : all_digits s = true -> no_space s = true.
Proof.
  induction s as [|c s IH]; [done|]. cbn. intros [Hc%bool_decide_eq_true Hs]%andb_true_iff.
  rewrite IH, andb_true_r by done. destruct (is_space c) eqn:E; [|done]. exfalso. destruct Hc as [d Hd].
  destruct c as [[] [] [] [] [] [] [] []]; vm_compute in Hd, E; discriminate.
Qed.

Lemma FormatUint_word n : is_word (FormatUint n).
Proof. split; [apply FormatUint_nonempty|]. apply all_digits_no_space, all_digits_FormatUint. Qed.

Lemma print_row_words s : is_socket s ->
  Forall is_word (so_slot s :: print_local (so_addr s) (so_port s) :: so_peer s :: so_state s ::
                  so_queues s ++ FormatUint (so_inode s) :: so_tail s).
Proof.
  intros (Hw & _ & Hl & Hb & Hp & _). rewrite !Forall_cons, Forall_app in *. rewrite Forall_cons.
  pose proof (print_local_word _ _ Hl Hb Hp). pose proof (FormatUint_word (so_inode s)). tauto.
Qed.

Lemma listen_row_print s : is_socket s ->
  listen_row (print_row s) = if listens s then Some (so_inode s, port_of s) else None.
Proof.
  intros Hs. pose proof (print_row_words s Hs) as Hw. destruct Hs as (_ & Hq & Hl & Hb & Hp & Hi).
  unfold listen_row, print_row. rewrite Fields_print by done.
  destruct (so_queues s) as [|q1 [|q2 [|q3 [|q4 [|q5 [|]]]]]]; try done.
  rewrite bool_decide_eq_false_2 by (cbn; lia). cbn [app lookup list_lookup orb].
  unfold listens. destruct (decide (so_state s = tcpStateListen)) as [->|Hne].
  - rewrite !bool_decide_eq_true_2 by done. cbn [negb]. cbn [mbind option_bind].
    rewrite parseLocalAddress_print by done. cbn [mbind option_bind]. by rewrite ParseUint_FormatUint.
  - rewrite !bool_decide_eq_false_2 by congruence. done.
Qed.

Definition print_table (header : string) (socks : list socket) : string := print_lines (header :: (print_row <$> socks)).

(** A header line no row can be mistaken for. *)
Definition is_header (header : string) : Prop :=
  has_byte newline_byte header = false /\ has_byte (ascii_of_N 13) header = false /\ listen_row header = None.

Lemma parse_table header socks m : is_header header -> Forall is_socket socks ->
  parseListenRows (print_table header socks) m =
    foldl (fun m s => <[so_inode s := port_of s]> m) m (List.filter listens socks).
Proof.
  intros (H1 & H2 & H3) Hs. unfold parseListenRows, print_table. rewrite Lines_print.
  - cbn [foldl]. rewrite H3. clear H1 H2 H3. revert m. induction Hs as [|s socks Hs _ IH]; intros m; [done|].
    cbn [fmap list_fmap foldl List.filter]. rewrite listen_row_print by done.
    destruct (listens s); cbn [foldl]; apply IH.
  - constructor; [done|]. apply Forall_fmap. eapply Forall_impl; [exact Hs|]. intros s Hsock.
    pose proof (print_row_words s Hsock). by split; apply print_words_byte.
Qed.

Lemma LimitReader_short n s : Z.of_nat (String.length s) <= n -> LimitReader n s = s.
Proof.
  revert n. induction s as [|c s IH]; intros n H; [done|]. cbn [LimitReader]. cbn [String.length] in H.
  destruct (Z.leb_spec n 0); [lia|]. rewrite IH; [done|lia].
Qed.

Lemma foldl_insert_lookup (socks : list socket) (m : gmap Z ListeningPort) i lp :
  NoDup (so_inode <$> socks) -> (forall s, s ∈ socks -> m !! so_inode s = None) ->
  foldl (fun m s => <[so_inode s := port_of s]> m) m socks !! i = Some lp <->
  m !! i = Some lp \/ exists s, s ∈ socks /\ so_inode s = i /\ port_of s = lp.
Proof.
  revert m. induction socks as [|s socks IH]; intros m Hnd Hm; cbn [foldl].
  - split; [by left|]. intros [?|(s & Hs & _)]; [done|]. by apply elem_of_nil in Hs.
  - cbn in Hnd. apply NoDup_cons in Hnd as [Hn Hnd]. rewrite IH; [|done|].
    + destruct (decide (i = so_inode s)) as [->|Hi].
      * rewrite lookup_insert_eq. split.
        { intros [[= <-]|(t & Ht & He & _)]; [right; exists s; by rewrite elem_of_cons; auto|].
          exfalso. apply Hn. rewrite <-He. by apply list_elem_of_fmap_2. }
        { intros [H|(t & [->|Ht]%elem_of_cons & He & <-)]; [|by left|].
          - rewrite Hm in H; [done|]. by left.
          - exfalso. apply Hn. rewrite <-He. by apply list_elem_of_fmap_2. }
      * rewrite lookup_insert_ne by done. setoid_rewrite elem_of_cons. split.
        { intros [?|(t & Ht & ? & ?)]; [by left|]. right. exists t. auto. }
        { intros [?|(t & [->|Ht] & He & ?)]; [by left|congruence|]. right. exists t. auto. }
    + intros t Ht. rewrite lookup_insert_ne; [apply Hm; by right|].
      intros He. apply Hn. rewrite He. by apply list_elem_of_fmap_2.
Qed.

(** ** Descriptors as the kernel links them *)

Inductive descriptor := Socket_ (inode : Z) | Other_ (target : string) | Unread.
Definition link (d : descriptor) : option string :=
  match d with
  | Socket_ inode => Some ("socket:[" +:+ FormatUint inode +:+ "]")
  | Other_ target => Some target
  | Unread => None
  end.
Definition is_descriptor (d : descriptor) : Prop :=
  match d with
  | Socket_ inode => uint64_ok inode
  | Other_ target => HasPrefix target "socket:[" = false
  | Unread => True
  end.

Lemma socketInode_link d : is_descriptor d ->
  (link d ≫= socketInode) = match d with Socket_ inode => Some inode | _ => None end.
Proof.
  destruct d as [i|t|]; cbn [link is_descriptor mbind option_bind]; intros Hd; [| |done].
  - unfold socketInode. rewrite CutPrefix_app. cbn [mbind option_bind]. rewrite CutSuffix_app.
    by apply ParseUint_FormatUint.
  - unfold socketInode. unfold HasPrefix in Hd. apply bool_decide_eq_false in Hd.
    destruct (CutPrefix t "socket:["); [|done]. exfalso. by apply Hd.
Qed.

Lemma processSocketInodes_links ds i : Forall is_descriptor ds -> Z.of_nat (length ds) <= maxProcessFDs ->
  i ∈ processSocketInodes (Some (link <$> ds)) <-> Socket_ i ∈ ds.
Proof.
  intros Hd Hl. unfold processSocketInodes. rewrite length_fmap. destruct (Z.ltb_spec maxProcessFDs (Z.of_nat (length ds))); [lia|].
  rewrite elem_of_list_to_set, list_elem_of_omap. rewrite Forall_forall in Hd. split.
  - intros (o & (d & -> & Hin)%list_elem_of_fmap & Ho). rewrite socketInode_link in Ho by auto.
    destruct d; try done. by injection Ho as <-.
  - intros Hin. exists (link (Socket_ i)). split; [by apply list_elem_of_fmap_2|].
    by rewrite (socketInode_link (Socket_ i)) by auto.
Qed.

(** The two tables together, by inode. *)
Lemma tables_lookup header socks4 socks6 i lp :
  is_header header -> Forall is_socket (socks4 ++ socks6) ->
  NoDup (so_inode <$> List.filter listens (socks4 ++ socks6)) ->
  Z.of_nat (String.length (print_table header socks4)) <= maxSocketBytes ->
  Z.of_nat (String.length (print_table header socks6)) <= maxSocketBytes ->
  readListenRows (Some (print_table header socks6)) (readListenRows (Some (print_table header socks4)) ∅) !! i
    = Some lp <->
  exists s, s ∈ socks4 ++ socks6 /\ so_state s = tcpStateListen /\ so_inode s = i /\ port_of s = lp.
Proof.
  intros Hh [Hs4 Hs6]%Forall_app Hnd H4 H6. unfold readListenRows.
  rewrite !LimitReader_short by lia. rewrite !parse_table, <-foldl_app by done.
  rewrite List.filter_app in Hnd. rewrite foldl_insert_lookup, lookup_empty, <-List.filter_app; [|done|done].
  split.
  - intros [?|(s & Hs%list_elem_of_In & Hi & Hlp)]; [done|]. apply List.filter_In in Hs as [Hs Hl].
    apply list_elem_of_In in Hs. apply bool_decide_eq_true in Hl. by exists s.
  - intros (s & Hs & Hl & Hi & Hlp). right. exists s. split; [|done].
    apply list_elem_of_In, List.filter_In. split; [by apply list_elem_of_In|]. by apply bool_decide_eq_true.
Qed.

(** The ports reported for a process are its own.  Whatever else the tables
    of its network namespace list, connections, other containers' listeners or
    the node's, exactly the ports of the listening sockets the process itself
    holds come out, once each and in order, and a port is called loopback only
    if each of its bindings is. *)
Theorem process_ports_are_its_own (header : string) (socks4 socks6 : list socket) (ds : list descriptor) :
  is_header header -> Forall is_socket (socks4 ++ socks6) ->
  NoDup (so_inode <$> List.filter listens (socks4 ++ socks6)) ->
  Z.of_nat (String.length (print_table header socks4)) <= maxSocketBytes ->
  Z.of_nat (String.length (print_table header socks6)) <= maxSocketBytes ->
  Forall is_descriptor ds -> Z.of_nat (length ds) <= maxProcessFDs ->
  let ports := ReadListeningPorts (Some (print_table header socks4)) (Some (print_table header socks6))
                 (Some (link <$> ds)) in
  let own s := s ∈ socks4 ++ socks6 /\ so_state s = tcpStateListen /\ Socket_ (so_inode s) ∈ ds in
  StronglySorted (fun a b => less_port a b = true) ports /\
  (forall port, port ∈ Port <$> ports <-> exists s, own s /\ so_port s = port) /\
  (forall lp, lp ∈ ports ->
     (Loopback lp = true <-> forall s, own s -> so_port s = Port lp -> IsLoopback (so_addr s) = true)).
Proof.
  intros Hh Hs Hnd H4 H6 Hd Hl ports own.
  pose proof (fun i lp => tables_lookup header socks4 socks6 i lp Hh Hs Hnd H4 H6) as Hm.
  unfold ReadListeningPorts in ports.
  set (m := readListenRows _ _) in *.
  set (held := (map_to_list _).*2) in ports.
  assert (forall lp, lp ∈ held <-> exists s, own s /\ port_of s = lp) as Hheld.
  { intros lp. unfold held. rewrite list_elem_of_fmap. split.
    - intros ([i q] & -> & Hin%elem_of_map_to_list). apply map_lookup_filter_Some in Hin as [(s & H1 & H2 & <- & Hq)%Hm Hi].
      apply processSocketInodes_links in Hi; [|done..]. by exists s.
    - intros (s & (H1 & H2 & H3) & Hp). exists (so_inode s, lp). split; [done|].
      apply elem_of_map_to_list, map_lookup_filter_Some. split; [apply Hm; by exists s|].
      by apply processSocketInodes_links. }
  assert (ports = MergeListeningPorts [held]) as ->.
  { unfold ports. case_bool_decide as Hme; [|done]. assert (held = []) as ->; [|done].
    unfold held. by rewrite Hme, map_filter_empty, map_to_list_empty. }
  clearbody held. clear m Hm. split_and!.
  - apply MergeListeningPorts_sorted.
  - intros port. rewrite list_elem_of_fmap. split.
    + intros (lp & -> & [Hlp _]%elem_of_MergeListeningPorts). cbn [concat] in Hlp. rewrite app_nil_r in Hlp.
      apply list_elem_of_fmap in Hlp as (q & -> & (s & Hso & <-)%Hheld). by exists s.
    + intros (s & Hso & <-). exists (mkPort (so_port s) (all_loopback (so_port s) (concat [held]))). split; [done|].
      apply elem_of_MergeListeningPorts. split; [|done]. cbn [concat]. rewrite app_nil_r.
      apply (list_elem_of_fmap_2' Port _ (port_of s)); [|done]. apply Hheld. by exists s.
  - intros lp [_ ->]%elem_of_MergeListeningPorts. cbn [concat]. rewrite app_nil_r.
    unfold all_loopback. rewrite forallb_forall. split.
    + intros H s Hso Hp. specialize (H (port_of s)). cbn in H. rewrite Hp, Z.eqb_refl in H. apply H.
      apply list_elem_of_In, Hheld. by exists s.
    + intros H q Hq%list_elem_of_In%Hheld. destruct Hq as (s & Hso & <-). cbn.
      destruct (Z.eqb_spec (so_port s) (Port lp)); [|done]. by apply H.
Qed.

Definition demo_header : string := "sl local_address rem_address st tx_queue rx_queue tr tm->when retrnsmt uid timeout inode".
Definition demo_queues : list string := ["00000000:00000000"; "00:00000000"; "00000000"; "1000"; "0"]%string.
Definition demo_socket ip port state inode : socket :=
  mkSocket "0:" ip port "0200A8C0:C350" state demo_queues inode ["1"; "0000000000000000"]%string.
Definition demo4 : list socket :=
  [demo_socket [127; 0; 0; 1] 6060 "0A" 11; demo_socket [10; 0; 0; 7] 8080 "0A" 12; demo_socket [10; 0; 0; 7] 8080 "01" 0;
   demo_socket [0; 0; 0; 0] 9090 "0A" 14].
Definition demo6 : list socket := [demo_socket IPv6loopback 8080 "0A" 13].
Definition demo_fds : list descriptor := [Other_ "/dev/null"; Socket_ 11; Socket_ 12; Socket_ 13; Unread].

Example demo_ports :
  ReadListeningPorts (Some (print_table demo_header demo4)) (Some (print_table demo_header demo6))
    (Some (link <$> demo_fds)) = [mkPort 6060 true; mkPort 8080 false].
Proof. vm_compute. reflexivity. Qed.

Lemma demo_socket_ok ip port state inode :
  is_word state -> length ip = 4%nat \/ length ip = 16%nat -> Forall is_byte ip -> 0 < port < 65536 -> uint64_ok inode ->
  is_socket (demo_socket ip port state inode).
Proof.
  intros Hw Hl Hb Hp Hi. split; [|exact (conj eq_refl (conj Hl (conj Hb (conj Hp Hi))))].
  cbn [so_slot so_peer so_state so_queues so_tail demo_socket demo_queues app].
  repeat (constructor; [first [exact Hw|split; [discriminate|reflexivity]]|]). constructor.
Defined.

Lemma demo_sockets : Forall is_socket (demo4 ++ demo6).
Proof.
  repeat (constructor; [apply demo_socket_ok;
    [split; [discriminate|reflexivity]|cbn; lia|repeat (constructor; [unfold is_byte; lia|]); constructor|lia|go_lia]|]).
  constructor.
Defined.

Lemma process_ports_are_its_own_witness :
  9090 ∉ Port <$> ReadListeningPorts (Some (print_table demo_header demo4)) (Some (print_table demo_header demo6))
                    (Some (link <$> demo_fds)).
Proof.
  destruct (process_ports_are_its_own demo_header demo4 demo6 demo_fds) as (_ & Hp & _).
  - split_and!; by vm_compute.
  - exact demo_sockets.
  - apply (bool_decide_unpack _). vm_compute. exact I.
  - vm_compute. discriminate.
  - vm_compute. discriminate.
  - repeat constructor; go_lia.
  - vm_compute. discriminate.
  - rewrite Hp. intros (s & (Hs & _ & Hd) & Hport). unfold demo4, demo6 in Hs.
    repeat (apply elem_of_cons in Hs as [->|Hs]; [try discriminate Hport|]); [|by apply elem_of_nil in Hs].
    cbn in Hd. unfold demo_fds in Hd. repeat (apply elem_of_cons in Hd as [Hd|Hd]; [discriminate Hd|]).
    by apply elem_of_nil in Hd.
Defined.
