(* ===== verification/Binding.v ===== *)
(** Which processes the node may look at, from [internal/nodescan]: the pod and
    container a process's cgroup names (cgroup.go), the scope the controller
    supplies (scope.go) and the modules dropped as infrastructure (filter.go).

    The two regular expressions are written out as lists of byte classes: both
    match a fixed number of bytes, so the leftmost match is the first place they
    match at all.  [strings.EqualFold] compares ASCII letters: a prefix of ASCII
    bytes folds only to ASCII bytes when as many bytes are compared. *)

From stdpp Require Import prelude gmap strings list.
From Stdlib Require Import ZArith Lia Ascii.
From S2P Require Import Prelude GoStrings.
Local Open Scope Z_scope.
Local Open Scope go_scope.

(** ** Fixed-length patterns *)

Definition byte_class : Type := Ascii.ascii -> bool.

Definition is_hex (c : Ascii.ascii) : bool :=
  let n := Z.of_N (N_of_ascii c) in
  ((48 <=? n) && (n <=? 57)) || ((97 <=? n) && (n <=? 102)) || ((65 <=? n) && (n <=? 70)).
Definition is_dash (c : Ascii.ascii) : bool := bool_decide (c = "-"%char) || bool_decide (c = "_"%char).
Definition is_byte (d : Ascii.ascii) : byte_class := fun c => bool_decide (c = d).

(** What the pattern matches at the beginning. *)
Fixpoint match_here (pattern : list byte_class) (s : string) : option string :=
  match pattern, s with
  | [], _ => Some EmptyString
  | class :: pattern, String c s => if class c then String c <$> match_here pattern s else None
  | _ :: _, EmptyString => None
  end.

(** The leftmost match. *)
Fixpoint find_first (pattern : list byte_class) (s : string) : option string :=
  match match_here pattern s with
  | Some m => Some m
  | None => match s with EmptyString => None | String _ s => find_first pattern s end
  end.

(** The matches from left to right that do not overlap; [skip] bytes belong to
    the last one. *)
Fixpoint find_all (pattern : list byte_class) (skip : nat) (s : string) : list string :=
  match s with
  | EmptyString => []
  | String _ s' =>
      match skip with
      | S skip => find_all pattern skip s'
      | O => match match_here pattern s with
             | Some m => m :: find_all pattern (String.length m - 1) s'
             | None => find_all pattern O s'
             end
      end
  end.

Definition hexes (n : nat) : list byte_class := repeat is_hex n.
Definition uid_classes : list byte_class :=
  hexes 8 ++ [is_dash] ++ hexes 4 ++ [is_dash] ++ hexes 4 ++ [is_dash] ++ hexes 4 ++ [is_dash] ++ hexes 12.
Definition podUIDPattern : list byte_class := [is_byte "p"%char; is_byte "o"%char; is_byte "d"%char] ++ uid_classes.
Definition containerIDPattern : list byte_class := hexes 64.

(** The one group of [podUIDPattern]: all but its first three bytes. *)
Definition uid_group (m : string) : string := match m with String _ (String _ (String _ uid)) => uid | _ => EmptyString end.

(** ** cgroup.go *)

Record PodBinding := mkPodBinding { pb_PodUID : string; pb_ContainerID : string }.
Definition noBinding : PodBinding := mkPodBinding "" "".

Fixpoint ReplaceByte (s : string) (old new : Ascii.ascii) : string :=
  match s with
  | EmptyString => EmptyString
  | String c s => String (if bool_decide (c = old) then new else c) (ReplaceByte s old new)
  end.

(** The path of a line, after its second colon. *)
Definition cgroup_path (line : string) : option string :=
  '(_, rest) ← Cut line ":"%char; '(_, path) ← Cut rest ":"%char; Some path.

Definition cgroup_line (b : PodBinding) (line : string) : PodBinding :=
  match cgroup_path line with
  | None => b
  | Some path =>
      let uid := if bool_decide (pb_PodUID b = ""%string)
                 then match find_first podUIDPattern path with
                      | Some m => ReplaceByte (uid_group m) "_"%char "-"%char
                      | None => pb_PodUID b
                      end
                 else pb_PodUID b in
      let cid := match list.last (find_all containerIDPattern 0 path) with
                 | Some m => ToLower m
                 | None => pb_ContainerID b
                 end in
      mkPodBinding uid cid
  end.
Definition parseCgroup (content : string) : PodBinding := foldl cgroup_line noBinding (SplitByte content newline_byte).
Definition ReadBinding (cgroup : option string) : PodBinding :=
  match cgroup with None => noBinding | Some raw => parseCgroup raw end.

(** ** scope.go *)

Abbreviation Scope := (gset string).
Definition NewScope (podUIDs : list string) : Scope := list_to_set (List.filter (fun uid => negb (bool_decide (uid = ""%string))) podUIDs).
Definition DenyAll : Scope := ∅.
Definition Admits (s : Scope) (podUID : string) : bool :=
  if bool_decide (podUID = ""%string) then false else bool_decide (podUID ∈ s).
Definition ScopeSize (s : Scope) : Z := Z.of_nat (size s).

Lemma Admits_NewScope uids uid : Admits (NewScope uids) uid = true <-> uid <> ""%string /\ uid ∈ uids.
Proof.
  unfold Admits, NewScope. case_bool_decide as Hu; [by split; [|intros [? _]]|].
  rewrite bool_decide_eq_true, elem_of_list_to_set, !list_elem_of_In, List.filter_In.
  rewrite negb_true_iff, bool_decide_eq_false. tauto.
Qed.

(** ** filter.go *)

Definition DefaultInfraModulePrefixes : list string :=
  ["github.com/RebuildStackCo/"; "k8s.io/"; "sigs.k8s.io/"; "github.com/containerd/"; "github.com/opencontainers/";
   "github.com/cri-o/"; "github.com/coredns/"; "github.com/containernetworking/"; "github.com/cilium/";
   "github.com/projectcalico/"; "github.com/tigera/"; "istio.io/"; "github.com/envoyproxy/"; "go.etcd.io/";
   "github.com/prometheus/"; "github.com/prometheus-operator/"; "github.com/grafana/"; "github.com/open-telemetry/";
   "github.com/fluent/"]%string.

Definition EqualFold (a b : string) : bool := bool_decide (ToLower a = ToLower b).
Definition prefixOnBoundary (path prefix : string) : bool :=
  if (String.length path <? String.length prefix)%nat then false
  else EqualFold (String.substring 0 (String.length prefix) path) prefix.

Record ModuleFilter := mkModuleFilter { mf_prefixes : list string }.
Definition NewModuleFilter (dropPrefixes : list string) : ModuleFilter := mkModuleFilter dropPrefixes.
Definition IsInfra (f : ModuleFilter) (modulePath : string) : bool := existsb (prefixOnBoundary modulePath) (mf_prefixes f).

Example infra_on_a_boundary :
  IsInfra (NewModuleFilter DefaultInfraModulePrefixes) <$>
    ["k8s.io/kubernetes"; "K8S.io/kubernetes"; "k8s.io.example.com/app"; "github.com/acme/app"; "github.com/rebuildstackco/runtime-agent"; ""]%string
  = [true; true; false; false; true; false].
Proof. vm_compute. reflexivity. Qed.

(** ** What the kubelet's paths say *)

Fixpoint all_hex (w : string) : bool := match w with EmptyString => true | String c w => is_hex c && all_hex w end.
Definition hex_word (n : nat) (w : string) : Prop := all_hex w = true /\ String.length w = n.

Definition dashed (d : Ascii.ascii) (a b c e f : string) : string :=
  a +:+ String d (b +:+ String d (c +:+ String d (e +:+ String d f))).
Definition hex_groups (a b c e f : string) : Prop :=
  hex_word 8 a /\ hex_word 4 b /\ hex_word 4 c /\ hex_word 4 e /\ hex_word 12 f.

(** A pod's UID as the API server has it, a container's digest. *)
Definition is_uid (uid : string) : Prop := exists a b c e f, hex_groups a b c e f /\ uid = dashed "-"%char a b c e f.
Definition is_digest (cid : string) : Prop := hex_word 64 cid /\ ToLower cid = cid.

(** The kubelet's cgroup paths, per driver and class of service. *)
Record layout := mkLayout { lo_before : string; lo_between : string; lo_after : string; lo_dash : Ascii.ascii }.
Definition kubelet_layouts : list layout :=
  [mkLayout "/kubepods/" "/" "" "-"%char;
   mkLayout "/kubepods/burstable/" "/" "" "-"%char;
   mkLayout "/kubepods/besteffort/" "/" "" "-"%char;
   mkLayout "/kubepods.slice/kubepods-" ".slice/cri-containerd-" ".scope" "_"%char;
   mkLayout "/kubepods.slice/kubepods-burstable.slice/kubepods-burstable-" ".slice/cri-containerd-" ".scope" "_"%char;
   mkLayout "/kubepods.slice/kubepods-besteffort.slice/kubepods-besteffort-" ".slice/crio-" ".scope" "_"%char].

Definition print_path (l : layout) (uid cid : string) : string :=
  lo_before l +:+ "pod" +:+ ReplaceByte uid "-"%char (lo_dash l) +:+ lo_between l +:+ cid +:+ lo_after l.

Lemma match_hexes w n rest s :
  hex_word n w -> match_here (hexes n ++ rest) (w +:+ s) = (fun m => w +:+ m) <$> match_here rest s.
Proof.
  intros [Hw <-]. induction w as [|c w IH].
  - change (match_here rest s = (fun m => m) <$> match_here rest s). by destruct (match_here rest s).
  - cbn [all_hex] in Hw. apply andb_true_iff in Hw as [Hc Hw]. rewrite string_app_cons. cbn [String.length].
    change (hexes (S (String.length w))) with (is_hex :: hexes (String.length w)). cbn [app match_here].
    rewrite Hc, IH by done. by destruct (match_here rest s).
Qed.

Lemma match_dash d rest s : is_dash d = true -> match_here (is_dash :: rest) (String d s) = String d <$> match_here rest s.
Proof. intros Hd. cbn. by rewrite Hd. Qed.

Lemma match_byte x rest s : match_here (is_byte x :: rest) (String x s) = String x <$> match_here rest s.
Proof. cbn. unfold is_byte. by rewrite bool_decide_eq_true_2. Qed.

Lemma match_nil s : match_here [] s = Some EmptyString.
Proof. by destruct s. Qed.

Lemma uid_matches d a b c e f s :
  is_dash d = true -> hex_groups a b c e f -> match_here uid_classes (dashed d a b c e f +:+ s) = Some (dashed d a b c e f).
Proof.
  intros Hd (Ha & Hb & Hc & He & Hf). unfold dashed, uid_classes. rewrite <-!string_app_assoc.
  rewrite match_hexes by done. cbn [app]. rewrite string_app_cons, match_dash by done.
  rewrite <-!string_app_assoc. change (fun m => a +:+ m) with (String.append a).
  rewrite match_hexes by done. rewrite string_app_cons, match_dash by done. rewrite <-!string_app_assoc.
  rewrite match_hexes by done. rewrite string_app_cons, match_dash by done. rewrite <-!string_app_assoc.
  rewrite match_hexes by done. rewrite string_app_cons, match_dash by done.
  assert (match_here (hexes 12) (f +:+ s) = Some f) as ->.
  { rewrite <-(app_nil_r (hexes 12)), match_hexes, match_nil by done. cbn. by rewrite string_app_nil_r. }
  done.
Qed.

(** The dashes of a UID, exchanged and back. *)
Lemma ReplaceByte_app s t old new : ReplaceByte (s +:+ t) old new = ReplaceByte s old new +:+ ReplaceByte t old new.
Proof. induction s as [|c s IH]; [done|]. rewrite !string_app_cons. cbn [ReplaceByte]. by rewrite string_app_cons, IH. Qed.

Lemma ReplaceByte_hex n w old new : hex_word n w -> is_hex old = false -> ReplaceByte w old new = w.
Proof.
  intros [Hw _] Ho. induction w as [|c w IH]; [done|]. cbn in *. apply andb_true_iff in Hw as [Hc Hw].
  rewrite bool_decide_eq_false_2 by (intros ->; congruence). by rewrite IH.
Qed.

Lemma redash d d' a b c e f :
  is_dash d = true -> hex_groups a b c e f -> ReplaceByte (dashed d a b c e f) d d' = dashed d' a b c e f.
Proof.
  intros Hd (Ha & Hb & Hc & He & Hf).
  assert (Hno : is_hex d = false).
  { unfold is_dash in Hd. apply orb_true_iff in Hd as [->%bool_decide_eq_true | ->%bool_decide_eq_true]; done. }
  assert (Hstep : forall n w s, hex_word n w -> ReplaceByte (w +:+ String d s) d d' = w +:+ String d' (ReplaceByte s d d')).
  { intros n w s Hw. rewrite ReplaceByte_app, (ReplaceByte_hex n) by done. cbn [ReplaceByte]. by rewrite bool_decide_eq_true_2. }
  unfold dashed. rewrite (Hstep 8%nat), !(Hstep 4%nat) by done. by rewrite (ReplaceByte_hex 12).
Qed.

Lemma dashes_only a b c e f : hex_groups a b c e f ->
  ReplaceByte (dashed "-" a b c e f) "_"%char "-"%char = dashed "-" a b c e f.
Proof.
  intros (Ha & Hb & Hc & He & Hf). unfold dashed.
  assert (Hstep : forall n w s, hex_word n w ->
    ReplaceByte (w +:+ String "-" s) "_"%char "-"%char = w +:+ String "-" (ReplaceByte s "_"%char "-"%char)).
  { intros n w s Hw. rewrite ReplaceByte_app, (ReplaceByte_hex n) by done. done. }
  rewrite (Hstep 8%nat), !(Hstep 4%nat) by done. by rewrite (ReplaceByte_hex 12).
Qed.

(** A digest is not found where a byte that is no hex digit comes soon. *)
Fixpoint soon (n : nat) (s : string) : bool :=
  match n, s with
  | S n, String c s => negb (is_hex c) || soon n s
  | _, _ => false
  end.
Fixpoint broken (s : string) : bool := match s with EmptyString => true | String _ s' => soon 64 s && broken s' end.

Lemma soon_mismatch n s t : soon n s = true -> match_here (hexes n) (s +:+ t) = None.
Proof.
  revert s. induction n as [|n IH]; intros [|c s]; cbn [soon]; try done. intros Hs.
  rewrite string_app_cons. change (hexes (S n)) with (is_hex :: hexes n). cbn [match_here].
  destruct (is_hex c); [|done]. by rewrite IH.
Qed.
Lemma soon_app n s t : soon n s = true -> soon n (s +:+ t) = true.
Proof.
  revert s. induction n as [|n IH]; intros [|c s]; try done. rewrite string_app_cons. cbn [soon].
  destruct (is_hex c); [|done]. cbn. apply IH.
Qed.
Lemma broken_app s t : broken s = true -> broken t = true -> broken (s +:+ t) = true.
Proof.
  intros Hs Ht. induction s as [|c s IH]; [done|]. cbn [broken] in Hs. apply andb_true_iff in Hs as [H1 H2].
  rewrite string_app_cons. cbn [broken]. rewrite <-string_app_cons, soon_app, IH; done.
Qed.
Lemma broken_word w n t : hex_word n w -> (n < 64)%nat -> (exists c t', t = String c t' /\ is_hex c = false) ->
  broken t = true -> broken (w +:+ t) = true.
Proof.
  intros [Hw <-] Hn (c & t' & -> & Hc) Ht. induction w as [|d w IH]; [done|].
  cbn [all_hex String.length] in *. apply andb_true_iff in Hw as [Hd Hw].
  rewrite string_app_cons. cbn [broken]. rewrite IH by (done || lia). rewrite andb_true_r.
  assert (Hsoon : forall k w, (String.length w < k)%nat -> soon k (w +:+ String c t') = true).
  { clear -Hc. intros k. induction k as [|k IHk]; [intros; lia|]. intros [|x w]; cbn [String.length].
    - change (EmptyString +:+ ?s) with s. cbn [soon]. by rewrite Hc.
    - intros Hlt. rewrite string_app_cons. cbn [soon]. rewrite IHk by lia. apply orb_true_r. }
  apply (Hsoon 64%nat (String d w)). cbn [String.length]. lia.
Qed.

Lemma find_all_broken s t : broken s = true -> find_all containerIDPattern 0 (s +:+ t) = find_all containerIDPattern 0 t.
Proof.
  intros Hs. induction s as [|c s IH]; [done|]. cbn [broken] in Hs. apply andb_true_iff in Hs as [H1 H2].
  apply (soon_mismatch _ _ t) in H1. rewrite string_app_cons in *. cbn [find_all]. unfold containerIDPattern at 1. rewrite H1. by apply IH.
Qed.

Lemma find_all_skip pattern w t : find_all pattern (String.length w) (w +:+ t) = find_all pattern 0 t.
Proof. induction w as [|c w IH]; [done|]. rewrite string_app_cons. cbn [find_all String.length]. exact IH. Qed.

Lemma find_all_digest cid t : hex_word 64 cid ->
  find_all containerIDPattern 0 (cid +:+ t) = cid :: find_all containerIDPattern 0 t.
Proof.
  intros Hc. assert (Hm : match_here containerIDPattern (cid +:+ t) = Some cid).
  { unfold containerIDPattern. rewrite <-(app_nil_r (hexes 64)), match_hexes, match_nil by done. cbn. by rewrite string_app_nil_r. }
  destruct cid as [|c cid]; [by destruct Hc|]. rewrite string_app_cons in *. cbn [find_all]. rewrite Hm. f_equal.
  cbn [String.length]. rewrite Nat.sub_succ, Nat.sub_0_r. apply find_all_skip.
Qed.

(** ** Reading a kubelet path back *)

Lemma hex_word_no n w c : hex_word n w -> is_hex c = false -> has_byte c w = false.
Proof.
  intros [Hw _] Hc. induction w as [|d w IH]; [done|]. cbn in *. apply andb_true_iff in Hw as [Hd Hw].
  rewrite IH, orb_false_r by done. apply bool_decide_eq_false_2. intros <-. congruence.
Qed.

Lemma dashed_no d a b c e f x : hex_groups a b c e f -> is_hex x = false -> x <> d -> has_byte x (dashed d a b c e f) = false.
Proof.
  intros (Ha & Hb & Hc & He & Hf) Hx Hne. unfold dashed.
  assert (Hstep : forall n w s, hex_word n w -> has_byte x s = false -> has_byte x (w +:+ String d s) = false).
  { intros n w s Hw Hs. rewrite has_byte_app, (hex_word_no n) by done. cbn. rewrite Hs.
    by rewrite bool_decide_eq_false_2 by congruence. }
  eapply Hstep; [done|]. do 3 (eapply Hstep; [done|]). by eapply hex_word_no.
Qed.

Lemma dashed_broken d a b c e f t : is_hex d = false -> hex_groups a b c e f ->
  (exists x t', t = String x t' /\ is_hex x = false) -> broken t = true ->
  broken (String "d" (dashed d a b c e f +:+ t)) = true.
Proof.
  intros Hd (Ha & Hb & Hc & He & Hf) Hx Ht. unfold dashed.
  assert (Hsep : forall s, broken s = true -> broken (String d s) = true).
  { intros s Hs. cbn [broken]. rewrite Hs. cbn. by rewrite Hd. }
  rewrite <-!string_app_assoc, !string_app_cons, <-!string_app_assoc, !string_app_cons, <-!string_app_assoc,
    !string_app_cons, <-!string_app_assoc, !string_app_cons.
  rewrite <-string_app_cons. apply (broken_word (String "d" a) 9); [|lia|by eexists _, _|].
  { destruct Ha as [Ha <-]. by split. }
  apply Hsep. apply (broken_word _ 4); [done|lia|by eexists _, _|].
  apply Hsep. apply (broken_word _ 4); [done|lia|by eexists _, _|].
  apply Hsep. apply (broken_word _ 4); [done|lia|by eexists _, _|].
  apply Hsep. apply (broken_word _ 12); [done|lia|done|done].
Qed.

Definition layout_ok (l : layout) : Prop :=
  is_dash (lo_dash l) = true /\ is_hex (lo_dash l) = false /\
  (forall t, find_first podUIDPattern (lo_before l +:+ "pod" +:+ t) = find_first podUIDPattern ("pod" +:+ t)) /\
  broken (lo_before l +:+ "po") = true /\ broken (lo_between l) = true /\
  (exists x t, lo_between l = String x t /\ is_hex x = false) /\
  find_all containerIDPattern 0 (lo_after l) = [] /\
  has_byte newline_byte (lo_before l +:+ "pod" +:+ lo_between l +:+ lo_after l) = false /\ has_byte newline_byte (String (lo_dash l) EmptyString) = false.

Lemma kubelet_layouts_ok : Forall layout_ok kubelet_layouts.
Proof.
  repeat constructor; try reflexivity; try (intros t; reflexivity); try (eexists _, _; split; reflexivity).
Qed.

Lemma print_path_read l a b c e f cid b0 :
  layout_ok l -> hex_groups a b c e f -> is_digest cid ->
  (pb_PodUID b0 = ""%string \/ pb_PodUID b0 = dashed "-" a b c e f) ->
  let path := print_path l (dashed "-" a b c e f) cid in
  (if bool_decide (pb_PodUID b0 = ""%string)
   then match find_first podUIDPattern path with
        | Some m => ReplaceByte (uid_group m) "_"%char "-"%char
        | None => pb_PodUID b0
        end
   else pb_PodUID b0) = dashed "-" a b c e f /\
  find_all containerIDPattern 0 path = [cid].
Proof.
  intros (Hd & Hh & Hfind & Hbr & Hbt & Hx & Haft & _) Hg [Hcid _] Hb0 path. unfold path, print_path. clear path.
  rewrite redash by done. rewrite Hfind. split.
  - change ("pod" +:+ ?t) with (String "p" (String "o" (String "d" t))).
    assert (Hm : match_here podUIDPattern (String "p" (String "o" (String "d" (dashed (lo_dash l) a b c e f +:+ lo_between l +:+ cid +:+ lo_after l))))
      = Some (String "p" (String "o" (String "d" (dashed (lo_dash l) a b c e f))))).
    { unfold podUIDPattern. cbn [app]. by rewrite !match_byte, uid_matches. }
    cbn [find_first]. rewrite Hm. cbn [uid_group].
    case_bool_decide as He; [|by destruct Hb0].
    unfold is_dash in Hd. apply orb_true_iff in Hd as [->%bool_decide_eq_true | ->%bool_decide_eq_true].
    + by apply dashes_only.
    + by apply redash.
  - rewrite (string_app_assoc (lo_before l)). change "pod" with ("po" +:+ "d") at 1.
    rewrite (string_app_assoc (lo_before l) "po"), <-(string_app_assoc _ "d").
    rewrite find_all_broken by done. change ("d" +:+ ?t) with (String "d" t).
    rewrite (string_app_assoc (dashed _ _ _ _ _ _)), <-string_app_cons.
    rewrite find_all_broken; [|by apply dashed_broken].
    by rewrite find_all_digest, Haft.
Qed.

(** A process's cgroup file: a line per hierarchy, all naming one path, or the
    single line of the unified hierarchy. *)
Definition plain (w : string) : Prop := has_byte ":"%char w = false /\ has_byte newline_byte w = false.
Definition print_cgroup (l : layout) (uid cid : string) (hierarchies : list (string * string)) : string :=
  print_lines ((fun hc => hc.1 +:+ String ":" (hc.2 +:+ String ":" (print_path l uid cid))) <$> hierarchies).

Lemma cgroup_path_print h c path : plain h -> plain c -> cgroup_path (h +:+ String ":" (c +:+ String ":" path)) = Some path.
Proof. intros [Hh _] [Hc _]. unfold cgroup_path. rewrite Cut_app by done. cbn. by rewrite Cut_app. Qed.

Lemma print_path_no_newline l a b c e f cid :
  layout_ok l -> hex_groups a b c e f -> is_digest cid ->
  has_byte newline_byte (print_path l (dashed "-" a b c e f) cid) = false.
Proof.
  intros (Hd & Hh & _ & _ & _ & _ & _ & Hn & Hnd) Hg [Hcid _]. unfold print_path. rewrite redash by done.
  rewrite !has_byte_app in *. rewrite (hex_word_no 64 cid) by done.
  apply orb_false_iff in Hn as [-> Hn]. apply orb_false_iff in Hn as [-> Hn]. apply orb_false_iff in Hn as [-> ->].
  rewrite dashed_no; [done|done|done|]. intros Heq. rewrite <-Heq in Hnd. vm_compute in Hnd. done.
Qed.

(** The node attributes a process to the pod and container the kubelet put
    it in.  Under either cgroup driver and in every class of service, from the
    unified hierarchy or from any number of lines, what is read of the file is
    the pod's UID as the API server writes it and the container's digest. *)
Theorem kubelet_cgroups_are_read (l : layout) (uid cid : string) (hierarchies : list (string * string)) :
  l ∈ kubelet_layouts -> is_uid uid -> is_digest cid ->
  hierarchies <> [] -> Forall (fun hc => plain hc.1 /\ plain hc.2) hierarchies ->
  ReadBinding (Some (print_cgroup l uid cid hierarchies)) = mkPodBinding uid cid.
Proof.
  intros Hl (a & b & c & e & f & Hg & ->) Hcid Hne Hhs.
  pose proof (proj1 (Forall_forall _ _) kubelet_layouts_ok l Hl) as Hok.
  set (uid := dashed "-" a b c e f). cbn [ReadBinding]. unfold parseCgroup, print_cgroup.
  assert (Hline : forall b0 hc, pb_PodUID b0 = ""%string \/ pb_PodUID b0 = uid -> plain hc.1 /\ plain hc.2 ->
    cgroup_line b0 (hc.1 +:+ String ":" (hc.2 +:+ String ":" (print_path l uid cid))) = mkPodBinding uid cid).
  { intros b0 hc Hb0 [H1 H2]. unfold cgroup_line. rewrite cgroup_path_print by done.
    destruct (print_path_read l a b c e f cid b0 Hok Hg Hcid Hb0) as [Hu Hc]. fold uid in Hu, Hc.
    rewrite Hc. cbn [list.last]. destruct Hcid as [_ ->]. by rewrite Hu. }
  rewrite SplitByte_lines, foldl_app.
  2: { apply Forall_fmap. eapply Forall_impl; [exact Hhs|]. intros hc [[_ H1] [_ H2]].
       unfold compose. pose proof (print_path_no_newline l a b c e f cid Hok Hg Hcid) as Hp.
       rewrite has_byte_app, H1. change (has_byte newline_byte (String ":" ?t)) with (has_byte newline_byte t).
       by rewrite has_byte_app, H2. }
  assert (Hempty : forall b0, foldl cgroup_line b0 [""%string] = b0) by done. rewrite Hempty.
  destruct hierarchies as [|x xs]; [done|]. apply Forall_cons in Hhs as [Hx Hxs]. cbn [fmap list_fmap foldl].
  rewrite Hline by (by left || done). clear Hne Hx.
  induction Hxs as [|y ys Hy _ IH]; [done|]. cbn [fmap list_fmap foldl]. by rewrite Hline by (by right || done).
Qed.

Lemma kubelet_cgroups_are_read_witness :
  let uid := "0f3a1c2b-4d5e-6f70-8192-a3b4c5d6e7f8"%string in
  let cid := "00112233445566778899aabbccddeeff00112233445566778899aabbccddeeff"%string in
  ReadBinding (Some (print_cgroup (mkLayout "/kubepods.slice/kubepods-" ".slice/cri-containerd-" ".scope" "_"%char) uid cid
    [("0", "")]%string)) = mkPodBinding uid cid.
Proof.
  intros uid cid. apply (kubelet_cgroups_are_read (mkLayout "/kubepods.slice/kubepods-" ".slice/cri-containerd-" ".scope" "_"%char)
    uid cid [("0", "")]%string).
  - unfold kubelet_layouts. do 3 right. left.
  - exists "0f3a1c2b"%string, "4d5e"%string, "6f70"%string, "8192"%string, "a3b4c5d6e7f8"%string.
    split; [repeat split; reflexivity|reflexivity].
  - repeat split; reflexivity.
  - discriminate.
  - repeat constructor.
Defined.
