(* ===== verification/Mark.v ===== *)
(** Whether an executable links net/http/pprof, [internal/nodescan/pprofmark.go]:
    the search of a file read in chunks, and the cache of answers per file.

    What the reads of a file return is a list of chunks, none longer than the
    buffer they were read into; a file that could not be opened, or whose
    identity the platform does not give, is an input too. *)

From stdpp Require Import prelude gmap strings list.
From Stdlib Require Import ZArith Lia Ascii.
From S2P Require Import Prelude GoStrings ProcCounters.
Local Open Scope Z_scope.
Local Open Scope go_scope.

(** ** The search *)

Definition pprofMarker : string := "net/http/pprof.Index".
Definition maxBinaryScanBytes : Z := Z.shiftl 512 20.

(** [buf[len(buf)-n:]], the whole of a shorter one. *)
Fixpoint keep_last (n : nat) (s : string) : string :=
  match s with
  | EmptyString => EmptyString
  | String _ s' => if (String.length s <=? n)%nat then s else keep_last n s'
  end.

(** The search for [marker] over what the reads return one after another. *)
Fixpoint scan_chunks (marker buf : string) (chunks : list string) : bool :=
  match chunks with
  | [] => false
  | chunk :: chunks =>
      if bool_decide (chunk = ""%string) then scan_chunks marker buf chunks
      else let buf := buf +:+ chunk in
           if Contains buf marker then true
           else scan_chunks marker (keep_last (String.length marker - 1) buf) chunks
  end.
Definition scanForMarker (chunks : list string) : bool := scan_chunks pprofMarker "" chunks.

(** The chunks of an [io.LimitReader]. *)
Fixpoint limit_chunks (n : Z) (chunks : list string) : list string :=
  match chunks with
  | [] => []
  | chunk :: chunks =>
      if n <=? 0 then []
      else LimitReader n chunk :: limit_chunks (n - Z.of_nat (String.length chunk)) chunks
  end.

(** ** The cache *)

Record binaryKey := mkBinaryKey { bk_dev : Z; bk_ino : Z }.
#[export] Instance binaryKey_eq_dec : EqDecision binaryKey.
Proof. solve_decision. Defined.
#[export] Instance binaryKey_countable : Countable binaryKey.
Proof. refine (inj_countable' (fun k => (bk_dev k, bk_ino k)) (fun p => mkBinaryKey p.1 p.2) _). by intros []. Defined.

Record markCache := mkMarkCache { answers : gmap binaryKey bool; mk_seen : gset binaryKey }.
Definition newMarkCache : markCache := mkMarkCache ∅ ∅.

(** An executable as opened: its identity where there is one, and its chunks. *)
Record opened := mkOpened { op_key : option binaryKey; op_chunks : list string }.

Definition note_seen (key : binaryKey) (c : markCache) : markCache := mkMarkCache (answers c) ({[key]} ∪ mk_seen c).

Definition lookup (c : markCache) (f : option opened) : markCache * bool :=
  match f with
  | None => (c, false)
  | Some f =>
      match op_key f ≫= fun key => (fun answer => (key, answer)) <$> answers c !! key with
      | Some (key, answer) => (note_seen key c, answer)
      | None =>
          let answer := scanForMarker (limit_chunks maxBinaryScanBytes (op_chunks f)) in
          (match op_key f with
           | Some key => note_seen key (mkMarkCache (<[key := answer]> (answers c)) (mk_seen c))
           | None => c
           end, answer)
      end
  end.

Definition startPass (c : markCache) : markCache := mkMarkCache (answers c) ∅.
Definition endPass (c : markCache) : markCache :=
  mkMarkCache (filter (fun ka => ka.1 ∈ mk_seen c) (answers c)) (mk_seen c).

(** ** Reading in chunks finds what reading whole would *)

Definition concat_chunks (chunks : list string) : string := foldr String.append ""%string chunks.

Lemma keep_last_suffix n s : exists p, s = p +:+ keep_last n s /\
  (p = ""%string \/ String.length (keep_last n s) = n).
Proof.
  induction s as [|c s (p & Hp & Hn)]; [exists ""%string; by split; [|left]|]. cbn [keep_last].
  destruct (Nat.leb_spec (String.length (String c s)) n) as [Hle|Hlt]; [exists ""%string; by split; [|left]|].
  exists (String c p). rewrite string_app_cons, <-Hp. split; [done|]. right.
  destruct Hn as [->|Hn]; [|done]. rewrite string_app_nil in Hp. rewrite <-Hp in *. cbn [String.length] in Hlt.
  clear -Hlt Hp. destruct s as [|d s]; cbn [keep_last] in *; [cbn in *; lia|].
  destruct (Nat.leb_spec (String.length (String d s)) n) as [|Hlt2]; [lia|].
  exfalso. assert (String.length (keep_last n s) < String.length (String d s))%nat; [|by rewrite <-Hp in *; lia].
  clear. assert (H : forall s, (String.length (keep_last n s) <= String.length s)%nat).
  { intros u. induction u as [|x u IH]; [done|]. cbn [keep_last]. destruct (_ <=? n)%nat; cbn [String.length] in *; lia. }
  specialize (H s). cbn. lia.
Qed.

Lemma string_app_split (a b c d : string) :
  a +:+ b = c +:+ d -> (String.length a <= String.length c)%nat -> exists e, c = a +:+ e /\ b = e +:+ d.
Proof.
  revert c. induction a as [|x a IH]; intros c Heq Hlen.
  - exists c. by rewrite string_app_nil in *.
  - destruct c as [|y c]; cbn [String.length] in Hlen; [lia|]. rewrite !string_app_cons in Heq. injection Heq as -> Heq.
    destruct (IH c Heq ltac:(lia)) as (e & -> & ->). exists e. by rewrite string_app_cons.
Qed.

Lemma Contains_app_r p s m : Contains s m = true -> Contains (p +:+ s) m = true.
Proof. rewrite !Contains_spec. intros (x & t & ->). exists (p +:+ x), t. by rewrite string_app_assoc. Qed.
Lemma Contains_app_l s t m : Contains s m = true -> Contains (s +:+ t) m = true.
Proof. rewrite !Contains_spec. intros (x & u & ->). exists x, (u +:+ t). by rewrite <-!string_app_assoc. Qed.

(** Nothing is lost of a text without the marker but its last bytes. *)
Lemma keep_last_enough m b rest :
  Contains b m = false -> Contains (keep_last (String.length m - 1) b +:+ rest) m = Contains (b +:+ rest) m.
Proof.
  intros Hb. destruct (keep_last_suffix (String.length m - 1) b) as (p & Hp & Hn).
  set (k := keep_last _ b) in *. clearbody k. subst b. rewrite <-string_app_assoc.
  apply eq_true_iff_eq. split; [apply Contains_app_r|]. destruct Hn as [->|Hn]; [by rewrite string_app_nil|].
  rewrite !Contains_spec. intros (x & t & Heq).
  destruct (Nat.le_gt_cases (String.length p) (String.length x)) as [Hle|Hlt].
  - destruct (string_app_split _ _ _ _ Heq Hle) as (e & -> & ->). by exists e, t.
  - exfalso. rewrite !string_app_assoc in Heq. symmetry in Heq. rewrite <-string_app_assoc, string_app_assoc in Heq.
    destruct (string_app_split (x +:+ m) t (p +:+ k) rest) as (e & Hpk & _).
    + done.
    + rewrite !string_app_length. lia.
    + apply not_true_iff_false in Hb. apply Hb. rewrite Contains_spec. exists x, e. by rewrite string_app_assoc.
Qed.

Lemma scan_chunks_whole m buf chunks :
  Contains buf m = false -> scan_chunks m buf chunks = Contains (buf +:+ concat_chunks chunks) m.
Proof.
  revert buf. induction chunks as [|chunk chunks IH]; intros buf Hb; cbn [scan_chunks concat_chunks foldr].
  { by rewrite string_app_nil_r. }
  case_bool_decide as He; [subst; by rewrite IH|].
  change (String.append chunk ?r) with (chunk +:+ r). fold (concat_chunks chunks). rewrite string_app_assoc.
  destruct (Contains (buf +:+ chunk) m) eqn:E; [symmetry; by apply Contains_app_l|].
  rewrite IH; [by apply keep_last_enough|].
  apply not_true_iff_false. intros Hk. apply not_true_iff_false in E. apply E.
  destruct (keep_last_suffix (String.length m - 1) (buf +:+ chunk)) as (p & -> & _). by apply Contains_app_r.
Qed.

(** The chunks a bounded reader gives are the bounded text's. *)
Lemma LimitReader_le n s : n <= 0 -> LimitReader n s = ""%string.
Proof. intros Hn. destruct s; cbn; [done|]. by rewrite (proj2 (Z.leb_le n 0)). Qed.
Lemma LimitReader_app n s t : LimitReader n (s +:+ t) = LimitReader n s +:+ LimitReader (n - Z.of_nat (String.length s)) t.
Proof.
  revert n. induction s as [|c s IH]; intros n.
  - rewrite !string_app_nil. cbn [String.length LimitReader]. by rewrite Z.sub_0_r.
  - rewrite string_app_cons. cbn [LimitReader String.length]. destruct (Z.leb_spec n 0).
    + rewrite LimitReader_le by lia. done.
    + rewrite string_app_cons, IH. do 3 f_equal. lia.
Qed.
Lemma limit_chunks_whole n chunks : concat_chunks (limit_chunks n chunks) = LimitReader n (concat_chunks chunks).
Proof.
  revert n. induction chunks as [|chunk chunks IH]; intros n; [done|]. cbn [limit_chunks concat_chunks foldr].
  change (String.append ?a ?b) with (a +:+ b). fold (concat_chunks chunks).
  destruct (Z.leb_spec n 0); [by rewrite LimitReader_le|].
  cbn [concat_chunks foldr]. change (String.append ?a ?b) with (a +:+ b). fold (concat_chunks (limit_chunks (n - Z.of_nat (String.length chunk)) chunks)).
  by rewrite IH, LimitReader_app.
Qed.

Definition links_pprof (f : opened) : bool := Contains (LimitReader maxBinaryScanBytes (concat_chunks (op_chunks f))) pprofMarker.

Lemma scanned_is_whole f : scanForMarker (limit_chunks maxBinaryScanBytes (op_chunks f)) = links_pprof f.
Proof. unfold scanForMarker. rewrite scan_chunks_whole by done. by rewrite limit_chunks_whole. Qed.

(** ** The cache answers for the file *)

(** What a scanner does with its cache, from the first pass on. *)
Inductive mark_op := MStart | MLookup (f : option opened) | MEnd.
Definition mark_step (c : markCache) (o : mark_op) : markCache * list bool :=
  match o with
  | MStart => (startPass c, [])
  | MLookup f => let '(c, answer) := lookup c f in (c, [answer])
  | MEnd => (endPass c, [])
  end.
Fixpoint mark_run (c : markCache) (ops : list mark_op) : markCache * list bool :=
  match ops with
  | [] => (c, [])
  | o :: ops => let '(c, out) := mark_step c o in let '(c, out') := mark_run c ops in (c, out ++ out')
  end.

Definition looked_up (o : mark_op) : option opened := match o with MLookup (Some f) => Some f | _ => None end.
Definition direct (o : mark_op) : list bool :=
  match o with MLookup (Some f) => [links_pprof f] | MLookup None => [false] | _ => [] end.

(** A file's bytes are what they were when it was first opened. *)
Definition files_do_not_change (ops : list mark_op) : Prop :=
  forall f g, f ∈ omap looked_up ops -> g ∈ omap looked_up ops -> is_Some (op_key f) -> op_key f = op_key g ->
    links_pprof f = links_pprof g.

Definition right_answers (whose : list opened) (c : markCache) : Prop :=
  forall key answer, answers c !! key = Some answer ->
    exists f, f ∈ whose /\ op_key f = Some key /\ links_pprof f = answer.

Lemma lookup_right whose c f :
  right_answers whose c -> (forall g, g ∈ whose -> is_Some (op_key f) -> op_key f = op_key g -> links_pprof f = links_pprof g) ->
  let out := lookup c (Some f) in out.2 = links_pprof f /\ right_answers (f :: whose) out.1.
Proof.
  intros Hr Hsame. cbn [lookup]. rewrite scanned_is_whole.
  assert (Hr' : right_answers (f :: whose) c).
  { intros key answer Ha. destruct (Hr key answer Ha) as (g & Hg & ?). exists g. split; [by right|done]. }
  destruct (op_key f) as [key|] eqn:Hk; cbn; [|done].
  destruct (answers c !! key) as [answer|] eqn:Ha; cbn.
  - destruct (Hr key answer Ha) as (g & Hg & Hgk & <-). split; [symmetry; apply Hsame; [done|by eexists|by rewrite Hgk]|done].
  - split; [done|]. intros key' answer'. cbn. rewrite lookup_insert_Some.
    intros [[-> <-]|[Hne Ha']]; [exists f; split; [left|done]|by apply Hr'].
Qed.

(** Over any passes the scanner says of every executable whether its bytes hold
    the marker, as if it read each whole every time: in chunks of whatever size,
    a marker across two of them included, with the cache, over any order of files
    and passes. *)
Lemma marks_answer_for_the_file ops : files_do_not_change ops -> (mark_run newMarkCache ops).2 = ops ≫= direct.
Proof.
  intros Hsame.
  cut (forall whose c, right_answers whose c -> (forall f g, f ∈ omap looked_up ops -> g ∈ whose -> is_Some (op_key f) ->
    op_key f = op_key g -> links_pprof f = links_pprof g) -> (mark_run c ops).2 = ops ≫= direct).
  { intros H. apply (H []); [intros key answer Ha; cbn in Ha; by rewrite lookup_empty in Ha|]. intros f g _ Hg. by apply not_elem_of_nil in Hg. }
  induction ops as [|o ops IH]; intros whose c Hr Hw; [done|]. cbn [mark_run].
  assert (Hrec : forall whose c, right_answers whose c -> (forall g, g ∈ whose -> g ∈ omap looked_up (o :: ops) \/
     (forall f, f ∈ omap looked_up (o :: ops) -> is_Some (op_key f) -> op_key f = op_key g -> links_pprof f = links_pprof g)) ->
     (mark_run c ops).2 = ops ≫= direct).
  { intros whose' c' Hr' Hw'. apply (IH) with whose'; [|done|].
    - intros f g Hf Hg. apply Hsame; cbn; destruct (looked_up o); set_solver.
    - intros f g Hf Hg Hk Heq. assert (Hf' : f ∈ omap looked_up (o :: ops)) by (cbn; destruct (looked_up o); [by right|done]).
      destruct (Hw' g Hg) as [Hin|Hin]; [by apply Hsame|by apply Hin]. }
  destruct o as [|[f|]|]; cbn [mark_step direct]; cbn [mbind list_bind].
  - pose proof (Hrec whose (startPass c)) as H. destruct (mark_run (startPass c) ops). cbn in *. apply H; [done|].
    intros g Hg. right. intros. by apply Hw.
  - destruct (lookup_right whose c f Hr) as [Hans Hr'].
    { intros g Hg. apply Hw; [left|done]. }
    destruct (lookup c (Some f)) as [c' answer]. cbn [fst snd] in *. subst answer.
    pose proof (Hrec (f :: whose) c' Hr') as H. destruct (mark_run c' ops). cbn in *. f_equal. apply H.
    intros g [->|Hg]%elem_of_cons; [left; left|]. right. intros. by apply Hw.
  - pose proof (Hrec whose c Hr) as H. cbn [lookup]. destruct (mark_run c ops). cbn in *. f_equal. apply H.
    intros g Hg. right. intros. by apply Hw.
  - pose proof (Hrec whose (endPass c)) as H. destruct (mark_run (endPass c) ops). cbn in *. apply H.
    + intros key answer [Ha _]%map_lookup_filter_Some. by apply Hr.
    + intros g Hg. right. intros. by apply Hw.
Qed.
