(* ===== verification/Scan.v ===== *)
(** One pass of the node scanner, [internal/nodescan/scan.go], with the
    descriptor counts of procfiles.go.

    The process table is given by the names of its entries and, for each process,
    by the contents of its files, [None] for what could not be read.  Reading the
    build information out of an executable is debug/buildinfo's; here it is what
    that returned. *)

From stdpp Require Import prelude gmap strings list.
From Stdlib Require Import ZArith Lia Ascii.
From S2P Require Import Prelude GoTime GoStrings ProcCounters NodeReport Binding Mark.
Local Open Scope Z_scope.
Local Open Scope go_scope.

(** ** Descriptors *)

Definition maxLimitsBytes : Z := Z.shiftl 16 10.

Record ProcessFiles := mkProcessFiles { pf_Open : Z; pf_Limit : Z }.

(** The sizes of the batches the directory is read in, until a read fails. *)
Fixpoint count_batches (total : Z) (batches : list Z) : Z :=
  match batches with
  | [] => total
  | n :: batches => let total := total +w n in if maxProcessFDs <=? total then total else count_batches total batches
  end.
Definition countOpenFiles (fd : option (list Z)) : Z :=
  match fd with None => 0 | Some batches => Z.min (count_batches 0 batches) maxProcessFDs end.

Definition soft_limit (rest : string) : Z :=
  let row := TrimSpace rest in
  let soft := match Cut row " "%char with Some (soft, _) => soft | None => row end in
  match ParseInt soft with Some n => if n <=? 0 then 0 else n | None => 0 end.
Definition readFileLimit (limits : option string) : Z :=
  match limits with
  | None => 0
  | Some text =>
      match head (omap (fun line => CutPrefix line "Max open files") (Lines (LimitReader maxLimitsBytes text))) with
      | Some rest => soft_limit rest
      | None => 0
      end
  end.
Definition ReadProcessFiles (fd : option (list Z)) (limits : option string) : ProcessFiles :=
  mkProcessFiles (countOpenFiles fd) (readFileLimit limits).

(** ** Build information *)

Record dependency := mkDependency { dp_Path : string; dp_Version : string; dp_Replaced : bool }.
Record setting := mkSetting { se_Key : string; se_Value : string }.
Record BuildInfo := mkBuildInfo {
  bi_GoVersion : string; bi_Path : string; bi_MainPath : string;
  bi_Deps : list (option dependency); bi_Settings : list setting;
}.

(** A failure: whether it is a missing file's, and its text. *)
Record failure := mkFailure { fa_NotExist : bool; fa_Text : string }.
Definition isTransientProcError (e : failure) : bool := fa_NotExist e || Contains (fa_Text e) "no such process".

Definition dependencyModules (info : BuildInfo) : list Module_ :=
  omap (fun d => (fun d => mkModule (dp_Path d) (dp_Version d) (dp_Replaced d)) <$> d) (bi_Deps info).

Definition buildSettingsAllowList : gset string :=
  list_to_set ["CGO_ENABLED"; "GOARCH"; "GOAMD64"; "GOARM64"; "GOARM"; "-race"; "-trimpath"; "vcs"; "vcs.revision"; "vcs.time";
    "vcs.modified"]%string.
Definition maxSettingValue : nat := 128.

Definition keep_setting (out : gmap string string) (s : setting) : gmap string string :=
  if negb (bool_decide (se_Key s ∈ buildSettingsAllowList)) then out
  else if bool_decide (se_Value s = ""%string) || (maxSettingValue <? String.length (se_Value s))%nat then out
  else <[se_Key s := se_Value s]> out.
Definition buildSettings (info : BuildInfo) : gmap string string := foldl keep_setting ∅ (bi_Settings info).

Definition goDebugAllowList : gset string :=
  list_to_set ["containermaxprocs"; "updatemaxprocs"; "tls10server"; "tls3des"; "tlsrsakex"; "tlssha1"; "tlsunsafeekm";
    "x509negativeserial"; "fips140ems"; "rsa1024min"; "cryptocustomrand"; "httplaxcontentlength"; "tarinsecurepath";
    "zipinsecurepath"; "execerrdot"]%string.
Definition maxGoDebugValue : nat := 8.

Definition first_setting (key : string) (info : BuildInfo) : option string :=
  head (omap (fun s => if bool_decide (se_Key s = key) then Some (se_Value s) else None) (bi_Settings info)).

Definition keep_godebug (out : gmap string string) (pair_ : string) : gmap string string :=
  match Cut pair_ "="%char with
  | None => out
  | Some (nm, value) =>
      if negb (bool_decide (nm ∈ goDebugAllowList)) then out
      else if bool_decide (value = ""%string) || (maxGoDebugValue <? String.length value)%nat then out
      else <[nm := value]> out
  end.
Definition goDebugDefaults (info : BuildInfo) : gmap string string :=
  foldl keep_godebug ∅ (SplitByte (default ""%string (first_setting "DefaultGODEBUG" info)) ","%char).

Definition hasPGO (info : BuildInfo) : bool :=
  match first_setting "-pgo" info with
  | Some v => negb (bool_decide (v = ""%string)) && negb (bool_decide (v = "off"%string))
  | None => false
  end.

Definition mainModule (info : BuildInfo) : string :=
  if bool_decide (bi_MainPath info = ""%string) then bi_Path info else bi_MainPath info.

(** ** Processes *)

Record process := mkProcess {
  px_cgroup : option string;
  px_exe : BuildInfo + failure;
  px_files : proc_files;
  px_fd : option (list Z); px_limits : option string;
  px_opened : option opened;
  px_tcp : option string; px_tcp6 : option string; px_fds : option (list (option string));
}.

Definition pidFromName (nm : string) : option Z :=
  pid ← ParseInt nm; if pid <=? 0 then None else Some pid.

Record Result_ := mkResult { Binaries : list BinaryInfo; rs_Counters : Counters }.
Definition noResult : Result_ := mkResult [] (mkScanCounters 0 0 0 0 0).

Definition count_in (f : Counters -> Counters) (res : Result_) : Result_ := mkResult (Binaries res) (f (rs_Counters res)).
Definition scannedAdd (c : Counters) : Counters :=
  mkScanCounters (ProcessesScanned c +w 1) (GoFound c) (FilteredScope c) (FilteredInfra c) (Unreadable c).
Definition goFoundAdd (c : Counters) : Counters :=
  mkScanCounters (ProcessesScanned c) (GoFound c +w 1) (FilteredScope c) (FilteredInfra c) (Unreadable c).
Definition filteredScopeAdd (c : Counters) : Counters :=
  mkScanCounters (ProcessesScanned c) (GoFound c) (FilteredScope c +w 1) (FilteredInfra c) (Unreadable c).
Definition filteredInfraAdd (c : Counters) : Counters :=
  mkScanCounters (ProcessesScanned c) (GoFound c) (FilteredScope c) (FilteredInfra c +w 1) (Unreadable c).
Definition unreadableAdd (c : Counters) : Counters :=
  mkScanCounters (ProcessesScanned c) (GoFound c) (FilteredScope c) (FilteredInfra c) (Unreadable c +w 1).

Record Scanner := mkScanner { sc_filter : ModuleFilter; marks : markCache; counters_ : counterCache }.
Definition NewScanner (filter_ : ModuleFilter) : Scanner := mkScanner filter_ newMarkCache newCounterCache.

Definition scanPID (pid : Z) (scope : Scope) (now : Time) (p : process) (s : Scanner) (res : Result_) : Scanner * Result_ :=
  let binding := ReadBinding (px_cgroup p) in
  if negb (Admits scope (pb_PodUID binding)) then (s, count_in filteredScopeAdd res)
  else match px_exe p with
       | inr e => if isTransientProcError e then (s, res) else (s, count_in unreadableAdd res)
       | inl info =>
           if IsInfra (sc_filter s) (mainModule info) then (s, count_in filteredInfraAdd res)
           else
             let status := ReadProcessStatus (px_files p) in
             let memory := ReadProcessMemory (px_files p) in
             let files := ReadProcessFiles (px_fd p) (px_limits p) in
             let '(cache, d) := delta (counters_ s) pid now (px_files p) status in
             let '(marks', hasPprof) := lookup (marks s) (px_opened p) in
             let ports := ReadListeningPorts (px_tcp p) (px_tcp6 p) (px_fds p) in
             let b := mkBinary pid (bi_GoVersion info) (mainModule info) (dependencyModules info) (buildSettings info)
                        (goDebugDefaults info) (hasPGO info) hasPprof ports (PeakRSSBytes status) (CPUsAllowed status)
                        (mkFootprint (RSSAnonBytes status) (RSSFileBytes status) (PSSBytes memory) (PrivateDirtyBytes memory)
                           (Threads status) (pf_Open files) (pf_Limit files))
                        d (pb_PodUID binding) (pb_ContainerID binding) in
             (mkScanner (sc_filter s) marks' cache,
              mkResult (Binaries res ++ [b]) (goFoundAdd (rs_Counters res)))
       end.

Definition scan_entry (scope : Scope) (now : Time) (proc : Z -> process) (st : Scanner * Result_) (nm : string) : Scanner * Result_ :=
  match pidFromName nm with
  | None => st
  | Some pid => scanPID pid scope now (proc pid) st.1 (count_in scannedAdd st.2)
  end.

Definition Scan_ (scope : Scope) (now : Time) (entries : option (list string)) (proc : Z -> process) (s : Scanner)
    : Scanner * option Result_ :=
  match entries with
  | None => (s, None)
  | Some names =>
      let s := mkScanner (sc_filter s) (Mark.startPass (marks s)) (ProcCounters.startPass (counters_ s)) in
      let '(s, res) := foldl (scan_entry scope now proc) (s, noResult) names in
      (mkScanner (sc_filter s) (Mark.endPass (marks s)) (ProcCounters.endPass (counters_ s)), Some res)
  end.

(** ** What a pass leaves unopened *)

Definition in_scope (scope : Scope) (p : process) : bool := Admits scope (pb_PodUID (ReadBinding (px_cgroup p))).

Inductive fate := OutOfScope | Vanished | NotGo | Infra | Kept.
#[export] Instance fate_eq_dec : EqDecision fate.
Proof. solve_decision. Defined.
Definition fate_of (f : ModuleFilter) (scope : Scope) (p : process) : fate :=
  if negb (in_scope scope p) then OutOfScope
  else match px_exe p with
       | inr e => if isTransientProcError e then Vanished else NotGo
       | inl info => if IsInfra f (mainModule info) then Infra else Kept
       end.

(** Two processes a pass may not tell apart: they have one fate, and everything in
    common only if the binary is kept. *)
Definition same_to_scan (f : ModuleFilter) (scope : Scope) (p p' : process) : Prop :=
  fate_of f scope p = fate_of f scope p' /\ (fate_of f scope p = Kept -> p = p').

Lemma scanPID_filter pid scope now p s res : sc_filter (scanPID pid scope now p s res).1 = sc_filter s.
Proof. unfold scanPID. repeat case_match; done. Qed.

Lemma scanPID_same pid scope now p p' s res :
  same_to_scan (sc_filter s) scope p p' -> scanPID pid scope now p s res = scanPID pid scope now p' s res.
Proof.
  intros [Hfate Hkept]. destruct (decide (fate_of (sc_filter s) scope p = Kept)) as [Hk|Hk]; [by rewrite (Hkept Hk)|].
  unfold fate_of, in_scope in *. unfold scanPID at 1 2.
  destruct (Admits scope (pb_PodUID (ReadBinding (px_cgroup p)))), (Admits scope (pb_PodUID (ReadBinding (px_cgroup p'))));
    cbn [negb] in *; try done; repeat case_match; done.
Qed.

Lemma Scan_same scope now entries proc proc' s :
  (forall pid, same_to_scan (sc_filter s) scope (proc pid) (proc' pid)) ->
  Scan_ scope now entries proc s = Scan_ scope now entries proc' s.
Proof.
  intros Hsame. unfold Scan_. destruct entries as [names|]; [|done].
  match goal with |- context [foldl _ (?s0, noResult) names] => set (st := (s0, noResult)) end.
  assert (foldl (scan_entry scope now proc) st names = foldl (scan_entry scope now proc') st names) as ->; [|done].
  assert (Hf : sc_filter st.1 = sc_filter s) by done. clearbody st. revert st Hf.
  induction names as [|nm names IH]; intros st Hf; [done|]. cbn [foldl].
  assert (scan_entry scope now proc st nm = scan_entry scope now proc' st nm) as ->.
  { unfold scan_entry. destruct (pidFromName nm); [|done]. apply scanPID_same. by rewrite Hf. }
  apply IH. unfold scan_entry. destruct (pidFromName nm); [|done]. by rewrite scanPID_filter.
Qed.

(** ** What a pass reports *)

Definition count_fate (f : ModuleFilter) (scope : Scope) (proc : Z -> process) (x : fate) (pids : list Z) : Z :=
  Z.of_nat (length (filter (fun pid => fate_of f scope (proc pid) = x) pids)).

Definition listed (allow : gset string) (bound : nat) (m : gmap string string) : Prop :=
  map_Forall (fun k v => k ∈ allow /\ v <> ""%string /\ (String.length v <= bound)%nat) m.

(** A kept binary: its process's, and nothing of its build but the modules and
    the allow-listed settings. *)
Definition reported (f : ModuleFilter) (scope : Scope) (p : process) (pid : Z) (b : BinaryInfo) : Prop :=
  b_PID b = pid /\ ReadBinding (px_cgroup p) = mkPodBinding (b_PodUID b) (b_ContainerID b) /\ Admits scope (b_PodUID b) = true /\
  IsInfra f (b_MainModule b) = false /\
  (exists info, px_exe p = inl info /\ b_MainModule b = mainModule info /\ b_Dependencies b = dependencyModules info) /\
  listed buildSettingsAllowList maxSettingValue (b_Settings b) /\ listed goDebugAllowList maxGoDebugValue (b_GoDebug b).

Lemma listed_insert allow bound m k v :
  listed allow bound m -> k ∈ allow -> v <> ""%string -> (String.length v <= bound)%nat -> listed allow bound (<[k := v]> m).
Proof. intros Hm Hk Hv Hb. apply map_Forall_insert_2; [|done]. done. Qed.

Lemma listed_fold {A} allow bound (step : gmap string string -> A -> gmap string string) (l : list A) :
  (forall m x, listed allow bound m -> listed allow bound (step m x)) -> listed allow bound (foldl step ∅ l).
Proof.
  intros Hstep. cut (forall m, listed allow bound m -> listed allow bound (foldl step m l)).
  { intros H. apply H, map_Forall_empty. }
  induction l as [|x l IH]; intros m Hm; [done|]. cbn. by apply IH, Hstep.
Qed.

Lemma buildSettings_listed info : listed buildSettingsAllowList maxSettingValue (buildSettings info).
Proof.
  apply listed_fold. intros m s Hm. unfold keep_setting. case_bool_decide as Hk; cbn [negb]; [|done].
  case_bool_decide as Hv; [done|]. destruct (Nat.ltb_spec maxSettingValue (String.length (se_Value s))); [done|].
  by apply listed_insert.
Qed.
Lemma goDebugDefaults_listed info : listed goDebugAllowList maxGoDebugValue (goDebugDefaults info).
Proof.
  apply listed_fold. intros m s Hm. unfold keep_godebug. destruct (Cut s _) as [[nm value]|]; [|done].
  case_bool_decide as Hk; cbn [negb]; [|done].
  case_bool_decide as Hv; [done|]. destruct (Nat.ltb_spec maxGoDebugValue (String.length value)); [done|].
  by apply listed_insert.
Qed.

Definition scan_counts f scope proc (pids : list Z) : Counters :=
  mkScanCounters (wrap64 (Z.of_nat (length pids))) (wrap64 (count_fate f scope proc Kept pids))
    (wrap64 (count_fate f scope proc OutOfScope pids)) (wrap64 (count_fate f scope proc Infra pids))
    (wrap64 (count_fate f scope proc NotGo pids)).

Lemma count_fate_snoc f scope proc x pids pid :
  count_fate f scope proc x (pids ++ [pid]) =
  count_fate f scope proc x pids + (if decide (fate_of f scope (proc pid) = x) then 1 else 0).
Proof.
  unfold count_fate. rewrite filter_app, length_app, filter_cons, filter_nil. case_decide; cbn [length]; lia.
Qed.

Ltac counted H :=
  unfold count_in, scannedAdd, goFoundAdd, filteredScopeAdd, filteredInfraAdd, unreadableAdd;
  cbn [rs_Counters fst snd ProcessesScanned GoFound FilteredScope FilteredInfra Unreadable]; rewrite H;
  cbn [ProcessesScanned GoFound FilteredScope FilteredInfra Unreadable];
  repeat (destruct (decide _) as [?|?]; try congruence); rewrite ?wrap64_add_l, ?Z.add_0_r; reflexivity.

Lemma scanPID_reports scope now proc s0 s res pids pid :
  sc_filter s = sc_filter s0 -> rs_Counters res = scan_counts (sc_filter s0) scope proc pids ->
  let out := scanPID pid scope now (proc pid) s (count_in scannedAdd res) in
  sc_filter out.1 = sc_filter s0 /\ rs_Counters out.2 = scan_counts (sc_filter s0) scope proc (pids ++ [pid]) /\
  (if decide (fate_of (sc_filter s0) scope (proc pid) = Kept)
   then exists b, Binaries out.2 = Binaries res ++ [b] /\ reported (sc_filter s0) scope (proc pid) pid b
   else Binaries out.2 = Binaries res).
Proof.
  intros Hf Hc. cbn zeta. rewrite scanPID_filter. split; [done|].
  unfold scan_counts. rewrite !count_fate_snoc, length_app. cbn [length].
  rewrite Nat2Z.inj_add. change (Z.of_nat 1) with 1. unfold scan_counts in Hc.
  unfold scanPID, fate_of, in_scope. destruct (Admits scope _) eqn:Ha; cbn [negb].
  2: { split; [|done]. counted Hc. }
  destruct (px_exe (proc pid)) as [info|e] eqn:He.
  2: { destruct (isTransientProcError e); (split; [|done]); counted Hc. }
  rewrite Hf. destruct (IsInfra _ _) eqn:Hi; [split; [|done]; counted Hc|].
  destruct (delta _ _ _ _ _) as [cache d]. destruct (lookup _ _) as [marks' hasPprof].
  split; [counted Hc|]. cbn [Binaries fst snd count_in].
  destruct (decide (Kept = Kept)); [|done]. eexists. split; [reflexivity|]. unfold reported. cbn.
  split_and!; [done|by destruct (ReadBinding _)|done|done|by exists info|apply buildSettings_listed|apply goDebugDefaults_listed].
Qed.

(** A pass accounts for every process and reports the kept ones only.  Each
    numeric entry of the table is counted once, as out of scope, infrastructure,
    unreadable or kept, or has vanished; the binaries are those of the kept
    processes, in order, each of a pod in scope, none of infrastructure; and of a
    build nothing leaves but its modules and the allow-listed settings, short and
    not empty. *)
Theorem scan_accounts scope now names proc s :
  match (Scan_ scope now (Some names) proc s).2 with
  | None => False
  | Some res =>
      let pids := omap pidFromName names in
      rs_Counters res = scan_counts (sc_filter s) scope proc pids /\
      Forall2 (fun pid b => reported (sc_filter s) scope (proc pid) pid b)
        (filter (fun pid => fate_of (sc_filter s) scope (proc pid) = Kept) pids) (Binaries res)
  end.
Proof.
  unfold Scan_. match goal with |- context [foldl _ (?x, noResult) names] => set (s1 := x) end.
  assert (Hf1 : sc_filter s1 = sc_filter s) by done. clearbody s1.
  assert (H : forall names, let st := foldl (scan_entry scope now proc) (s1, noResult) names in
    sc_filter st.1 = sc_filter s /\ rs_Counters st.2 = scan_counts (sc_filter s) scope proc (omap pidFromName names) /\
    Forall2 (fun pid b => reported (sc_filter s) scope (proc pid) pid b)
      (filter (fun pid => fate_of (sc_filter s) scope (proc pid) = Kept) (omap pidFromName names)) (Binaries st.2)).
  { clear names. intros names. induction names as [|nm names IH] using rev_ind; [by split_and!|].
    rewrite foldl_app, omap_app. cbn [foldl omap list_omap].
    destruct (foldl _ (s1, noResult) names) as [s2 res]. destruct IH as (Hf & Hc & Hb). cbn [fst snd] in *.
    unfold scan_entry. destruct (pidFromName nm) as [pid|]; [|by rewrite app_nil_r].
    destruct (scanPID_reports scope now proc s s2 res _ pid Hf Hc) as (Hf' & Hc' & Hb'). cbn [fst snd] in *.
    split_and!; [done|done|]. rewrite filter_app, filter_cons, filter_nil. destruct (decide _) as [Hk|Hk].
    - destruct Hb' as (b & -> & Hr). apply Forall2_app; [done|]. apply Forall2_cons. by split.
    - by rewrite app_nil_r, Hb'. }
  specialize (H names). destruct (foldl _ (s1, noResult) names) as [s2 res]. cbn in *. by destruct H as (_ & ? & ?).
Qed.


Definition demo_cgroup (uid : string) : string :=
  "0::/kubepods.slice/kubepods-pod" +:+ uid +:+ ".slice/cri-containerd-"
  +:+ "aaaaaaaaaaaaaaaaaaaaaaaaaaaaaaaaaaaaaaaaaaaaaaaaaaaaaaaaaaaaaaaa.scope".
Definition demo_process (cgroup : string) (exe : BuildInfo + failure) : process :=
  mkProcess (Some cgroup) exe (mkProcFiles None None None None None) None None None None None None.
(** Process 1 is of a pod in scope; [other] is what the rest execute. *)
Definition demo_table (other : BuildInfo + failure) (pid : Z) : process :=
  if pid =? 1
  then demo_process (demo_cgroup "11111111_2222_3333_4444_555555555555") (inl (mkBuildInfo "go1.24" "cmd/shop" "example.com/shop" [] []))
  else demo_process (demo_cgroup "99999999_2222_3333_4444_555555555555") other.
Definition demo_scope : Scope := NewScope ["11111111-2222-3333-4444-555555555555"]%string.

(** What the process out of scope executes is not told. *)
Example scan_opens_only_what_it_keeps_example :
  let table := demo_table (inr (mkFailure false "permission denied")) in
  let table' := demo_table (inl (mkBuildInfo "go1.24" "cmd/secret" "" [] [])) in
  let scan t := Scan_ demo_scope 0 (Some ["1"; "self"; "42"]%string) t (NewScanner (NewModuleFilter [])) in
  scan table = scan table' /\ (map b_MainModule ∘ Binaries) <$> (scan table).2 = Some ["example.com/shop"]%string.
Proof. split; vm_compute; reflexivity. Qed.
