(* ===== verification/Contributions.v ===== *)
(** What each node's latest report contributes to the measured payloads of
    [inventory/store.go]: peaks, listening ports and counters.

    The three are one structure in the source, a map by container and build of
    maps by node, written out three times with the same [seen] bookkeeping.  It
    is modelled once, over the class [Measure] of what a contribution is; the
    class [MeasureLaws] states that folding binaries one by one and joining the
    nodes gives one summary of all the binaries, and each kind discharges it. *)

From stdpp Require Import prelude gmap strings list sorting.
From Stdlib Require Import ZArith Lia.
From S2P Require Import Prelude GoTime ProcCounters NodeReport.
Local Open Scope Z_scope.
Local Open Scope go_scope.

(** ** Keys *)

Record Key := mkKey { kNamespace : string; kWorkloadKind : string; kWorkloadName : string; kContainer : string }.
#[export] Instance Key_eq_dec : EqDecision Key.
Proof. solve_decision. Defined.
Definition key_tuple (k : Key) : string * (string * (string * string)) :=
  (kNamespace k, (kWorkloadKind k, (kWorkloadName k, kContainer k))).
Definition key_of_tuple (t : string * (string * (string * string))) : Key :=
  let '(a, (b, (c, d))) := t in mkKey a b c d.
#[export] Instance Key_countable : Countable Key.
Proof. refine (inj_countable' key_tuple key_of_tuple _). by intros []. Defined.

(** [PeakKey], [PortKey] and [CounterKey]: a container and its build. *)
Record BuildKey := mkBuildKey { bKey : Key; bImageDigest : string }.
#[export] Instance BuildKey_eq_dec : EqDecision BuildKey.
Proof. solve_decision. Defined.
Definition build_tuple (k : BuildKey) : Key * string := (bKey k, bImageDigest k).
#[export] Instance BuildKey_countable : Countable BuildKey.
Proof. refine (inj_countable' build_tuple (fun t => mkBuildKey t.1 t.2) _). by intros []. Defined.

Definition lessKey (a b : Key) : bool :=
  lexi (kNamespace a) (kNamespace b) (lexi (kWorkloadKind a) (kWorkloadKind b)
    (lexi (kWorkloadName a) (kWorkloadName b) (go_lt (kContainer a) (kContainer b)))).

(** The order of the three measured payloads. *)
Definition lessBuild (a b : BuildKey) : bool :=
  if negb (bool_decide (bKey a = bKey b)) then lessKey (bKey a) (bKey b)
  else go_lt (bImageDigest a) (bImageDigest b).

Lemma less_container_key_tuple a b : lessKey a b = go_lt (key_tuple a) (key_tuple b).
Proof. reflexivity. Qed.

Definition build_sort (k : BuildKey) : string * (string * (string * (string * string))) :=
  (kNamespace (bKey k), (kWorkloadKind (bKey k), (kWorkloadName (bKey k), (kContainer (bKey k), bImageDigest k)))).
Lemma lessBuild_tuple a b : lessBuild a b = go_lt (build_sort a) (build_sort b).
Proof.
  change (go_lt (build_sort a) (build_sort b)) with
    (lexi (kNamespace (bKey a)) (kNamespace (bKey b)) (lexi (kWorkloadKind (bKey a)) (kWorkloadKind (bKey b))
      (lexi (kWorkloadName (bKey a)) (kWorkloadName (bKey b)) (lexi (kContainer (bKey a)) (kContainer (bKey b))
        (go_lt (bImageDigest a) (bImageDigest b)))))).
  destruct a as [[a1 a2 a3 a4] a5], b as [[b1 b2 b3 b4] b5]. unfold lessBuild, lessKey, lexi. cbn.
  repeat case_bool_decide; simplify_eq; done.
Qed.
#[export] Instance build_sort_inj : Inj (=) (=) build_sort.
Proof. intros [[] ?] [[] ?] [=]. by subst. Qed.

(** ** Contributions *)

Class Measure (A : Type) := {
  measured : BinaryInfo -> bool;        (** whether a binary contributes at all *)
  nothing : A;
  add_binary : A -> BinaryInfo -> A;    (** folded into its node's contribution *)
}.

Abbreviation contributions A := (gmap BuildKey (gmap string A)).

Section contributions.
Context {A : Type} `{Measure A}.

(** The first binary of a key in a report starts its node over. *)
Definition contribute (node : string) (st : contributions A * gset BuildKey) (kb : BuildKey * BinaryInfo)
    : contributions A * gset BuildKey :=
  let '(m, seen) := st in let '(pk, b) := kb in
  if negb (measured b) then (m, seen)
  else let byNode := default ∅ (m !! pk) in
       let n := if bool_decide (pk ∈ seen) then default nothing (byNode !! node) else nothing in
       (<[pk := <[node := add_binary n b]> byNode]> m, {[pk]} ∪ seen).

(** A key goes once no node contributes to it. *)
Definition nonempty (byNode : gmap string A) : option (gmap string A) :=
  if (size byNode =? 0)%nat then None else Some byNode.

Definition forgetUnreported (node : string) (seen : gset BuildKey) (m : contributions A) : contributions A :=
  map_imap (fun pk byNode => if bool_decide (pk ∈ seen) then Some byNode else nonempty (delete node byNode)) m.

Definition retain_keys (live : gset Key) (m : contributions A) : contributions A :=
  filter (fun kv => bKey kv.1 ∈ live) m.

Definition retain_nodes (live : gset string) (m : contributions A) : contributions A :=
  omap (fun byNode => nonempty (filter (fun nv => nv.1 ∈ live) byNode)) m.
End contributions.

(** ** The three measures *)

(** The least positive of two, zero being none. *)
Definition lowest (n l : Z) : Z := if (0 <? l) && ((n =? 0) || (l <? n)) then l else n.

Record nodePeaks := mkPeaks {
  peakRSSBytes : Z; processes : Z; cpusMin : Z; cpusMax : Z; footprint : Footprint; filesLimitMin : Z;
}.

Definition noFootprint : Footprint := mkFootprint 0 0 0 0 0 0 0.
Definition noPeaks : nodePeaks := mkPeaks 0 0 0 0 noFootprint 0.

(** The ceiling is not a maximum; it is kept in [filesLimitMin]. *)
Definition max_footprint (n f : Footprint) : Footprint :=
  mkFootprint (Z.max (fpRSSAnonBytes n) (fpRSSAnonBytes f)) (Z.max (fpRSSFileBytes n) (fpRSSFileBytes f))
    (Z.max (fpPSSBytes n) (fpPSSBytes f)) (Z.max (fpPrivateDirtyBytes n) (fpPrivateDirtyBytes f))
    (Z.max (fpThreads n) (fpThreads f)) (Z.max (fpOpenFiles n) (fpOpenFiles f)) (fpOpenFilesLimit n).

Definition add_peaks (n : nodePeaks) (b : BinaryInfo) : nodePeaks :=
  let c := b_CPUsAllowed b in
  mkPeaks (Z.max (peakRSSBytes n) (b_PeakRSSBytes b)) (processes n + 1)
    (lowest (cpusMin n) c) (if 0 <? c then Z.max (cpusMax n) c else cpusMax n)
    (max_footprint (footprint n) (b_Footprint b))
    (lowest (filesLimitMin n) (fpOpenFilesLimit (b_Footprint b))).

Definition unmeasured (b : BinaryInfo) : bool :=
  (b_PeakRSSBytes b =? 0) && (b_CPUsAllowed b =? 0) && bool_decide (b_Footprint b = noFootprint).

#[export] Instance peaks_measure : Measure nodePeaks :=
  {| measured b := negb (unmeasured b); nothing := noPeaks; add_binary := add_peaks |}.

#[export] Instance ports_measure : Measure (list ListeningPort) :=
  {| measured b := negb (Nat.eqb (length (b_ListeningPorts b)) 0); nothing := [];
     add_binary acc b := MergeListeningPorts [acc; b_ListeningPorts b] |}.

Record nodeCounters := mkNodeCounters { cProcesses : Z; cDelta : CounterDelta }.
Definition noDelta : CounterDelta := mkDelta 0 0 0 0 0 0 0 0 0 0.

Definition add_delta (n d : CounterDelta) : CounterDelta :=
  mkDelta (ObservedNanos n +w ObservedNanos d) (dOnCPUNanos n +w dOnCPUNanos d)
    (dRunDelayNanos n +w dRunDelayNanos d) (dCPUUserNanos n +w dCPUUserNanos d)
    (dCPUSystemNanos n +w dCPUSystemNanos d) (dMajorFaults n +w dMajorFaults d)
    (dVoluntarySwitches n +w dVoluntarySwitches d) (dNonvoluntarySwitches n +w dNonvoluntarySwitches d)
    (dReadBytes n +w dReadBytes d) (dWriteBytes n +w dWriteBytes d).

#[export] Instance counters_measure : Measure nodeCounters :=
  {| measured b := bool_decide (is_Some (b_Counters b)); nothing := mkNodeCounters 0 noDelta;
     add_binary n b := mkNodeCounters (cProcesses n + 1) (add_delta (cDelta n) (default noDelta (b_Counters b))) |}.

(** ** Merging the nodes *)

Definition merge_peaks (rec_ n : nodePeaks) : nodePeaks :=
  mkPeaks (Z.max (peakRSSBytes rec_) (peakRSSBytes n)) (processes rec_ + processes n)
    (lowest (cpusMin rec_) (cpusMin n)) (Z.max (cpusMax rec_) (cpusMax n))
    (max_footprint (footprint rec_) (footprint n)) (lowest (filesLimitMin rec_) (filesLimitMin n)).

Definition merge_counters (rec_ n : nodeCounters) : nodeCounters :=
  mkNodeCounters (cProcesses rec_ + cProcesses n) (add_delta (cDelta rec_) (cDelta n)).

(** ** What a measure promises *)

Definition summary {A} `{Measure A} (bs : list BinaryInfo) : A := foldl add_binary nothing bs.

Class MeasureLaws (A : Type) `{Measure A} := {
  join : A -> A -> A;
  add_swap : forall (a : A) x y, add_binary (add_binary a x) y = add_binary (add_binary a y) x;
  join_summary : forall l1 l2, join (summary l1) (summary l2) = summary (l1 ++ l2);
}.

Section measures.
Context {A : Type} `{MeasureLaws A}.

Lemma summary_perm (l1 l2 : list BinaryInfo) : l1 ≡ₚ l2 -> summary l1 = summary (A := A) l2.
Proof. intros Hp. apply foldl_perm; [|done]. intros. apply add_swap. Qed.

Lemma join_nodes (ls : list (list BinaryInfo)) :
  foldl join nothing (summary <$> ls) = summary (A := A) (concat ls).
Proof.
  induction ls as [|l ls IH] using rev_ind; [done|].
  rewrite fmap_app, foldl_app, IH. cbn [fmap list_fmap foldl]. rewrite join_summary.
  rewrite concat_app. cbn [concat]. by rewrite app_nil_r.
Qed.

(** ** The abstract contributions

    [standing] is what the nodes' latest reports stand for: for each node the
    instant of its report and the facts that could be joined. *)

Abbreviation standing := (gmap string (Time * list (BuildKey * BinaryInfo))).

Definition measured_at (pk : BuildKey) (l : list (BuildKey * BinaryInfo)) : list BinaryInfo :=
  List.filter measured (filter (fun kb => kb.1 = pk) l).*2.

#[local] Arguments measured_at : simpl never.

Definition node_contribution (pk : BuildKey) (l : Time * list (BuildKey * BinaryInfo)) : option A :=
  match measured_at pk l.2 with [] => None | bs => Some (summary bs) end.

Definition by_node (pk : BuildKey) (F : standing) : gmap string A := omap (node_contribution pk) F.

Definition reflects (m : contributions A) (F : standing) : Prop := forall pk, m !! pk = nonempty (by_node pk F).

Lemma nonempty_default (x : gmap string A) : default ∅ (nonempty x) = x.
Proof.
  unfold nonempty. destruct (Nat.eqb_spec (size x) 0) as [Hx|]; [|done].
  by apply map_size_empty_inv in Hx as ->.
Qed.

Lemma nonempty_insert node a (x : gmap string A) : nonempty (<[node := a]> x) = Some (<[node := a]> x).
Proof.
  unfold nonempty. destruct (Nat.eqb_spec (size (<[node := a]> x)) 0) as [Hx|]; [|done].
  apply map_size_empty_inv in Hx. by apply insert_non_empty in Hx.
Qed.

Lemma nonempty_bind (f : gmap string A -> gmap string A) (x : gmap string A) :
  f ∅ = ∅ -> (y ← nonempty x; nonempty (f y)) = nonempty (f x).
Proof.
  intros Hf. destruct (Nat.eq_dec (size x) 0) as [Hx|Hx].
  - apply map_size_empty_inv in Hx as ->. by rewrite Hf.
  - assert (nonempty x = Some x) as ->; [|done]. unfold nonempty. by destruct (Nat.eqb_spec (size x) 0).
Qed.

Lemma measured_at_snoc pk l kb :
  measured_at pk (l ++ [kb]) =
    measured_at pk l ++ (if bool_decide (kb.1 = pk) && measured kb.2 then [kb.2] else []).
Proof.
  unfold measured_at. rewrite filter_app, fmap_app, List.filter_app. f_equal.
  rewrite filter_cons, filter_nil. case_bool_decide as Hk; case_decide; try done.
Qed.

(** What a report's own pass over its binaries has done so far. *)
Lemma contribute_run node m l :
  let st := foldl (contribute node) (m, ∅) l in
  (forall pk, pk ∈ st.2 <-> measured_at pk l <> []) /\
  forall pk, st.1 !! pk =
    match measured_at pk l with [] => m !! pk | bs => Some (<[node := summary bs]> (default ∅ (m !! pk))) end.
Proof.
  induction l as [|[k b] l IH] using rev_ind; cbn zeta in *.
  { cbn. split; [|done]. intros pk. split; [by intros ?%elem_of_empty|done]. }
  rewrite foldl_app. destruct (foldl (contribute node) (m, ∅) l) as [m' seen]. cbn [fst snd] in IH.
  destruct IH as [IHs IHm]. cbn [foldl contribute fst snd]. setoid_rewrite measured_at_snoc. cbn [fst snd].
  destruct (measured b) eqn:Hb; cbn [negb fst snd].
  2: { setoid_rewrite andb_false_r. setoid_rewrite app_nil_r. by split. }
  setoid_rewrite andb_true_r. split; intros pk.
  - rewrite elem_of_union, elem_of_singleton, IHs. case_bool_decide as Hk.
    + split; [by destruct (measured_at pk l)|]. by left.
    + rewrite app_nil_r. split; [intros [?|?]; congruence|by right].
  - destruct (decide (k = pk)) as [->|Hk].
    + rewrite lookup_insert_eq, IHm, (bool_decide_eq_true_2 (pk = pk)) by done. specialize (IHs pk).
      destruct (measured_at pk l) as [|b0 bs] eqn:Hm; cbn [app].
      * rewrite bool_decide_eq_false_2 by (rewrite IHs; congruence). done.
      * rewrite bool_decide_eq_true_2 by (by rewrite IHs). cbn [from_option id]. rewrite lookup_insert_eq. cbn [from_option id].
        rewrite insert_insert_eq. unfold summary. by rewrite (app_comm_cons bs [b] b0), foldl_app.
    + rewrite lookup_insert_ne by done. rewrite bool_decide_eq_false_2 by done. by rewrite app_nil_r, IHm.
Qed.

Lemma reflects_ingest node at_ (m : contributions A) (F : standing) l :
  reflects m F ->
  let st := foldl (contribute node) (m, ∅) l in
  reflects (forgetUnreported node st.2 st.1) (<[node := (at_, l)]> F).
Proof.
  intros HF st pk. destruct (contribute_run node m l) as [Hs Hm]. fold st in Hs, Hm.
  unfold forgetUnreported. rewrite map_lookup_imap, Hm. specialize (Hs pk). unfold by_node.
  destruct (measured_at pk l) as [|b bs] eqn:Hl; cbn [mbind option_bind].
  - rewrite bool_decide_eq_false_2 by (rewrite Hs; congruence). rewrite (HF pk). rewrite (nonempty_bind (delete node)) by apply delete_empty.
    rewrite omap_insert_None; [done|]. unfold node_contribution. cbn [snd]. by rewrite Hl.
  - rewrite bool_decide_eq_true_2 by by rewrite Hs. rewrite (HF pk), nonempty_default.
    rewrite (omap_insert_Some _ _ _ _ (summary (b :: bs))); [by rewrite nonempty_insert|].
    unfold node_contribution. cbn [snd]. by rewrite Hl.
Qed.

Definition keep_facts (live : gset Key) (F : standing) : standing :=
  (fun tl => (tl.1, filter (fun kb => bKey kb.1 ∈ live) tl.2)) <$> F.

Lemma measured_at_kept (live : gset Key) pk l :
  measured_at pk (filter (fun kb => bKey kb.1 ∈ live) l) = if bool_decide (bKey pk ∈ live) then measured_at pk l else [].
Proof.
  unfold measured_at. case_bool_decide as Hk.
  - do 2 f_equal. rewrite list_filter_filter. apply list_filter_iff. intros kb. split; [by intros []|by intros <-].
  - induction l as [|kb l IH]; [done|]. rewrite filter_cons. case_decide; [|done].
    rewrite filter_cons_False; [done|]. congruence.
Qed.

Lemma by_node_kept live pk (F : standing) :
  by_node pk (keep_facts live F) = if bool_decide (bKey pk ∈ live) then by_node pk F else ∅.
Proof.
  apply map_eq. intros i. unfold by_node, keep_facts. rewrite lookup_omap, lookup_fmap.
  destruct (F !! i) as [[t l]|] eqn:Hi; cbn [fmap option_fmap option_map mbind option_bind fst snd];
    unfold node_contribution at 1; cbn [snd]; rewrite ?measured_at_kept;
    case_bool_decide as Hk; rewrite ?lookup_omap, ?lookup_empty, ?Hi; done.
Qed.

Lemma reflects_retain_keys live (m : contributions A) (F : standing) :
  reflects m F -> reflects (retain_keys live m) (keep_facts live F).
Proof.
  intros HF pk. unfold retain_keys. rewrite by_node_kept. case_bool_decide as Hk.
  - rewrite <-(HF pk), map_lookup_filter. cbn. destruct (m !! pk); cbn; [|done]. by rewrite option_guard_True.
  - by rewrite map_lookup_filter_None_2 by (right; intros ? _; done).
Qed.

Definition keep_nodes (live : gset string) (F : standing) : standing := filter (fun nv => nv.1 ∈ live) F.

Lemma reflects_retain_nodes live (m : contributions A) (F : standing) :
  reflects m F -> reflects (retain_nodes live m) (keep_nodes live F).
Proof.
  intros HF pk. unfold retain_nodes. rewrite lookup_omap, (HF pk).
  assert (by_node pk (keep_nodes live F) = filter (fun nv => nv.1 ∈ live) (by_node pk F)) as ->.
  { apply map_eq. intros i. apply option_eq. intros a. unfold by_node, keep_nodes.
    rewrite map_lookup_filter_Some, !lookup_omap_Some. setoid_rewrite map_lookup_filter_Some. cbn. firstorder. }
  apply (nonempty_bind (filter (fun nv => nv.1 ∈ live))), map_filter_empty.
Qed.
End measures.

#[local] Arguments measured_at : simpl never.

Section fleet.
Context {A : Type} `{MeasureLaws A}.
Abbreviation standing := (gmap string (Time * list (BuildKey * BinaryInfo))).

(** Every standing fact of one container and build that is measured. *)
Definition fleet (pk : BuildKey) (F : standing) : list BinaryInfo :=
  map_values F ≫= fun tl => measured_at pk tl.2.

Definition is_heard (bs : list BinaryInfo) : bool := match bs with [] => false | _ => true end.

Lemma omap_values {B C} (f : B -> option C) (l : list (string * B)) :
  (omap (fun kv => (kv.1,.) <$> f kv.2) l).*2 = omap f l.*2.
Proof. induction l as [|[k b] l IH]; [done|]. cbn. destruct (f b); cbn; by rewrite IH. Qed.

Lemma omap_contribution pk (vs : list (Time * list (BuildKey * BinaryInfo))) :
  omap (node_contribution pk) vs =
    summary (A := A) <$> List.filter is_heard ((fun tl => measured_at pk tl.2) <$> vs).
Proof.
  induction vs as [|[t l] vs IH]; [done|]. cbn. unfold node_contribution at 1. cbn [snd].
  destruct (measured_at pk l); cbn; by rewrite IH.
Qed.

Lemma concat_heard (ls : list (list BinaryInfo)) : concat (List.filter is_heard ls) = concat ls.
Proof. induction ls as [|[|b bs] ls IH]; [done|done|]. cbn. by rewrite IH. Qed.

Lemma values_by_node pk (F : standing) :
  exists ls, map_values (by_node pk F) = summary <$> ls /\ concat ls ≡ₚ fleet pk F.
Proof.
  assert (map_values (by_node pk F) ≡ₚ
            summary <$> List.filter is_heard ((fun tl => measured_at pk tl.2) <$> map_values F)) as Hp.
  { unfold map_values at 1, by_node. rewrite map_to_list_omap. by rewrite omap_values, omap_contribution. }
  apply Permutation_map_inv in Hp as (ls & Hls & Hp). exists ls. split; [done|].
  rewrite <-Hp, concat_heard. unfold fleet. clear. induction (map_values F) as [|tl vs IH]; [done|]. cbn. by rewrite IH.
Qed.

Lemma join_by_node pk (F : standing) :
  foldl join nothing (map_values (by_node pk F)) = summary (A := A) (fleet pk F).
Proof. destruct (values_by_node pk F) as (ls & -> & Hp). rewrite join_nodes. by apply summary_perm. Qed.

Lemma by_node_empty pk (F : standing) : by_node pk F = ∅ <-> fleet pk F = [].
Proof.
  destruct (values_by_node pk F) as (ls & Hv & Hp). split.
  - intros He. rewrite He in Hv. unfold map_values in Hv. rewrite map_to_list_empty in Hv.
    destruct ls; [|done]. by apply Permutation_nil in Hp.
  - intros Hf. apply map_empty. intros i. unfold by_node. rewrite lookup_omap.
    destruct (F !! i) as [[t l]|] eqn:Hi; [|done]. cbn. unfold node_contribution. cbn.
    destruct (measured_at pk l) as [|b bs] eqn:Hm; [done|]. exfalso.
    assert (b ∈ fleet pk F) as Hb; [|rewrite Hf in Hb; by apply elem_of_nil in Hb].
    unfold fleet. apply list_elem_of_bind. exists (t, l). cbn. rewrite Hm. split; [by left|].
    apply elem_of_map_values. by exists i.
Qed.
End fleet.

(** ** The laws of the three measures *)

Definition greatest (f : BinaryInfo -> Z) (bs : list BinaryInfo) : Z := foldl (fun acc b => Z.max acc (f b)) 0 bs.
Definition least (f : BinaryInfo -> Z) (bs : list BinaryInfo) : Z := foldl (fun acc b => lowest acc (f b)) 0 bs.

Lemma greatest_snoc f l b : greatest f (l ++ [b]) = Z.max (greatest f l) (f b).
Proof. unfold greatest. by rewrite foldl_snoc. Qed.
Lemma least_snoc f l b : least f (l ++ [b]) = lowest (least f l) (f b).
Proof. unfold least. by rewrite foldl_snoc. Qed.

Lemma lowest_swap a x y : lowest (lowest a x) y = lowest (lowest a y) x.
Proof. unfold lowest. repeat (case_match; try lia). Qed.
Lemma lowest_assoc a b x : 0 <= b -> lowest (lowest a b) x = lowest a (lowest b x).
Proof. intros Hb. unfold lowest. repeat (case_match; try lia). Qed.

(** The largest value, zero for none. *)
Lemma greatest_spec f bs :
  0 <= greatest f bs /\ (forall b, b ∈ bs -> f b <= greatest f bs) /\
  (greatest f bs = 0 \/ exists b, b ∈ bs /\ f b = greatest f bs).
Proof.
  induction bs as [|b bs (IH0 & IH1 & IH2)] using rev_ind.
  { cbn. split_and!; [done| |by left]. by intros b ?%elem_of_nil. }
  rewrite greatest_snoc. setoid_rewrite elem_of_app. setoid_rewrite list_elem_of_singleton. split_and!.
  - lia.
  - intros x [Hx| ->]; [|lia]. specialize (IH1 x Hx). lia.
  - destruct (Z.max_spec (greatest f bs) (f b)) as [[_ ->]|[_ ->]]; [right; by eauto|].
    destruct IH2 as [?|(x & Hx & Hf)]; [by left|right; by eauto].
Qed.

(** The smallest positive value, zero for none. *)
Lemma least_spec f bs :
  0 <= least f bs /\ (forall b, b ∈ bs -> 0 < f b -> 0 < least f bs <= f b) /\
  (least f bs = 0 \/ exists b, b ∈ bs /\ f b = least f bs).
Proof.
  induction bs as [|b bs (IH0 & IH1 & IH2)] using rev_ind.
  { cbn. split_and!; [done| |by left]. by intros b ?%elem_of_nil. }
  rewrite least_snoc. setoid_rewrite elem_of_app. setoid_rewrite list_elem_of_singleton.
  assert (lowest (least f bs) (f b) = least f bs /\ (f b <= 0 \/ 0 < least f bs <= f b) \/
          lowest (least f bs) (f b) = f b /\ 0 < f b /\ (least f bs = 0 \/ f b < least f bs)) as Hc.
  { unfold lowest. repeat (case_match; try lia). }
  destruct Hc as [[-> Hc]|(-> & Hb & Hc)]; split_and!; try lia.
  - intros x [Hx| ->] Hpos; [by apply IH1|lia].
  - destruct IH2 as [?|(x & Hx & Hf)]; [by left|right; by eauto].
  - intros x [Hx| ->] Hpos; [specialize (IH1 x Hx Hpos); lia|lia].
  - right. by eauto.
Qed.

Lemma greatest_app f l1 l2 : greatest f (l1 ++ l2) = Z.max (greatest f l1) (greatest f l2).
Proof.
  induction l2 as [|b l2 IH] using rev_ind.
  - rewrite app_nil_r. destruct (greatest_spec f l1). cbn. lia.
  - rewrite app_assoc, !greatest_snoc, IH. lia.
Qed.

Lemma least_app f l1 l2 : least f (l1 ++ l2) = lowest (least f l1) (least f l2).
Proof.
  induction l2 as [|b l2 IH] using rev_ind.
  - by rewrite app_nil_r.
  - rewrite app_assoc, !least_snoc, IH. apply lowest_assoc. by destruct (least_spec f l2).
Qed.

Definition footprint_summary (bs : list BinaryInfo) : Footprint :=
  let field f := greatest (fun b => f (b_Footprint b)) bs in
  mkFootprint (field fpRSSAnonBytes) (field fpRSSFileBytes) (field fpPSSBytes) (field fpPrivateDirtyBytes)
    (field fpThreads) (field fpOpenFiles) 0.

(** Peaks are maxima, the lowest affinity mask and descriptor ceiling minima. *)
Lemma peaks_summary bs :
  summary bs = mkPeaks (greatest b_PeakRSSBytes bs) (Z.of_nat (length bs)) (least b_CPUsAllowed bs)
                 (greatest b_CPUsAllowed bs) (footprint_summary bs)
                 (least (fun b => fpOpenFilesLimit (b_Footprint b)) bs).
Proof.
  unfold summary. induction bs as [|b bs IH] using rev_ind; [done|].
  rewrite foldl_snoc, IH. cbn [add_binary peaks_measure]. unfold add_peaks, footprint_summary.
  cbn [peakRSSBytes processes cpusMin cpusMax footprint filesLimitMin].
  rewrite !greatest_snoc, !least_snoc. unfold max_footprint. cbn. f_equal.
  - rewrite length_app. cbn. lia.
  - destruct (greatest_spec b_CPUsAllowed bs). destruct (Z.ltb_spec 0 (b_CPUsAllowed b)); lia.
Qed.

#[export] Instance peaks_laws : MeasureLaws nodePeaks.
Proof.
  refine {| join := merge_peaks |}.
  - intros a x y. cbn [add_binary peaks_measure]. unfold add_peaks, max_footprint.
    cbn [peakRSSBytes processes cpusMin cpusMax footprint filesLimitMin fpRSSAnonBytes fpRSSFileBytes fpPSSBytes
         fpPrivateDirtyBytes fpThreads fpOpenFiles fpOpenFilesLimit].
    f_equal; [lia|apply lowest_swap| |f_equal; lia|apply lowest_swap].
    destruct (Z.ltb_spec 0 (b_CPUsAllowed x)), (Z.ltb_spec 0 (b_CPUsAllowed y)); lia.
  - intros l1 l2. rewrite !peaks_summary. unfold merge_peaks, footprint_summary, max_footprint.
    cbn [peakRSSBytes processes cpusMin cpusMax footprint filesLimitMin fpRSSAnonBytes fpRSSFileBytes fpPSSBytes
         fpPrivateDirtyBytes fpThreads fpOpenFiles fpOpenFilesLimit].
    rewrite !greatest_app, !least_app, length_app. f_equal. lia.
Defined.

(** Ports are the union of the binaries' ports. *)
Lemma ports_summary bs :
  summary bs = MergeListeningPorts (b_ListeningPorts <$> bs).
Proof.
  unfold summary. induction bs as [|b bs IH] using rev_ind; [done|].
  rewrite foldl_snoc, IH. cbn [add_binary ports_measure]. by rewrite MergeListeningPorts_merged, fmap_app.
Qed.

Lemma MergeListeningPorts_perm ls ls' : ls ≡ₚ ls' -> MergeListeningPorts ls = MergeListeningPorts ls'.
Proof. intros Hp. apply MergeListeningPorts_bindings. intros lp. by rewrite Hp. Qed.

#[export] Instance ports_laws : MeasureLaws (list ListeningPort).
Proof.
  refine {| join a b := MergeListeningPorts [a; b] |}.
  - intros a x y. cbn [add_binary ports_measure]. rewrite !MergeListeningPorts_merged.
    apply MergeListeningPorts_perm. cbn. f_equiv. constructor.
  - intros l1 l2. rewrite !ports_summary, MergeListeningPorts_merged, fmap_app.
    rewrite (MergeListeningPorts_perm _ (MergeListeningPorts (b_ListeningPorts <$> l2) :: (b_ListeningPorts <$> l1)))
      by (by rewrite Permutation_app_comm).
    rewrite MergeListeningPorts_merged.
    apply MergeListeningPorts_perm, Permutation_app_comm.
Defined.

Definition total (f : CounterDelta -> Z) (bs : list BinaryInfo) : Z :=
  wrap64 (list_sum (fun b => from_option f 0 (b_Counters b)) bs).

Definition total_delta (bs : list BinaryInfo) : CounterDelta :=
  mkDelta (total ObservedNanos bs) (total dOnCPUNanos bs) (total dRunDelayNanos bs) (total dCPUUserNanos bs)
    (total dCPUSystemNanos bs) (total dMajorFaults bs) (total dVoluntarySwitches bs)
    (total dNonvoluntarySwitches bs) (total dReadBytes bs) (total dWriteBytes bs).

Lemma total_app f l1 l2 : total f (l1 ++ l2) = total f l1 +w total f l2.
Proof. unfold total. rewrite list_sum_app. by rewrite wrap64_add_l, wrap64_add_r. Qed.

Lemma total_snoc f l b : f noDelta = 0 -> total f (l ++ [b]) = total f l +w f (default noDelta (b_Counters b)).
Proof.
  intros Hf. rewrite total_app. unfold total. rewrite list_sum_cons. change (list_sum _ []) with 0.
  rewrite Z.add_0_r, wrap64_add_r. by destruct (b_Counters b); cbn; rewrite ?Hf.
Qed.

(** Counters are sums, as [int64]. *)
Lemma counters_summary bs : summary bs = mkNodeCounters (Z.of_nat (length bs)) (total_delta bs).
Proof.
  unfold summary. induction bs as [|b bs IH] using rev_ind; [done|].
  rewrite foldl_snoc, IH. cbn [add_binary counters_measure cProcesses cDelta]. f_equal.
  - rewrite length_app. cbn. lia.
  - unfold add_delta, total_delta. cbn [ObservedNanos dOnCPUNanos dRunDelayNanos dCPUUserNanos dCPUSystemNanos
      dMajorFaults dVoluntarySwitches dNonvoluntarySwitches dReadBytes dWriteBytes].
    by rewrite !total_snoc.
Qed.

#[export] Instance counters_laws : MeasureLaws nodeCounters.
Proof.
  refine {| join := merge_counters |}.
  - intros [n d] x y. cbn [add_binary counters_measure cProcesses cDelta]. f_equal. unfold add_delta.
    cbn [ObservedNanos dOnCPUNanos dRunDelayNanos dCPUUserNanos dCPUSystemNanos
      dMajorFaults dVoluntarySwitches dNonvoluntarySwitches dReadBytes dWriteBytes].
    rewrite !wrap64_add_l. f_equal; f_equal; lia.
  - intros l1 l2. rewrite !counters_summary. unfold merge_counters, add_delta, total_delta.
    cbn [cProcesses cDelta ObservedNanos dOnCPUNanos dRunDelayNanos dCPUUserNanos dCPUSystemNanos
      dMajorFaults dVoluntarySwitches dNonvoluntarySwitches dReadBytes dWriteBytes].
    rewrite length_app, !total_app. f_equal. lia.
Defined.
