(* ===== verification/Inventory.v ===== *)
(** The controller's inventory of what its nodes report: [inventory/store.go].

    The store is one record of maps.  [Ingest] joins a report against a resolver,
    [Retain] and [RetainNodes] forget what left the cluster, the snapshots are
    what is written.  The theorems: the measured snapshots are exactly what the
    nodes' latest reports stand for, what is forgotten stays forgotten, the
    inventory names only consenting workloads, and a build is written once for
    as long as a record refers to it.

    One lock guards the store and every operation holds it throughout, so an
    operation is one step.  Maps are ranged over in an order that shows in no
    answer: the sums and extrema commute and every list is sorted. *)

From stdpp Require Import prelude gmap strings list sorting.
From Stdlib Require Import ZArith Lia.
From S2P Require Import Prelude GoTime Model Cluster Admission PodWatcher PodIndex ProcCounters NodeReport Contributions.
Local Open Scope Z_scope.
Local Open Scope go_scope.

(** ** Records *)

Record GoRecord := mkGoRecord {
  g_Key : Key; g_GoVersion : string; g_ModulePath : string; g_ImageDigest : string; g_PGO : bool; g_AssertedAt : Time;
}.

Record BuildFacts := mkBuildFacts {
  bf_ImageDigest : string; bf_GoVersion : string; bf_MainModule : string; bf_Modules : list Module_;
  bf_Settings : gmap string string; bf_GoDebug : gmap string string; bf_HasPprof : bool;
}.

Record Resolved := mkResolved {
  rs_Namespace : string; rs_WorkloadKind : string; rs_WorkloadName : string; rs_Container : string; rs_ImageDigest : string;
}.
Definition ContainerResolver := string -> string -> option Resolved.

(** [PeakRecord] and [CounterRecord] carry the fields of a contribution under
    their own names. *)
Record PeakRecord := mkPeakRecord { pk_Key : BuildKey; pk_Peaks : nodePeaks; pk_AssertedAt : Time }.
Record CounterRecord := mkCounterRecord { cr_Key : BuildKey; cr_Counters : nodeCounters; cr_AssertedAt : Time }.
Record InventoryPort := mkInventoryPort { ip_Port : Z; ip_Loopback : bool; ip_Pprof : string }.
Record PortRecord := mkPortRecord { pr_Key : BuildKey; pr_Ports : list InventoryPort; pr_AssertedAt : Time }.

Record Store := mkStore {
  records : gmap Key GoRecord;
  builds : gmap string BuildFacts;
  written : gset string;
  peaks : contributions nodePeaks;
  ports : contributions (list ListeningPort);
  counters : contributions nodeCounters;
  scans : gmap string Counters;
  profiling : gmap string ProfilingCoverage;
  nodesReported : gmap string Time;
  since : Time;
  factsReceived : Z; factsJoined : Z; factsUnjoined : Z; factsUndigested : Z;
}.

Definition NewStore (since : Time) : Store := mkStore ∅ ∅ ∅ ∅ ∅ ∅ ∅ ∅ ∅ since 0 0 0 0.

(** ** Ingest *)

Definition cmp_string (a b : string) : Z := if go_lt a b then -1 else if go_lt b a then 1 else 0.
Definition compareModules (a b : Module_) : Z :=
  if negb (bool_decide (m_Path a = m_Path b)) then cmp_string (m_Path a) (m_Path b)
  else cmp_string (m_Version a) (m_Version b).

(** [slices.Compact]: adjacent repeats dropped. *)
Fixpoint Compact {A} `{EqDecision A} (l : list A) : list A :=
  match l with
  | x :: l' => match l' with
               | y :: _ => if bool_decide (x = y) then Compact l' else x :: Compact l'
               | [] => [x]
               end
  | [] => []
  end.

Definition build_facts (b : BinaryInfo) (digest : string) : BuildFacts :=
  mkBuildFacts digest (b_GoVersion b) (b_MainModule b)
    (Compact (sort_slice (fun a b => compareModules a b <? 0) (b_Dependencies b)))
    (b_Settings b) (b_GoDebug b) (b_HasPprof b).

Definition ingestBuild (b : BinaryInfo) (digest : string) (s : Store) : Store :=
  if bool_decide (digest = ""%string) then
    mkStore (records s) (builds s) (written s) (peaks s) (ports s) (counters s) (scans s) (profiling s)
      (nodesReported s) (since s) (factsReceived s) (factsJoined s) (factsUnjoined s) (factsUndigested s +w 1)
  else match builds s !! digest with
  | Some _ => s
  | None =>
      mkStore (records s) (<[digest := build_facts b digest]> (builds s)) (written s) (peaks s) (ports s) (counters s)
        (scans s) (profiling s) (nodesReported s) (since s) (factsReceived s) (factsJoined s) (factsUnjoined s)
        (factsUndigested s)
  end.

Definition ingestPeaks : string -> contributions nodePeaks * gset BuildKey -> BuildKey * BinaryInfo ->
  contributions nodePeaks * gset BuildKey := contribute.
Definition ingestPorts : string -> contributions (list ListeningPort) * gset BuildKey -> BuildKey * BinaryInfo ->
  contributions (list ListeningPort) * gset BuildKey := contribute.
Definition ingestCounters : string -> contributions nodeCounters * gset BuildKey -> BuildKey * BinaryInfo ->
  contributions nodeCounters * gset BuildKey := contribute.

Definition resolved_key (r : Resolved) : Key :=
  mkKey (rs_Namespace r) (rs_WorkloadKind r) (rs_WorkloadName r) (rs_Container r).

Definition set_records (m : gmap Key GoRecord) (s : Store) : Store :=
  mkStore m (builds s) (written s) (peaks s) (ports s) (counters s) (scans s) (profiling s) (nodesReported s)
    (since s) (factsReceived s) (factsJoined s) (factsUnjoined s) (factsUndigested s).
Definition set_contributions (p : contributions nodePeaks) (o : contributions (list ListeningPort))
    (c : contributions nodeCounters) (s : Store) : Store :=
  mkStore (records s) (builds s) (written s) p o c (scans s) (profiling s) (nodesReported s)
    (since s) (factsReceived s) (factsJoined s) (factsUnjoined s) (factsUndigested s).
Definition count_facts (received joined unjoined : Z) (s : Store) : Store :=
  mkStore (records s) (builds s) (written s) (peaks s) (ports s) (counters s) (scans s) (profiling s)
    (nodesReported s) (since s) (factsReceived s +w received) (factsJoined s +w joined)
    (factsUnjoined s +w unjoined) (factsUndigested s).

Record seen_keys := mkSeen { seenPeaks : gset BuildKey; seenPorts : gset BuildKey; seenCounters : gset BuildKey }.

(** One turn of the loop over [report.Binaries]. *)
Definition ingest_binary (at_ : Time) (node : string) (resolver : ContainerResolver) (st : Store * seen_keys)
    (b : BinaryInfo) : Store * seen_keys :=
  let '(s, seen) := st in
  match resolver (b_PodUID b) (b_ContainerID b) with
  | None => (count_facts 1 0 1 s, seen)
  | Some res =>
      let key := resolved_key res in
      let pk := mkBuildKey key (rs_ImageDigest res) in
      let s := count_facts 1 1 0 s in
      let s := set_records (<[key := mkGoRecord key (b_GoVersion b) (b_MainModule b) (rs_ImageDigest res) (b_PGO b) at_]>
                              (records s)) s in
      let s := ingestBuild b (rs_ImageDigest res) s in
      let '(p, sp) := ingestPeaks node (peaks s, seenPeaks seen) (pk, b) in
      let '(o, so) := ingestPorts node (ports s, seenPorts seen) (pk, b) in
      let '(c, sc) := ingestCounters node (counters s, seenCounters seen) (pk, b) in
      (set_contributions p o c s, mkSeen sp so sc)
  end.

(** The node's own statement, unless it has no name. *)
Definition note_node (at_ : Time) (r : Report) (s : Store) : Store :=
  if bool_decide (r_Node r = ""%string) then s
  else mkStore (records s) (builds s) (written s) (peaks s) (ports s) (counters s)
         (<[r_Node r := r_Counters r]> (scans s))
         (match r_Profiling r with Some p => <[r_Node r := p]> (profiling s) | None => profiling s end)
         (<[r_Node r := at_]> (nodesReported s)) (since s)
         (factsReceived s) (factsJoined s) (factsUnjoined s) (factsUndigested s).

Definition Ingest (at_ : Time) (r : Report) (resolver : ContainerResolver) (s : Store) : Store :=
  let '(s, seen) := foldl (ingest_binary at_ (r_Node r) resolver) (note_node at_ r s, mkSeen ∅ ∅ ∅) (r_Binaries r) in
  set_contributions (forgetUnreported (r_Node r) (seenPeaks seen) (peaks s))
    (forgetUnreported (r_Node r) (seenPorts seen) (ports s))
    (forgetUnreported (r_Node r) (seenCounters seen) (counters s)) s.

(** ** Forgetting *)

Definition LiveKeys (pods : list PodInfo) : list Key :=
  p ← pods; (fun c => mkKey (piNamespace p) (Kind (piWorkload p)) (Name (piWorkload p)) (c_Name c)) <$> piContainers p.

Record Evicted := mkEvicted { evRecords : Z; evBuilds : Z; evPeaks : Z; evPorts : Z; evCounters : Z }.

Definition gone {K V} `{Countable K} (before after : gmap K V) : Z := Z.of_nat (size before) - Z.of_nat (size after).

Definition referenced (m : gmap Key GoRecord) : gset string :=
  list_to_set (List.filter (fun d => negb (bool_decide (d = ""%string))) (g_ImageDigest <$> map_values m)).

Definition Retain (live : list Key) (s : Store) : Store * Evicted :=
  let set_ : gset Key := list_to_set live in
  let records' := filter (fun kv => kv.1 ∈ set_) (records s) in
  let peaks' := retain_keys set_ (peaks s) in
  let ports' := retain_keys set_ (ports s) in
  let counters' := retain_keys set_ (counters s) in
  let ref := referenced records' in
  let builds' := filter (fun kv => kv.1 ∈ ref) (builds s) in
  (mkStore records' builds' (written s ∖ (dom (builds s) ∖ ref)) peaks' ports' counters' (scans s) (profiling s)
     (nodesReported s) (since s) (factsReceived s) (factsJoined s) (factsUnjoined s) (factsUndigested s),
   mkEvicted (gone (records s) records') (gone (builds s) builds') (gone (peaks s) peaks') (gone (ports s) ports')
     (gone (counters s) counters')).

Definition RetainNodes (live : list string) (s : Store) : Store :=
  let set_ : gset string := list_to_set live in
  let departed := dom (nodesReported s) ∖ set_ in
  mkStore (records s) (builds s) (written s) (retain_nodes set_ (peaks s)) (retain_nodes set_ (ports s))
    (retain_nodes set_ (counters s)) (filter (fun kv => kv.1 ∉ departed) (scans s))
    (filter (fun kv => kv.1 ∉ departed) (profiling s)) (filter (fun kv => kv.1 ∈ set_) (nodesReported s)) (since s)
    (factsReceived s) (factsJoined s) (factsUnjoined s) (factsUndigested s).

(** ** Builds *)

Definition PendingBuilds (s : Store) : list BuildFacts :=
  sort_slice (fun a b => go_lt (bf_ImageDigest a) (bf_ImageDigest b))
    (map_values (filter (fun kv => kv.1 ∉ written s) (builds s))).

Definition MarkBuildWritten (digest : string) (s : Store) : Store :=
  mkStore (records s) (builds s) ({[digest]} ∪ written s) (peaks s) (ports s) (counters s) (scans s) (profiling s)
    (nodesReported s) (since s) (factsReceived s) (factsJoined s) (factsUnjoined s) (factsUndigested s).

Definition PprofBuilds (s : Store) : gmap string (list string) :=
  (fun b => OwnModules (bf_MainModule b) (bf_Modules b)) <$> filter (fun kv => bf_HasPprof kv.2 = true) (builds s).

(** ** Snapshots *)

Definition Snapshot (s : Store) : list GoRecord :=
  sort_slice (fun a b => lessKey (g_Key a) (g_Key b)) (map_values (records s)).

Definition assertedAt (s : Store) (node : string) : Time := default 0 (nodesReported s !! node).

Definition oldest (a b : Time) : Time := if IsZero a || (negb (IsZero b) && Before b a) then b else a.

Definition asserted {A} (s : Store) (byNode : gmap string A) : Time :=
  foldl (fun t node => oldest t (assertedAt s node)) 0 (map_to_list byNode).*1.

Definition peak_record (s : Store) (e : BuildKey * gmap string nodePeaks) : option PeakRecord :=
  let merged := foldl merge_peaks noPeaks (map_values e.2) in
  if processes merged =? 0 then None else Some (mkPeakRecord e.1 merged (asserted s e.2)).
Definition PeakSnapshot (s : Store) : list PeakRecord :=
  sort_slice (fun a b => lessBuild (pk_Key a) (pk_Key b)) (omap (peak_record s) (map_to_list (peaks s))).

Definition counter_record (s : Store) (e : BuildKey * gmap string nodeCounters) : option CounterRecord :=
  let merged := foldl merge_counters (mkNodeCounters 0 noDelta) (map_values e.2) in
  if cProcesses merged =? 0 then None else Some (mkCounterRecord e.1 merged (asserted s e.2)).
Definition CounterSnapshot (s : Store) : list CounterRecord :=
  sort_slice (fun a b => lessBuild (cr_Key a) (cr_Key b)) (omap (counter_record s) (map_to_list (counters s))).

Definition inventory_port (p : ListeningPort) : InventoryPort := mkInventoryPort (Port p) (Loopback p) "".
Definition port_record (s : Store) (e : BuildKey * gmap string (list ListeningPort)) : option PortRecord :=
  let merged := MergeListeningPorts (map_values e.2) in
  if (length merged =? 0)%nat then None else Some (mkPortRecord e.1 (inventory_port <$> merged) (asserted s e.2)).
Definition PortSnapshot (s : Store) : list PortRecord :=
  sort_slice (fun a b => lessBuild (pr_Key a) (pr_Key b)) (omap (port_record s) (map_to_list (ports s))).

(** ** Coverage *)

Record ScanCoverage_ := mkScanCoverage { sc_Nodes : Z; sc_OldestAssertedAt : Time; sc_Sums : Counters }.

Definition add_scan (out c : Counters) : Counters :=
  mkScanCounters (ProcessesScanned out +w ProcessesScanned c) (GoFound out +w GoFound c)
    (FilteredScope out +w FilteredScope c) (FilteredInfra out +w FilteredInfra c) (Unreadable out +w Unreadable c).
Definition ScanCoverage (s : Store) : ScanCoverage_ :=
  mkScanCoverage (Z.of_nat (size (scans s))) (asserted s (scans s))
    (foldl add_scan (mkScanCounters 0 0 0 0 0) (map_values (scans s))).

Record ProfileCoverage_ := mkProfileCoverage { pc_Nodes : Z; pc_States : gmap string Z; pc_Sums : ProfilingCoverage }.
Definition add_profiling (out c : ProfilingCoverage) : ProfilingCoverage :=
  mkProfiling (State out) (Windows out +w Windows c) (WindowsNoScope out +w WindowsNoScope c)
    (WindowsNoTargets out +w WindowsNoTargets c) (WindowsNoSamples out +w WindowsNoSamples c)
    (ProfilesShipped out +w ProfilesShipped c) (ProfilesInvalid out +w ProfilesInvalid c)
    (ProfilesUnshipped out +w ProfilesUnshipped c) (SamplesOutOfScope out +w SamplesOutOfScope c)
    (ThirdPartyDropped out +u ThirdPartyDropped c) (UnsymbolizedDropped out +u UnsymbolizedDropped c)
    (SamplesFiltered out +u SamplesFiltered c).
Definition ProfileCoverage (s : Store) : ProfileCoverage_ :=
  mkProfileCoverage (Z.of_nat (size (profiling s)))
    (foldl (fun m c => <[State c := default 0 (m !! State c) + 1]> m) ∅ (map_values (profiling s)))
    (foldl add_profiling (mkProfiling "" 0 0 0 0 0 0 0 0 0 0 0) (map_values (profiling s))).

Record InventoryCounters := mkInventoryCounters {
  ic_Records : Z; ic_GoVersions : Z; ic_PGOBuilds : Z; ic_Builds : Z;
  ic_FactsReceived : Z; ic_FactsJoined : Z; ic_FactsUnjoined : Z; ic_FactsUndigested : Z; ic_NodesReported : Z;
}.
Definition Counters_ (s : Store) : InventoryCounters :=
  let rs := map_values (records s) in
  mkInventoryCounters (Z.of_nat (size (records s)))
    (Z.of_nat (size (list_to_set (g_GoVersion <$> rs) : gset string)))
    (Z.of_nat (length (List.filter g_PGO rs))) (Z.of_nat (size (builds s)))
    (factsReceived s) (factsJoined s) (factsUnjoined s) (factsUndigested s) (Z.of_nat (size (nodesReported s))).

Record InventoryCoverage := mkInventoryCoverage {
  iv_Since : Time; iv_NodesReported : Z; iv_Nodes : list (string * Time);
  iv_FactsReceived : Z; iv_FactsJoined : Z; iv_FactsUnjoined : Z; iv_FactsUndigested : Z;
}.
Definition nodeAssertions (s : Store) : list (string * Time) :=
  sort_slice (fun a b => go_lt a.1 b.1) (map_to_list (nodesReported s)).
Definition Coverage_ (s : Store) : InventoryCoverage :=
  mkInventoryCoverage (since s) (Z.of_nat (size (nodesReported s))) (nodeAssertions s)
    (factsReceived s) (factsJoined s) (factsUnjoined s) (factsUndigested s).

(** ** Everything that happens to a store *)

Inductive op :=
| OIngest (at_ : Time) (r : Report) (resolver : ContainerResolver)
| ORetain (live : list Key)
| ORetainNodes (live : list string)
| OMark (digest : string).

Definition apply_op (s : Store) (o : op) : Store :=
  match o with
  | OIngest at_ r resolver => Ingest at_ r resolver s
  | ORetain live => (Retain live s).1
  | ORetainNodes live => RetainNodes live s
  | OMark digest => MarkBuildWritten digest s
  end.
Definition run_ops (ops : list op) (s : Store) : Store := foldl apply_op s ops.

(** A node that has a name, at an instant that is not the zero time. *)
Definition names_node (o : op) : Prop :=
  match o with OIngest at_ r _ => r_Node r <> ""%string /\ at_ <> 0 | _ => True end.

(** The abstract store: for each node, the instant of its latest report and the
    facts of that report that could be joined, as far as their container has
    stayed. *)
Abbreviation standing := (gmap string (Time * list (BuildKey * BinaryInfo))).

Definition joined (resolver : ContainerResolver) (bs : list BinaryInfo) : list (BuildKey * BinaryInfo) :=
  omap (fun b => res ← resolver (b_PodUID b) (b_ContainerID b);
                 Some (mkBuildKey (resolved_key res) (rs_ImageDigest res), b)) bs.

Definition stand (F : standing) (o : op) : standing :=
  match o with
  | OIngest at_ r resolver => <[r_Node r := (at_, joined resolver (r_Binaries r))]> F
  | ORetain live => keep_facts (list_to_set live) F
  | ORetainNodes live => keep_nodes (list_to_set live) F
  | OMark _ => F
  end.
Definition standing_after (ops : list op) : standing := foldl stand ∅ ops.

(** The oldest report that still stands for [pk]. *)
Definition oldest_report {A} `{Measure A} (pk : BuildKey) (F : standing) : Time :=
  foldl (fun t tl => if is_heard (measured_at pk tl.2) then oldest t tl.1 else t) 0 (map_values F).

Lemma ingestBuild_keeps b d s :
  let s' := ingestBuild b d s in
  records s' = records s /\ peaks s' = peaks s /\ ports s' = ports s /\ counters s' = counters s /\
  scans s' = scans s /\ nodesReported s' = nodesReported s /\ written s' = written s.
Proof. unfold ingestBuild. case_bool_decide; [done|]. by destruct (builds s !! d). Qed.

(** What the loop does to the three maps, each on its own. *)
Definition contributes_all (node : string) (l : list (BuildKey * BinaryInfo)) (st st' : Store * seen_keys) : Prop :=
  (peaks st'.1, seenPeaks st'.2) = foldl (contribute node) (peaks st.1, seenPeaks st.2) l /\
  (ports st'.1, seenPorts st'.2) = foldl (contribute node) (ports st.1, seenPorts st.2) l /\
  (counters st'.1, seenCounters st'.2) = foldl (contribute node) (counters st.1, seenCounters st.2) l.

Lemma ingest_binary_contributes at_ node resolver st b :
  contributes_all node (joined resolver [b]) st (ingest_binary at_ node resolver st b).
Proof.
  destruct st as [s seen]. unfold contributes_all, ingest_binary, joined. cbn [omap list_omap fst snd].
  destruct (resolver _ _) as [res|]; [|done]. cbn [mbind option_bind foldl].
  set (s1 := set_records _ _). destruct (ingestBuild_keeps b (rs_ImageDigest res) s1) as (_ & -> & -> & -> & _).
  subst s1. cbn [set_records count_facts peaks ports counters]. unfold ingestPeaks, ingestPorts, ingestCounters.
  destruct (contribute node (peaks s, _) _), (contribute node (ports s, _) _), (contribute node (counters s, _) _).
  done.
Qed.

Lemma ingest_loop_contributes at_ node resolver bs st :
  contributes_all node (joined resolver bs) st (foldl (ingest_binary at_ node resolver) st bs).
Proof.
  revert st. induction bs as [|b bs IH]; intros st; [done|]. cbn [foldl].
  destruct (IH (ingest_binary at_ node resolver st b)) as (Hp & Ho & Hc).
  destruct (ingest_binary_contributes at_ node resolver st b) as (Hp1 & Ho1 & Hc1).
  assert (joined resolver (b :: bs) = joined resolver [b] ++ joined resolver bs) as ->.
  { unfold joined. cbn. destruct (resolver _ _); reflexivity. }
  unfold contributes_all. by rewrite !foldl_app, <-Hp1, <-Ho1, <-Hc1.
Qed.

Lemma ingest_loop_keeps at_ node resolver bs st :
  let s' := (foldl (ingest_binary at_ node resolver) st bs).1 in
  scans s' = scans st.1 /\ nodesReported s' = nodesReported st.1 /\ written s' = written st.1.
Proof.
  revert st. induction bs as [|b bs IH]; intros [s seen]; [done|]. cbn [foldl fst]. destruct (IH (ingest_binary at_ node resolver (s, seen) b))
    as (-> & -> & ->). unfold ingest_binary. destruct (resolver _ _) as [res|]; [|done].
  set (s1 := set_records _ _). destruct (ingestBuild_keeps b (rs_ImageDigest res) s1) as (_ & _ & _ & _ & H1 & H2 & H3).
  cbn zeta. destruct (ingestPeaks _ _ _), (ingestPorts _ _ _), (ingestCounters _ _ _). cbn.
  rewrite H1, H2, H3. by subst s1.
Qed.

(** The simulation: the three maps and the reporting nodes are what stands. *)
Definition simulates (s : Store) (F : standing) : Prop :=
  reflects (peaks s) F /\ reflects (ports s) F /\ reflects (counters s) F /\ nodesReported s = fst <$> F.

Lemma simulates_new since_ : simulates (NewStore since_) ∅.
Proof. split_and!; try (intros pk; unfold by_node; by rewrite omap_empty). cbn. by rewrite fmap_empty. Qed.

Lemma simulates_step s F o : names_node o -> simulates s F -> simulates (apply_op s o) (stand F o).
Proof.
  intros Hn (Hp & Ho & Hc & Hr). destruct o as [at_ r resolver|live|live|d]; cbn [apply_op stand].
  - destruct Hn as [Hn _]. unfold Ingest.
    pose proof (ingest_loop_contributes at_ (r_Node r) resolver (r_Binaries r) (note_node at_ r s, mkSeen ∅ ∅ ∅)) as Hl.
    pose proof (ingest_loop_keeps at_ (r_Node r) resolver (r_Binaries r) (note_node at_ r s, mkSeen ∅ ∅ ∅)) as Hk.
    destruct (foldl _ _ _) as [s' seen]. unfold contributes_all in Hl. cbn [fst snd seenPeaks seenPorts seenCounters] in *.
    assert (peaks (note_node at_ r s) = peaks s /\ ports (note_node at_ r s) = ports s /\
            counters (note_node at_ r s) = counters s /\ nodesReported (note_node at_ r s) = <[r_Node r := at_]> (nodesReported s))
      as (N1 & N2 & N3 & N4) by (unfold note_node; by rewrite bool_decide_eq_false_2).
    rewrite N1, N2, N3 in Hl. destruct Hl as (Hl1 & Hl2 & Hl3). cbn zeta in Hk. rewrite N4 in Hk.
    pose proof (reflects_ingest (r_Node r) at_ _ _ (joined resolver (r_Binaries r)) Hp) as Rp.
    pose proof (reflects_ingest (r_Node r) at_ _ _ (joined resolver (r_Binaries r)) Ho) as Ro.
    pose proof (reflects_ingest (r_Node r) at_ _ _ (joined resolver (r_Binaries r)) Hc) as Rc.
    cbn zeta in Rp, Ro, Rc. rewrite <-Hl1 in Rp. rewrite <-Hl2 in Ro. rewrite <-Hl3 in Rc.
    split_and!; [exact Rp|exact Ro|exact Rc|]. cbn. destruct Hk as (_ & -> & _). by rewrite fmap_insert, Hr.
  - split_and!; [by apply reflects_retain_keys..|]. cbn. rewrite Hr. unfold keep_facts.
    rewrite <-map_fmap_compose. by apply map_fmap_ext.
  - split_and!; [by apply reflects_retain_nodes..|]. cbn. rewrite Hr. unfold keep_nodes.
    by rewrite map_filter_fmap.
  - by split_and!.
Qed.

Lemma simulates_run ops since_ : Forall names_node ops -> simulates (run_ops ops (NewStore since_)) (standing_after ops).
Proof.
  induction ops as [|o ops IH] using rev_ind; intros Hn; [apply simulates_new|].
  apply Forall_app in Hn as [Hn Ho]. rewrite Forall_singleton in Ho. unfold run_ops, standing_after in *.
  rewrite !foldl_snoc. apply simulates_step; auto.
Qed.

(** ** What the snapshots say *)

Lemma oldest_swap t a b : oldest (oldest t a) b = oldest (oldest t b) a.
Proof. unfold oldest, IsZero, Before. repeat (case_match; try lia). all: ltb_cases. Qed.

Section measured_snapshot.
Context {A : Type} `{MeasureLaws A}.
Context (s : Store) (m : contributions A) (F : standing).
Hypothesis Hm : reflects m F.
Hypothesis Hr : nodesReported s = fst <$> F.

Lemma snapshot_entry e : e ∈ map_to_list m <-> fleet (A := A) e.1 F <> [] /\ e.2 = by_node e.1 F.
Proof.
  destruct e as [pk byNode]. rewrite elem_of_map_to_list, (Hm pk). cbn. unfold nonempty.
  rewrite <-by_node_empty. destruct (Nat.eqb_spec (size (by_node (A := A) pk F)) 0) as [Hz|Hz].
  - apply map_size_empty_inv in Hz. split; [done|]. by intros [].
  - split; [intros [= <-]|by intros [_ ->]]. split; [|done]. intros He. apply Hz. by rewrite He, map_size_empty.
Qed.

Lemma asserted_by_node pk : asserted s (by_node (A := A) pk F) = oldest_report (A := A) pk F.
Proof.
  unfold asserted, oldest_report, map_values.
  transitivity (foldl (fun t node => oldest t (assertedAt s node)) 0
                 (omap (fun kv => (kv.1,.) <$> node_contribution (A := A) pk kv.2) (map_to_list F)).*1).
  { apply foldl_perm; [intros; apply oldest_swap|]. unfold by_node. by rewrite map_to_list_omap. }
  assert (Forall (fun kv => nodesReported s !! kv.1 = Some kv.2.1) (map_to_list F)) as Hl.
  { apply Forall_forall. intros [k tl] Hk%elem_of_map_to_list. rewrite Hr, lookup_fmap. cbn. by rewrite Hk. }
  generalize (0 : Time) as t0. induction Hl as [|[k [t l]] F' Hk _ IH]; intros t0; [done|].
  cbn in Hk. cbn [omap list_omap fmap list_fmap foldl fst snd]. unfold node_contribution at 1. cbn [snd].
  destruct (measured_at pk l) as [|b bs]; cbn [is_heard fmap option_fmap option_map]; [apply IH|].
  cbn [foldl fmap list_fmap fst]. rewrite IH. unfold assertedAt. by rewrite Hk.
Qed.

Lemma NoDup_omap_build_keys {R} (f : BuildKey * gmap string A -> option R) (key : R -> BuildKey) :
  (forall e r, f e = Some r -> key r = e.1) -> NoDup ((build_sort ∘ key) <$> omap f (map_to_list m)).
Proof.
  intros Hk. rewrite list_fmap_compose. apply NoDup_fmap_2; [apply _|].
  assert (forall l, sublist (key <$> omap f l) l.*1) as Hs.
  { induction l as [|e l IH]; [constructor|]. cbn. destruct (f e) eqn:He; cbn.
    - rewrite (Hk e _ He). by constructor.
    - by constructor. }
  eapply sublist_NoDup; [|apply Hs]. apply NoDup_fst_map_to_list.
Qed.
End measured_snapshot.

Lemma peaks_joined pk F :
  foldl merge_peaks noPeaks (map_values (by_node pk F)) = summary (fleet (A := nodePeaks) pk F).
Proof. exact (join_by_node (A := nodePeaks) pk F). Qed.

Lemma counters_joined pk F :
  foldl merge_counters (mkNodeCounters 0 noDelta) (map_values (by_node pk F)) = summary (fleet (A := nodeCounters) pk F).
Proof. exact (join_by_node (A := nodeCounters) pk F). Qed.

Lemma ports_joined pk F :
  MergeListeningPorts (map_values (by_node pk F)) = summary (fleet (A := list ListeningPort) pk F).
Proof.
  rewrite <-(join_by_node (A := list ListeningPort) pk F). cbn [join ports_laws nothing ports_measure].
  assert (forall ls (rest : list (list ListeningPort)),
    foldl (fun a b => MergeListeningPorts [a; b]) (MergeListeningPorts rest) ls = MergeListeningPorts (rest ++ ls)) as Hf.
  { intros ls. induction ls as [|l ls IH]; intros rest; cbn [foldl]; [by rewrite app_nil_r|].
    by rewrite MergeListeningPorts_merged, IH, <-app_assoc. }
  symmetry. apply (Hf _ []).
Qed.

Lemma PeakSnapshot_standing s F : simulates s F ->
  StronglySorted (fun a b => lessBuild (pk_Key a) (pk_Key b) = true) (PeakSnapshot s) /\
  forall r, r ∈ PeakSnapshot s <->
    fleet (A := nodePeaks) (pk_Key r) F <> [] /\ pk_Peaks r = summary (fleet (A := nodePeaks) (pk_Key r) F) /\
    pk_AssertedAt r = oldest_report (A := nodePeaks) (pk_Key r) F.
Proof.
  intros (Hp & _ & _ & Hr).
  assert (forall e r, peak_record s e = Some r -> pk_Key r = e.1) as Hk.
  { intros e r. unfold peak_record. destruct (_ =? 0); [done|]. by intros [= <-]. }
  split.
  - apply (sort_slice_strict _ (build_sort ∘ pk_Key)); [intros; apply lessBuild_tuple|].
    by apply NoDup_omap_build_keys.
  - intros r. unfold PeakSnapshot. rewrite elem_of_sort_slice, list_elem_of_omap. split.
    + intros (e & He & Hrec). pose proof (Hk _ _ Hrec) as ->.
      apply (snapshot_entry _ F Hp) in He as [Hf He]. unfold peak_record in Hrec. rewrite He in Hrec.
      rewrite peaks_joined in Hrec.
      destruct (_ =? 0); [done|]. injection Hrec as <-. split_and!; [done..|]. cbn. by apply asserted_by_node.
    + destruct r as [k v t]. cbn. intros (Hf & -> & ->). exists (k, by_node (A := nodePeaks) k F). split.
      { by apply (snapshot_entry _ F Hp). }
      unfold peak_record. cbn [fst snd]. rewrite peaks_joined.
      rewrite (asserted_by_node s F Hr). rewrite peaks_summary. cbn [processes].
      destruct (fleet k F); [done|]. destruct (Z.eqb_spec (Z.of_nat (length (b :: l))) 0); [cbn in *; lia|done].
Qed.

Lemma CounterSnapshot_standing s F : simulates s F ->
  StronglySorted (fun a b => lessBuild (cr_Key a) (cr_Key b) = true) (CounterSnapshot s) /\
  forall r, r ∈ CounterSnapshot s <->
    fleet (A := nodeCounters) (cr_Key r) F <> [] /\ cr_Counters r = summary (fleet (A := nodeCounters) (cr_Key r) F) /\
    cr_AssertedAt r = oldest_report (A := nodeCounters) (cr_Key r) F.
Proof.
  intros (_ & _ & Hc & Hr).
  assert (forall e r, counter_record s e = Some r -> cr_Key r = e.1) as Hk.
  { intros e r. unfold counter_record. destruct (_ =? 0); [done|]. by intros [= <-]. }
  split.
  - apply (sort_slice_strict _ (build_sort ∘ cr_Key)); [intros; apply lessBuild_tuple|].
    by apply NoDup_omap_build_keys.
  - intros r. unfold CounterSnapshot. rewrite elem_of_sort_slice, list_elem_of_omap. split.
    + intros (e & He & Hrec). pose proof (Hk _ _ Hrec) as ->.
      apply (snapshot_entry _ F Hc) in He as [Hf He]. unfold counter_record in Hrec. rewrite He, counters_joined in Hrec.
      destruct (_ =? 0); [done|]. injection Hrec as <-. split_and!; [done..|]. cbn. by apply asserted_by_node.
    + destruct r as [k v t]. cbn. intros (Hf & -> & ->). exists (k, by_node (A := nodeCounters) k F). split.
      { by apply (snapshot_entry _ F Hc). }
      unfold counter_record. cbn [fst snd]. rewrite counters_joined.
      rewrite (asserted_by_node s F Hr), counters_summary. cbn [cProcesses].
      destruct (fleet k F); [done|]. destruct (Z.eqb_spec (Z.of_nat (length (b :: l))) 0); [cbn in *; lia|done].
Qed.

Lemma merged_nonempty (bs : list BinaryInfo) :
  (forall b, b ∈ bs -> measured (A := list ListeningPort) b = true) -> bs <> [] ->
  length (summary (A := list ListeningPort) bs) <> 0%nat.
Proof.
  intros Hb Hne Hl. rewrite ports_summary in Hl. destruct bs as [|b bs]; [done|].
  specialize (Hb b ltac:(by left)). cbn in Hb. destruct (b_ListeningPorts b) as [|lp lps] eqn:Hp; [done|].
  apply nil_length_inv in Hl.
  assert (mkPort (Port lp) (all_loopback (Port lp) (concat (b_ListeningPorts <$> b :: bs))) ∈
            MergeListeningPorts (b_ListeningPorts <$> b :: bs)) as Hin.
  { apply elem_of_MergeListeningPorts. split; [|done]. cbn [fmap list_fmap concat]. rewrite Hp.
    apply (list_elem_of_fmap_2' Port _ lp); [|done]. apply elem_of_app. left. by left. }
  rewrite Hl in Hin. by apply elem_of_nil in Hin.
Qed.

Lemma fleet_measured {A} `{MeasureLaws A} pk F b : b ∈ fleet (A := A) pk F -> measured b = true.
Proof.
  unfold fleet. rewrite list_elem_of_bind. intros (tl & Hb & _). unfold measured_at in Hb.
  apply list_elem_of_In, List.filter_In in Hb. by destruct Hb.
Qed.

Lemma PortSnapshot_standing s F : simulates s F ->
  StronglySorted (fun a b => lessBuild (pr_Key a) (pr_Key b) = true) (PortSnapshot s) /\
  forall r, r ∈ PortSnapshot s <->
    fleet (A := list ListeningPort) (pr_Key r) F <> [] /\
    pr_Ports r = inventory_port <$> summary (fleet (A := list ListeningPort) (pr_Key r) F) /\
    pr_AssertedAt r = oldest_report (A := list ListeningPort) (pr_Key r) F.
Proof.
  intros (_ & Ho & _ & Hr).
  assert (forall e r, port_record s e = Some r -> pr_Key r = e.1) as Hk.
  { intros e r. unfold port_record. destruct (_ =? 0)%nat; [done|]. by intros [= <-]. }
  split.
  - apply (sort_slice_strict _ (build_sort ∘ pr_Key)); [intros; apply lessBuild_tuple|].
    by apply NoDup_omap_build_keys.
  - intros r. unfold PortSnapshot. rewrite elem_of_sort_slice, list_elem_of_omap. split.
    + intros (e & He & Hrec). pose proof (Hk _ _ Hrec) as ->.
      apply (snapshot_entry _ F Ho) in He as [Hf He]. unfold port_record in Hrec. rewrite He, ports_joined in Hrec.
      destruct (_ =? 0)%nat; [done|]. injection Hrec as <-. split_and!; [done..|]. cbn. by apply asserted_by_node.
    + destruct r as [k v t]. cbn. intros (Hf & -> & ->). exists (k, by_node (A := list ListeningPort) k F). split.
      { by apply (snapshot_entry _ F Ho). }
      unfold port_record. cbn [fst snd]. rewrite ports_joined, (asserted_by_node s F Hr).
      pose proof (merged_nonempty _ (fleet_measured k F) Hf) as Hl.
      by destruct (Nat.eqb_spec (length (summary (fleet (A := list ListeningPort) k F))) 0).
Qed.

(** C25. The measured payloads are what the nodes' latest reports stand for.
    After any reports and any forgetting, a container and build has a peaks
    record exactly if a standing fact of it was measured, and the record is the
    greatest (for CPU masks and descriptor ceilings the least positive) over all
    those processes of all nodes; likewise its counters are the sums, as [int64],
    and its ports the union of what they listen on.  A later report of a node
    replaces all the node said, a container that left or a node that left takes
    its facts along, and each record says when its stalest node reported.  The
    payloads come out in one order. *)
Theorem inventory_reflects_latest_reports (since_ : Time) (ops : list op) :
  Forall names_node ops ->
  let s := run_ops ops (NewStore since_) in
  let F := standing_after ops in
  (forall r, r ∈ PeakSnapshot s <->
     let bs := fleet (A := nodePeaks) (pk_Key r) F in
     bs <> [] /\
     pk_Peaks r = mkPeaks (greatest b_PeakRSSBytes bs) (Z.of_nat (length bs)) (least b_CPUsAllowed bs)
                    (greatest b_CPUsAllowed bs) (footprint_summary bs)
                    (least (fun b => fpOpenFilesLimit (b_Footprint b)) bs) /\
     pk_AssertedAt r = oldest_report (A := nodePeaks) (pk_Key r) F) /\
  (forall r, r ∈ CounterSnapshot s <->
     let bs := fleet (A := nodeCounters) (cr_Key r) F in
     bs <> [] /\ cr_Counters r = mkNodeCounters (Z.of_nat (length bs)) (total_delta bs) /\
     cr_AssertedAt r = oldest_report (A := nodeCounters) (cr_Key r) F) /\
  (forall r, r ∈ PortSnapshot s <->
     let bs := fleet (A := list ListeningPort) (pr_Key r) F in
     bs <> [] /\ pr_Ports r = inventory_port <$> MergeListeningPorts (b_ListeningPorts <$> bs) /\
     pr_AssertedAt r = oldest_report (A := list ListeningPort) (pr_Key r) F) /\
  StronglySorted (fun a b => lessBuild (pk_Key a) (pk_Key b) = true) (PeakSnapshot s) /\
  StronglySorted (fun a b => lessBuild (cr_Key a) (cr_Key b) = true) (CounterSnapshot s) /\
  StronglySorted (fun a b => lessBuild (pr_Key a) (pr_Key b) = true) (PortSnapshot s).
Proof.
  intros Hn s F. pose proof (simulates_run ops since_ Hn) as Hs. fold s F in Hs.
  destruct (PeakSnapshot_standing s F Hs) as [Sp Hp], (CounterSnapshot_standing s F Hs) as [Sc Hc],
    (PortSnapshot_standing s F Hs) as [So Ho].
  split_and!; [| | |done..]; intros r.
  - cbn zeta. by rewrite Hp, peaks_summary.
  - cbn zeta. by rewrite Hc, counters_summary.
  - cbn zeta. by rewrite Ho, ports_summary.
Qed.

(** The instant is that of some standing report, and no later than any. *)
Lemma oldest_report_least {A} `{Measure A} (pk : BuildKey) (F : standing) :
  (forall node tl, F !! node = Some tl -> tl.1 <> 0) ->
  (exists node tl, F !! node = Some tl /\ measured_at pk tl.2 <> []) ->
  (exists node tl, F !! node = Some tl /\ measured_at pk tl.2 <> [] /\ oldest_report pk F = tl.1) /\
  (forall node tl, F !! node = Some tl -> measured_at pk tl.2 <> [] -> oldest_report pk F <= tl.1).
Proof.
  intros Hz Hex. unfold oldest_report.
  set (step := fun (t : Time) (tl : Time * list (BuildKey * BinaryInfo)) => if is_heard (measured_at pk tl.2) then oldest t tl.1 else t).
  assert (forall vs, (forall tl, tl ∈ vs -> tl.1 <> 0) ->
    (foldl step 0 vs = 0 /\ forall tl, tl ∈ vs -> measured_at pk tl.2 = []) \/
    (foldl step 0 vs <> 0 /\ (exists tl, tl ∈ vs /\ measured_at pk tl.2 <> [] /\ foldl step 0 vs = tl.1) /\
     forall tl, tl ∈ vs -> measured_at pk tl.2 <> [] -> foldl step 0 vs <= tl.1)) as Hfold.
  { intros vs. induction vs as [|tl vs IH] using rev_ind; intros Hnz.
    { left. split; [done|]. by intros tl ?%elem_of_nil. }
    rewrite foldl_snoc. setoid_rewrite elem_of_app in Hnz. setoid_rewrite elem_of_app.
    setoid_rewrite list_elem_of_singleton. setoid_rewrite list_elem_of_singleton in Hnz.
    specialize (IH (fun x Hx => Hnz x (or_introl Hx))). pose proof (Hnz tl (or_intror eq_refl)) as Ht.
    assert (step (foldl step 0 vs) tl =
      if is_heard (measured_at pk tl.2) then oldest (foldl step 0 vs) tl.1 else foldl step 0 vs) as -> by done.
    destruct (measured_at pk tl.2) as [|b bs] eqn:Hm; cbn [is_heard].
    - destruct IH as [[-> Hall]|(H1 & (x & Hx & Hm' & Hf) & H3)].
      + left. split; [done|]. intros x [Hx| ->]; auto.
      + right. split; [done|]. split; [by exists x; auto|]. intros y [Hy| ->]; [auto|by rewrite Hm].
    - right. destruct IH as [[-> Hall]|(H1 & (x & Hx & Hm' & Hf) & H3)].
      + change (oldest 0 tl.1) with tl.1. split; [done|]. split; [exists tl; rewrite Hm; auto|].
        intros x [Hx| ->] Hne; [|lia]. by rewrite Hall in Hne.
      + unfold oldest, IsZero, Before. destruct (Z.eqb_spec (foldl step 0 vs) 0); [done|].
        destruct (Z.eqb_spec tl.1 0); [done|]. cbn [orb negb andb].
        destruct (Z.ltb_spec tl.1 (foldl step 0 vs)).
        * split; [done|]. split; [exists tl; rewrite Hm; auto|]. intros y [Hy| ->] Hne; [|lia].
          specialize (H3 y Hy Hne). lia.
        * split; [done|]. split; [exists x; auto|]. intros y [Hy| ->] Hne; [auto|lia]. }
  destruct (Hfold (map_values F)) as [[_ Hall]|(_ & (tl & Hin & Hm & Hf) & Hle)].
  - intros tl [node Hn]%elem_of_map_values. eauto.
  - destruct Hex as (node & tl & Hn & Hm). exfalso. apply Hm, Hall, elem_of_map_values. eauto.
  - split.
    + apply elem_of_map_values in Hin as [node Hn]. by exists node, tl.
    + intros node x Hn Hne. apply Hle; [|done]. apply elem_of_map_values. eauto.
Qed.

(** ** Records and builds sit under their own keys *)

Definition well_keyed (s : Store) : Prop :=
  (forall k g, records s !! k = Some g -> g_Key g = k) /\
  (forall d b, builds s !! d = Some b -> bf_ImageDigest b = d).

Lemma ingestBuild_builds b d s :
  builds (ingestBuild b d s) = builds s \/
  (d <> ""%string /\ builds s !! d = None /\ builds (ingestBuild b d s) = <[d := build_facts b d]> (builds s)).
Proof.
  unfold ingestBuild. case_bool_decide; [by left|]. destruct (builds s !! d) eqn:Hd; [by left|]. by right.
Qed.

Lemma ingest_binary_builds at_ node resolver s seen b :
  let s' := (ingest_binary at_ node resolver (s, seen) b).1 in
  (builds s' = builds s \/ exists d, builds s !! d = None /\ builds s' = <[d := build_facts b d]> (builds s)) /\
  (records s' = records s \/ exists g, records s' = <[g_Key g := g]> (records s)).
Proof.
  unfold ingest_binary. destruct (resolver _ _) as [res|]; [|split; by left].
  set (s1 := set_records _ _). destruct (ingestBuild_keeps b (rs_ImageDigest res) s1) as (Hrec & _).
  pose proof (ingestBuild_builds b (rs_ImageDigest res) s1) as Hb. cbn zeta.
  destruct (ingestPeaks _ _ _), (ingestPorts _ _ _), (ingestCounters _ _ _). cbn [fst set_contributions builds records].
  split.
  - destruct Hb as [->|(_ & Hn & ->)]; [by left|]. right. by exists (rs_ImageDigest res).
  - right. rewrite Hrec. eexists (mkGoRecord (resolved_key res) _ _ _ _ _). reflexivity.
Qed.

Lemma well_keyed_loop at_ node resolver bs st :
  well_keyed st.1 -> well_keyed (foldl (ingest_binary at_ node resolver) st bs).1.
Proof.
  revert st. induction bs as [|b bs IH]; intros [s seen] [Hr Hb]; [by split|]. cbn [foldl]. apply IH.
  destruct (ingest_binary_builds at_ node resolver s seen b) as [Hbuilds Hrecords]. split.
  - intros k g. destruct Hrecords as [->|[g0 ->]]; [apply Hr|].
    intros [[<- <-]|[_ Hg]]%lookup_insert_Some; [done|by apply Hr].
  - intros d f. destruct Hbuilds as [->|(d0 & _ & ->)]; [apply Hb|].
    intros [[<- <-]|[_ Hg]]%lookup_insert_Some; [done|by apply Hb].
Qed.

Lemma well_keyed_step s o : well_keyed s -> well_keyed (apply_op s o).
Proof.
  intros [Hr Hb]. destruct o as [at_ r resolver|live|live|d]; cbn [apply_op]; [|..].
  - unfold Ingest. assert (well_keyed (note_node at_ r s)) as Hs by (unfold note_node; by case_bool_decide).
    pose proof (well_keyed_loop at_ (r_Node r) resolver (r_Binaries r) (_, mkSeen ∅ ∅ ∅) Hs) as [Hr' Hb'].
    destruct (foldl _ _ _) as [s' seen]. by split.
  - split; cbn; intros ? ? [? _]%map_lookup_filter_Some; auto.
  - by split.
  - by split.
Qed.

Lemma well_keyed_run ops since_ : well_keyed (run_ops ops (NewStore since_)).
Proof.
  induction ops as [|o ops IH] using rev_ind; [by split|]. unfold run_ops. rewrite foldl_snoc. by apply well_keyed_step.
Qed.

Lemma elem_of_Snapshot s g : well_keyed s -> g ∈ Snapshot s <-> records s !! g_Key g = Some g.
Proof.
  intros [Hr _]. unfold Snapshot. rewrite elem_of_sort_slice, elem_of_map_values. split.
  - intros [k Hk]. by rewrite (Hr k g Hk).
  - intros Hg. eauto.
Qed.

Lemma elem_of_PendingBuilds s f : well_keyed s ->
  f ∈ PendingBuilds s <-> builds s !! bf_ImageDigest f = Some f /\ bf_ImageDigest f ∉ written s.
Proof.
  intros [_ Hb]. unfold PendingBuilds. rewrite elem_of_sort_slice, elem_of_map_values. split.
  - intros [d [Hd Hw]%map_lookup_filter_Some]. cbn in Hw. by rewrite (Hb d f Hd).
  - intros [Hd Hw]. exists (bf_ImageDigest f). by apply map_lookup_filter_Some.
Qed.

(** ** The controller's use: the pod index as resolver and as the live set *)

(** [podContainerResolver], built per report with the reporting node. *)
Definition podContainerResolver (w : PodWatcher) (node : string) : ContainerResolver := fun podUID containerID =>
  '(ns, workload, ci) ← LookupContainerOnNode w podUID containerID node;
  Some (mkResolved ns (Kind workload) (Name workload) (ci_name ci) (ci_imageDigest ci)).

(** What the inventory flush forgets before it writes. *)
Definition forget_departed (w : PodWatcher) (nodes : list string) (s : Store) : Store :=
  RetainNodes nodes (Retain (LiveKeys (Pods w)) s).1.

Definition collected_container (f : Filter) (es : list event) (k : Key) : Prop :=
  exists uid c p cont, collected f es uid c p /\ cont ∈ piContainers (describe c p) /\
    k = mkKey (Namespace (p_meta p)) (Kind (resolveWorkload c p)) (Name (resolveWorkload c p)) (c_Name cont).

Section index.
Context (f : Filter) (es : list event) (Hes : informer_order es).
Let w := (run f es).1.

Lemma LiveKeys_collected k : k ∈ LiveKeys (Pods w) <-> collected_container f es k.
Proof.
  unfold LiveKeys. rewrite list_elem_of_bind. setoid_rewrite list_elem_of_fmap. split.
  - intros (info & (cont & -> & Hc) & Hi). apply Pods_exposed in Hi as (uid & c & p & Hp & ->); [|done].
    by exists uid, c, p, cont.
  - intros (uid & c & p & cont & Hp & Hc & ->). exists (describe c p). split; [by exists cont|].
    apply Pods_exposed; [done|]. by exists uid, c, p.
Qed.
End index.

(** *** What a flush leaves of the measured records *)

(** The record of a container and build that standing reports make. *)
Definition peak_of (F : standing) (r : PeakRecord) : Prop :=
  let bs := fleet (A := nodePeaks) (pk_Key r) F in
  bs <> [] /\
  pk_Peaks r = mkPeaks (greatest b_PeakRSSBytes bs) (Z.of_nat (length bs)) (least b_CPUsAllowed bs)
                 (greatest b_CPUsAllowed bs) (footprint_summary bs) (least (fun b => fpOpenFilesLimit (b_Footprint b)) bs) /\
  pk_AssertedAt r = oldest_report (A := nodePeaks) (pk_Key r) F.
Definition counter_of (F : standing) (r : CounterRecord) : Prop :=
  let bs := fleet (A := nodeCounters) (cr_Key r) F in
  bs <> [] /\ cr_Counters r = mkNodeCounters (Z.of_nat (length bs)) (total_delta bs) /\
  cr_AssertedAt r = oldest_report (A := nodeCounters) (cr_Key r) F.
Definition port_of (F : standing) (r : PortRecord) : Prop :=
  let bs := fleet (A := list ListeningPort) (pr_Key r) F in
  bs <> [] /\ pr_Ports r = inventory_port <$> MergeListeningPorts (b_ListeningPorts <$> bs) /\
  pr_AssertedAt r = oldest_report (A := list ListeningPort) (pr_Key r) F.

Lemma snapshots_standing s F : simulates s F ->
  (forall r, r ∈ PeakSnapshot s <-> peak_of F r) /\ (forall r, r ∈ CounterSnapshot s <-> counter_of F r) /\
  (forall r, r ∈ PortSnapshot s <-> port_of F r).
Proof.
  intros Hs. split_and!; intros r.
  - rewrite (proj2 (PeakSnapshot_standing s F Hs)), peaks_summary. done.
  - rewrite (proj2 (CounterSnapshot_standing s F Hs)), counters_summary. done.
  - rewrite (proj2 (PortSnapshot_standing s F Hs)), ports_summary. done.
Qed.

(** What each node reported, of the nodes still there. *)
Definition of_nodes (nodes : list string) (F : standing) : standing := keep_nodes (list_to_set nodes) F.

Lemma keep_nodes_facts nodes live F : keep_nodes nodes (keep_facts live F) = keep_facts live (keep_nodes nodes F).
Proof. unfold keep_nodes, keep_facts. by rewrite map_filter_fmap. Qed.

Section kept.
Context {A : Type} `{MeasureLaws A}.

Lemma fleet_kept live pk (F : standing) :
  fleet (A := A) pk (keep_facts live F) = if bool_decide (bKey pk ∈ live) then fleet (A := A) pk F else [].
Proof.
  unfold fleet, keep_facts, map_values. rewrite map_to_list_fmap, <-list_fmap_compose.
  induction (map_to_list F) as [|[k [t l]] kvs IH]; [by case_bool_decide|]. cbn [fmap list_fmap mbind list_bind compose fst snd prod_map].
  rewrite IH, measured_at_kept. by case_bool_decide.
Qed.
Lemma oldest_report_kept live pk (F : standing) :
  bKey pk ∈ live -> oldest_report (A := A) pk (keep_facts live F) = oldest_report (A := A) pk F.
Proof.
  intros Hk. unfold oldest_report, keep_facts, map_values. rewrite map_to_list_fmap, <-list_fmap_compose. generalize (0 : Time).
  induction (map_to_list F) as [|[k [t l]] kvs IH]; intros t0; [done|]. cbn [fmap list_fmap foldl compose fst snd prod_map].
  by rewrite measured_at_kept, bool_decide_eq_true_2, IH.
Qed.
End kept.

Lemma records_kept live F :
  (forall r, peak_of (keep_facts live F) r <-> bKey (pk_Key r) ∈ live /\ peak_of F r) /\
  (forall r, counter_of (keep_facts live F) r <-> bKey (cr_Key r) ∈ live /\ counter_of F r) /\
  (forall r, port_of (keep_facts live F) r <-> bKey (pr_Key r) ∈ live /\ port_of F r).
Proof.
  unfold peak_of, counter_of, port_of.
  split_and!; intros r; rewrite fleet_kept; (case_bool_decide as Hk; [rewrite oldest_report_kept by done; tauto|]);
    split; [by intros [? _]|by intros [? _]|by intros [? _]|by intros [? _]|by intros [? _]|by intros [? _]].
Qed.

(** The flush leaves exactly the records of the live containers, made of what the
    nodes still there reported. *)
Lemma forgotten_snapshots s F live nodes : simulates s F ->
  let s' := RetainNodes nodes (Retain live s).1 in
  (forall r, r ∈ PeakSnapshot s' <-> bKey (pk_Key r) ∈ live /\ peak_of (of_nodes nodes F) r) /\
  (forall r, r ∈ CounterSnapshot s' <-> bKey (cr_Key r) ∈ live /\ counter_of (of_nodes nodes F) r) /\
  (forall r, r ∈ PortSnapshot s' <-> bKey (pr_Key r) ∈ live /\ port_of (of_nodes nodes F) r).
Proof.
  intros Hs s'.
  assert (Hs' : simulates s' (keep_nodes (list_to_set nodes) (keep_facts (list_to_set live) F))).
  { apply (simulates_step _ _ (ORetainNodes nodes)); [done|]. by apply (simulates_step _ _ (ORetain live)). }
  rewrite keep_nodes_facts in Hs'. destruct (snapshots_standing _ _ Hs') as (Hp & Hc & Ho).
  destruct (records_kept (list_to_set live) (of_nodes nodes F)) as (Kp & Kc & Ko).
  split_and!; intros r; [rewrite Hp, Kp|rewrite Hc, Kc|rewrite Ho, Ko]; by rewrite elem_of_list_to_set.
Qed.

(** The builds waiting are those that were, of the digests a record still has. *)
Lemma forgotten_builds s live nodes b : well_keyed s ->
  let s' := RetainNodes nodes (Retain live s).1 in
  b ∈ PendingBuilds s' <-> b ∈ PendingBuilds s /\ bf_ImageDigest b <> ""%string /\
    exists g, g ∈ Snapshot s' /\ g_ImageDigest g = bf_ImageDigest b.
Proof.
  intros Hk s'. assert (well_keyed s') as Hk' by exact (well_keyed_step _ (ORetainNodes nodes) (well_keyed_step _ (ORetain live) Hk)).
  rewrite (elem_of_PendingBuilds s' b Hk'), (elem_of_PendingBuilds s b Hk). subst s'. unfold Snapshot. setoid_rewrite elem_of_sort_slice.
  cbn. rewrite map_lookup_filter_Some. cbn. unfold referenced. rewrite elem_of_difference, elem_of_difference, elem_of_list_to_set.
  rewrite list_elem_of_In, List.filter_In, <-list_elem_of_In, list_elem_of_fmap, negb_true_iff, bool_decide_eq_false.
  split.
  - intros [[Hb [(g & Hd & Hg) Hne]] Hw]. split_and!; [done| |done|by exists g].
    intros Hin. apply Hw. split; [done|]. intros [_ Hn]. apply Hn. split; [by exists g|done].
  - intros ([Hb Hw] & Hne & g & Hg & Hd). split_and!; [done|by exists g|done|tauto].
Qed.

(** C26. What the inventory publishes is of workloads that consent, and none of them
    is lost.  However the nodes reported and whatever the informer delivered, after
    the flush has forgotten what departed: the Go records are exactly those that
    were there and are of a container of a pod that is collected; the peaks,
    counters and ports are exactly the records of such containers, each made of
    what the nodes still in the cluster last reported of it; the builds waiting to
    be written are exactly those that were waiting and that a Go record so kept runs.
    A fact joins only to a collected pod on the node that reported it. *)
Theorem inventory_names_only_consenting (f : Filter) (es : list event) (since_ : Time) (ops : list op)
    (nodes : list string) :
  informer_order es -> Forall names_node ops ->
  let w := (run f es).1 in
  let s := run_ops ops (NewStore since_) in
  let s' := forget_departed w nodes s in
  let F := of_nodes nodes (standing_after ops) in
  (forall g, g ∈ Snapshot s' <-> g ∈ Snapshot s /\ collected_container f es (g_Key g)) /\
  (forall r, r ∈ PeakSnapshot s' <-> collected_container f es (bKey (pk_Key r)) /\ peak_of F r) /\
  (forall r, r ∈ CounterSnapshot s' <-> collected_container f es (bKey (cr_Key r)) /\ counter_of F r) /\
  (forall r, r ∈ PortSnapshot s' <-> collected_container f es (bKey (pr_Key r)) /\ port_of F r) /\
  (forall b, b ∈ PendingBuilds s' <-> b ∈ PendingBuilds s /\ bf_ImageDigest b <> ""%string /\
     exists g, g ∈ Snapshot s' /\ g_ImageDigest g = bf_ImageDigest b) /\
  (forall node uid cid res, podContainerResolver w node uid cid = Some res ->
     exists c p, collected f es uid c p /\ NodeName p = node).
Proof.
  intros Hes Hn w s s' F. pose proof (LiveKeys_collected f es Hes) as Hlive. fold w in Hlive.
  pose proof (well_keyed_run ops since_) as Hk. fold s in Hk.
  assert (well_keyed s') as Hk' by exact (well_keyed_step _ (ORetainNodes nodes) (well_keyed_step _ (ORetain _) Hk)).
  destruct (forgotten_snapshots s _ (LiveKeys (Pods w)) nodes (simulates_run ops since_ Hn)) as (Hp & Hc & Ho).
  split_and!.
  - intros g. rewrite (elem_of_Snapshot s' g Hk'), (elem_of_Snapshot s g Hk). cbn.
    rewrite map_lookup_filter_Some, elem_of_list_to_set. cbn. by rewrite Hlive.
  - intros r. rewrite <-Hlive. apply Hp.
  - intros r. rewrite <-Hlive. apply Hc.
  - intros r. rewrite <-Hlive. apply Ho.
  - intros b. by apply forgotten_builds.
  - intros node uid cid res. unfold podContainerResolver. destruct (LookupContainerOnNode w uid cid node) eqn:E; [|done].
    intros _. by eapply LookupContainerOnNode_exposed.
Qed.

(** ** Builds are written once *)

(** The loop over the pending builds at the end of [flushInventory]: [ok] says
    which writes succeed. *)
Definition write_build (ok : string -> bool) (out : Store * list string) (b : BuildFacts) : Store * list string :=
  if ok (bf_ImageDigest b) then (MarkBuildWritten (bf_ImageDigest b) out.1, out.2 ++ [bf_ImageDigest b]) else out.
Definition flush_builds (ok : string -> bool) (s : Store) : Store * list string :=
  foldl (write_build ok) (s, []) (PendingBuilds s).

Inductive inventory_event :=
| EIngest (at_ : Time) (r : Report) (resolver : ContainerResolver)
| EForget (live : list Key) (nodes : list string)
| EFlush (ok : string -> bool).

Definition inventory_step (out : Store * list string) (e : inventory_event) : Store * list string :=
  match e with
  | EIngest at_ r resolver => (Ingest at_ r resolver out.1, out.2)
  | EForget live nodes => (RetainNodes nodes (Retain live out.1).1, out.2)
  | EFlush ok => let '(s, ds) := flush_builds ok out.1 in (s, out.2 ++ ds)
  end.
Definition inventory_run (es : list inventory_event) (s : Store) : Store * list string := foldl inventory_step (s, []) es.

(** Every forgetting leaves a record that runs [d]. *)
Fixpoint stays_referenced (d : string) (es : list inventory_event) (s : Store) : Prop :=
  match es with
  | [] => True
  | e :: es =>
      match e with EForget live _ => d ∈ referenced (records (Retain live s).1) | _ => True end /\
      stays_referenced d es (inventory_step (s, []) e).1
  end.

Definition writes_of (d : string) (ds : list string) : Z := Z.of_nat (length (filter (fun x => x = d) ds)).
Definition may_write (d : string) (e : inventory_event) : bool := match e with EFlush ok => ok d | _ => false end.

Lemma write_loop ok bs out :
  let out' := foldl (write_build ok) out bs in
  out'.2 = out.2 ++ (bf_ImageDigest <$> List.filter (fun b => ok (bf_ImageDigest b)) bs) /\
  builds out'.1 = builds out.1 /\ records out'.1 = records out.1 /\
  written out'.1 = list_to_set (bf_ImageDigest <$> List.filter (fun b => ok (bf_ImageDigest b)) bs) ∪ written out.1.
Proof.
  revert out. induction bs as [|b bs IH]; intros [s ds]; cbn [foldl List.filter fmap list_fmap].
  { cbn. rewrite app_nil_r, union_empty_l_L. done. }
  destruct (IH (write_build ok (s, ds) b)) as (-> & -> & -> & ->). unfold write_build.
  destruct (ok (bf_ImageDigest b)); cbn; [|done]. rewrite <-app_assoc. split_and!; try done.
  apply set_eq. intros x. rewrite !elem_of_union. tauto.
Qed.

Lemma pending_digests_distinct s : well_keyed s -> NoDup (bf_ImageDigest <$> PendingBuilds s).
Proof.
  intros [_ Hb]. unfold PendingBuilds, sort_slice. rewrite merge_sort_Permutation.
  apply (NoDup_keys_of_values _ id); [|apply _]. intros k v [Hk _]%map_lookup_filter_Some. by apply Hb.
Qed.

Lemma writes_of_app d l1 l2 : writes_of d (l1 ++ l2) = writes_of d l1 + writes_of d l2.
Proof. unfold writes_of. rewrite filter_app, length_app. lia. Qed.

Lemma writes_of_NoDup d ds : NoDup ds -> writes_of d ds = if bool_decide (d ∈ ds) then 1 else 0.
Proof.
  unfold writes_of. induction 1 as [|x ds Hx _ IH]; [by rewrite bool_decide_eq_false_2 by (by intros ?%elem_of_nil)|].
  rewrite filter_cons. destruct (decide (x = d)) as [->|Hxd]; cbn [length].
  - rewrite bool_decide_eq_false_2 in IH by done. rewrite bool_decide_eq_true_2 by by left. lia.
  - rewrite IH. destruct (decide (d ∈ ds)).
    + rewrite !bool_decide_eq_true_2; [done|by right|done].
    + rewrite !bool_decide_eq_false_2; [done| |done]. intros [->|?]%elem_of_cons; done.
Qed.

Lemma flush_builds_writes ok s d : well_keyed s ->
  let out := flush_builds ok s in
  writes_of d out.2 = (if bool_decide (d ∈ dom (builds s)) && negb (bool_decide (d ∈ written s)) && ok d then 1 else 0) /\
  builds out.1 = builds s /\ records out.1 = records s /\
  (d ∈ written out.1 <-> (d ∈ written s \/ (d ∈ dom (builds s) /\ ok d = true))).
Proof.
  intros Hk. unfold flush_builds. destruct (write_loop ok (PendingBuilds s) (s, [])) as (-> & -> & -> & ->).
  cbn [fst snd app].
  assert ((d ∈ (bf_ImageDigest <$> List.filter (fun b => ok (bf_ImageDigest b)) (PendingBuilds s))) <->
          (d ∈ dom (builds s) /\ (d ∉ written s) /\ ok d = true)) as Hin.
  { rewrite list_elem_of_fmap. split.
    - intros (b & -> & [Hb Hok]%list_elem_of_In%List.filter_In). apply list_elem_of_In, elem_of_PendingBuilds in Hb as [Hb Hw]; [|done].
      split_and!; [by apply elem_of_dom_2 in Hb|done|done].
    - intros ([b Hb]%elem_of_dom & Hw & Hok). pose proof (proj2 Hk d b Hb) as Hd. exists b. split; [done|].
      apply list_elem_of_In, List.filter_In. rewrite Hd. split; [|done]. apply list_elem_of_In, elem_of_PendingBuilds; [done|].
      by rewrite Hd. }
  split_and!; [|done|done|].
  - rewrite writes_of_NoDup.
    + destruct (decide (d ∈ dom (builds s))), (decide (d ∈ written s)), (ok d) eqn:Hok;
        repeat first [rewrite (bool_decide_eq_true_2 (d ∈ dom _)) by done|rewrite (bool_decide_eq_false_2 (d ∈ dom _)) by done
          |rewrite (bool_decide_eq_true_2 (d ∈ written _)) by done|rewrite (bool_decide_eq_false_2 (d ∈ written _)) by done];
        cbn [andb negb]; first [rewrite bool_decide_eq_true_2; [done|]; by apply Hin
          |rewrite bool_decide_eq_false_2; [done|]; rewrite Hin; intros (? & ? & ?); done].
    + eapply sublist_NoDup; [exact (pending_digests_distinct s Hk)|]. apply fmap_sublist, sublist_bool_filter.
  - rewrite elem_of_union, elem_of_list_to_set, Hin. destruct (decide (d ∈ written s)); tauto.
Qed.

Lemma Ingest_builds at_ r resolver s d :
  (d ∈ dom (builds s) -> d ∈ dom (builds (Ingest at_ r resolver s))) /\ written (Ingest at_ r resolver s) = written s.
Proof.
  unfold Ingest.
  assert (builds (note_node at_ r s) = builds s /\ written (note_node at_ r s) = written s) as [N1 N2]
    by (unfold note_node; by case_bool_decide).
  assert (forall bs st, d ∈ dom (builds st.1) ->
    d ∈ dom (builds (foldl (ingest_binary at_ (r_Node r) resolver) st bs).1)) as Hgrow.
  { intros bs. induction bs as [|b bs IH]; intros [s0 seen] Hd; [done|]. cbn [foldl]. apply IH.
    destruct (ingest_binary_builds at_ (r_Node r) resolver s0 seen b) as [[->|(d0 & _ & ->)] _]; [done|].
    rewrite dom_insert_L. apply elem_of_union. by right. }
  destruct (ingest_loop_keeps at_ (r_Node r) resolver (r_Binaries r) (note_node at_ r s, mkSeen ∅ ∅ ∅)) as (_ & _ & Hw).
  specialize (Hgrow (r_Binaries r) (note_node at_ r s, mkSeen ∅ ∅ ∅)).
  destruct (foldl _ _ _) as [s' seen]. cbn [fst] in *. rewrite N1 in Hgrow. rewrite N2 in Hw. by split.
Qed.

Lemma Retain_builds live s d : d ∈ referenced (records (Retain live s).1) ->
  (d ∈ dom (builds s) -> d ∈ dom (builds (Retain live s).1)) /\ (d ∈ written (Retain live s).1 <-> d ∈ written s).
Proof.
  intros Hr. cbn in *. split.
  - intros [b Hb]%elem_of_dom. apply elem_of_dom. exists b. by apply map_lookup_filter_Some.
  - rewrite elem_of_difference, elem_of_difference. tauto.
Qed.

Lemma inventory_run_app es s ds :
  foldl inventory_step (s, ds) es = ((inventory_run es s).1, ds ++ (inventory_run es s).2).
Proof.
  unfold inventory_run. revert s ds. induction es as [|e es IH]; intros s ds; cbn [foldl]; [by rewrite app_nil_r|].
  destruct e as [at_ r resolver|live nodes|ok]; cbn [inventory_step fst snd]; [apply IH..|].
  destruct (flush_builds ok s) as [s' ds']. rewrite (IH s' (ds ++ ds')), (IH s' ([] ++ ds')).
  cbn [fst snd app]. by rewrite app_assoc.
Qed.

Lemma inventory_run_cons e es s :
  inventory_run (e :: es) s =
    ((inventory_run es (inventory_step (s, []) e).1).1,
     (inventory_step (s, []) e).2 ++ (inventory_run es (inventory_step (s, []) e).1).2).
Proof. unfold inventory_run at 1. cbn [foldl]. destruct (inventory_step (s, []) e). apply inventory_run_app. Qed.

Lemma well_keyed_event s e : well_keyed s -> well_keyed (inventory_step (s, []) e).1.
Proof.
  intros Hk. destruct e as [at_ r resolver|live nodes|ok]; cbn [inventory_step fst].
  - exact (well_keyed_step s (OIngest at_ r resolver) Hk).
  - exact (well_keyed_step _ (ORetainNodes nodes) (well_keyed_step s (ORetain live) Hk)).
  - destruct (flush_builds_writes ok s "" Hk) as (_ & Hb & Hr & _). destruct (flush_builds ok s) as [s' ds]. cbn in *.
    unfold well_keyed. by rewrite Hb, Hr.
Qed.

(** A build is written once.  From any store the inventory can be in, a
    build it holds, for as long as some record runs it, is handed to the sink by
    every flush until one write succeeds and by none after: the successful
    writes are none if it was written before or no write of it succeeds, and
    exactly one otherwise. *)
Theorem builds_are_written_once (since_ : Time) (ops : list op) (es : list inventory_event) (d : string) :
  let s := run_ops ops (NewStore since_) in
  d ∈ dom (builds s) -> stays_referenced d es s ->
  writes_of d (inventory_run es s).2 =
    if bool_decide (d ∈ written s) then 0 else if existsb (may_write d) es then 1 else 0.
Proof.
  intros s. pose proof (well_keyed_run ops since_) as Hk. fold s in Hk. clearbody s. revert s Hk.
  induction es as [|e es IH]; intros s Hk Hd Hstay.
  { cbn. by case_bool_decide. }
  destruct Hstay as [He Hstay]. rewrite inventory_run_cons. cbn [snd]. rewrite writes_of_app.
  specialize (IH _ (well_keyed_event s e Hk)).
  destruct e as [at_ r resolver|live nodes|ok]; cbn [inventory_step fst snd existsb may_write orb] in *.
  - destruct (Ingest_builds at_ r resolver s d) as [Hb Hw]. rewrite IH, Hw; auto.
  - destruct (Retain_builds live s d He) as [Hb Hw]. cbn [RetainNodes written builds] in IH. rewrite IH; [|auto..].
    by rewrite (bool_decide_ext _ _ Hw).
  - destruct (flush_builds_writes ok s d Hk) as (Hn & Hb & _ & Hw). destruct (flush_builds ok s) as [s' ds].
    cbn [fst snd app] in *. rewrite IH; [|by rewrite Hb|done]. rewrite Hn.
    rewrite (bool_decide_eq_true_2 (d ∈ dom (builds s))) by done. cbn [andb].
    destruct (decide (d ∈ written s)) as [Hin|Hin].
    + rewrite (bool_decide_eq_true_2 (d ∈ written s)) by done. cbn [negb andb].
      rewrite bool_decide_eq_true_2; [done|]. apply Hw. by left.
    + rewrite (bool_decide_eq_false_2 (d ∈ written s)) by done. cbn [negb]. destruct (ok d) eqn:Hok; cbn [orb andb].
      * rewrite bool_decide_eq_true_2; [done|]. apply Hw. by right.
      * rewrite bool_decide_eq_false_2; [done|]. rewrite Hw. intros [?|[_ ?]]; done.
Qed.

(** ** A rollout seen by two nodes *)

Definition demo_resolver : ContainerResolver := fun uid cid =>
  if bool_decide (cid = "c-old"%string) then Some (mkResolved "shop" "Deployment" "web" "app" "sha256:old")
  else if bool_decide (cid = "c-new"%string) then Some (mkResolved "shop" "Deployment" "web" "app" "sha256:new")
  else None.

Definition demo_binary (cid : string) (peak : Z) : BinaryInfo :=
  mkBinary 7 "go1.24" "example.com/web" [] ∅ ∅ false false [] peak 4 noFootprint None "u1" cid.
Definition demo_report (node cid : string) (peak : Z) : Report :=
  mkReport node [demo_binary cid peak; demo_binary "unknown" 1] (mkScanCounters 2 2 0 0 0) None.
Definition demo_key : Key := mkKey "shop" "Deployment" "web" "app".

Definition demo_ops : list op :=
  [OIngest 10 (demo_report "node-1" "c-old" 900) demo_resolver; OIngest 20 (demo_report "node-2" "c-old" 300) demo_resolver;
   OIngest 30 (demo_report "node-1" "c-old" 500) demo_resolver; ORetain [demo_key]].

Lemma demo_named : Forall names_node demo_ops.
Proof. repeat (constructor; [try done; split; discriminate|]). constructor. Defined.

(** The first node's peak of 900 went with the process that set it. *)
Lemma inventory_reflects_latest_reports_witness :
  mkPeakRecord (mkBuildKey demo_key "sha256:old") (mkPeaks 500 2 4 4 noFootprint 0) 20
    ∈ PeakSnapshot (run_ops demo_ops (NewStore 0)).
Proof.
  destruct (inventory_reflects_latest_reports 0 demo_ops demo_named) as (Hp & _).
  apply Hp. vm_compute. split; [discriminate|]. split; reflexivity.
Defined.

(** The reports named a workload no collected pod belongs to. *)
Lemma inventory_names_only_consenting_witness :
  ~ exists g, g ∈ Snapshot (forget_departed (run demo_filter demo_events).1 ["node-1"%string]
                             (run_ops demo_ops (NewStore 0))) /\ g_Key g = demo_key.
Proof.
  destruct (inventory_names_only_consenting demo_filter demo_events 0 demo_ops ["node-1"%string] demo_order demo_named)
    as (Hg & _).
  intros (g & Hin & Hk). apply Hg in Hin as [_ Hin]. rewrite Hk in Hin.
  apply (LiveKeys_collected demo_filter demo_events demo_order) in Hin. revert Hin.
  apply (bool_decide_unpack _). vm_compute. exact I.
Defined.

Definition demo_flushes : list inventory_event :=
  [EFlush (fun _ => false); EIngest 40 (demo_report "node-2" "c-old" 300) demo_resolver;
   EForget [demo_key] ["node-1"; "node-2"]%string; EFlush (fun _ => true); EFlush (fun _ => true)].

Lemma builds_are_written_once_witness :
  writes_of "sha256:old" (inventory_run demo_flushes (run_ops demo_ops (NewStore 0))).2 = 1.
Proof.
  rewrite (builds_are_written_once 0 demo_ops demo_flushes "sha256:old").
  - vm_compute. reflexivity.
  - apply (bool_decide_unpack _). vm_compute. exact I.
  - split_and!; try exact I. apply (bool_decide_unpack _). vm_compute. exact I.
Defined.

(** The condition is not idle.  While a rollout runs two builds of one
    container, its one record names whichever was reported last, and each flush
    forgets the other build although it is running: with two nodes reporting in
    turn, the builds are sent again and again. *)
Definition rollout_round (first second : string * string) : list inventory_event :=
  [EIngest 50 (demo_report first.1 first.2 1) demo_resolver; EIngest 60 (demo_report second.1 second.2 1) demo_resolver;
   EForget [demo_key] ["node-1"; "node-2"]%string; EFlush (fun _ => true)].

Example rollout_writes_builds_again :
  let old := ("node-1", "c-old")%string in let new := ("node-2", "c-new")%string in
  (inventory_run (rollout_round old new ++ rollout_round new old ++ rollout_round old new) (NewStore 0)).2 =
    ["sha256:new"; "sha256:old"; "sha256:new"]%string.
Proof. vm_compute. reflexivity. Qed.

Example rollout_never_writes_the_old_build :
  let old := ("node-1", "c-old")%string in let new := ("node-2", "c-new")%string in
  (inventory_run (rollout_round old new ++ rollout_round old new ++ rollout_round old new) (NewStore 0)).2 =
    ["sha256:new"]%string.
Proof. vm_compute. reflexivity. Qed.
