(* ===== verification/Probe.v ===== *)
(** The two readers of a workload's pprof index, [internal/pprofprobe]: the
    prober of probe.go, which confirms once per build and port that the index is
    served, and the counter of count.go, which reads the goroutine count off the
    same page.

    What a request came to is an input: no answer, or a status with a body that
    could or could not be read.  So are the readings of the clock, the addresses
    the pod index gives at the moment of asking, and whether the context has
    ended.  The prober's map of answers and the counter's map of rests are state;
    their locks are held around each access and no access reads two of them. *)

From stdpp Require Import prelude gmap strings list sorting.
From Stdlib Require Import ZArith Lia Ascii.
From S2P Require Import Prelude GoTime GoStrings Model Cluster Admission PodWatcher PodIndex.
From S2P Require Import ProcCounters NodeReport Contributions Inventory.
Local Open Scope Z_scope.
Local Open Scope go_scope.

(** ** Targets and candidates *)

Record Target := mkTarget { tg_ImageDigest : string; tg_Port : Z }.
#[export] Instance Target_eq_dec : EqDecision Target.
Proof. solve_decision. Defined.
#[export] Instance Target_countable : Countable Target.
Proof. refine (inj_countable' (fun t => (tg_ImageDigest t, tg_Port t)) (fun p => mkTarget p.1 p.2) _). by intros []. Defined.

Record Candidate := mkCandidate {
  cd_Target : Target; cd_Namespace : string; cd_WorkloadKind : string; cd_WorkloadName : string; cd_Container : string;
  cd_OwnModules : list string;
}.
#[export] Instance Candidate_eq_dec : EqDecision Candidate.
Proof. solve_decision. Defined.

Inductive ProbeState := StateUnknown | StateConfirmed | StateAbsent | StateUnreachable.
#[export] Instance ProbeState_eq_dec : EqDecision ProbeState.
Proof. solve_decision. Defined.

Definition StateString (s : ProbeState) : string :=
  match s with
  | StateConfirmed => "confirmed"
  | StateAbsent => "absent"
  | StateUnreachable => "unreachable"
  | StateUnknown => "unknown"
  end.

(** One candidate per port other machines can reach of each build that links
    the package. *)
Definition candidates_of (builds : gmap string (list string)) (rec_ : PortRecord) : list Candidate :=
  match builds !! bImageDigest (pr_Key rec_) with
  | None => []
  | Some ownModules =>
      (fun port => let k := bKey (pr_Key rec_) in
         mkCandidate (mkTarget (bImageDigest (pr_Key rec_)) (ip_Port port)) (kNamespace k) (kWorkloadKind k)
           (kWorkloadName k) (kContainer k) ownModules)
      <$> List.filter (fun port => negb (ip_Loopback port)) (pr_Ports rec_)
  end.
Definition Candidates (ports : list PortRecord) (builds : gmap string (list string)) : list Candidate :=
  ports ≫= candidates_of builds.

Definition declined (optedOut : string -> string -> string -> bool) (c : Candidate) : bool :=
  optedOut (cd_Namespace c) (cd_WorkloadKind c) (cd_WorkloadName c).
Definition Admitted_ (candidates : list Candidate) (optedOut : string -> string -> string -> bool) : list Candidate * Z :=
  (List.filter (fun c => negb (declined optedOut c)) candidates,
   Z.of_nat (size (list_to_set (cd_Target <$> List.filter (declined optedOut) candidates) : gset Target))).

(** ** One request *)

Definition indexPath : string := "/debug/pprof/".
Definition indexTitle : string := "<title>/debug/pprof/</title>".
Definition maxIndexBytes : Z := 64 * 1024.
Definition maxProbesPerTick : Z := 20.
Definition unreachableRetry : Duration := 30 * Minute.
Definition StatusOK : Z := 200.

(** What came of a request: [None] for a body is a read that failed. *)
Inductive response := NoAnswer | Answered (status : Z) (body : option string).

Definition ask (r : response) : ProbeState :=
  match r with
  | NoAnswer => StateUnreachable
  | Answered status body =>
      if negb (status =? StatusOK) then StateAbsent
      else match body with
           | None => StateUnreachable
           | Some text =>
               if Contains (LimitReader maxIndexBytes text) indexTitle then StateConfirmed else StateAbsent
           end
  end.

(** ** The prober *)

Record answer := mkAnswer { an_state : ProbeState; retryAt : Time }.
Abbreviation Prober := (gmap Target answer).

Definition due (p : Prober) (now : Time) (t : Target) : bool :=
  match p !! t with
  | None => true
  | Some a => negb (IsZero (retryAt a)) && negb (Before now (retryAt a))
  end.

Definition record (p : Prober) (now : Time) (t : Target) (state : ProbeState) : Prober :=
  <[t := mkAnswer state (if bool_decide (state = StateUnreachable) then Add now unreachableRetry else 0)]> p.

(** The surroundings of one turn of the loop. *)
Record turn := mkTurn {
  tn_cand : Candidate; tn_due : Time; tn_addr : option string; tn_response : response; tn_recorded : Time;
  tn_cancelled : bool;
}.

(** A request that was made: to what address, about what, and what it showed. *)
Record asked := mkAsked { as_cand : Candidate; as_addr : string; as_state : ProbeState; as_due : Time; as_recorded : Time }.

Fixpoint round_loop (n : Z) (ts : list turn) (p : Prober) : Prober * list asked :=
  match ts with
  | [] => (p, [])
  | t :: ts =>
      if maxProbesPerTick <=? n then (p, [])
      else if negb (due p (tn_due t) (cd_Target (tn_cand t))) then round_loop n ts p
      else match tn_addr t with
           | None => round_loop n ts p
           | Some addr =>
               let state := ask (tn_response t) in
               let p := record p (tn_recorded t) (cd_Target (tn_cand t)) state in
               let a := mkAsked (tn_cand t) addr state (tn_due t) (tn_recorded t) in
               if tn_cancelled t then (p, [a])
               else let '(p, log) := round_loop (n + 1) ts p in (p, a :: log)
           end
  end.
Definition round (ts : list turn) (p : Prober) : Prober * list asked := round_loop 0 ts p.

Definition Endpoints (p : Prober) : list Target :=
  (List.filter (fun ta => bool_decide (an_state ta.2 = StateConfirmed)) (map_to_list p)).*1.

Definition is_confirmed (p : Prober) (c : Candidate) : bool :=
  match p !! cd_Target c with Some a => bool_decide (an_state a = StateConfirmed) | None => false end.
Definition Confirmed (p : Prober) (candidates : list Candidate) : list Candidate := List.filter (is_confirmed p) candidates.

Definition stamp_port (p : Prober) (digest : string) (port : InventoryPort) : InventoryPort :=
  match p !! mkTarget digest (ip_Port port) with
  | Some a => if bool_decide (an_state a = StateUnknown) then port
              else mkInventoryPort (ip_Port port) (ip_Loopback port) (StateString (an_state a))
  | None => port
  end.
Definition Stamp (p : Prober) (records : list PortRecord) : list PortRecord :=
  (fun r => mkPortRecord (pr_Key r) (stamp_port p (bImageDigest (pr_Key r)) <$> pr_Ports r) (pr_AssertedAt r)) <$> records.

Record ProbeCoverage := mkProbeCoverage { pbConfirmed : Z; pbAbsent : Z; pbUnreachable : Z; pbExcludedByAnnotation : Z }.
Definition in_state (p : Prober) (s : ProbeState) : Z :=
  Z.of_nat (length (List.filter (fun a => bool_decide (an_state a = s)) (map_values p))).
Definition ProbeSnapshot (p : Prober) : ProbeCoverage :=
  mkProbeCoverage (in_state p StateConfirmed) (in_state p StateAbsent) (in_state p StateUnreachable) 0.

(** ** What main.go wires in *)

(** [net.JoinHostPort]. *)
Definition JoinHostPort (host port : string) : string :=
  if has_byte ":"%char host || has_byte "%"%char host then "[" +:+ host +:+ "]:" +:+ port else host +:+ ":" +:+ port.
Definition HostPort (host : string) (port : Z) : string := JoinHostPort host (FormatInt port).

Definition Address (c : caches) (w : PodWatcher) (cand : Candidate) : option string :=
  (fun ip => HostPort ip (tg_Port (cd_Target cand))) <$>
  PodAddress c w (cd_Namespace cand) (mkWorkloadRef (cd_WorkloadKind cand) (cd_WorkloadName cand)) (cd_Container cand)
    (tg_ImageDigest (cd_Target cand)).
Definition Replica (c : caches) (w : PodWatcher) (cand : Candidate) : option (string * string) :=
  (fun r => (HostPort r.1 (tg_Port (cd_Target cand)), r.2)) <$>
  PodReplica c w (cd_Namespace cand) (mkWorkloadRef (cd_WorkloadKind cand) (cd_WorkloadName cand)) (cd_Container cand)
    (tg_ImageDigest (cd_Target cand)).

(** The candidates of a round, narrowed by the opt-out. *)
Definition admitted_candidates (w : PodWatcher) (s : Store) : list Candidate * Z :=
  let optedOut ns kind name := bool_decide ((ns, mkWorkloadRef kind name) ∈ ProfilingOptOuts w) in
  Admitted_ (Candidates (PortSnapshot s) (PprofBuilds s)) optedOut.

(** ** How often a target is asked *)

(** Rounds one after another, in whatever surroundings. *)
Fixpoint run_rounds (tss : list (list turn)) (p : Prober) : Prober * list asked :=
  match tss with
  | [] => (p, [])
  | ts :: tss => let '(p, log) := round ts p in let '(p, log') := run_rounds tss p in (p, log ++ log')
  end.

Definition asks_of (t : Target) (log : list asked) : list asked :=
  List.filter (fun a => bool_decide (cd_Target (as_cand a) = t)) log.

(** Why a target may be asked again. *)
Definition after_silence (a b : asked) : Prop :=
  as_state a = StateUnreachable /\ Add (as_recorded a) unreachableRetry <= as_due b.

Definition on_clock (t : turn) : Prop := 0 <= tn_recorded t.

(** What the prober remembers of a target is its last request. *)
Definition remembers (p : Prober) (log : list asked) : Prop :=
  forall t, p !! t =
    (fun a => mkAnswer (as_state a)
                (if bool_decide (as_state a = StateUnreachable) then Add (as_recorded a) unreachableRetry else 0))
    <$> list.last (asks_of t log).

Definition sparing (log : list asked) : Prop := forall t, Sorted after_silence (asks_of t log).

Lemma asks_of_app t l1 l2 : asks_of t (l1 ++ l2) = asks_of t l1 ++ asks_of t l2.
Proof. apply List.filter_app. Qed.

Lemma Sorted_snoc {A} (R : relation A) (l : list A) x :
  Sorted R l -> (forall y, list.last l = Some y -> R y x) -> Sorted R (l ++ [x]).
Proof.
  intros Hs Hl. induction Hs as [|a l Hs IH Ha]; cbn; [by repeat constructor|].
  constructor.
  - apply IH. intros y Hy. apply Hl. destruct l; [done|]. exact Hy.
  - destruct l as [|b l]; cbn; [constructor; by apply Hl|]. inv Ha. by constructor.
Qed.

Definition ask_of (t : turn) (addr : string) : asked :=
  mkAsked (tn_cand t) addr (ask (tn_response t)) (tn_due t) (tn_recorded t).

Lemma ask_keeps p log t addr :
  remembers p log -> sparing log -> Forall (fun a => 0 <= as_recorded a) log ->
  due p (tn_due t) (cd_Target (tn_cand t)) = true ->
  let p' := record p (tn_recorded t) (cd_Target (tn_cand t)) (ask (tn_response t)) in
  remembers p' (log ++ [ask_of t addr]) /\ sparing (log ++ [ask_of t addr]).
Proof.
  intros Hr Hs Hc Hd p'. split; intros x; rewrite asks_of_app;
    assert (asks_of x [ask_of t addr] = if bool_decide (cd_Target (tn_cand t) = x) then [ask_of t addr] else []) as -> by done.
  - unfold p', record. destruct (decide (cd_Target (tn_cand t) = x)) as [<-|Hx].
    + rewrite lookup_insert_eq, (bool_decide_eq_true_2 (cd_Target (tn_cand t) = _)) by done. by rewrite last_snoc.
    + rewrite lookup_insert_ne, (bool_decide_eq_false_2 (cd_Target (tn_cand t) = x)) by done. by rewrite app_nil_r, Hr.
  - case_bool_decide as Hx; [|by rewrite app_nil_r; apply Hs].
    apply Sorted_snoc; [apply Hs|]. intros y Hy. subst x. unfold due in Hd. rewrite Hr, Hy in Hd. cbn in Hd.
    assert (0 <= as_recorded y) as Hpos.
    { rewrite Forall_forall in Hc. apply Hc. apply last_Some_elem_of in Hy. unfold asks_of in Hy.
      apply list_elem_of_In, List.filter_In in Hy as [Hy _]. by apply list_elem_of_In. }
    unfold after_silence, ask_of. cbn [as_due as_recorded as_state]. case_bool_decide as Hu.
    + split; [done|]. apply andb_true_iff in Hd as [_ Hd]. unfold Before in Hd. apply negb_true_iff, Z.ltb_ge in Hd. done.
    + by rewrite andb_true_iff in Hd; destruct Hd.
Qed.

Lemma round_keeps ts n p log :
  Forall on_clock ts ->
  remembers p log -> sparing log -> Forall (fun a => 0 <= as_recorded a) log ->
  let out := round_loop n ts p in
  remembers out.1 (log ++ out.2) /\ sparing (log ++ out.2) /\ Forall (fun a => 0 <= as_recorded a) (log ++ out.2) /\
  (0 <= n <= maxProbesPerTick -> n + Z.of_nat (length out.2) <= maxProbesPerTick).
Proof.
  intros Hts. revert n p log. induction Hts as [|t ts Ht _ IH]; intros n p log Hr Hs Hc; cbn [round_loop].
  { cbn. rewrite app_nil_r. split_and!; try done. lia. }
  destruct (Z.leb_spec maxProbesPerTick n) as [Hn|Hn].
  { cbn. rewrite app_nil_r. split_and!; try done. lia. }
  destruct (due p (tn_due t) (cd_Target (tn_cand t))) eqn:Hd; cbn [negb]; [|by apply IH].
  destruct (tn_addr t) as [addr|]; [|by apply IH].
  destruct (ask_keeps p log t addr Hr Hs Hc Hd) as [Hr' Hs'].
  assert (Forall (fun a => 0 <= as_recorded a) (log ++ [ask_of t addr])) as Hc'.
  { apply Forall_app. split; [done|]. by repeat constructor. }
  cbn zeta. change (mkAsked _ addr _ _ _) with (ask_of t addr). destruct (tn_cancelled t).
  { cbn. split_and!; try done. lia. }
  destruct (IH (n + 1) _ _ Hr' Hs' Hc') as (Hr2 & Hs2 & Hc2 & Hl2).
  destruct (round_loop (n + 1) ts _) as [p2 log2]. cbn [fst snd] in *.
  rewrite <-app_assoc in *. cbn [app] in *. split_and!; try done. intros Hb. cbn [length]. lia.
Qed.

Lemma run_keeps tss p log :
  Forall (Forall on_clock) tss ->
  remembers p log -> sparing log -> Forall (fun a => 0 <= as_recorded a) log ->
  let out := run_rounds tss p in remembers out.1 (log ++ out.2) /\ sparing (log ++ out.2).
Proof.
  intros Hts. revert p log. induction Hts as [|ts tss Ht _ IH]; intros p log Hr Hs Hc; cbn [run_rounds].
  { cbn. by rewrite app_nil_r. }
  destruct (round_keeps ts 0 p log Ht Hr Hs Hc) as (Hr1 & Hs1 & Hc1 & _).
  unfold round. destruct (round_loop 0 ts p) as [p1 log1]. cbn [fst snd] in *.
  destruct (IH p1 _ Hr1 Hs1 Hc1) as [Hr2 Hs2]. destruct (run_rounds tss p1) as [p2 log2]. cbn [fst snd] in *.
  by rewrite <-app_assoc in *.
Qed.

(** The prober asks sparingly.  A round makes at most twenty requests.  A
    target that answered, with the index or with anything else, is never asked
    again, in any later round; a target that could not be reached is left alone
    for half an hour.  What the prober reports of a target is what its last
    request showed. *)
Theorem probes_are_sparing (tss : list (list turn)) :
  Forall (Forall on_clock) tss ->
  let '(p, log) := run_rounds tss ∅ in
  (forall ts q, Z.of_nat (length (round ts q).2) <= maxProbesPerTick) /\
  (forall t pre a post, asks_of t log = pre ++ a :: post -> post <> [] ->
     as_state a = StateUnreachable /\ Forall (fun b => Add (as_recorded a) unreachableRetry <= as_due b) (take 1 post)) /\
  (forall c, is_confirmed p c = true <->
     exists a, list.last (asks_of (cd_Target c) log) = Some a /\ as_state a = StateConfirmed).
Proof.
  intros Hts.
  assert (remembers ∅ []) as Hr by (intros t; by rewrite lookup_empty).
  destruct (run_keeps tss ∅ [] Hts Hr ltac:(intros t; constructor) ltac:(constructor)) as [Hr' Hs'].
  destruct (run_rounds tss ∅) as [p log]. cbn [fst snd app] in *. split_and!.
  - intros ts q. unfold round.
    assert (forall ts n q, 0 <= n <= maxProbesPerTick -> n + Z.of_nat (length (round_loop n ts q).2) <= maxProbesPerTick) as Hb.
    { clear. intros ts. induction ts as [|t ts IH]; intros n q Hn; cbn [round_loop]; [cbn; lia|].
      destruct (Z.leb_spec maxProbesPerTick n); [cbn; lia|].
      destruct (due _ _ _); cbn [negb]; [|by apply IH]. destruct (tn_addr t); [|by apply IH].
      destruct (tn_cancelled t); [cbn; lia|]. specialize (IH (n + 1) (record q (tn_recorded t) (cd_Target (tn_cand t)) (ask (tn_response t))) ltac:(lia)).
      destruct (round_loop _ _ _). cbn [snd length] in *. lia. }
    specialize (Hb ts 0 q). unfold maxProbesPerTick in *. lia.
  - intros t pre a post Heq Hp. specialize (Hs' t). rewrite Heq in Hs'. clear Heq.
    induction pre as [|x pre IH]; cbn in Hs'.
    + destruct post as [|b post]; [done|]. apply Sorted_inv in Hs' as [_ Hh]. inv Hh.
      destruct H0 as [Hu Hd]. split; [done|]. cbn. by repeat constructor.
    + apply IH. by apply Sorted_inv in Hs' as [? _].
  - intros c. unfold is_confirmed. rewrite Hr'. destruct (list.last (asks_of (cd_Target c) log)) as [a|]; cbn.
    + rewrite bool_decide_eq_true. split; [by exists a|]. by intros (? & [= <-] & ?).
    + split; [done|]. by intros (? & ? & _).
Qed.

(** ** Who is asked *)

(** A round of the controller: the candidates as admitted now, each address as
    the pod index gives it at some moment of the round. *)
Definition wired (w : PodWatcher) (s : Store) (t : turn) : Prop :=
  tn_cand t ∈ (admitted_candidates w s).1 /\
  forall addr, tn_addr t = Some addr -> exists c, Address c w (tn_cand t) = Some addr.

Lemma elem_of_admitted w s c :
  c ∈ (admitted_candidates w s).1 ->
  (exists r port, r ∈ PortSnapshot s /\ port ∈ pr_Ports r /\ ip_Loopback port = false /\
     cd_Target c = mkTarget (bImageDigest (pr_Key r)) (ip_Port port) /\
     mkKey (cd_Namespace c) (cd_WorkloadKind c) (cd_WorkloadName c) (cd_Container c) = bKey (pr_Key r)) /\
  (exists b, builds s !! tg_ImageDigest (cd_Target c) = Some b /\ bf_HasPprof b = true) /\
  (cd_Namespace c, mkWorkloadRef (cd_WorkloadKind c) (cd_WorkloadName c)) ∉ ProfilingOptOuts w.
Proof.
  unfold admitted_candidates, Admitted_. cbn [fst]. intros Hc%list_elem_of_In. apply List.filter_In in Hc as [Hc Ho].
  apply list_elem_of_In in Hc. apply negb_true_iff, bool_decide_eq_false in Ho.
  unfold Candidates in Hc. apply list_elem_of_bind in Hc as (r & Hc & Hr). unfold candidates_of in Hc.
  destruct (PprofBuilds s !! bImageDigest (pr_Key r)) as [own|] eqn:Hb; [|by apply elem_of_nil in Hc].
  apply list_elem_of_fmap in Hc as (port & -> & Hp%list_elem_of_In). apply List.filter_In in Hp as [Hp Hl].
  apply list_elem_of_In in Hp. apply negb_true_iff in Hl. cbn in *. split_and!; [| |done].
  - exists r, port. split_and!; try done. by destruct (bKey (pr_Key r)).
  - unfold PprofBuilds in Hb. rewrite lookup_fmap in Hb. apply fmap_Some in Hb as (b & Hb & _).
    apply map_lookup_filter_Some in Hb as [Hb Hpp]. by exists b.
Qed.

Lemma round_asks ts n p a : a ∈ (round_loop n ts p).2 ->
  exists t, t ∈ ts /\ as_cand a = tn_cand t /\ tn_addr t = Some (as_addr a).
Proof.
  revert n p. induction ts as [|t ts IH]; intros n p; cbn [round_loop]; [by intros ?%elem_of_nil|].
  assert (forall n p, a ∈ (round_loop n ts p).2 ->
    exists u, u ∈ t :: ts /\ as_cand a = tn_cand u /\ tn_addr u = Some (as_addr a)) as Hrec.
  { intros m q Ha. destruct (IH m q Ha) as (u & Hu & ?). exists u. split; [by right|done]. }
  destruct (_ <=? _); [by intros ?%elem_of_nil|]. destruct (due _ _ _); cbn [negb]; [|by apply Hrec].
  destruct (tn_addr t) as [addr|] eqn:Haddr; [|by apply Hrec].
  destruct (tn_cancelled t); cbn [snd].
  - intros ->%list_elem_of_singleton. exists t. split; [by left|done].
  - destruct (round_loop _ _ _) as [q log] eqn:E. cbn [snd]. intros [->|Ha]%elem_of_cons.
    + exists t. split; [by left|done].
    + eapply Hrec. by rewrite E.
Qed.

(** The controller connects to nobody else.  Whatever the informer delivered
    and the nodes reported, each request of a probe round goes to a pod that
    declined neither collection nor profiling, of a workload not every pod of
    which declines, and is about a build that links the pprof package and a port
    its processes were seen to bind beyond the loopback. *)
Theorem probes_stay_inside_the_funnel (f : Filter) (es : list event) (s : Store) (p : Prober) (ts : list turn) :
  informer_order es ->
  let w := (run f es).1 in
  Forall (wired w s) ts ->
  Forall (fun a =>
    let c := as_cand a in
    (exists uid c' pod ip, profiled f es uid c' pod /\ Namespace (p_meta pod) = cd_Namespace c /\
       as_addr a = HostPort ip (tg_Port (cd_Target c))) /\
    (exists b, builds s !! tg_ImageDigest (cd_Target c) = Some b /\ bf_HasPprof b = true) /\
    (exists r port, r ∈ PortSnapshot s /\ port ∈ pr_Ports r /\ ip_Loopback port = false /\
       cd_Target c = mkTarget (bImageDigest (pr_Key r)) (ip_Port port)) /\
    (cd_Namespace c, mkWorkloadRef (cd_WorkloadKind c) (cd_WorkloadName c)) ∉ ProfilingOptOuts w)
    (round ts p).2.
Proof.
  intros Hes w Hts. apply Forall_forall. intros a Ha.
  apply round_asks in Ha as (t & Ht & Hc & Haddr). rewrite Forall_forall in Hts. destruct (Hts t Ht) as [Hadm Hw].
  rewrite <-Hc in Hadm, Hw. destruct (Hw _ Haddr) as [cs Hcs].
  destruct (elem_of_admitted w s _ Hadm) as ((r & port & Hr & Hp & Hl & Htg & _) & Hb & Ho).
  cbn zeta. split_and!; [|done| |done].
  - unfold Address, PodAddress in Hcs. rewrite fmap_Some in Hcs. destruct Hcs as (ip & Hip & ->).
    apply fmap_Some in Hip as ([ip' nm] & Hrep & ->). apply (PodReplica_exposed f es Hes) in Hrep as (uid & c' & pod & Hpr & Hns & _).
    by exists uid, c', pod, ip'.
  - by exists r, port.
Qed.

(** ** A build that serves the index *)

Definition demo_pprof_pod : Pod :=
  mkPod (demo_meta "api-0" "u9" ∅)
    (mkPodSpec "node-1" false [] [demo_container] [] [] ∅ None [] [] "" None "") "Running" "" "Burstable" "10.0.0.9"
    [] [] [mkContainerStatus "app" 0 "containerd://ab12" "registry/api@sha256:00ff" None None None].
Definition demo_lister : caches :=
  mkCaches (fun _ => Some ∅) (fun _ _ => None) (fun _ _ => None) (fun _ _ => None) (fun _ _ => None)
    (fun _ _ => None) (fun _ _ => None) (fun ns nm => if bool_decide (ns = "shop"%string /\ nm = "api-0"%string) then Some demo_pprof_pod else None)
    [demo_pprof_pod].
Definition demo_pprof_events : list event := [EAdd demo_lister demo_clock demo_pprof_pod].
Definition demo_pprof_binary : BinaryInfo :=
  mkBinary 7 "go1.24" "example.com/api" [] ∅ ∅ false true [mkPort 6060 false; mkPort 7070 true] 1 4 noFootprint None "u9" "ab12".
Definition demo_pprof_store : Store :=
  let w := (run demo_filter demo_pprof_events).1 in
  Ingest 10 (mkReport "node-1" [demo_pprof_binary] (mkScanCounters 1 1 0 0 0) None) (podContainerResolver w "node-1")
    (NewStore 0).
Definition demo_candidate : Candidate :=
  mkCandidate (mkTarget "sha256:00ff" 6060) "shop" "none" "" "app" ["example.com/api"%string].
Definition demo_page : string := "<html><head>" +:+ indexTitle +:+ "</head></html>".
Definition demo_turn (at_ : Time) (r : response) : turn :=
  mkTurn demo_candidate at_ (Some "10.0.0.9:6060") r (at_ + 5) false.

Example demo_funnel :
  (admitted_candidates (run demo_filter demo_pprof_events).1 demo_pprof_store).1 = [demo_candidate].
Proof. vm_compute. reflexivity. Qed.

Lemma demo_pprof_order : informer_order demo_pprof_events.
Proof. apply (informer_order_add []); [|reflexivity]. apply informer_order_nil. Defined.

Lemma probes_stay_inside_the_funnel_witness :
  exists a, (round [demo_turn 100 NoAnswer] ∅).2 = [a] /\
    exists b, builds demo_pprof_store !! tg_ImageDigest (cd_Target (as_cand a)) = Some b /\ bf_HasPprof b = true.
Proof.
  pose proof (probes_stay_inside_the_funnel demo_filter demo_pprof_events demo_pprof_store ∅ [demo_turn 100 NoAnswer]
    demo_pprof_order) as H.
  assert (Forall (wired (run demo_filter demo_pprof_events).1 demo_pprof_store) [demo_turn 100 NoAnswer]) as Hw.
  { constructor; [|constructor]. split.
    - apply (bool_decide_unpack _). vm_compute. exact I.
    - intros addr [= <-]. exists demo_lister. vm_compute. reflexivity. }
  specialize (H Hw). eexists. split; [reflexivity|]. apply Forall_inv in H. by destruct H as (_ & Hb & _).
Defined.

(** Unreachable at first, too early a moment later, confirmed after the wait. *)
Definition demo_rounds : list (list turn) :=
  [[demo_turn 100 NoAnswer]; [demo_turn 200 NoAnswer];
   [demo_turn (30 * Minute + 105) (Answered 200 (Some demo_page))]; [demo_turn (60 * Minute) NoAnswer]].

Lemma probes_are_sparing_witness :
  length (run_rounds demo_rounds ∅).2 = 2%nat /\ is_confirmed (run_rounds demo_rounds ∅).1 demo_candidate = true.
Proof.
  pose proof (probes_are_sparing demo_rounds) as H.
  assert (Forall (Forall on_clock) demo_rounds) as Hc.
  { repeat constructor; unfold on_clock; cbn; unfold Minute, Second; lia. }
  specialize (H Hc). split; [vm_compute; reflexivity|].
  destruct (run_rounds demo_rounds ∅) as [p log] eqn:E. destruct H as (_ & _ & H). apply H.
  assert (log = (run_rounds demo_rounds ∅).2) as -> by by rewrite E. eexists. split; [vm_compute; reflexivity|reflexivity].
Defined.
