(* ===== verification/Readings.v ===== *)
(** The goroutine counter of [pprofprobe/count.go]: what it reads off the index
    page, and what a round does.

    A round is given the candidates and, for each, its surroundings: whether the
    context has ended before it, the clock, the replica the pod index names and
    what came of the request. *)

From stdpp Require Import prelude gmap strings list sorting.
From Stdlib Require Import ZArith Lia Ascii.
From S2P Require Import Prelude GoTime GoStrings Model ProcCounters NodeReport Probe.
Local Open Scope Z_scope.
Local Open Scope go_scope.

Definition maxReadingsPerRound : Z := 200.
Definition heldAfterFailure : Duration := 5 * Minute.

(** ** The page *)

(** Bytes outside every tag. *)
Fixpoint outside_tags (depth : nat) (line : string) : string :=
  match line with
  | EmptyString => EmptyString
  | String b line =>
      if bool_decide (b = "<"%char) then outside_tags (S depth) line
      else if bool_decide (b = ">"%char) then outside_tags (pred depth) line
      else if (depth =? 0)%nat then String b (outside_tags depth line) else outside_tags depth line
  end.
Definition stripTags (line : string) : string := TrimSpace (outside_tags 0 line).

(** The digits a text begins with, and the rest. *)
Fixpoint split_digits (text : string) : string * string :=
  match text with
  | EmptyString => (EmptyString, EmptyString)
  | String c text' =>
      match digit_value c with
      | Some _ => let '(d, rest) := split_digits text' in (String c d, rest)
      | None => (EmptyString, text)
      end
  end.

(** [n*10 + int64(d-'0')] wraps; a sum that came out smaller is refused. *)
Fixpoint count_digits (n : Z) (digits : string) : option Z :=
  match digits with
  | EmptyString => Some n
  | String c digits =>
      d ← digit_value c;
      let next := wrap64 (n * 10) +w d in
      if next <? n then None else count_digits next digits
  end.
Definition parseCount (digits : string) : option Z := count_digits 0 digits.

Definition goroutine_row (line : string) : option Z :=
  if negb (Contains line ">goroutine<") then None
  else let '(digits, rest) := split_digits (stripTags line) in
       if bool_decide (digits = ""%string) || negb (bool_decide (rest = "goroutine"%string)) then None
       else parseCount digits.
Definition goroutineCount (body : string) : option Z := head (omap goroutine_row (SplitByte body newline_byte)).

Inductive reading := Read (n : Z) | Unread_ | Unusable.

Definition read (r : response) : reading :=
  match r with
  | NoAnswer => Unread_
  | Answered status body =>
      if negb (status =? StatusOK) then Unusable
      else match body with
           | None => Unread_
           | Some text =>
               let text := LimitReader maxIndexBytes text in
               if negb (Contains text indexTitle) then Unusable
               else match goroutineCount text with Some n => Read n | None => Unusable end
           end
  end.

(** ** The counter *)

Record CountCoverage := mkCountCoverage { cvSampled : Z; cvUnreachable : Z; cvUnreadable : Z }.
Record Counter := mkCounter { cover : CountCoverage; held : gmap Target Time }.
Definition NewCounter : Counter := mkCounter (mkCountCoverage 0 0 0) ∅.

Definition heldOff (c : Counter) (now : Time) (t : Target) : bool :=
  match held c !! t with Some until => Before now until | None => false end.

Definition hold (c : Counter) (now : Time) (t : Target) (d : Duration) : Counter :=
  mkCounter (cover c) (if d =? 0 then delete t (held c) else <[t := Add now d]> (held c)).

Inductive outcome := Sampled (g : GoroutineCount) | Unreachable | Unreadable.

Definition count (c : Counter) (o : outcome) : Counter :=
  let cv := cover c in
  mkCounter match o with
            | Sampled _ => mkCountCoverage (cvSampled cv +w 1) (cvUnreachable cv) (cvUnreadable cv)
            | Unreachable => mkCountCoverage (cvSampled cv) (cvUnreachable cv +w 1) (cvUnreadable cv)
            | Unreadable => mkCountCoverage (cvSampled cv) (cvUnreachable cv) (cvUnreadable cv +w 1)
            end (held c).

(** One process per container and build, by its lowest port. *)
Definition process_key (c : Candidate) : string * (string * (string * (string * string))) :=
  (cd_Namespace c, (cd_WorkloadKind c, (cd_WorkloadName c, (cd_Container c, tg_ImageDigest (cd_Target c))))).

Definition lowest_port (m : gmap (string * (string * (string * (string * string)))) Candidate) (c : Candidate) :=
  match m !! process_key c with
  | Some held => if tg_Port (cd_Target held) <=? tg_Port (cd_Target c) then m else <[process_key c := c]> m
  | None => <[process_key c := c]> m
  end.

Definition reads_before (a b : Candidate) : bool :=
  lexi (cd_Namespace a) (cd_Namespace b) (lexi (cd_WorkloadName a) (cd_WorkloadName b)
    (lexi (cd_Container a) (cd_Container b) (go_lt (tg_Port (cd_Target a)) (tg_Port (cd_Target b))))).
Definition processes (candidates : list Candidate) : list Candidate :=
  sort_slice reads_before (map_values (foldl lowest_port ∅ candidates)).

Record surroundings := mkSurroundings {
  su_done : bool;                        (** [ctx.Err() != nil] before it *)
  su_checked : Time;                     (** when its rest was checked *)
  su_replica : option (string * string);
  su_observed : Time;
  su_response : response;
  su_held : Time;                        (** when its rest was set *)
}.

Definition visit (e : surroundings) (cand : Candidate) (c : Counter) : Counter * outcome :=
  let t := cd_Target cand in
  match su_replica e with
  | None => (count c Unreachable, Unreachable)
  | Some (addr, pod) =>
      match read (su_response e) with
      | Unusable => (count (hold c (su_held e) t heldAfterFailure) Unreadable, Unreadable)
      | Unread_ => (count (hold c (su_held e) t heldAfterFailure) Unreachable, Unreachable)
      | Read n =>
          let g := mkGoroutineCount (cd_Namespace cand) pod (cd_Container cand)
                     (mkWorkloadRef (cd_WorkloadKind cand) (cd_WorkloadName cand)) (tg_ImageDigest t) (su_observed e) n in
          (count (hold c (su_held e) t 0) (Sampled g), Sampled g)
      end
  end.

Fixpoint read_loop (env : Candidate -> surroundings) (n : Z) (cands : list Candidate) (c : Counter)
    : Counter * list (Candidate * outcome) :=
  match cands with
  | [] => (c, [])
  | cand :: cands =>
      let e := env cand in
      if (maxReadingsPerRound <=? n) || su_done e then (c, [])
      else if heldOff c (su_checked e) (cd_Target cand) then read_loop env n cands c
      else let '(c, o) := visit e cand c in
           let '(c, log) := read_loop env (n + 1) cands c in
           (c, (cand, o) :: log)
  end.
Definition count_round (env : Candidate -> surroundings) (candidates : list Candidate) (c : Counter)
    : Counter * list (Candidate * outcome) := read_loop env 0 (processes candidates) c.

Definition samples (log : list (Candidate * outcome)) : list GoroutineCount :=
  omap (fun co => match co.2 with Sampled g => Some g | _ => None end) log.

(** ** Reading back the row Go renders *)

Definition print_count_row (n : Z) : string :=
  "<tr><td>" +:+ FormatUint n +:+ "</td><td><a href='goroutine?debug=1'>goroutine</a></td></tr>".

Lemma digit_value_range c d : digit_value c = Some d -> 0 <= d <= 9.
Proof. unfold digit_value. case_bool_decide; [|done]. intros [= <-]. lia. Qed.

Lemma parse_digits_mono acc s n : 0 <= acc -> parse_digits acc s = Some n -> acc <= n.
Proof.
  revert acc. induction s as [|c s IH]; intros acc Ha; cbn; [by intros [= <-]; lia|].
  destruct (digit_value c) as [d|] eqn:Hd; [|done]. cbn. intros Hp.
  apply digit_value_range in Hd as Hr.
  apply IH in Hp; lia.
Qed.

Lemma count_digits_exact acc s n :
  0 <= acc -> n <= maxInt64 -> parse_digits acc s = Some n -> count_digits acc s = Some n.
Proof.
  revert acc. induction s as [|c s IH]; intros acc Ha Hn; [done|]. cbn.
  destruct (digit_value c) as [d|] eqn:Hd; [|done]. cbn. intros Hp.
  apply digit_value_range in Hd as Hr.
  assert (0 <= acc * 10 + d) as Hacc by lia. pose proof (parse_digits_mono _ _ _ Hacc Hp) as Hm.
  rewrite wrap64_add_l, wrap64_id by go_lia.
  destruct (Z.ltb_spec (acc * 10 + d) acc); [lia|]. apply IH; [lia|done|done].
Qed.

Lemma split_digits_app d rest :
  all_digits d = true -> match rest with String c _ => digit_value c = None | EmptyString => True end ->
  split_digits (d +:+ rest) = (d, rest).
Proof.
  intros Hd Hr. induction d as [|c d IH].
  { rewrite string_app_nil. destruct rest as [|c rest]; [done|]. cbn. by rewrite Hr. }
  cbn in Hd. apply andb_true_iff in Hd as [[v Hc]%bool_decide_eq_true Hd].
  rewrite string_app_cons. cbn. by rewrite Hc, IH.
Qed.

Lemma outside_tags_digits d rest : all_digits d = true -> outside_tags 0 (d +:+ rest) = d +:+ outside_tags 0 rest.
Proof.
  induction d as [|c d IH]; intros Hd; [done|]. cbn in Hd. apply andb_true_iff in Hd as [[v Hc]%bool_decide_eq_true Hd].
  rewrite !string_app_cons. cbn [outside_tags].
  rewrite !bool_decide_eq_false_2 by (intros ->; vm_compute in Hc; discriminate). by rewrite IH.
Qed.

Lemma TrimLeft_no_space s : no_space s = true -> TrimLeft s = s.
Proof. destruct s as [|c s]; [done|]. cbn. intros [Hc%negb_true_iff _]%andb_true_iff. by rewrite Hc. Qed.

Lemma TrimRight_no_space s : no_space s = true -> TrimRight s = s.
Proof.
  induction s as [|c s IH]; [done|]. cbn. intros [Hc%negb_true_iff Hs]%andb_true_iff.
  rewrite IH, Hc by done. by destruct s.
Qed.

Lemma row_text n : outside_tags 0 (print_count_row n) = FormatUint n +:+ "goroutine".
Proof.
  unfold print_count_row.
  change (outside_tags 0 ("<tr><td>" +:+ ?s)) with (outside_tags 0 s).
  rewrite outside_tags_digits by apply all_digits_FormatUint. f_equal.
Qed.

Lemma goroutine_row_print n : 0 <= n <= maxInt64 -> goroutine_row (print_count_row n) = Some n.
Proof.
  intros Hn. unfold goroutine_row.
  assert (Contains (print_count_row n) ">goroutine<" = true) as ->.
  { apply bool_decide_eq_true. unfold print_count_row.
    change ("</td><td><a href='goroutine?debug=1'>goroutine</a></td></tr>")
      with ("</td><td><a href='goroutine?debug=1'" +:+ (">goroutine<" +:+ "/a></td></tr>")).
    rewrite !string_app_assoc, <-(string_app_assoc _ ">goroutine<"). apply after_first_app. }
  unfold stripTags, TrimSpace. rewrite row_text.
  assert (no_space (FormatUint n +:+ "goroutine") = true) as Hs.
  { rewrite no_space_app, (all_digits_no_space _ (all_digits_FormatUint n)). done. }
  rewrite TrimLeft_no_space, TrimRight_no_space by done.
  rewrite split_digits_app by (try apply all_digits_FormatUint; done).
  rewrite bool_decide_eq_false_2 by apply FormatUint_nonempty. cbn [negb orb].
  apply count_digits_exact; [done|lia|]. apply parse_digits_FormatUint. lia.
Qed.

Lemma read_page text : Z.of_nat (String.length text) <= maxIndexBytes ->
  read (Answered 200 (Some text)) =
    if negb (Contains text indexTitle) then Unusable
    else match goroutineCount text with Some n => Read n | None => Unusable end.
Proof.
  intros Hl. unfold read. rewrite LimitReader_short by done. reflexivity.
Qed.

Lemma no_rows ls : Forall (fun l => Contains l ">goroutine<" = false) ls -> omap goroutine_row ls = [].
Proof.
  induction 1 as [|l ls Hl _ IH]; [done|].
  assert (goroutine_row l = None) as Hg by (unfold goroutine_row; by rewrite Hl). cbn. by rewrite Hg.
Qed.

(** The count read is the count rendered.  Whatever else the index page
    lists before and after, on lines that do not name the goroutine profile as a
    link text, a page within the bound whose goroutine row carries a count that
    fits an [int64] reads as that count. *)
Theorem rendered_count_is_read (n : Z) (before after : list string) :
  0 <= n <= maxInt64 ->
  Forall (fun l => has_byte newline_byte l = false) (before ++ after) ->
  Forall (fun l => Contains l ">goroutine<" = false) before ->
  let page := print_lines (before ++ print_count_row n :: after) in
  Contains page indexTitle = true -> Z.of_nat (String.length page) <= maxIndexBytes ->
  read (Answered 200 (Some page)) = Read n.
Proof.
  intros Hn Hlines Hbefore page Htitle Hlen. rewrite read_page, Htitle by done. cbn [negb].
  assert (goroutineCount page = Some n) as ->; [|done]. unfold goroutineCount, page.
  apply Forall_app in Hlines as [H1 H2].
  rewrite SplitByte_lines.
  - rewrite <-app_assoc, omap_app. cbn [app omap list_omap].
    by rewrite no_rows, goroutine_row_print.
  - apply Forall_app. split; [done|]. constructor; [|done]. unfold print_count_row.
    rewrite !has_byte_app, (no_space_byte (FormatUint n)); [done| |done].
    apply all_digits_no_space, all_digits_FormatUint.
Qed.

(** A count past an [int64] is not always refused: the comparison with the
    previous value misses a product that wrapped round to a larger one. *)
Example parseCount_accepts_an_overflow : parseCount "21000000000000000000" = Some 2553255926290448384.
Proof. vm_compute. reflexivity. Qed.

(** ** A round *)

Definition of_kind (o : outcome) (log : list (Candidate * outcome)) : Z :=
  Z.of_nat (length (List.filter (fun co => match o, co.2 with
    | Sampled _, Sampled _ | Unreachable, Unreachable | Unreadable, Unreadable => true
    | _, _ => false end) log)).

(** What a visit must have come to. *)
Definition accounted_for (env : Candidate -> surroundings) (co : Candidate * outcome) : Prop :=
  let e := env co.1 in
  match co.2 with
  | Sampled g => exists addr pod n, su_replica e = Some (addr, pod) /\ read (su_response e) = Read n /\
      g = mkGoroutineCount (cd_Namespace co.1) pod (cd_Container co.1)
            (mkWorkloadRef (cd_WorkloadKind co.1) (cd_WorkloadName co.1)) (tg_ImageDigest (cd_Target co.1)) (su_observed e) n
  | Unreachable => su_replica e = None \/ read (su_response e) = Unread_
  | Unreadable => is_Some (su_replica e) /\ read (su_response e) = Unusable
  end.

Definition advance (cv : CountCoverage) (log : list (Candidate * outcome)) : CountCoverage :=
  mkCountCoverage (cvSampled cv +w Z.of_nat (length (samples log))) (cvUnreachable cv +w of_kind Unreachable log)
    (cvUnreadable cv +w of_kind Unreadable log).

Definition in_range (cv : CountCoverage) : Prop :=
  int64_ok (cvSampled cv) /\ int64_ok (cvUnreachable cv) /\ int64_ok (cvUnreadable cv).

Lemma visit_accounts env cand c c' o : visit (env cand) cand c = (c', o) ->
  accounted_for env (cand, o) /\
  cover c' = match o with
    | Sampled _ => mkCountCoverage (cvSampled (cover c) +w 1) (cvUnreachable (cover c)) (cvUnreadable (cover c))
    | Unreachable => mkCountCoverage (cvSampled (cover c)) (cvUnreachable (cover c) +w 1) (cvUnreadable (cover c))
    | Unreadable => mkCountCoverage (cvSampled (cover c)) (cvUnreachable (cover c)) (cvUnreadable (cover c) +w 1)
    end.
Proof.
  unfold visit, accounted_for. cbn [fst snd]. destruct (su_replica (env cand)) as [[addr pod]|] eqn:Hr.
  - destruct (read (su_response (env cand))) as [n| |] eqn:Hd; intros [= <- <-]; (split; [|done]).
    + by exists addr, pod, n.
    + by right.
    + by split.
  - intros [= <- <-]. split; [by left|done].
Qed.

Lemma read_loop_accounts env n cands c :
  in_range (cover c) ->
  let out := read_loop env n cands c in
  sublist out.2.*1 cands /\ Forall (accounted_for env) out.2 /\ cover out.1 = advance (cover c) out.2 /\
  (0 <= n <= maxReadingsPerRound -> n + Z.of_nat (length out.2) <= maxReadingsPerRound).
Proof.
  assert (forall cv, in_range cv -> cv = advance cv []) as Hnil.
  { intros [a b d] (H1 & H2 & H3). unfold advance, of_kind, samples. cbn in *. by rewrite !Z.add_0_r, !wrap64_id. }
  revert n c. induction cands as [|cand cands IH]; intros n c Hc; cbn [read_loop].
  { cbn. split_and!; [constructor|constructor|by apply Hnil|lia]. }
  destruct (Z.leb_spec maxReadingsPerRound n) as [Hn|Hn]; cbn [orb].
  { cbn. split_and!; [apply sublist_nil_l|constructor|by apply Hnil|lia]. }
  destruct (su_done (env cand)).
  { cbn. split_and!; [apply sublist_nil_l|constructor|by apply Hnil|lia]. }
  destruct (heldOff c _ _).
  { destruct (IH n c Hc) as (H1 & H2 & H3 & H4). cbn zeta in *. split_and!; [by apply sublist_cons|done..]. }
  destruct (visit (env cand) cand c) as [c1 o] eqn:Hv. destruct (visit_accounts env cand c c1 o Hv) as [Ha Hcv].
  assert (in_range (cover c1)) as Hc1.
  { rewrite Hcv. destruct Hc as (H1 & H2 & H3). destruct o; split_and!; cbn; auto with agent. }
  destruct (IH (n + 1) c1 Hc1) as (H1 & H2 & H3 & H4). destruct (read_loop env (n + 1) cands c1) as [c2 log].
  cbn [fst snd] in *. split_and!.
  - by apply sublist_skip.
  - by constructor.
  - rewrite H3, Hcv. unfold advance, of_kind, samples. cbn [List.filter omap list_omap snd].
    destruct o; cbn [cvSampled cvUnreachable cvUnreadable length]; rewrite ?wrap64_add_l; do 2 f_equal; lia.
  - intros Hb. cbn [length]. lia.
Qed.

(** One candidate per process, the one with its lowest port. *)
Lemma lowest_port_run cands :
  let m := foldl lowest_port ∅ cands in
  (forall k c, m !! k = Some c -> process_key c = k /\ c ∈ cands /\
     forall d, d ∈ cands -> process_key d = k -> tg_Port (cd_Target c) <= tg_Port (cd_Target d)) /\
  (forall d, d ∈ cands -> is_Some (m !! process_key d)).
Proof.
  induction cands as [|x cands [IH1 IH2]] using rev_ind; cbn zeta in *.
  { cbn. split; [intros k c; by rewrite lookup_empty|]. by intros d ?%elem_of_nil. }
  rewrite foldl_snoc. set (m := foldl lowest_port ∅ cands) in *.
  assert (forall k c, m !! k = Some c -> process_key c = k /\ c ∈ cands ++ [x] /\
            forall d, d ∈ cands -> process_key d = k -> tg_Port (cd_Target c) <= tg_Port (cd_Target d)) as Hm.
  { intros k c Hk. destruct (IH1 k c Hk) as (? & ? & ?). split_and!; [done| |done]. apply elem_of_app. by left. }
  assert (<[process_key x := x]> m !! process_key x = Some x) as Hx by apply lookup_insert_eq.
  unfold lowest_port. destruct (m !! process_key x) as [h|] eqn:Hh.
  - destruct (Z.leb_spec (tg_Port (cd_Target h)) (tg_Port (cd_Target x))) as [Hp|Hp]; split.
    + intros k c Hk. destruct (Hm k c Hk) as (Hkey & Hin & Hlow). split_and!; [done|done|].
      intros d [Hd| ->%list_elem_of_singleton]%elem_of_app He; [by apply Hlow|].
      rewrite <-He in Hk. rewrite Hh in Hk. by injection Hk as ->.
    + intros d [Hd| ->%list_elem_of_singleton]%elem_of_app; [by apply IH2|by rewrite Hh].
    + intros k c [[<- <-]|[Hne Hk]]%lookup_insert_Some.
      * split_and!; [done|apply elem_of_app; right; by apply list_elem_of_singleton|].
        intros d [Hd| ->%list_elem_of_singleton]%elem_of_app He; [|done].
        destruct (IH1 _ _ Hh) as (_ & _ & Hlow). specialize (Hlow d Hd He). lia.
      * destruct (Hm k c Hk) as (Hkey & Hin & Hlow). split_and!; [done|done|].
        intros d [Hd| ->%list_elem_of_singleton]%elem_of_app He; [by apply Hlow|congruence].
    + intros d [Hd| ->%list_elem_of_singleton]%elem_of_app; [|by rewrite lookup_insert_eq].
      apply lookup_insert_is_Some'. right. by apply IH2.
  - split.
    + intros k c [[<- <-]|[Hne Hk]]%lookup_insert_Some.
      * split_and!; [done|apply elem_of_app; right; by apply list_elem_of_singleton|].
        intros d [Hd| ->%list_elem_of_singleton]%elem_of_app He; [|done].
        exfalso. destruct (IH2 d Hd) as [y Hy]. rewrite He in Hy. congruence.
      * destruct (Hm k c Hk) as (Hkey & Hin & Hlow). split_and!; [done|done|].
        intros d [Hd| ->%list_elem_of_singleton]%elem_of_app He; [by apply Hlow|congruence].
    + intros d [Hd| ->%list_elem_of_singleton]%elem_of_app; [|by rewrite lookup_insert_eq].
      apply lookup_insert_is_Some'. right. by apply IH2.
Qed.

Lemma elem_of_processes cands c :
  c ∈ processes cands -> c ∈ cands /\
    forall d, d ∈ cands -> process_key d = process_key c -> tg_Port (cd_Target c) <= tg_Port (cd_Target d).
Proof.
  unfold processes. rewrite elem_of_sort_slice, elem_of_map_values. intros [k Hk].
  destruct (lowest_port_run cands) as [H _]. destruct (H k c Hk) as (<- & Hin & Hlow). by split.
Qed.

Lemma processes_distinct cands : NoDup (process_key <$> processes cands).
Proof.
  unfold processes, sort_slice. rewrite merge_sort_Permutation. apply (NoDup_keys_of_values _ id); [|apply _].
  intros k c Hk. destruct (lowest_port_run cands) as [H _]. by destruct (H k c Hk).
Qed.

(** A round of the counter reads each process at most once, at its lowest
    confirmed port, and two hundred at most.  Every visit moves exactly one
    counter, as [int64]; a sample says the count that was on the page of the
    replica it names, when it was asked for. *)
Theorem count_rounds_account (env : Candidate -> surroundings) (candidates : list Candidate) (c : Counter) :
  in_range (cover c) ->
  let '(c', log) := count_round env candidates c in
  NoDup (process_key <$> log.*1) /\
  Forall (fun co => co.1 ∈ candidates /\ forall d, d ∈ candidates -> process_key d = process_key co.1 ->
            tg_Port (cd_Target co.1) <= tg_Port (cd_Target d)) log /\
  Z.of_nat (length log) <= maxReadingsPerRound /\ Forall (accounted_for env) log /\
  cover c' = mkCountCoverage (cvSampled (cover c) +w Z.of_nat (length (samples log)))
               (cvUnreachable (cover c) +w of_kind Unreachable log) (cvUnreadable (cover c) +w of_kind Unreadable log) /\
  length log = (length (samples log) + Z.to_nat (of_kind Unreachable log) + Z.to_nat (of_kind Unreadable log))%nat.
Proof.
  intros Hc. unfold count_round.
  destruct (read_loop_accounts env 0 (processes candidates) c Hc) as (Hs & Ha & Hcv & Hl).
  destruct (read_loop env 0 (processes candidates) c) as [c' log]. cbn [fst snd] in *.
  assert (length log = (length (samples log) + Z.to_nat (of_kind Unreachable log) + Z.to_nat (of_kind Unreadable log))%nat)
    as Hsum.
  { clear. unfold of_kind, samples. induction log as [|[x o] log IH]; [done|]. destruct o; cbn in *; lia. }
  split_and!.
  - eapply sublist_NoDup; [apply processes_distinct|]. by apply fmap_sublist.
  - apply Forall_forall. intros co Hco. apply elem_of_processes. eapply elem_of_sublist; [|exact Hs]. by apply list_elem_of_fmap_2.
  - specialize (Hl ltac:(done)). lia.
  - done.
  - by rewrite Hcv.
  - done.
Qed.

(** The order is the same in every round, so when more processes than a round
    reads are all healthy, the first two hundred are read in every round and no
    other ever is. *)
Lemma the_tail_is_never_read (env : Candidate -> surroundings) (cands : list Candidate) (c : Counter) :
  held c = ∅ ->
  (forall cand, su_done (env cand) = false /\ is_Some (su_replica (env cand)) /\ exists n, read (su_response (env cand)) = Read n) ->
  let '(c', log) := count_round env cands c in
  held c' = ∅ /\ log.*1 = take (Z.to_nat maxReadingsPerRound) (processes cands).
Proof.
  intros Hh He. unfold count_round.
  assert (forall l n c, 0 <= n <= maxReadingsPerRound -> held c = ∅ ->
    held (read_loop env n l c).1 = ∅ /\ (read_loop env n l c).2.*1 = take (Z.to_nat (maxReadingsPerRound - n)) l) as H.
  { clear c Hh. intros l. induction l as [|x l IH]; intros n c Hn Hh; cbn [read_loop]; [by rewrite take_nil|].
    destruct (He x) as (Hd & [[addr pod] Hr] & v & Hv). rewrite Hd, orb_false_r.
    destruct (Z.leb_spec maxReadingsPerRound n).
    { replace (maxReadingsPerRound - n) with 0 by lia. by cbn. }
    unfold heldOff. rewrite Hh, lookup_empty. unfold visit. rewrite Hr, Hv.
    set (c1 := count _ _). assert (held c1 = ∅) as Hc1 by (cbn; by rewrite Hh, delete_empty).
    destruct (IH (n + 1) c1 ltac:(lia) Hc1) as [H1 H2]. destruct (read_loop env (n + 1) l c1) as [c2 log]. cbn [fst snd fmap list_fmap] in *.
    split; [done|]. rewrite H2. by replace (Z.to_nat (maxReadingsPerRound - n)) with (S (Z.to_nat (maxReadingsPerRound - (n + 1)))) by lia. }
  specialize (H (processes cands) 0 c ltac:(done) Hh). by destruct (read_loop env 0 (processes cands) c).
Qed.

(** ** A page *)

Definition demo_index : list string :=
  [indexTitle; "<tr><td>41</td><td><a href='allocs?debug=1'>allocs</a></td></tr>"]%string.

Lemma rendered_count_is_read_witness :
  read (Answered 200 (Some (print_lines (demo_index ++ print_count_row 1234567 :: ["</table>"%string])))) = Read 1234567.
Proof.
  apply (rendered_count_is_read 1234567 demo_index ["</table>"%string]).
  - go_lia.
  - repeat constructor.
  - repeat constructor.
  - vm_compute. reflexivity.
  - vm_compute. discriminate.
Defined.

Definition demo_env (c : Candidate) : surroundings :=
  mkSurroundings false 0 (Some ("10.0.0.9:6060", "api-0")) 50
    (Answered 200 (Some (print_lines [indexTitle; print_count_row 7]))) 60.

Lemma count_rounds_account_witness :
  length (count_round demo_env [demo_candidate; demo_candidate] NewCounter).2 = 1%nat /\
  cover (count_round demo_env [demo_candidate; demo_candidate] NewCounter).1 = mkCountCoverage 1 0 0.
Proof.
  assert (in_range (cover NewCounter)) as Hr by (repeat split; vm_compute; discriminate).
  pose proof (count_rounds_account demo_env [demo_candidate; demo_candidate] NewCounter Hr) as H.
  destruct (count_round demo_env [demo_candidate; demo_candidate] NewCounter) as [c' log] eqn:E.
  assert (log = (count_round demo_env [demo_candidate; demo_candidate] NewCounter).2) as Hlog by by rewrite E.
  destruct H as (_ & _ & _ & _ & Hc & _). cbn [fst snd]. rewrite Hc, Hlog. split; vm_compute; reflexivity.
Defined.
