(* ===== verification/SymbolFilter.v ===== *)
(** The profiler's security boundary, [internal/nodeprofile]: the allow-list of
    filter.go and moduleindex.go, its use on captured samples, on a pulled
    profile (pulledprofile.go) and the check before shipping (validate.go).  The
    serializer (pprof.go) is in [Capture].

    The pprof library is a parameter: it parses bytes into a profile, checks one
    and encodes one.  A profile's tables are lists and its pointers positions in
    them; the placeholder the filter allocates is a pointer of its own. *)

From stdpp Require Import prelude gmap strings list sorting.
From Stdlib Require Import ZArith Lia Ascii.
From S2P Require Import Prelude GoTime GoStrings.
Local Open Scope Z_scope.
Local Open Scope go_scope.

(** ** Frames *)

Record Frame := mkFrame { fr_Function : string; fr_File : string; fr_Line : Z; fr_Kind : string }.
#[export] Instance Frame_eq_dec : EqDecision Frame.
Proof. solve_decision. Defined.
Record Sample := mkSample {
  sm_Frames : list Frame; sm_Value : Z; sm_PID : Z; sm_Comm : string; sm_ContainerID : string;
}.

Definition RedactedFrame : string := "[filtered]".

Inductive ThirdPartyPolicy := ThirdPartyDrop | ThirdPartyKeep.
#[export] Instance ThirdPartyPolicy_eq_dec : EqDecision ThirdPartyPolicy.
Proof. solve_decision. Defined.

Record SymbolFilter := mkSymbolFilter { allowed : list string; thirdParty : ThirdPartyPolicy }.

Definition slash : Ascii.ascii := "/"%char.
Definition dot : Ascii.ascii := "."%char.

(** What precedes the first [c], the whole text without one. *)
Definition before_byte (s : string) (c : Ascii.ascii) : string :=
  match Cut s c with Some (first, _) => first | None => s end.

Definition ValidModulePrefix (prefix : string) : bool :=
  match Cut (TrimSuffix prefix "/") slash with
  | None => false
  | Some (first, rest) => if bool_decide (rest = ""%string) then false else has_byte dot first
  end.

Definition NewSymbolFilter (allowedModulePrefixes : list string) (policy : ThirdPartyPolicy) : SymbolFilter :=
  mkSymbolFilter (List.filter ValidModulePrefix allowedModulePrefixes) policy.

(** Split after the last [c]. *)
Fixpoint split_last (s : string) (c : Ascii.ascii) : option (string * string) :=
  match s with
  | EmptyString => None
  | String d s' =>
      match split_last s' c with
      | Some (head, tail) => Some (String d head, tail)
      | None => if bool_decide (d = c) then Some (String d EmptyString, s') else None
      end
  end.

Definition packagePath (fn : string) : string :=
  match split_last fn slash with
  | None => before_byte fn dot
  | Some (head, tail) => head +:+ before_byte tail dot
  end.

Definition hasDomain (pkg : string) : bool := has_byte dot (before_byte pkg slash).

Definition isAllowed (f : SymbolFilter) (pkg : string) : bool :=
  existsb (fun prefix => bool_decide (pkg = prefix) || HasPrefix pkg (prefix +:+ "/")) (allowed f).

Record FilterCounters := mkFilterCounters {
  ThirdPartyDropped : Z; UnsymbolizedDropped : Z; SamplesFiltered : Z;
}.
Definition noFilterCounters : FilterCounters := mkFilterCounters 0 0 0.
Definition thirdPartyAdd (c : FilterCounters) : FilterCounters :=
  mkFilterCounters (ThirdPartyDropped c +u 1) (UnsymbolizedDropped c) (SamplesFiltered c).
Definition unsymbolizedAdd (c : FilterCounters) : FilterCounters :=
  mkFilterCounters (ThirdPartyDropped c) (UnsymbolizedDropped c +u 1) (SamplesFiltered c).
Definition samplesAdd (c : FilterCounters) : FilterCounters :=
  mkFilterCounters (ThirdPartyDropped c) (UnsymbolizedDropped c) (SamplesFiltered c +u 1).

Definition keep (f : SymbolFilter) (fr : Frame) (c : FilterCounters) : bool * FilterCounters :=
  if bool_decide (fr_Kind fr = "kernel"%string) then (true, c)
  else if bool_decide (fr_Function fr = ""%string) then (false, unsymbolizedAdd c)
  else let pkg := packagePath (fr_Function fr) in
       if negb (hasDomain pkg) then (true, c)
       else if isAllowed f pkg then (true, c)
       else if bool_decide (thirdParty f = ThirdPartyKeep) then (true, c)
       else (false, thirdPartyAdd c).

(** ** Captured samples *)

Definition placeholder_frame : Frame := mkFrame RedactedFrame "" 0 "filtered".

Record filtering := mkFiltering { fl_out : list Frame; fl_any : bool; fl_prev : bool; fl_counters : FilterCounters }.

Definition filter_frame (f : SymbolFilter) (st : filtering) (fr : Frame) : filtering :=
  let '(kept, c) := keep f fr (fl_counters st) in
  if kept then mkFiltering (fl_out st ++ [fr]) (fl_any st) false c
  else if fl_prev st then mkFiltering (fl_out st) true true c
  else mkFiltering (fl_out st ++ [placeholder_frame]) true true c.

Definition filterFrames (f : SymbolFilter) (frames : list Frame) (c : FilterCounters) : list Frame * bool * FilterCounters :=
  let st := foldl (filter_frame f) (mkFiltering [] false false c) frames in (fl_out st, fl_any st, fl_counters st).

Definition filter_sample (f : SymbolFilter) (out : list Sample * FilterCounters) (s : Sample) : list Sample * FilterCounters :=
  let '(frames, redacted, c) := filterFrames f (sm_Frames s) out.2 in
  (out.1 ++ [mkSample frames (sm_Value s) (sm_PID s) (sm_Comm s) (sm_ContainerID s)],
   if redacted then samplesAdd c else c).

Definition Filter (f : SymbolFilter) (samples : list Sample) : list Sample * FilterCounters :=
  foldl (filter_sample f) ([], noFilterCounters) samples.

(** ** Profiles *)

Record Function_ := mkFunction { fn_ID : Z; fn_Name : string; fn_SystemName : string; fn_Filename : string; fn_StartLine : Z }.

(** A line's function: none, the placeholder, or an entry of the table. *)
Inductive function_ref := NoFunction | Placeholder | Fn (i : nat).
#[export] Instance function_ref_eq_dec : EqDecision function_ref.
Proof. solve_decision. Defined.
Record Line := mkLine { ln_Function : function_ref; ln_Line : Z; ln_Column : Z }.

Record Location := mkLocation { lc_Mapping : option nat; lc_Address : Z; lc_Lines : list Line; lc_IsFolded : bool }.
Record Mapping := mkMapping { mp_File : string; mp_BuildID : string }.
Record ValueType := mkValueType { vt_Type : string; vt_Unit : string }.

Record PSample := mkPSample {
  ps_Location : list nat; ps_Value : list Z;
  ps_Label : gmap string (list string); ps_NumLabel : gmap string (list Z); ps_NumUnit : gmap string (list string);
}.

Record Profile := mkProfile {
  pf_SampleType : list ValueType;
  pf_DefaultSampleType : string;
  pf_Sample : list PSample;
  pf_Mapping : list Mapping;
  pf_Location : list Location;
  pf_Function : list Function_;
  pf_Comments : list string;
  pf_DropFrames : string;
  pf_KeepFrames : string;
  pf_TimeNanos : Z; pf_DurationNanos : Z; pf_PeriodType : option ValueType; pf_Period : Z;
}.

Definition maxPulledFrames : nat := 256.

(** A kept line marks its function. *)
Record reducing := mkReducing { rd_lines : list Line; rd_prev : bool; rd_kept : gset nat; rd_counters : FilterCounters }.

Definition placeholder_line : Line := mkLine Placeholder 0 0.

Definition redact_line (f : SymbolFilter) (functions : list Function_) (st : reducing) (line : Line) : reducing :=
  let '(kept, c) := match ln_Function line with
                    | Fn i => match functions !! i with
                              | Some fn => keep f (mkFrame (fn_Name fn) "" 0 "") (rd_counters st)
                              | None => (false, rd_counters st)
                              end
                    | _ => (false, rd_counters st)
                    end in
  if kept then mkReducing (rd_lines st ++ [line]) false
                 (match ln_Function line with Fn i => {[i]} ∪ rd_kept st | _ => rd_kept st end) c
  else let c := if bool_decide (ln_Function line = NoFunction) then unsymbolizedAdd c else c in
       if rd_prev st then mkReducing (rd_lines st) true (rd_kept st) c
       else mkReducing (rd_lines st ++ [placeholder_line]) true (rd_kept st) c.

Definition redact_location (f : SymbolFilter) (functions : list Function_) (st : list Location * gset nat * FilterCounters)
    (loc : Location) : list Location * gset nat * FilterCounters :=
  let '(locs, kept, c) := st in
  let r := foldl (redact_line f functions) (mkReducing [] false kept c) (lc_Lines loc) in
  (locs ++ [mkLocation (lc_Mapping loc) (lc_Address loc) (rd_lines r) false], rd_kept r, rd_counters r).

Definition whole (loc : Location) : bool := match lc_Lines loc with [line] => bool_decide (ln_Function line = Placeholder) | _ => false end.

(** The locations of a sample, fully redacted ones collapsed. *)
Fixpoint collapse (redactedWhole : nat -> bool) (prev : bool) (locs : list nat) : list nat * bool :=
  match locs with
  | [] => ([], false)
  | l :: locs =>
      if negb (redactedWhole l) then let '(out, any) := collapse redactedWhole false locs in (l :: out, any)
      else let '(out, _) := collapse redactedWhole true locs in ((if prev then out else l :: out), true)
  end.

Definition redact_sample (redactedWhole : nat -> bool) (st : list PSample * FilterCounters) (s : PSample)
    : list PSample * FilterCounters :=
  let '(locs, any) := collapse redactedWhole false (take maxPulledFrames (ps_Location s)) in
  (st.1 ++ [mkPSample locs (ps_Value s) (ps_Label s) (ps_NumLabel s) (ps_NumUnit s)],
   if any then samplesAdd st.2 else st.2).

(** [filepath.Base]. *)
Fixpoint trim_slashes (s : string) : string :=
  match s with
  | EmptyString => EmptyString
  | String c s' => match trim_slashes s' with
                   | EmptyString => if bool_decide (c = slash) then EmptyString else String c EmptyString
                   | t => String c t
                   end
  end.
Definition Base (path : string) : string :=
  if bool_decide (path = ""%string) then "."
  else let p := trim_slashes path in
       let p := match split_last p slash with Some (_, tail) => tail | None => p end in
       if bool_decide (p = ""%string) then "/" else p.

(** The rebuilt table: the kept entries renumbered after the placeholder, and
    where each went. *)
Definition placeholder_function : Function_ := mkFunction 1 RedactedFrame "" "" 0.
Definition rebuild_function (kept : gset nat) (st : list Function_ * gmap nat nat) (e : nat * Function_)
    : list Function_ * gmap nat nat :=
  if bool_decide (e.1 ∈ kept)
  then (st.1 ++ [mkFunction (Z.of_nat (length st.1) + 1) (fn_Name e.2) (fn_SystemName e.2) (Base (fn_Filename e.2))
                   (fn_StartLine e.2)],
        <[e.1 := length st.1]> st.2)
  else st.
Definition rebuild_functions (kept : gset nat) (functions : list Function_) : list Function_ * gmap nat nat :=
  foldl (rebuild_function kept) ([placeholder_function], ∅) (imap pair functions).

(** A pointer keeps its object; here it takes the object's new position. *)
Definition move_ref (moved : gmap nat nat) (r : function_ref) : function_ref :=
  match r with
  | Placeholder => Fn 0
  | Fn i => match moved !! i with Some j => Fn j | None => Fn i end
  | NoFunction => NoFunction
  end.
Definition move_location (moved : gmap nat nat) (loc : Location) : Location :=
  mkLocation (lc_Mapping loc) (lc_Address loc)
    ((fun l => mkLine (move_ref moved (ln_Function l)) (ln_Line l) (ln_Column l)) <$> lc_Lines loc) (lc_IsFolded loc).

Definition redactProfile (f : SymbolFilter) (p : Profile) : Profile * FilterCounters :=
  let '(locs, kept, c) := foldl (redact_location f (pf_Function p)) ([], ∅, noFilterCounters) (pf_Location p) in
  let redactedWhole l := match locs !! l with Some loc => whole loc | None => false end in
  let '(samples, c) := foldl (redact_sample redactedWhole) ([], c) (pf_Sample p) in
  let '(functions, moved) := rebuild_functions kept (pf_Function p) in
  (mkProfile (pf_SampleType p) (pf_DefaultSampleType p) samples (pf_Mapping p) (move_location moved <$> locs) functions
     (pf_Comments p) (pf_DropFrames p) (pf_KeepFrames p) (pf_TimeNanos p) (pf_DurationNanos p) (pf_PeriodType p)
     (pf_Period p), c).

Definition stripNonSymbolIdentity (p : Profile) : Profile :=
  mkProfile (pf_SampleType p) ""
    ((fun s => mkPSample (ps_Location s) (ps_Value s) ∅ ∅ ∅) <$> pf_Sample p) []
    ((fun l => mkLocation None 0 (lc_Lines l) (lc_IsFolded l)) <$> pf_Location p) (pf_Function p) [] "" ""
    (pf_TimeNanos p) (pf_DurationNanos p) (pf_PeriodType p) (pf_Period p).

(** ** Checks before shipping *)

Definition hasCPUNanos (p : Profile) : bool :=
  existsb (fun st => bool_decide (vt_Type st = "cpu"%string) && bool_decide (vt_Unit st = "nanoseconds"%string)) (pf_SampleType p).

Definition isServiceFunc (nm : string) : bool :=
  if bool_decide (nm = ""%string) || bool_decide (nm = RedactedFrame) then false
  else negb (bool_decide (nm = "runtime"%string) || HasPrefix nm "runtime.").

Definition service_line (p : Profile) (line : Line) : bool :=
  match ln_Function line with
  | Fn i => match pf_Function p !! i with Some fn => isServiceFunc (fn_Name fn) | None => false end
  | _ => false
  end.
Definition hasServiceFunction (p : Profile) : bool :=
  existsb (fun s => existsb (fun l => match pf_Location p !! l with
                                      | Some loc => existsb (service_line p) (lc_Lines loc)
                                      | None => false end) (ps_Location s)) (pf_Sample p).

Section library.
Context (parse : string -> option Profile) (check_valid : Profile -> bool) (encode : Profile -> option string).

(** The counters are returned with an error as well. *)
Definition FilterPulled (f : SymbolFilter) (gzpprof : string) : option string * FilterCounters :=
  match parse gzpprof with
  | None => (None, noFilterCounters)
  | Some p =>
      let '(p, c) := redactProfile f p in
      let p := stripNonSymbolIdentity p in
      if negb (check_valid p) then (None, c) else (encode p, c)
  end.

Definition Validate (gzpprof : string) : bool :=
  match parse gzpprof with
  | None => false
  | Some p => hasCPUNanos p && hasServiceFunction p
  end.
End library.

(** ** What the filter admits *)

Definition admits (f : SymbolFilter) (nm : string) : Prop :=
  nm <> ""%string /\
  (hasDomain (packagePath nm) = false \/ isAllowed f (packagePath nm) = true \/ thirdParty f = ThirdPartyKeep).

Definition kept_frame (f : SymbolFilter) (fr : Frame) : Prop := fr_Kind fr = "kernel"%string \/ admits f (fr_Function fr).
#[export] Instance admits_dec f nm : Decision (admits f nm).
Proof. unfold admits. apply _. Defined.
#[export] Instance kept_frame_dec f fr : Decision (kept_frame f fr).
Proof. unfold kept_frame. apply _. Defined.

Definition nameless (fr : Frame) : bool := bool_decide (fr_Function fr = ""%string).

Lemma keep_spec f fr c :
  keep f fr c = (bool_decide (kept_frame f fr),
                 if bool_decide (kept_frame f fr) then c else if nameless fr then unsymbolizedAdd c else thirdPartyAdd c).
Proof.
  assert (Hyes : kept_frame f fr -> keep f fr c = (true, c)).
  { intros Hk. unfold keep. destruct (decide (fr_Kind fr = "kernel"%string)) as [Hker|Hker].
    { by rewrite (bool_decide_eq_true_2 _ Hker). }
    rewrite (bool_decide_eq_false_2 _ Hker). destruct Hk as [Hk|[Hne Hk]]; [done|].
    rewrite (bool_decide_eq_false_2 _ Hne). destruct Hk as [-> | [-> | ->]]; [done| |];
      repeat (case_match; try done). }
  assert (Hno : ~ kept_frame f fr -> keep f fr c = (false, if nameless fr then unsymbolizedAdd c else thirdPartyAdd c)).
  { intros Hk. unfold kept_frame, admits in Hk. unfold keep, nameless.
    rewrite (bool_decide_eq_false_2 (fr_Kind fr = "kernel"%string)) by naive_solver.
    case_bool_decide as He; [done|].
    destruct (hasDomain (packagePath (fr_Function fr))) eqn:Hd; [|naive_solver]. cbn [negb].
    destruct (isAllowed f (packagePath (fr_Function fr))) eqn:Ha; [naive_solver|].
    rewrite bool_decide_eq_false_2 by naive_solver. done. }
  destruct (decide (kept_frame f fr)) as [Hk|Hk].
  - rewrite (bool_decide_eq_true_2 _ Hk). by apply Hyes.
  - rewrite (bool_decide_eq_false_2 _ Hk). by apply Hno.
Qed.

(** An allow-list entry never admits a whole host: it has a domain and a path. *)
Lemma isAllowed_within prefixes policy pkg :
  isAllowed (NewSymbolFilter prefixes policy) pkg = true ->
  exists prefix, prefix ∈ prefixes /\ ValidModulePrefix prefix = true /\
    (pkg = prefix \/ exists rest, pkg = prefix +:+ "/" +:+ rest).
Proof.
  unfold isAllowed, NewSymbolFilter. cbn [allowed]. rewrite existsb_exists.
  intros (prefix & [Hin Hv]%List.filter_In & Hp). exists prefix. split; [by apply list_elem_of_In|]. split; [done|].
  apply orb_true_iff in Hp as [Hp|Hp]; [left; by apply bool_decide_eq_true in Hp|]. right.
  apply HasPrefix_Some in Hp as [rest ->]. exists rest. by rewrite <-string_app_assoc.
Qed.

(** ** Runs of refused frames *)

(** Frames or lines as marks: what is kept, or [None]; a run of refused ones
    leaves one mark. *)
Fixpoint squeeze {A} (prev : bool) (marks : list (option A)) : list (option A) :=
  match marks with
  | [] => []
  | Some x :: marks => Some x :: squeeze false marks
  | None :: marks => if prev then squeeze true marks else None :: squeeze true marks
  end.

(** [out] is [l] with every admitted item replaced by its image and every
    maximal run of the others by one mark, the mark of its first. *)
Inductive one_per_run {A B} (keeps : A -> option B) (mark : A -> B) : list A -> list B -> Prop :=
| run_nil : one_per_run keeps mark [] []
| run_admitted x y l out :
    keeps x = Some y -> one_per_run keeps mark l out -> one_per_run keeps mark (x :: l) (y :: out)
| run_refused x run l out :
    Forall (fun z => keeps z = None) (x :: run) -> (forall z, head l = Some z -> is_Some (keeps z)) ->
    one_per_run keeps mark l out -> one_per_run keeps mark (x :: run ++ l) (mark x :: out).
#[export] Hint Constructors one_per_run : core.

(** The same as a function. *)
Fixpoint reduce_runs {A B} (keeps : A -> option B) (mark : A -> B) (prev : bool) (l : list A) : list B :=
  match l with
  | [] => []
  | x :: l => match keeps x with
              | Some y => y :: reduce_runs keeps mark false l
              | None => if prev then reduce_runs keeps mark true l else mark x :: reduce_runs keeps mark true l
              end
  end.

Section runs.
Context {A B : Type} (keeps : A -> option B) (mark : A -> B).

Lemma reduce_runs_skip run l :
  Forall (fun z => keeps z = None) run -> (forall z, head l = Some z -> is_Some (keeps z)) ->
  reduce_runs keeps mark true (run ++ l) = reduce_runs keeps mark false l.
Proof.
  induction 1 as [|x run Hx _ IH]; intros Hl; cbn.
  - destruct l as [|z l]; [done|]. cbn. by destruct (Hl z eq_refl) as [y ->].
  - rewrite Hx. by apply IH.
Qed.

Lemma one_per_run_unique l out : one_per_run keeps mark l out -> out = reduce_runs keeps mark false l.
Proof.
  induction 1 as [|x y l out Hx _ IH|x run l out [Hx Hrun]%Forall_cons Hl _ IH]; [done| |]; cbn; rewrite Hx.
  - by f_equal.
  - by rewrite reduce_runs_skip, <-IH.
Qed.

Lemma reduce_runs_one_per_run l :
  one_per_run keeps mark l (reduce_runs keeps mark false l) /\
  exists run l', l = run ++ l' /\ Forall (fun z => keeps z = None) run /\
    (forall z, head l' = Some z -> is_Some (keeps z)) /\ one_per_run keeps mark l' (reduce_runs keeps mark true l).
Proof.
  induction l as [|x l [IH (run & l' & -> & Hrun & Hl & IH')]]; cbn.
  - split; [done|]. by exists [], [].
  - destruct (keeps x) as [y|] eqn:Hx.
    + split; [by constructor|]. exists [], (x :: run ++ l'). split_and!; [done|done| |by constructor].
      intros z [= <-]. by rewrite Hx.
    + split; [by constructor; [constructor| |]|]. exists (x :: run), l'. by repeat constructor.
Qed.

Lemma one_per_run_ext (keeps' : A -> option B) l out :
  (forall x, keeps x = keeps' x) -> one_per_run keeps mark l out -> one_per_run keeps' mark l out.
Proof.
  intros He. induction 1 as [|x y l out Hx _ IH|x run l out Hrun Hl _ IH]; [done| |].
  - constructor; [by rewrite <-He|done].
  - constructor; [|intros z; rewrite <-He; apply Hl|done]. eapply Forall_impl; [exact Hrun|]. intros z Hz. cbn in *. by rewrite <-He.
Qed.

Lemma one_per_run_elem l out y :
  one_per_run keeps mark l out -> y ∈ out ->
  (exists x, x ∈ l /\ keeps x = Some y) \/ exists x, x ∈ l /\ keeps x = None /\ y = mark x.
Proof.
  induction 1 as [|x y' l out Hx _ IH|x run l out [Hx _]%Forall_cons _ _ IH]; [by intros ?%not_elem_of_nil| |];
    intros [->|Hin]%elem_of_cons.
  - left. exists x. by split; [left|].
  - destruct (IH Hin) as [(z & ? & ?)|(z & ? & ?)]; [left|right]; exists z; by split; [right|].
  - right. exists x. by split; [left|].
  - destruct (IH Hin) as [(z & ? & ?)|(z & ? & ?)]; [left|right]; exists z; split; try done; right; apply elem_of_app; by right.
Qed.
End runs.

Lemma one_per_run_squeeze {A B} (keeps : A -> option B) (d : B) l :
  one_per_run keeps (fun _ => d) l (default d <$> squeeze false (keeps <$> l)).
Proof.
  enough (Hs : forall prev, default d <$> squeeze prev (keeps <$> l) = reduce_runs keeps (fun _ => d) prev l)
    by (rewrite Hs; apply reduce_runs_one_per_run).
  induction l as [|x l IH]; intros prev; [done|]. cbn.
  destruct (keeps x); cbn; [by rewrite IH|]. destruct prev; cbn; by rewrite IH.
Qed.

(** ** The counters *)

Definition counters_ok (c : FilterCounters) : Prop :=
  uint64_ok (ThirdPartyDropped c) /\ uint64_ok (UnsymbolizedDropped c) /\ uint64_ok (SamplesFiltered c).

Definition bump (c : FilterCounters) (named unnamed redacted : Z) : FilterCounters :=
  mkFilterCounters (wrapU64 (ThirdPartyDropped c + named)) (wrapU64 (UnsymbolizedDropped c + unnamed))
    (wrapU64 (SamplesFiltered c + redacted)).

Lemma bump_0 c : counters_ok c -> bump c 0 0 0 = c.
Proof. destruct c. intros (?&?&?). unfold bump; cbn in *. by rewrite !Z.add_0_r, !wrapU64_id. Qed.
Lemma bump_bump c a b d a' b' d' : bump (bump c a b d) a' b' d' = bump c (a + a') (b + b') (d + d').
Proof. unfold bump; cbn. by rewrite !wrapU64_add_l, !Z.add_assoc. Qed.
Lemma bump_ok c a b d : counters_ok (bump c a b d).
Proof. unfold counters_ok, bump; cbn. auto using wrapU64_range. Qed.
Lemma counted_once c : counters_ok c ->
  unsymbolizedAdd c = bump c 0 1 0 /\ thirdPartyAdd c = bump c 1 0 0 /\ samplesAdd c = bump c 0 0 1.
Proof.
  destruct c as [t u s]. intros (Ht & Hu & Hs). unfold bump, unsymbolizedAdd, thirdPartyAdd, samplesAdd; cbn in *.
  by rewrite !Z.add_0_r, (wrapU64_id t Ht), (wrapU64_id u Hu), (wrapU64_id s Hs).
Qed.

Definition refused (f : SymbolFilter) (frames : list Frame) : list Frame := filter (fun fr => ~ kept_frame f fr) frames.
Definition named_refused f frames : Z := Z.of_nat (length (List.filter (fun fr => negb (nameless fr)) (refused f frames))).
Definition nameless_refused f frames : Z := Z.of_nat (length (List.filter nameless (refused f frames))).
Definition some_refused f frames : bool := negb (bool_decide (refused f frames = [])).

Lemma refused_app f l1 l2 : refused f (l1 ++ l2) = refused f l1 ++ refused f l2.
Proof. apply filter_app. Qed.
Lemma named_refused_app f l1 l2 : named_refused f (l1 ++ l2) = named_refused f l1 + named_refused f l2.
Proof. unfold named_refused. rewrite refused_app, List.filter_app, length_app. lia. Qed.
Lemma nameless_refused_app f l1 l2 : nameless_refused f (l1 ++ l2) = nameless_refused f l1 + nameless_refused f l2.
Proof. unfold nameless_refused. rewrite refused_app, List.filter_app, length_app. lia. Qed.

(** ** Captured samples, reduced *)

Definition mark (f : SymbolFilter) (fr : Frame) : option Frame := if decide (kept_frame f fr) then Some fr else None.

Definition b2z (b : bool) : Z := if b then 1 else 0.

Lemma refused_cons_kept f fr frames : kept_frame f fr -> refused f (fr :: frames) = refused f frames.
Proof. intros Hk. unfold refused. rewrite filter_cons_False; [done|tauto]. Qed.
Lemma refused_cons f fr frames : ~ kept_frame f fr -> refused f (fr :: frames) = fr :: refused f frames.
Proof. intros Hk. unfold refused. by rewrite filter_cons_True. Qed.

Lemma filter_frame_kept f st fr :
  kept_frame f fr -> filter_frame f st fr = mkFiltering (fl_out st ++ [fr]) (fl_any st) false (fl_counters st).
Proof. intros Hk. unfold filter_frame. by rewrite keep_spec, (bool_decide_eq_true_2 _ Hk). Qed.
Lemma filter_frame_refused f st fr :
  ~ kept_frame f fr -> counters_ok (fl_counters st) ->
  filter_frame f st fr =
  mkFiltering (if fl_prev st then fl_out st else fl_out st ++ [placeholder_frame]) true true
    (bump (fl_counters st) (b2z (negb (nameless fr))) (b2z (nameless fr)) 0).
Proof.
  intros Hk Hok. destruct (counted_once _ Hok) as (Hu & Ht & _). unfold filter_frame.
  rewrite keep_spec, (bool_decide_eq_false_2 _ Hk). destruct (nameless fr); cbn; rewrite ?Hu, ?Ht; by destruct (fl_prev st).
Qed.

Lemma filter_frames_marks f (frames : list Frame) st :
  counters_ok (fl_counters st) ->
  let st' := foldl (filter_frame f) st frames in
  fl_out st' = fl_out st ++ (default placeholder_frame <$> squeeze (fl_prev st) (mark f <$> frames)) /\
  fl_any st' = fl_any st || some_refused f frames /\
  fl_counters st' = bump (fl_counters st) (named_refused f frames) (nameless_refused f frames) 0.
Proof.
  revert st. induction frames as [|fr frames IH]; intros st Hok; cbn [foldl].
  { cbn. rewrite app_nil_r, orb_false_r, bump_0; done. }
  destruct (decide (kept_frame f fr)) as [Hk|Hk].
  - rewrite filter_frame_kept by done.
    destruct (IH (mkFiltering (fl_out st ++ [fr]) (fl_any st) false (fl_counters st)) Hok) as (Ho & Ha & Hc).
    cbn in Ho, Ha, Hc. unfold some_refused, named_refused, nameless_refused in *. rewrite refused_cons_kept by done.
    split_and!; [|exact Ha|exact Hc]. rewrite Ho, <-app_assoc. cbn. unfold mark at 2. by rewrite decide_True.
  - rewrite filter_frame_refused by done.
    match goal with |- context [foldl _ ?s frames] => destruct (IH s (bump_ok _ _ _ _)) as (Ho & Ha & Hc) end.
    cbn in Ho, Ha, Hc. unfold some_refused, named_refused, nameless_refused in *. rewrite refused_cons by done. split_and!.
    + rewrite Ho. cbn. unfold mark at 2. rewrite decide_False by done.
      destruct (fl_prev st); [done|]. by rewrite <-app_assoc.
    + rewrite Ha. by rewrite orb_true_r.
    + rewrite Hc, bump_bump. cbn. destruct (nameless fr); cbn; f_equal; lia.
Qed.

(** What the filter makes of one stack: each admitted frame in its place, and
    one placeholder for each run of refused ones. *)
Definition reduced (f : SymbolFilter) (s s' : Sample) : Prop :=
  sm_Value s' = sm_Value s /\ sm_PID s' = sm_PID s /\ sm_Comm s' = sm_Comm s /\ sm_ContainerID s' = sm_ContainerID s /\
  one_per_run (mark f) (fun _ => placeholder_frame) (sm_Frames s) (sm_Frames s').

Definition frames_of (samples : list Sample) : list Frame := samples ≫= sm_Frames.
Definition samples_refused (f : SymbolFilter) (samples : list Sample) : Z :=
  list_sum (fun s => b2z (some_refused f (sm_Frames s))) samples.

Lemma Filter_reduces f samples :
  let '(out, c) := Filter f samples in
  Forall2 (reduced f) samples out /\
  c = bump noFilterCounters (named_refused f (frames_of samples)) (nameless_refused f (frames_of samples))
        (samples_refused f samples).
Proof.
  unfold Filter, frames_of, samples_refused.
  induction samples as [|s samples IH] using rev_ind; [by split; [constructor|]|].
  rewrite foldl_app. cbn [foldl]. destruct (foldl _ _ samples) as [out c]. destruct IH as [Hout ->].
  unfold filter_sample, filterFrames. cbn [snd].
  match goal with |- context [foldl (filter_frame f) ?st (sm_Frames s)] =>
    destruct (filter_frames_marks f (sm_Frames s) st (bump_ok _ _ _ _)) as (Ho & Ha & Hc) end.
  rewrite Ho, Ha, Hc. cbn. split.
  - apply Forall2_app; [done|]. constructor; [|constructor]. unfold reduced. cbn. split_and!; try done.
    apply one_per_run_squeeze.
  - rewrite bind_app, named_refused_app, nameless_refused_app, list_sum_app. cbn [list_sum]. cbn. rewrite app_nil_r.
    destruct (some_refused f (sm_Frames s)).
    + destruct (counted_once _ (bump_ok (bump noFilterCounters (named_refused f (samples ≫= sm_Frames))
        (nameless_refused f (samples ≫= sm_Frames)) (list_sum (fun s => b2z (some_refused f (sm_Frames s))) samples))
        (named_refused f (sm_Frames s)) (nameless_refused f (sm_Frames s)) 0)) as (_ & _ & ->).
      rewrite !bump_bump. f_equal; cbn; lia.
    + rewrite !bump_bump. f_equal; cbn; lia.
Qed.

(** A frame that comes out is a placeholder or one that went in and is kept. *)
Lemma reduced_frames f s s' fr :
  reduced f s s' -> fr ∈ sm_Frames s' -> fr = placeholder_frame \/ fr ∈ sm_Frames s /\ kept_frame f fr.
Proof.
  intros (_ & _ & _ & _ & Hr) Hin. destruct (one_per_run_elem _ _ _ _ _ Hr Hin) as [(x & Hx & Hm)|(x & _ & _ & ->)]; [right|by left].
  unfold mark in Hm. by destruct (decide (kept_frame f x)); simplify_eq.
Qed.

Lemma Filter_frames f samples fr :
  fr ∈ frames_of (Filter f samples).1 -> fr = placeholder_frame \/ fr ∈ frames_of samples /\ kept_frame f fr.
Proof.
  pose proof (Filter_reduces f samples) as H. destruct (Filter f samples) as [out c]. destruct H as [H _]. cbn.
  unfold frames_of. intros (s' & Hfr & Hs')%list_elem_of_bind. apply list_elem_of_lookup in Hs' as [i Hi].
  destruct (Forall2_lookup_r _ _ _ _ _ H Hi) as (s & Hs & Hr). destruct (reduced_frames f s s' fr Hr Hfr) as [?|[? ?]]; [by left|].
  right. split; [|done]. apply list_elem_of_bind. exists s. split; [done|]. by apply list_elem_of_lookup; exists i.
Qed.

(** C24. What leaves the profiler of its captured samples.  Every sample comes
    out with its value and process, and its stack is the one that went in with
    every frame the allow-list admits in its place and every maximal run of
    refused frames replaced, where it stood, by one placeholder that names
    nothing; the counters are exactly the refused frames, named and nameless, and
    the samples that had one, as 64-bit numbers.  It holds of any allow-list,
    third-party policy and samples. *)
Theorem captured_stacks_are_reduced f samples :
  let '(out, c) := Filter f samples in
  Forall2 (reduced f) samples out /\
  c = bump noFilterCounters (named_refused f (frames_of samples)) (nameless_refused f (frames_of samples))
        (samples_refused f samples).
Proof. apply Filter_reduces. Qed.

(** ** Pulled profiles, reduced *)

(** All a line says: of its function, and where in it. *)
Record said := mkSaid {
  sd_Name : string; sd_SystemName : string; sd_Filename : string; sd_StartLine : Z; sd_Line : Z; sd_Column : Z;
}.
Definition withheld : said := mkSaid RedactedFrame "" "" 0 0 0.

(** What a line may say when the filter admits its function's name. *)
Definition admitted_line (f : SymbolFilter) (functions : list Function_) (line : Line) : option said :=
  match ln_Function line with
  | Fn i => match functions !! i with
            | Some fn => if decide (admits f (fn_Name fn))
                         then Some (mkSaid (fn_Name fn) (fn_SystemName fn) (Base (fn_Filename fn)) (fn_StartLine fn)
                                      (ln_Line line) (ln_Column line))
                         else None
            | None => None
            end
  | _ => None
  end.
Definition line_mark (f : SymbolFilter) (functions : list Function_) (line : Line) : option Line :=
  match admitted_line f functions line with Some _ => Some line | None => None end.

(** What a line costs the counters: refused under its name, or without one. *)
Definition cost (f : SymbolFilter) (functions : list Function_) (line : Line) : Z * Z :=
  match ln_Function line with
  | NoFunction => (0, 1)
  | Placeholder => (0, 0)
  | Fn i => match functions !! i with
            | Some fn => if decide (admits f (fn_Name fn)) then (0, 0)
                         else if bool_decide (fn_Name fn = ""%string) then (0, 1) else (1, 0)
            | None => (0, 0)
            end
  end.
Definition named_lines f functions (lines : list Line) : Z := list_sum (fun l => (cost f functions l).1) lines.
Definition nameless_lines f functions (lines : list Line) : Z := list_sum (fun l => (cost f functions l).2) lines.

Definition fn_of (line : Line) : gset nat := match ln_Function line with Fn i => {[i]} | _ => ∅ end.
Definition kept_by f functions (lines : list Line) : gset nat := ⋃ (fn_of <$> omap (line_mark f functions) lines).

Lemma pulled_frame_kept f nm : kept_frame f (mkFrame nm "" 0 "") <-> admits f nm.
Proof. unfold kept_frame; cbn. split; [by intros [?|?]|by right]. Qed.

Lemma admitted_line_Some f functions line x :
  admitted_line f functions line = Some x ->
  exists i fn, ln_Function line = Fn i /\ functions !! i = Some fn /\ admits f (fn_Name fn) /\
    x = mkSaid (fn_Name fn) (fn_SystemName fn) (Base (fn_Filename fn)) (fn_StartLine fn) (ln_Line line) (ln_Column line).
Proof.
  unfold admitted_line. destruct (ln_Function line) as [| |i]; try done.
  destruct (functions !! i) as [fn|] eqn:Hi; [|done]. case_decide; [|done]. intros [= <-]. by exists i, fn.
Qed.

Lemma cost_admitted f functions line x : admitted_line f functions line = Some x -> cost f functions line = (0, 0).
Proof.
  intros (i & fn & Hi & Hfn & Ha & _)%admitted_line_Some. unfold cost. by rewrite Hi, Hfn, decide_True.
Qed.

Lemma redact_line_kept f functions st line x :
  admitted_line f functions line = Some x ->
  redact_line f functions st line =
  mkReducing (rd_lines st ++ [line]) false (fn_of line ∪ rd_kept st) (rd_counters st).
Proof.
  intros (i & fn & Hi & Hfn & Ha & _)%admitted_line_Some. unfold redact_line, fn_of. rewrite Hi, Hfn.
  by rewrite keep_spec, bool_decide_eq_true_2 by (by apply pulled_frame_kept).
Qed.

Lemma redact_line_refused f functions st line :
  admitted_line f functions line = None -> counters_ok (rd_counters st) ->
  redact_line f functions st line =
    mkReducing (if rd_prev st then rd_lines st else rd_lines st ++ [placeholder_line]) true (rd_kept st)
      (bump (rd_counters st) (cost f functions line).1 (cost f functions line).2 0).
Proof.
  intros Hm Hok. destruct (counted_once _ Hok) as (Hu & Ht & _). pose proof (bump_0 _ Hok) as H0.
  unfold redact_line, admitted_line, cost in *. destruct (ln_Function line) as [| |i]; cbn.
  - rewrite Hu. by destruct (rd_prev st).
  - rewrite H0. by destruct (rd_prev st).
  - rewrite (bool_decide_eq_false_2 (Fn i = NoFunction)) by done.
    destruct (functions !! i) as [fn|]; [|cbn; rewrite H0; by destruct (rd_prev st)].
    case_decide as Ha; [done|]. rewrite keep_spec, bool_decide_eq_false_2 by (by rewrite pulled_frame_kept).
    unfold nameless; cbn [fr_Function].
    destruct (bool_decide (fn_Name fn = ""%string)); cbn; rewrite ?Hu, ?Ht; by destruct (rd_prev st).
Qed.

Lemma redact_lines_marks f functions lines st :
  counters_ok (rd_counters st) ->
  let st' := foldl (redact_line f functions) st lines in
  rd_lines st' = rd_lines st ++ (default placeholder_line <$> squeeze (rd_prev st) (line_mark f functions <$> lines)) /\
  rd_kept st' = kept_by f functions lines ∪ rd_kept st /\
  rd_counters st' = bump (rd_counters st) (named_lines f functions lines) (nameless_lines f functions lines) 0.
Proof.
  unfold kept_by, named_lines, nameless_lines. revert st.
  induction lines as [|line lines IH]; intros st Hok; cbn [foldl]; rewrite ?list_sum_cons.
  { cbn. rewrite app_nil_r. split_and!; [done|by rewrite (left_id_L ∅ (∪))|by rewrite bump_0]. }
  destruct (admitted_line f functions line) as [x|] eqn:Hm;
    assert (Hl : line_mark f functions line = if admitted_line f functions line then Some line else None) by done;
    rewrite Hm in Hl; cbn [fmap list_fmap omap list_omap]; rewrite Hl.
  - rewrite (redact_line_kept _ _ _ _ _ Hm), (cost_admitted _ _ _ _ Hm).
    match goal with |- context [foldl _ ?s lines] => destruct (IH s Hok) as (-> & -> & ->) end.
    cbn. rewrite <-app_assoc, (assoc_L (∪)), (comm_L (∪) (fn_of line)). by split.
  - rewrite (redact_line_refused f functions st line Hm Hok).
    match goal with |- context [foldl _ ?s lines] => destruct (IH s (bump_ok _ _ _ _)) as (-> & -> & ->) end. cbn.
    split_and!; [|done|by rewrite bump_bump]. destruct (rd_prev st); [done|]. by rewrite <-app_assoc.
Qed.

(** The locations after redaction, and the table entries a line of them uses. *)
Definition redacted_location f functions (loc : Location) : Location :=
  mkLocation (lc_Mapping loc) (lc_Address loc)
    (default placeholder_line <$> squeeze false (line_mark f functions <$> lc_Lines loc)) false.

Definition all_lines (locations : list Location) : list Line := locations ≫= lc_Lines.

Lemma redact_locations_marks f functions locations :
  foldl (redact_location f functions) ([], ∅, noFilterCounters) locations =
    (redacted_location f functions <$> locations,
     foldl (fun kept loc => kept_by f functions (lc_Lines loc) ∪ kept) ∅ locations,
     bump noFilterCounters (named_lines f functions (all_lines locations)) (nameless_lines f functions (all_lines locations)) 0).
Proof.
  unfold all_lines, named_lines, nameless_lines.
  induction locations as [|loc locations IH] using rev_ind; [done|].
  rewrite !foldl_app, IH, bind_app, !list_sum_app. cbn [foldl]. unfold redact_location.
  match goal with |- context [foldl (redact_line f functions) ?s (lc_Lines loc)] =>
    destruct (redact_lines_marks f functions (lc_Lines loc) s (bump_ok _ _ _ _)) as (-> & -> & ->) end.
  cbn [rd_counters rd_kept rd_lines rd_prev]. rewrite bump_bump, fmap_app. cbn. by rewrite app_nil_r.
Qed.

(** A table entry is kept only for a line the filter admits. *)
Definition sound_kept f (functions : list Function_) (kept : gset nat) : Prop :=
  forall i, i ∈ kept -> exists fn, functions !! i = Some fn /\ admits f (fn_Name fn).

Lemma elem_of_kept_by f functions lines i :
  i ∈ kept_by f functions lines <->
  exists line, line ∈ lines /\ is_Some (admitted_line f functions line) /\ ln_Function line = Fn i.
Proof.
  unfold kept_by. rewrite elem_of_union_list. setoid_rewrite list_elem_of_fmap. setoid_rewrite list_elem_of_omap.
  unfold fn_of, line_mark. split.
  - intros (X & (l & -> & (line & Hin & Hl)) & Hi). exists line. split; [done|].
    destruct (admitted_line f functions line) eqn:Hm; [|done]. injection Hl as ->. split; [done|].
    destruct (ln_Function l) as [| |j]; [by apply not_elem_of_empty in Hi..|].
    by apply elem_of_singleton in Hi as ->.
  - intros (line & Hin & [nm Hm] & Hf). exists {[i]}. split; [|set_solver].
    exists line. rewrite Hf. split; [done|]. exists line. split; [done|]. by rewrite Hm.
Qed.

Lemma sound_kept_locations f functions locations :
  sound_kept f functions (foldl (fun kept loc => kept_by f functions (lc_Lines loc) ∪ kept) ∅ locations).
Proof.
  induction locations as [|loc locations IH] using rev_ind; [intros i Hi; set_solver|].
  rewrite foldl_app. cbn. intros i [Hi|Hi]%elem_of_union; [|by apply IH].
  apply elem_of_kept_by in Hi as (line & _ & [x Hm] & Hf). apply admitted_line_Some in Hm as (j & fn & Hj & Hfn & Ha & _).
  rewrite Hj in Hf. simplify_eq. by exists fn.
Qed.

Lemma kept_by_locations f functions locations loc i :
  loc ∈ locations -> i ∈ kept_by f functions (lc_Lines loc) ->
  i ∈ foldl (fun kept loc => kept_by f functions (lc_Lines loc) ∪ kept) ∅ locations.
Proof.
  induction locations as [|l locations IH] using rev_ind; [set_solver|].
  rewrite foldl_app. cbn. intros [Hin| ->%list_elem_of_singleton]%elem_of_app; set_solver.
Qed.

(** The rebuilt table: the placeholder, then kept entries under their names,
    their files cut to the last element. *)
Definition same_but_file (fn fn' : Function_) : Prop :=
  fn_Name fn' = fn_Name fn /\ fn_SystemName fn' = fn_SystemName fn /\ fn_Filename fn' = Base (fn_Filename fn) /\
  fn_StartLine fn' = fn_StartLine fn.
Definition kept_entry (kept : gset nat) (functions : list Function_) (fn' : Function_) : Prop :=
  exists i fn, i ∈ kept /\ functions !! i = Some fn /\ same_but_file fn fn'.

Lemma imap_pair_snoc {A} (l : list A) x : imap pair (l ++ [x]) = imap pair l ++ [(length l, x)].
Proof. rewrite imap_app. cbn. by rewrite Nat.add_0_r. Qed.

Lemma kept_entry_snoc kept functions fn fn' : kept_entry kept functions fn' -> kept_entry kept (functions ++ [fn]) fn'.
Proof. intros (i & fn0 & Hi & Hl & ?). exists i, fn0. split; [done|]. split; [by apply lookup_app_l_Some|done]. Qed.

Definition numbered (table : list Function_) : Prop := forall j fn, table !! j = Some fn -> fn_ID fn = Z.of_nat j + 1.
Lemma numbered_snoc table fn : numbered table -> fn_ID fn = Z.of_nat (length table) + 1 -> numbered (table ++ [fn]).
Proof.
  intros Ht Hf j fn' [Hj|[Hle [Hj ->]%list_lookup_singleton_Some]]%lookup_app_Some; [by apply Ht|].
  rewrite Hf. lia.
Qed.

Lemma rebuild_functions_spec kept functions :
  let '(table, moved) := rebuild_functions kept functions in
  (exists rest, table = placeholder_function :: rest /\ Forall (kept_entry kept functions) rest) /\ numbered table /\
  (forall i fn, i ∈ kept -> functions !! i = Some fn ->
     exists j fn', moved !! i = Some j /\ table !! j = Some fn' /\ same_but_file fn fn').
Proof.
  unfold rebuild_functions. induction functions as [|fn functions IH] using rev_ind.
  { cbn. split_and!; [by exists []| |intros i fn _ Hi; by rewrite lookup_nil in Hi].
    by intros j fn [-> <-]%list_lookup_singleton_Some. }
  rewrite imap_pair_snoc, foldl_app. cbn [foldl].
  destruct (foldl _ _ (imap pair functions)) as [table moved]. destruct IH as ((rest & -> & Hrest) & Hnum & Hmoved).
  unfold rebuild_function. cbn [fst snd].
  assert (Hrest' : Forall (kept_entry kept (functions ++ [fn])) rest).
  { eapply Forall_impl; [exact Hrest|]. intros. by apply kept_entry_snoc. }
  case_bool_decide as Hk; (split_and!; [| |]).
  - eexists. split; [reflexivity|]. apply Forall_app. split; [done|]. constructor; [|constructor].
    exists (length functions), fn. split; [done|]. split; [by apply list_lookup_middle|by repeat split].
  - by apply numbered_snoc.
  - intros i fn0 Hi [Hl|[Hle Hl]]%lookup_app_Some.
    + destruct (Hmoved i fn0 Hi Hl) as (j & fn' & Hm & Hj & Hn). exists j, fn'. split.
      { rewrite lookup_insert_ne; [done|]. apply lookup_lt_Some in Hl. lia. }
      split; [by apply lookup_app_l_Some|done].
    + apply list_lookup_singleton_Some in Hl as [Hz ->]. replace i with (length functions) by lia.
      eexists _, _. rewrite lookup_insert_eq. split; [done|]. split; [by apply list_lookup_middle|by repeat split].
  - by exists rest.
  - done.
  - intros i fn0 Hi [Hl|[Hle Hl]]%lookup_app_Some; [by apply Hmoved|].
    apply list_lookup_singleton_Some in Hl as [Hz ->]. by replace i with (length functions) in Hi by lia.
Qed.

(** ** What a pulled profile still says *)

Definition line_says (p : Profile) (line : Line) : option said :=
  match ln_Function line with
  | Fn i => (fun fn => mkSaid (fn_Name fn) (fn_SystemName fn) (fn_Filename fn) (fn_StartLine fn) (ln_Line line) (ln_Column line))
              <$> pf_Function p !! i
  | _ => None
  end.

(** A location says what its admitted lines say, in their places, and is silent
    once for each run of the others. *)
Definition reduced_location (f : SymbolFilter) (p p' : Profile) (loc loc' : Location) : Prop :=
  lc_Mapping loc' = None /\ lc_Address loc' = 0 /\ lc_IsFolded loc' = false /\
  exists says, line_says p' <$> lc_Lines loc' = Some <$> says /\
    one_per_run (admitted_line f (pf_Function p)) (fun _ => withheld) (lc_Lines loc) says.

(** A location of which nothing is admitted. *)
Definition silent (f : SymbolFilter) (p : Profile) (l : nat) : bool :=
  match pf_Location p !! l with
  | Some loc => negb (bool_decide (lc_Lines loc = [])) &&
                bool_decide (Forall (fun line => line_mark f (pf_Function p) line = None) (lc_Lines loc))
  | None => false
  end.
Definition speaking (f : SymbolFilter) (p : Profile) (l : nat) : option nat := if silent f p l then None else Some l.

(** A sample keeps its values; of its first 256 locations, those that still say
    something stay in their places and a run of silent ones is cut to its first. *)
Definition reduced_sample (f : SymbolFilter) (p : Profile) (s s' : PSample) : Prop :=
  ps_Value s' = ps_Value s /\ ps_Label s' = ∅ /\ ps_NumLabel s' = ∅ /\ ps_NumUnit s' = ∅ /\
  one_per_run (speaking f p) id (take maxPulledFrames (ps_Location s)) (ps_Location s').

Definition reduced_entry (f : SymbolFilter) (p : Profile) (fn' : Function_) : Prop :=
  fn' = placeholder_function \/
  admits f (fn_Name fn') /\ exists fn, fn ∈ pf_Function p /\ same_but_file fn fn'.

Definition reduced_profile (f : SymbolFilter) (p p' : Profile) : Prop :=
  pf_Mapping p' = [] /\ pf_Comments p' = [] /\ pf_DefaultSampleType p' = ""%string /\
  pf_DropFrames p' = ""%string /\ pf_KeepFrames p' = ""%string /\
  pf_SampleType p' = pf_SampleType p /\ pf_TimeNanos p' = pf_TimeNanos p /\ pf_DurationNanos p' = pf_DurationNanos p /\
  pf_PeriodType p' = pf_PeriodType p /\ pf_Period p' = pf_Period p /\
  Forall (reduced_entry f p) (pf_Function p') /\ numbered (pf_Function p') /\
  Forall2 (reduced_location f p p') (pf_Location p) (pf_Location p') /\
  Forall2 (reduced_sample f p) (pf_Sample p) (pf_Sample p').

(** The lines refused, named and nameless, and the samples in which a whole
    location was. *)
Definition refusals (f : SymbolFilter) (p : Profile) : FilterCounters :=
  let lines := all_lines (pf_Location p) in
  bump noFilterCounters (named_lines f (pf_Function p) lines) (nameless_lines f (pf_Function p) lines)
    (list_sum (fun s => b2z (existsb (silent f p) (take maxPulledFrames (ps_Location s)))) (pf_Sample p)).

Lemma collapse_runs whole prev locs :
  collapse whole prev locs = (reduce_runs (fun l => if whole l then None else Some l) id prev locs, existsb whole locs).
Proof.
  revert prev. induction locs as [|l locs IH]; intros prev; cbn; [done|].
  destruct (whole l); cbn [negb]; rewrite IH; [|done]. by destruct prev.
Qed.

Lemma redact_samples_spec whole samples c0 :
  counters_ok c0 ->
  let '(out, c) := foldl (redact_sample whole) ([], c0) samples in
  Forall2 (fun s s' => ps_Value s' = ps_Value s /\
    one_per_run (fun l => if whole l then None else Some l) id (take maxPulledFrames (ps_Location s)) (ps_Location s')) samples out /\
  c = bump c0 0 0 (list_sum (fun s => b2z (existsb whole (take maxPulledFrames (ps_Location s)))) samples).
Proof.
  intros Hok. induction samples as [|s samples IH] using rev_ind; [split; [constructor|by rewrite bump_0]|].
  rewrite foldl_app, list_sum_app. cbn [foldl]. destruct (foldl _ _ samples) as [out c]. destruct IH as [Hout ->].
  unfold redact_sample. rewrite collapse_runs. split.
  - apply Forall2_app; [done|]. constructor; [|constructor]. cbn. split; [done|]. apply reduce_runs_one_per_run.
  - cbn [snd]. rewrite list_sum_cons. cbn [list_sum foldr]. destruct (existsb whole _); cbn [b2z]; [|by rewrite !Z.add_0_r].
    match goal with |- samplesAdd ?c = _ => destruct (counted_once c (bump_ok _ _ _ _)) as (_ & _ & ->) end.
    by rewrite bump_bump.
Qed.

Lemma existsb_pointwise {A} (g h : A -> bool) l : (forall x, g x = h x) -> existsb g l = existsb h l.
Proof. intros He. induction l as [|x l IH]; [done|]. cbn. by rewrite He, IH. Qed.

(** The one placeholder of a location that is silent. *)
Lemma whole_redacted f functions loc :
  whole (redacted_location f functions loc) =
  negb (bool_decide (lc_Lines loc = [])) && bool_decide (Forall (fun line => line_mark f functions line = None) (lc_Lines loc)).
Proof.
  unfold whole, redacted_location. cbn [lc_Lines].
  assert (Hkeep : forall line, is_Some (line_mark f functions line) ->
            line_mark f functions line = Some line /\ ln_Function line <> Placeholder).
  { intros line [x Hx]. unfold line_mark in *. destruct (admitted_line f functions line) eqn:Ha; [|done].
    split; [done|]. apply admitted_line_Some in Ha as (i & fn & -> & _). done. }
  assert (Hnone : forall lines, Forall (fun line => line_mark f functions line = None) lines ->
            squeeze true (line_mark f functions <$> lines) = []).
  { induction 1 as [|line lines Hl _ IH]; [done|]. cbn. by rewrite Hl. }
  assert (Hsome : forall lines, ~ Forall (fun line => line_mark f functions line = None) lines ->
            squeeze true (line_mark f functions <$> lines) <> []).
  { induction lines as [|line lines IH]; intros Hn; [by destruct Hn|]. cbn.
    destruct (line_mark f functions line) eqn:Hl; [done|]. apply IH. intros Hf. apply Hn. by constructor. }
  destruct (lc_Lines loc) as [|line lines]; [done|]. rewrite (bool_decide_eq_false_2 (line :: lines = [])) by done. cbn.
  destruct (line_mark f functions line) as [l'|] eqn:Hl; cbn.
  - destruct (Hkeep line (ltac:(by rewrite Hl))) as [Heq Hp]. rewrite Heq in Hl. injection Hl as <-.
    rewrite (bool_decide_eq_false_2 (Forall _ _)) by (intros [Hbad _]%Forall_cons; by rewrite Heq in Hbad).
    destruct (default placeholder_line <$> _); [by rewrite bool_decide_eq_false_2|done].
  - destruct (decide (Forall (fun line => line_mark f functions line = None) lines)) as [Hf|Hf].
    + rewrite (Hnone lines Hf). cbn. by rewrite !bool_decide_eq_true_2 by (done || by constructor).
    + rewrite (bool_decide_eq_false_2 (Forall _ _)) by (by intros [_ ?]%Forall_cons).
      specialize (Hsome lines Hf). by destruct (squeeze true _).
Qed.

(** A squeezed list of lines says what the squeezed list of admitted lines does. *)
Lemma squeeze_lines f functions (says : Line -> option said) (lines : list Line) prev :
  says placeholder_line = Some withheld ->
  (forall line x, line ∈ lines -> admitted_line f functions line = Some x -> says line = Some x) ->
  says <$> (default placeholder_line <$> squeeze prev (line_mark f functions <$> lines)) =
  Some <$> (default withheld <$> squeeze prev (admitted_line f functions <$> lines)).
Proof.
  intros Hp. revert prev. induction lines as [|l lines IH]; intros prev Hn; [done|].
  cbn [fmap list_fmap]. unfold line_mark at 1. destruct (admitted_line f functions l) as [x|] eqn:Hm; cbn.
  - rewrite (Hn l x) by (done || left). f_equal. apply IH. intros. apply Hn; [by right|done].
  - assert (IH' := IH true ltac:(intros; apply Hn; [by right|done])).
    destruct prev; [done|]. cbn. rewrite Hp. f_equal. done.
Qed.

Lemma reduced_pulled_counted f p :
  reduced_profile f p (stripNonSymbolIdentity (redactProfile f p).1) /\ (redactProfile f p).2 = refusals f p.
Proof.
  unfold redactProfile. rewrite redact_locations_marks.
  set (kept := foldl _ ∅ (pf_Location p)). pose proof (rebuild_functions_spec kept (pf_Function p)) as Hr.
  assert (Hwhole : forall l, match (redacted_location f (pf_Function p) <$> pf_Location p) !! l with
                             | Some loc => whole loc | None => false end = silent f p l).
  { intros l. unfold silent. rewrite list_lookup_fmap. destruct (pf_Location p !! l); [apply whole_redacted|done]. }
  match goal with |- context [foldl (redact_sample ?w) ([], ?c) _] =>
    pose proof (redact_samples_spec w (pf_Sample p) c (bump_ok _ _ _ _)) as Hs;
    destruct (foldl (redact_sample w) ([], c) (pf_Sample p)) as [samples c'] end.
  destruct Hs as [Hs ->].
  destruct (rebuild_functions kept (pf_Function p)) as [table moved]. destruct Hr as ((rest & -> & Hrest) & Hnum & Hmoved).
  unfold reduced_profile, refusals. cbn. split; [split_and!; try done|].
  - constructor; [by left|]. eapply Forall_impl; [exact Hrest|].
    intros fn' (i & fn & Hi & Hfn & Hsame). right.
    destruct (sound_kept_locations f (pf_Function p) (pf_Location p) i Hi) as (fn0 & Hfn0 & Ha). simplify_eq.
    rewrite (proj1 Hsame). split; [done|]. exists fn. by split; [apply list_elem_of_lookup; exists i|].
  - rewrite <-!list_fmap_compose. apply Forall2_fmap_r, Forall_Forall2_diag, Forall_forall. intros loc Hloc.
    unfold reduced_location. cbn. split_and!; try done.
    eexists. split; [|apply one_per_run_squeeze].
    rewrite <-list_fmap_compose. apply squeeze_lines; [done|]. intros line x Hin Hm.
    destruct (admitted_line_Some _ _ _ _ Hm) as (i & fn & Hf & Hfn & Ha & ->).
    destruct (Hmoved i fn) as (j & fn' & Hj & Hfn' & Hn1 & Hn2 & Hn3 & Hn4); [|done|].
    + apply kept_by_locations with loc; [done|]. apply elem_of_kept_by. exists line. by split; [|split; [eexists|]].
    + unfold line_says. cbn. rewrite Hf. cbn. rewrite Hj. cbn. unfold pf_Function. rewrite Hfn'. cbn.
      by rewrite Hn1, Hn2, Hn3, Hn4.
  - apply Forall2_fmap_r. eapply Forall2_impl; [exact Hs|]. intros s s' (? & Hrun). unfold reduced_sample. cbn.
    split_and!; try done. unfold speaking. eapply one_per_run_ext; [|exact Hrun]. intros l. cbn. by rewrite Hwhole.
  - rewrite bump_bump, !Z.add_0_r. cbn. f_equal. unfold list_sum. apply foldr_ext; [|done..]. intros s acc. cbn beta.
    by rewrite (existsb_pointwise _ _ _ Hwhole).
Qed.

Lemma reduced_pulled f p : reduced_profile f p (stripNonSymbolIdentity (redactProfile f p).1).
Proof. apply reduced_pulled_counted. Qed.

(** C23. What leaves the agent of a profile another runtime wrote.  Whatever the
    pprof library parses the bytes into, the profile it is asked to encode has
    no mapping, address, label, comment or default type.  Its function table is
    the placeholder and entries whose [Name] the allow-list admits, numbered in
    order, their files cut to the last path element; their [SystemName] is not
    looked at and leaves as the runtime wrote it, so nothing is promised of it.
    Each location says what its admitted lines say, in their places, every line
    resolving in that table, with one placeholder for each maximal run of the
    others; a sample keeps its values and, of its first 256 locations, each that
    still says something in its place and one of each run of silent ones; and the
    counters are the lines refused, named and nameless, and the samples with a
    silent location.  Bytes that do not parse, or that the library finds invalid,
    yield nothing. *)
Theorem pulled_profiles_are_reduced parse check_valid encode f gzpprof :
  match parse gzpprof with
  | None => FilterPulled parse check_valid encode f gzpprof = (None, noFilterCounters)
  | Some p => exists p', reduced_profile f p p' /\
      FilterPulled parse check_valid encode f gzpprof = (if check_valid p' then encode p' else None, refusals f p)
  end.
Proof.
  unfold FilterPulled. destruct (parse gzpprof) as [p|]; [|done].
  exists (stripNonSymbolIdentity (redactProfile f p).1). destruct (reduced_pulled_counted f p) as [Hr Hc].
  split; [done|]. destruct (redactProfile f p) as [p1 c]. cbn in *. subst c. by destruct (check_valid _).
Qed.

(** ** What the reduction of a pulled profile leaves *)

Definition line_name (p : Profile) (line : Line) : option string := sd_Name <$> line_says p line.
Definition inlined : Profile :=
  mkProfile [] "" [mkPSample [0; 1]%nat [1] ∅ ∅ ∅] []
    [mkLocation None 0 [mkLine (Fn 0) 1 0; mkLine (Fn 1) 2 0] false; mkLocation None 0 [mkLine (Fn 1) 3 0] false]
    [mkFunction 1 "main.run" "main.run" "/src/run.go" 1;
     mkFunction 2 "example.com/lib.Do" "example.com/lib.Do" "/src/do.go" 1] [] "" "" 0 0 None 0.

(** A frame redacted within a location is not counted in [SamplesFiltered], and
    next to a location redacted whole it leaves two placeholders in a row. *)
Example partial_redaction_is_not_counted :
  let '(p, c) := redactProfile (NewSymbolFilter [] ThirdPartyDrop)
    (mkProfile [] "" [mkPSample [0%nat] [1] ∅ ∅ ∅] [] [mkLocation None 0 [mkLine (Fn 0) 1 0; mkLine (Fn 1) 2 0] false]
       (pf_Function inlined) [] "" "" 0 0 None 0) in
  (line_name p <$> (pf_Location p ≫= lc_Lines), ThirdPartyDropped c, SamplesFiltered c) =
  ([Some "main.run"; Some RedactedFrame]%string, 1, 0).
Proof. vm_compute. reflexivity. Qed.

Example two_placeholders_in_a_row :
  let '(p, _) := redactProfile (NewSymbolFilter [] ThirdPartyDrop) inlined in
  (fun s => ps_Location s ≫= fun l => match pf_Location p !! l with Some loc => line_name p <$> lc_Lines loc | None => [] end)
    <$> pf_Sample p = [[Some "main.run"; Some RedactedFrame; Some RedactedFrame]]%string.
Proof. vm_compute. reflexivity. Qed.

(** The allow-list decides on [Name]; the [SystemName] beside it leaves as it
    came, in the table that is encoded. *)
Example system_name_is_not_filtered :
  let '(p, _) := redactProfile (NewSymbolFilter [] ThirdPartyDrop)
    (mkProfile [] "" [mkPSample [0%nat] [1] ∅ ∅ ∅] [] [mkLocation None 0 [mkLine (Fn 0) 1 0] false]
       [mkFunction 1 "main.run" "corp.example/secret.Do" "/src/run.go" 1] [] "" "" 0 0 None 0) in
  ((fun fn => (fn_Name fn, fn_SystemName fn)) <$> pf_Function (stripNonSymbolIdentity p),
   (keep (NewSymbolFilter [] ThirdPartyDrop) (mkFrame "corp.example/secret.Do" "" 0 "") noFilterCounters).1) =
  ([(RedactedFrame, ""); ("main.run", "corp.example/secret.Do")]%string, false).
Proof. vm_compute. reflexivity. Qed.

(** A prefix with a trailing slash passes [ValidModulePrefix] and matches no
    package. *)
Example trailing_slash_admits_nothing :
  (ValidModulePrefix "github.com/acme/",
   isAllowed (NewSymbolFilter ["github.com/acme/"%string] ThirdPartyDrop) "github.com/acme/app",
   isAllowed (NewSymbolFilter ["github.com/acme"%string] ThirdPartyDrop) "github.com/acme/app") = (true, false, true).
Proof. vm_compute. reflexivity. Qed.

(** The same stack as captured frames is one placeholder, and is counted. *)
Example captured_inlined :
  let '(out, c) := Filter (NewSymbolFilter [] ThirdPartyDrop)
    [mkSample [mkFrame "main.run" "" 1 "go"; mkFrame "example.com/lib.Do" "" 2 "go"; mkFrame "example.com/lib.Do" "" 3 "go"] 1 1 "" ""] in
  ((fun s => fr_Function <$> sm_Frames s) <$> out, SamplesFiltered c) = ([["main.run"; RedactedFrame]]%string, 1).
Proof. vm_compute. reflexivity. Qed.
