(* ===== verification/Pull.v ===== *)
(** The puller of CPU profiles, [internal/pprofpull/pull.go]: confirmed
    endpoints visited least recently first, at most ten a cycle and one at a
    time, each profile reduced by [SymbolFilter] before it is handed on.

    What a request came to, the clock's readings, the address of a candidate,
    whether the context has ended and whether the sink took the profile are
    inputs, one set of surroundings for each visit of a cycle.  The pprof library
    is a parameter, as in [SymbolFilter]. *)

From stdpp Require Import prelude gmap strings list sorting.
From Stdlib Require Import ZArith Lia Ascii.
From S2P Require Import Prelude GoTime GoStrings ProcCounters SymbolFilter Probe.
Local Open Scope Z_scope.
Local Open Scope go_scope.

Definition maxProfileBytes : Z := Z.shiftl 16 20.
Definition maxPullsPerCycle : nat := 10.
Definition refusedFor : Duration := 6 * Hour.
Definition unreachableFor : Duration := 30 * Minute.

Record Pulled := mkPulled {
  pu_Namespace : string; pu_WorkloadKind : string; pu_WorkloadName : string; pu_Container : string;
  pu_ImageDigest : string; pu_Start : Time; pu_End : Time; pu_Pprof : string; pu_Dropped : FilterCounters;
}.

Record PullCoverage := mkPullCoverage { Shipped : Z; Refused : Z; Unreachable : Z; Invalid : Z }.
Definition noPullCoverage : PullCoverage := mkPullCoverage 0 0 0 0.

Record targetState := mkTargetState { lastPulled : Time; holdUntil : Time }.
Record Puller := mkPuller {
  pl_allowed : list string; pl_thirdParty : ThirdPartyPolicy; pl_state : gmap Target targetState; pl_cover : PullCoverage;
}.
Definition New (allowed : list string) (policy : ThirdPartyPolicy) : Puller := mkPuller allowed policy ∅ noPullCoverage.

Definition lastLocked (state : gmap Target targetState) (t : Target) : Time :=
  match state !! t with Some st => lastPulled st | None => 0 end.

Definition held_off (state : gmap Target targetState) (now : Time) (c : Candidate) : bool :=
  match state !! cd_Target c with Some st => Before now (holdUntil st) | None => false end.

Definition due (p : Puller) (now : Time) (candidates : list Candidate) : list Candidate :=
  sort_stable (fun a b => Before (lastLocked (pl_state p) (cd_Target a)) (lastLocked (pl_state p) (cd_Target b)))
    (List.filter (fun c => negb (held_off (pl_state p) now c)) candidates).

(** The clock is read twice. *)
Definition hold (t : Target) (d : Duration) (pulled held : Time) (p : Puller) : Puller :=
  mkPuller (pl_allowed p) (pl_thirdParty p) (<[t := mkTargetState pulled (Add held d)]> (pl_state p)) (pl_cover p).

Definition count (f : PullCoverage -> PullCoverage) (p : Puller) : Puller :=
  mkPuller (pl_allowed p) (pl_thirdParty p) (pl_state p) (f (pl_cover p)).
Definition shippedAdd (c : PullCoverage) : PullCoverage := mkPullCoverage (Shipped c +w 1) (Refused c) (Unreachable c) (Invalid c).
Definition refusedAdd (c : PullCoverage) : PullCoverage := mkPullCoverage (Shipped c) (Refused c +w 1) (Unreachable c) (Invalid c).
Definition unreachableAdd (c : PullCoverage) : PullCoverage := mkPullCoverage (Shipped c) (Refused c) (Unreachable c +w 1) (Invalid c).
Definition invalidAdd (c : PullCoverage) : PullCoverage := mkPullCoverage (Shipped c) (Refused c) (Unreachable c) (Invalid c +w 1).

Inductive outcome := outcomeShipped | outcomeRefused | outcomeUnreachable | outcomeInvalid | outcomeUnspooled.
#[export] Instance outcome_eq_dec : EqDecision outcome.
Proof. solve_decision. Defined.

(** The allow-list is kept as its entries, so [p.filter] is rebuilt from them. *)
Definition filterFor (p : Puller) (c : Candidate) : SymbolFilter :=
  if bool_decide (cd_OwnModules c = []) then NewSymbolFilter (pl_allowed p) (pl_thirdParty p)
  else NewSymbolFilter (pl_allowed p ++ cd_OwnModules c) (pl_thirdParty p).

(** The body and the status, or an error. *)
Definition fetch (r : response) : option (string * Z) :=
  match r with
  | NoAnswer => None
  | Answered status body =>
      if negb (status =? StatusOK) then Some (""%string, status)
      else match body with None => None | Some text => Some (LimitReader maxProfileBytes text, status) end
  end.

Record surroundings := mkSurroundings {
  vs_ended : bool;
  vs_address : Candidate -> option string;
  vs_start : Time; vs_response : response; vs_end : Time;
  vs_pulled : Time; vs_held : Time;
  vs_spooled : bool;
}.

(** A capture that was made: of whom, where, what came of it and what was handed
    to the sink. *)
Record capture := mkCapture {
  cp_cand : Candidate; cp_addr : string; cp_outcome : outcome; cp_pulled : Time; cp_held : Time; cp_sink : option Pulled;
}.

Definition option_list {A} (o : option A) : list A := match o with Some x => [x] | None => [] end.

Section library.
Context (parse : string -> option Profile) (check_valid : Profile -> bool) (encode : Profile -> option string).

(** The filtered bytes, when they may be shipped. *)
Definition filter_and_validate (f : SymbolFilter) (raw : string) : option (string * FilterCounters) :=
  match FilterPulled parse check_valid encode f raw with
  | (Some filtered, dropped) => if Validate parse filtered then Some (filtered, dropped) else None
  | (None, _) => None
  end.

Definition visit (v : surroundings) (c : Candidate) (p : Puller) : Puller * option capture :=
  match vs_address v c with
  | None => (p, None)
  | Some addr =>
      let done o sunk := Some (mkCapture c addr o (vs_pulled v) (vs_held v) sunk) in
      match fetch (vs_response v) with
      | None =>
          (count unreachableAdd (hold (cd_Target c) unreachableFor (vs_pulled v) (vs_held v) p), done outcomeUnreachable None)
      | Some (raw, status) =>
          if negb (status =? StatusOK) then
            (count refusedAdd (hold (cd_Target c) refusedFor (vs_pulled v) (vs_held v) p), done outcomeRefused None)
          else match filter_and_validate (filterFor p c) raw with
               | None =>
                   (count invalidAdd (hold (cd_Target c) unreachableFor (vs_pulled v) (vs_held v) p), done outcomeInvalid None)
               | Some (filtered, dropped) =>
                   let p := hold (cd_Target c) 0 (vs_pulled v) (vs_held v) p in
                   let sunk := Some (mkPulled (cd_Namespace c) (cd_WorkloadKind c) (cd_WorkloadName c) (cd_Container c)
                                       (tg_ImageDigest (cd_Target c)) (vs_start v) (vs_end v) filtered dropped) in
                   if vs_spooled v then (count shippedAdd p, done outcomeShipped sunk)
                   else (p, done outcomeUnspooled sunk)
               end
      end
  end.

Fixpoint cycle_loop (i : nat) (vs : nat -> surroundings) (cs : list Candidate) (p : Puller) : Puller * list capture :=
  match cs with
  | [] => (p, [])
  | c :: cs =>
      if Nat.leb maxPullsPerCycle i || vs_ended (vs i) then (p, [])
      else let '(p, made) := visit (vs i) c p in
           let '(p, log) := cycle_loop (S i) vs cs p in (p, option_list made ++ log)
  end.
Definition cycle (now : Time) (vs : nat -> surroundings) (candidates : list Candidate) (p : Puller) : Puller * list capture :=
  cycle_loop 0 vs (due p now candidates) p.

(** [Run]: a cycle for every tick, the candidates and clock of each. *)
Record tick := mkTick { tk_now : Time; tk_candidates : list Candidate; tk_visits : nat -> surroundings }.
Fixpoint run (ticks : list tick) (p : Puller) : Puller * list capture :=
  match ticks with
  | [] => (p, [])
  | t :: ticks =>
      let '(p, log) := cycle (tk_now t) (tk_visits t) (tk_candidates t) p in
      let '(p, log') := run ticks p in (p, log ++ log')
  end.
End library.

(** ** One visit *)

Definition pause (o : outcome) : Duration :=
  match o with outcomeShipped | outcomeUnspooled => 0 | outcomeRefused => refusedFor | _ => unreachableFor end.

Definition tally (o : outcome) (c : PullCoverage) : PullCoverage :=
  match o with
  | outcomeShipped => shippedAdd c
  | outcomeRefused => refusedAdd c
  | outcomeUnreachable => unreachableAdd c
  | outcomeInvalid => invalidAdd c
  | outcomeUnspooled => c
  end.

(** The configured prefixes, and those the build says it was compiled from. *)
Definition allow_list (allowed : list string) (policy : ThirdPartyPolicy) (c : Candidate) : SymbolFilter :=
  NewSymbolFilter (allowed ++ cd_OwnModules c) policy.

Lemma filterFor_allow_list p c : filterFor p c = allow_list (pl_allowed p) (pl_thirdParty p) c.
Proof. unfold filterFor, allow_list. case_bool_decide as Hc; [|done]. by rewrite Hc, app_nil_r. Qed.

Section library.
Context (parse : string -> option Profile) (check_valid : Profile -> bool) (encode : Profile -> option string).

(** What may be handed to the sink: the encoding of a profile reduced to the
    candidate's allow-list, which the check before shipping passes. *)
Definition shippable (f : SymbolFilter) (bytes : string) : Prop :=
  Validate parse bytes = true /\
  exists raw p p', parse raw = Some p /\ reduced_profile f p p' /\ check_valid p' = true /\ encode p' = Some bytes.

Definition handed_on (f : SymbolFilter) (c : Candidate) (pu : Pulled) : Prop :=
  pu_Namespace pu = cd_Namespace c /\ pu_WorkloadKind pu = cd_WorkloadKind c /\ pu_WorkloadName pu = cd_WorkloadName c /\
  pu_Container pu = cd_Container c /\ pu_ImageDigest pu = tg_ImageDigest (cd_Target c) /\ shippable f (pu_Pprof pu).

Definition is_handed (o : outcome) : bool := match o with outcomeShipped | outcomeUnspooled => true | _ => false end.

Lemma filter_and_validate_ships f raw filtered dropped :
  filter_and_validate parse check_valid encode f raw = Some (filtered, dropped) -> shippable f filtered.
Proof.
  unfold filter_and_validate, shippable, FilterPulled. destruct (parse raw) as [p|] eqn:Hp; [|done].
  pose proof (reduced_pulled f p) as Hr. destruct (redactProfile f p) as [p1 c1]. cbn [fst] in Hr.
  set (p' := stripNonSymbolIdentity p1) in *.
  destruct (check_valid p') eqn:Hc; cbn [negb]; [|done].
  destruct (encode p') as [bytes|] eqn:He; [|done].
  destruct (Validate parse bytes) eqn:Hv; [|done]. intros [= <- <-]. split; [done|]. by exists raw, p, p'.
Qed.

Definition visited (v : surroundings) (c : Candidate) (addr : string) (p p' : Puller) (cap : capture) : Prop :=
  cp_cand cap = c /\ cp_addr cap = addr /\ cp_pulled cap = vs_pulled v /\ cp_held cap = vs_held v /\
  p' = mkPuller (pl_allowed p) (pl_thirdParty p)
         (<[cd_Target c := mkTargetState (vs_pulled v) (Add (vs_held v) (pause (cp_outcome cap)))]> (pl_state p))
         (tally (cp_outcome cap) (pl_cover p)) /\
  (if is_handed (cp_outcome cap)
   then exists pu, cp_sink cap = Some pu /\ handed_on (allow_list (pl_allowed p) (pl_thirdParty p) c) c pu
   else cp_sink cap = None).

Lemma visit_spec v c p :
  match vs_address v c with
  | None => visit parse check_valid encode v c p = (p, None)
  | Some addr => exists p' cap, visit parse check_valid encode v c p = (p', Some cap) /\ visited v c addr p p' cap
  end.
Proof.
  unfold visit. destruct (vs_address v c) as [addr|]; [|done].
  destruct (fetch (vs_response v)) as [[raw status]|]; [|by eexists _, _; split; [reflexivity|]].
  destruct (status =? StatusOK); cbn [negb]; [|by eexists _, _; split; [reflexivity|]].
  destruct (filter_and_validate _ _ _ _ raw) as [[filtered dropped]|] eqn:Hf; [|by eexists _, _; split; [reflexivity|]].
  apply filter_and_validate_ships in Hf. rewrite filterFor_allow_list in Hf.
  destruct (vs_spooled v); eexists _, _; (split; [reflexivity|]); unfold visited; cbn; split_and!; try done; by eexists.
Qed.
End library.

(** ** A puller's life *)

Definition captures_of (t : Target) (log : list capture) : list capture :=
  List.filter (fun a => bool_decide (cd_Target (cp_cand a) = t)) log.

Definition remembered (a : capture) : targetState := mkTargetState (cp_pulled a) (Add (cp_held a) (pause (cp_outcome a))).

Lemma captures_of_app t l1 l2 : captures_of t (l1 ++ l2) = captures_of t l1 ++ captures_of t l2.
Proof. apply List.filter_app. Qed.

Section life.
Context (parse : string -> option Profile) (check_valid : Profile -> bool) (encode : Profile -> option string).
Context (allowed : list string) (policy : ThirdPartyPolicy).
#[local] Abbreviation visit := (visit parse check_valid encode).
#[local] Abbreviation cycle_loop := (cycle_loop parse check_valid encode).
#[local] Abbreviation cycle := (cycle parse check_valid encode).
#[local] Abbreviation run := (run parse check_valid encode).
#[local] Abbreviation handed_on := (handed_on parse check_valid encode).

Definition sink_ok (a : capture) : Prop :=
  if is_handed (cp_outcome a)
  then exists pu, cp_sink a = Some pu /\ handed_on (allow_list allowed policy (cp_cand a)) (cp_cand a) pu
  else cp_sink a = None.

(** The state is what the captures so far say. *)
Record explains (log : list capture) (p : Puller) : Prop := {
  ex_state : forall t, pl_state p !! t = remembered <$> list.last (captures_of t log);
  ex_cover : pl_cover p = foldl (fun c a => tally (cp_outcome a) c) noPullCoverage log;
  ex_allowed : pl_allowed p = allowed /\ pl_thirdParty p = policy;
  ex_sink : Forall sink_ok log;
}.

Lemma explains_New : explains [] (New allowed policy).
Proof. by split. Qed.

Lemma explains_visit log p v c addr p' cap :
  explains log p -> visited parse check_valid encode v c addr p p' cap -> explains (log ++ [cap]) p'.
Proof.
  intros [Hs Hc [Ha Hp] Hk] (Hcand & _ & Hpulled & Hheld & -> & Hsink). split; cbn.
  - intros t. rewrite captures_of_app. cbn. rewrite Hcand. case_bool_decide as Ht.
    + subst t. rewrite last_snoc, lookup_insert_eq. cbn. unfold remembered. by rewrite Hpulled, Hheld.
    + by rewrite lookup_insert_ne, app_nil_r.
  - by rewrite foldl_app, <-Hc.
  - done.
  - apply Forall_app. split; [done|]. constructor; [|constructor]. unfold sink_ok. by rewrite Hcand, <-Ha, <-Hp.
Qed.

Lemma explains_cycle_loop log p i vs cs :
  explains log p ->
  let out := cycle_loop i vs cs p in
  explains (log ++ out.2) out.1 /\ Forall (fun a => cp_cand a ∈ cs) out.2 /\
  (i <= maxPullsPerCycle -> i + length out.2 <= maxPullsPerCycle)%nat.
Proof.
  revert log p i. induction cs as [|c cs IH]; intros log p i Hex; cbn [Pull.cycle_loop].
  { cbn. rewrite app_nil_r. split_and!; [done|constructor|lia]. }
  destruct (Nat.leb_spec maxPullsPerCycle i) as [Hi|Hi]; cbn [orb].
  { cbn. rewrite app_nil_r. split_and!; [done|constructor|lia]. }
  destruct (vs_ended (vs i)).
  { cbn. rewrite app_nil_r. split_and!; [done|constructor|lia]. }
  pose proof (visit_spec parse check_valid encode (vs i) c p) as Hv. destruct (vs_address (vs i) c) as [addr|].
  - destruct Hv as (p' & cap & -> & Hv). destruct (IH _ _ (S i) (explains_visit _ _ _ _ _ _ _ Hex Hv)) as (H1 & H2 & H3).
    destruct (cycle_loop (S i) vs cs p') as [p2 log2]. cbn in *. rewrite <-app_assoc in H1. split_and!; [done| |lia].
    constructor; [destruct Hv as [-> _]; left|]. eapply Forall_impl; [exact H2|]. by right.
  - rewrite Hv. destruct (IH _ _ (S i) Hex) as (H1 & H2 & H3).
    destruct (cycle_loop (S i) vs cs p) as [p2 log2]. cbn in *. split_and!; [done| |lia].
    eapply Forall_impl; [exact H2|]. by right.
Qed.

Lemma explains_run log p ticks :
  explains log p -> let out := run ticks p in explains (log ++ out.2) out.1.
Proof.
  revert log p. induction ticks as [|t ticks IH]; intros log p Hex; cbn [Pull.run].
  { cbn. by rewrite app_nil_r. }
  unfold Pull.cycle. destruct (explains_cycle_loop log p 0 (tk_visits t) (due p (tk_now t) (tk_candidates t)) Hex) as [Hex' _].
  destruct (cycle_loop 0 _ _ p) as [p1 log1]. cbn [fst snd] in Hex'. specialize (IH _ _ Hex').
  destruct (run ticks p1). cbn in *. by rewrite app_assoc.
Qed.

Lemma elem_of_due p now cs c : c ∈ due p now cs <-> c ∈ cs /\ held_off (pl_state p) now c = false.
Proof.
  unfold due. rewrite sort_stable_perm, list_elem_of_In, List.filter_In, negb_true_iff, list_elem_of_In. done.
Qed.

(** Pulls are few and far between.  After any sequence of cycles, the next
    one makes at most ten captures, each of a candidate the prober has confirmed
    now, and of no target whose last capture asked for a rest that is not over:
    six hours after a process refused to start a profiler, half an hour after one
    could not be reached or answered with something that could not be shipped.
    What the puller has counted are the outcomes of the captures it made. *)
Theorem pulls_are_paced (ticks : list tick) (t : tick) :
  let '(p, log) := run ticks (New allowed policy) in
  let made := (cycle (tk_now t) (tk_visits t) (tk_candidates t) p).2 in
  (length made <= maxPullsPerCycle)%nat /\
  Forall (fun b => cp_cand b ∈ tk_candidates t /\
            forall a, list.last (captures_of (cd_Target (cp_cand b)) log) = Some a ->
              Add (cp_held a) (pause (cp_outcome a)) <= tk_now t) made /\
  pl_cover p = foldl (fun c a => tally (cp_outcome a) c) noPullCoverage log.
Proof.
  pose proof (explains_run [] _ ticks explains_New) as Hex. destruct (run ticks (New allowed policy)) as [p log].
  cbn [fst snd app] in Hex. unfold Pull.cycle.
  destruct (explains_cycle_loop log p 0 (tk_visits t) (due p (tk_now t) (tk_candidates t)) Hex) as (_ & Hin & Hlen).
  split_and!; [lia| |by apply Hex]. eapply Forall_impl; [exact Hin|]. intros b [Hc Hh]%elem_of_due. split; [done|].
  intros a Ha. unfold held_off in Hh. rewrite (ex_state _ _ Hex), Ha in Hh. cbn in Hh.
  by apply Z.ltb_ge in Hh.
Qed.

(** What a pull hands on.  In any sequence of cycles a profile goes to the
    sink only from a capture that ended well, under the workload, container and
    build that were asked, and its bytes are the encoding of the fetched profile
    reduced to the operator's prefixes and those the build itself states, with a
    frame of the service left in it; every other capture hands on nothing. *)
Theorem pulled_bytes_are_reduced (ticks : list tick) : Forall sink_ok (run ticks (New allowed policy)).2.
Proof. apply (ex_sink _ _ (explains_run [] _ ticks explains_New)). Qed.
End life.

(** ** Everyone's turn comes *)

Section fairness.
Context (parse : string -> option Profile) (check_valid : Profile -> bool) (encode : Profile -> option string).
#[local] Abbreviation cycle_loop := (cycle_loop parse check_valid encode).
#[local] Abbreviation cycle := (cycle parse check_valid encode).
#[local] Abbreviation run := (run parse check_valid encode).

Lemma lastLocked_insert state t st : lastLocked (<[t := st]> state) t = lastPulled st.
Proof. unfold lastLocked. by rewrite lookup_insert_eq. Qed.

(** With an address for everyone and nobody cutting it short, a cycle visits the
    first ten. *)
Lemma cycle_loop_visits vs cs i p :
  (forall j, vs_ended (vs j) = false) -> (forall j x, x ∈ cs -> is_Some (vs_address (vs j) x)) ->
  (i <= maxPullsPerCycle)%nat ->
  let out := cycle_loop i vs cs p in
  let turn := take (maxPullsPerCycle - i) cs in
  cp_cand <$> out.2 = turn /\
  forall t, (t ∉ cd_Target <$> turn -> pl_state out.1 !! t = pl_state p !! t) /\
            (t ∈ cd_Target <$> turn -> exists j, lastLocked (pl_state out.1) t = vs_pulled (vs j)).
Proof.
  intros Hend. revert i p. induction cs as [|c cs IH]; intros i p Haddr Hi; cbn [Pull.cycle_loop].
  { cbn. rewrite take_nil. split; [done|]. intros t. split; [done|]. by intros ?%not_elem_of_nil. }
  rewrite Hend, orb_false_r. destruct (Nat.leb_spec maxPullsPerCycle i) as [Hle|Hlt].
  { replace (maxPullsPerCycle - i)%nat with 0%nat by lia. cbn. split; [done|]. intros t. split; [done|]. by intros ?%not_elem_of_nil. }
  pose proof (visit_spec parse check_valid encode (vs i) c p) as Hv.
  destruct (Haddr i c) as [addr Ha]; [left|]. rewrite Ha in Hv.
  destruct Hv as (p' & cap & -> & Hcand & _ & Hpulled & _ & -> & _).
  match goal with |- context [cycle_loop (S i) vs cs ?q] =>
    destruct (IH (S i) q) as [Hlog Hst]; [intros; apply Haddr; by right|lia|];
    destruct (cycle_loop (S i) vs cs q) as [p2 log2] end.
  replace (maxPullsPerCycle - i)%nat with (S (maxPullsPerCycle - S i)) by lia. cbn in *.
  split; [by rewrite Hcand, Hlog|]. intros t. destruct (Hst t) as [Hout Hin]. split.
  - intros [Hne Ht]%not_elem_of_cons. rewrite (Hout Ht). by rewrite lookup_insert_ne.
  - destruct (decide (t ∈ cd_Target <$> take (maxPullsPerCycle - S i) cs)) as [Ht|Ht]; [by auto|].
    intros [->|?]%elem_of_cons; [|done]. exists i. unfold lastLocked. rewrite (Hout Ht). by rewrite lookup_insert_eq.
Qed.

Definition ahead (p : Puller) (c x : Candidate) : Prop :=
  lastLocked (pl_state p) (cd_Target x) <= lastLocked (pl_state p) (cd_Target c) /\ cd_Target x <> cd_Target c.
#[local] Instance ahead_dec p c x : Decision (ahead p c x).
Proof. unfold ahead. apply _. Defined.

(** A cycle in which [c] could be pulled and everyone can be reached. *)
Definition fair (p0 : Puller) (L : list Candidate) (c : Candidate) (t : tick) : Prop :=
  tk_candidates t = L /\ held_off (pl_state p0) (tk_now t) c = false /\
  (forall j, vs_ended (tk_visits t j) = false) /\
  (forall j x, x ∈ L -> is_Some (vs_address (tk_visits t j) x)) /\
  (forall j, lastLocked (pl_state p0) (cd_Target c) < vs_pulled (tk_visits t j)).

Lemma due_sorted p now cs :
  StronglySorted (fun a b => lastLocked (pl_state p) (cd_Target a) <= lastLocked (pl_state p) (cd_Target b)) (due p now cs).
Proof. apply (sort_stable_sorted _ (fun a => lastLocked (pl_state p) (cd_Target a))). done. Qed.

Lemma StronglySorted_take_drop {A} (R : relation A) l n x y :
  StronglySorted R l -> x ∈ take n l -> y ∈ drop n l -> R x y.
Proof.
  intros Hs. revert n. induction Hs as [|a l Hs IH Ha]; intros [|n]; cbn.
  - by intros ?%not_elem_of_nil.
  - by intros ?%not_elem_of_nil.
  - by intros ?%not_elem_of_nil.
  - intros [->|Hx]%elem_of_cons Hy; [|by eapply IH]. rewrite Forall_forall in Ha. apply Ha.
    rewrite <-(take_drop n l). apply elem_of_app. by right.
Qed.

(** Either the target's turn comes, or ten of those ahead of it had theirs. *)
Lemma cycle_serves p L c t :
  c ∈ L -> fair p L c t ->
  let out := cycle (tk_now t) (tk_visits t) L p in
  (exists a, a ∈ out.2 /\ cd_Target (cp_cand a) = cd_Target c) \/
  pl_state out.1 !! cd_Target c = pl_state p !! cd_Target c /\
  (length (filter (ahead out.1 c) L) + maxPullsPerCycle <= length (filter (ahead p c) L))%nat.
Proof.
  intros Hc (_ & Hhold & Hend & Haddr & Hclock). unfold Pull.cycle. set (D := due p (tk_now t) L).
  assert (HD : forall x, x ∈ D -> x ∈ L) by (intros x Hx; by apply elem_of_due in Hx as [? _]).
  assert (HcD : c ∈ D) by (by apply elem_of_due).
  destruct (cycle_loop_visits (tk_visits t) D 0 p Hend) as [Hlog Hst]; [by intros; apply Haddr, HD|lia|].
  destruct (cycle_loop 0 (tk_visits t) D p) as [p1 log]. cbn [fst snd] in *. rewrite Nat.sub_0_r in *.
  set (T := take maxPullsPerCycle D) in *.
  destruct (decide (cd_Target c ∈ cd_Target <$> T)) as [Hin|Hout].
  { left. rewrite <-Hlog, <-list_fmap_compose in Hin. apply list_elem_of_fmap in Hin as (a & Ha & Hin). by exists a. }
  right. destruct (Hst (cd_Target c)) as [Hsame _]. specialize (Hsame Hout). split; [done|].
  assert (Hlast : lastLocked (pl_state p1) (cd_Target c) = lastLocked (pl_state p) (cd_Target c))
    by (unfold lastLocked; by rewrite Hsame).
  assert (Hrest : c ∈ drop maxPullsPerCycle D).
  { rewrite <-(take_drop maxPullsPerCycle D) in HcD. apply elem_of_app in HcD as [Hx|Hx]; [|done].
    exfalso. apply Hout. by apply list_elem_of_fmap_2. }
  assert (HT : forall x, x ∈ T -> ahead p c x /\ ~ ahead p1 c x).
  { intros x Hx. assert (Hxt : cd_Target x ∈ cd_Target <$> T) by (by apply list_elem_of_fmap_2). split.
    - split; [apply (StronglySorted_take_drop _ D maxPullsPerCycle x c (due_sorted _ _ _) Hx Hrest)|].
      intros Heq. by rewrite Heq in Hxt.
    - intros [Hle _]. destruct (Hst (cd_Target x)) as [_ Hj]. destruct (Hj Hxt) as [j Hj']. specialize (Hclock j). lia. }
  assert (Hkeep : forall x, x ∈ L -> ahead p1 c x -> ahead p c x).
  { intros x _ [Hle Hne]. split; [|done]. rewrite Hlast in Hle.
    destruct (Hst (cd_Target x)) as [Hout' Hin']. destruct (decide (cd_Target x ∈ cd_Target <$> T)) as [Hx|Hx].
    - destruct (Hin' Hx) as [j Hj]. specialize (Hclock j). lia.
    - unfold lastLocked in Hle. by rewrite (Hout' Hx) in Hle. }
  rewrite (filter_length_split (ahead p c) (ahead p1 c) L Hkeep).
  assert (HDL : T ⊆+ L).
  { transitivity D; [apply sublist_submseteq, sublist_take|]. unfold D, due.
    rewrite sort_stable_perm. apply sublist_submseteq, sublist_bool_filter. }
  apply (length_filter_submseteq (fun x => ahead p c x /\ ~ ahead p1 c x)) in HDL.
  rewrite list_filter_all in HDL by (by apply Forall_forall).
  cut (length T = maxPullsPerCycle); [lia|]. apply length_take_le.
  destruct (Nat.le_gt_cases maxPullsPerCycle (length D)) as [|Hlt]; [done|].
  rewrite drop_ge in Hrest by lia. by apply not_elem_of_nil in Hrest.
Qed.

Lemma fair_same p p1 L c t : pl_state p1 !! cd_Target c = pl_state p !! cd_Target c -> fair p L c t -> fair p1 L c t.
Proof. intros Hs (? & Hh & ? & ? & Hclock). unfold fair, held_off, lastLocked in *. by rewrite Hs. Qed.

Lemma turn_comes p L c ticks :
  c ∈ L -> Forall (fair p L c) ticks -> (length (filter (ahead p c) L) < maxPullsPerCycle * length ticks)%nat ->
  exists a, a ∈ (run ticks p).2 /\ cd_Target (cp_cand a) = cd_Target c.
Proof.
  intros Hc Hf. revert p Hf. induction ticks as [|t ticks IH]; intros p Hf Hlen; cbn in Hlen; [lia|].
  apply Forall_cons in Hf as [Ht Hf]. cbn [Pull.run].
  pose proof (cycle_serves p L c t Hc Ht) as Hserve. destruct Ht as (-> & _).
  destruct (cycle (tk_now t) (tk_visits t) L p) as [p1 log1]. cbn [fst snd] in Hserve.
  destruct (run ticks p1) as [p2 log2] eqn:Hrun. destruct Hserve as [(a & Ha & Heq)|[Hsame Hlt]].
  - exists a. cbn. split; [|done]. apply elem_of_app. by left.
  - destruct (IH p1) as (a & Ha & Heq).
    + eapply Forall_impl; [exact Hf|]. intros. by apply fair_same with p.
    + unfold maxPullsPerCycle in *. lia.
    + rewrite Hrun in Ha. exists a. cbn. split; [|done]. apply elem_of_app. by right.
Qed.

(** C27. Nobody is left for last for ever.  From any state of the puller, a
    candidate that stays confirmed and is not resting is pulled within as many
    cycles as it takes to visit every candidate ten at a time, whatever the
    visits come to, provided every candidate has an address when its turn comes,
    no cycle is cut short and the clock has passed the candidate's last pull. *)
Theorem every_turn_comes p L c ticks :
  c ∈ L -> Forall (fair p L c) ticks -> (length L <= maxPullsPerCycle * length ticks)%nat ->
  exists a, a ∈ (run ticks p).2 /\ cd_Target (cp_cand a) = cd_Target c.
Proof.
  intros Hc Hf Hlen. apply turn_comes with L; [done..|].
  assert (Hlt : (length (filter (ahead p c) L) < length L)%nat); [|lia].
  apply list_elem_of_split in Hc as (l1 & l2 & ->).
  rewrite filter_app, filter_cons_False, !length_app by (by intros [_ ?]). cbn.
  pose proof (length_filter (ahead p c) l1). pose proof (length_filter (ahead p c) l2). lia.
Qed.

(** The proviso matters: a candidate without an address keeps its place and uses
    up a turn, so ten of them leave nothing for anyone else, for ever. *)
Lemma ten_without_address_starve_the_rest allowed policy pre rest ticks :
  length pre = maxPullsPerCycle ->
  Forall (fun t => tk_candidates t = pre ++ rest /\ forall j x, x ∈ pre -> vs_address (tk_visits t j) x = None) ticks ->
  run ticks (New allowed policy) = (New allowed policy, []).
Proof.
  intros Hpre. induction 1 as [|t ticks [Hc Haddr] _ IH]; [done|]. cbn [Pull.run]. rewrite Hc. unfold Pull.cycle.
  assert (due (New allowed policy) (tk_now t) (pre ++ rest) = pre ++ rest) as ->.
  { unfold due. rewrite (sort_stable_id _ (fun _ => 0)).
    - clear. induction (pre ++ rest) as [|x l IHl]; [done|]. cbn [List.filter]. unfold held_off at 1. cbn [pl_state New].
      rewrite lookup_empty. cbn [negb]. f_equal. exact IHl.
    - intros a b. done.
    - induction (List.filter _ _); constructor; [done|]. by apply Forall_forall. }
  assert (cycle_loop 0 (tk_visits t) (pre ++ rest) (New allowed policy) = (New allowed policy, [])) as ->.
  { assert (Hl : forall i, (i + length pre = maxPullsPerCycle)%nat ->
      cycle_loop i (tk_visits t) (pre ++ rest) (New allowed policy) = (New allowed policy, [])).
    { clear Hpre Hc. induction pre as [|x pre IHp]; intros i Hi; cbn [app Pull.cycle_loop length] in *.
      - destruct rest; [done|]. cbn [Pull.cycle_loop]. by rewrite (proj2 (Nat.leb_le _ _)) by lia.
      - destruct (_ || _); [done|]. unfold visit. rewrite Haddr by left. rewrite IHp; [done| |lia].
        intros. apply Haddr. by right. }
    by apply Hl. }
  by rewrite IH.
Qed.
End fairness.

(** ** Witnesses *)

Definition demo_candidates : list Candidate :=
  (fun i => mkCandidate (mkTarget "sha256:d" (Z.of_nat i)) "shop" "Deployment" "web" "app" []) <$> seq 1 11.
Definition demo_tick (n : Z) : tick :=
  mkTick n demo_candidates (fun _ => mkSurroundings false (fun _ => Some "10.0.0.1:6060"%string) n NoAnswer n n n true).

Lemma every_turn_comes_witness :
  let c := mkCandidate (mkTarget "sha256:d" 11) "shop" "Deployment" "web" "app" [] in
  exists a, a ∈ (run (fun _ => None) (fun _ => false) (fun _ => None) [demo_tick 10; demo_tick 20] (New [] ThirdPartyDrop)).2 /\
    cd_Target (cp_cand a) = cd_Target c.
Proof.
  intros c. apply (every_turn_comes _ _ _ (New [] ThirdPartyDrop) demo_candidates c); [|repeat constructor|vm_compute; lia].
  - unfold demo_candidates, c. cbn. do 10 right. left.
  - cbn. eauto.
  - cbn. eauto.
Defined.
