(* ===== verification/Capture.v ===== *)
(** The node's captured samples, [internal/nodeprofile]: the buffer of types.go,
    the reporter that fills it (reporter.go), the index of modules per container
    (moduleindex.go) and the serializer (pprof.go).

    A trace is what the eBPF profiler hands over, already symbolized.  The pprof
    library's check and encoding are parameters, as in [SymbolFilter]. *)

From stdpp Require Import prelude gmap strings list.
From Stdlib Require Import ZArith Lia Ascii.
From S2P Require Import Prelude GoTime GoStrings NodeReport SymbolFilter.
Local Open Scope Z_scope.
Local Open Scope go_scope.

(** ** The buffer *)

Record Buffer := mkBuffer { bf_samples : list Sample; bf_frames : Z }.
Definition newBuffer : Buffer := mkBuffer [] 0.
Definition Add_ (s : Sample) (b : Buffer) : Buffer :=
  mkBuffer (bf_samples b ++ [s]) (bf_frames b +u Z.of_nat (length (sm_Frames s))).
Definition BufferCounters (b : Buffer) : Z * Z := (Z.of_nat (length (bf_samples b)), bf_frames b).
Definition Samples (b : Buffer) : list Sample := bf_samples b.
Definition Drain (b : Buffer) : Buffer * list Sample := (newBuffer, bf_samples b).

(** ** The reporter *)

Definition backslash : Ascii.ascii := ascii_of_N 92.
Definition is_separator (c : Ascii.ascii) : bool := bool_decide (c = slash) || bool_decide (c = backslash).

(** What follows the last separator, [None] without one. *)
Fixpoint after_separator (path : string) : option string :=
  match path with
  | EmptyString => None
  | String c rest =>
      match after_separator rest with
      | Some base => Some base
      | None => if is_separator c then Some rest else None
      end
  end.
Definition sourceFileBase (path : string) : string := default path (after_separator path).

Record RawFrame := mkRawFrame { rf_FunctionName : string; rf_SourceFile : string; rf_SourceLine : Z; rf_Type : string }.
Record TraceEventMeta := mkTraceEventMeta {
  tm_Value : Z; tm_PID : Z; tm_Comm : string; tm_ContainerID : string; tm_EnvVars : gmap string string;
}.

Definition report_frame (f : RawFrame) : Frame :=
  mkFrame (rf_FunctionName f) (sourceFileBase (rf_SourceFile f)) (wrap64 (rf_SourceLine f)) (rf_Type f).
Definition ReportTraceEvent (trace : list RawFrame) (meta : TraceEventMeta) (b : Buffer) : Buffer :=
  Add_ (mkSample (report_frame <$> trace) (tm_Value meta) (tm_PID meta) (tm_Comm meta) (tm_ContainerID meta)) b.

(** ** Modules per container *)

Abbreviation ModuleIndex := (option (gmap string (list string))).
Definition Publish (byContainer : gmap string (list string)) (_ : ModuleIndex) : ModuleIndex := Some byContainer.
Definition Modules (i : ModuleIndex) (containerID : string) : list string :=
  match i with None => [] | Some m => default [] (m !! containerID) end.
Definition Size (i : ModuleIndex) : Z := match i with None => 0 | Some m => Z.of_nat (size m) end.
Definition Snapshot (i : ModuleIndex) : option (gmap string (list string)) := i.

(** What a scan pass publishes, from node.go. *)
Definition by_container (m : gmap string (list string)) (b : BinaryInfo) : gmap string (list string) :=
  if bool_decide (b_ContainerID b = ""%string) then m
  else <[b_ContainerID b := default [] (m !! b_ContainerID b) ++ OwnModules (b_MainModule b) (b_Dependencies b)]> m.
Definition modules_of (binaries : list BinaryInfo) : gmap string (list string) := foldl by_container ∅ binaries.

(** ** The serializer *)

#[export] Instance Frame_countable : Countable Frame.
Proof.
  refine (inj_countable' (fun f => (fr_Function f, fr_File f, fr_Line f, fr_Kind f))
    (fun p => mkFrame p.1.1.1 p.1.1.2 p.1.2 p.2) _). by intros [].
Defined.

(** The tables being built: where a function and a frame's location went. *)
Record builder := mkBuilder {
  bd_funcs : gmap (string * string) nat; bd_locs : gmap Frame nat;
  bd_Function : list Function_; bd_Location : list Location;
}.
Definition noTables : builder := mkBuilder ∅ ∅ [] [].

Definition functionFor (fr : Frame) (bd : builder) : builder * nat :=
  match bd_funcs bd !! (fr_Function fr, fr_File fr) with
  | Some i => (bd, i)
  | None =>
      let i := length (bd_Function bd) in
      (mkBuilder (<[(fr_Function fr, fr_File fr) := i]> (bd_funcs bd)) (bd_locs bd)
         (bd_Function bd ++ [mkFunction (Z.of_nat i + 1) (fr_Function fr) "" (fr_File fr) 0]) (bd_Location bd), i)
  end.

Definition locationFor (fr : Frame) (bd : builder) : builder * nat :=
  match bd_locs bd !! fr with
  | Some i => (bd, i)
  | None =>
      let '(bd, fn) := functionFor fr bd in
      let i := length (bd_Location bd) in
      (mkBuilder (bd_funcs bd) (<[fr := i]> (bd_locs bd)) (bd_Function bd)
         (bd_Location bd ++ [mkLocation None 0 [mkLine (Fn fn) (fr_Line fr) 0] false]), i)
  end.

Definition add_frame (st : builder * list nat) (fr : Frame) : builder * list nat :=
  let '(bd, i) := locationFor fr st.1 in (bd, st.2 ++ [i]).

Definition sample_value (periodNs : Z) (s : Sample) : Z :=
  let value := wrap64 (sm_Value s * periodNs) in if value <=? 0 then periodNs else value.

Definition add_sample (periodNs : Z) (st : builder * list PSample) (s : Sample) : builder * list PSample :=
  let '(bd, locations) := foldl add_frame (st.1, []) (sm_Frames s) in
  (bd, st.2 ++ [mkPSample locations [sample_value periodNs s] ∅ ∅ ∅]).

Definition period_of (samplesPerSecond : Z) : Z :=
  Z.quot 1000000000 (if samplesPerSecond <=? 0 then 20 else samplesPerSecond).

Definition cpu_nanoseconds : ValueType := mkValueType "cpu" "nanoseconds".
Definition profile_of (samples : list Sample) (samplesPerSecond : Z) : Profile :=
  let periodNs := period_of samplesPerSecond in
  let '(bd, out) := foldl (add_sample periodNs) (noTables, []) samples in
  mkProfile [cpu_nanoseconds] "" out [] (bd_Location bd) (bd_Function bd) [] "" "" 0 0 (Some cpu_nanoseconds) periodNs.

Definition Serialize (check_valid : Profile -> bool) (encode : Profile -> option string) (samples : list Sample)
    (samplesPerSecond : Z) : option string :=
  let p := profile_of samples samplesPerSecond in if check_valid p then encode p else None.

(** ** Reading a profile back *)

(** What a line of the profile shows: function, file and line number. *)
Definition shown (fr : Frame) : string * string * Z := (fr_Function fr, fr_File fr, fr_Line fr).

Definition read_line (functions : list Function_) (l : Line) : option (string * string * Z) :=
  match ln_Function l with
  | Fn i => fn ← functions !! i; Some (fn_Name fn, fn_Filename fn, ln_Line l)
  | _ => None
  end.
Definition read_location (functions : list Function_) (locations : list Location) (l : nat) : option (list (string * string * Z)) :=
  loc ← locations !! l; mapM (read_line functions) (lc_Lines loc).
Definition read_stack (functions : list Function_) (locations : list Location) (s : PSample) : option (list (string * string * Z)) :=
  mjoin <$> mapM (read_location functions locations) (ps_Location s).

(** The tables hold what they index. *)
Record sound_tables (bd : builder) : Prop := {
  st_funcs : forall nm file i, bd_funcs bd !! (nm, file) = Some i ->
    bd_Function bd !! i = Some (mkFunction (Z.of_nat i + 1) nm "" file 0);
  st_every : forall i fn, bd_Function bd !! i = Some fn -> bd_funcs bd !! (fn_Name fn, fn_Filename fn) = Some i;
  st_locs : forall fr i, bd_locs bd !! fr = Some i -> read_location (bd_Function bd) (bd_Location bd) i = Some [shown fr];
}.

(** A table only grows. *)
Definition grown (bd bd' : builder) : Prop :=
  bd_Function bd `prefix_of` bd_Function bd' /\ bd_Location bd `prefix_of` bd_Location bd'.
#[export] Instance grown_preorder : PreOrder grown.
Proof. split; [by intros bd|]. intros a b c [] []. split; by etransitivity. Qed.

Lemma mapM_lookup_mono {A B} (f g : A -> option B) (l : list A) out :
  (forall x y, f x = Some y -> g x = Some y) -> mapM f l = Some out -> mapM g l = Some out.
Proof. intros Hfg. rewrite !mapM_Some. intros H. eapply Forall2_impl; [exact H|]. auto. Qed.

Lemma read_location_grown fns fns' locs locs' l out :
  fns `prefix_of` fns' -> locs `prefix_of` locs' ->
  read_location fns locs l = Some out -> read_location fns' locs' l = Some out.
Proof.
  intros [k ->] [k' ->]. unfold read_location. intros (loc & Hl & Hm)%bind_Some.
  rewrite (lookup_app_l_Some _ _ _ _ Hl). cbn. revert Hm. apply mapM_lookup_mono. intros line y. unfold read_line.
  destruct (ln_Function line) as [| |i]; try done. intros (fn & Hf & [= <-])%bind_Some.
  by rewrite (lookup_app_l_Some _ _ _ _ Hf).
Qed.

Lemma functionFor_sound fr bd :
  sound_tables bd -> let out := functionFor fr bd in
  sound_tables out.1 /\ grown bd out.1 /\ bd_Location out.1 = bd_Location bd /\ bd_locs out.1 = bd_locs bd /\
  exists fn, bd_Function out.1 !! out.2 = Some fn /\ fn_Name fn = fr_Function fr /\ fn_Filename fn = fr_File fr.
Proof.
  intros [Hf He Hl]. unfold functionFor. destruct (bd_funcs bd !! _) as [i|] eqn:Hi; cbn.
  { split_and!; [by split|done|done|done|]. eexists. by rewrite (Hf _ _ _ Hi). }
  split_and!; [|by split; [apply prefix_app_r|]|done|done|].
  - split; cbn.
    + intros nm file i. rewrite lookup_insert_Some. intros [[[= <- <-] <-]|[_ Hi']].
      * by rewrite list_lookup_middle.
      * by apply lookup_app_l_Some, Hf.
    + intros i fn [Hfn|[Hlen Hfn]]%lookup_app_Some.
      * rewrite lookup_insert_ne; [by apply He|]. intros Heq. apply He in Hfn. by rewrite <-Heq, Hi in Hfn.
      * apply list_lookup_singleton_Some in Hfn as [H0 <-]. cbn. rewrite lookup_insert_eq. f_equal. lia.
    + intros fr' i Hfr. apply (read_location_grown (bd_Function bd) _ (bd_Location bd)); [by apply prefix_app_r|done|by apply Hl].
  - eexists. split; [by apply list_lookup_middle|done].
Qed.

Lemma locationFor_sound fr bd :
  sound_tables bd -> let out := locationFor fr bd in
  sound_tables out.1 /\ grown bd out.1 /\ read_location (bd_Function out.1) (bd_Location out.1) out.2 = Some [shown fr].
Proof.
  intros Hs. unfold locationFor. destruct (bd_locs bd !! fr) as [i|] eqn:Hi; cbn [fst snd].
  { split_and!; [done|done|by apply Hs]. }
  destruct (functionFor_sound fr bd Hs) as (Hs' & [Hg1 Hg2] & Hloc & Hlocs & fn & Hfn & Hn & Hf).
  destruct (functionFor fr bd) as [bd1 j]. cbn [fst snd] in *.
  assert (Hread : read_location (bd_Function bd1) (bd_Location bd1 ++ [mkLocation None 0 [mkLine (Fn j) (fr_Line fr) 0] false])
    (length (bd_Location bd1)) = Some [shown fr]).
  { unfold read_location. rewrite list_lookup_middle by done. cbn. unfold read_line. cbn. rewrite Hfn. cbn.
    unfold shown. by rewrite Hn, Hf. }
  split_and!; [|split; cbn; [done|]|done].
  - destruct Hs' as [H1 H2 H3]. split; cbn; [done|done|]. intros fr' i. rewrite lookup_insert_Some.
    intros [[-> <-]|[_ Hi']]; [done|]. by apply (read_location_grown (bd_Function bd1) _ (bd_Location bd1)), H3; [|apply prefix_app_r|].
  - by apply prefix_app_r.
Qed.

(** Entries come of the frames alone. *)
Definition entry_of (frames : list Frame) (fn : Function_) : Prop :=
  exists fr, fr ∈ frames /\ fn_Name fn = fr_Function fr /\ fn_Filename fn = fr_File fr.

Lemma locationFor_entries frames fr bd :
  fr ∈ frames -> Forall (entry_of frames) (bd_Function bd) -> Forall (entry_of frames) (bd_Function (locationFor fr bd).1).
Proof.
  intros Hfr H. unfold locationFor, functionFor. destruct (bd_locs bd !! fr); [done|].
  destruct (bd_funcs bd !! _); cbn; [done|]. apply Forall_app. split; [done|]. constructor; [by exists fr|constructor].
Qed.

Lemma add_frames_sound frames bd out :
  sound_tables bd -> let st := foldl add_frame (bd, out) frames in
  sound_tables st.1 /\ grown bd st.1 /\
  (forall all, Forall (fun fr => fr ∈ all) frames -> Forall (entry_of all) (bd_Function bd) -> Forall (entry_of all) (bd_Function st.1)) /\
  exists ls, st.2 = out ++ ls /\
    mapM (read_location (bd_Function st.1) (bd_Location st.1)) ls = Some ((fun fr => [shown fr]) <$> frames).
Proof.
  revert bd out. induction frames as [|fr frames IH]; intros bd out Hs; cbn [foldl].
  { split_and!; [done|done|done|]. exists []. by rewrite app_nil_r. }
  unfold add_frame at 2 4 6 8 10 12. cbn [fst snd].
  destruct (locationFor_sound fr bd Hs) as (Hs1 & Hg1 & Hr1).
  pose proof (fun all => locationFor_entries all fr bd) as Hent.
  destruct (locationFor fr bd) as [bd1 i]. cbn [fst snd] in *.
  destruct (IH bd1 (out ++ [i]) Hs1) as (Hs2 & Hg2 & He2 & ls & Hout & Hls).
  destruct (foldl add_frame (bd1, out ++ [i]) frames) as [bd2 out2]. cbn [fst snd] in *.
  split_and!; [done|by transitivity bd1| |].
  - intros all [Hin Hall]%Forall_cons Hbd. apply He2; [done|]. by apply Hent.
  - exists (i :: ls). split; [by rewrite Hout, <-app_assoc|]. cbn.
    rewrite (read_location_grown _ _ _ _ _ _ (proj1 Hg2) (proj2 Hg2) Hr1). cbn. by rewrite Hls.
Qed.

Definition reads_back (periodNs : Z) (bd : builder) (s : Sample) (ps : PSample) : Prop :=
  read_stack (bd_Function bd) (bd_Location bd) ps = Some (shown <$> sm_Frames s) /\
  ps_Value ps = [sample_value periodNs s] /\ ps_Label ps = ∅ /\ ps_NumLabel ps = ∅ /\ ps_NumUnit ps = ∅.

Lemma join_singletons (frames : list Frame) : mjoin ((fun fr => [shown fr]) <$> frames) = shown <$> frames.
Proof. induction frames as [|fr frames IH]; [done|]. cbn. by rewrite <-IH. Qed.

Lemma reads_back_grown periodNs bd bd' s ps : grown bd bd' -> reads_back periodNs bd s ps -> reads_back periodNs bd' s ps.
Proof.
  intros [Hf Hl] [Hr Hrest]. split; [|done]. unfold read_stack in *.
  apply fmap_Some in Hr as (out & Hm & Heq). rewrite Heq.
  rewrite (mapM_lookup_mono (read_location (bd_Function bd) (bd_Location bd)) _ _ out); [done| |done].
  intros x y. by apply read_location_grown.
Qed.

Lemma add_samples_sound periodNs samples :
  let st := foldl (add_sample periodNs) (noTables, []) samples in
  sound_tables st.1 /\ Forall (entry_of (samples ≫= sm_Frames)) (bd_Function st.1) /\
  Forall2 (reads_back periodNs st.1) samples st.2.
Proof.
  induction samples as [|s samples IH] using rev_ind.
  { split_and!; [by split; intros *; rewrite ?lookup_empty|constructor|constructor]. }
  rewrite foldl_app. cbn [foldl]. destruct (foldl _ (noTables, []) samples) as [bd out]. cbn [fst snd] in IH.
  destruct IH as (Hs & He & Hr). unfold add_sample. cbn [fst snd].
  destruct (add_frames_sound (sm_Frames s) bd [] Hs) as (Hs1 & Hg & Hent & ls & Hout & Hls).
  destruct (foldl add_frame (bd, []) (sm_Frames s)) as [bd1 out1]. cbn [fst snd] in *. rewrite bind_app. cbn [mbind list_bind].
  rewrite app_nil_r. split_and!; [done| |].
  - apply Hent.
    + apply Forall_forall. intros fr Hfr. apply elem_of_app. by right.
    + eapply Forall_impl; [exact He|]. intros fn (fr & Hfr & ?). exists fr. split; [|done]. apply elem_of_app. by left.
  - apply Forall2_app.
    + eapply Forall2_impl; [exact Hr|]. intros s' ps. by apply reads_back_grown.
    + apply Forall2_cons. split; [|constructor]. unfold reads_back, read_stack. subst out1.
      cbn [ps_Location ps_Value ps_Label ps_NumLabel ps_NumUnit app]. rewrite Hls. split_and!; [|done..].
      cbn [fmap option_fmap option_map]. by rewrite join_singletons.
Qed.

Lemma sound_tables_NoDup bd : sound_tables bd -> NoDup ((fun fn => (fn_Name fn, fn_Filename fn)) <$> bd_Function bd).
Proof.
  intros [_ He _]. apply NoDup_alt. intros i j k. rewrite !list_lookup_fmap.
  intros (fi & Hi & Hki)%fmap_Some (fj & Hj & Hkj)%fmap_Some.
  apply He in Hi, Hj. rewrite <-Hki in Hi. rewrite <-Hkj, Hi in Hj. congruence.
Qed.

(** C30. The serialized profile says what was captured.  Read back through its
    tables, each sample of the profile shows the functions, files and lines of
    the stack it came of, in order, with the sample's share of time; no function
    is listed twice, none that no stack holds; and there is nothing else in it:
    no mapping, label or comment. *)
Theorem serialized_stacks_read_back samples samplesPerSecond :
  let p := profile_of samples samplesPerSecond in
  Forall2 (fun s ps => read_stack (pf_Function p) (pf_Location p) ps = Some (shown <$> sm_Frames s) /\
             ps_Value ps = [sample_value (period_of samplesPerSecond) s] /\ ps_Label ps = ∅ /\ ps_NumLabel ps = ∅ /\ ps_NumUnit ps = ∅)
    samples (pf_Sample p) /\
  NoDup ((fun fn => (fn_Name fn, fn_Filename fn)) <$> pf_Function p) /\
  Forall (entry_of (samples ≫= sm_Frames)) (pf_Function p) /\
  hasCPUNanos p = true /\ pf_Mapping p = [] /\ pf_Comments p = [].
Proof.
  intros p. unfold p, profile_of. destruct (add_samples_sound (period_of samplesPerSecond) samples) as (Hs & He & Hr).
  destruct (foldl _ (noTables, []) samples) as [bd out]. cbn in *.
  split_and!; [exact Hr|by apply sound_tables_NoDup|done|done|done|done].
Qed.

(** A source path leaves the reporter as its last element, of either kind of
    path. *)
Fixpoint no_separator (s : string) : bool := match s with EmptyString => true | String c s => negb (is_separator c) && no_separator s end.
Lemma after_separator_clean path base : after_separator path = Some base -> no_separator base = true.
Proof.
  revert base. induction path as [|c path IH]; intros base; cbn; [done|].
  destruct (after_separator path) eqn:E; [intros [= <-]; by apply IH|]. destruct (is_separator c); [|done]. intros [= <-].
  clear IH. induction path as [|d path IH]; [done|]. cbn in *. destruct (after_separator path); [done|].
  destruct (is_separator d); [done|]. by rewrite IH.
Qed.
Lemma sourceFileBase_clean path : no_separator (sourceFileBase path) = true.
Proof.
  unfold sourceFileBase. destruct (after_separator path) eqn:E; cbn; [by apply after_separator_clean in E|].
  induction path as [|c path IH]; [done|]. cbn in *. destruct (after_separator path); [done|].
  destruct (is_separator c); [done|]. by rewrite IH.
Qed.
