(* ===== verification/Pipeline.v ===== *)
(** The node's profiling pipeline, src/cmd/agent/pipeline.go and nodecoverage.go:
    windows cut on a ticker, their samples grouped by container, filtered,
    serialized and shipped.

    One tick takes what the surroundings gave it: the clock, the controller's two
    answers, whether the capture has stopped, the pod and container each process
    was found in (a process is looked up once in a window, later samples of it
    being served from the map of bindings) and which deliveries succeeded. *)

From stdpp Require Import prelude gmap strings list sorting.
From Stdlib Require Import ZArith Lia Ascii.
From S2P Require Import Prelude GoTime GoStrings NodeReport Binding SymbolFilter Capture.
Local Open Scope Z_scope.
Local Open Scope go_scope.

Definition samplesPerSecond (overheadCeilingPercent : Z) : Z :=
  let sps := wrap64 (overheadCeilingPercent * 4) in
  let sps := if sps <? 1 then 1 else sps in
  if 99 <? sps then 99 else sps.

(** ** What the node counts of its profiler *)

Definition stateDisabled : string := "disabled".
Definition newProfilingMetrics : ProfilingCoverage := mkProfiling stateDisabled 0 0 0 0 0 0 0 0 0 0 0.
Definition setState (state : string) (c : ProfilingCoverage) : ProfilingCoverage :=
  mkProfiling state (Windows c) (WindowsNoScope c) (WindowsNoTargets c) (WindowsNoSamples c) (ProfilesShipped c)
    (ProfilesInvalid c) (ProfilesUnshipped c) (SamplesOutOfScope c) (NodeReport.ThirdPartyDropped c) (NodeReport.UnsymbolizedDropped c) (NodeReport.SamplesFiltered c).
Definition window_ (c : ProfilingCoverage) : ProfilingCoverage :=
  mkProfiling (State c) (Windows c +w 1) (WindowsNoScope c) (WindowsNoTargets c) (WindowsNoSamples c) (ProfilesShipped c)
    (ProfilesInvalid c) (ProfilesUnshipped c) (SamplesOutOfScope c) (NodeReport.ThirdPartyDropped c) (NodeReport.UnsymbolizedDropped c) (NodeReport.SamplesFiltered c).
Definition noScope (c : ProfilingCoverage) : ProfilingCoverage :=
  mkProfiling (State c) (Windows c) (WindowsNoScope c +w 1) (WindowsNoTargets c) (WindowsNoSamples c) (ProfilesShipped c)
    (ProfilesInvalid c) (ProfilesUnshipped c) (SamplesOutOfScope c) (NodeReport.ThirdPartyDropped c) (NodeReport.UnsymbolizedDropped c) (NodeReport.SamplesFiltered c).
Definition noTargets (c : ProfilingCoverage) : ProfilingCoverage :=
  mkProfiling (State c) (Windows c) (WindowsNoScope c) (WindowsNoTargets c +w 1) (WindowsNoSamples c) (ProfilesShipped c)
    (ProfilesInvalid c) (ProfilesUnshipped c) (SamplesOutOfScope c) (NodeReport.ThirdPartyDropped c) (NodeReport.UnsymbolizedDropped c) (NodeReport.SamplesFiltered c).
Definition noSamples (c : ProfilingCoverage) : ProfilingCoverage :=
  mkProfiling (State c) (Windows c) (WindowsNoScope c) (WindowsNoTargets c) (WindowsNoSamples c +w 1) (ProfilesShipped c)
    (ProfilesInvalid c) (ProfilesUnshipped c) (SamplesOutOfScope c) (NodeReport.ThirdPartyDropped c) (NodeReport.UnsymbolizedDropped c) (NodeReport.SamplesFiltered c).
Definition shipped (c : ProfilingCoverage) : ProfilingCoverage :=
  mkProfiling (State c) (Windows c) (WindowsNoScope c) (WindowsNoTargets c) (WindowsNoSamples c) (ProfilesShipped c +w 1)
    (ProfilesInvalid c) (ProfilesUnshipped c) (SamplesOutOfScope c) (NodeReport.ThirdPartyDropped c) (NodeReport.UnsymbolizedDropped c) (NodeReport.SamplesFiltered c).
Definition invalid (c : ProfilingCoverage) : ProfilingCoverage :=
  mkProfiling (State c) (Windows c) (WindowsNoScope c) (WindowsNoTargets c) (WindowsNoSamples c) (ProfilesShipped c)
    (ProfilesInvalid c +w 1) (ProfilesUnshipped c) (SamplesOutOfScope c) (NodeReport.ThirdPartyDropped c) (NodeReport.UnsymbolizedDropped c) (NodeReport.SamplesFiltered c).
Definition unshipped (c : ProfilingCoverage) : ProfilingCoverage :=
  mkProfiling (State c) (Windows c) (WindowsNoScope c) (WindowsNoTargets c) (WindowsNoSamples c) (ProfilesShipped c)
    (ProfilesInvalid c) (ProfilesUnshipped c +w 1) (SamplesOutOfScope c) (NodeReport.ThirdPartyDropped c) (NodeReport.UnsymbolizedDropped c) (NodeReport.SamplesFiltered c).
Definition outOfScope (samples : Z) (c : ProfilingCoverage) : ProfilingCoverage :=
  mkProfiling (State c) (Windows c) (WindowsNoScope c) (WindowsNoTargets c) (WindowsNoSamples c) (ProfilesShipped c)
    (ProfilesInvalid c) (ProfilesUnshipped c) (SamplesOutOfScope c +w samples) (NodeReport.ThirdPartyDropped c) (NodeReport.UnsymbolizedDropped c) (NodeReport.SamplesFiltered c).
Definition redacted (f : FilterCounters) (c : ProfilingCoverage) : ProfilingCoverage :=
  mkProfiling (State c) (Windows c) (WindowsNoScope c) (WindowsNoTargets c) (WindowsNoSamples c) (ProfilesShipped c)
    (ProfilesInvalid c) (ProfilesUnshipped c) (SamplesOutOfScope c)
    (NodeReport.ThirdPartyDropped c +u SymbolFilter.ThirdPartyDropped f) (NodeReport.UnsymbolizedDropped c +u SymbolFilter.UnsymbolizedDropped f)
    (NodeReport.SamplesFiltered c +u SymbolFilter.SamplesFiltered f).

(** ** Grouping *)

Record group := mkGroup { gr_podUID : string; gr_samples : list Sample }.

Record grouping := mkGrouping { gg_groups : gmap string group; gg_outOfScope : Z }.

Definition group_sample (binding : Z -> PodBinding) (targetSet : gset string) (scope : Scope) (g : grouping) (s : Sample) : grouping :=
  let b := binding (sm_PID s) in
  let cid := pb_ContainerID b in
  if bool_decide (cid = ""%string) then g
  else if negb (bool_decide (cid ∈ targetSet)) then g
  else if negb (Admits scope (pb_PodUID b)) then mkGrouping (gg_groups g) (gg_outOfScope g +w 1)
  else
    let old := default (mkGroup (pb_PodUID b) []) (gg_groups g !! cid) in
    mkGrouping (<[cid := mkGroup (gr_podUID old) (gr_samples old ++ [s])]> (gg_groups g)) (gg_outOfScope g).

Definition group_samples binding targetSet scope (samples : list Sample) : grouping :=
  foldl (group_sample binding targetSet scope) (mkGrouping ∅ 0) samples.

Record WindowReport := mkWindowReport {
  wr_Node : string; wr_PodUID : string; wr_ContainerID : string; wr_Start : Time; wr_End : Time; wr_Pprof : string;
}.

Section pipeline.
Context (parse : string -> option Profile) (check_valid : Profile -> bool) (encode : Profile -> option string).

(** The node's own settings: its name, the sampling rate, and the filter of a
    container. *)
Record settings := mkSettings { ns_node : string; ns_sps : Z; ns_allowed : list string; ns_thirdParty : ThirdPartyPolicy }.

Definition filterFor (cfg : settings) (modules : ModuleIndex) (containerID : string) : SymbolFilter :=
  let own := Modules modules containerID in
  if bool_decide (own = []) then NewSymbolFilter (ns_allowed cfg) (ns_thirdParty cfg)
  else NewSymbolFilter (ns_allowed cfg ++ own) (ns_thirdParty cfg).

(** One container's samples: what was posted, and the counters.  [ship] is the
    outcome of a post, [None] where no endpoint is configured. *)
Definition ship_group (cfg : settings) (filterFor : string -> SymbolFilter) (start end_ : Time)
    (ship : option (WindowReport -> bool)) (st : list WindowReport * ProfilingCoverage) (cg : string * group)
    : list WindowReport * ProfilingCoverage :=
  let '(posted, m) := st in
  let '(filtered, drops) := Filter (filterFor cg.1) (gr_samples cg.2) in
  let m := redacted drops m in
  match Serialize check_valid encode filtered (ns_sps cfg) with
  | None => (posted, invalid m)
  | Some pprof =>
      if negb (Validate parse pprof) then (posted, invalid m)
      else match ship with
           | None => (posted, m)
           | Some ship =>
               let report := mkWindowReport (ns_node cfg) (gr_podUID cg.2) cg.1 start end_ pprof in
               (posted ++ [report], if ship report then shipped m else unshipped m)
           end
  end.

Definition by_cid (a b : string * group) : bool := go_lt a.1 b.1.

Definition processWindow (cfg : settings) (filterFor : string -> SymbolFilter) (binding : Z -> PodBinding)
    (start end_ : Time) (samples : list Sample) (targetSet : gset string) (scope : Scope)
    (ship : option (WindowReport -> bool)) (m : ProfilingCoverage) : list WindowReport * ProfilingCoverage :=
  let m := window_ m in
  if bool_decide (ScopeSize scope = 0) then ([], noScope m)
  else if bool_decide (size targetSet = 0%nat) then ([], noTargets m)
  else if bool_decide (samples = []) then ([], noSamples m)
  else
    let g := group_samples binding targetSet scope samples in
    let m := if 0 <? gg_outOfScope g then outOfScope (gg_outOfScope g) m else m in
    foldl (ship_group cfg filterFor start end_ ship) ([], m) (sort_slice by_cid (map_to_list (gg_groups g))).

(** ** The ticks *)

(** What the pipeline keeps from one tick to the next. *)
Record pipeline := mkPipeline {
  pp_buffer : Buffer; pp_targets : option (gset string); pp_lastFetch : Time; pp_start : Time; pp_metrics : ProfilingCoverage;
  pp_ended : bool;
}.

(** An endpoint's answer: none configured, a failure, or the strings. *)
Inductive reply := NoEndpoint | Failed | Replied (ids : list string).

Record tick := mkTick {
  tk_stopped : bool; tk_end : Time; tk_targets : reply; tk_scope : reply; tk_modules : ModuleIndex;
  tk_binding : Z -> PodBinding; tk_ship : option (WindowReport -> bool); tk_restart : Time;
}.

Definition ReasonCaptureStopped : string := "capture_stopped".

Definition refresh_targets (refresh : Duration) (t : tick) (s : pipeline) : option (gset string) * Time :=
  match tk_targets t with
  | NoEndpoint => (pp_targets s, pp_lastFetch s)
  | answer =>
      if bool_decide (pp_targets s = None) || (refresh <=? Sub (tk_end t) (pp_lastFetch s)) then
        match answer with
        | Replied ids => (Some (list_to_set ids), tk_end t)
        | _ => (pp_targets s, pp_lastFetch s)
        end
      else (pp_targets s, pp_lastFetch s)
  end.

Definition window_scope (t : tick) : Scope := match tk_scope t with Replied uids => NewScope uids | _ => DenyAll end.

Definition on_tick (cfg : settings) (refresh : Duration) (t : tick) (s : pipeline) : pipeline * list WindowReport :=
  if pp_ended s then (s, [])
  else if tk_stopped t then
    (mkPipeline (pp_buffer s) (pp_targets s) (pp_lastFetch s) (pp_start s) (setState ReasonCaptureStopped (pp_metrics s)) true, [])
  else
    let '(targets, lastFetch) := refresh_targets refresh t s in
    let '(buffer, samples) := Drain (pp_buffer s) in
    let '(posted, m) := processWindow cfg (filterFor cfg (tk_modules t)) (tk_binding t) (pp_start s) (tk_end t) samples
                          (default ∅ targets) (window_scope t) (tk_ship t) (pp_metrics s) in
    (mkPipeline buffer targets lastFetch (tk_restart t) m false, posted).

(** Captures and ticks in whatever order. *)
Inductive event := Captured (trace : list RawFrame) (meta : TraceEventMeta) | Ticked (t : tick).
Definition step (cfg : settings) (refresh : Duration) (s : pipeline) (e : event) : pipeline * list WindowReport :=
  match e with
  | Captured trace meta =>
      (mkPipeline (ReportTraceEvent trace meta (pp_buffer s)) (pp_targets s) (pp_lastFetch s) (pp_start s) (pp_metrics s) (pp_ended s), [])
  | Ticked t => on_tick cfg refresh t s
  end.
Definition started (now : Time) (m : ProfilingCoverage) : pipeline := mkPipeline newBuffer None 0 now m false.
End pipeline.

(** ** What is grouped *)

Section grouping.
Context (binding : Z -> PodBinding) (targetSet : gset string) (scope : Scope).

(** The samples a container's profile is made of. *)
Definition profiled (cid : string) (s : Sample) : Prop :=
  cid <> ""%string /\ cid ∈ targetSet /\ pb_ContainerID (binding (sm_PID s)) = cid /\
  Admits scope (pb_PodUID (binding (sm_PID s))) = true.
#[export] Instance profiled_dec cid s : Decision (profiled cid s).
Proof. unfold profiled. apply _. Defined.

Definition out_of_scope (s : Sample) : Prop :=
  pb_ContainerID (binding (sm_PID s)) <> ""%string /\ pb_ContainerID (binding (sm_PID s)) ∈ targetSet /\
  Admits scope (pb_PodUID (binding (sm_PID s))) = false.
#[export] Instance out_of_scope_dec s : Decision (out_of_scope s).
Proof. unfold out_of_scope. apply _. Defined.

Definition group_of (cid : string) (samples : list Sample) : option group :=
  match filter (profiled cid) samples with
  | [] => None
  | s :: mine => Some (mkGroup (pb_PodUID (binding (sm_PID s))) (s :: mine))
  end.

Lemma group_of_snoc cid samples s :
  group_of cid (samples ++ [s]) =
  if decide (profiled cid s)
  then Some (let old := default (mkGroup (pb_PodUID (binding (sm_PID s))) []) (group_of cid samples) in
             mkGroup (gr_podUID old) (gr_samples old ++ [s]))
  else group_of cid samples.
Proof.
  unfold group_of. rewrite filter_app, filter_cons, filter_nil. destruct (decide _); [|by rewrite app_nil_r].
  by destruct (filter _ samples).
Qed.

Lemma group_samples_spec samples :
  (forall cid, gg_groups (group_samples binding targetSet scope samples) !! cid = group_of cid samples) /\
  gg_outOfScope (group_samples binding targetSet scope samples) = wrap64 (Z.of_nat (length (filter out_of_scope samples))).
Proof.
  unfold group_samples. induction samples as [|s samples [IHg IHo]] using rev_ind.
  { split; [intros cid; apply lookup_empty|done]. }
  rewrite foldl_app. cbn [foldl]. set (g := foldl _ _ samples) in *. clearbody g.
  assert (Hcount : forall x : Z, length (filter out_of_scope (samples ++ [s])) =
    (length (filter out_of_scope samples) + if decide (out_of_scope s) then 1 else 0)%nat).
  { intros _. rewrite filter_app, filter_cons, filter_nil, length_app. by case_decide. }
  rewrite (Hcount 0). clear Hcount. unfold group_sample.
  set (b := binding (sm_PID s)) in *.
  assert (Hsame : ~ (pb_ContainerID b <> ""%string /\ pb_ContainerID b ∈ targetSet /\ Admits scope (pb_PodUID b) = true) ->
    forall cid, gg_groups g !! cid = group_of cid (samples ++ [s])).
  { intros Hno cid. rewrite group_of_snoc. rewrite decide_False; [apply IHg|].
    intros (H1 & H2 & H3 & H4). subst b. rewrite <-H3 in *. tauto. }
  case_bool_decide as H0.
  { split; [apply Hsame; tauto|]. rewrite decide_False, Nat.add_0_r by (intros [? _]; done). done. }
  case_bool_decide as H1; cbn [negb].
  2: { split; [apply Hsame; tauto|]. rewrite decide_False, Nat.add_0_r by (intros (_ & ? & _); done). done. }
  destruct (Admits scope (pb_PodUID b)) eqn:Ha; cbn [negb gg_groups gg_outOfScope].
  - rewrite decide_False, Nat.add_0_r by (intros (_ & _ & ?); subst b; congruence). split; [|done].
    intros cid. rewrite group_of_snoc, <-IHg. destruct (decide (pb_ContainerID b = cid)) as [<-|Hc].
    + rewrite lookup_insert_eq, decide_True; [done|]. by split_and!.
    + rewrite lookup_insert_ne by done. rewrite decide_False; [done|]. by intros (_ & _ & ? & _).
  - split; [apply Hsame; intros (_ & _ & ?); congruence|]. rewrite decide_True by done. rewrite IHo, wrap64_add_l.
    f_equal. lia.
Qed.
End grouping.

(** ** What is posted *)

Section posted.
Context (parse : string -> option Profile) (check_valid : Profile -> bool) (encode : Profile -> option string).
#[local] Abbreviation ship_group := (ship_group parse check_valid encode).
#[local] Abbreviation processWindow := (processWindow parse check_valid encode).
#[local] Abbreviation on_tick := (on_tick parse check_valid encode).
#[local] Abbreviation step := (step parse check_valid encode).

(** The bytes of a profile that shows of some samples only what a filter admits. *)
Definition filtered_profile (f : SymbolFilter) (sps : Z) (mine : list Sample) (bytes : string) : Prop :=
  Validate parse bytes = true /\
  exists p, p = profile_of (Filter f mine).1 sps /\ encode p = Some bytes /\
    Forall (fun fn => fn_Name fn = RedactedFrame \/
              exists fr, fr ∈ frames_of mine /\ kept_frame f fr /\ fn_Name fn = fr_Function fr) (pf_Function p).

Lemma profile_names f sps mine :
  Forall (fun fn => fn_Name fn = RedactedFrame \/
            exists fr, fr ∈ frames_of mine /\ kept_frame f fr /\ fn_Name fn = fr_Function fr)
    (pf_Function (profile_of (Filter f mine).1 sps)).
Proof.
  unfold profile_of. destruct (add_samples_sound (period_of sps) (Filter f mine).1) as (_ & He & _).
  destruct (foldl _ (noTables, []) _) as [bd out]. cbn in *. eapply Forall_impl; [exact He|].
  intros fn (fr & Hfr & -> & _). destruct (Filter_frames f mine fr Hfr) as [->|[Hin Hk]]; [by left|]. right. by exists fr.
Qed.

Definition report_ok (cfg : settings) (filterFor : string -> SymbolFilter) (start end_ : Time) (r : WindowReport)
    (cid : string) (g : group) : Prop :=
  wr_Node r = ns_node cfg /\ wr_ContainerID r = cid /\ wr_PodUID r = gr_podUID g /\ wr_Start r = start /\ wr_End r = end_ /\
  filtered_profile (filterFor cid) (ns_sps cfg) (gr_samples g) (wr_Pprof r).

Lemma ship_group_posts cfg filterFor start end_ ship posted m cg :
  let out := ship_group cfg filterFor start end_ ship (posted, m) cg in
  out.1 = posted \/ exists r, out.1 = posted ++ [r] /\ is_Some ship /\ report_ok cfg filterFor start end_ r cg.1 cg.2.
Proof.
  unfold Pipeline.ship_group. pose proof (profile_names (filterFor cg.1) (ns_sps cfg) (gr_samples cg.2)) as Hn.
  destruct (Filter (filterFor cg.1) (gr_samples cg.2)) as [filtered drops] eqn:Hf. cbn [fst] in Hn. unfold Serialize.
  destruct (check_valid _); [|by left]. destruct (encode _) as [bytes|] eqn:He; [|by left].
  destruct (Validate parse bytes) eqn:Hv; cbn [negb]; [|by left]. destruct ship as [ship|]; [|by left].
  right. eexists. split; [reflexivity|]. split; [by eexists|]. unfold report_ok, filtered_profile. cbn. split_and!; try done.
  eexists. rewrite Hf. by split_and!.
Qed.

Lemma ship_groups_post cfg filterFor start end_ ship m groups :
  let out := foldl (ship_group cfg filterFor start end_ ship) ([], m) groups in
  Forall (fun r => exists cg, cg ∈ groups /\ report_ok cfg filterFor start end_ r cg.1 cg.2) out.1.
Proof.
  induction groups as [|cg groups IH] using rev_ind; [constructor|]. rewrite foldl_app. cbn [foldl].
  destruct (foldl _ ([], m) groups) as [posted m1]. cbn [fst] in IH.
  assert (IH' : Forall (fun r => exists cg', cg' ∈ groups ++ [cg] /\ report_ok cfg filterFor start end_ r cg'.1 cg'.2) posted).
  { eapply Forall_impl; [exact IH|]. intros r (cg' & Hin & Hr). exists cg'. split; [|done]. apply elem_of_app. by left. }
  destruct (ship_group_posts cfg filterFor start end_ ship posted m1 cg) as [->|(r & -> & _ & Hr)]; [done|].
  apply Forall_app. split; [done|]. constructor; [|constructor]. exists cg. split; [|done]. apply elem_of_app. right. by left.
Qed.

(** What a window posts is of a container the targets name, of a pod in scope,
    and made of that container's samples in that window and nothing else. *)
Definition window_report (cfg : settings) (filterFor : string -> SymbolFilter) (binding : Z -> PodBinding) (start end_ : Time)
    (samples : list Sample) (targetSet : gset string) (scope : Scope) (r : WindowReport) : Prop :=
  wr_Node r = ns_node cfg /\ wr_Start r = start /\ wr_End r = end_ /\
  wr_ContainerID r ∈ targetSet /\ Admits scope (wr_PodUID r) = true /\
  exists mine, mine = filter (profiled binding targetSet scope (wr_ContainerID r)) samples /\
    wr_PodUID r ∈ (fun s => pb_PodUID (binding (sm_PID s))) <$> mine /\
    filtered_profile (filterFor (wr_ContainerID r)) (ns_sps cfg) mine (wr_Pprof r).

Lemma processWindow_posts cfg filterFor binding start end_ samples targetSet scope ship m :
  Forall (window_report cfg filterFor binding start end_ samples targetSet scope)
    (processWindow cfg filterFor binding start end_ samples targetSet scope ship m).1.
Proof.
  unfold Pipeline.processWindow. repeat (case_bool_decide; [constructor|]).
  destruct (group_samples_spec binding targetSet scope samples) as [Hg _].
  eapply Forall_impl; [apply ship_groups_post|]. cbn beta. intros r ((cid & g) & Hin & Hr).
  apply elem_of_sort_slice, elem_of_map_to_list in Hin. rewrite Hg in Hin. unfold group_of in Hin.
  cbn [fst snd] in Hr. destruct Hr as (Hn & <- & Hp & Hs & He & Hf).
  destruct (filter _ samples) as [|s mine] eqn:Hmine; [done|]. injection Hin as <-. cbn in *.
  assert (Hs0 : s ∈ filter (profiled binding targetSet scope (wr_ContainerID r)) samples) by (rewrite Hmine; left).
  apply list_elem_of_filter in Hs0 as ((_ & Ht & _ & Ha) & _).
  unfold window_report. rewrite Hp. split_and!; try done. exists (s :: mine). rewrite Hmine. split_and!; [done|by left|done].
Qed.

(** ** A node's life *)

Fixpoint run (cfg : settings) (refresh : Duration) (es : list event) (s : pipeline) : pipeline * list (tick * WindowReport) :=
  match es with
  | [] => (s, [])
  | e :: es =>
      let '(s, posted) := step cfg refresh s e in
      let '(s, log) := run cfg refresh es s in
      (s, match e with Ticked t => pair t <$> posted | Captured _ _ => [] end ++ log)
  end.

Definition sample_of (trace : list RawFrame) (meta : TraceEventMeta) : Sample :=
  mkSample (report_frame <$> trace) (tm_Value meta) (tm_PID meta) (tm_Comm meta) (tm_ContainerID meta).

(** The window open after some events, of a pipeline started at [now]: when it
    began and what was captured in it.  A tick begins the next one, empty. *)
Inductive window_of (now : Time) : list event -> Time -> list Sample -> Prop :=
| window_first : window_of now [] now []
| window_next es start caught t : window_of now es start caught -> window_of now (es ++ [Ticked t]) (tk_restart t) []
| window_capture es start caught trace meta :
    window_of now es start caught ->
    window_of now (es ++ [Captured trace meta]) start (caught ++ [sample_of trace meta]).

(** The answer the targets come of: none was given later, or only so soon that
    it was not asked for. *)
Definition soon_after (refresh : Duration) (t : tick) (e : event) : Prop :=
  forall t' ids, e = Ticked t' -> tk_targets t' = Replied ids -> Sub (tk_end t') (tk_end t) < refresh.
Definition in_force (refresh : Duration) (es : list event) (t : tick) (ids : list string) : Prop :=
  tk_targets t = Replied ids /\ exists past later, es = past ++ Ticked t :: later /\ Forall (soon_after refresh t) later.

(** What a pipeline that has not ended holds. *)
Definition grounded (now : Time) (refresh : Duration) (es : list event) (s : pipeline) : Prop :=
  pp_ended s = false ->
  window_of now es (pp_start s) (Samples (pp_buffer s)) /\
  forall targets, pp_targets s = Some targets ->
    exists t ids, targets = list_to_set ids /\ in_force refresh es t ids /\ pp_lastFetch s = tk_end t.

(** The samples of a container's processes whose pod is in scope. *)
Definition of_container (t : tick) (uids : list string) (cid : string) (s : Sample) : Prop :=
  pb_ContainerID (tk_binding t (sm_PID s)) = cid /\
  pb_PodUID (tk_binding t (sm_PID s)) <> ""%string /\ pb_PodUID (tk_binding t (sm_PID s)) ∈ uids.
#[export] Instance of_container_dec t uids cid s : Decision (of_container t uids cid s).
Proof. unfold of_container. apply _. Defined.

Definition posted_ok (cfg : settings) (now : Time) (refresh : Duration) (es : list event) (tr : tick * WindowReport) : Prop :=
  let '(t, r) := tr in
  exists before after start caught asked ids uids,
    es = before ++ Ticked t :: after /\ window_of now before start caught /\
    in_force refresh (before ++ [Ticked t]) asked ids /\ wr_ContainerID r ∈ ids /\
    tk_scope t = Replied uids /\ wr_PodUID r ∈ uids /\
    wr_Node r = ns_node cfg /\ wr_Start r = start /\ wr_End r = tk_end t /\
    let mine := filter (of_container t uids (wr_ContainerID r)) caught in
    wr_PodUID r ∈ (fun s => pb_PodUID (tk_binding t (sm_PID s))) <$> mine /\
    filtered_profile (NewSymbolFilter (ns_allowed cfg ++ Modules (tk_modules t) (wr_ContainerID r)) (ns_thirdParty cfg))
      (ns_sps cfg) mine (wr_Pprof r).

Lemma filterFor_allow cfg modules cid :
  filterFor cfg modules cid = NewSymbolFilter (ns_allowed cfg ++ Modules modules cid) (ns_thirdParty cfg).
Proof. unfold filterFor. case_bool_decide as H; [|done]. by rewrite H, app_nil_r. Qed.

Lemma in_force_here refresh es t ids : tk_targets t = Replied ids -> in_force refresh (es ++ [Ticked t]) t ids.
Proof. intros Ht. split; [done|]. by exists es, []. Qed.
Lemma in_force_later refresh es t ids e : in_force refresh es t ids -> soon_after refresh t e -> in_force refresh (es ++ [e]) t ids.
Proof.
  intros (Ht & past & later & -> & Hl) He. split; [done|]. exists past, (later ++ [e]).
  split; [by rewrite <-app_assoc|]. apply Forall_app. by split; [|constructor].
Qed.

Lemma refresh_targets_grounded now refresh es t s targets :
  grounded now refresh es s -> pp_ended s = false -> (refresh_targets refresh t s).1 = Some targets ->
  exists t' ids, targets = list_to_set ids /\ in_force refresh (es ++ [Ticked t]) t' ids /\ (refresh_targets refresh t s).2 = tk_end t'.
Proof.
  intros Hg He. destruct (Hg He) as [_ Hold]. clear Hg.
  assert (Hkeep : (forall ids, tk_targets t = Replied ids -> is_Some (pp_targets s) -> Sub (tk_end t) (pp_lastFetch s) < refresh) ->
    pp_targets s = Some targets ->
    exists t' ids, targets = list_to_set ids /\ in_force refresh (es ++ [Ticked t]) t' ids /\ pp_lastFetch s = tk_end t').
  { intros Hsoon Hs. destruct (Hold _ Hs) as (t' & ids & -> & Hf & Hl). exists t', ids. split_and!; [done| |done].
    apply in_force_later; [done|]. intros t'' ids' [= <-] Ht. rewrite <-Hl. apply (Hsoon ids'); [done|by eexists]. }
  unfold refresh_targets. destruct (tk_targets t) as [| |ids] eqn:Ht; [by apply Hkeep|destruct (_ || _); by apply Hkeep|].
  destruct (bool_decide (pp_targets s = None) || (refresh <=? Sub (tk_end t) (pp_lastFetch s))) eqn:Hd; cbn.
  - intros [= <-]. exists t, ids. split_and!; [done|by apply in_force_here|done].
  - apply Hkeep. intros _ _ _. apply orb_false_iff in Hd as [_ Hd]. apply Z.leb_gt in Hd. lia.
Qed.

(** Of a window's report, what it is of the events. *)
Lemma window_report_posted cfg now refresh es t s targets lf r :
  grounded now refresh es s -> pp_ended s = false -> refresh_targets refresh t s = (targets, lf) ->
  window_report cfg (filterFor cfg (tk_modules t)) (tk_binding t) (pp_start s) (tk_end t) (Samples (pp_buffer s))
    (default ∅ targets) (window_scope t) r ->
  posted_ok cfg now refresh (es ++ [Ticked t]) (t, r).
Proof.
  intros Hg He Hr (Hn & Hs & Hend & Hcid & Hadm & mine & -> & Hu & Hf).
  destruct targets as [targets|]; [|by apply not_elem_of_empty in Hcid].
  change (default ∅ (Some targets)) with targets in *.
  destruct (refresh_targets_grounded now refresh es t s targets Hg He) as (asked & ids & -> & Hforce & _); [by rewrite Hr|].
  assert (exists uids, tk_scope t = Replied uids /\ window_scope t = NewScope uids) as (uids & Hsc & Hws).
  { unfold window_scope in *. destruct (tk_scope t) as [| |uids]; [| |by exists uids];
      unfold Admits in Hadm; destruct (bool_decide _); try done; by apply bool_decide_eq_true, not_elem_of_empty in Hadm. }
  rewrite Hws in *. rewrite filterFor_allow in Hf. apply Admits_NewScope in Hadm as [_ Huid].
  assert (Hmine : filter (profiled (tk_binding t) (list_to_set ids) (NewScope uids) (wr_ContainerID r)) (Samples (pp_buffer s)) =
                  filter (of_container t uids (wr_ContainerID r)) (Samples (pp_buffer s))).
  { apply list_filter_iff. intros x. unfold profiled, of_container. rewrite Admits_NewScope. split; [tauto|].
    intros (Hc & Hx). split_and!; try tauto. intros Hz.
    (* an empty container identifier is no group's *)
    apply list_elem_of_fmap in Hu as (y & _ & (Hy & _)%list_elem_of_filter). by destruct Hy. }
  rewrite Hmine in *. cbn. exists es, [], (pp_start s), (Samples (pp_buffer s)), asked, ids, uids.
  split_and!; try done; [by apply (Hg He)|by apply elem_of_list_to_set in Hcid].
Qed.

Lemma on_tick_posts cfg now refresh es t s :
  grounded now refresh es s -> let out := on_tick cfg refresh t s in
  grounded now refresh (es ++ [Ticked t]) out.1 /\ Forall (fun r => posted_ok cfg now refresh (es ++ [Ticked t]) (t, r)) out.2.
Proof.
  intros Hg. unfold Pipeline.on_tick. destruct (pp_ended s) eqn:He; [by split; [intros ?; cbn in *; congruence|constructor]|].
  destruct (tk_stopped t); [by split; [|constructor]|].
  destruct (refresh_targets refresh t s) as [targets lf] eqn:Hr. cbn [Drain].
  pose proof (processWindow_posts cfg (filterFor cfg (tk_modules t)) (tk_binding t) (pp_start s) (tk_end t) (Samples (pp_buffer s))
    (default ∅ targets) (window_scope t) (tk_ship t) (pp_metrics s)) as Hp.
  change (bf_samples (pp_buffer s)) with (Samples (pp_buffer s)).
  destruct (processWindow _ _ _ _ _ _ _ _ _ _) as [posted m]. cbn [fst snd] in *. split.
  - intros _. cbn. split; [eapply window_next, (Hg He)|]. intros ts ->.
    destruct (refresh_targets_grounded now refresh es t s ts Hg He) as (t' & ids & H); [by rewrite Hr|].
    rewrite Hr in H. by exists t', ids.
  - eapply Forall_impl; [exact Hp|]. intros r. by apply window_report_posted with lf.
Qed.

Lemma step_posts cfg now refresh es e s :
  grounded now refresh es s -> let out := step cfg refresh s e in
  grounded now refresh (es ++ [e]) out.1 /\
  Forall (posted_ok cfg now refresh (es ++ [e])) (match e with Ticked t => pair t <$> out.2 | Captured _ _ => [] end).
Proof.
  intros Hg. destruct e as [trace meta|t]; cbn [Pipeline.step].
  - split; [|constructor]. intros He. destruct (Hg He) as [Hw Ht]. split; [by apply window_capture|].
    intros targets Hs. destruct (Ht _ Hs) as (t & ids & ? & ? & ?). exists t, ids. split_and!; try done.
    by apply in_force_later.
  - destruct (on_tick_posts cfg now refresh es t s Hg) as [H1 H2]. split; [done|]. by apply Forall_fmap.
Qed.

Lemma posted_ok_app cfg now refresh es es' tr : posted_ok cfg now refresh es tr -> posted_ok cfg now refresh (es ++ es') tr.
Proof.
  destruct tr as [t r]. intros (before & after & start & caught & asked & ids & uids & -> & H).
  exists before, (after ++ es'), start, caught, asked, ids, uids. split; [by rewrite <-app_assoc|done].
Qed.

Lemma run_posts cfg now refresh es0 es s :
  grounded now refresh es0 s -> Forall (posted_ok cfg now refresh (es0 ++ es)) (run cfg refresh es s).2.
Proof.
  revert es0 s. induction es as [|e es IH]; intros es0 s Hg; cbn [run]; [constructor|].
  destruct (step_posts cfg now refresh es0 e s Hg) as [Hg1 Hp1]. destruct (step cfg refresh s e) as [s1 posted]. cbn [fst snd] in *.
  specialize (IH _ _ Hg1). destruct (run cfg refresh es s1) as [s2 log]. cbn [snd] in *.
  rewrite <-app_assoc in IH. apply Forall_app. split; [|done].
  eapply Forall_impl; [exact Hp1|]. intros tr Htr. apply (posted_ok_app _ _ _ _ es) in Htr. by rewrite <-app_assoc in Htr.
Qed.

Lemma started_grounded now refresh m : grounded now refresh [] (started now m).
Proof. intros _. split; [constructor|done]. Qed.

(** C28. What leaves a node of what it captured.  Through any captures and ticks,
    whatever the controller answered and whether it answered at all, a profile is
    posted at a tick only if the controller supplied the pods in scope for that
    window, and it is of a pod among them and of a container that the targets
    answer in force named.  Its window begins where the previous tick left off
    (or when the pipeline started) and ends at this tick; it is made of exactly
    the samples captured since then in that container's processes, in order; and
    its bytes encode their stacks with every function name admitted by the
    operator's prefixes and the build's own modules, or replaced by the
    placeholder. *)
Theorem profiles_leave_only_in_scope cfg refresh now m es :
  Forall (posted_ok cfg now refresh es) (run cfg refresh es (started now m)).2.
Proof. apply (run_posts cfg now refresh [] es). apply started_grounded. Qed.
End posted.

(** A life in which a profile is posted: a capture of a targeted container in
    scope, then a tick. *)
Definition demo_profile : Profile :=
  profile_of [mkSample [mkFrame "main.run" "run.go" 3 "go"] 1 7 "app" "c1"] 20.
Example a_profile_is_posted :
  let log := (run (fun b => if bool_decide (b = "bytes"%string) then Some demo_profile else None) (fun _ => true)
    (fun _ => Some "bytes"%string) (mkSettings "node-1" 20 [] ThirdPartyDrop) Minute
    [Captured [mkRawFrame "main.run" "/src/run.go" 3 "go"] (mkTraceEventMeta 1 7 "app" "c1" ∅);
     Ticked (mkTick false 60 (Replied ["c1"%string]) (Replied ["u1"%string]) None (fun _ => mkPodBinding "u1" "c1") (Some (fun _ => true)) 60);
     Ticked (mkTick false 120 Failed Failed None (fun _ => mkPodBinding "u1" "c1") (Some (fun _ => true)) 120)]
    (started 0 newProfilingMetrics)) in
  ((fun tr => (wr_ContainerID tr.2, wr_Pprof tr.2)) <$> log.2, ProfilesShipped (pp_metrics log.1), WindowsNoScope (pp_metrics log.1))
  = ([("c1", "bytes")]%string, 1, 1).
Proof. vm_compute. reflexivity. Qed.
