(* ===== verification/NodeRole.v ===== *)
(** The node role, [cmd/agent/node.go] and [nodeship.go]: what a node asks the
    controller and sends it, and a scan pass from the scope query to the delivered
    report.

    A request leaves with the projected token as its credential; what comes back
    of it is an input, as the transport and encoding/json make it. *)

From stdpp Require Import prelude gmap strings list.
From Stdlib Require Import ZArith Lia.
From S2P Require Import Prelude GoTime GoStrings PodWatcher PodIndex NodeIntake NodeReport Binding Scan.
From S2P Require Cluster Admission WatchHealth Capture Pipeline.
Local Open Scope Z_scope.
Local Open Scope go_scope.

(** ** The transport *)

(** [readProjectedToken]: [None] is a file that cannot be read, or is empty. *)
Definition readProjectedToken (file : option string) : option string :=
  match file with
  | None => None
  | Some raw => let token := TrimSpace raw in if bool_decide (token = ""%string) then None else Some token
  end.

(** What a POST came to: no answer, or a status with what the body decodes to
    within its limit, if it does. *)
Inductive exchange (A : Type) := NoAnswer | Answered (status : Z) (decoded : option A).
Arguments NoAnswer {A}.
Arguments Answered {A} status decoded.

Definition success (status : Z) : bool := negb ((status <? 200) || (300 <=? status)).

(** The request each client builds: POST, a bearer credential, one body. *)
Definition post {A} (token : string) (body : A) : request A := mkRequest "POST" ("Bearer " +:+ token) (Body body false).

(** [targetsClient.fetch] and [scopeClient.fetch] are one text but for the types:
    the query carries the node's name. [None] as the endpoint is the nil client. *)
Definition fetch (configured : bool) (file : option string) (node : string) (send : request string -> exchange (list string))
    : Pipeline.reply :=
  if negb configured then Pipeline.NoEndpoint
  else match readProjectedToken file with
       | None => Pipeline.Failed
       | Some token =>
           match send (post token node) with
           | NoAnswer => Pipeline.Failed
           | Answered status decoded =>
               if negb (success status) then Pipeline.Failed
               else match decoded with None => Pipeline.Failed | Some ids => Pipeline.Replied ids end
           end
       end.

(** [reportShipper.ship] and [profileShipper.ship]: the request made, if any, and
    whether the delivery succeeded.  [encodes] is what json.Marshal answers. *)
Definition ship {A} (file : option string) (encodes : bool) (report : A) (send : request A -> exchange unit) : option (request A) * bool :=
  match readProjectedToken file with
  | None => (None, false)
  | Some token =>
      if negb encodes then (None, false)
      else
        let r := post token report in
        (Some r, match send r with NoAnswer => false | Answered status _ => success status end)
  end.

(** The two counters of a report shipper; the nil shipper has neither. *)
Record delivery_counts := mkDelivery { dl_shipped : Z; dl_failures : Z }.
Definition count_delivery (ok : bool) (c : delivery_counts) : delivery_counts :=
  if ok then mkDelivery (dl_shipped c +u 1) (dl_failures c) else mkDelivery (dl_shipped c) (dl_failures c +u 1).
Definition shipper_counts (c : option delivery_counts) : Z * Z :=
  match c with None => (0, 0) | Some c => (dl_shipped c, dl_failures c) end.

(** ** A node's configuration and state *)

Record node_config := mkNodeConfig { nc_node : string; nc_scope : bool }.

Record node_state := mkNodeState {
  scanner : Scanner; beat : WatchHealth.Heartbeat; passed : bool; lastScan : option (Counters * Z);
  moduleIndex : Capture.ModuleIndex; shipper : option delivery_counts;
}.

(** What the surroundings give a pass. *)
Record surroundings := mkSurroundings {
  su_beat : Time; su_now : Time; su_scopeToken : option string; su_askScope : request string -> exchange (list string);
  su_entries : option (list string); su_proc : Z -> process; su_profiling : ProfilingCoverage;
  su_reportToken : option string; su_encodes : bool; su_send : request Report -> exchange unit;
}.

Definition scanScope (cfg : node_config) (su : surroundings) : Scope :=
  match fetch (nc_scope cfg) (su_scopeToken su) (nc_node cfg) (su_askScope su) with
  | Pipeline.Replied uids => NewScope uids
  | _ => DenyAll
  end.

Definition scanOnce (cfg : node_config) (su : surroundings) (n : node_state) : node_state * option (request Report) :=
  let beat := WatchHealth.Beat (beat n) (su_beat su) in
  let scope := scanScope cfg su in
  match Scan_ scope (su_now su) (su_entries su) (su_proc su) (scanner n) with
  | (s, None) => (mkNodeState s beat true (lastScan n) (moduleIndex n) (shipper n), None)
  | (s, Some res) =>
      let modules := Capture.Publish (Capture.modules_of (Binaries res)) (moduleIndex n) in
      let last := Some (rs_Counters res, ScopeSize scope) in
      match shipper n with
      | None => (mkNodeState s beat true last modules None, None)
      | Some counts =>
          let '(sent, ok) := ship (su_reportToken su) (su_encodes su)
                               (mkReport (nc_node cfg) (Binaries res) (rs_Counters res) (Some (su_profiling su))) (su_send su) in
          (mkNodeState s beat true last modules (Some (count_delivery ok counts)), sent)
      end
  end.

(** The lifecycle: a first pass, then one per tick; an interval of zero runs one. *)
Definition newNode (cfg : node_config) (filter_ : ModuleFilter) (now : Time) (deadline : Duration) (ships : bool) : node_state :=
  mkNodeState (NewScanner filter_) (WatchHealth.NewHeartbeat now deadline) false None None
    (if ships then Some (mkDelivery 0 0) else None).
Fixpoint passes (cfg : node_config) (sus : list surroundings) (n : node_state) : node_state * list (surroundings * request Report) :=
  match sus with
  | [] => (n, [])
  | su :: sus =>
      let '(n, sent) := scanOnce cfg su n in
      let '(n, log) := passes cfg sus n in
      (n, (pair su <$> option_list sent) ++ log)
  end.

(** ** The credential arrives *)

Lemma bearer_credential file token : readProjectedToken file = Some token -> bearerToken ("Bearer " +:+ token) = Some token.
Proof.
  unfold readProjectedToken. destruct file as [raw|]; [|done]. cbn zeta. case_bool_decide as Ht; [done|]. intros [= <-].
  unfold bearerToken. set (t := TrimSpace raw) in *.
  assert (cut_at 7 ("Bearer " +:+ t) = Some ("Bearer "%string, t)) as -> by done.
  change (negb (bool_decide (ToLower "Bearer " = "bearer "%string))) with false. cbn zeta iota. subst t. rewrite TrimSpace_idem.
  by rewrite bool_decide_eq_false_2.
Qed.

(** ** What a pass reports *)

(** What may come back of a query the controller answered with [o]: nothing, or
    its status, and a body that decodes to what it wrote if at all. *)
Definition may_come_back (o : outcome (list string)) (x : exchange (list string)) : Prop :=
  match x with
  | NoAnswer => True
  | Answered status decoded => status = NodeIntake.status o /\ forall ids, decoded = Some ids -> success status = true -> handed o = Some ids
  end.

Lemma fetch_replied configured file node send ids :
  fetch configured file node send = Pipeline.Replied ids ->
  exists token status, readProjectedToken file = Some token /\ send (post token node) = Answered status (Some ids) /\ success status = true.
Proof.
  unfold fetch. destruct configured; [|done]. destruct (readProjectedToken file) as [token|]; [|done].
  destruct (send (post token node)) as [|status [ids'|]] eqn:E; cbn; [done| |]; destruct (success status) eqn:Hs; try done. intros [= <-]. by exists token, status.
Qed.

Lemma scanned_in_scope scope now entries proc s s' res :
  Scan_ scope now entries proc s = (s', Some res) -> Forall (fun b => Admits scope (b_PodUID b) = true) (Binaries res).
Proof.
  intros Hs. destruct entries as [names|]; [|done]. pose proof (scan_accounts scope now names proc s) as H. rewrite Hs in H. cbn in H.
  destruct H as [_ Hr]. apply Forall_forall. intros b Hb. apply list_elem_of_lookup in Hb as [i Hi].
  eapply Forall2_lookup_r in Hr as (pid & _ & Hrep); [|exact Hi]. by destruct Hrep as (_ & _ & ? & _).
Qed.

Lemma scanOnce_sends cfg su n sent :
  (scanOnce cfg su n).2 = Some sent ->
  exists token res s', readProjectedToken (su_reportToken su) = Some token /\
    Scan_ (scanScope cfg su) (su_now su) (su_entries su) (su_proc su) (scanner n) = (s', Some res) /\
    sent = post token (mkReport (nc_node cfg) (Binaries res) (rs_Counters res) (Some (su_profiling su))).
Proof.
  unfold scanOnce. destruct (Scan_ _ _ _ _ _) as [s' [res|]]; [|done]. destruct (shipper n); [|done].
  unfold ship. destruct (readProjectedToken (su_reportToken su)) as [token|]; [|done]. destruct (su_encodes su); [|done].
  cbn. intros [= <-]. by exists token, res, s'.
Qed.

Section controller.
Context (v : Verifier) (f : Admission.Filter) (cfg : node_config).

(** The controller a node's queries reach: at each pass what its index holds after
    some events, and an answer the transport may lose or spoil but not forge. *)
Definition asks_controller (su : surroundings) (es : list event) : Prop :=
  informer_order es /\ forall r, may_come_back (ScopeServeHTTP v (run f es).1 r) (su_askScope su r).

Definition names_consenting (es : list event) (b : BinaryInfo) : Prop :=
  exists c pod, collected f es (b_PodUID b) c pod /\ Cluster.NodeName pod = nc_node cfg.

(** A report sent: where it goes, whose it is, and whom it names. *)
Definition report_ok (su : surroundings) (es : list event) (r : request Report) : Prop :=
  Method r = "POST"%string /\ (exists token, readProjectedToken (su_reportToken su) = Some token /\ bearerToken (Authorization r) = Some token) /\
  exists report, ReqBody r = Body report false /\ r_Node report = nc_node cfg /\
    Forall (names_consenting es) (r_Binaries report) /\
    ((forall ids, fetch (nc_scope cfg) (su_scopeToken su) (nc_node cfg) (su_askScope su) <> Pipeline.Replied ids) -> r_Binaries report = []).

Lemma scope_is_consenting su es uid :
  asks_controller su es -> Admits (scanScope cfg su) uid = true ->
  exists c pod, collected f es uid c pod /\ Cluster.NodeName pod = nc_node cfg.
Proof.
  intros [Hes Hask] Ha. unfold scanScope in Ha.
  destruct (fetch _ _ _ _) as [| |ids] eqn:Hf; [unfold Admits in Ha; case_bool_decide; [done|]; by apply bool_decide_eq_true, not_elem_of_empty in Ha..|].
  apply Admits_NewScope in Ha as [_ Ha]. destruct (fetch_replied _ _ _ _ _ Hf) as (token & status & _ & Hsend & Hs).
  specialize (Hask (post token (nc_node cfg))). rewrite Hsend in Hask. destruct Hask as [_ Hh]. specialize (Hh _ eq_refl Hs).
  unfold ScopeServeHTTP in Hh. apply serve_query_handed in Hh as (id & _ & -> & more & Hbody). cbn in Hbody. injection Hbody as Hnode _.
  rewrite Hnode. by apply (AdmittedPodsOnNode_exposed f es Hes).
Qed.

Lemma no_scope_no_binaries su now entries proc s s' res :
  (forall ids, fetch (nc_scope cfg) (su_scopeToken su) (nc_node cfg) (su_askScope su) <> Pipeline.Replied ids) ->
  Scan_ (scanScope cfg su) now entries proc s = (s', Some res) -> Binaries res = [].
Proof.
  intros Hno Hs. apply scanned_in_scope in Hs. destruct (Binaries res) as [|b bs]; [done|]. exfalso.
  apply Forall_cons in Hs as [Ha _]. unfold scanScope in Ha.
  destruct (fetch _ _ _ _) as [| |ids] eqn:Hf; [..|by apply (Hno ids)];
    unfold Admits in Ha; case_bool_decide; [done| |done|]; by apply bool_decide_eq_true, not_elem_of_empty in Ha.
Qed.

(** A node reports consenting pods of its own and nothing else.  Whatever the
    passes find, and whatever the transport loses or spoils on the way, every
    report sent is a POST under the projected token, as the controller will read
    it; it is in the node's own name, and each binary in it is of a pod the
    controller's filter admitted, by the events it had seen when asked, on that
    node.  In a pass without an answer, no token or no endpoint included, nothing
    is reported. *)
Theorem nodes_report_consenting_pods_only (pss : list (surroundings * list event)) n :
  Forall (fun p => asks_controller p.1 p.2) pss ->
  Forall (fun sent => exists es, (sent.1, es) ∈ pss /\ report_ok sent.1 es sent.2) (passes cfg pss.*1 n).2.
Proof.
  intros Hp. revert n. induction Hp as [|[su es] pss Hask _ IH]; intros n; [constructor|]. cbn [passes fmap list_fmap fst].
  destruct (scanOnce cfg su n) as [n1 sent] eqn:E1. specialize (IH n1). destruct (passes cfg _ n1) as [n2 log]. cbn [snd] in *.
  apply Forall_app. split.
  2: { eapply Forall_impl; [exact IH|]. cbn. intros x (es' & Hin & H). exists es'. split; [by right|done]. }
  destruct sent as [sent|]; [|constructor]. apply Forall_singleton. exists es. split; [left|]. cbn [fst snd] in *.
  assert (Hs : (scanOnce cfg su n).2 = Some sent) by by rewrite E1. apply scanOnce_sends in Hs as (token & res & s' & Ht & Hscan & ->).
  split; [done|]. split; [exists token; split; [done|by apply (bearer_credential (su_reportToken su))]|].
  eexists. split; [done|]. split; [done|]. cbn [r_Binaries]. split; [|intros Hno; by eapply no_scope_no_binaries].
  apply scanned_in_scope in Hscan. eapply Forall_impl; [exact Hscan|]. intros b Hb. by apply (scope_is_consenting su).
Qed.
End controller.

(** One pass of a node that runs a process of a collected pod and one of a pod
    that opted out. *)
Definition pod_a : string := "11111111-2222-3333-4444-555555555555".
Definition demo_node_events : list event :=
  [EAdd demo_caches demo_clock (demo_pod "web-0" pod_a ∅ 0);
   EAdd demo_caches demo_clock (demo_pod "db-0" "99999999-2222-3333-4444-555555555555" opted_out 0)].
Definition demo_surroundings : surroundings :=
  mkSurroundings 1 1 (Some "token-1"%string)
    (fun r => let o := ScopeServeHTTP demo_verifier (run demo_filter demo_node_events).1 r in Answered (NodeIntake.status o) (handed o))
    (Some ["1"; "self"; "42"]%string) (demo_table (inl (mkBuildInfo "go1.24" "cmd/secret" "" [] []))) Pipeline.newProfilingMetrics
    (Some "token-1"%string) true (fun _ => Answered 202 None).
Definition demo_node : node_config := mkNodeConfig "node-1" true.

Lemma demo_node_order : informer_order demo_node_events.
Proof.
  apply (informer_order_add [_]); [|reflexivity]. apply (informer_order_add []); [apply informer_order_nil|reflexivity].
Defined.

Lemma nodes_report_consenting_pods_only_witness :
  let n := newNode demo_node (NewModuleFilter []) 0 Minute true in
  let log := (passes demo_node [demo_surroundings] n).2 in
  Forall (fun p => asks_controller demo_verifier demo_filter p.1 p.2) [(demo_surroundings, demo_node_events)] /\
  Forall (fun sent => exists es, (sent.1, es) ∈ [(demo_surroundings, demo_node_events)] /\
                        report_ok demo_filter demo_node sent.1 es sent.2) log /\
  (fun sent => match ReqBody sent.2 with Body report _ => b_PodUID <$> r_Binaries report | _ => [] end) <$> log = [[pod_a]].
Proof.
  intros n log.
  assert (H : Forall (fun p => asks_controller demo_verifier demo_filter p.1 p.2) [(demo_surroundings, demo_node_events)]).
  { constructor; [|constructor]. split; [exact demo_node_order|]. intros r. cbn. split; [done|]. by intros ids H _. }
  split; [exact H|]. split; [|vm_compute; reflexivity].
  exact (nodes_report_consenting_pods_only demo_verifier demo_filter demo_node _ n H).
Defined.

(** ** What a pass leaves *)

(** A pass leaves its stamp, is counted as delivered or not when there is something
    to deliver and someone to deliver to, and replaces what the one before it
    left. *)
Lemma a_pass_replaces_the_last cfg su n :
  let '(n', sent) := scanOnce cfg su n in
  WatchHealth.hb_last (beat n') = su_beat su /\ passed n' = true /\
  (su_entries su = None -> sent = None /\ lastScan n' = lastScan n /\ moduleIndex n' = moduleIndex n /\ shipper n' = shipper n) /\
  (su_entries su <> None -> exists res, (Scan_ (scanScope cfg su) (su_now su) (su_entries su) (su_proc su) (scanner n)).2 = Some res /\
     lastScan n' = Some (rs_Counters res, ScopeSize (scanScope cfg su)) /\ moduleIndex n' = Some (Capture.modules_of (Binaries res)) /\
     shipper n' = (fun c => count_delivery
       (ship (su_reportToken su) (su_encodes su) (mkReport (nc_node cfg) (Binaries res) (rs_Counters res) (Some (su_profiling su))) (su_send su)).2 c)
       <$> shipper n).
Proof.
  unfold scanOnce. destruct (Scan_ _ _ _ _ _) as [s [res|]] eqn:E.
  - destruct (shipper n) as [counts|].
    + destruct (ship _ _ _ _) as [sent ok] eqn:Es. split_and!; [done|done| |].
      * intros He. rewrite He in E. discriminate E.
      * intros _. exists res. split_and!; [done..|]. cbn. by rewrite Es.
    + split_and!; [done|done| |]; [intros He; rewrite He in E; discriminate E|]. intros _. by exists res.
  - split_and!; [done|done|done|]. intros He. unfold Scan_ in E. destruct (su_entries su); [|done].
    by destruct (foldl _ _ _).
Qed.
