(* ===== verification/Spool.v ===== *)
(** The spool of [internal/sink/spool.go] and its counters ([counters.go]): one
    directory of payload files named by natural key, written atomically through
    the cadence gate, and kept within age, byte and file bounds by [Sweep].

    The directory is a map from names to files or directories.  What the
    operating system may refuse is an input of each operation: a [fault] of a
    publish, the entries whose [Info] raced ([raced]) and the files that cannot
    be removed ([stuck]).  A payload arrives as what [json.MarshalIndent] makes
    of it, [None] when that fails. *)

From stdpp Require Import prelude gmap strings sorting.
From Stdlib Require Import ZArith Lia.
From S2P Require Import Prelude GoTime GoStrings Registry Cadence FileNames.
Local Open Scope Z_scope.
Local Open Scope go_scope.

Definition DefaultMaxAge : Duration := 24 * Hour.
Definition DefaultMaxBytes : Z := Z.shiftl 512 20.
Definition DefaultMaxFiles : Z := 20000.

(** ** Counters *)

Definition EvictedAge : string := "age".
Definition EvictedOrphanTemp : string := "orphan_temp".
Definition EvictedBytes : string := "bytes".
Definition EvictedFiles : string := "files".
Definition EvictionReasons : list string := [EvictedAge; EvictedOrphanTemp; EvictedBytes; EvictedFiles].

Record Recovered := mkRecovered {
  rWindows : Z; rRecords : Z; rSkipped : Z; rJournalWindows : Z; rJournalRecords : Z;
}.

Abbreviation counts := (gmap string Z).

Definition newKindCounts : counts := foldl (fun m p => <[Kind p := 0]> m) ∅ registry.
Definition newReasonCounts : counts := foldl (fun m r => <[r := 0]> m) ∅ EvictionReasons.

(** [m[k]++] *)
Definition bump (k : string) (m : counts) : counts := <[k := default 0 (m !! k) +w 1]> m.
Definition count_of (k : string) (m : counts) : Z := default 0 (m !! k).

(** ** State *)

Inductive node := DirNode | FileNode (data : string) (modTime : Time).
Abbreviation fs := (gmap string node).

Record Spool := mkSpool {
  dir : fs;
  maxAge : Duration;
  maxBytes : Z;
  maxFiles : Z;
  cadence : gate;
  written_ : counts;
  writeFailures : counts;
  suppressed : counts;
  evicted : counts;
  bytes : Z;
  files : Z;
  recovered : Recovered;
}.

Definition NewSpool (d : fs) (age : Duration) : Spool :=
  mkSpool d (if age <=? 0 then DefaultMaxAge else age) DefaultMaxBytes DefaultMaxFiles ∅
    newKindCounts newKindCounts newKindCounts newReasonCounts 0 0 (mkRecovered 0 0 0 0 0).

Definition setDir (d : fs) (s : Spool) : Spool :=
  mkSpool d (maxAge s) (maxBytes s) (maxFiles s) (cadence s) (written_ s) (writeFailures s)
    (suppressed s) (evicted s) (bytes s) (files s) (recovered s).
Definition setCadence (g : gate) (s : Spool) : Spool :=
  mkSpool (dir s) (maxAge s) (maxBytes s) (maxFiles s) g (written_ s) (writeFailures s)
    (suppressed s) (evicted s) (bytes s) (files s) (recovered s).
Definition countWrite (kind : string) (failed : bool) (s : Spool) : Spool :=
  mkSpool (dir s) (maxAge s) (maxBytes s) (maxFiles s) (cadence s)
    (if failed then written_ s else bump kind (written_ s))
    (if failed then bump kind (writeFailures s) else writeFailures s)
    (suppressed s) (evicted s) (bytes s) (files s) (recovered s).
Definition countSuppressed (kind : string) (s : Spool) : Spool :=
  mkSpool (dir s) (maxAge s) (maxBytes s) (maxFiles s) (cadence s) (written_ s) (writeFailures s)
    (bump kind (suppressed s)) (evicted s) (bytes s) (files s) (recovered s).
Definition countEviction (reason : string) (s : Spool) : Spool :=
  mkSpool (dir s) (maxAge s) (maxBytes s) (maxFiles s) (cadence s) (written_ s) (writeFailures s)
    (suppressed s) (bump reason (evicted s)) (bytes s) (files s) (recovered s).
Definition recordSweep (b f : Z) (s : Spool) : Spool :=
  mkSpool (dir s) (maxAge s) (maxBytes s) (maxFiles s) (cadence s) (written_ s) (writeFailures s)
    (suppressed s) (evicted s) b f (recovered s).
Definition countRecovery (r : Recovered) (s : Spool) : Spool :=
  mkSpool (dir s) (maxAge s) (maxBytes s) (maxFiles s) (cadence s) (written_ s) (writeFailures s)
    (suppressed s) (evicted s) (bytes s) (files s) r.

(** ** Writing *)

Inductive write_error := Unregistered | BadName | EncodeFailed | WriteFailed | RenameFailed.

(** What the operating system does to one publish: [WriteFault] may leave a
    part of the bytes in the temp file. *)
Inductive fault := NoFault | WriteFault (left_behind : option string) | RenameFault.

Definition tmp_name (nm : string) : string := nm +:+ ".tmp".

Definition publish (d : fs) (nm data : string) (now : Time) (f : fault) : fs * option write_error :=
  match f with
  | NoFault => (<[nm := FileNode data now]> (delete (tmp_name nm) d), None)
  | WriteFault None => (d, Some WriteFailed)
  | WriteFault (Some part) => (<[tmp_name nm := FileNode part now]> d, Some WriteFailed)
  | RenameFault => (<[tmp_name nm := FileNode data now]> d, Some RenameFailed)
  end.

Definition encodePayload (nm : string) (payload : option string) : result write_error string :=
  if negb (plain_name nm) then Err BadName
  else match payload with
       | None => Err EncodeFailed
       | Some doc => Ok (doc +:+ String newline EmptyString)
       end.

(** The clock at the two readings of one write, and its fault. *)
Record io := mkIo { decided_at : Time; landed_at : Time; io_fault : fault }.

Section spool.
Context (sha256 : string -> string).

Definition write (s : Spool) (kind nm : string) (payload : option string) (env : io)
    : Spool * option write_error :=
  match Lookup kind with
  | None => (s, Some Unregistered)
  | Some entry =>
      match encodePayload nm payload with
      | Err e => (countWrite kind true s, Some e)
      | Ok data =>
          let '(f, d) := due sha256 (cadence s) nm (Cadence_ entry) data (decided_at env) in
          if negb d then (countSuppressed kind s, None)
          else
            match publish (dir s) nm data (landed_at env) (io_fault env) with
            | (fs', Some e) => (countWrite kind true (setDir fs' s), Some e)
            | (fs', None) =>
                (countWrite kind false
                   (setCadence (wrote (cadence s) nm (Cadence_ entry) f (landed_at env)) (setDir fs' s)), None)
            end
      end
  end.
End spool.

(** ** Sweeping *)

Record file := mkFile { f_name : string; f_size : Z; f_modTime : Time }.

Definition size_of (data : string) : Z := Z.of_nat (String.length data).

(** [os.ReadDir]: every entry, by name. *)
Definition entries (d : fs) : list (string * node) :=
  sort_slice (fun a b => go_lt a.1 b.1) (map_to_list d).

Definition expired (cutoff : Time) (m : Time) : bool := Before m cutoff.
Definition orphanTmp (now : Time) (nm : string) (m : Time) : bool :=
  HasSuffix nm ".tmp" && Before m (Add now (- Minute)).

Section sweep.
Context (raced stuck : gset string).

(** [os.Remove]; a file that is gone already is no error. *)
Definition remove (nm : string) (s : Spool) : option Spool :=
  if bool_decide (nm ∈ stuck) then None else Some (setDir (delete nm (dir s)) s).

(** The first loop; [None] when a removal failed. *)
Fixpoint sweep_loop (s : Spool) (cutoff now : Time) (es : list (string * node)) (kept : list file) (total : Z)
    : Spool * option (list file * Z) :=
  match es with
  | [] => (s, Some (kept, total))
  | (nm, DirNode) :: es => sweep_loop s cutoff now es kept total
  | (nm, FileNode data m) :: es =>
      if bool_decide (nm ∈ raced) then sweep_loop s cutoff now es kept total
      else if expired cutoff m || orphanTmp now nm m then
        match remove nm s with
        | None => (s, None)
        | Some s => sweep_loop (countEviction (if expired cutoff m then EvictedAge else EvictedOrphanTemp) s)
                      cutoff now es kept total
        end
      else sweep_loop s cutoff now es (kept ++ [mkFile nm (size_of data) m]) (total +w size_of data)
  end.

Definition older (a b : file) : bool :=
  if f_modTime a =? f_modTime b then go_lt (f_name a) (f_name b) else Before (f_modTime a) (f_modTime b).

(** The second loop, over the oldest first. *)
Fixpoint evict_loop (s : Spool) (kept : list file) (total count : Z) : Spool * option (Z * Z) :=
  match kept with
  | [] => (s, Some (total, count))
  | f :: kept =>
      if (total <=? maxBytes s) && (count <=? maxFiles s) then (s, Some (total, count))
      else
        let reason := if maxBytes s <? total then EvictedBytes else EvictedFiles in
        match remove (f_name f) s with
        | None => (s, None)
        | Some s => evict_loop (countEviction reason s) kept (total -w f_size f) (count -w 1)
        end
  end.

(** The flag is the error. *)
Definition Sweep (s : Spool) (now : Time) : Spool * bool :=
  let cutoff := Add now (- maxAge s) in
  let es := entries (dir s) in
  let s := setCadence (prune (cadence s) cutoff) s in
  match sweep_loop s cutoff now es [] 0 with
  | (s, None) => (s, true)
  | (s, Some (kept, total)) =>
      let count := Z.of_nat (length kept) in
      if (total <=? maxBytes s) && (count <=? maxFiles s) then (recordSweep total count s, false)
      else
        match evict_loop s (sort_slice older kept) total count with
        | (s, None) => (s, true)
        | (s, Some (total, count)) => (recordSweep total count s, false)
        end
  end.
End sweep.

(** ** Listings of a directory *)

Definition holds_file (d : fs) (f : file) : Prop :=
  exists data, d !! f_name f = Some (FileNode data (f_modTime f)) /\ f_size f = size_of data.

(** [l] lists the plain files of [d], each once. *)
Definition is_listing (d : fs) (l : list file) : Prop :=
  NoDup (f_name <$> l) /\ Forall (holds_file d) l /\
  (forall n data m, d !! n = Some (FileNode data m) -> n ∈ f_name <$> l).

Definition sizes (l : list file) : Z := list_sum f_size l.
Definition node_size (nd : node) : Z := match nd with DirNode => 0 | FileNode data _ => size_of data end.

Lemma older_key a b : older a b = go_lt (f_modTime a, f_name a) (f_modTime b, f_name b).
Proof.
  unfold older. change (go_lt (f_modTime a, f_name a) (f_modTime b, f_name b))
    with (lexi (f_modTime a) (f_modTime b) (go_lt (f_name a) (f_name b))).
  unfold lexi. destruct (Z.eqb_spec (f_modTime a) (f_modTime b));
    [by rewrite bool_decide_eq_true_2|by rewrite bool_decide_eq_false_2].
Qed.

Lemma size_of_nonneg data : 0 <= size_of data.
Proof. unfold size_of. lia. Qed.

Lemma holds_file_delete d f n : n <> f_name f -> holds_file d f -> holds_file (delete n d) f.
Proof. intros Hn (data & Hd & Hs). exists data. by rewrite lookup_delete_ne. Qed.

Lemma listing_perm d : entries d ≡ₚ map_to_list d.
Proof. apply merge_sort_Permutation. Qed.

Lemma elem_of_entries d n nd : (n, nd) ∈ entries d <-> d !! n = Some nd.
Proof. rewrite listing_perm. apply elem_of_map_to_list. Qed.

Lemma listing_NoDup d : NoDup (entries d).*1.
Proof. rewrite listing_perm. apply NoDup_fst_map_to_list. Qed.

Lemma entries_sizes d : list_sum (fun e => node_size e.2) (entries d) = map_sum node_size d.
Proof.
  rewrite (list_sum_perm _ _ _ (listing_perm d)), map_sum_values. unfold map_values.
  induction (map_to_list d) as [|[n nd] l IH]; [done|]. rewrite fmap_cons, !list_sum_cons. cbn. by rewrite IH.
Qed.

(** ** The first loop *)

(** What a swept spool keeps besides its directory and eviction counters. *)
Definition same_bounds (s s' : Spool) : Prop :=
  maxBytes s' = maxBytes s /\ maxFiles s' = maxFiles s /\ cadence s' = cadence s.

Definition goes (cutoff now : Time) (n : string) (nd : node) : Prop :=
  match nd with
  | DirNode => False
  | FileNode _ m => expired cutoff m || orphanTmp now n m = true
  end.

(** While the loop runs: what it kept and what is still to come is all there is. *)
Definition sweeping (s : Spool) (es : list (string * node)) (kept : list file) : Prop :=
  NoDup ((f_name <$> kept) ++ es.*1) /\ Forall (holds_file (dir s)) kept /\
  Forall (fun e => dir s !! e.1 = Some e.2) es /\
  (forall n data m, dir s !! n = Some (FileNode data m) -> n ∈ f_name <$> kept \/ n ∈ es.*1).

Lemma sweeping_keep s nm data m es kept :
  sweeping s ((nm, FileNode data m) :: es) kept ->
  sweeping s es (kept ++ [mkFile nm (size_of data) m]).
Proof.
  intros (Hnd & Hk & He & Hall). apply Forall_cons in He as [He0 He]. split; [|split; [|split]].
  - rewrite fmap_app, <-app_assoc. exact Hnd.
  - apply Forall_app. split; [done|]. apply Forall_singleton. by exists data.
  - done.
  - intros n d' m' Hn. rewrite fmap_app, elem_of_app. cbn.
    destruct (Hall _ _ _ Hn) as [H|H]; [auto|]. cbn in H. rewrite elem_of_cons in H.
    destruct H as [->|H]; [left; right; apply list_elem_of_here|auto].
Qed.

Lemma sweeping_dir s nm es kept :
  dir s !! nm = Some DirNode -> sweeping s ((nm, DirNode) :: es) kept -> sweeping s es kept.
Proof.
  intros Hnm (Hnd & Hk & He & Hall). apply Forall_cons in He as [_ He].
  rewrite fmap_cons, <-Permutation_middle in Hnd. apply NoDup_cons in Hnd as [_ Hnd].
  split; [done|]. split; [done|]. split; [done|].
  intros n d m Hn. destruct (Hall _ _ _ Hn) as [H|H]; [auto|]. cbn in H. rewrite elem_of_cons in H.
  destruct H as [->|H]; [congruence|auto].
Qed.

Lemma sweeping_gone s s' nm nd es kept :
  dir s' = delete nm (dir s) -> sweeping s ((nm, nd) :: es) kept -> sweeping s' es kept.
Proof.
  intros Hd (Hnd & Hk & He & Hall). apply Forall_cons in He as [_ He].
  rewrite fmap_cons, <-Permutation_middle in Hnd. apply NoDup_cons in Hnd as [Hnm Hnd].
  cbn in Hnm. rewrite elem_of_app in Hnm. unfold sweeping. rewrite Hd.
  split; [done|]. split; [|split].
  - rewrite Forall_forall in *. intros f Hf. apply holds_file_delete; [|by apply Hk].
    intros ->. apply Hnm. left. by apply list_elem_of_fmap_2.
  - rewrite Forall_forall in *. intros e Hin. rewrite lookup_delete_ne; [by apply He|].
    intros ->. apply Hnm. right. by apply list_elem_of_fmap_2.
  - intros n d m [Hne Hn]%lookup_delete_Some. destruct (Hall _ _ _ Hn) as [H|H]; [auto|].
    cbn in H. rewrite elem_of_cons in H. destruct H as [->|H]; [done|auto].
Qed.

Lemma sweep_loop_spec cutoff now es s kept total :
  sweeping s es kept -> total = sizes kept ->
  0 <= sizes kept -> sizes kept + list_sum (fun e => node_size e.2) es <= maxInt64 ->
  exists s' kept', sweep_loop ∅ ∅ s cutoff now es kept total = (s', Some (kept', sizes kept')) /\
    same_bounds s s' /\ is_listing (dir s') kept' /\ 0 <= sizes kept' <= maxInt64 /\
    Z.of_nat (length kept') <= Z.of_nat (length kept) + Z.of_nat (length es) /\
    (forall f, f ∈ kept' -> f ∈ kept \/ expired cutoff (f_modTime f) || orphanTmp now (f_name f) (f_modTime f) = false) /\
    (forall n nd, dir s' !! n = Some nd -> dir s !! n = Some nd) /\
    (forall n nd, dir s !! n = Some nd -> dir s' !! n = Some nd \/ goes cutoff now n nd).
Proof.
  revert s kept total. induction es as [|[nm nd] es IH]; intros s kept total Hsw -> H0 Hmax.
  { exists s, kept. split; [done|]. split; [done|]. destruct Hsw as (Hnd & Hk & _ & Hall).
    rewrite app_nil_r in Hnd. split.
    - split; [done|]. split; [done|]. intros n data m Hn.
      destruct (Hall _ _ _ Hn) as [H|H]; [done|]. by apply elem_of_nil in H.
    - cbn in Hmax. split; [lia|]. split; [cbn; lia|]. auto. }
  pose proof Hsw as (_ & _ & He & _). apply Forall_cons in He as [He0 _]. cbn [fst snd] in He0.
  rewrite list_sum_cons in Hmax. cbn [snd node_size] in Hmax.
  assert (0 <= list_sum (fun e => node_size e.2) es) as Hnn.
  { apply list_sum_nonneg. intros [? []]; cbn; [lia|apply size_of_nonneg]. }
  cbn [sweep_loop]. destruct nd as [|data m]; cbn [node_size] in Hmax.
  - apply sweeping_dir in Hsw; [|done].
    destruct (IH s kept (sizes kept) Hsw eq_refl H0 ltac:(lia)) as (s' & k' & E & A & B & C & D & F).
    exists s', k'. cbn [length]. split; [exact E|]. split; [done|]. split; [done|]. split; [lia|]. split; [lia|done].
  - rewrite bool_decide_eq_false_2 by apply not_elem_of_empty.
    pose proof (size_of_nonneg data) as Hsz.
    destruct (expired cutoff m || orphanTmp now nm m) eqn:Eg.
    + unfold remove. rewrite bool_decide_eq_false_2 by apply not_elem_of_empty.
      set (s1 := countEviction _ _). assert (dir s1 = delete nm (dir s)) as Hd1 by done.
      pose proof (sweeping_gone s s1 nm _ es kept Hd1 Hsw) as Hsw1.
      destruct (IH s1 kept (sizes kept) Hsw1 eq_refl H0 ltac:(lia)) as (s' & k' & E & A & B & C & D & F & G & I).
      exists s', k'. cbn [length]. split; [exact E|]. split; [done|]. split; [done|]. split; [lia|]. split; [lia|].
      split; [done|]. split.
      * intros n nd Hn. apply G in Hn. rewrite Hd1 in Hn. by apply lookup_delete_Some in Hn as [_ Hn].
      * intros n nd Hn. destruct (decide (n = nm)) as [->|Hne]; [right; by simplify_eq|].
        apply I. by rewrite Hd1, lookup_delete_ne.
    + apply sweeping_keep in Hsw.
      assert (sizes (kept ++ [mkFile nm (size_of data) m]) = sizes kept + size_of data) as Hsum.
      { unfold sizes. rewrite list_sum_app. cbn. lia. }
      rewrite wrap64_id by go_lia.
      destruct (IH s _ (sizes kept + size_of data) Hsw (eq_sym Hsum) ltac:(lia) ltac:(lia)) as (s' & k' & E & A & B & C & D & F & G).
      exists s', k'. cbn [length]. rewrite length_app in D. cbn in D.
      split; [exact E|]. split; [done|]. split; [done|]. split; [lia|]. split; [lia|]. split; [|done].
      intros f Hf. destruct (F f Hf) as [Hk|Hk]; [|auto]. rewrite elem_of_app, list_elem_of_singleton in Hk.
      destruct Hk as [Hk| ->]; [auto|right; exact Eg].
Qed.

(** ** The second loop *)

(** Over a budget: [g] and files no older than it already exceed a bound. *)
Definition over_budget (s : Spool) (l : list file) : Prop :=
  maxBytes s < sizes l \/ maxFiles s < Z.of_nat (length l).

Lemma is_listing_delete s f l :
  is_listing (dir s) (f :: l) -> is_listing (delete (f_name f) (dir s)) l.
Proof.
  intros (Hnd & Hh & Hall). rewrite fmap_cons in Hnd. apply NoDup_cons in Hnd as [Hf Hnd].
  apply Forall_cons in Hh as [_ Hh]. split; [done|]. split.
  - rewrite Forall_forall in *. intros g Hg. apply holds_file_delete; [|by apply Hh].
    intros E. apply Hf. rewrite E. by apply list_elem_of_fmap_2.
  - intros n data m [Hne Hn]%lookup_delete_Some. specialize (Hall _ _ _ Hn).
    rewrite fmap_cons, elem_of_cons in Hall. destruct Hall as [->|H]; [done|exact H].
Qed.

Lemma listing_sizes d l : Forall (holds_file d) l -> 0 <= sizes l.
Proof.
  induction 1 as [|f l (data & _ & Hs) _ IH]; [done|]. unfold sizes in *. rewrite list_sum_cons, Hs.
  pose proof (size_of_nonneg data). lia.
Qed.

Lemma evict_loop_spec kept s :
  is_listing (dir s) kept -> 0 <= maxBytes s -> 0 <= maxFiles s ->
  sizes kept <= maxInt64 -> Z.of_nat (length kept) <= maxInt64 ->
  exists s' gone rest, kept = gone ++ rest /\
    evict_loop ∅ s kept (sizes kept) (Z.of_nat (length kept)) = (s', Some (sizes rest, Z.of_nat (length rest))) /\
    same_bounds s s' /\ is_listing (dir s') rest /\ sizes rest <= maxBytes s /\
    Z.of_nat (length rest) <= maxFiles s /\
    (forall n, n ∉ f_name <$> gone -> dir s' !! n = dir s !! n) /\
    (forall n, n ∈ f_name <$> gone -> dir s' !! n = None) /\
    (forall g before after, gone = before ++ g :: after -> over_budget s (g :: after ++ rest)).
Proof.
  revert s. induction kept as [|f kept IH]; intros s Hlist Hb Hf Hsum Hlen.
  { exists s, [], []. cbn. repeat (split; [done || lia|]). split; [by intros n Hn%elem_of_nil|].
    by intros g [|] after. }
  cbn [evict_loop].
  destruct ((sizes (f :: kept) <=? maxBytes s) && (Z.of_nat (length (f :: kept)) <=? maxFiles s)) eqn:Efit.
  { apply andb_true_iff in Efit as [E1%Z.leb_le E2%Z.leb_le].
    exists s, [], (f :: kept). repeat (split; [done || lia|]). split; [by intros n Hn%elem_of_nil|].
    by intros g [|] after. }
  unfold remove. rewrite bool_decide_eq_false_2 by apply not_elem_of_empty.
  set (s1 := countEviction _ _). assert (dir s1 = delete (f_name f) (dir s)) as Hd1 by done.
  pose proof (is_listing_delete s f kept Hlist) as Hlist1. rewrite <-Hd1 in Hlist1.
  pose proof Hlist as (_ & Hh & _). apply Forall_cons in Hh as [(data & Hfd & Hfs) Hh].
  pose proof (size_of_nonneg data). pose proof (listing_sizes _ _ Hh) as Hpos.
  assert (sizes (f :: kept) = f_size f + sizes kept) as Es by apply list_sum_cons.
  assert (Z.of_nat (length (f :: kept)) = Z.of_nat (length kept) + 1) as El by (cbn [length]; lia).
  replace (wrap64 (sizes (f :: kept) - f_size f)) with (sizes kept) by (rewrite wrap64_id; go_lia).
  replace (wrap64 (Z.of_nat (length (f :: kept)) - 1)) with (Z.of_nat (length kept)) by (rewrite wrap64_id; go_lia).
  destruct (IH s1 Hlist1 Hb Hf ltac:(lia) ltac:(lia)) as (s' & gone & rest & -> & E & (B1 & B2 & B3) & L & M1 & M2 & D1 & D2 & O).
  exists s', (f :: gone), rest. split; [done|]. split; [exact E|]. split; [done|]. split; [done|].
  split; [done|]. split; [done|]. split; [|split].
  - intros n. rewrite fmap_cons, not_elem_of_cons. intros [Hn Hg]. rewrite D1 by done.
    by rewrite Hd1, lookup_delete_ne.
  - intros n. rewrite fmap_cons, elem_of_cons. intros [->|Hn]; [|by apply D2].
    destruct (decide (f_name f ∈ f_name <$> gone)) as [Hg|Hg]; [by apply D2|].
    rewrite D1 by done. by rewrite Hd1, lookup_delete_eq.
  - intros g [|x before] after [= -> Hg]; [|by apply (O g before after)]. subst.
    apply andb_false_iff in Efit as [H1%Z.leb_gt|H1%Z.leb_gt]; [by left|by right].
Qed.

(** ** Properties *)

(** What a sweep promises of the spool it leaves, [kept] listing its files. *)
Definition swept (s s' : Spool) (now : Time) (kept : list file) : Prop :=
  is_listing (dir s') kept /\
  bytes s' = sizes kept /\ files s' = Z.of_nat (length kept) /\
  bytes s' <= maxBytes s /\ files s' <= maxFiles s /\
  (forall f, f ∈ kept -> expired (now - maxAge s) (f_modTime f) = false /\
                       orphanTmp now (f_name f) (f_modTime f) = false) /\
  (forall n nd, dir s' !! n = Some nd -> dir s !! n = Some nd) /\
  (forall n, dir s !! n = Some DirNode -> dir s' !! n = Some DirNode).

(** Why a file is gone: too old, an orphan, or it and files no older than it
    were over a budget and every file that is left is younger. *)
Definition justified (s : Spool) (now : Time) (kept : list file) (n data : string) (m : Time) : Prop :=
  expired (now - maxAge s) m || orphanTmp now n m = true \/
  exists younger, over_budget s (mkFile n (size_of data) m :: younger) /\
    (forall f, f ∈ younger -> older f (mkFile n (size_of data) m) = false /\ holds_file (dir s) f) /\
    kept `suffix_of` younger.

Lemma sweeping_start s : sweeping s (entries (dir s)) [].
Proof.
  split; [apply listing_NoDup|]. split; [constructor|]. split.
  - apply Forall_forall. intros [n nd] H. by apply elem_of_entries in H.
  - intros n data m Hn. right. apply list_elem_of_fmap. exists (n, FileNode data m).
    split; [done|]. by apply elem_of_entries.
Qed.

Lemma is_listing_perm d l l' : l ≡ₚ l' -> is_listing d l -> is_listing d l'.
Proof.
  intros Hp (Hnd & Hh & Hall). assert (f_name <$> l ≡ₚ f_name <$> l') as Hn by by apply fmap_Permutation.
  split; [by rewrite <-Hn|]. split; [by rewrite <-Hp|].
  intros n data m Hd. rewrite <-Hn. by eapply Hall.
Qed.

Lemma holds_file_mono d d' f :
  (forall n nd, d' !! n = Some nd -> d !! n = Some nd) -> holds_file d' f -> holds_file d f.
Proof. intros H (data & Hd & Hs). exists data. split; [by apply H|done]. Qed.

Lemma listed d l n data m :
  is_listing d l -> d !! n = Some (FileNode data m) -> mkFile n (size_of data) m ∈ l.
Proof.
  intros (_ & Hh & Hall) Hn. pose proof (Hall _ _ _ Hn) as Hin.
  apply list_elem_of_fmap in Hin as ([n' sz m'] & -> & Hin). cbn in *.
  rewrite Forall_forall in Hh. destruct (Hh _ Hin) as (d' & Hd & Hs). cbn in *. by simplify_eq.
Qed.

Lemma length_entries d : length (entries d) = size d.
Proof. by rewrite listing_perm, length_map_to_list. Qed.

(** The eviction phase over the files the first loop kept. *)
Lemma evict_phase s1 kept :
  is_listing (dir s1) kept -> 0 <= maxBytes s1 -> 0 <= maxFiles s1 ->
  sizes kept <= maxInt64 -> Z.of_nat (length kept) <= maxInt64 ->
  exists s2 gone rest, sort_slice older kept = gone ++ rest /\ sort_slice older kept ≡ₚ kept /\
    evict_loop ∅ s1 (sort_slice older kept) (sizes kept) (Z.of_nat (length kept))
      = (s2, Some (sizes rest, Z.of_nat (length rest))) /\
    is_listing (dir s2) rest /\ sizes rest <= maxBytes s1 /\ Z.of_nat (length rest) <= maxFiles s1 /\
    (forall n, n ∉ f_name <$> gone -> dir s2 !! n = dir s1 !! n) /\
    (forall n, n ∈ f_name <$> gone -> dir s2 !! n = None) /\
    (forall g before after, gone = before ++ g :: after ->
       over_budget s1 (g :: after ++ rest) /\ forall f, f ∈ after ++ rest -> older f g = false).
Proof.
  intros L Hb Hf Hsum Hlen.
  destruct (sort_slice_sorted older (fun f => (f_modTime f, f_name f)) older_key kept) as [Hp Hord].
  assert (sizes (sort_slice older kept) = sizes kept) as Hs by by apply list_sum_perm.
  assert (length (sort_slice older kept) = length kept) as Hl by by rewrite Hp.
  destruct (evict_loop_spec (sort_slice older kept) s1)
    as (s2 & gone & rest & Happ & Ev & _ & L2 & M1 & M2 & D1 & D2 & O);
    [by eapply is_listing_perm|done|done|by rewrite Hs|by rewrite Hl|].
  rewrite Hs, Hl in Ev. exists s2, gone, rest. do 8 (split; [done|]).
  intros g before after Hg. split; [by apply (O g before)|]. intros f Hfin.
  rewrite Happ, Hg, <-app_assoc, StronglySorted_app in Hord. destruct Hord as (_ & _ & Hord).
  cbn in Hord. apply StronglySorted_inv in Hord as [_ Hall]. rewrite Forall_forall in Hall.
  exact (Hall f Hfin).
Qed.

(** C9. The spool stays within its bounds: a sweep the file system lets through
    leaves no payload past the maximum age, no orphaned temp file, and no more
    bytes or files than the budgets, which the counters then report; it changes no
    surviving file and touches no directory; and whatever else went, went oldest
    first and only because it and files no older than it were over a budget. *)
Theorem sweep_bounds (s : Spool) (now : Time) :
  0 <= maxBytes s -> 0 <= maxFiles s ->
  map_sum node_size (dir s) <= maxInt64 -> Z.of_nat (size (dir s)) <= maxInt64 ->
  exists s' kept, Sweep ∅ ∅ s now = (s', false) /\ swept s s' now kept /\
    forall n data m, dir s !! n = Some (FileNode data m) -> dir s' !! n = None ->
      justified s now kept n data m.
Proof.
  intros Hb Hf Hsum Hsz. unfold Sweep, Add. set (cutoff := now + - maxAge s).
  set (s0 := setCadence (prune (cadence s) cutoff) s).
  destruct (sweep_loop_spec cutoff now (entries (dir s)) s0 [] 0 (sweeping_start s) eq_refl ltac:(done))
    as (s1 & kept & E & (B1 & B2 & _) & L & Hpos & Hlen & Hstay & Hsub & Hgone).
  { rewrite entries_sizes. cbn. lia. }
  rewrite E, B1, B2. change (maxBytes s0) with (maxBytes s). change (maxFiles s0) with (maxFiles s).
  rewrite length_entries in Hlen. cbn [length] in Hlen.
  assert (forall f, f ∈ kept -> expired (now - maxAge s) (f_modTime f) = false /\
            orphanTmp now (f_name f) (f_modTime f) = false) as Hstay'.
  { intros f Hin. destruct (Hstay f Hin) as [H|H]; [by apply elem_of_nil in H|].
    apply orb_false_iff in H. exact H. }
  assert (forall n, dir s !! n = Some DirNode -> dir s1 !! n = Some DirNode) as Hdir.
  { intros n Hn. by destruct (Hgone n _ Hn). }
  destruct ((sizes kept <=? maxBytes s) && (Z.of_nat (length kept) <=? maxFiles s)) eqn:Efit.
  - apply andb_true_iff in Efit as [E1%Z.leb_le E2%Z.leb_le].
    eexists _, kept. split; [done|]. split; [by repeat (split; [done|])|].
    intros n data m Hn Hno. left. destruct (Hgone n _ Hn) as [H|H]; [cbn in Hno; congruence|exact H].
  - destruct (evict_phase s1 kept L) as (s2 & gone & rest & Happ & Hp & Ev & L2 & M1 & M2 & D1 & D2 & O);
      [by rewrite B1|by rewrite B2|lia|lia|].
    rewrite Ev. rewrite B1 in M1. rewrite B2 in M2. pose proof L as (_ & Hh & _). rewrite Forall_forall in Hh.
    assert (forall f, f ∈ gone \/ f ∈ rest -> f ∈ kept) as Hin by (intros f; by rewrite <-Hp, Happ, elem_of_app).
    assert (forall n nd, dir s2 !! n = Some nd -> dir s1 !! n = Some nd) as Hsub2.
    { intros n nd Hn. destruct (decide (n ∈ f_name <$> gone)) as [Hg|Hg]; [by rewrite D2 in Hn|by rewrite D1 in Hn]. }
    eexists _, rest. split; [done|]. split.
    { split; [done|]. cbn [recordSweep bytes files dir]. do 4 (split; [done|]). split; [auto|]. split; [auto|].
      intros n Hn%Hdir. rewrite D1; [done|]. intros (f & -> & Hfg)%list_elem_of_fmap.
      destruct (Hh f) as (d0 & Hd0 & _); [auto|]. congruence. }
    intros n data m Hn Hno. cbn [recordSweep dir] in Hno. destruct (Hgone n _ Hn) as [H1|H1]; [|left; exact H1].
    right. pose proof (listed _ _ _ _ _ L H1) as Hg. set (g := mkFile n (size_of data) m) in *.
    rewrite <-Hp, Happ, elem_of_app in Hg. destruct Hg as [Hg|Hr].
    2: { destruct L2 as (_ & Hh2 & _). rewrite Forall_forall in Hh2.
         destruct (Hh2 _ Hr) as (d0 & Hd0 & _). cbn in Hd0. congruence. }
    apply list_elem_of_split in Hg as (before & after & Hg). destruct (O g before after Hg) as [Ho Hy].
    exists (after ++ rest). split; [unfold over_budget in *; by rewrite B1, B2 in Ho|]. split; [|by exists after].
    intros f Hfin. split; [by apply Hy|]. eapply holds_file_mono; [exact Hsub|]. apply Hh, Hin.
    rewrite Hg, !elem_of_app, elem_of_cons. rewrite elem_of_app in Hfin. tauto.
Qed.

Definition demo_fs : fs :=
  <["a.json" := FileNode "aaaa" unixEpoch]> (<["b.json" := FileNode "bbbb" (unixEpoch + Minute)]>
  (<["c.json.tmp" := FileNode "c" (unixEpoch + Minute)]> {["old.json" := FileNode "o" (unixEpoch - 25 * Hour)]})).
Definition demo_spool : Spool :=
  mkSpool demo_fs (24 * Hour) 5 10 ∅ newKindCounts newKindCounts newKindCounts newReasonCounts 0 0
    (mkRecovered 0 0 0 0 0).

Lemma sweep_bounds_witness :
  exists s' kept, Sweep ∅ ∅ demo_spool (unixEpoch + 10 * Minute) = (s', false) /\
    swept demo_spool s' (unixEpoch + 10 * Minute) kept /\
    forall n data m, dir demo_spool !! n = Some (FileNode data m) -> dir s' !! n = None ->
      justified demo_spool (unixEpoch + 10 * Minute) kept n data m.
Proof.
  apply (sweep_bounds demo_spool (unixEpoch + 10 * Minute)); vm_compute; discriminate.
Defined.

Example demo_sweep :
  let s' := (Sweep ∅ ∅ demo_spool (unixEpoch + 10 * Minute)).1 in
  (entries (dir s')).*1 = ["b.json"%string] /\ bytes s' = 4 /\
  count_of EvictedBytes (evicted s') = 1 /\ count_of EvictedAge (evicted s') = 1 /\
  count_of EvictedOrphanTemp (evicted s') = 1.
Proof. vm_compute. repeat split. Qed.

(** C19. A write is all or nothing.  A kind without a registry row writes nothing
    and counts nothing.  Of a registered kind, a write either lands, and then the
    file holds exactly the rendered document and its newline; or is held back by
    the cadence, which only a change-triggered kind can be; or fails, and then the
    file under its name is what it was and the gate has forgotten nothing and
    learned nothing.  Exactly one counter of the kind moves, and nothing but the
    file and its temp file is ever touched. *)
Theorem write_all_or_nothing (sha256 : string -> string) (s : Spool) (kind nm : string)
    (payload : option string) (env : io) :
  let '(s', e) := write sha256 s kind nm payload env in
  (forall n, n <> nm -> n <> tmp_name nm -> dir s' !! n = dir s !! n) /\
  match Lookup kind with
  | None => s' = s /\ e = Some Unregistered
  | Some entry =>
      (e = None /\ plain_name nm = true /\
       (exists doc, payload = Some doc /\
          dir s' !! nm = Some (FileNode (doc +:+ String newline EmptyString) (landed_at env))) /\
       written_ s' = bump kind (written_ s) /\ writeFailures s' = writeFailures s /\ suppressed s' = suppressed s)
      \/
      (e = None /\ Trigger_ (Cadence_ entry) = TriggerChanged /\ dir s' = dir s /\ cadence s' = cadence s /\
       written_ s' = written_ s /\ writeFailures s' = writeFailures s /\ suppressed s' = bump kind (suppressed s))
      \/
      (is_Some e /\ dir s' !! nm = dir s !! nm /\ cadence s' = cadence s /\
       written_ s' = written_ s /\ writeFailures s' = bump kind (writeFailures s) /\ suppressed s' = suppressed s)
  end.
Proof.
  assert (nm <> tmp_name nm) as Htmp.
  { intros E. apply (f_equal String.length) in E. unfold tmp_name in E. rewrite string_app_length in E. cbn in E. lia. }
  unfold write. destruct (Lookup kind) as [entry|]; [|done].
  unfold encodePayload. destruct (plain_name nm) eqn:Epl; cbn [negb].
  2: { split; [done|]. right. right. by repeat (split; [done|]). }
  destruct payload as [doc|].
  2: { split; [done|]. right. right. by repeat (split; [done|]). }
  set (data := doc +:+ String newline EmptyString).
  destruct (due sha256 (cadence s) nm (Cadence_ entry) data (decided_at env)) as [f d] eqn:Ed.
  destruct d; cbn [negb].
  2: { split; [done|]. right. left. split; [done|]. split; [|done].
       unfold due in Ed. case_bool_decide as Ht; [by simplify_eq|]. exact Ht. }
  destruct (io_fault env) as [|[part|]|]; cbn [publish].
  - split.
    + intros n H1 H2. cbn. by rewrite lookup_insert_ne, lookup_delete_ne.
    + left. split; [done|]. split; [done|]. split; [|done]. exists doc. split; [done|]. apply lookup_insert_eq.
  - split; [intros n H1 H2; cbn; by rewrite lookup_insert_ne|]. right. right. split; [done|].
    split; [|done]. cbn. by rewrite lookup_insert_ne.
  - split; [done|]. right. right. by repeat (split; [done|]).
  - split; [intros n H1 H2; cbn; by rewrite lookup_insert_ne|]. right. right. split; [done|].
    split; [|done]. cbn. by rewrite lookup_insert_ne.
Qed.

Lemma cadence_Sweep raced stuck s now :
  cadence (Sweep raced stuck s now).1 = prune (cadence s) (now - maxAge s).
Proof.
  assert (forall cutoff es s kept total,
    cadence (sweep_loop raced stuck s cutoff now es kept total).1 = cadence s) as H1.
  { intros cutoff es. induction es as [|[nm [|data m]] es IH]; intros s0 kept total; cbn [sweep_loop]; [done|apply IH|].
    repeat (case_bool_decide || case_match); try done; unfold remove in *; case_bool_decide; simplify_eq;
      rewrite ?IH; done. }
  assert (forall kept s total count, cadence (evict_loop stuck s kept total count).1 = cadence s) as H2.
  { intros kept. induction kept as [|f kept IH]; intros s0 total count; cbn [evict_loop]; [done|].
    case_match; [done|]. unfold remove. case_bool_decide; [done|]. by rewrite IH. }
  unfold Sweep, Add. set (s0 := setCadence _ _).
  pose proof (H1 (now + - maxAge s) (entries (dir s)) s0 [] 0) as E.
  destruct (sweep_loop _ _ _ _ _ _ _ _) as [s1 [[kept total]|]]; cbn [fst] in *; [|exact E].
  case_match; [exact E|]. pose proof (H2 (sort_slice older kept) s1 total (Z.of_nat (length kept))) as E2.
  destruct (evict_loop _ _ _ _ _) as [s2 [[]|]]; cbn [fst] in *; exact (eq_trans E2 E).
Qed.

(** The gate does not know what the sweep evicted for space: when a
    change-triggered payload last written within the ceiling is offered again
    unchanged after a sweep, it is held back and stays out of the spool even if
    the sweep has just removed its file.  Only the age cutoff reaches the gate. *)
Theorem evicted_payload_held_back (sha256 : string -> string) (raced stuck : gset string) (s : Spool)
    (swept_at : Time) (kind nm doc : string) (entry : PayloadKind) (w : written) (env : io) :
  let s1 := (Sweep raced stuck s swept_at).1 in
  let data := doc +:+ String newline EmptyString in
  Lookup kind = Some entry -> Trigger_ (Cadence_ entry) = TriggerChanged -> plain_name nm = true ->
  cadence s !! nm = Some w -> fp w = sha256 (elided data) ->
  swept_at - maxAge s <= at_ w -> Sub (decided_at env) (at_ w) < Ceiling (Cadence_ entry) ->
  write sha256 s1 kind nm (Some doc) env = (countSuppressed kind s1, None).
Proof.
  intros s1 data HL Ht Hpl Hw Hfp Hcut Hceil. unfold write. rewrite HL. unfold encodePayload. rewrite Hpl.
  cbn [negb]. fold data. unfold s1 at 1. rewrite cadence_Sweep.
  unfold due. rewrite bool_decide_eq_false_2 by tauto. rewrite prune_lookup, Hw. unfold Before.
  rewrite (proj2 (Z.ltb_ge _ _) Hcut). rewrite (proj2 (Z.leb_gt _ _) Hceil).
  destruct (_ <? _); [done|]. unfold fingerprint. by rewrite bool_decide_eq_true_2.
Qed.

(** A spool that just wrote [node-metadata.json] and has no room for it. *)
Definition demo_full : Spool :=
  mkSpool {["node-metadata.json" := FileNode "nodes" unixEpoch]} (24 * Hour) 3 10
    {["node-metadata.json" := mkWritten unixEpoch (elided ("nodes" +:+ String newline EmptyString))]}
    newKindCounts newKindCounts newKindCounts newReasonCounts 0 0 (mkRecovered 0 0 0 0 0).

Lemma evicted_payload_held_back_witness :
  let s1 := (Sweep ∅ ∅ demo_full (unixEpoch + Minute)).1 in
  dir s1 !! "node-metadata.json"%string = None /\
  write id s1 "node_metadata" "node-metadata.json" (Some "nodes"%string)
    (mkIo (unixEpoch + 2 * Minute) (unixEpoch + 2 * Minute) NoFault)
  = (countSuppressed "node_metadata" s1, None).
Proof.
  split; [vm_compute; reflexivity|].
  apply (evicted_payload_held_back id ∅ ∅ demo_full (unixEpoch + Minute) "node_metadata" "node-metadata.json"
           "nodes" row_node_metadata
           (mkWritten unixEpoch (elided ("nodes" +:+ String newline EmptyString)))); try reflexivity;
    vm_compute; discriminate.
Defined.

(** ** What the counters are counted by *)

(** Everything that happens to a spool: a write, a sweep, what the startup read
    made of it, and another hand on its directory. *)
Inductive spool_op :=
| OWrite (kind nm : string) (payload : option string) (env : io)
| OSweep (raced stuck : gset string) (now : Time)
| ORecovered (r : Recovered)
| ODirectory (d : fs).
Definition spool_step (sha256 : string -> string) (s : Spool) (o : spool_op) : Spool :=
  match o with
  | OWrite kind nm payload env => (write sha256 s kind nm payload env).1
  | OSweep raced stuck now => (Sweep raced stuck s now).1
  | ORecovered r => countRecovery r s
  | ODirectory d => setDir d s
  end.
Definition spool_run (sha256 : string -> string) (ops : list spool_op) (s : Spool) : Spool := foldl (spool_step sha256) s ops.

(** Payloads are counted by the registered kinds, evictions by the four reasons. *)
Record counted (s : Spool) : Prop := {
  ct_written : dom (written_ s) ⊆ list_to_set (Kind <$> registry);
  ct_failures : dom (writeFailures s) ⊆ list_to_set (Kind <$> registry);
  ct_suppressed : dom (suppressed s) ⊆ list_to_set (Kind <$> registry);
  ct_evicted : dom (evicted s) ⊆ list_to_set EvictionReasons;
}.

Lemma bump_dom k m (K : gset string) : k ∈ K -> dom m ⊆ K -> dom (bump k m) ⊆ K.
Proof. intros Hk Hm. unfold bump. rewrite dom_insert. set_solver. Qed.

Lemma counted_new d age : counted (NewSpool d age).
Proof. split; cbn [NewSpool written_ writeFailures suppressed evicted]; apply (bool_decide_unpack _); vm_compute; exact I. Qed.

Lemma counted_eviction reason s : reason ∈ EvictionReasons -> counted s -> counted (countEviction reason s).
Proof. intros Hr [? ? ? ?]. split; try done. apply (bump_dom reason); [by rewrite elem_of_list_to_set|done]. Qed.
Lemma counted_remove stuck nm s s' : remove stuck nm s = Some s' -> counted s -> counted s'.
Proof. unfold remove. case_bool_decide; [done|]. intros [= <-] [? ? ? ?]. by split. Qed.

Lemma counted_write sha256 s kind nm payload env : counted s -> counted (write sha256 s kind nm payload env).1.
Proof.
  intros Hs. pose proof Hs as [H1 H2 H3 H4]. unfold write. destruct (Lookup kind) as [entry|] eqn:Hl; [|done].
  assert (Hk : kind ∈ (list_to_set (Kind <$> registry) : gset string)).
  { apply elem_of_list_to_set. apply lookup_in_Some in Hl as [Hin <-]; [by apply list_elem_of_fmap_2|].
    apply (bool_decide_unpack _). vm_compute. exact I. }
  destruct (encodePayload _ _) as [data|e]; [|by split; try done; apply bump_dom].
  destruct (due _ _ _ _ _ _) as [f d]. destruct d; cbn [negb]; [|by split; try done; apply bump_dom].
  destruct (publish _ _ _ _ _) as [fs' [e|]]; by split; try done; apply bump_dom.
Qed.

Lemma counted_sweep_loop raced stuck cutoff now es s kept total :
  counted s -> counted (sweep_loop raced stuck s cutoff now es kept total).1.
Proof.
  revert s kept total. induction es as [|[nm [|data m]] es IH]; intros s kept total Hs; cbn; [done|by apply IH|].
  case_bool_decide; [by apply IH|]. destruct (_ || _); [|by apply IH].
  destruct (remove stuck nm s) as [s'|] eqn:Hr; [|done]. apply IH, counted_eviction; [destruct (expired _ _); set_solver|].
  by eapply counted_remove.
Qed.
Lemma counted_evict_loop stuck s kept total count : counted s -> counted (evict_loop stuck s kept total count).1.
Proof.
  revert s total count. induction kept as [|f kept IH]; intros s total count Hs; cbn; [done|]. destruct (_ && _); [done|].
  destruct (remove stuck _ s) as [s'|] eqn:Hr; [|done]. apply IH, counted_eviction; [destruct (_ <? _); set_solver|].
  by eapply counted_remove.
Qed.

Lemma counted_sweep raced stuck s now : counted s -> counted (Sweep raced stuck s now).1.
Proof.
  intros Hs. unfold Sweep. set (s0 := setCadence _ _). assert (H0 : counted s0) by (destruct Hs; by split).
  pose proof (counted_sweep_loop raced stuck (Add now (- maxAge s)) now (entries (dir s)) s0 [] 0 H0) as H1.
  destruct (sweep_loop _ _ _ _ _ _ _ _) as [s1 [[kept total]|]]; cbn [fst] in H1; [|done].
  destruct (_ && _); [destruct H1; by split|].
  pose proof (counted_evict_loop stuck s1 (sort_slice older kept) total (Z.of_nat (length kept)) H1) as H2.
  destruct (evict_loop _ _ _ _ _) as [s2 [[? ?]|]]; cbn [fst] in *; [|done]. destruct H2; by split.
Qed.

Lemma counted_run sha256 ops s : counted s -> counted (spool_run sha256 ops s).
Proof.
  revert s. induction ops as [|o ops IH]; intros s Hs; [done|]. cbn. apply IH.
  destruct o; cbn [spool_step]; [by apply counted_write|by apply counted_sweep|destruct Hs; by split..].
Qed.
