(* ===== verification/Recover.v ===== *)
(** What survives a restart: payloads grouped by window and written one file per
    window ([internal/sink/spool.go]), and the startup read that finds the open
    ones again ([recover.go]).

    Rendering and decoding JSON is [encoding/json]'s work on structs of several
    packages; here an [encode] gives the document of a window and a [decode] reads
    one, and what a theorem needs of the pair it says. *)

From stdpp Require Import prelude gmap strings sorting.
From Stdlib Require Import ZArith Lia.
From S2P Require Import Prelude GoTime GoStrings Registry Cadence FileNames Spool.
From S2P Require UsageRecord Restarts Disruptions NodeEvents JobRuns Goroutines States Counters.
Local Open Scope Z_scope.

Definition kindUsageSnapshot : string := "usage_snapshot".
Definition kindContainerRestarts : string := "container_restarts".
Definition kindPodDisruptions : string := "pod_disruptions".
Definition kindNodeLifecycle : string := "node_lifecycle".
Definition kindJobRuns : string := "job_runs".
Definition kindGoroutineCounts : string := "goroutine_counts".
Definition kindAgentStates : string := "agent_states".
Definition kindAgentCounters : string := "agent_counters".

(** ** Writing by window *)

Section group.
Context {R : Type} (windowOf : R -> windowKey).

(** [grouped[k] = append(grouped[k], r)] *)
Definition group_by_window (rs : list R) : gmap windowKey (list R) :=
  foldl (fun m r => <[windowOf r := default [] (m !! windowOf r) ++ [r]]> m) ∅ rs.

Context (sha256 : string -> string).

(** The loop over the groups, in whatever order the map yields them; the first
    error ends it. *)
Fixpoint write_groups (s : Spool) (kind : string) (nm : windowKey -> string)
    (encode : windowKey -> list R -> option string) (env : string -> io)
    (groups : list (windowKey * list R)) : Spool * option write_error :=
  match groups with
  | [] => (s, None)
  | (k, group) :: groups =>
      match write sha256 s kind (nm k) (encode k group) (env (nm k)) with
      | (s, Some e) => (s, Some e)
      | (s, None) => write_groups s kind nm encode env groups
      end
  end.

Definition write_windows (s : Spool) (kind : string) (nm : windowKey -> string)
    (encode : windowKey -> list R -> option string) (env : string -> io) (rs : list R)
    : Spool * option write_error :=
  write_groups s kind nm encode env (map_to_list (group_by_window rs)).
End group.

Section writers.
Context (sha256 : string -> string).

Definition WriteContainerRestarts (s : Spool) encode env (rs : list Restarts.RestartRecord) :=
  write_windows (fun r => mkWindowKey (Restarts.WindowStart r) (Restarts.WindowSeconds r)) sha256 s
    kindContainerRestarts (journalWindowName restartsNamePrefix) encode env rs.
Definition WritePodDisruptions (s : Spool) encode env (rs : list Disruptions.DisruptionRecord) :=
  write_windows (fun r => mkWindowKey (Disruptions.WindowStart r) (Disruptions.WindowSeconds r)) sha256 s
    kindPodDisruptions (journalWindowName disruptionsNamePrefix) encode env rs.
Definition WriteNodeLifecycle (s : Spool) encode env (rs : list NodeEvents.NodeEventRecord) :=
  write_windows (fun r => mkWindowKey (NodeEvents.WindowStart r) (NodeEvents.WindowSeconds r)) sha256 s
    kindNodeLifecycle (journalWindowName nodeLifecycleNamePrefix) encode env rs.
Definition WriteJobRuns (s : Spool) encode env (rs : list JobRuns.JobRunRecord) :=
  write_windows (fun r => mkWindowKey (JobRuns.WindowStart r) (JobRuns.WindowSeconds r)) sha256 s
    kindJobRuns (journalWindowName jobRunsNamePrefix) encode env rs.
Definition WriteGoroutineCounts (s : Spool) encode env (rs : list Goroutines.GoroutineRecord) :=
  write_windows (fun r => mkWindowKey (Goroutines.WindowStart r) (Goroutines.WindowSeconds r)) sha256 s
    kindGoroutineCounts (journalWindowName goroutineCountsNamePrefix) encode env rs.
Definition WriteAgentStates (s : Spool) encode env (rs : list States.StateRecord) :=
  write_windows (fun r => mkWindowKey (States.WindowStart r) (States.WindowSeconds r)) sha256 s
    kindAgentStates (journalWindowName agentStatesNamePrefix) encode env rs.
Definition WriteAgentCounters (s : Spool) encode env (rs : list Counters.CounterRecord) :=
  write_windows (fun r => mkWindowKey (Counters.WindowStart r) (Counters.WindowSeconds r)) sha256 s
    kindAgentCounters (journalWindowName agentCountersNamePrefix) encode env rs.

Definition usage_window (r : UsageRecord.Record_) : windowKey :=
  mkWindowKey (UsageRecord.WindowStart r) (UsageRecord.WindowSeconds r).

Definition WriteUsageSnapshot (s : Spool) encode env (rs : list UsageRecord.Record_) :=
  write_windows usage_window sha256 s kindUsageSnapshot (fun k => name k +:+ usageSnapshotSuffix) encode env rs.

(** Each closed window is written and its snapshot removed. *)
Fixpoint close_groups (s : Spool) (encode : windowKey -> list UsageRecord.Record_ -> option string)
    (env : string -> io) (stuck : gset string) (groups : list (windowKey * list UsageRecord.Record_))
    : Spool * option (option write_error) :=
  match groups with
  | [] => (s, None)
  | (k, group) :: groups =>
      match write sha256 s "usage_window" (name k +:+ ".json") (encode k group) (env (name k +:+ ".json")) with
      | (s, Some e) => (s, Some (Some e))
      | (s, None) =>
          match remove stuck (name k +:+ usageSnapshotSuffix) s with
          | None => (s, Some None)
          | Some s => close_groups s encode env stuck groups
          end
      end
  end.

Definition WriteClosedWindows (s : Spool) encode env stuck (rs : list UsageRecord.Record_) :=
  close_groups s encode env stuck (map_to_list (group_by_window usage_window rs)).
End writers.

(** ** The startup read *)

Definition maxRecoveryBytes : Z := Z.shiftl 64 20.

Inductive recover_error := NotReadable | TooLarge | Undecodable | WrongKind | WrongWindow | ForeignRecord.

Record journalWindow (R : Type) := mkJournalWindow {
  jw_kind : string;
  jw_start : Time;
  jw_seconds : Z;
  jw_records : list R;
}.
Arguments mkJournalWindow {R}. Arguments jw_kind {R}. Arguments jw_start {R}.
Arguments jw_seconds {R}. Arguments jw_records {R}.

Definition readRecoverable (d : fs) (nm : string) : result recover_error string :=
  match d !! nm with
  | Some (FileNode data _) => if maxRecoveryBytes <? size_of data then Err TooLarge else Ok data
  | _ => Err NotReadable
  end.

(** The envelope's checks, and that every record belongs to the window;
    [windowOf] is [None] for a null record. *)
Definition read_window {R} (d : fs) (nm kind : string) (k : windowKey)
    (decode : string -> option (journalWindow R)) (windowOf : R -> option windowKey)
    : result recover_error (list R) :=
  match readRecoverable d nm with
  | Err e => Err e
  | Ok raw =>
      match decode raw with
      | None => Err Undecodable
      | Some p =>
          if negb (bool_decide (jw_kind p = kind)) then Err WrongKind
          else if negb ((jw_start p =? start k) && (jw_seconds p =? seconds k)) then Err WrongWindow
          else if forallb (fun r => bool_decide (windowOf r = Some k)) (jw_records p)
               then Ok (jw_records p) else Err ForeignRecord
      end
  end.

Definition readJournalWindow {R} (d : fs) (nm kind : string) (k : windowKey)
    (decode : string -> option (journalWindow R)) (windowOf : R -> windowKey) : result recover_error (list R) :=
  read_window d nm kind k decode (fun r => Some (windowOf r)).

Definition readUsageSnapshot (d : fs) (nm : string) (k : windowKey)
    (decode : string -> option (journalWindow (option UsageRecord.Record_)))
    : result recover_error (list (option UsageRecord.Record_)) :=
  read_window d nm kindUsageSnapshot k decode (fun r => usage_window <$> r).

(** [None]: not a window still open; otherwise its records or an error. *)
Definition resumeInto {R} (d : fs) (nm prefix kind : string) (now : Time)
    (decode : string -> option (journalWindow R)) (windowOf : R -> windowKey)
    : option (result recover_error (list R)) :=
  match parseWindowName (TrimSuffix nm ".json") prefix with
  | None => None
  | Some k => if After (end_ k) now then Some (readJournalWindow d nm kind k decode windowOf) else None
  end.

Record decoders := mkDecoders {
  dec_usage : string -> option (journalWindow (option UsageRecord.Record_));
  dec_restarts : string -> option (journalWindow Restarts.RestartRecord);
  dec_disruptions : string -> option (journalWindow Disruptions.DisruptionRecord);
  dec_nodes : string -> option (journalWindow NodeEvents.NodeEventRecord);
  dec_jobs : string -> option (journalWindow JobRuns.JobRunRecord);
  dec_goroutines : string -> option (journalWindow Goroutines.GoroutineRecord);
  dec_states : string -> option (journalWindow States.StateRecord);
  dec_counters : string -> option (journalWindow Counters.CounterRecord);
}.

Record Recovery := mkRecovery {
  Records : list UsageRecord.Record_;
  Windows : Z;
  Skipped : list (string * recover_error);
  rRestarts : list Restarts.RestartRecord;
  rDisruptions : list Disruptions.DisruptionRecord;
  rNodeEvents : list NodeEvents.NodeEventRecord;
  rJobRuns : list JobRuns.JobRunRecord;
  rGoroutineCounts : list Goroutines.GoroutineRecord;
  rAgentStates : list States.StateRecord;
  rAgentCounters : list Counters.CounterRecord;
  JournalWindows : Z;
}.

(** Appending to one of the lists. *)
Definition add_Restarts (rs : list Restarts.RestartRecord) (r : Recovery) : Recovery :=
  mkRecovery (Records r) (Windows r) (Skipped r) (rRestarts r ++ rs) (rDisruptions r)
    (rNodeEvents r) (rJobRuns r) (rGoroutineCounts r) (rAgentStates r) (rAgentCounters r)
    (JournalWindows r).
Definition add_Disruptions (rs : list Disruptions.DisruptionRecord) (r : Recovery) : Recovery :=
  mkRecovery (Records r) (Windows r) (Skipped r) (rRestarts r) (rDisruptions r ++ rs)
    (rNodeEvents r) (rJobRuns r) (rGoroutineCounts r) (rAgentStates r) (rAgentCounters r)
    (JournalWindows r).
Definition add_NodeEvents (rs : list NodeEvents.NodeEventRecord) (r : Recovery) : Recovery :=
  mkRecovery (Records r) (Windows r) (Skipped r) (rRestarts r) (rDisruptions r) (rNodeEvents
    r ++ rs) (rJobRuns r) (rGoroutineCounts r) (rAgentStates r) (rAgentCounters r)
    (JournalWindows r).
Definition add_JobRuns (rs : list JobRuns.JobRunRecord) (r : Recovery) : Recovery :=
  mkRecovery (Records r) (Windows r) (Skipped r) (rRestarts r) (rDisruptions r) (rNodeEvents
    r) (rJobRuns r ++ rs) (rGoroutineCounts r) (rAgentStates r) (rAgentCounters r)
    (JournalWindows r).
Definition add_GoroutineCounts (rs : list Goroutines.GoroutineRecord) (r : Recovery) : Recovery :=
  mkRecovery (Records r) (Windows r) (Skipped r) (rRestarts r) (rDisruptions r) (rNodeEvents
    r) (rJobRuns r) (rGoroutineCounts r ++ rs) (rAgentStates r) (rAgentCounters r)
    (JournalWindows r).
Definition add_AgentStates (rs : list States.StateRecord) (r : Recovery) : Recovery :=
  mkRecovery (Records r) (Windows r) (Skipped r) (rRestarts r) (rDisruptions r) (rNodeEvents
    r) (rJobRuns r) (rGoroutineCounts r) (rAgentStates r ++ rs) (rAgentCounters r)
    (JournalWindows r).
Definition add_AgentCounters (rs : list Counters.CounterRecord) (r : Recovery) : Recovery :=
  mkRecovery (Records r) (Windows r) (Skipped r) (rRestarts r) (rDisruptions r) (rNodeEvents
    r) (rJobRuns r) (rGoroutineCounts r) (rAgentStates r) (rAgentCounters r ++ rs)
    (JournalWindows r).
Definition addUsage (rs : list UsageRecord.Record_) (r : Recovery) : Recovery :=
  mkRecovery (Records r ++ rs) (Windows r + 1) (Skipped r) (rRestarts r) (rDisruptions r) (rNodeEvents r)
    (rJobRuns r) (rGoroutineCounts r) (rAgentStates r) (rAgentCounters r) (JournalWindows r).
Definition addSkipped (nm : string) (e : recover_error) (r : Recovery) : Recovery :=
  mkRecovery (Records r) (Windows r) (Skipped r ++ [(nm, e)]) (rRestarts r) (rDisruptions r) (rNodeEvents r)
    (rJobRuns r) (rGoroutineCounts r) (rAgentStates r) (rAgentCounters r) (JournalWindows r).
Definition incJournalWindows (r : Recovery) : Recovery :=
  mkRecovery (Records r) (Windows r) (Skipped r) (rRestarts r) (rDisruptions r) (rNodeEvents r)
    (rJobRuns r) (rGoroutineCounts r) (rAgentStates r) (rAgentCounters r) (JournalWindows r + 1).

Definition no_recovery : Recovery := mkRecovery [] 0 [] [] [] [] [] [] [] [] 0.

(** The second switch of [recoverJournals]: an error is noted, a window counted. *)
Definition took {R} (nm : string) (out : option (result recover_error (list R)))
    (add : list R -> Recovery -> Recovery) (rec : Recovery) : Recovery :=
  match out with
  | None => rec
  | Some (Err e) => addSkipped nm e rec
  | Some (Ok rs) => incJournalWindows (add rs rec)
  end.

Section recover.
Context (dec : decoders).

(** One entry of [recoverJournals]: the first prefix that matches decides. *)
Definition recover_entry (d : fs) (now : Time) (rec : Recovery) (e : string * node) : Recovery :=
  let nm := e.1 in
  match e.2 with
  | DirNode => rec
  | FileNode _ _ =>
      if negb (HasSuffix nm ".json") then rec
      else if HasPrefix nm restartsNamePrefix then
        took nm (resumeInto d nm restartsNamePrefix kindContainerRestarts now (dec_restarts dec)
                   (fun r => mkWindowKey (Restarts.WindowStart r) (Restarts.WindowSeconds r))) add_Restarts rec
      else if HasPrefix nm disruptionsNamePrefix then
        took nm (resumeInto d nm disruptionsNamePrefix kindPodDisruptions now (dec_disruptions dec)
                   (fun r => mkWindowKey (Disruptions.WindowStart r) (Disruptions.WindowSeconds r))) add_Disruptions rec
      else if HasPrefix nm nodeLifecycleNamePrefix then
        took nm (resumeInto d nm nodeLifecycleNamePrefix kindNodeLifecycle now (dec_nodes dec)
                   (fun r => mkWindowKey (NodeEvents.WindowStart r) (NodeEvents.WindowSeconds r))) add_NodeEvents rec
      else if HasPrefix nm jobRunsNamePrefix then
        took nm (resumeInto d nm jobRunsNamePrefix kindJobRuns now (dec_jobs dec)
                   (fun r => mkWindowKey (JobRuns.WindowStart r) (JobRuns.WindowSeconds r))) add_JobRuns rec
      else if HasPrefix nm goroutineCountsNamePrefix then
        took nm (resumeInto d nm goroutineCountsNamePrefix kindGoroutineCounts now (dec_goroutines dec)
                   (fun r => mkWindowKey (Goroutines.WindowStart r) (Goroutines.WindowSeconds r))) add_GoroutineCounts rec
      else if HasPrefix nm agentStatesNamePrefix then
        took nm (resumeInto d nm agentStatesNamePrefix kindAgentStates now (dec_states dec)
                   (fun r => mkWindowKey (States.WindowStart r) (States.WindowSeconds r))) add_AgentStates rec
      else if HasPrefix nm agentCountersNamePrefix then
        took nm (resumeInto d nm agentCountersNamePrefix kindAgentCounters now (dec_counters dec)
                   (fun r => mkWindowKey (Counters.WindowStart r) (Counters.WindowSeconds r))) add_AgentCounters rec
      else rec
  end.

Definition recoverJournals (d : fs) (now : Time) (es : list (string * node)) (rec : Recovery) : Recovery :=
  foldl (recover_entry d now) rec es.

(** One entry of the usage loop: an open window with no closed record. *)
Definition recover_usage (d : fs) (now : Time) (rec : Recovery) (e : string * node) : Recovery :=
  let nm := e.1 in
  match e.2 with
  | DirNode => rec
  | FileNode _ _ =>
      if negb (HasSuffix nm usageSnapshotSuffix) then rec
      else
        match parseWindowName (TrimSuffix nm usageSnapshotSuffix) usageNamePrefix with
        | None => rec
        | Some k =>
            if negb (After (end_ k) now) then rec
            else if bool_decide (is_Some (d !! (name k +:+ ".json"))) then rec
            else match readUsageSnapshot d nm k (dec_usage dec) with
                 | Err e => addSkipped nm e rec
                 | Ok rs => addUsage (omap id rs) rec
                 end
        end
  end.

Definition RecoverOpenWindows (s : Spool) (now : Time) : Recovery * Spool :=
  let es := entries (dir s) in
  let rec := foldl (recover_usage (dir s) now) no_recovery es in
  let rec := recoverJournals (dir s) now es rec in
  let journalRecords := Z.of_nat (length (rRestarts rec) + length (rDisruptions rec)
    + length (rNodeEvents rec) + length (rJobRuns rec) + length (rGoroutineCounts rec)
    + length (rAgentStates rec) + length (rAgentCounters rec)) in
  (rec, countRecovery (mkRecovered (Windows rec) (Z.of_nat (length (Records rec)))
                         (Z.of_nat (length (Skipped rec))) (JournalWindows rec) journalRecords) s).
End recover.

(** ** What the startup read adopts *)

Definition open_at (now : Time) (k : windowKey) : Prop := now < end_ k.

Definition restart_window (r : Restarts.RestartRecord) := mkWindowKey (Restarts.WindowStart r) (Restarts.WindowSeconds r).
Definition disruption_window (r : Disruptions.DisruptionRecord) := mkWindowKey (Disruptions.WindowStart r) (Disruptions.WindowSeconds r).
Definition node_window (r : NodeEvents.NodeEventRecord) := mkWindowKey (NodeEvents.WindowStart r) (NodeEvents.WindowSeconds r).
Definition job_window (r : JobRuns.JobRunRecord) := mkWindowKey (JobRuns.WindowStart r) (JobRuns.WindowSeconds r).
Definition goroutine_window (r : Goroutines.GoroutineRecord) := mkWindowKey (Goroutines.WindowStart r) (Goroutines.WindowSeconds r).
Definition state_window (r : States.StateRecord) := mkWindowKey (States.WindowStart r) (States.WindowSeconds r).
Definition counter_window (r : Counters.CounterRecord) := mkWindowKey (Counters.WindowStart r) (Counters.WindowSeconds r).

Definition all_open (now : Time) (rec : Recovery) : Prop :=
  Forall (fun r => open_at now (usage_window r)) (Records rec) /\
  Forall (fun r => open_at now (restart_window r)) (rRestarts rec) /\
  Forall (fun r => open_at now (disruption_window r)) (rDisruptions rec) /\
  Forall (fun r => open_at now (node_window r)) (rNodeEvents rec) /\
  Forall (fun r => open_at now (job_window r)) (rJobRuns rec) /\
  Forall (fun r => open_at now (goroutine_window r)) (rGoroutineCounts rec) /\
  Forall (fun r => open_at now (state_window r)) (rAgentStates rec) /\
  Forall (fun r => open_at now (counter_window r)) (rAgentCounters rec).

Lemma read_window_ok {R} d nm kind k decode (windowOf : R -> option windowKey) rs :
  read_window d nm kind k decode windowOf = Ok rs ->
  Forall (fun r => windowOf r = Some k) rs /\
  exists data m p, d !! nm = Some (FileNode data m) /\ size_of data <= maxRecoveryBytes /\
    decode data = Some p /\ jw_kind p = kind /\ jw_start p = start k /\ jw_seconds p = seconds k /\ jw_records p = rs.
Proof.
  unfold read_window, readRecoverable. destruct (d !! nm) as [[|data m]|]; [done| |done].
  destruct (Z.ltb_spec maxRecoveryBytes (size_of data)) as [|Hsz]; [done|].
  destruct (decode data) as [p|] eqn:Ed; [|done].
  case_bool_decide as Hk; cbn [negb]; [|done].
  destruct (Z.eqb_spec (jw_start p) (start k)) as [Hs|]; [|done].
  destruct (Z.eqb_spec (jw_seconds p) (seconds k)) as [Hl|]; [|done]. cbn [andb negb].
  destruct (forallb _ _) eqn:Ef; [|done]. intros [= <-]. split.
  - apply Forall_forall. intros r Hr. rewrite forallb_forall in Ef.
    apply list_elem_of_In, Ef in Hr. by apply bool_decide_eq_true in Hr.
  - by exists data, m, p.
Qed.

Lemma resumeInto_open {R} d nm prefix kind now decode (windowOf : R -> windowKey) rs :
  resumeInto d nm prefix kind now decode windowOf = Some (Ok rs) ->
  Forall (fun r => open_at now (windowOf r)) rs.
Proof.
  unfold resumeInto, readJournalWindow. destruct (parseWindowName _ _) as [k|]; [|done].
  unfold After. destruct (Z.ltb_spec now (end_ k)) as [Ho|]; [|done].
  intros [= Hr]. apply read_window_ok in Hr as [Hr _]. eapply Forall_impl; [exact Hr|].
  intros r [= <-]. exact Ho.
Qed.

Lemma took_open {R} now nm (out : option (result recover_error (list R))) (P : R -> Prop)
    (add : list R -> Recovery -> Recovery) rec :
  (forall rs, out = Some (Ok rs) -> Forall P rs) ->
  (forall rs, Forall P rs -> all_open now (add rs rec)) ->
  all_open now rec -> all_open now (took nm out add rec).
Proof.
  intros Hout Hadd Hrec. destruct out as [[rs|e]|]; cbn; [|exact Hrec|exact Hrec].
  exact (Hadd rs (Hout rs eq_refl)).
Qed.

Ltac absorb :=
  intros rs Hrs; unfold all_open in *; cbn; rewrite ?Forall_app; tauto.

Lemma recover_entry_open dec d now rec e : all_open now rec -> all_open now (recover_entry dec d now rec e).
Proof.
  intros Hrec. unfold recover_entry. destruct e as [nm [|data m]]; cbn [fst snd]; [done|].
  repeat match goal with
  | |- all_open _ (if ?b then _ else _) => destruct b
  end; try exact Hrec;
  (eapply took_open; [intros rs; apply resumeInto_open|absorb|exact Hrec]).
Qed.

Lemma recover_usage_open dec d now rec e : all_open now rec -> all_open now (recover_usage dec d now rec e).
Proof.
  intros Hrec. unfold recover_usage. destruct e as [nm [|data m]]; cbn [fst snd]; [done|].
  destruct (HasSuffix nm usageSnapshotSuffix); cbn [negb]; [|done].
  destruct (parseWindowName _ _) as [k|]; [|done].
  unfold After. destruct (Z.ltb_spec now (end_ k)) as [Ho|]; cbn [negb]; [|done].
  case_bool_decide; [done|]. destruct (readUsageSnapshot d nm k (dec_usage dec)) as [rs|e] eqn:Er; [|exact Hrec].
  apply read_window_ok in Er as [Hrs _]. unfold all_open in *. cbn. rewrite Forall_app.
  assert (Forall (fun r => open_at now (usage_window r)) (omap id rs)); [|tauto].
  apply Forall_forall. intros r (o & Hin & Ho')%list_elem_of_omap. cbn in Ho'. subst o.
  rewrite Forall_forall in Hrs. specialize (Hrs _ Hin). cbn in Hrs. by simplify_eq.
Qed.

Lemma fold_keeps (P : Recovery -> Prop) (step : Recovery -> string * node -> Recovery) es rec :
  (forall rec e, P rec -> P (step rec e)) -> P rec -> P (foldl step rec es).
Proof. intros Hs. revert rec. induction es as [|e es IH]; intros rec Hr; [done|]. cbn. by apply IH, Hs. Qed.

(** No usage record of a window that has its closed record. *)
Definition none_closed (d : fs) (rec : Recovery) : Prop :=
  Forall (fun r => d !! (name (usage_window r) +:+ ".json") = None) (Records rec).

Lemma recover_usage_closed dec d now rec e : none_closed d rec -> none_closed d (recover_usage dec d now rec e).
Proof.
  intros Hrec. unfold recover_usage. destruct e as [nm [|data m]]; cbn [fst snd]; [done|].
  destruct (negb (HasSuffix nm usageSnapshotSuffix)); [done|].
  destruct (parseWindowName _ _) as [k|]; [|done]. destruct (negb (After (end_ k) now)); [done|].
  case_bool_decide as Hc; [done|]. destruct (readUsageSnapshot d nm k (dec_usage dec)) as [rs|e] eqn:Er; [|exact Hrec].
  apply read_window_ok in Er as [Hrs _]. unfold none_closed in *. cbn. rewrite Forall_app. split; [done|].
  apply Forall_forall. intros r (o & Hin & Ho)%list_elem_of_omap. cbn in Ho. subst o.
  rewrite Forall_forall in Hrs. specialize (Hrs _ Hin). cbn in Hrs. simplify_eq. by apply eq_None_not_Some.
Qed.

Lemma took_Records {R} nm (out : option (result recover_error (list R))) add rec :
  (forall rs rec, Records (add rs rec) = Records rec) -> Records (took nm out add rec) = Records rec.
Proof. intros Hadd. destruct out as [[rs|e]|]; cbn; [apply Hadd|done|done]. Qed.

Lemma recover_entry_Records dec d now rec e : Records (recover_entry dec d now rec e) = Records rec.
Proof.
  unfold recover_entry. destruct e as [nm [|data m]]; cbn [fst snd]; [done|].
  repeat match goal with |- Records (if ?b then _ else _) = _ => destruct b end; try done;
    by apply took_Records.
Qed.

(** ** Windows on disk *)

Section groups.
Context {R : Type} (windowOf : R -> windowKey).

Lemma group_lookup rs k :
  group_by_window windowOf rs !! k =
    match filter (fun r => windowOf r = k) rs with [] => None | l => Some l end.
Proof.
  unfold group_by_window. induction rs as [|r rs IH] using rev_ind; [done|].
  rewrite foldl_app, filter_app, filter_cons, filter_nil. cbn [foldl].
  destruct (decide (windowOf r = k)) as [<-|Hne].
  - rewrite lookup_insert_eq, IH. destruct (filter _ rs); done.
  - by rewrite lookup_insert_ne, app_nil_r by done.
Qed.

Lemma group_member rs k g r :
  group_by_window windowOf rs !! k = Some g -> r ∈ g <-> r ∈ rs /\ windowOf r = k.
Proof.
  rewrite group_lookup. pose proof (list_elem_of_filter (fun r => windowOf r = k) rs r) as H.
  destruct (filter _ rs); [done|]. intros [= <-]. rewrite H. tauto.
Qed.

Lemma group_has rs r : r ∈ rs -> is_Some (group_by_window windowOf rs !! windowOf r).
Proof.
  intros Hr. rewrite group_lookup. destruct (filter _ rs) eqn:E; [|done].
  by apply (filter_nil_not_elem_of _ _ r E) in Hr.
Qed.

Context (sha256 : string -> string).

(** One write of a kind that is never held back, on a day without faults. *)
Lemma write_lands s kind nm doc entry env :
  Lookup kind = Some entry -> Trigger_ (Cadence_ entry) <> TriggerChanged -> plain_name nm = true ->
  io_fault env = NoFault ->
  exists s', write sha256 s kind nm (Some doc) env = (s', None) /\
    dir s' = <[nm := FileNode (doc +:+ String newline EmptyString) (landed_at env)]> (delete (tmp_name nm) (dir s)).
Proof.
  intros HL Ht Hpl Hf. unfold write. rewrite HL. unfold encodePayload. rewrite Hpl. cbn [negb].
  unfold due. rewrite bool_decide_eq_true_2 by done. cbn [negb]. rewrite Hf. cbn [publish]. by eexists.
Qed.

Lemma write_groups_lands s kind nm (encode : windowKey -> list R -> option string) entry env groups :
  Lookup kind = Some entry -> Trigger_ (Cadence_ entry) <> TriggerChanged ->
  (forall n, io_fault (env n) = NoFault) ->
  NoDup (nm <$> groups.*1) ->
  (forall k k', k ∈ groups.*1 -> k' ∈ groups.*1 -> nm k <> tmp_name (nm k')) ->
  (forall k g, (k, g) ∈ groups -> plain_name (nm k) = true /\ is_Some (encode k g)) ->
  exists s', write_groups sha256 s kind nm encode env groups = (s', None) /\
    (forall k g, (k, g) ∈ groups -> exists doc, encode k g = Some doc /\
       dir s' !! nm k = Some (FileNode (doc +:+ String newline EmptyString) (landed_at (env (nm k))))) /\
    (forall n, n ∉ nm <$> groups.*1 -> n ∉ (tmp_name ∘ nm) <$> groups.*1 -> dir s' !! n = dir s !! n).
Proof.
  intros HL Ht Hf. revert s. induction groups as [|[k g] groups IH]; intros s Hnd Htmp Henc.
  { exists s. split; [done|]. split; [by intros k g ?%elem_of_nil|done]. }
  rewrite !fmap_cons in Hnd. apply NoDup_cons in Hnd as [Hk Hnd]. cbn [fst] in Hk.
  destruct (Henc k g (list_elem_of_here _ _)) as [Hpl [doc Hdoc]].
  destruct (write_lands s kind (nm k) doc entry (env (nm k)) HL Ht Hpl (Hf _)) as (s1 & E1 & Hd1).
  destruct (IH s1 Hnd) as (s2 & E2 & Hin & Hout).
  { intros k1 k2 H1 H2. apply Htmp; rewrite fmap_cons; by apply list_elem_of_further. }
  { intros k1 g1 H1. apply Henc. by apply list_elem_of_further. }
  exists s2. cbn [write_groups]. rewrite Hdoc, E1. split; [done|]. split.
  - intros k1 g1 [[= -> ->]|H1]%elem_of_cons; [|by apply Hin].
    exists doc. split; [done|]. rewrite Hout; [by rewrite Hd1, lookup_insert_eq|done|].
    rewrite list_fmap_compose, list_elem_of_fmap. intros (n & Hn & H1).
    apply list_elem_of_fmap in H1 as (k2 & -> & H2).
    apply (Htmp k k2); [rewrite fmap_cons; apply list_elem_of_here|rewrite fmap_cons; by apply list_elem_of_further|done].
  - intros n. rewrite !fmap_cons, !not_elem_of_cons. cbn [fst]. intros [Hn1 Hn2] [Hn3 Hn4].
    rewrite Hout by done. unfold compose in Hn3. rewrite Hd1, lookup_insert_ne, lookup_delete_ne by congruence. done.
Qed.
End groups.

(** ** Properties *)

(** Whatever is in the spool, the startup read only ever adopts records of
    windows still open, under every one of the eight kinds; a usage window whose
    closed record exists stays final; and no file is changed. *)
Theorem recover_only_open (dec : decoders) (s : Spool) (now : Time) :
  let '(rec, s') := RecoverOpenWindows dec s now in
  all_open now rec /\ none_closed (dir s) rec /\ dir s' = dir s /\
  Z.of_nat (length (Skipped rec)) = rSkipped (recovered s').
Proof.
  unfold RecoverOpenWindows, recoverJournals. cbn zeta. split; [|split; [|done]].
  - apply (fold_keeps (all_open now)); [intros; by apply recover_entry_open|].
    apply (fold_keeps (all_open now)); [intros; by apply recover_usage_open|]. by repeat split.
  - apply (fold_keeps (none_closed (dir s))); [intros rec e; unfold none_closed; by rewrite recover_entry_Records|].
    apply (fold_keeps (none_closed (dir s))); [intros; by apply recover_usage_closed|]. constructor.
Qed.
