(* ===== verification/OnDisk.v ===== *)
(** Journal windows on disk: what a flush leaves in the spool and what the
    startup read finds there, for any of the journals.

    The section abstracts over one journal's file prefix, payload kind, encoder
    and decoder; [Controller] instantiates it seven times. *)

From stdpp Require Import prelude gmap strings sorting.
From Stdlib Require Import ZArith Lia.
From S2P Require Import Prelude GoTime GoStrings Registry Cadence FileNames Spool Recover.
Local Open Scope Z_scope.

(** ** Names *)

Lemma json_not_tmp n : HasSuffix n ".json" = true -> forall nm, n <> tmp_name nm.
Proof.
  intros [r ->]%HasSuffix_Some nm E. apply (f_equal last_char) in E.
  unfold tmp_name in E. by rewrite !last_char_app in E.
Qed.

Lemma journal_name_json prefix k : HasSuffix (journalWindowName prefix k) ".json" = true.
Proof. unfold journalWindowName. rewrite string_app_assoc. apply HasSuffix_app. Qed.

Lemma journal_name_prefix prefix k : HasPrefix (journalWindowName prefix k) prefix = true.
Proof. apply HasPrefix_app. Qed.

Lemma tmp_name_prefix prefix k : HasPrefix (tmp_name (journalWindowName prefix k)) prefix = true.
Proof.
  unfold tmp_name, journalWindowName. rewrite <-string_app_assoc. apply HasPrefix_app.
Qed.

Section on_disk.
Context {R : Type} (windowOf : R -> windowKey) (prefix kind : string).
Context (encode : windowKey -> list R -> option string) (decode : string -> option (journalWindow R)).
Implicit Types (d : fs) (rs : list R) (k : windowKey) (now : Time).

(** The line [encodePayload] ends a document with. *)
Definition document (doc : string) : string := doc +:+ String newline EmptyString.

(** The decoder reads back every window of [rs] the encoder writes, and none is
    past the ceiling of the startup read. *)
Definition codec rs : Prop :=
  forall k g, group_by_window windowOf rs !! k = Some g ->
    exists doc, encode k g = Some doc /\ size_of (document doc) <= maxRecoveryBytes /\
      decode (document doc) = Some (mkJournalWindow kind (start k) (seconds k) g).

(** Every window of [rs] is in its file. *)
Definition holds d rs : Prop :=
  forall k g, group_by_window windowOf rs !! k = Some g ->
    exists doc m, encode k g = Some doc /\
      d !! journalWindowName prefix k = Some (FileNode (document doc) m).

(** No file of this journal names an open window that [rs] does not rewrite. *)
Definition no_stale now d rs : Prop :=
  forall n k nd, d !! n = Some nd -> HasSuffix n ".json" = true -> HasPrefix n prefix = true ->
    parseWindowName (TrimSuffix n ".json") prefix = Some k -> now < end_ k ->
    n = journalWindowName prefix k /\ is_Some (group_by_window windowOf rs !! k).

(** Files of other journals do not matter. *)
Definition same_files d d' : Prop := forall n, HasPrefix n prefix = true -> d' !! n = d !! n.

Lemma holds_same d d' rs : same_files d d' -> holds d rs -> holds d' rs.
Proof.
  intros Hs Hh k g Hg. destruct (Hh k g Hg) as (doc & m & He & Hd). exists doc, m. split; [done|].
  rewrite Hs; [done|]. apply journal_name_prefix.
Qed.

Lemma no_stale_same now d d' rs : same_files d d' -> no_stale now d rs -> no_stale now d' rs.
Proof. intros Hs Hn n k nd Hd Hsuf Hpre. rewrite Hs in Hd by done. by apply (Hn n k nd). Qed.

(** ** Writing *)

Context (sha256 : string -> string).

Lemma write_windows_lands s env rs entry :
  Lookup kind = Some entry -> Trigger_ (Cadence_ entry) <> TriggerChanged ->
  (forall n, io_fault (env n) = NoFault) -> all_chars safe_char prefix = true ->
  (forall r, r ∈ rs -> printable (windowOf r)) -> codec rs ->
  exists s', write_windows windowOf sha256 s kind (journalWindowName prefix) encode env rs = (s', None) /\
    holds (dir s') rs /\
    (forall now, no_stale now (dir s) rs -> no_stale now (dir s') rs) /\
    (forall n, HasPrefix n prefix = false -> dir s' !! n = dir s !! n).
Proof.
  intros HL Ht Hf Hsafe Hp Hc. unfold write_windows.
  set (groups := map_to_list (group_by_window windowOf rs)).
  assert (forall k g, (k, g) ∈ groups -> group_by_window windowOf rs !! k = Some g) as Hin
    by (intros k g; apply elem_of_map_to_list).
  assert (forall k, k ∈ groups.*1 -> printable k) as Hpk.
  { intros k ([k' g] & -> & H%Hin)%list_elem_of_fmap. cbn. rewrite group_lookup in H.
    destruct (filter _ rs) as [|r l] eqn:E; [done|].
    assert (r ∈ filter (fun r => windowOf r = k') rs) as [<- Hr]%list_elem_of_filter
      by (rewrite E; apply list_elem_of_here). by apply Hp. }
  destruct (write_groups_lands sha256 s kind (journalWindowName prefix) encode entry env groups HL Ht Hf)
    as (s' & -> & Hland & Hout).
  - apply NoDup_fmap_2_strong; [|apply NoDup_fst_map_to_list].
    intros k k' Hk Hk'. apply journal_name_inj; by apply Hpk.
  - intros k k' _ _. apply json_not_tmp, journal_name_json.
  - intros k g Hg. split.
    + apply journal_name_plain; [done|]. apply Hpk. by apply (list_elem_of_fmap_2 fst _ (k, g)).
    + destruct (Hc k g (Hin _ _ Hg)) as (doc & -> & _). done.
  - exists s'. split; [done|]. split; [|split].
    + intros k g Hg%elem_of_map_to_list. destruct (Hland k g Hg) as (doc & He & Hd).
      exists doc. eexists. split; [done|exact Hd].
    + intros now Hst n k nd Hd Hsuf Hpre Hparse Hopen.
      destruct (decide (n ∈ journalWindowName prefix <$> groups.*1)) as [Hn|Hn].
      * apply list_elem_of_fmap in Hn as (k' & -> & Hk').
        rewrite journal_name_parses in Hparse by (by apply Hpk). simplify_eq. split; [done|].
        apply list_elem_of_fmap in Hk' as ([k' g] & -> & Hg). cbn. rewrite (Hin _ _ Hg). done.
      * rewrite Hout in Hd; [by apply (Hst n k nd)|done|].
        intros (k' & Hk' & _)%list_elem_of_fmap. by apply (json_not_tmp n Hsuf (journalWindowName prefix k')).
    + intros n Hn. apply Hout; intros (k & -> & _)%list_elem_of_fmap.
      * by rewrite journal_name_prefix in Hn.
      * cbn in Hn. by rewrite tmp_name_prefix in Hn.
Qed.

(** ** Reading *)

(** The records one directory entry gives the startup read. *)
Definition read_of d now (e : string * node) : list R :=
  match e.2 with
  | DirNode => []
  | FileNode _ _ =>
      if negb (HasSuffix e.1 ".json") then []
      else if HasPrefix e.1 prefix then
        match resumeInto d e.1 prefix kind now decode windowOf with
        | Some (Ok rs) => rs
        | _ => []
        end
      else []
  end.

Lemma read_of_window d now k g doc m :
  printable k -> now < end_ k -> (forall r, r ∈ g -> windowOf r = k) ->
  size_of (document doc) <= maxRecoveryBytes ->
  decode (document doc) = Some (mkJournalWindow kind (start k) (seconds k) g) ->
  d !! journalWindowName prefix k = Some (FileNode (document doc) m) ->
  read_of d now (journalWindowName prefix k, FileNode (document doc) m) = g.
Proof.
  intros Hk Ho Hg Hsz Hdec Hd. unfold read_of. cbn [fst snd].
  rewrite journal_name_json, journal_name_prefix. cbn [negb].
  unfold resumeInto. rewrite journal_name_parses by done. unfold After.
  destruct (Z.ltb_spec now (end_ k)); [|lia].
  unfold readJournalWindow, read_window, readRecoverable. rewrite Hd.
  destruct (Z.ltb_spec maxRecoveryBytes (size_of (document doc))); [lia|]. rewrite Hdec. cbn.
  rewrite bool_decide_eq_true_2, !Z.eqb_refl by done. cbn.
  destruct (forallb _ g) eqn:E; [done|]. exfalso. apply not_true_iff_false in E. apply E.
  apply forallb_forall. intros r Hr. apply bool_decide_eq_true. f_equal. by apply Hg, list_elem_of_In.
Qed.

Lemma read_of_Some d now n nd r :
  r ∈ read_of d now (n, nd) ->
  exists k rs, HasSuffix n ".json" = true /\ HasPrefix n prefix = true /\
    parseWindowName (TrimSuffix n ".json") prefix = Some k /\ now < end_ k /\ r ∈ rs /\
    readJournalWindow d n kind k decode windowOf = Ok rs.
Proof.
  unfold read_of. cbn [fst snd]. destruct nd as [|data m]; [by intros ?%elem_of_nil|].
  destruct (HasSuffix n ".json"); cbn [negb]; [|by intros ?%elem_of_nil].
  destruct (HasPrefix n prefix); [|by intros ?%elem_of_nil].
  unfold resumeInto. destruct (parseWindowName _ _) as [k|]; [|by intros ?%elem_of_nil].
  unfold After. destruct (Z.ltb_spec now (end_ k)); [|by intros ?%elem_of_nil].
  destruct (readJournalWindow _ _ _ _ _ _) as [rs|] eqn:E; [|by intros ?%elem_of_nil].
  intros Hr. by exists k, rs.
Qed.

(** What was written is what is read, as far as its windows are open. *)
Lemma read_back d now rs :
  holds d rs -> no_stale now d rs -> codec rs -> (forall r, r ∈ rs -> printable (windowOf r)) ->
  forall r, (exists e, e ∈ entries d /\ r ∈ read_of d now e) <-> r ∈ rs /\ now < end_ (windowOf r).
Proof.
  intros Hh Hst Hc Hp r. split.
  - intros ([n nd] & He%elem_of_entries & Hr).
    apply read_of_Some in Hr as (k & rs' & Hsuf & Hpre & Hparse & Ho & Hr & Hread).
    destruct (Hst _ _ _ He Hsuf Hpre Hparse Ho) as [-> [g Hg]].
    apply read_window_ok in Hread as [_ (data & m & p & Hd & _ & Hdec & _ & _ & _ & <-)].
    destruct (Hh k g Hg) as (doc & m' & Henc & Hd'). destruct (Hc k g Hg) as (doc' & Henc' & _ & Hdec').
    simplify_eq. cbn in Hr. apply (group_member windowOf rs k g r Hg) in Hr as [Hr <-]. done.
  - intros [Hr Ho]. destruct (group_has windowOf rs r Hr) as [g Hg].
    destruct (Hh _ g Hg) as (doc & m & Henc & Hd). destruct (Hc _ g Hg) as (doc' & Henc' & Hsz & Hdec).
    assert (doc' = doc) as -> by congruence.
    exists (journalWindowName prefix (windowOf r), FileNode (document doc) m).
    split; [by apply elem_of_entries|].
    rewrite (read_of_window d now (windowOf r) g doc m); try done; [|by apply Hp|].
    + by apply (group_member windowOf rs _ g r Hg).
    + intros x Hx. by apply (group_member windowOf rs _ g x Hg) in Hx as [_ ?].
Qed.
End on_disk.
