(* ===== verification/Shipper.v ===== *)
(** The shipper of [internal/shipper]: what leaves the spool for the backend, in
    which order, and what each answer does to the file it was about.

    The directory is the spool's with each file's identity ([os.SameFile]) beside
    its bytes.  What the outside does to one delivery — the read, the answer, the
    writers working meanwhile, the clock — is a [delivery], given per file name;
    reading the [kind] out of an envelope is [encoding/json]'s work and a
    parameter. *)

From stdpp Require Import prelude gmap strings sorting.
From Stdlib Require Import ZArith Lia Ascii.
From S2P Require Import Prelude GoTime GoStrings Registry FileNames Spool.
Local Open Scope Z_scope.
Local Open Scope go_scope.

Definition MaxPayloadBytes : Z := Z.shiftl 4 20.
Definition DefaultInterval : Duration := 30 * Second.
Definition FinalRoundBudget : Duration := 4 * Second.
Definition minBackoff : Duration := 5 * Second.
Definition maxBackoff : Duration := 5 * Minute.

(** ** How the agent names itself ([agent.go]) *)

Definition product : string := "runtime-agent".
Definition maxVersion : nat := 64.

Definition plainVersion (version : string) : bool :=
  forallb (fun r => is_alnum r || (r =? byte "."%char) || (r =? byte "-"%char) || (r =? byte "+"%char) || (r =? byte "_"%char))
    (runes version).

Definition userAgent (version : string) : string :=
  if bool_decide (version = ""%string) || (maxVersion <? String.length version)%nat || negb (plainVersion version)
  then product
  else product +:+ "/" +:+ version.

(** ** State *)

Record sfile := mkSFile { ident : Z; content : string; modified : Time }.
Inductive snode := SDir | SFile (f : sfile).
Abbreviation sdir := (gmap string snode).

(** The directory as the spool sees it. *)
Definition spool_node (nd : snode) : node :=
  match nd with SDir => DirNode | SFile f => FileNode (content f) (modified f) end.
Definition spool_dir (d : sdir) : fs := spool_node <$> d.

(** [model.Shipping], the halt apart: it is derived from [haltedAt]. *)
Record Shipping := mkShipping {
  Delivered : Z; Deferred : Z; Unreadable : Z;
  RejectedUnauthorized : Z; RejectedTooLarge : Z; RejectedMalformed : Z;
  PayloadBytes : Z; TransmittedBytes : Z;
}.

Record Shipper := mkShipper {
  agent : string;
  haltedAt : Z;
  held : gmap string Z;
  failures : Z;
  counts : Shipping;
  interval : Duration;
}.

Definition New (base version : string) : option Shipper :=
  if bool_decide (base = ""%string) then None
  else Some (mkShipper (userAgent version) 0 ∅ 0 (mkShipping 0 0 0 0 0 0 0 0) DefaultInterval).

Definition halted (s : Shipper) : bool := negb (haltedAt s =? 0).

(** [Coverage]: the counts, and since when shipping has been halted. *)
Definition Coverage (s : Shipper) : Shipping * option Time :=
  (counts s, if halted s then Some (unixEpoch + haltedAt s) else None).

Definition set_counts (c : Shipping) (s : Shipper) : Shipper :=
  mkShipper (agent s) (haltedAt s) (held s) (failures s) c (interval s).
Definition set_failures (n : Z) (s : Shipper) : Shipper :=
  mkShipper (agent s) (haltedAt s) (held s) n (counts s) (interval s).
Definition set_held (h : gmap string Z) (s : Shipper) : Shipper :=
  mkShipper (agent s) (haltedAt s) h (failures s) (counts s) (interval s).
Definition set_halted (at_ : Z) (s : Shipper) : Shipper :=
  mkShipper (agent s) at_ (held s) (failures s) (counts s) (interval s).

Definition incDelivered (c : Shipping) : Shipping :=
  mkShipping (wrapU64 (Delivered c + 1)) (Deferred c) (Unreadable c) (RejectedUnauthorized c)
    (RejectedTooLarge c) (RejectedMalformed c) (PayloadBytes c) (TransmittedBytes c).
Definition incDeferred (c : Shipping) : Shipping :=
  mkShipping (Delivered c) (wrapU64 (Deferred c + 1)) (Unreadable c) (RejectedUnauthorized c)
    (RejectedTooLarge c) (RejectedMalformed c) (PayloadBytes c) (TransmittedBytes c).
Definition incUnreadable (c : Shipping) : Shipping :=
  mkShipping (Delivered c) (Deferred c) (wrapU64 (Unreadable c + 1)) (RejectedUnauthorized c)
    (RejectedTooLarge c) (RejectedMalformed c) (PayloadBytes c) (TransmittedBytes c).
Definition incUnauthorized (c : Shipping) : Shipping :=
  mkShipping (Delivered c) (Deferred c) (Unreadable c) (wrapU64 (RejectedUnauthorized c + 1))
    (RejectedTooLarge c) (RejectedMalformed c) (PayloadBytes c) (TransmittedBytes c).
Definition incTooLarge (c : Shipping) : Shipping :=
  mkShipping (Delivered c) (Deferred c) (Unreadable c) (RejectedUnauthorized c)
    (wrapU64 (RejectedTooLarge c + 1)) (RejectedMalformed c) (PayloadBytes c) (TransmittedBytes c).
Definition incMalformed (c : Shipping) : Shipping :=
  mkShipping (Delivered c) (Deferred c) (Unreadable c) (RejectedUnauthorized c)
    (RejectedTooLarge c) (wrapU64 (RejectedMalformed c + 1)) (PayloadBytes c) (TransmittedBytes c).
Definition addBytes (body encoded : Z) (c : Shipping) : Shipping :=
  mkShipping (Delivered c) (Deferred c) (Unreadable c) (RejectedUnauthorized c) (RejectedTooLarge c)
    (RejectedMalformed c) (wrapU64 (PayloadBytes c + body)) (wrapU64 (TransmittedBytes c + encoded)).

Definition count (f : Shipping -> Shipping) (s : Shipper) : Shipper := set_counts (f (counts s)) s.

Definition hold (name : string) (id : Z) (f : Shipping -> Shipping) (s : Shipper) : Shipper :=
  count f (set_held (<[name := id]> (held s)) s).

Definition deferred (s : Shipper) : Shipper := set_failures (failures s +w 1) (count incDeferred s).

(** ** Candidates *)

Record spooled := mkSpooled { sp_name : string; sp_modTime : Time }.

Definition sentries (d : sdir) : list (string * snode) := sort_slice (fun a b => go_lt a.1 b.1) (map_to_list d).

Definition earlier (a b : spooled) : bool :=
  if sp_modTime a =? sp_modTime b then go_lt (sp_name a) (sp_name b) else Before (sp_modTime a) (sp_modTime b).

(** [raced]: entries whose [Info] failed. *)
Definition pending_step (raced : gset string) (held : gmap string Z) (acc : gmap string Z * list spooled)
    (e : string * snode) : gmap string Z * list spooled :=
  let '(still, out) := acc in
  match e.2 with
  | SDir => (still, out)
  | SFile f =>
      if HasSuffix e.1 ".tmp" then (still, out)
      else if bool_decide (e.1 ∈ raced) then (still, out)
      else if bool_decide (held !! e.1 = Some (ident f)) then (<[e.1 := ident f]> still, out)
      else (still, out ++ [mkSpooled e.1 (modified f)])
  end.

Definition pending (raced : gset string) (s : Shipper) (d : sdir) : list spooled * Shipper :=
  let '(still, out) := foldl (pending_step raced (held s)) (∅, []) (sentries d) in
  (sort_slice earlier out, set_held still s).

(** ** One delivery *)

Record delivery := mkDelivery {
  cancelled : bool;          (** [ctx.Err() != nil] when its turn comes *)
  readable : bool;           (** opening, stat and reading succeed *)
  encoded_size : Z;
  answer : option Z;         (** the status; [None] is an error *)
  cancelled_after : bool;    (** [ctx.Err() != nil] after an error *)
  meanwhile : sdir -> sdir;  (** what the writers and the sweep do while it is in flight *)
  removable : bool;
  clock : Time;
}.

Section shipper.
Context (envelope_kind : string -> option string).

Definition payloadKind (data : string) : option string :=
  kind ← envelope_kind data;
  if bool_decide (kind = ""%string) then None
  else match Lookup kind with Some _ => Some kind | None => None end.

(** Remove a delivered payload if the file is still the one that was sent. *)
Definition acknowledged (name : string) (sent : Z) (w : delivery) (s : Shipper) (d : sdir) : Shipper * sdir :=
  let s := set_failures 0 (count incDelivered s) in
  match d !! name with
  | Some (SFile f) =>
      if negb (bool_decide (ident f = sent)) then (s, d)
      else (s, if removable w then delete name d else d)
  | _ => (s, d)
  end.

(** The state after, whether the round continues, and what was posted. *)
Definition deliver (w : delivery) (name : string) (s : Shipper) (d : sdir)
    : Shipper * sdir * bool * option (string * string) :=
  match d !! name with
  | Some (SFile f) =>
      if negb (readable w) then (count incUnreadable s, d, true, None)
      else if MaxPayloadBytes <? size_of (content f)
      then (hold name (ident f) incTooLarge s, d, true, None)
      else match payloadKind (content f) with
      | None => (count incUnreadable s, d, true, None)
      | Some kind =>
          let s := count (addBytes (size_of (content f)) (encoded_size w)) s in
          let d := meanwhile w d in
          let posted := Some (kind, content f) in
          match answer w with
          | None => if cancelled_after w then (s, d, false, posted) else (deferred s, d, false, posted)
          | Some status =>
              if (200 <=? status) && (status <? 300) then
                let '(s, d) := acknowledged name (ident f) w s d in (s, d, true, posted)
              else if (status =? 401) || (status =? 403) then
                (set_halted (UnixNano (clock w)) (count incUnauthorized s), d, false, posted)
              else if status =? 400 then (hold name (ident f) incMalformed s, d, true, posted)
              else if status =? 413 then (hold name (ident f) incTooLarge s, d, true, posted)
              else (deferred s, d, false, posted)
          end
      end
  | _ => (count incUnreadable s, d, true, None)
  end.

(** ** A round *)

(** [attempted]: the names handed to [deliver], in order, with what was posted. *)
Abbreviation attempts := (list (string * option (string * string))).

Fixpoint ship_loop (ws : string -> delivery) (fs_ : list spooled) (s : Shipper) (d : sdir)
    : Shipper * sdir * attempts :=
  match fs_ with
  | [] => (s, d, [])
  | f :: fs_ =>
      if cancelled (ws (sp_name f)) then (s, d, [])
      else
        let '(s, d, continue, posted) := deliver (ws (sp_name f)) (sp_name f) s d in
        if continue then
          let '(s, d, attempted) := ship_loop ws fs_ s d in (s, d, (sp_name f, posted) :: attempted)
        else (s, d, [(sp_name f, posted)])
  end.

Definition Round (raced : gset string) (ws : string -> delivery) (s : Shipper) (d : sdir)
    : Shipper * sdir * attempts :=
  if halted s then (s, d, [])
  else let '(fs_, s) := pending raced s d in ship_loop ws fs_ s d.

(** The round a shutdown makes; its budget is in the [cancelled] fields. *)
Definition FinalRound (raced : gset string) (ws : string -> delivery) (s : Shipper) (d : sdir)
    : Shipper * sdir * attempts :=
  if halted s then (s, d, []) else Round raced ws s d.
End shipper.

(** ** The delay before the next round *)

(** [for i := 1; i < failures && d < maxBackoff; i++ { d *= 2 }] *)
Fixpoint backoff_loop (fuel : nat) (i failures : Z) (d : Duration) : Duration :=
  match fuel with
  | O => d
  | S fuel => if (i <? failures) && (d <? maxBackoff) then backoff_loop fuel (i + 1) failures (d * 2) else d
  end.

(** Seven iterations at most: [minBackoff] doubles past [maxBackoff] in six. *)
Definition backoff_fuel : nat := 7.

Definition nextDelay (s : Shipper) (jitter : Z -> Z) : Duration :=
  if failures s =? 0 then interval s
  else
    let d := backoff_loop backoff_fuel 1 (failures s) minBackoff in
    let d := if maxBackoff <? d then maxBackoff else d in
    Z.quot d 2 +w jitter (Z.quot d 2).

(** ** Deliveries *)

Definition success (status : Z) : Prop := 200 <= status < 300.
Definition rejected (status : Z) : Prop := status = 400 \/ status = 413.
(** The answers after which a round goes on. *)
Definition goes_on (w : delivery) : Prop := exists status, answer w = Some status /\ (success status \/ rejected status).

Section deliveries.
Context (envelope_kind : string -> option string).

(** A file that will be posted, and as what. *)
Definition offerable (w : delivery) (f : sfile) (kind : string) : Prop :=
  readable w = true /\ size_of (content f) <= MaxPayloadBytes /\ payloadKind envelope_kind (content f) = Some kind.

Lemma deliver_cases w name s d :
  (exists s', deliver envelope_kind w name s d = (s', d, true, None)) \/
  exists f kind, d !! name = Some (SFile f) /\ offerable w f kind /\
    let s1 := count (addBytes (size_of (content f)) (encoded_size w)) s in
    let d1 := meanwhile w d in
    deliver envelope_kind w name s d =
      match answer w with
      | None => if cancelled_after w then (s1, d1, false, Some (kind, content f))
                else (deferred s1, d1, false, Some (kind, content f))
      | Some status =>
          if (200 <=? status) && (status <? 300) then
            let '(s, d) := acknowledged name (ident f) w s1 d1 in (s, d, true, Some (kind, content f))
          else if (status =? 401) || (status =? 403) then
            (set_halted (UnixNano (clock w)) (count incUnauthorized s1), d1, false, Some (kind, content f))
          else if status =? 400 then (hold name (ident f) incMalformed s1, d1, true, Some (kind, content f))
          else if status =? 413 then (hold name (ident f) incTooLarge s1, d1, true, Some (kind, content f))
          else (deferred s1, d1, false, Some (kind, content f))
      end.
Proof.
  unfold deliver. destruct (d !! name) as [[|f]|]; [left; by eexists| |left; by eexists].
  destruct (readable w) eqn:Er; cbn [negb]; [|left; by eexists].
  destruct (Z.ltb_spec MaxPayloadBytes (size_of (content f))); [left; by eexists|].
  destruct (payloadKind envelope_kind (content f)) as [kind|] eqn:Ek; [|left; by eexists].
  right. exists f, kind. done.
Qed.

Lemma acknowledged_dir name sent w s d :
  (acknowledged name sent w s d).2 = d \/
  (acknowledged name sent w s d).2 = delete name d /\ exists cur, d !! name = Some (SFile cur) /\ ident cur = sent.
Proof.
  unfold acknowledged. destruct (d !! name) as [[|f]|]; [by left| |by left].
  case_bool_decide as Hid; cbn [negb]; [|by left]. destruct (removable w); [right|by left].
  split; [done|by exists f].
Qed.

(** ** Rounds *)

Lemma earlier_key a b : earlier a b = go_lt (sp_modTime a, sp_name a) (sp_modTime b, sp_name b).
Proof.
  unfold earlier. change (go_lt (sp_modTime a, sp_name a) (sp_modTime b, sp_name b))
    with (lexi (sp_modTime a) (sp_modTime b) (go_lt (sp_name a) (sp_name b))).
  unfold lexi. destruct (Z.eqb_spec (sp_modTime a) (sp_modTime b));
    [by rewrite bool_decide_eq_true_2|by rewrite bool_decide_eq_false_2].
Qed.

Lemma ship_loop_prefix ws l s d :
  let '(_, _, attempted) := ship_loop envelope_kind ws l s d in
  (exists rest, sp_name <$> l = attempted.*1 ++ rest) /\
  (forall before n kind body x after, attempted = before ++ (n, Some (kind, body)) :: x :: after -> goes_on (ws n)).
Proof.
  revert s d. induction l as [|f l IH]; intros s d; cbn [ship_loop].
  { split; [by exists []|]. by intros []. }
  destruct (cancelled (ws (sp_name f))); [split; [by eexists|by intros []]|].
  destruct (deliver envelope_kind (ws (sp_name f)) (sp_name f) s d) as [[[s1 d1] continue] posted] eqn:E.
  destruct continue.
  - specialize (IH s1 d1). destruct (ship_loop envelope_kind ws l s1 d1) as [[s2 d2] attempted].
    destruct IH as [[rest Hrest] Hgo]. split; [exists rest; cbn; by rewrite Hrest|].
    intros [|b before] n kind body x after; [|intros [= _ Ht]; by eapply Hgo].
    intros [= <- -> _]. destruct (deliver_cases (ws (sp_name f)) (sp_name f) s d) as [(s' & E')|(g & k & _ & _ & E')];
      cbn zeta in E'; rewrite E' in E; [by injection E|].
    unfold goes_on. destruct (answer (ws (sp_name f))) as [status|]; [|by destruct (cancelled_after _); injection E].
    exists status. split; [done|]. unfold success, rejected.
    destruct (Z.leb_spec 200 status), (Z.ltb_spec status 300); cbn in E; try (left; lia).
    all: destruct (Z.eqb_spec status 401), (Z.eqb_spec status 403); cbn in E; try by injection E.
    all: destruct (Z.eqb_spec status 400); [right; by left|];
         destruct (Z.eqb_spec status 413); [right; by right|by injection E].
  - split; [by exists (sp_name <$> l)|]. intros [|b []] n kind body x after; done.
Qed.
End deliveries.

(** ** Listing *)

Definition candidate (raced : gset string) (held : gmap string Z) (e : string * snode) : option spooled :=
  match e.2 with
  | SDir => None
  | SFile f =>
      if HasSuffix e.1 ".tmp" then None
      else if bool_decide (e.1 ∈ raced) then None
      else if bool_decide (held !! e.1 = Some (ident f)) then None
      else Some (mkSpooled e.1 (modified f))
  end.

Lemma pending_loop_out raced held es still out :
  (foldl (pending_step raced held) (still, out) es).2 = out ++ omap (candidate raced held) es.
Proof.
  revert still out. induction es as [|[n nd] es IH]; intros still out; [by rewrite app_nil_r|].
  cbn [foldl]. destruct (pending_step raced held (still, out) (n, nd)) as [still' out'] eqn:E. rewrite IH.
  unfold pending_step in E. cbn [omap list_omap]. unfold candidate at 2. cbn [fst snd] in *.
  destruct nd as [|f]; [by simplify_eq|]. destruct (HasSuffix n ".tmp"); [by simplify_eq|].
  repeat case_bool_decide; simplify_eq; try done. by rewrite <-app_assoc.
Qed.

Lemma elem_of_sentries d n nd : (n, nd) ∈ sentries d <-> d !! n = Some nd.
Proof.
  unfold sentries, sort_slice. rewrite (merge_sort_Permutation (not_after _) (map_to_list d)). apply elem_of_map_to_list.
Qed.

Lemma sentries_NoDup d : NoDup (sentries d).*1.
Proof.
  unfold sentries, sort_slice. rewrite (merge_sort_Permutation (not_after _) (map_to_list d)).
  apply NoDup_fst_map_to_list.
Qed.

Lemma pending_perm raced s d : (pending raced s d).1 ≡ₚ omap (candidate raced (held s)) (sentries d).
Proof.
  unfold pending. pose proof (pending_loop_out raced (held s) (sentries d) ∅ []) as H.
  destruct (foldl _ _ _) as [still out]. cbn [fst snd] in *. rewrite <-app_nil_l, <-H.
  apply (sort_slice_sorted earlier (fun a => (sp_modTime a, sp_name a)) earlier_key).
Qed.

Lemma elem_of_pending raced s d f :
  f ∈ (pending raced s d).1 <->
  exists g, d !! (sp_name f) = Some (SFile g) /\ sp_modTime f = modified g /\ HasSuffix (sp_name f) ".tmp" = false /\
    (sp_name f ∉ raced) /\ held s !! (sp_name f) <> Some (ident g).
Proof.
  rewrite pending_perm, list_elem_of_omap. split.
  - intros ([n nd] & Hin%elem_of_sentries & Hc). unfold candidate in Hc. cbn [fst snd] in Hc.
    destruct nd as [|g]; [done|]. destruct (HasSuffix n ".tmp") eqn:Et; [done|].
    repeat case_bool_decide; try done. simplify_eq. by exists g.
  - intros (g & Hd & Hm & Ht & Hr & Hh). exists (sp_name f, SFile g). split; [by apply elem_of_sentries|].
    unfold candidate. cbn [fst snd]. rewrite Ht, !bool_decide_eq_false_2 by done. rewrite <-Hm. by destruct f.
Qed.

Lemma pending_names_NoDup raced s d : NoDup (sp_name <$> (pending raced s d).1).
Proof.
  rewrite pending_perm. pose proof (sentries_NoDup d) as Hnd. induction (sentries d) as [|[n nd] es IH]; [constructor|].
  rewrite fmap_cons in Hnd. apply NoDup_cons in Hnd as [Hn Hnd]. cbn [omap list_omap].
  destruct (candidate raced (held s) (n, nd)) as [f|] eqn:Ec; [|by apply IH].
  assert (sp_name f = n) as <-.
  { unfold candidate in Ec. cbn [fst snd] in Ec. destruct nd; [done|]. destruct (HasSuffix n ".tmp"); [done|].
    repeat case_bool_decide; by simplify_eq. }
  rewrite fmap_cons. apply NoDup_cons. split; [|by apply IH]. intros Hin.
  apply list_elem_of_fmap in Hin as (g & Hg & ([n' nd'] & He & Hc)%list_elem_of_omap). cbn [fst] in Hn. apply Hn.
  apply list_elem_of_fmap. exists (n', nd'). split; [|done]. cbn. rewrite Hg.
  unfold candidate in Hc. cbn [fst snd] in Hc. destruct nd'; [done|]. destruct (HasSuffix n' ".tmp"); [done|].
  repeat case_bool_decide; by simplify_eq.
Qed.

(** A mark survives as long as the very file it was made for. *)
Lemma pending_loop_still raced held es still out name f :
  NoDup es.*1 -> (name, SFile f) ∈ es -> HasSuffix name ".tmp" = false -> name ∉ raced ->
  held !! name = Some (ident f) ->
  (foldl (pending_step raced held) (still, out) es).1 !! name = Some (ident f).
Proof.
  assert (forall es still out, name ∉ es.*1 ->
    (foldl (pending_step raced held) (still, out) es).1 !! name = still !! name) as Hother.
  { intros es'. induction es' as [|[n nd] es' IH]; intros still' out' Hn; [done|].
    rewrite fmap_cons, not_elem_of_cons in Hn. destruct Hn as [Hn Hes]. cbn [foldl].
    destruct (pending_step raced held (still', out') (n, nd)) as [still'' out''] eqn:E. rewrite IH by done.
    unfold pending_step in E. cbn [fst snd] in *. destruct nd as [|g]; [by simplify_eq|].
    destruct (HasSuffix n ".tmp"); [by simplify_eq|].
    repeat case_bool_decide; simplify_eq; try done. by rewrite lookup_insert_ne. }
  intros Hnd Hin Ht Hr Hh. revert still out. induction es as [|[n nd] es IH]; intros still out; [by apply elem_of_nil in Hin|].
  rewrite fmap_cons in Hnd. apply NoDup_cons in Hnd as [Hn Hnd]. cbn [foldl fst] in *.
  apply elem_of_cons in Hin as [[= <- <-]|Hin].
  - unfold pending_step at 2. cbn [fst snd]. rewrite Ht, bool_decide_eq_false_2, bool_decide_eq_true_2 by done.
    rewrite Hother by done. apply lookup_insert_eq.
  - destruct (pending_step raced held (still, out) (n, nd)) as [still' out']. by apply IH.
Qed.

Lemma pending_keeps_marks raced s d name f :
  d !! name = Some (SFile f) -> HasSuffix name ".tmp" = false -> name ∉ raced ->
  held s !! name = Some (ident f) -> held (pending raced s d).2 !! name = Some (ident f).
Proof.
  intros Hd Ht Hr Hh. unfold pending.
  pose proof (pending_loop_still raced (held s) (sentries d) ∅ [] name f (sentries_NoDup d)
                (proj2 (elem_of_sentries d name (SFile f)) Hd) Ht Hr Hh) as H.
  by destruct (foldl _ _ _) as [still out].
Qed.

(** ** Backoff *)

Lemma backoff_loop_closed fuel i n d :
  0 < d -> 1 <= i -> maxBackoff <= d * 2 ^ Z.of_nat fuel ->
  Z.min maxBackoff (backoff_loop fuel i n d) = Z.min maxBackoff (d * 2 ^ Z.max 0 (n - i)).
Proof.
  revert i d. induction fuel as [|fuel IH]; intros i d Hd Hi Hf.
  { cbn [backoff_loop]. rewrite Z.mul_1_r in Hf. assert (1 <= 2 ^ Z.max 0 (n - i)) by (apply (Z.pow_le_mono_r 2 0); lia). nia. }
  cbn [backoff_loop]. destruct (Z.ltb_spec i n); cbn [andb].
  - destruct (Z.ltb_spec d maxBackoff).
    + rewrite IH; [|lia|lia|rewrite Nat2Z.inj_succ, Z.pow_succ_r in Hf by lia; lia].
      replace (Z.max 0 (n - i)) with (Z.succ (Z.max 0 (n - (i + 1)))) by lia. rewrite Z.pow_succ_r by lia. f_equal. lia.
    + assert (1 <= 2 ^ Z.max 0 (n - i)) by (apply (Z.pow_le_mono_r 2 0); lia). nia.
  - rewrite Z.max_l, Z.pow_0_r by lia. lia.
Qed.

(** ** Properties *)

(** A payload leaves the spool only when the backend has it (ADR 0003, ADR
    0075): one delivery removes a file only after a 2xx, and only if the file
    there is still the one whose bytes were posted — a newer payload that
    replaced it meanwhile stays — and whatever is posted is the whole content of
    a file of the spool, no larger than the ceiling, under a registered kind. *)
Theorem only_delivered_payloads_leave (envelope_kind : string -> option string) (w : delivery) (name : string)
    (s : Shipper) (d : sdir) :
  let '(s', d', continue, posted) := deliver envelope_kind w name s d in
  match posted with
  | None => d' = d /\ continue = true
  | Some (kind, body) =>
      exists sent, d !! name = Some (SFile sent) /\ body = content sent /\ size_of body <= MaxPayloadBytes /\
        is_Some (Lookup kind) /\
        (d' = meanwhile w d \/
         d' = delete name (meanwhile w d) /\
         exists status current, answer w = Some status /\ success status /\
           meanwhile w d !! name = Some (SFile current) /\ ident current = ident sent)
  end.
Proof.
  destruct (deliver_cases envelope_kind w name s d) as [(s' & ->)|(f & kind & Hf & (Hr & Hsz & Hk) & E)]; [done|].
  assert (is_Some (Lookup kind)) as HL.
  { unfold payloadKind in Hk. destruct (envelope_kind (content f)) as [k|]; cbn [mbind option_bind] in Hk; [|done].
    case_bool_decide; [done|]. destruct (Lookup k) eqn:EL; [|done]. simplify_eq. done. }
  cbn zeta in E. rewrite E. destruct (answer w) as [status|] eqn:Ea.
  - destruct (Z.leb_spec 200 status), (Z.ltb_spec status 300); cbn [andb];
      [|repeat case_match; simplify_eq; by eauto 10..].
    destruct (acknowledged_dir name (ident f) w (count (addBytes (size_of (content f)) (encoded_size w)) s) (meanwhile w d))
      as [Hd|(Hd & cur & Hc & Hid)];
      destruct (acknowledged _ _ _ _ _) as [s' d']; cbn [snd] in Hd; subst d'; exists f; [by eauto 10|].
    do 4 (split; [done|]). right. split; [done|]. exists status, cur. unfold success. done.
  - destruct (cancelled_after w); exists f; by eauto 10.
Qed.

(** A round offers payloads oldest first, each at most once, and stops at the
    first one the backend could not take: what was attempted is a prefix of the
    candidates in age order, and every payload posted before the last attempt
    was acknowledged or permanently refused. *)
Theorem round_is_oldest_first (envelope_kind : string -> option string) (raced : gset string)
    (ws : string -> delivery) (s : Shipper) (d : sdir) :
  let candidates := (pending raced s d).1 in
  let '(_, _, attempted) := Round envelope_kind raced ws s d in
  sorted_result earlier candidates candidates /\ NoDup attempted.*1 /\
  (exists rest, sp_name <$> candidates = attempted.*1 ++ rest) /\
  (forall before n kind body x after,
     attempted = before ++ (n, Some (kind, body)) :: x :: after -> goes_on (ws n)).
Proof.
  assert (sorted_result earlier (pending raced s d).1 (pending raced s d).1) as Hsort.
  { split; [done|]. unfold pending. destruct (foldl _ _ _) as [still out].
    apply (sort_slice_sorted earlier (fun a => (sp_modTime a, sp_name a)) earlier_key). }
  unfold Round. destruct (halted s).
  { split; [done|]. split; [constructor|]. split; [by eexists|by intros []]. }
  pose proof (pending_names_NoDup raced s d) as Hnd.
  destruct (pending raced s d) as [l s1]. cbn [fst] in *.
  pose proof (ship_loop_prefix envelope_kind ws l s1 d) as H. destruct (ship_loop _ _ _ _ _) as [[s2 d2] attempted].
  destruct H as [[rest Hrest] Hgo]. split; [done|]. rewrite Hrest in Hnd. apply NoDup_app in Hnd as [Hnd _].
  split; [done|]. split; [by exists rest|exact Hgo].
Qed.

(** An identity failure stops shipping for good: after a 401 or a 403 the
    round ends, nothing is removed, and no later round — the final one included —
    posts or changes anything. *)
Theorem halt_is_final (envelope_kind : string -> option string) (w : delivery) (name kind : string)
    (s : Shipper) (d : sdir) (f : sfile) (status : Z) :
  d !! name = Some (SFile f) -> offerable envelope_kind w f kind ->
  answer w = Some status -> status = 401 \/ status = 403 -> UnixNano (clock w) <> 0 ->
  let '(s', d', continue, _) := deliver envelope_kind w name s d in
  continue = false /\ d' = meanwhile w d /\
  forall raced ws d2, Round envelope_kind raced ws s' d2 = (s', d2, []) /\
                      FinalRound envelope_kind raced ws s' d2 = (s', d2, []).
Proof.
  intros Hf (Hr & Hsz & Hk) Ha Hst Hclock. unfold deliver. rewrite Hf, Hr, Hk, Ha. cbn [negb].
  destruct (Z.ltb_spec MaxPayloadBytes (size_of (content f))); [lia|].
  destruct (Z.ltb_spec status 300); [lia|]. rewrite andb_false_r.
  assert ((status =? 401) || (status =? 403) = true) as -> by (apply orb_true_iff; rewrite !Z.eqb_eq; exact Hst).
  split; [done|]. split; [done|]. intros raced ws d2. unfold FinalRound, Round, halted. cbn [haltedAt set_halted].
  destruct (Z.eqb_spec (UnixNano (clock w)) 0); done.
Qed.

Definition demo_file (id : Z) : sfile := mkSFile id "{}" (unixEpoch + Hour).
Definition demo_delivery (status : Z) : delivery :=
  mkDelivery false true 30 (Some status) false (fun d => d) true (unixEpoch + 2 * Hour).
Definition demo_kind (data : string) : option string := Some "container_restarts"%string.
Definition demo_shipper : Shipper := mkShipper "runtime-agent" 0 ∅ 0 (mkShipping 0 0 0 0 0 0 0 0) DefaultInterval.
Definition demo_dir : sdir := {["restarts-0-3600.json"%string := SFile (demo_file 7)]}.

Lemma demo_offerable status : offerable demo_kind (demo_delivery status) (demo_file 7) "container_restarts".
Proof. split; [done|]. split; [vm_compute; discriminate|reflexivity]. Qed.

Lemma halt_is_final_witness :
  let '(s', d', continue, _) := deliver demo_kind (demo_delivery 403) "restarts-0-3600.json" demo_shipper demo_dir in
  continue = false /\ d' = demo_dir /\
  forall raced ws d2, Round demo_kind raced ws s' d2 = (s', d2, []) /\
                      FinalRound demo_kind raced ws s' d2 = (s', d2, []).
Proof.
  apply (halt_is_final demo_kind (demo_delivery 403) "restarts-0-3600.json" "container_restarts" demo_shipper demo_dir
           (demo_file 7) 403 eq_refl (demo_offerable 403) eq_refl (or_intror eq_refl)).
  vm_compute. discriminate.
Defined.

(** A payload the backend refused for good is offered again exactly when it
    was replaced: after a 400 or a 413, later rounds skip the name while it holds
    the same file, through any number of listings, and offer it as soon as
    another file is there. *)
Theorem refused_until_replaced (envelope_kind : string -> option string) (w : delivery) (name kind : string)
    (s : Shipper) (d : sdir) (f : sfile) (status : Z) :
  d !! name = Some (SFile f) -> offerable envelope_kind w f kind -> HasSuffix name ".tmp" = false ->
  answer w = Some status -> rejected status ->
  let '(s', d', continue, _) := deliver envelope_kind w name s d in
  continue = true /\ d' = meanwhile w d /\
  forall raced d2 g, d2 !! name = Some (SFile g) -> name ∉ raced ->
    (mkSpooled name (modified g) ∈ (pending raced s' d2).1 <-> ident g <> ident f) /\
    (ident g = ident f -> held (pending raced s' d2).2 !! name = Some (ident f)).
Proof.
  intros Hf (Hr & Hsz & Hk) Ht Ha Hst. unfold deliver. rewrite Hf, Hr, Hk, Ha. cbn [negb].
  destruct (Z.ltb_spec MaxPayloadBytes (size_of (content f))); [lia|].
  assert (forall s0 c raced d2 g, d2 !! name = Some (SFile g) -> name ∉ raced ->
    (mkSpooled name (modified g) ∈ (pending raced (hold name (ident f) c s0) d2).1 <-> ident g <> ident f) /\
    (ident g = ident f -> held (pending raced (hold name (ident f) c s0) d2).2 !! name = Some (ident f))) as Hheld.
  { intros s0 c raced d2 g Hg Hra.
    assert (held (hold name (ident f) c s0) !! name = Some (ident f)) as Hh by apply lookup_insert_eq. split.
    - rewrite elem_of_pending. cbn [sp_name sp_modTime]. rewrite Hh. split.
      + intros (g' & Hg' & _ & _ & _ & Hne) E. simplify_eq. congruence.
      + intros Hne. exists g. repeat (split; [done|]). congruence.
    - intros E. pose proof (pending_keeps_marks raced (hold name (ident f) c s0) d2 name g Hg Ht Hra) as K.
      rewrite E in K. by apply K. }
  destruct Hst as [-> | ->]; (split; [done|]); (split; [done|]); intros; by apply Hheld.
Qed.

Lemma refused_until_replaced_witness :
  let '(s', d', continue, _) := deliver demo_kind (demo_delivery 413) "restarts-0-3600.json" demo_shipper demo_dir in
  continue = true /\ d' = demo_dir /\
  forall raced d2 g, d2 !! "restarts-0-3600.json"%string = Some (SFile g) -> "restarts-0-3600.json"%string ∉ raced ->
    (mkSpooled "restarts-0-3600.json" (modified g) ∈ (pending raced s' d2).1 <-> ident g <> 7) /\
    (ident g = 7 -> held (pending raced s' d2).2 !! "restarts-0-3600.json"%string = Some 7).
Proof.
  apply (refused_until_replaced demo_kind (demo_delivery 413) "restarts-0-3600.json" "container_restarts" demo_shipper
           demo_dir (demo_file 7) 413 eq_refl (demo_offerable 413) eq_refl eq_refl (or_intror eq_refl)).
Defined.

(** The delay between rounds is the interval while deliveries land; after [n]
    rounds in a row that could not deliver it lies between half and all of
    [min(5 min, 5 s * 2^(n-1))], whatever the jitter draws, so it never overflows,
    never exceeds the ceiling and never collapses to a busy loop. *)
Theorem backoff_bounds (s : Shipper) (jitter : Z -> Z) :
  0 <= failures s -> (forall n, 0 < n -> 0 <= jitter n < n) ->
  let d := Z.min maxBackoff (minBackoff * 2 ^ (failures s - 1)) in
  if failures s =? 0 then nextDelay s jitter = interval s
  else d / 2 <= nextDelay s jitter < d /\ minBackoff / 2 <= nextDelay s jitter < maxBackoff.
Proof.
  intros Hn Hj. unfold nextDelay. destruct (Z.eqb_spec (failures s) 0) as [|Hne]; [done|]. cbn zeta.
  pose proof (backoff_loop_closed backoff_fuel 1 (failures s) minBackoff) as Hb.
  rewrite Z.max_r in Hb by lia. specialize (Hb eq_refl ltac:(lia) ltac:(vm_compute; discriminate)).
  set (l := backoff_loop _ _ _ _) in *.
  assert ((if maxBackoff <? l then maxBackoff else l) = Z.min maxBackoff l) as -> by (ltb_cases).
  rewrite Hb. set (d := Z.min maxBackoff _).
  assert (1 <= 2 ^ (failures s - 1)) by (apply (Z.pow_le_mono_r 2 0); lia).
  assert (minBackoff <= d <= maxBackoff) as Hd by (unfold d, minBackoff, maxBackoff, Minute, Second; lia).
  assert (d mod 2 = 0) as Heven.
  { unfold d. destruct (Z.min_spec maxBackoff (minBackoff * 2 ^ (failures s - 1))) as [[_ ->]|[_ ->]]; [done|].
    rewrite Zmult_mod. change (minBackoff mod 2) with 0. done. }
  unfold minBackoff, maxBackoff, Minute, Second in *. rewrite Z.quot_div_nonneg by lia.
  specialize (Hj (d / 2) ltac:(divmod_lia)). rewrite wrap64_id by divmod_lia. divmod_lia.
Qed.

Lemma backoff_bounds_witness :
  let s := set_failures 4 demo_shipper in
  40 * Second / 2 <= nextDelay s (fun n => n - 1) < 40 * Second.
Proof.
  intros s. refine (proj1 (backoff_bounds s (fun n => n - 1) _ _)); [vm_compute; discriminate|intros; lia].
Defined.
