(* ===== verification/Delivery.v ===== *)
(** The shipper over a whole run ([Run], [post] and [encode] of
    [internal/shipper/shipper.go]): a round, a delay, another round, until the agent
    stops or the backend refuses its identity; and the request a payload leaves
    in.

    [Shipper.Round] says what a round does; here its attempts are followed through
    the directory, and what the shipper counts and how long it waits is read off
    their outcomes. *)

From stdpp Require Import prelude gmap strings.
From Stdlib Require Import ZArith Lia Ascii.
From S2P Require Import Prelude GoTime GoStrings Registry FileNames Spool Shipper.
Local Open Scope Z_scope.
Local Open Scope go_scope.

(** ** The request *)

(** [url.PathEscape]: which bytes of a path segment are written as they are. *)
Definition plain_in_segment (c : ascii) : bool :=
  let r := byte c in
  is_alnum r || existsb (fun d => r =? byte d) ["-"; "_"; "."; "~"; "$"; "&"; "+"; "="; ":"; "@"]%char.
Definition hex_digit (n : Z) : ascii := ascii_of_nat (Z.to_nat (if n <? 10 then 48 + n else 55 + n)).
Fixpoint PathEscape (s : string) : string :=
  match s with
  | EmptyString => EmptyString
  | String c s =>
      if plain_in_segment c then String c (PathEscape s)
      else String "%" (String (hex_digit (byte c / 16)) (String (hex_digit (byte c mod 16)) (PathEscape s)))
  end.

(** [strings.TrimRight(base, "/")]. *)
Fixpoint trim_slashes (s : string) : string :=
  match s with
  | EmptyString => EmptyString
  | String c s => match trim_slashes s with EmptyString => if bool_decide (c = "/"%char) then EmptyString else String c EmptyString | t => String c t end
  end.

Record http_request := mkHttpRequest {
  rq_url : string; rq_userAgent : string; rq_contentType : string; rq_contentEncoding : string; rq_body : string;
}.
(** [gzip] is compress/gzip's; writing to a buffer does not fail. *)
Definition post (gzip : string -> string) (base agent kind body : string) : http_request :=
  mkHttpRequest (trim_slashes base +:+ "/v1/kubernetes/" +:+ PathEscape kind) agent "application/json" "gzip" (gzip body).

Lemma PathEscape_plain s : forallb plain_in_segment (String.list_ascii_of_string s) = true -> PathEscape s = s.
Proof. induction s as [|c s IH]; [done|]. cbn. intros [-> Hs]%andb_true_iff. by rewrite IH. Qed.
(** Every kind of the registry is a path segment as it is. *)
Lemma registered_segment kind entry : Lookup kind = Some entry -> PathEscape kind = kind.
Proof.
  intros H. assert (forallb (fun p => forallb plain_in_segment (String.list_ascii_of_string (Kind p))) registry = true) as Hall by (vm_compute; reflexivity).
  apply PathEscape_plain. apply lookup_in_Some in H as [Hin <-]; [|exact registry_kinds].
  rewrite forallb_forall in Hall. apply Hall. by apply list_elem_of_In.
Qed.

(** ** A run *)

(** What the surroundings give one turn of the loop: whether the agent stops before
    the timer fires, what the writers do while it waits, and its round. *)
Record turn := mkTurn {
  tn_stops : bool; tn_jitter : Z -> Z; tn_between : sdir -> sdir; tn_raced : gset string; tn_ws : string -> delivery;
}.

Section run.
Context (envelope_kind : string -> option string).

(** Each round with the delay before it.  A halted shipper waits for the end, and
    one that stops is not asked again. *)
Fixpoint Run (ts : list turn) (s : Shipper) (d : sdir) : Shipper * sdir * list (Duration * list (string * option (string * string))) :=
  match ts with
  | [] => (s, d, [])
  | t :: ts =>
      if tn_stops t then (s, d, [])
      else
        let delay := nextDelay s (tn_jitter t) in
        let '(s, d, tried) := Round envelope_kind (tn_raced t) (tn_ws t) s (tn_between t d) in
        if halted s then (s, d, [(delay, tried)])
        else let '(s, d, log) := Run ts s d in (s, d, (delay, tried) :: log)
  end.
End run.

(** ** Attempts *)

Inductive outcome := OUnreadable | OTooLarge | ODelivered | OUnauthorized | OMalformed | ODeferred | OCut.
#[export] Instance outcome_eq_dec : EqDecision outcome.
Proof. solve_decision. Defined.

Section attempts.
Context (envelope_kind : string -> option string).

(** What becomes of a name when its turn comes. *)
Definition outcome_of (w : delivery) (name : string) (d : sdir) : outcome :=
  match d !! name with
  | Some (SFile f) =>
      if negb (readable w) then OUnreadable
      else if MaxPayloadBytes <? size_of (content f) then OTooLarge
      else match payloadKind envelope_kind (content f), answer w with
           | None, _ => OUnreadable
           | _, None => if cancelled_after w then OCut else ODeferred
           | _, Some status =>
               if (200 <=? status) && (status <? 300) then ODelivered
               else if (status =? 401) || (status =? 403) then OUnauthorized
               else if status =? 400 then OMalformed
               else if status =? 413 then OTooLarge else ODeferred
           end
  | _ => OUnreadable
  end.

Record attempt := mkAttempt {
  at_name : string; at_delivery : delivery; at_before : sdir; at_posted : option (string * string); at_after : sdir;
}.
Definition at_outcome (a : attempt) : outcome := outcome_of (at_delivery a) (at_name a) (at_before a).

(** The attempts of a round, with the directory around each. *)
Fixpoint tries (ws : string -> delivery) (l : list spooled) (s : Shipper) (d : sdir) : list attempt :=
  match l with
  | [] => []
  | f :: l =>
      if cancelled (ws (sp_name f)) then []
      else
        let '(s, d', continue, posted) := deliver envelope_kind (ws (sp_name f)) (sp_name f) s d in
        mkAttempt (sp_name f) (ws (sp_name f)) d posted d' :: if continue then tries ws l s d' else []
  end.

(** What the round itself remembers of its attempts, and how they came out. *)
Definition noted (l : list attempt) : list (string * option (string * string)) := (fun a => (at_name a, at_posted a)) <$> l.
Definition outs (l : list attempt) : list outcome := at_outcome <$> l.

(** Each attempt starts where the last one ended. *)
Fixpoint linked (d : sdir) (l : list attempt) (d' : sdir) : Prop :=
  match l with [] => d' = d | a :: l => at_before a = d /\ linked (at_after a) l d' end.

(** What an attempt posts is a payload of the spool, whole; what it removes, beyond
    what others did meanwhile, is what was delivered, still in place. *)
Definition attempt_ok (a : attempt) : Prop :=
  (at_posted a = None -> at_after a = at_before a) /\
  (forall kind body, at_posted a = Some (kind, body) ->
     exists f, at_before a !! at_name a = Some (SFile f) /\ body = content f /\ size_of body <= MaxPayloadBytes /\ is_Some (Lookup kind) /\
       (at_after a = meanwhile (at_delivery a) (at_before a) \/
        at_after a = delete (at_name a) (meanwhile (at_delivery a) (at_before a)) /\ at_outcome a = ODelivered /\
        exists current, meanwhile (at_delivery a) (at_before a) !! at_name a = Some (SFile current) /\ ident current = ident f)).

(** *** What the shipper counts *)

Fixpoint times (o : outcome) (l : list outcome) : Z :=
  match l with [] => 0 | x :: l => (if decide (x = o) then 1 else 0) + times o l end.
(** Deferrals since the last delivery. *)
Definition streak (l : list outcome) : Z :=
  foldl (fun n o => match o with ODelivered => 0 | ODeferred => n + 1 | _ => n end) 0 l.

Record accounts (l : list outcome) (s : Shipper) : Prop := {
  ac_delivered : Delivered (counts s) = wrapU64 (times ODelivered l);
  ac_deferred : Deferred (counts s) = wrapU64 (times ODeferred l);
  ac_unreadable : Unreadable (counts s) = wrapU64 (times OUnreadable l);
  ac_unauthorized : RejectedUnauthorized (counts s) = wrapU64 (times OUnauthorized l);
  ac_tooLarge : RejectedTooLarge (counts s) = wrapU64 (times OTooLarge l);
  ac_malformed : RejectedMalformed (counts s) = wrapU64 (times OMalformed l);
  ac_failures : failures s = wrap64 (streak l);
}.

Lemma times_app o l l' : times o (l ++ l') = times o l + times o l'.
Proof. induction l as [|x l IH]; cbn [times app]; [lia|]. rewrite IH. lia. Qed.
Lemma streak_snoc l o : streak (l ++ [o]) = match o with ODelivered => 0 | ODeferred => streak l + 1 | _ => streak l end.
Proof. unfold streak. by rewrite foldl_app. Qed.

Definition bump (o : outcome) : Shipping -> Shipping :=
  match o with
  | ODelivered => incDelivered | ODeferred => incDeferred | OUnreadable => incUnreadable | OUnauthorized => incUnauthorized
  | OTooLarge => incTooLarge | OMalformed => incMalformed | OCut => id
  end.
Definition tally (c : Shipping) :=
  (Delivered c, Deferred c, Unreadable c, RejectedUnauthorized c, RejectedTooLarge c, RejectedMalformed c).
Lemma accounts_step o l s s' :
  tally (counts s') = tally (bump o (counts s)) ->
  failures s' = match o with ODelivered => 0 | ODeferred => failures s +w 1 | _ => failures s end ->
  accounts l s -> accounts (l ++ [o]) s'.
Proof.
  intros [= E1 E2 E3 E4 E5 E6] Hf [H1 H2 H3 H4 H5 H6 H7].
  split; rewrite ?E1, ?E2, ?E3, ?E4, ?E5, ?E6, ?Hf, ?times_app, ?streak_snoc; destruct o; cbn -[wrap64 wrapU64];
    rewrite ?H1, ?H2, ?H3, ?H4, ?H5, ?H6, ?H7; rewrite ?wrapU64_add_l, ?wrap64_add_l, ?Z.add_0_r; done.
Qed.

(** One delivery: its outcome decides the counters, whether the round goes on and
    whether shipping halts. *)
Definition goes_on_after (o : outcome) : bool := bool_decide (o ∈ [OUnreadable; OTooLarge; ODelivered; OMalformed]).
Lemma deliver_outcome w name s d l :
  let '(s', d', continue, posted) := deliver envelope_kind w name s d in
  let o := outcome_of w name d in
  (accounts l s -> accounts (l ++ [o]) s') /\ interval s' = interval s /\ attempt_ok (mkAttempt name w d posted d') /\
  continue = goes_on_after o /\ haltedAt s' = (if decide (o = OUnauthorized) then UnixNano (clock w) else haltedAt s).
Proof.
  unfold deliver, outcome_of, attempt_ok, at_outcome; cbn [at_name at_delivery at_before at_posted at_after]; unfold outcome_of.
  destruct (d !! name) as [[|f]|] eqn:Ed; [split_and!; try done; by apply accounts_step| |split_and!; try done; by apply accounts_step].
  destruct (readable w); cbn [negb]; [|split_and!; try done; by apply accounts_step].
  destruct (Z.ltb_spec MaxPayloadBytes (size_of (content f))) as [|Hsz]; [split_and!; try done; by apply accounts_step|].
  destruct (payloadKind envelope_kind (content f)) as [kind|] eqn:Hk; [|split_and!; try done; by apply accounts_step].
  assert (is_Some (Lookup kind)) as HL.
  { unfold payloadKind in Hk. destruct (envelope_kind (content f)) as [k|]; cbn [mbind option_bind] in Hk; [|done].
    case_bool_decide; [done|]. destruct (Lookup k) eqn:EL; [|done]. simplify_eq. done. }
  assert (Hposted : forall (kind' body' : string) (d' : sdir) (o : outcome),
    d' = meanwhile w d \/ (d' = delete name (meanwhile w d) /\ o = ODelivered /\
      exists current, meanwhile w d !! name = Some (SFile current) /\ ident current = ident f) ->
    Some (kind, content f) = Some (kind', body') ->
    exists f0, Some (SFile f) = Some (SFile f0) /\ body' = content f0 /\ size_of body' <= MaxPayloadBytes /\ is_Some (Lookup kind') /\
      (d' = meanwhile w d \/ d' = delete name (meanwhile w d) /\ o = ODelivered /\
       exists current, meanwhile w d !! name = Some (SFile current) /\ ident current = ident f0)).
  { intros kind' body' d' o Hd [= <- <-]. exists f. by split_and!. }
  destruct (answer w) as [status|]; [|destruct (cancelled_after w); split_and!; try done; try (by apply accounts_step); intros ? ?; apply Hposted; by left].
  destruct ((200 <=? status) && (status <? 300)).
  { set (s1 := count _ s). pose proof (acknowledged_dir name (ident f) w s1 (meanwhile w d)) as Hd.
    assert (exists s', acknowledged name (ident f) w s1 (meanwhile w d) = (s', (acknowledged name (ident f) w s1 (meanwhile w d)).2) /\
      s' = set_failures 0 (count incDelivered s1)) as (s' & E & ->) by (unfold acknowledged; repeat case_match; by eexists).
    rewrite E. destruct (acknowledged _ _ _ _ _) as [s' d']. cbn [snd] in *. split_and!; try done; [by apply accounts_step|].
    intros kind' body'. apply Hposted. destruct Hd as [->|(-> & cur & Hc & Hi)]; [by left|right]. split_and!; [done|done|by exists cur]. }
  repeat (match goal with |- context [if ?b then _ else _] => lazymatch b with context [status] => destruct b end end);
    (split_and!; try done; try (by apply accounts_step); intros ? ?; apply Hposted; by left).
Qed.

(** A round: its attempts in a row, each on what the last one left, until the first
    outcome that does not go on. *)
Definition stops_at (os : list outcome) : Prop := forall pre o post, os = pre ++ o :: post -> post <> [] -> goes_on_after o = true.
Record round_ok (s s' : Shipper) (d d' : sdir) (l : list attempt) : Prop := {
  ro_linked : linked d l d';
  ro_ok : Forall attempt_ok l;
  ro_accounts : forall os, accounts os s -> accounts (os ++ outs l) s';
  ro_interval : interval s' = interval s;
  ro_stops : stops_at (outs l);
  ro_halted : halted s' = halted s || bool_decide (OUnauthorized ∈ outs l);
}.

Lemma ship_loop_tries ws l s d :
  (forall n, UnixNano (clock (ws n)) <> 0) ->
  let '(s', d', attempted) := ship_loop envelope_kind ws l s d in
  attempted = noted (tries ws l s d) /\ round_ok s s' d d' (tries ws l s d).
Proof.
  intros Hclk. assert (Hnil : forall s d, round_ok s s d d []).
  { intros s0 d0. split; [done|constructor| |done|by intros []|by rewrite orb_false_r]. intros os. by rewrite app_nil_r. }
  revert s d. induction l as [|f l IH]; intros s d; cbn [ship_loop tries]; [done|].
  destruct (cancelled (ws (sp_name f))); [done|].
  pose proof (fun os => deliver_outcome (ws (sp_name f)) (sp_name f) s d os) as Ho.
  destruct (deliver envelope_kind (ws (sp_name f)) (sp_name f) s d) as [[[s1 d1] continue] posted].
  set (a := mkAttempt (sp_name f) (ws (sp_name f)) d posted d1) in *.
  change (outcome_of (ws (sp_name f)) (sp_name f) d) with (at_outcome a) in Ho. destruct (Ho []) as (_ & Hi & Ha & Hc & Hh).
  assert (halted s1 = halted s || bool_decide (at_outcome a = OUnauthorized)) as Hh1.
  { unfold halted. rewrite Hh. destruct (decide (at_outcome a = OUnauthorized)) as [->|Hne].
    - rewrite bool_decide_eq_true_2, orb_true_r by done. by rewrite (proj2 (Z.eqb_neq _ _) (Hclk (sp_name f))).
    - by rewrite bool_decide_eq_false_2, orb_false_r by done. }
  assert (Hacc : forall os, accounts os s -> accounts (os ++ [at_outcome a]) s1) by (intros os; apply (Ho os)).
  destruct continue.
  - specialize (IH s1 d1). destruct (ship_loop envelope_kind ws l s1 d1) as [[s2 d2] attempted].
    destruct IH as [-> [L1 L2 L3 L4 L5 L6]]. split; [done|]. split; cbn [linked outs noted fmap list_fmap]; [done|by constructor| |congruence| |].
    + intros os Hos. rewrite cons_middle, app_assoc. by apply L3, Hacc.
    + intros [|x pre] o post; [intros [= <- _] _; by rewrite <-Hc|intros [= _ E]; by apply (L5 pre)].
    + rewrite L6, Hh1, <-orb_assoc. f_equal. rewrite <-bool_decide_or. apply bool_decide_ext. rewrite elem_of_cons. naive_solver.
  - split; [done|]. split; cbn [linked outs noted fmap list_fmap]; [done|by constructor|done|done| |].
    + intros pre o post E Hne. destruct pre as [|x [|]]; [by injection E as _ <-|done..].
    + rewrite Hh1. f_equal. apply bool_decide_ext. rewrite list_elem_of_singleton. naive_solver.
Qed.

Definition round_tries (raced : gset string) (ws : string -> delivery) (s : Shipper) (d : sdir) : list attempt :=
  if halted s then [] else let '(l, s) := pending raced s d in tries ws l s d.
Lemma Round_tries raced ws s d :
  (forall n, UnixNano (clock (ws n)) <> 0) ->
  let '(s', d', attempted) := Round envelope_kind raced ws s d in
  attempted = noted (round_tries raced ws s d) /\ round_ok s s' d d' (round_tries raced ws s d).
Proof.
  intros Hclk. unfold Round, round_tries. destruct (halted s) eqn:Eh.
  { split; [done|]. split; [done|constructor| |done|by intros []|by rewrite orb_false_r]. intros os. by rewrite app_nil_r. }
  unfold pending. destruct (foldl _ _ _) as [still out].
  pose proof (ship_loop_tries ws (sort_slice earlier out) (set_held still s) d Hclk) as H.
  destruct (ship_loop _ _ _ _ _) as [[s' d'] attempted]. destruct H as [Hat [L1 L2 L3 L4 L5 L6]]. split; [exact Hat|].
  split; try done. intros os [A1 A2 A3 A4 A5 A6 A7]. apply L3. by split.
Qed.

(** *** Delays *)

Lemma nextDelay_bounds s jitter :
  interval s = DefaultInterval -> (forall n, 0 < n -> 0 <= jitter n < n) -> minBackoff / 2 <= nextDelay s jitter < maxBackoff.
Proof.
  intros Hi Hj. unfold nextDelay. case_match; [rewrite Hi; vm_compute; intuition discriminate|]. cbn zeta.
  pose proof (backoff_loop_closed backoff_fuel 1 (failures s) minBackoff eq_refl ltac:(lia) ltac:(vm_compute; discriminate)) as Hb.
  set (l := backoff_loop _ _ _ _) in *.
  assert ((if maxBackoff <? l then maxBackoff else l) = Z.min maxBackoff l) as -> by (ltb_cases).
  rewrite Hb. set (d := Z.min maxBackoff _).
  assert (1 <= 2 ^ Z.max 0 (failures s - 1)) by (apply (Z.pow_le_mono_r 2 0); lia).
  assert (minBackoff <= d <= maxBackoff) as Hd by (unfold d, minBackoff, maxBackoff, Minute, Second; lia).
  unfold minBackoff, maxBackoff, Minute, Second in *. rewrite Z.quot_div_nonneg by lia.
  specialize (Hj (d / 2) ltac:(divmod_lia)). rewrite wrap64_id by divmod_lia. divmod_lia.
Qed.

(** *** A run *)

Definition turn_sane (t : turn) : Prop :=
  (forall n, 0 < n -> 0 <= tn_jitter t n < n) /\ (forall n, UnixNano (clock (tn_ws t n)) <> 0).

(** The attempts of every round, what happens between rounds being what the
    surroundings did. *)
Fixpoint rounds_linked (ts : list turn) (d : sdir) (history : list (list attempt)) (d' : sdir) {struct history} : Prop :=
  match history with
  | [] => d' = d
  | l :: history =>
      match ts with [] => False | t :: ts => exists d1, linked (tn_between t d) l d1 /\ rounds_linked ts d1 history d' end
  end.

Definition outcomes (history : list (list attempt)) : list outcome := outs (concat history).

Lemma Run_history ts s d os :
  Forall turn_sane ts -> halted s = false -> interval s = DefaultInterval -> accounts os s -> OUnauthorized ∉ os ->
  let '(s', d', log) := Run envelope_kind ts s d in
  exists history,
    log.*2 = noted <$> history /\ rounds_linked ts d history d' /\
    Forall (Forall attempt_ok) history /\ Forall (fun l => stops_at (outs l)) history /\
    Forall (fun r => minBackoff / 2 <= r.1 < maxBackoff) log /\ accounts (os ++ outcomes history) s' /\
    (halted s' = true <-> OUnauthorized ∈ outcomes history) /\
    (forall pre post, outcomes history = pre ++ OUnauthorized :: post -> post = []).
Proof.
  intros Hts. revert s d os. induction Hts as [|t ts [Hj Hclk] _ IH]; intros s d os Hh Hi Ha Hos; cbn [Run].
  { exists []. rewrite app_nil_r. split_and!; try done; [|by intros []]. rewrite Hh. split; [done|]. by intros ?%elem_of_nil. }
  assert (Hstop : exists history : list (list attempt), [] = noted <$> history /\
    rounds_linked (t :: ts) d history d /\ Forall (Forall attempt_ok) history /\ Forall (fun l => stops_at (outs l)) history /\
    accounts (os ++ outcomes history) s /\ (halted s = true <-> OUnauthorized ∈ outcomes history) /\
    (forall pre post, outcomes history = pre ++ OUnauthorized :: post -> post = [])).
  { exists []. rewrite app_nil_r. split_and!; try done; [|by intros []]. rewrite Hh. split; [done|]. by intros ?%elem_of_nil. }
  destruct (tn_stops t); [destruct Hstop as (h & H1 & H2 & H3 & H4 & H5 & H6 & H7); exists h; by split_and!|]. clear Hstop.
  pose proof (nextDelay_bounds s (tn_jitter t) Hi Hj) as Hdelay.
  pose proof (Round_tries (tn_raced t) (tn_ws t) s (tn_between t d) Hclk) as Hr.
  set (l := round_tries _ _ _ _) in *.
  destruct (Round envelope_kind (tn_raced t) (tn_ws t) s (tn_between t d)) as [[s1 d1] attempted].
  destruct Hr as [-> [L1 L2 L3 L4 L5 L6]]. rewrite Hh in L6. cbn [orb] in L6.
  destruct (halted s1) eqn:Eh.
  - symmetry in L6. apply bool_decide_eq_true in L6. exists [l]. unfold outcomes. cbn [concat]. rewrite app_nil_r.
    split_and!; try done; [exists d1; split; [exact L1|reflexivity]|by constructor|by constructor|by constructor|by apply L3|].
    intros pre post E. destruct post as [|o post]; [done|]. by specialize (L5 pre OUnauthorized (o :: post) E ltac:(done)).
  - symmetry in L6. apply bool_decide_eq_false in L6.
    specialize (IH s1 d1 (os ++ outs l) Eh ltac:(congruence) (L3 os Ha)).
    destruct (Run envelope_kind ts s1 d1) as [[s2 d2] log]. destruct IH as (h & H1 & H2 & H3 & H4 & H5 & H6 & H7 & H8).
    { rewrite elem_of_app. tauto. }
    exists (l :: h). assert (outcomes (l :: h) = outs l ++ outcomes h) as Eo by (unfold outcomes; cbn [concat]; apply fmap_app).
    rewrite Eo. split_and!; [cbn; by rewrite H1|exists d1; split; [exact L1|done]|by constructor|by constructor|by constructor|by rewrite app_assoc| |].
    + rewrite H7, elem_of_app. tauto.
    + intros pre post E. apply app_eq_inv in E as [(k & E1 & E2)|(k & E1 & E2)]; [|by apply (H8 k)].
      destruct k as [|o k]; [by apply (H8 [])|]. exfalso. apply L6. injection E2 as <- _. rewrite E1. set_solver.
Qed.
End attempts.

(** ** Properties *)

(** C4. Shipping over a whole run, whatever the backend answers and the writers do
    meanwhile.  What is posted is each time a registered payload of the spool,
    whole; and nothing leaves the spool but what others removed and what the
    backend took, still the file that was posted.  Every attempt is counted once,
    by its outcome; the backoff is the deferrals since the last delivery, and no
    delay is below half of its minimum or above its ceiling.  A round stops at the
    first payload the backend could not take, and shipping halts at a refused
    identity, which is then the last attempt of the run. *)
Theorem shipping_over_a_run (envelope_kind : string -> option string) (base version : string) (s : Shipper) (ts : list turn) (d : sdir) :
  New base version = Some s -> Forall turn_sane ts ->
  let '(s', d', log) := Run envelope_kind ts s d in
  exists history,
    log.*2 = noted <$> history /\ rounds_linked ts d history d' /\
    Forall (Forall (attempt_ok envelope_kind)) history /\
    Forall (fun l => stops_at (outs envelope_kind l)) history /\
    Forall (fun r => minBackoff / 2 <= r.1 < maxBackoff) log /\ accounts (outcomes envelope_kind history) s' /\
    (halted s' = true <-> OUnauthorized ∈ outcomes envelope_kind history) /\
    (forall pre post, outcomes envelope_kind history = pre ++ OUnauthorized :: post -> post = []).
Proof.
  unfold New. case_bool_decide; [done|]. intros [= <-] Hts.
  apply (Run_history envelope_kind ts _ d [] Hts); [done|done|by split|by apply not_elem_of_nil].
Qed.

(** Three turns: a delivery, an outage, a refused identity; the fourth is never
    made. *)
Definition demo_turn (status : option Z) : turn :=
  mkTurn false (fun n => n - 1) (fun d => <["restarts-0-3600.json"%string := SFile (demo_file 9)]> d) ∅
    (fun _ => mkDelivery false true 30 status false (fun d => d) true (unixEpoch + 2 * Hour)).
Definition demo_turns : list turn := [demo_turn (Some 202); demo_turn None; demo_turn (Some 401); demo_turn (Some 202)].

Lemma shipping_over_a_run_witness :
  exists s' d' log history, Run demo_kind demo_turns demo_shipper demo_dir = (s', d', log) /\
    log.*1 = [30 * Second; 30 * Second; 5 * Second - 1] /\
    rounds_linked demo_turns demo_dir history d' /\ OUnauthorized ∈ outcomes demo_kind history /\ halted s' = true.
Proof.
  pose proof (shipping_over_a_run demo_kind "https://backend" "" demo_shipper demo_turns demo_dir eq_refl) as H.
  assert (exists s' d' log, Run demo_kind demo_turns demo_shipper demo_dir = (s', d', log) /\ log.*1 = [30 * Second; 30 * Second; 5 * Second - 1] /\
    (Delivered (counts s'), Deferred (counts s'), RejectedUnauthorized (counts s')) = (1, 1, 1) /\ halted s' = true) as (s' & d' & log & E & Hl & Hc & Hh)
    by (vm_compute; do 3 eexists; split_and!; reflexivity).
  rewrite E in H. destruct H as (history & _ & Hlink & _ & _ & _ & _ & [Hhalt _] & Hlast); [repeat constructor; cbn; try lia; discriminate|].
  exists s', d', log, history. split_and!; [done|done|done| |done]. apply (Hhalt Hh).
Defined.
