(* ===== verification/Writers.v ===== *)
(** What the spool writes, [internal/sink/spool.go]: the payload of each kind, the
    file it goes to, and the writers that fill one and hand it to [write].

    encoding/json is the parameter [json].  A list is written as it stands, nil
    or empty alike: the writers that care replace a nil list by an empty one. *)

From stdpp Require Import prelude gmap strings list.
From Stdlib Require Import ZArith Lia Ascii.
From S2P Require Import Prelude GoTime GoStrings FileNames Registry Spool.
From S2P Require Model UsageRecord Network Usage Restarts Disruptions JobRuns NodeEvents Goroutines States Counters.
From S2P Require Config Metadata Revisions Policy NodeReport Inventory NodeIntake Probe Readings Pull Shipper Recover.
Local Open Scope Z_scope.
Local Open Scope go_scope.

(** ** Payloads *)

Record AgentInfo := mkAgentInfo { ag_Version : string; ag_Config : Config.Shape; ag_UsageSignals : list string }.
Record ProfileDrops := mkProfileDrops { ThirdPartyFrames : Z; UnsymbolizedFrames : Z; SamplesTouched : Z }.

Record coverage := mkCoveragePayload {
  co_Since : Time; co_Agent : AgentInfo; co_Sources : list Policy.SourceHealth; co_Filter : Model.Coverage;
  co_Placement : Model.PlacementDrops; co_Nodes : Model.NodeDrops; co_Inventory : option Inventory.InventoryCounters;
  co_Scan : option Inventory.ScanCoverage_; co_EBPF : option (Inventory.ProfileCoverage_ * Z * Z) (** with the profiles received and unjoined *); co_Pprof : option Probe.ProbeCoverage;
  co_Intake : option NodeIntake.IntakeRejections; co_PprofPull : option Pull.PullCoverage;
  co_GoroutineCounts : option Readings.CountCoverage; co_Shipping : option (Shipper.Shipping * option Time);
}.

(** One constructor per kind, its fields besides the kind and the source.  [at_]
    is the capture time. *)
Inductive payload :=
| UsageSnapshot (k : windowKey) (obs : Usage.Observation) (records : list UsageRecord.Record_)
| UsageWindow (k : windowKey) (obs : Usage.Observation) (records : list UsageRecord.Record_)
| NetworkWindow (k : windowKey) (obs : Usage.Observation) (records : list Network.NetworkRecord)
| CollectionCoverage (at_ : Time) (c : coverage)
| ContainerRestarts (at_ : Time) (k : windowKey) (records : list Restarts.RestartRecord)
| PodDisruptions (at_ : Time) (k : windowKey) (records : list Disruptions.DisruptionRecord)
| AgentStates (at_ : Time) (k : windowKey) (records : list States.StateRecord)
| AgentCounters (at_ : Time) (k : windowKey) (records : list Counters.CounterRecord)
| NodeLifecycle (at_ : Time) (k : windowKey) (records : list NodeEvents.NodeEventRecord)
| JobRuns (at_ : Time) (k : windowKey) (records : list JobRuns.JobRunRecord)
| GoroutineCounts (at_ : Time) (k : windowKey) (records : list Goroutines.GoroutineRecord)
| OOM (e : Model.OOMKill)
| RestartCounters (at_ : Time) (records : list Model.RestartCounter)
| GoInventory (at_ : Time) (c : Inventory.InventoryCoverage) (records : list Inventory.GoRecord)
| ProcessPeaks (at_ : Time) (records : list Inventory.PeakRecord)
| ProcessCounters (at_ : Time) (records : list Inventory.CounterRecord)
| ListeningPorts (at_ : Time) (records : list Inventory.PortRecord)
| GoBuild (b : Inventory.BuildFacts)
| WorkloadMetadata (at_ : Time) (records : list Metadata.Record_)
| NodeMetadata (at_ : Time) (nodes : list Model.NodeInfo)
| WorkloadRevisions (at_ : Time) (records : list Revisions.RevisionRecord)
| WorkloadPolicy (at_ : Time) (unavailable : list string) (records : list Policy.WorkloadPolicy)
| ClusterPolicy (at_ : Time) (unavailable : list string) (policy : Policy.ClusterPolicy)
| EBPFProfile (key : ProfileKey) (pprof : string)
| PprofProfile (key : ProfileKey) (pprof : string) (dropped : ProfileDrops).

Definition payload_kind (p : payload) : string :=
  match p with
  | UsageSnapshot _ _ _ => Recover.kindUsageSnapshot
  | UsageWindow _ _ _ => "usage_window"
  | NetworkWindow _ _ _ => "network_window"
  | CollectionCoverage _ _ => "collection_coverage"
  | ContainerRestarts _ _ _ => Recover.kindContainerRestarts
  | PodDisruptions _ _ _ => Recover.kindPodDisruptions
  | AgentStates _ _ _ => Recover.kindAgentStates
  | AgentCounters _ _ _ => Recover.kindAgentCounters
  | NodeLifecycle _ _ _ => Recover.kindNodeLifecycle
  | JobRuns _ _ _ => Recover.kindJobRuns
  | GoroutineCounts _ _ _ => Recover.kindGoroutineCounts
  | OOM _ => "oom_kill"
  | RestartCounters _ _ => "restart_counters"
  | GoInventory _ _ _ => "go_inventory"
  | ProcessPeaks _ _ => "process_peaks"
  | ProcessCounters _ _ => "process_counters"
  | ListeningPorts _ _ => "listening_ports"
  | GoBuild _ => "go_build"
  | WorkloadMetadata _ _ => "workload_metadata"
  | NodeMetadata _ _ => "node_metadata"
  | WorkloadRevisions _ _ => "workload_revisions"
  | WorkloadPolicy _ _ _ => "workload_policy"
  | ClusterPolicy _ _ _ => "cluster_policy"
  | EBPFProfile _ _ => "ebpf_profile"
  | PprofProfile _ _ _ => "pprof_profile"
  end.

Definition payload_source (p : payload) : string :=
  match p with
  | UsageSnapshot _ _ _ | UsageWindow _ _ _ | NetworkWindow _ _ _ | GoroutineCounts _ _ _ | ProcessPeaks _ _
  | ProcessCounters _ _ => SourceMeasured
  | CollectionCoverage _ _ | AgentStates _ _ _ | AgentCounters _ _ _ => SourceAgent
  | ContainerRestarts _ _ _ | PodDisruptions _ _ _ | NodeLifecycle _ _ _ | JobRuns _ _ _ | OOM _ | RestartCounters _ _ => SourceJournal
  | GoInventory _ _ _ | ListeningPorts _ _ | GoBuild _ | WorkloadMetadata _ _ | NodeMetadata _ _ | WorkloadRevisions _ _
  | WorkloadPolicy _ _ _ | ClusterPolicy _ _ _ => SourceStructural
  | EBPFProfile _ _ | PprofProfile _ _ _ => SourceSampled
  end.

Definition oom_name (e : Model.OOMKill) : string :=
  "oom-" +:+ FormatInt (Unix (Model.okFinishedAt e)) +:+ "-" +:+ fileToken (Model.okNamespace e) +:+ "-" +:+ fileToken (Model.okPod e)
  +:+ "-" +:+ fileToken (Model.okContainer e) +:+ "-" +:+ FormatInt (Model.okRestartCount e) +:+ ".json".

Definition payload_file (p : payload) : string :=
  match p with
  | UsageSnapshot k _ _ => name k +:+ usageSnapshotSuffix
  | UsageWindow k _ _ => name k +:+ ".json"
  | NetworkWindow k _ _ => journalWindowName "network-" k
  | CollectionCoverage _ _ => "collection-coverage.json"
  | ContainerRestarts _ k _ => journalWindowName restartsNamePrefix k
  | PodDisruptions _ k _ => journalWindowName disruptionsNamePrefix k
  | AgentStates _ k _ => journalWindowName agentStatesNamePrefix k
  | AgentCounters _ k _ => journalWindowName agentCountersNamePrefix k
  | NodeLifecycle _ k _ => journalWindowName nodeLifecycleNamePrefix k
  | JobRuns _ k _ => journalWindowName jobRunsNamePrefix k
  | GoroutineCounts _ k _ => journalWindowName goroutineCountsNamePrefix k
  | OOM e => oom_name e
  | RestartCounters _ _ => "restart-counters.json"
  | GoInventory _ _ _ => "go-inventory.json"
  | ProcessPeaks _ _ => "process-peaks.json"
  | ProcessCounters _ _ => "process-counters.json"
  | ListeningPorts _ _ => "listening-ports.json"
  | GoBuild b => go_build_name (Inventory.bf_ImageDigest b)
  | WorkloadMetadata _ _ => "workload-metadata.json"
  | NodeMetadata _ _ => "node-metadata.json"
  | WorkloadRevisions _ _ => "workload-revisions.json"
  | WorkloadPolicy _ _ _ => "workload-policy.json"
  | ClusterPolicy _ _ _ => "cluster-policy.json"
  | EBPFProfile key _ => profile_name "profile" key
  | PprofProfile key _ _ => profile_name "pprof" key
  end.

(** ** The writers of one file *)

Section writers.
Context (sha256 : string -> string) (json : payload -> option string).

Definition write_payload (s : Spool) (env : io) (p : payload) : Spool * option write_error :=
  write sha256 s (payload_kind p) (payload_file p) (json p) env.

Definition WriteCollectionCoverage s env at_ c := write_payload s env (CollectionCoverage at_ c).
Definition WriteOOMKill s env e := write_payload s env (OOM e).
Definition WriteRestartCounters s env at_ records := write_payload s env (RestartCounters at_ records).
Definition WriteGoInventory s env at_ cov records := write_payload s env (GoInventory at_ cov records).
Definition WriteProcessPeaks s env at_ records := write_payload s env (ProcessPeaks at_ records).
Definition WriteProcessCounters s env at_ records := write_payload s env (ProcessCounters at_ records).
Definition WriteListeningPorts s env at_ records := write_payload s env (ListeningPorts at_ records).
Definition WriteWorkloadMetadata s env at_ records := write_payload s env (WorkloadMetadata at_ records).
Definition WriteNodeMetadata s env at_ nodes := write_payload s env (NodeMetadata at_ nodes).
Definition WriteWorkloadRevisions s env at_ records := write_payload s env (WorkloadRevisions at_ records).
Definition WriteWorkloadPolicy s env at_ records unavailable := write_payload s env (WorkloadPolicy at_ unavailable records).
Definition WriteClusterPolicy s env at_ policy unavailable := write_payload s env (ClusterPolicy at_ unavailable policy).
Definition WriteProfile s env key pprof := write_payload s env (EBPFProfile key pprof).
Definition WritePulledProfile s env key pprof dropped := write_payload s env (PprofProfile key pprof dropped).

(** Without a digest there is no file to write: the outer [None] of the error. *)
Definition WriteGoBuild (s : Spool) (env : io) (b : Inventory.BuildFacts) : Spool * option (option write_error) :=
  if bool_decide (Inventory.bf_ImageDigest b = ""%string) then (s, Some None)
  else let '(s, e) := write_payload s env (GoBuild b) in (s, Some <$> e).

(** [WriteNetworkWindows], one file per window. *)
Definition network_window (r : Network.NetworkRecord) : windowKey := mkWindowKey (Network.NWindowStart r) (Network.NWindowSeconds r).
Definition WriteNetworkWindows (s : Spool) (obs : Usage.Observation) (env : string -> io) (rs : list Network.NetworkRecord)
    : Spool * option write_error :=
  Recover.write_windows network_window sha256 s "network_window" (journalWindowName "network-")
    (fun k group => json (NetworkWindow k obs group)) env rs.
End writers.

(** ** Names are plain *)

Lemma FormatInt_safe n : all_chars safe_char (FormatInt n) = true.
Proof.
  destruct (Z_le_gt_dec 0 n) as [Hn|Hn].
  - rewrite FormatInt_pos by done. apply all_digits_safe, all_digits_FormatUint.
  - rewrite FormatInt_neg by lia. cbn [all_chars]. rewrite (all_digits_safe _ (all_digits_FormatUint _)). done.
Qed.

Lemma ascii_rune_safe r :
  is_alnum r || (r =? byte "-"%char) || (r =? byte "_"%char) = true -> all_chars safe_char (ascii_rune r) = true.
Proof.
  intros H. assert (Hr : 0 <= r < 256).
  { apply orb_true_iff in H as [[H|H%Z.eqb_eq]%orb_true_iff|H%Z.eqb_eq]; [by apply is_alnum_range|subst; apply byte_range..]. }
  unfold ascii_rune. cbn [all_chars]. unfold safe_char. rewrite byte_ascii_rune by done. by rewrite H.
Qed.

Lemma digestFileToken_safe d : all_chars safe_char (digestFileToken d) = true.
Proof.
  unfold digestFileToken. induction (runes d) as [|r rs IH]; [done|]. cbn [foldr]. rewrite all_chars_app, IH, andb_true_r.
  unfold digest_rune. destruct (_ || _) eqn:E; [by apply ascii_rune_safe|done].
Qed.

Lemma short_loop_safe rs b : all_chars safe_char b = true -> all_chars safe_char (short_loop b rs) = true.
Proof.
  revert b. induction rs as [|r rs IH]; intros b Hb; [done|]. cbn [short_loop].
  match goal with |- context [if ?c then b +:+ ascii_rune r else b] => set (b' := if c then b +:+ ascii_rune r else b) end.
  assert (all_chars safe_char b' = true) as Hb'.
  { subst b'. destruct (_ || _) eqn:E; [|done]. rewrite all_chars_app, Hb. apply ascii_rune_safe. unfold is_alnum.
    apply orb_true_iff in E as [->|E]; [done|]. unfold between in *. apply andb_true_iff in E as [E1 E2].
    assert (Hz : (r <=? byte "z"%char) = true) by (apply Z.leb_le in E2; apply Z.leb_le; change (byte "f"%char) with 102 in E2; change (byte "z"%char) with 122; lia).
    by rewrite E1, Hz, !orb_true_r. }
  destruct (_ =? _)%nat; [done|by apply IH].
Qed.
Lemma shortDigest_safe d : all_chars safe_char (shortDigest d) = true.
Proof. unfold shortDigest. case_bool_decide; [done|]. by apply short_loop_safe. Qed.
Lemma fileToken_chars s : all_chars safe_char (fileToken s) = true.
Proof. apply fileToken_is_safe. Qed.

Lemma payload_file_safe p : all_chars safe_char (payload_file p) = true /\ HasSuffix (payload_file p) ".json" = true.
Proof.
  assert (Hsuf : forall s t, HasSuffix t ".json" = true -> HasSuffix (s +:+ t) ".json" = true).
  { intros s t [r ->]%HasSuffix_Some. rewrite string_app_assoc. apply HasSuffix_app. }
  destruct p; cbn [payload_file]; unfold name, journalWindowName, window_numbers, oom_name, go_build_name, profile_name; split;
    first [ rewrite ?all_chars_app, ?FormatInt_safe, ?digestFileToken_safe, ?shortDigest_safe, ?fileToken_chars; reflexivity
          | repeat match goal with |- HasSuffix (_ +:+ _) _ = true => apply Hsuf end; vm_compute; reflexivity ].
Qed.

Lemma payload_file_plain p : plain_name (payload_file p) = true.
Proof.
  destruct (payload_file_safe p) as [Hs [r Hr]%HasSuffix_Some]. rewrite Hr in *. apply safe_plain; [done| |].
  - intros E. apply (f_equal String.length) in E. rewrite string_app_length in E. cbn in E. lia.
  - rewrite all_chars_app. cbn. by rewrite !andb_false_r.
Qed.

(** ** Names of different kinds differ *)

Definition payload_prefix (p : payload) : string :=
  match p with
  | UsageSnapshot _ _ _ | UsageWindow _ _ _ => usageNamePrefix
  | NetworkWindow _ _ _ => "network-"
  | ContainerRestarts _ _ _ => restartsNamePrefix
  | PodDisruptions _ _ _ => disruptionsNamePrefix
  | AgentStates _ _ _ => agentStatesNamePrefix
  | AgentCounters _ _ _ => agentCountersNamePrefix
  | NodeLifecycle _ _ _ => nodeLifecycleNamePrefix
  | JobRuns _ _ _ => jobRunsNamePrefix
  | GoroutineCounts _ _ _ => goroutineCountsNamePrefix
  | OOM _ => "oom-"
  | GoBuild _ => "go-build-"
  | EBPFProfile _ _ => "profile-"
  | PprofProfile _ _ _ => "pprof-"
  | _ => payload_file p
  end.

Definition usage_file (p : payload) : bool := match p with UsageSnapshot _ _ _ | UsageWindow _ _ _ => true | _ => false end.

Lemma payload_file_prefix p : HasPrefix (payload_file p) (payload_prefix p) = true.
Proof.
  destruct p; cbn [payload_file payload_prefix]; unfold name, journalWindowName, oom_name, go_build_name, profile_name; rewrite <-?string_app_assoc;
    first [apply HasPrefix_app|rewrite string_app_assoc; apply HasPrefix_app|vm_compute; reflexivity].
Qed.

Lemma prefixes_apart p q :
  HasPrefix (payload_prefix p) (payload_prefix q) = true ->
  payload_kind p = payload_kind q \/ (usage_file p = true /\ usage_file q = true).
Proof. destruct p, q; vm_compute; intros H; first [discriminate H|by left|by right]. Qed.

Lemma usage_names_differ k k' : name k +:+ usageSnapshotSuffix <> name k' +:+ ".json".
Proof.
  intros E. change usageSnapshotSuffix with (".snapshot" +:+ ".json")%string in E. rewrite string_app_assoc in E.
  apply (f_equal (fun s => CutSuffix s ".json")) in E. rewrite !CutSuffix_app in E. injection E as E.
  apply (f_equal (has_byte "."%char)) in E. unfold name, window_numbers in E. rewrite !has_byte_app in E.
  assert (Hf : forall n, has_byte "."%char (FormatInt n) = false).
  { intros n. destruct (Z_le_gt_dec 0 n).
    - rewrite FormatInt_pos by done. by apply all_digits_no_byte; [apply all_digits_FormatUint|].
    - rewrite FormatInt_neg by lia. cbn [has_byte]. rewrite (all_digits_no_byte _ "."%char (all_digits_FormatUint (- n))); done. }
  rewrite !Hf in E. vm_compute in E. discriminate E.
Qed.

(** C36. Every payload is registered, and no two kinds share a file.  Whatever a
    payload holds, its kind has a row in the registry, which states the source
    the payload states; its file name is a plain component however hostile the
    names in it; and a payload of another kind has another file name, so none can
    overwrite or acknowledge it. *)
Theorem payload_files_never_collide p q :
  (exists row, Lookup (payload_kind p) = Some row /\ Registry.Source row = payload_source p) /\
  plain_name (payload_file p) = true /\
  (payload_kind p = payload_kind q \/ payload_file p <> payload_file q).
Proof.
  split; [destruct p; eexists; by split|]. split; [apply payload_file_plain|].
  destruct (decide (payload_kind p = payload_kind q)) as [|Hk]; [by left|right]. intros E.
  assert (Husage : usage_file p = true /\ usage_file q = true).
  { pose proof (payload_file_prefix p) as Hp. pose proof (payload_file_prefix q) as Hq. rewrite E in Hp.
    destruct (HasPrefix_compare _ _ _ Hp Hq) as [H|H]; apply prefixes_apart in H as [H|H]; try done; tauto. }
  destruct p, q; try (by destruct Husage); try done; [|symmetry in E]; by apply usage_names_differ in E.
Qed.
