(* ===== verification/Metrics.v ===== *)
(** The agent's own numbers, [internal/metrics/metrics.go] and [collect.go], and
    where each role reads them, [cmd/agent/metrics.go].

    A [Set] is built per scrape by the calls of [Gauge] and [Counter] in program
    order; the calls of a collector are the list [series] and the set what
    [add] makes of them one after another.  A [float64] is IEEE 754 binary64, and
    the conversion of an integer rounds to nearest, ties to even. *)

From stdpp Require Import prelude gmap strings sorting.
From Stdlib Require Import ZArith Lia.
From Stdlib Require SpecFloat.
From S2P Require Import Prelude GoTime GoStrings.
From S2P Require Model Usage Spool Policy NodeIntake Inventory NodeReport Probe Pull Readings Shipper WatchHealth.
Local Open Scope Z_scope.
Local Open Scope string_scope.
Local Open Scope list_scope.

(** ** Numbers *)

Abbreviation float64 := SpecFloat.spec_float (only parsing).
Definition to_float (z : Z) : float64 := SpecFloat.binary_normalize 53 1024 z 0 false.
#[global] Arguments to_float : simpl never.
Definition b2f (v : bool) : float64 := if v then to_float 1 else to_float 0.

(** [Duration.Seconds]. *)
Definition Seconds (d : Duration) : float64 :=
  SpecFloat.SFadd 53 1024 (to_float (Z.quot d Second)) (SpecFloat.SFdiv 53 1024 (to_float (Z.rem d Second)) (to_float Second)).

(** ** A set of families *)

Definition Prefix : string := "runtime_agent_".

Definition LabelRole : string := "role".
Definition LabelVersion : string := "version".
Definition LabelSource : string := "source".
Definition LabelPath : string := "path".
Definition LabelReason : string := "reason".
Definition LabelOutcome : string := "outcome".
Definition LabelKind : string := "kind".
Definition LabelState : string := "state".
Definition LabelSubject : string := "subject".
Definition Allowed : gset string :=
  {[LabelRole; LabelVersion; LabelSource; LabelPath; LabelReason; LabelOutcome; LabelKind; LabelState; LabelSubject]}.

Inductive MetricType := GAUGE | COUNTER.
#[export] Instance MetricType_eq_dec : EqDecision MetricType.
Proof. solve_decision. Defined.

Abbreviation Label := (string * string)%type (only parsing).
Record Metric := mkMetric { mt_Label : list Label; mt_Value : float64 }.
Record MetricFamily := mkFamily { mf_Name : string; mf_Help : string; mf_Type : MetricType; mf_Metric : list Metric }.

Inductive metric_error := LabelNotPermitted (metric label : string) | TwoTypes (metric : string) (was now : MetricType).
Record Set_ := mkSet { order : list string; families : gmap string MetricFamily; err : option metric_error }.
Definition NewSet : Set_ := mkSet [] ∅ None.

Definition fail_ (s : Set_) (e : metric_error) : Set_ :=
  match err s with None => mkSet (order s) (families s) (Some e) | Some _ => s end.

(** One call of [Gauge] or [Counter]. *)
Record series := mkSeries { sr_type : MetricType; sr_name : string; sr_help : string; sr_value : float64; sr_labels : list Label }.
Definition Gauge name help v labels := mkSeries GAUGE name help v labels.
Definition Counter name help v labels := mkSeries COUNTER name help v labels.

Definition full_name (c : series) : string := Prefix +:+ sr_name c.
Definition by_label_name (a b : Label) : bool := go_lt a.1 b.1.
Definition metric_of (c : series) : Metric := mkMetric (sort_slice by_label_name (sr_labels c)) (sr_value c).

Definition add (s : Set_) (c : series) : Set_ :=
  let full := full_name c in
  match List.find (fun l => negb (bool_decide (l.1 ∈ Allowed))) (sr_labels c) with
  | Some l => fail_ s (LabelNotPermitted full l.1)
  | None =>
      match families s !! full with
      | None =>
          mkSet (order s ++ [full])
            (<[full := mkFamily full (sr_help c) (sr_type c) [metric_of c]]> (families s)) (err s)
      | Some fam =>
          if bool_decide (mf_Type fam = sr_type c)
          then mkSet (order s)
                 (<[full := mkFamily (mf_Name fam) (mf_Help fam) (mf_Type fam) (mf_Metric fam ++ [metric_of c])]> (families s)) (err s)
          else fail_ s (TwoTypes full (mf_Type fam) (sr_type c))
      end
  end.

Definition Families (s : Set_) : result metric_error (list MetricFamily) :=
  match err s with
  | Some e => Err e
  | None => Ok (omap (fun name => families s !! name) (sort_slice go_lt (order s)))
  end.

(** ** What both roles say *)

Definition RoleController : string := "controller".
Definition RoleNode : string := "node".
Definition ProfilingStates : list string :=
  ["supported"; "disabled"; "program_load_failed"; "capture_stopped"; "kernel_too_old"; "btf_absent"; "kernel_unknown"].
Definition StateOther : string := "other".
Definition profilingState (state : string) : string := if bool_decide (state ∈ ProfilingStates) then state else StateOther.

Record Process := mkProcess { Role : string; Version : string; PassStart : Time; pr_Deadline : Duration }.

Definition process (p : Process) : list series :=
  [Gauge "build_info" "The agent build that is running, always 1." (to_float 1) [(LabelRole, Role p); (LabelVersion, Version p)];
   Gauge "pass_start_timestamp_seconds" "When the role's own loop last reached the top of a pass." (to_float (Unix (PassStart p))) [];
   Gauge "pass_deadline_seconds" "How stale that stamp may be before the role reports itself not alive." (Seconds (pr_Deadline p)) []].

Definition scanProcesses (c : NodeReport.Counters) : list series :=
  let walked outcome v :=
    Gauge "scan_processes" "Processes the latest scan pass walked, and what became of each." (to_float v) [(LabelOutcome, outcome)] in
  [walked "scanned" (NodeReport.ProcessesScanned c); walked "go_found" (NodeReport.GoFound c);
   walked "filtered_scope" (NodeReport.FilteredScope c); walked "filtered_infra" (NodeReport.FilteredInfra c);
   walked "unreadable" (NodeReport.Unreadable c)].

Definition ebpf (c : NodeReport.ProfilingCoverage) : list series :=
  let empty reason v :=
    Gauge "ebpf_windows_empty" "Capture windows that produced nothing, by reason (ADR 0060)." (to_float v) [(LabelReason, reason)] in
  let profiles outcome v := Gauge "ebpf_profiles" "Profiles built, by what became of each." (to_float v) [(LabelOutcome, outcome)] in
  let dropped reason v :=
    Gauge "ebpf_samples_dropped"
      "Samples and frames dropped, by reason; third_party rising means an allow-list that stopped matching (ADR 0059)."
      (to_float v) [(LabelReason, reason)] in
  [Gauge "ebpf_windows" "Capture windows cut." (to_float (NodeReport.Windows c)) [];
   empty "no_scope" (NodeReport.WindowsNoScope c); empty "no_targets" (NodeReport.WindowsNoTargets c);
   empty "no_samples" (NodeReport.WindowsNoSamples c);
   profiles "shipped" (NodeReport.ProfilesShipped c); profiles "invalid" (NodeReport.ProfilesInvalid c);
   profiles "unshipped" (NodeReport.ProfilesUnshipped c);
   dropped "out_of_scope" (NodeReport.SamplesOutOfScope c); dropped "third_party" (NodeReport.ThirdPartyDropped c);
   dropped "unsymbolized" (NodeReport.UnsymbolizedDropped c); dropped "filtered" (NodeReport.SamplesFiltered c)].

(** ** The spool *)

Definition SortedKeys (m : gmap string Z) : list string := sort_slice go_lt (map_to_list m).*1.

Definition per_key (name help label : string) (m : gmap string Z) : list series :=
  (fun k => Counter name help (to_float (Spool.count_of k m)) [(label, k)]) <$> SortedKeys m.

Definition spool_gauges (c : Spool.Spool) : list series :=
  [Gauge "spool_bytes" "Bytes of payload the spool held at the last sweep." (to_float (Spool.bytes c)) [];
   Gauge "spool_files" "Payload files the spool held at the last sweep." (to_float (Spool.files c)) [];
   Gauge "spool_max_bytes" "The spool's byte ceiling." (to_float Spool.DefaultMaxBytes) [];
   Gauge "spool_max_files" "The spool's file-count ceiling." (to_float Spool.DefaultMaxFiles) [];
   Gauge "spool_windows_resumed" "Open usage windows this process resumed from the spool at startup (ADR 0072)."
     (to_float (Spool.rWindows (Spool.recovered c))) [];
   Gauge "spool_journal_windows_resumed" "Open journal windows this process resumed from the spool at startup (ADR 0077)."
     (to_float (Spool.rJournalWindows (Spool.recovered c))) [];
   Gauge "spool_journal_records_resumed" "Records those resumed journal windows carried."
     (to_float (Spool.rJournalRecords (Spool.recovered c))) [];
   Gauge "spool_records_resumed" "Records those resumed windows carried." (to_float (Spool.rRecords (Spool.recovered c))) [];
   Gauge "spool_recovery_files_skipped" "Spool files the startup read could not use. They were left where they are."
     (to_float (Spool.rSkipped (Spool.recovered c))) []].
Definition spool (c : Spool.Spool) : list series :=
  per_key "spool_payloads_written_total" "Payloads written to the spool, by kind." LabelKind (Spool.written_ c) ++
  per_key "spool_write_failures_total" "Spool writes that failed, by payload kind." LabelKind (Spool.writeFailures c) ++
  per_key "spool_payloads_suppressed_total"
    "Payloads a pass assembled and the kind's cadence did not write, by kind (ADR 0073)." LabelKind (Spool.suppressed c) ++
  per_key "spool_evicted_total" "Payloads the sweep removed, by which bound removed them (ADR 0042)." LabelReason (Spool.evicted c) ++
  spool_gauges c.

(** ** The controller *)

Record Controller := mkController {
  cProcess : Process;
  Sources : list Policy.SourceHealth;
  Kubelet : list (Usage.KubeletPath * Z * Z);
  Filter : Model.Coverage;
  Placement : Model.PlacementDrops;
  Nodes : Model.NodeDrops;
  cSpool : Spool.Spool;
  Intake : option NodeIntake.IntakeRejections;
  Inventory_ : option Inventory.InventoryCounters;
  Scan : option Inventory.ScanCoverage_;
  EBPF : option Inventory.ProfileCoverage_;
  Probe : option Probe.ProbeCoverage;
  Pull : option Pull.PullCoverage;
  Counts : option Readings.CountCoverage;
  Shipping : option (Shipper.Shipping * option Time);
  ProfilesReceived : Z;
  ProfilesUnjoined : Z;
}.

Definition path_string (p : Usage.KubeletPath) : string :=
  match p with Usage.PathStatsSummary => "stats_summary" | Usage.PathMetricsCadvisor => "metrics_cadvisor" end.

Definition source_series (s : Policy.SourceHealth) : list series :=
  [Gauge "source_synced" "Whether a watched source's cache ever filled." (b2f (Policy.shSynced s)) [(LabelSource, Policy.shName s)];
   Gauge "source_failing" "Whether a watched source's watch is erroring (ADR 0035)." (b2f (Policy.shFailing s))
     [(LabelSource, Policy.shName s)]].
Definition kubelet_series (r : Usage.KubeletPath * Z * Z) : list series :=
  let '(path, attempted, failed) := r in
  [Counter "kubelet_requests_total" "Kubelet stats requests attempted, by path." (to_float attempted) [(LabelPath, path_string path)];
   Counter "kubelet_request_failures_total" "Kubelet stats requests that failed, by path." (to_float failed)
     [(LabelPath, path_string path)]].

Definition filter_series (f : Model.Coverage) : list series :=
  let excluded reason v :=
    Counter "pods_excluded_total" "Pod appearances excluded from collection, by which control excluded them." (to_float v)
      [(LabelReason, reason)] in
  let unchecked reason v :=
    Counter "pods_optout_unchecked_total" "Pods collected without their workload's opt-out being checked (ADR 0028)." (to_float v)
      [(LabelReason, reason)] in
  let jobsExcluded reason v :=
    Counter "jobs_excluded_total" "Job runs excluded from collection, by which control excluded them." (to_float v)
      [(LabelReason, reason)] in
  [Counter "pods_observed_total" "Pod appearances the filter considered." (to_float (Model.PodsObserved f)) [];
   excluded "namespace_filter" (Model.ExcludedNamespaceFilter f); excluded "namespace_annotation" (Model.ExcludedNamespaceAnnotation f);
   excluded "workload_annotation" (Model.ExcludedWorkloadAnnotation f); excluded "pod_annotation" (Model.ExcludedPodAnnotation f);
   Counter "pods_excluded_from_profiling_total" "Collected pods the profiling opt-out excluded (ADR 0071)."
     (to_float (Model.ExcludedProfilingAnnotation f)) [];
   unchecked "unknown_kind" (Model.WorkloadUnknownKind f); unchecked "not_cached" (Model.WorkloadNotCached f);
   Counter "jobs_observed_total" "Finished Job runs the filter considered." (to_float (Model.JobsObserved f)) [];
   jobsExcluded "namespace_filter" (Model.JobsExcludedNamespaceFilter f);
   jobsExcluded "namespace_annotation" (Model.JobsExcludedNamespaceAnnotation f);
   jobsExcluded "workload_annotation" (Model.JobsExcludedWorkloadAnnotation f);
   jobsExcluded "job_annotation" (Model.JobsExcludedAnnotation f)].

Definition drop_series (p : Model.PlacementDrops) (n : Model.NodeDrops) : list series :=
  let drops subject v :=
    Counter "reduction_drops_total" "Values the reductions refused to carry into a payload (ADR 0031, ADR 0064)." (to_float v)
      [(LabelSubject, subject)] in
  [drops "placement_values" (Model.Values p); drops "placement_terms" (Model.Terms p);
   drops "node_conditions" (Model.ndrConditions n); drops "node_devices" (Model.ndrDevices n);
   drops "node_taints" (Model.ndrTaints n); drops "node_values" (Model.ndrValues n)].

Definition intake_series (r : NodeIntake.IntakeRejections) : list series :=
  let refused reason v :=
    Counter "node_reports_rejected_total" "Node reports the receiver refused, by reason (ADR 0067)." (to_float v) [(LabelReason, reason)] in
  [refused "unauthorized" (NodeIntake.Unauthorized r); refused "too_large" (NodeIntake.TooLarge r);
   refused "malformed" (NodeIntake.Malformed r)].

Definition inventory_series (ic : Inventory.InventoryCounters) : list series :=
  let facts outcome v :=
    Counter "inventory_facts_total" "On-node build facts received, and what became of each (ADR 0010 §5)." (to_float v)
      [(LabelOutcome, outcome)] in
  [Gauge "nodes_reporting" "Nodes that have delivered a scan report." (to_float (Inventory.ic_NodesReported ic)) [];
   Gauge "inventory_records" "Distinct (namespace, workload, container) inventory records held." (to_float (Inventory.ic_Records ic)) [];
   facts "received" (Inventory.ic_FactsReceived ic); facts "joined" (Inventory.ic_FactsJoined ic);
   facts "unjoined" (Inventory.ic_FactsUnjoined ic); facts "undigested" (Inventory.ic_FactsUndigested ic)].

Definition scan_series (sc : Inventory.ScanCoverage_) : list series :=
  (if IsZero (Inventory.sc_OldestAssertedAt sc) then []
   else [Gauge "node_report_oldest_timestamp_seconds" "When the stalest reporting node last stated its contribution."
           (to_float (Unix (Inventory.sc_OldestAssertedAt sc))) []]) ++
  scanProcesses (Inventory.sc_Sums sc).

Definition byState (states : gmap string Z) : gmap string Z :=
  foldl (fun m '(state, n) => <[profilingState state := (default 0 (m !! profilingState state) +w n)%go]> m) ∅ (map_to_list states).
Definition ebpf_nodes (states : gmap string Z) : list series :=
  (fun state : string => Gauge "ebpf_nodes" "Reporting nodes in each profiling state (ADR 0060 §2)."
                  (to_float (default 0 (byState states !! state))) [(LabelState, state)]) <$> ProfilingStates ++ [StateOther].
Definition ebpf_series (pc : Inventory.ProfileCoverage_) (received unjoined : Z) : list series :=
  ebpf_nodes (Inventory.pc_States pc) ++ ebpf (Inventory.pc_Sums pc) ++
  [Counter "ebpf_profiles_received_total" "Captured profiles that reached the controller." (to_float received) [];
   Counter "ebpf_profiles_unjoined_total" "Captured profiles dropped for want of a pod to join them to." (to_float unjoined) []].

Definition probe_series (p : Probe.ProbeCoverage) : list series :=
  let targets state v :=
    Gauge "pprof_targets" "Workload endpoints by their state in the pprof funnel (ADR 0057, ADR 0071)." (to_float v) [(LabelState, state)] in
  [targets "confirmed" (Probe.pbConfirmed p); targets "absent" (Probe.pbAbsent p); targets "unreachable" (Probe.pbUnreachable p);
   targets "excluded_by_annotation" (Probe.pbExcludedByAnnotation p)].
Definition pull_series (p : Pull.PullCoverage) : list series :=
  let pulls outcome v :=
    Counter "pprof_pulls_total" "Profile pulls by outcome; `refused` is a workload running its own profiler (ADR 0058 §3)." (to_float v)
      [(LabelOutcome, outcome)] in
  [pulls "shipped" (Pull.Shipped p); pulls "refused" (Pull.Refused p); pulls "unreachable" (Pull.Unreachable p);
   pulls "invalid" (Pull.Invalid p)].
Definition count_series (p : Readings.CountCoverage) : list series :=
  let counts outcome v :=
    Counter "pprof_count_readings_total" "Goroutine-count readings off the pprof index, by outcome (ADR 0080)." (to_float v)
      [(LabelOutcome, outcome)] in
  [counts "sampled" (Readings.cvSampled p); counts "unreachable" (Readings.cvUnreachable p); counts "unreadable" (Readings.cvUnreadable p)].

Definition shipping_series (sh : Shipper.Shipping * option Time) : list series :=
  let '(s, haltedSince) := sh in
  let shipments outcome v :=
    Counter "shipments_total" "Payloads offered to the backend, by what became of each (ADR 0075)." (to_float v) [(LabelOutcome, outcome)] in
  let refused reason v :=
    Counter "shipments_rejected_total" "Payloads the backend refused permanently, by reason. None is offered again." (to_float v)
      [(LabelReason, reason)] in
  [shipments "delivered" (Shipper.Delivered s); shipments "deferred" (Shipper.Deferred s); shipments "unreadable" (Shipper.Unreadable s);
   refused "unauthorized" (Shipper.RejectedUnauthorized s); refused "too_large" (Shipper.RejectedTooLarge s);
   refused "malformed" (Shipper.RejectedMalformed s);
   Counter "shipment_payload_bytes_total" "Payload bytes offered to the backend, before the transport encoding (ADR 0076)."
     (to_float (Shipper.PayloadBytes s)) [];
   Counter "shipment_transmitted_bytes_total" "Bytes actually sent to the backend, after the transport encoding (ADR 0076)."
     (to_float (Shipper.TransmittedBytes s)) [];
   Gauge "shipping_halted" "Whether shipping has stopped on an identity failure the agent will not retry into."
     (b2f (bool_decide (is_Some haltedSince))) []] ++
  match haltedSince with
  | None => []
  | Some at_ => [Gauge "shipping_halted_since_seconds" "When shipping stopped, in seconds since the epoch. Absent while shipping runs."
                   (to_float (Unix at_)) []]
  end.

Definition controller_series (c : Controller) : list series :=
  process (cProcess c) ++ (Sources c ≫= source_series) ++ (Kubelet c ≫= kubelet_series) ++
  filter_series (Filter c) ++ drop_series (Placement c) (Nodes c) ++ spool (cSpool c) ++
  from_option intake_series [] (Intake c) ++ from_option inventory_series [] (Inventory_ c) ++ from_option scan_series [] (Scan c) ++
  from_option (fun pc => ebpf_series pc (ProfilesReceived c) (ProfilesUnjoined c)) [] (EBPF c) ++
  from_option probe_series [] (Probe c) ++ from_option pull_series [] (Pull c) ++ from_option count_series [] (Counts c) ++
  from_option shipping_series [] (Shipping c).
Definition CollectController (c : Controller) : Set_ := foldl add NewSet (controller_series c).

(** ** A node *)

Record Node := mkNode {
  nProcess : Process; Scanned : bool; nScan : NodeReport.Counters; PodsInScope : Z;
  Profiling : NodeReport.ProfilingCoverage; ReportsShipped : Z; ReportFailures : Z;
}.

Definition node_series (n : Node) : list series :=
  process (nProcess n) ++
  (if Scanned n then scanProcesses (nScan n) ++
     [Gauge "scan_pods_in_scope" "Pods the controller admitted this node to scan (ADR 0015)." (to_float (PodsInScope n)) []] else []) ++
  [Gauge "ebpf_state" "This node's profiling state, always 1 for the state it is in." (to_float 1)
     [(LabelState, profilingState (NodeReport.State (Profiling n)))]] ++
  ebpf (Profiling n) ++
  [Counter "node_reports_shipped_total" "Scan reports this node delivered to the controller." (to_float (ReportsShipped n)) [];
   Counter "node_report_failures_total" "Scan report deliveries that failed." (to_float (ReportFailures n)) []].
Definition CollectNode (n : Node) : Set_ := foldl add NewSet (node_series n).

(** ** Where the numbers come from *)

(** [controllerSources]: what the accessors answer at one scrape, [None] where
    the installation has not the feature. *)
Record controllerSources := mkControllerSources {
  cs_beat : WatchHealth.Heartbeat; cs_sources : list Policy.SourceHealth; cs_kubelet : Usage.UsagePoller;
  cs_filter : Model.Coverage; cs_placement : Model.PlacementDrops; cs_nodes : Model.NodeDrops; cs_spool : Spool.Spool;
  cs_intake : option NodeIntake.IntakeRejections; cs_inventory : option Inventory.Store; cs_received : Z; cs_unjoined : Z;
  cs_probe : option Probe.ProbeCoverage; cs_pull : option Pull.PullCoverage; cs_counts : option Readings.CountCoverage;
  cs_shipping : option Shipper.Shipper;
}.

Definition controller_metrics (version : string) (c : controllerSources) : Controller :=
  let cov : option Inventory.ProfileCoverage_ := Inventory.ProfileCoverage <$> cs_inventory c in
  let ebpf := match cov with Some cov => if (0 <? Inventory.pc_Nodes cov)%Z then Some cov else None | None => None end in
  mkController (mkProcess RoleController version (WatchHealth.Last (cs_beat c)) (WatchHealth.Deadline (cs_beat c)))
    (cs_sources c) (Usage.PathReads (cs_kubelet c)) (cs_filter c) (cs_placement c) (cs_nodes c) (cs_spool c) (cs_intake c)
    (Inventory.Counters_ <$> cs_inventory c) (Inventory.ScanCoverage <$> cs_inventory c) ebpf
    (cs_probe c) (cs_pull c) (cs_counts c) (Shipper.Coverage <$> cs_shipping c)
    (match ebpf with Some _ => cs_received c | None => 0%Z end) (match ebpf with Some _ => cs_unjoined c | None => 0%Z end).
Definition gather_controller (version : string) (c : controllerSources) : result metric_error (list MetricFamily) :=
  Families (CollectController (controller_metrics version c)).

(** [nodeSources]; the scan answers [None] until a pass finished. *)
Definition node_metrics (version : string) (beat : WatchHealth.Heartbeat) (scan : option (NodeReport.Counters * Z))
    (profiling : NodeReport.ProfilingCoverage) (shipped failures : Z) : Node :=
  mkNode (mkProcess RoleNode version (WatchHealth.Last beat) (WatchHealth.Deadline beat))
    (bool_decide (is_Some scan)) (default (NodeReport.mkScanCounters 0 0 0 0 0) (fst <$> scan)) (default 0 (snd <$> scan))
    profiling shipped failures.
Definition gather_node version beat scan profiling shipped failures : result metric_error (list MetricFamily) :=
  Families (CollectNode (node_metrics version beat scan profiling shipped failures)).

(** ** What a set is *)

Definition named (n : string) (l : list series) : list series := filter (fun c => full_name c = n) l.
Definition family_of (n : string) (l : list series) : option MetricFamily :=
  match named n l with
  | [] => None
  | c :: _ => Some (mkFamily n (sr_help c) (sr_type c) (metric_of <$> named n l))
  end.

(** A counter's name says so, and a label's name is permitted. *)
Definition type_by_name (n : string) : MetricType := if HasSuffix n "_total" then COUNTER else GAUGE.
Definition well_formed (c : series) : Prop :=
  sr_type c = type_by_name (full_name c) /\ Forall (fun l => l.1 ∈ Allowed) (sr_labels c).

Record holds_of (l : list series) (s : Set_) : Prop := {
  ho_err : err s = None;
  ho_families : forall n, families s !! n = family_of n l;
  ho_order : forall n, n ∈ order s <-> exists c, c ∈ l /\ full_name c = n;
  ho_nodup : NoDup (order s);
}.

Lemma named_snoc n l c : named n (l ++ [c]) = named n l ++ (if bool_decide (full_name c = n) then [c] else []).
Proof. unfold named. rewrite filter_app. f_equal. rewrite filter_cons. by repeat case_decide; case_bool_decide. Qed.

Lemma elem_of_named n l c : c ∈ named n l <-> full_name c = n /\ c ∈ l.
Proof. unfold named. by rewrite list_elem_of_filter. Qed.

Lemma family_type n l fam : Forall well_formed l -> family_of n l = Some fam -> mf_Type fam = type_by_name n /\ mf_Name fam = n.
Proof.
  intros Hl. unfold family_of. destruct (named n l) as [|c cs] eqn:E; intros [=<-]. cbn. split; [|done].
  assert (c ∈ named n l) as [<- Hc]%elem_of_named by (rewrite E; left).
  rewrite Forall_forall in Hl. by destruct (Hl _ Hc).
Qed.

Lemma find_none {A} (p : A -> bool) l : Forall (fun x => p x = false) l -> List.find p l = None.
Proof. induction 1 as [|x l Hx _ IH]; [done|]. cbn. by rewrite Hx. Qed.

Lemma add_holds l s c : Forall well_formed l -> well_formed c -> holds_of l s -> holds_of (l ++ [c]) (add s c).
Proof.
  intros Hl [Ht Ha] [He Hf Ho Hn]. unfold add.
  rewrite find_none by (eapply Forall_impl; [exact Ha|]; cbn; intros ? ?; by rewrite bool_decide_eq_true_2).
  pose proof (Hf (full_name c)) as Hfam. destruct (families s !! full_name c) as [fam|] eqn:E.
  - symmetry in Hfam. destruct (family_type _ _ _ Hl Hfam) as [Hty Hnm].
    rewrite bool_decide_eq_true_2 by congruence. unfold family_of in Hfam.
    destruct (named (full_name c) l) as [|c0 cs] eqn:E0; [done|]. injection Hfam as <-. cbn in *.
    assert (c0 ∈ named (full_name c) l) as [Hc0 Hin0]%elem_of_named by (rewrite E0; left).
    split; cbn; [done| | |done].
    + intros n. unfold family_of. rewrite named_snoc. case_bool_decide as Hc; [|rewrite app_nil_r, lookup_insert_ne by done; apply Hf].
      subst n. rewrite E0, lookup_insert_eq. cbn. by rewrite fmap_app.
    + intros n. rewrite Ho. setoid_rewrite elem_of_app. setoid_rewrite list_elem_of_singleton.
      split; [intros (x & ? & ?); by exists x; auto|]. intros (x & [?| ->] & Hx); [by exists x|]. by exists c0; split; [|congruence].
  - symmetry in Hfam. unfold family_of in Hfam. destruct (named (full_name c) l) as [|c0 cs] eqn:E0; [|done].
    assert (Hnew : forall x, x ∈ l -> full_name x <> full_name c).
    { intros x Hx Heq. assert (x ∈ named (full_name c) l) as Hin by by apply elem_of_named. rewrite E0 in Hin. by apply not_elem_of_nil in Hin. }
    split; cbn; [done| | |].
    + intros n. unfold family_of. rewrite named_snoc. case_bool_decide as Hc; [|rewrite app_nil_r, lookup_insert_ne by done; apply Hf].
      subst n. by rewrite E0, lookup_insert_eq.
    + intros n. rewrite elem_of_app, Ho, list_elem_of_singleton. setoid_rewrite elem_of_app. setoid_rewrite list_elem_of_singleton.
      split; [intros [(x & ? & ?)| ->]; [by exists x; auto|by exists c; auto]|]. intros (x & [?| ->] & Hx); [left; by exists x|by right].
    + apply NoDup_app. split; [done|]. split; [|apply NoDup_singleton]. intros n Hin ->%list_elem_of_singleton.
      apply Ho in Hin as (x & Hx & Heq). by apply (Hnew x).
Qed.

Lemma collected l : Forall well_formed l -> holds_of l (foldl add NewSet l).
Proof.
  induction l as [|c l IH] using rev_ind; intros Hl.
  { split; cbn; [done|intros n; apply lookup_empty| |constructor]. intros n. split; [by intros ?%not_elem_of_nil|].
    by intros (? & ?%not_elem_of_nil & _). }
  apply Forall_app in Hl as [Hl Hc]. rewrite foldl_app. apply add_holds; [done| |by apply IH]. by inv Hc.
Qed.

(** A series of an exposition: its name and labels, as a scraper tells them apart. *)
Definition series_key (c : series) : string * list Label := (full_name c, sort_slice by_label_name (sr_labels c)).
Definition exposed (fams : list MetricFamily) : list (string * list Label) :=
  fams ≫= fun f => (fun m => (mf_Name f, mt_Label m)) <$> mf_Metric f.

Lemma named_partition names l :
  NoDup names -> (forall c, c ∈ l -> full_name c ∈ names) -> l ≡ₚ names ≫= fun n => named n l.
Proof.
  intros Hn. revert l. induction Hn as [|n names Hnew Hn IH]; intros l Hl.
  { destruct l as [|c l]; [done|]. exfalso. apply (not_elem_of_nil (full_name c)), Hl. left. }
  cbn. rewrite <-(list_filter_split (fun c => full_name c = n) l) at 1. apply Permutation_app; [done|].
  rewrite (IH (filter (fun c => ~ full_name c = n) l)).
  - apply reflexive_eq. clear -Hnew. induction names as [|m names IH]; [done|]. cbn. apply not_elem_of_cons in Hnew as [Hm Hnew]. f_equal; [|by apply IH].
    unfold named. rewrite list_filter_filter. apply list_filter_iff. intros c. split; [by intros []|]. intros <-. by split.
  - intros c [Hc Hin]%list_elem_of_filter. apply Hl in Hin as Hin'. apply elem_of_cons in Hin' as [|]; done.
Qed.

Lemma exposition l s :
  holds_of l s ->
  exists fams, Families s = Ok fams /\ StronglySorted (fun f g => go_lt (mf_Name f) (mf_Name g) = true) fams /\
    exposed fams ≡ₚ series_key <$> l /\
    (forall fam, fam ∈ fams -> mf_Metric fam = metric_of <$> named (mf_Name fam) l /\ family_of (mf_Name fam) l = Some fam).
Proof.
  intros [He Hf Ho Hn]. unfold Families. rewrite He.
  set (names := sort_slice go_lt (order s)). exists (omap (fun n => families s !! n) names). split; [done|].
  assert (Hnames : forall n, n ∈ names <-> exists c, c ∈ l /\ full_name c = n) by (intros n; unfold names; rewrite elem_of_sort_slice; apply Ho).
  assert (Hnd : NoDup names) by (unfold names, sort_slice; by rewrite merge_sort_Permutation).
  assert (Hlook : forall n, n ∈ names -> exists c cs, named n l = c :: cs /\
            families s !! n = Some (mkFamily n (sr_help c) (sr_type c) (metric_of <$> named n l))).
  { intros n (c & Hc & <-)%Hnames. rewrite Hf. unfold family_of. destruct (named (full_name c) l) as [|c0 cs] eqn:E; [|by exists c0, cs].
    assert (c ∈ named (full_name c) l) as Hin by by apply elem_of_named. rewrite E in Hin. by apply not_elem_of_nil in Hin. }
  split_and!.
  - assert (StronglySorted (fun m n => go_lt m n = true) names) as Hs.
    { apply (sort_slice_strict _ (fun n : string => n)); [done|]. by rewrite list_fmap_id. }
    clearbody names. clear Hnames Hnd. induction Hs as [|n names Hs IH Hlt]; [constructor|].
    destruct (Hlook n) as (c & cs & Hc & Hl); [left|]. cbn. rewrite Hl. constructor; [apply IH; intros m Hm; apply Hlook; by right|].
    apply Forall_forall. intros fam (m & Hm & Hfam)%list_elem_of_omap. destruct (Hlook m) as (c' & cs' & _ & Hl'); [by right|].
    rewrite Hl' in Hfam. injection Hfam as <-. cbn. rewrite Forall_forall in Hlt. by apply Hlt.
  - rewrite (named_partition names l Hnd) by (intros c Hc; apply Hnames; by exists c).
    unfold exposed. clearbody names. clear Hnames Hnd. induction names as [|n names IH]; [done|].
    destruct (Hlook n) as (c & cs & Hc & Hl); [left|]. cbn. rewrite Hl. cbn. rewrite fmap_app. apply Permutation_app.
    + cbn. rewrite <-list_fmap_compose. apply reflexive_eq, list_fmap_ext. intros i x Hx.
      apply list_elem_of_lookup_2, elem_of_named in Hx as [Hx _]. unfold series_key. cbn. by rewrite Hx.
    + apply IH. intros m Hm. apply Hlook. by right.
  - intros fam (n & Hn' & Hfam)%list_elem_of_omap. rewrite Hf in Hfam.  unfold family_of in *. destruct (named n l) as [|c cs] eqn:E; [done|]. injection Hfam as <-. cbn. by rewrite E.
Qed.

(** ** What may stand in a label *)

(** The values written down in the program. *)
Definition vocabulary (label : string) : list string :=
  if bool_decide (label = LabelPath) then path_string <$> Usage.KubeletPaths
  else if bool_decide (label = LabelReason) then
    ["namespace_filter"; "namespace_annotation"; "workload_annotation"; "pod_annotation"; "job_annotation"; "unknown_kind"; "not_cached";
     "unauthorized"; "too_large"; "malformed"; "no_scope"; "no_targets"; "no_samples"; "out_of_scope"; "third_party"; "unsymbolized"; "filtered"]
  else if bool_decide (label = LabelOutcome) then
    ["scanned"; "go_found"; "filtered_scope"; "filtered_infra"; "unreadable"; "shipped"; "invalid"; "unshipped"; "received"; "joined";
     "unjoined"; "undigested"; "refused"; "unreachable"; "sampled"; "delivered"; "deferred"]
  else if bool_decide (label = LabelState) then
    ProfilingStates ++ [StateOther; "confirmed"; "absent"; "unreachable"; "excluded_by_annotation"]
  else if bool_decide (label = LabelSubject) then
    ["placement_values"; "placement_terms"; "node_conditions"; "node_devices"; "node_taints"; "node_values"]
  else [].

(** The values the agent takes from its own build, its watches and its spool. *)
Definition process_words (p : Process) (label : string) : list string :=
  if bool_decide (label = LabelRole) then [Role p] else if bool_decide (label = LabelVersion) then [Version p] else [].
Definition controller_words (c : Controller) (label : string) : list string :=
  if bool_decide (label = LabelSource) then Policy.shName <$> Sources c
  else if bool_decide (label = LabelKind) then
    SortedKeys (Spool.written_ (cSpool c)) ++ SortedKeys (Spool.writeFailures (cSpool c)) ++ SortedKeys (Spool.suppressed (cSpool c))
  else if bool_decide (label = LabelReason) then SortedKeys (Spool.evicted (cSpool c))
  else process_words (cProcess c) label.

Definition permitted (own : string -> list string) (l : Label) : Prop := l.1 ∈ Allowed /\ l.2 ∈ vocabulary l.1 ++ own l.1.
#[export] Instance permitted_dec own l : Decision (permitted own l).
Proof. unfold permitted. apply _. Defined.

Definition sound (own : string -> list string) (c : series) : Prop :=
  sr_type c = type_by_name (full_name c) /\ Forall (permitted own) (sr_labels c).
#[export] Instance sound_dec own c : Decision (sound own c).
Proof. unfold sound. apply _. Defined.

Lemma sound_well_formed own l : Forall (sound own) l -> Forall well_formed l.
Proof. intros Hl. eapply Forall_impl; [exact Hl|]. intros c [? H]. split; [done|]. eapply Forall_impl; [exact H|]. by intros ? []. Qed.

(** A block written down in the program is checked by evaluation. *)
Lemma sound_block own l : forallb (fun c => bool_decide (sound own c)) l = true -> Forall (sound own) l.
Proof.
  intros H. apply Forall_forall. intros c Hc. rewrite forallb_forall in H. apply (bool_decide_eq_true_1 (sound own c)), H.
  by apply list_elem_of_In.
Qed.

Lemma sound_per_key own name help label m :
  label ∈ Allowed -> type_by_name (Prefix +:+ name) = COUNTER -> (forall k, k ∈ SortedKeys m -> k ∈ own label) ->
  Forall (sound own) (per_key name help label m).
Proof.
  intros Ha Ht Hk. apply Forall_forall. intros c (k & -> & Hin)%list_elem_of_fmap. split; [done|].
  apply Forall_singleton. split; [done|]. apply elem_of_app. right. by apply Hk.
Qed.

Lemma sound_process own p : (forall l, process_words p l ⊆ own l) -> Forall (sound own) (process p).
Proof.
  intros Hp. assert (Hin : forall l v, v ∈ process_words p l -> l ∈ Allowed -> permitted own (l, v)).
  { intros l v Hv Ha. split; [done|]. apply elem_of_app. right. by apply Hp. }
  unfold process. repeat constructor; try done; apply Hin; try (by vm_compute); left.
Qed.

(** ** No series twice *)

Definition distinct (l : list series) : Prop := NoDup (series_key <$> l).

Lemma full_name_inj c c' : full_name c = full_name c' -> sr_name c = sr_name c'.
Proof. intros H. apply (f_equal (fun s => CutPrefix s Prefix)) in H. unfold full_name in H. rewrite !CutPrefix_app in H. by injection H. Qed.

Lemma distinct_by_name l : NoDup (sr_name <$> l) -> distinct l.
Proof.
  intros H. unfold distinct. apply (NoDup_fmap_1 fst). rewrite <-list_fmap_compose.
  change (NoDup ((fun c => Prefix +:+ sr_name c) <$> l)). rewrite (list_fmap_compose sr_name (String.append Prefix)).
  apply NoDup_fmap_2; [|done]. intros x y E. apply (f_equal (fun s => CutPrefix s Prefix)) in E. rewrite !CutPrefix_app in E. by injection E.
Qed.

Lemma distinct_bind {A} (f : A -> list series) (label : string) (word : A -> string) xs :
  NoDup (word <$> xs) -> (forall x, distinct (f x)) -> (forall x c, c ∈ f x -> sr_labels c = [(label, word x)]) ->
  distinct (xs ≫= f).
Proof.
  intros Hn Hf Hl. unfold distinct. induction xs as [|x xs IH]; [constructor|]. cbn in *. apply NoDup_cons in Hn as [Hx Hn].
  rewrite fmap_app. apply NoDup_app. split; [apply Hf|]. split; [|by apply IH].
  intros k (c & -> & Hc)%list_elem_of_fmap (c' & Hk & (y & Hc' & Hy)%list_elem_of_bind)%list_elem_of_fmap.
  apply (f_equal snd) in Hk as Hlab. cbn in Hlab. rewrite (Hl _ _ Hc), (Hl _ _ Hc') in Hlab. injection Hlab as Hw.
  apply Hx. rewrite Hw. by apply list_elem_of_fmap_2.
Qed.

Lemma distinct_concat bs table :
  Forall2 (fun b ns => Forall (fun c => sr_name c ∈ ns) b) bs table -> NoDup (concat table) -> Forall distinct bs -> distinct (concat bs).
Proof.
  intros Ht. unfold distinct. induction Ht as [|b ns bs table Hb Ht IH]; intros Hn Hd; [constructor|]. cbn in *.
  apply NoDup_app in Hn as (_ & Hdis & Hn). apply Forall_cons in Hd as [Hd1 Hd2].
  rewrite fmap_app. apply NoDup_app. split; [done|]. split; [|by apply IH].
  intros k (c & -> & Hc)%list_elem_of_fmap (c' & Hk & Hc')%list_elem_of_fmap.
  apply (f_equal fst) in Hk as Hname. apply full_name_inj in Hname. rewrite Forall_forall in Hb.
  apply (Hdis (sr_name c)); [by apply Hb|]. rewrite Hname. clear -Ht Hc'.
  induction Ht as [|b ns bs table Hb Ht IH]; cbn in *; [by apply not_elem_of_nil in Hc'|].
  apply elem_of_app in Hc' as [Hc'|Hc']; apply elem_of_app; [left|right; by apply IH]. rewrite Forall_forall in Hb. by apply Hb.
Qed.

Lemma distinct_per_key name help label m : distinct (per_key name help label m).
Proof.
  unfold distinct, per_key. rewrite <-list_fmap_compose. apply NoDup_fmap_2; [by intros k k' [= ->]|].
  unfold SortedKeys, sort_slice. rewrite merge_sort_Permutation. apply NoDup_fst_map_to_list.
Qed.

(** The families, block by block. *)
Definition process_names : list string := ["build_info"; "pass_start_timestamp_seconds"; "pass_deadline_seconds"].
Definition spool_names : list (list string) :=
  [["spool_payloads_written_total"]; ["spool_write_failures_total"]; ["spool_payloads_suppressed_total"]; ["spool_evicted_total"];
   ["spool_bytes"; "spool_files"; "spool_max_bytes"; "spool_max_files"; "spool_windows_resumed"; "spool_journal_windows_resumed";
    "spool_journal_records_resumed"; "spool_records_resumed"; "spool_recovery_files_skipped"]].
Definition ebpf_names : list string := ["ebpf_windows"; "ebpf_windows_empty"; "ebpf_profiles"; "ebpf_samples_dropped"].
Definition controller_names : list (list string) :=
  [process_names; ["source_synced"; "source_failing"]; ["kubelet_requests_total"; "kubelet_request_failures_total"];
   ["pods_observed_total"; "pods_excluded_total"; "pods_excluded_from_profiling_total"; "pods_optout_unchecked_total";
    "jobs_observed_total"; "jobs_excluded_total"];
   ["reduction_drops_total"]; concat spool_names; ["node_reports_rejected_total"];
   ["nodes_reporting"; "inventory_records"; "inventory_facts_total"]; ["node_report_oldest_timestamp_seconds"; "scan_processes"];
   "ebpf_nodes" :: ebpf_names ++ ["ebpf_profiles_received_total"; "ebpf_profiles_unjoined_total"]; ["pprof_targets"]; ["pprof_pulls_total"];
   ["pprof_count_readings_total"];
   ["shipments_total"; "shipments_rejected_total"; "shipment_payload_bytes_total"; "shipment_transmitted_bytes_total"; "shipping_halted";
    "shipping_halted_since_seconds"]].
Definition controller_blocks (c : Controller) : list (list series) :=
  [process (cProcess c); Sources c ≫= source_series; Kubelet c ≫= kubelet_series; filter_series (Filter c);
   drop_series (Placement c) (Nodes c); spool (cSpool c); from_option intake_series [] (Intake c);
   from_option inventory_series [] (Inventory_ c); from_option scan_series [] (Scan c);
   from_option (fun pc => ebpf_series pc (ProfilesReceived c) (ProfilesUnjoined c)) [] (EBPF c); from_option probe_series [] (Probe c);
   from_option pull_series [] (Pull c); from_option count_series [] (Counts c); from_option shipping_series [] (Shipping c)].

Lemma controller_series_blocks c : controller_series c = concat (controller_blocks c).
Proof. unfold controller_series, controller_blocks. cbn [concat]. by rewrite app_nil_r. Qed.

(** What a block written down in the program is, by evaluation. *)
Definition block_ok (own : string -> list string) (names : list string) (l : list series) : Prop :=
  Forall (sound own) l /\ Forall (fun c => sr_name c ∈ names) l /\ distinct l.

Lemma block_by_evaluation own names l :
  forallb (fun c => bool_decide (sound own c) && bool_decide (sr_name c ∈ names)) l && bool_decide (distinct l) = true -> block_ok own names l.
Proof.
  intros [H Hd%bool_decide_eq_true_1]%andb_true_iff. split_and!; [| |done]; apply Forall_forall; intros c Hc;
    rewrite forallb_forall in H; apply list_elem_of_In, H, andb_true_iff in Hc as [H1 H2].
  - by apply (bool_decide_eq_true_1 (sound own c)).
  - by apply bool_decide_eq_true_1 in H2.
Qed.
Ltac evaluated := apply block_by_evaluation; vm_compute; reflexivity.

Lemma block_option {A} own names (f : A -> list series) o : (forall x, block_ok own names (f x)) -> block_ok own names (from_option f [] o).
Proof. intros H. destruct o; [apply H|]. cbn. split_and!; constructor. Qed.

Lemma process_ok own p : (forall l, process_words p l ⊆ own l) -> block_ok own process_names (process p).
Proof.
  intros Hp. split; [by apply sound_process|]. split; [|by apply distinct_by_name; apply (bool_decide_unpack _); vm_compute].
  repeat constructor.
Qed.

Lemma blocks_concat own bs table :
  Forall2 (block_ok own) table bs -> NoDup (concat table) -> block_ok own (concat table) (concat bs).
Proof.
  intros H Hn. split_and!.
  - clear Hn. induction H as [|ns b table bs [Hb _] _ IH]; [constructor|]. apply Forall_app. by split.
  - clear Hn. induction H as [|ns b table bs (_ & Hb & _) _ IH]; [constructor|]. cbn. apply Forall_app.
    split; eapply Forall_impl; try done; cbn; intros c Hc; apply elem_of_app; auto.
  - apply (distinct_concat bs table); [|done|].
    + apply Forall2_flip. eapply Forall2_impl; [exact H|]. by intros ns b (_ & Hb & _).
    + clear Hn. induction H as [|ns b table bs (_ & _ & Hb) _ IH]; by constructor.
Qed.

Lemma per_key_ok own name help label m :
  label ∈ Allowed -> type_by_name (Prefix +:+ name) = COUNTER -> SortedKeys m ⊆ own label -> block_ok own [name] (per_key name help label m).
Proof.
  intros Ha Ht Hk. split_and!; [by apply sound_per_key| |apply distinct_per_key].
  apply Forall_forall. intros c (k & -> & _)%list_elem_of_fmap. by left.
Qed.

Lemma words_ok {A} own names (f : A -> list series) label (word : A -> string) xs :
  label ∈ Allowed -> NoDup (word <$> xs) -> (forall x, x ∈ xs -> word x ∈ vocabulary label ++ own label) ->
  (forall x, Forall (fun c => sr_type c = type_by_name (full_name c) /\ sr_labels c = [(label, word x)] /\ sr_name c ∈ names) (f x) /\
             NoDup (sr_name <$> f x)) ->
  block_ok own names (xs ≫= f).
Proof.
  intros Ha Hn Hw Hf. split_and!; [apply Forall_forall; intros c (x & Hc & Hx)%list_elem_of_bind..|].
  - destruct (Hf x) as [Hfx _]. rewrite Forall_forall in Hfx. destruct (Hfx c Hc) as (Ht & Hl & _).
    split; [done|]. rewrite Hl. apply Forall_singleton. split; [done|by apply Hw].
  - destruct (Hf x) as [Hfx _]. rewrite Forall_forall in Hfx. by destruct (Hfx c Hc) as (_ & _ & ?).
  - apply (distinct_bind _ label word); [done|intros x; apply distinct_by_name, Hf|].
    intros x c Hc. destruct (Hf x) as [Hfx _]. rewrite Forall_forall in Hfx. by destruct (Hfx c Hc) as (_ & ? & _).
Qed.

Lemma spool_ok own s :
  (forall m, m ∈ [Spool.written_ s; Spool.writeFailures s; Spool.suppressed s] -> SortedKeys m ⊆ own LabelKind) ->
  SortedKeys (Spool.evicted s) ⊆ own LabelReason ->
  block_ok own (concat spool_names) (spool s).
Proof.
  intros Hk Hr. replace (spool s) with (concat
    [per_key "spool_payloads_written_total" "Payloads written to the spool, by kind." LabelKind (Spool.written_ s);
     per_key "spool_write_failures_total" "Spool writes that failed, by payload kind." LabelKind (Spool.writeFailures s);
     per_key "spool_payloads_suppressed_total"
       "Payloads a pass assembled and the kind's cadence did not write, by kind (ADR 0073)." LabelKind (Spool.suppressed s);
     per_key "spool_evicted_total" "Payloads the sweep removed, by which bound removed them (ADR 0042)." LabelReason (Spool.evicted s);
     spool_gauges s]) by (unfold spool; cbn [concat]; by rewrite app_nil_r).
  apply blocks_concat; [|by apply (bool_decide_unpack _); vm_compute].
  repeat (apply Forall2_cons; split); [apply per_key_ok; try done; apply Hk; set_solver..|by apply per_key_ok|evaluated|constructor].
Qed.

Lemma NoDup_path paths : NoDup paths -> NoDup (path_string <$> paths).
Proof. apply NoDup_fmap_2. by intros [] []. Qed.

(** The exposition is the series offered, each once, whatever the numbers. *)
Lemma controller_ok c :
  NoDup (Policy.shName <$> Sources c) -> NoDup ((fun r => r.1.1) <$> Kubelet c) ->
  block_ok (controller_words c) (concat controller_names) (controller_series c).
Proof.
  intros Hs Hk. rewrite controller_series_blocks. apply blocks_concat; [|by apply (bool_decide_unpack _); vm_compute].
  unfold controller_names, controller_blocks. repeat (apply Forall2_cons; split).
  - apply process_ok. intros l. unfold process_words at 1. case_bool_decide; [by subst|]. case_bool_decide; [by subst|].
    apply list_subseteq_nil.
  - apply (words_ok _ _ _ LabelSource Policy.shName); [done|done| |intros x; split; [repeat constructor; set_solver|by apply (bool_decide_unpack _); vm_compute]].
    intros x Hx. apply elem_of_app. right. by apply list_elem_of_fmap_2.
  - apply (words_ok _ _ _ LabelPath (fun r => path_string r.1.1)); [done| | |].
    + apply NoDup_path in Hk. by rewrite <-list_fmap_compose in Hk.
    + intros [[[] ?] ?] _; apply elem_of_app; left; by apply (bool_decide_unpack _); vm_compute.
    + intros [[p a] f]. split; [repeat constructor; set_solver|by apply (bool_decide_unpack _); vm_compute].
  - evaluated.
  - evaluated.
  - apply spool_ok; [|done]. intros m Hm. change (controller_words c LabelKind) with
      (SortedKeys (Spool.written_ (cSpool c)) ++ SortedKeys (Spool.writeFailures (cSpool c)) ++ SortedKeys (Spool.suppressed (cSpool c))).
    apply elem_of_cons in Hm as [->|Hm]; [set_solver|]. apply elem_of_cons in Hm as [->|Hm]; [set_solver|].
    apply list_elem_of_singleton in Hm as ->. set_solver.
  - apply block_option. intros r. evaluated.
  - apply block_option. intros r. evaluated.
  - apply block_option. intros r. unfold scan_series. destruct (IsZero _); evaluated.
  - apply block_option. intros r. evaluated.
  - apply block_option. intros r. evaluated.
  - apply block_option. intros r. evaluated.
  - apply block_option. intros r. evaluated.
  - apply block_option. intros [s [at_|]]; evaluated.
  - constructor.
Qed.

(** What is served of the series [l]. *)
Definition served (own : string -> list string) (l : list series) (fams : list MetricFamily) : Prop :=
  StronglySorted (fun f g => go_lt (mf_Name f) (mf_Name g) = true) fams /\
  Forall (fun f => mf_Type f = type_by_name (mf_Name f) /\ mf_Metric f = metric_of <$> named (mf_Name f) l) fams /\
  exposed fams ≡ₚ series_key <$> l /\ NoDup (exposed fams) /\
  Forall (fun k => Forall (permitted own) k.2) (exposed fams).

Lemma block_served own names l :
  block_ok own names l -> exists fams, Families (foldl add NewSet l) = Ok fams /\ served own l fams.
Proof.
  intros (Hsound & _ & Hd). pose proof (sound_well_formed _ _ Hsound) as Hw.
  destruct (exposition _ _ (collected _ Hw)) as (fams & Hf & Hsort & Hexp & Hfam). exists fams. split; [done|]. split_and!; [done| |done| |].
  - apply Forall_forall. intros fam Hin. destruct (Hfam fam Hin) as [Hm Hof]. split; [|done]. by destruct (family_type _ _ _ Hw Hof).
  - by rewrite Hexp.
  - rewrite Hexp. apply Forall_fmap. eapply Forall_impl; [exact Hsound|]. intros c [_ Hc]. cbn.
    unfold sort_slice. by rewrite merge_sort_Permutation.
Qed.

(** The whole vocabulary of an exposition but the version: what is written down in
    the program, the nine policy caches, the registered kinds, the four reasons of
    an eviction and the two roles. *)
Definition fixed_words (version : string) (label : string) : list string :=
  if bool_decide (label = LabelSource) then Policy.policySourceNames
  else if bool_decide (label = LabelKind) then Registry.Kind <$> Registry.registry
  else if bool_decide (label = LabelReason) then Spool.EvictionReasons
  else if bool_decide (label = LabelRole) then [RoleController; RoleNode]
  else if bool_decide (label = LabelVersion) then [version] else [].

Lemma SortedKeys_dom m l : dom m ⊆ (list_to_set l : gset string) -> SortedKeys m ⊆ l.
Proof.
  intros H k. unfold SortedKeys. rewrite elem_of_sort_slice, list_elem_of_fmap. intros ([k' v] & -> & Hk%elem_of_map_to_list).
  apply elem_of_dom_2 in Hk. apply H in Hk. by rewrite elem_of_list_to_set in Hk.
Qed.

Lemma controller_words_fixed version c label :
  Policy.shName <$> Sources c ⊆ Policy.policySourceNames -> Spool.counted (cSpool c) ->
  Role (cProcess c) = RoleController -> Version (cProcess c) = version ->
  controller_words c label ⊆ fixed_words version label.
Proof.
  intros Hsrc [Hw Hf Hsup He] Hr Hv. unfold controller_words, fixed_words.
  case_bool_decide; [done|]. case_bool_decide.
  { intros x. rewrite !elem_of_app.
    intros [Hx|[Hx|Hx]]; [exact (SortedKeys_dom _ _ Hw x Hx)|exact (SortedKeys_dom _ _ Hf x Hx)|exact (SortedKeys_dom _ _ Hsup x Hx)]. }
  case_bool_decide; [exact (SortedKeys_dom _ _ He)|]. unfold process_words. rewrite Hr, Hv.
  repeat case_bool_decide; set_solver.
Qed.

Lemma served_mono own own' l fams : (forall label, own label ⊆ own' label) -> served own l fams -> served own' l fams.
Proof.
  intros Hsub (H1 & H2 & H3 & H4 & H5). split_and!; try done. eapply Forall_impl; [exact H5|]. intros k Hk.
  eapply Forall_impl; [exact Hk|]. intros lab [Ha Hin]. split; [done|]. apply elem_of_app in Hin as [?|?]; apply elem_of_app; [by left|right].
  by apply Hsub.
Qed.

(** C39. The agent's numbers are always served, and they name nothing of the cluster.
    With the sources the pod watcher answers, and a spool that was opened and then
    written, swept and read in any way, whatever kind a write was called with, the
    exposition of the controller is never refused: it lists the families by name,
    strictly, each of the type its name says, and in them every series the collector
    offered and no other, none twice.  The labels are of the nine permitted names,
    and but for the version of the build every value is of a vocabulary written down
    in the program: the nine policy caches, the registered payload kinds, the paths,
    roles, states, outcomes, reasons and subjects, and no other, so nothing a node,
    a pod or any object is called stands in a label. *)
Theorem exposition_is_closed version cs sha256 d age ops synced health unavailable_for now :
  cs_sources cs = Policy.SourceHealths (Policy.policySources synced health) unavailable_for now ->
  cs_spool cs = Spool.spool_run sha256 ops (Spool.NewSpool d age) ->
  exists fams, gather_controller version cs = Ok fams /\
    served (fixed_words version) (controller_series (controller_metrics version cs)) fams.
Proof.
  intros Hs Hsp. set (c := controller_metrics version cs).
  pose proof (Policy.SourceHealths_names synced health unavailable_for now) as Hnames. rewrite <-Hs in Hnames.
  destruct (block_served (controller_words c) (concat controller_names) (controller_series c)) as (fams & Hf & Hserved).
  { apply controller_ok.
    - change (NoDup (Policy.shName <$> cs_sources cs)). rewrite Hnames. apply (bool_decide_unpack _). vm_compute. exact I.
    - change (NoDup [Usage.PathStatsSummary; Usage.PathMetricsCadvisor]). repeat constructor; set_solver. }
  exists fams. split; [done|]. revert Hserved. apply served_mono. intros label. apply controller_words_fixed; [|..|done|done].
  - change (Policy.shName <$> cs_sources cs ⊆ Policy.policySourceNames). intros nm. by rewrite Hnames.
  - change (Spool.counted (cs_spool cs)). rewrite Hsp. apply Spool.counted_run, Spool.counted_new.
Qed.

(** The node's, with no condition at all. *)
Lemma node_exposition_is_closed version beat scan profiling shipped failures :
  let n := node_metrics version beat scan profiling shipped failures in
  exists fams, gather_node version beat scan profiling shipped failures = Ok fams /\
    served (process_words (nProcess n)) (node_series n) fams.
Proof.
  intros n. eapply (block_served _ (concat
    [process_names; ["scan_processes"; "scan_pods_in_scope"]; ["ebpf_state"]; ebpf_names;
     ["node_reports_shipped_total"; "node_report_failures_total"]])).
  replace (node_series n) with (concat
    [process (nProcess n);
     if Scanned n then scanProcesses (nScan n) ++
       [Gauge "scan_pods_in_scope" "Pods the controller admitted this node to scan (ADR 0015)." (to_float (PodsInScope n)) []] else [];
     [Gauge "ebpf_state" "This node's profiling state, always 1 for the state it is in." (to_float 1)
       [(LabelState, profilingState (NodeReport.State (Profiling n)))]];
     ebpf (Profiling n);
     [Counter "node_reports_shipped_total" "Scan reports this node delivered to the controller." (to_float (ReportsShipped n)) [];
      Counter "node_report_failures_total" "Scan report deliveries that failed." (to_float (ReportFailures n)) []]])
    by (unfold node_series; cbn [concat]; by rewrite !app_nil_r).
  apply blocks_concat; [|by apply (bool_decide_unpack _); vm_compute]. repeat (apply Forall2_cons; split); [by apply process_ok|..].
  - destruct (Scanned n); [evaluated|split_and!; constructor].
  - split_and!; [|repeat constructor; set_solver|apply NoDup_singleton].
    apply Forall_singleton. split; [done|]. apply Forall_singleton. split; [by apply (bool_decide_unpack _); vm_compute|].
    apply elem_of_app. left. cbn. unfold profilingState. case_bool_decide; set_solver.
  - evaluated.
  - evaluated.
  - constructor.
Qed.

Definition demo_synced (nm : string) : bool := bool_decide (nm <> "services"%string).
Definition demo_health (nm : string) : option WatchHealth.watchHealth := None.
(** A write of a registered kind and one of a kind named after an object. *)
Definition demo_spool_ops : list Spool.spool_op :=
  [Spool.OWrite "node_metadata" "node-metadata.json" (Some "{}"%string) (Spool.mkIo 5 6 Spool.NoFault);
   Spool.OWrite "shop-web" "shop.json" (Some "{}"%string) (Spool.mkIo 7 8 Spool.NoFault); Spool.OSweep ∅ ∅ 9].
Definition demo_sources : controllerSources :=
  mkControllerSources (WatchHealth.NewHeartbeat 0 Minute)
    (Policy.SourceHealths (Policy.policySources demo_synced demo_health) 0 10)
    Usage.NewUsagePoller (Model.mkCoverage 3 1 0 0 0 0 0 0 0 0 0 0 0) (Model.mkPlacementDrops 0 0) (Model.mkNodeDrops 0 0 0 0)
    (Spool.spool_run id demo_spool_ops (Spool.NewSpool ∅ 0)) (Some (NodeIntake.mkRejections 1 0 0)) (Some (Inventory.NewStore 0)) 0 0
    None None None None.

Lemma exposition_is_closed_witness :
  (exists fams, gather_controller "dev" demo_sources = Ok fams /\
    served (fixed_words "dev") (controller_series (controller_metrics "dev" demo_sources)) fams) /\
  Spool.count_of "node_metadata" (Spool.written_ (cs_spool demo_sources)) = 1%Z /\
  Spool.written_ (cs_spool demo_sources) !! "shop-web"%string = None.
Proof.
  split; [|split; vm_compute; reflexivity].
  apply (exposition_is_closed "dev" demo_sources id ∅ 0 demo_spool_ops demo_synced demo_health 0 10); reflexivity.
Defined.

(** ** The nodes by state *)

Lemma profilingState_known state : profilingState state ∈ ProfilingStates ++ [StateOther].
Proof. unfold profilingState. case_bool_decide; set_solver. Qed.

Lemma sum_update (m : gmap string Z) (ks : list string) k v :
  NoDup ks -> k ∈ ks ->
  list_sum (fun x => default 0 (<[k := v]> m !! x)) ks = list_sum (fun x => default 0 (m !! x)) ks - default 0 (m !! k) + v.
Proof.
  induction 1 as [|x ks Hx Hn IH]; [by intros ?%not_elem_of_nil|]. intros [->|Hk]%elem_of_cons; rewrite !list_sum_cons.
  - rewrite lookup_insert_eq. cbn.
    assert (list_sum (fun y => default 0 (<[x := v]> m !! y)) ks = list_sum (fun y => default 0 (m !! y)) ks) as ->; [|lia].
    clear -Hx. induction ks as [|y ks IH]; [done|]. apply not_elem_of_cons in Hx as [Hy Hx]. rewrite !list_sum_cons, lookup_insert_ne by done.
    by rewrite IH.
  - rewrite IH by done. rewrite lookup_insert_ne by (intros ->; done). lia.
Qed.

Lemma list_sum_at_least {A} (g : A -> Z) l x : (forall y, 0 <= g y) -> x ∈ l -> g x <= list_sum g l.
Proof.
  intros Hg. induction l as [|y l IH]; [by intros ?%not_elem_of_nil|].
  pose proof (Hg y). pose proof (list_sum_nonneg g l Hg). rewrite list_sum_cons. intros [->|Hx]%elem_of_cons; [lia|]. specialize (IH Hx). lia.
Qed.

(** A state no version of the agent knows is counted as other: the nodes shown by
    state are all the nodes that reported one. *)
Lemma nodes_by_state_add_up (states : gmap string Z) :
  (forall state n, states !! state = Some n -> 0 <= n) -> int64_ok (map_sum id states) ->
  list_sum (fun state => default 0 (byState states !! state)) (ProfilingStates ++ [StateOther]) = map_sum id states.
Proof.
  intros Hpos Hmax. rewrite map_sum_values in *. unfold byState, map_values in *.
  set (ks := ProfilingStates ++ [StateOther]). assert (Hks : NoDup ks) by (apply (bool_decide_unpack _); by vm_compute).
  assert (Hl : Forall (fun kv => 0 <= kv.2) (map_to_list states)).
  { apply Forall_forall. intros [k v] Hin%elem_of_map_to_list. by apply (Hpos k). }
  clear Hpos. set (sum := fun m : gmap string Z => list_sum (fun k => default 0 (m !! k)) ks).
  cut (forall l m, Forall (fun kv => 0 <= kv.2) l -> (forall k, 0 <= default 0 (m !! k)) -> sum m + list_sum id l.*2 <= maxInt64 ->
         sum (foldl (fun m '(state, n) => <[profilingState state := (default 0 (m !! profilingState state) +w n)%go]> m) m l)
         = sum m + list_sum id l.*2).
  { intros H. change (list_sum _ ks) with (sum (foldl (fun m '(state, n) => <[profilingState state := (default 0 (m !! profilingState state) +w n)%go]> m) ∅ (map_to_list states))).
    rewrite H; [done|done|intros k; by rewrite lookup_empty|]. change (sum ∅) with 0. go_lia. }
  clear Hl Hmax. induction l as [|[k v] l IH]; intros m Hl Hm Hmax; [cbn; lia|].
  apply Forall_cons in Hl as [Hv Hl]. rewrite fmap_cons, list_sum_cons in *. cbn [snd id foldl] in *.
  pose proof (profilingState_known k) as Hin. pose proof (Hm (profilingState k)) as H0.
  pose proof (list_sum_at_least (fun k => default 0 (m !! k)) ks (profilingState k) Hm Hin) as Hle.
  assert (Hge' : 0 <= list_sum id l.*2).
  { clear -Hl. induction Hl as [|x l Hx _ IH]; [done|]. rewrite fmap_cons, list_sum_cons. unfold id at 1. lia. }
  fold (sum m) in Hle. unfold id at 1 in Hmax. rewrite wrap64_id by (unfold id in *; go_lia).
  assert (Hsum : sum (<[profilingState k := default 0 (m !! profilingState k) + v]> m) = sum m + v).
  { unfold sum. rewrite sum_update by done. lia. }
  rewrite IH; [|done| |]; rewrite ?Hsum; unfold id in *; [lia| |lia].
  intros x. destruct (decide (x = profilingState k)) as [->|]; [rewrite lookup_insert_eq; cbn; lia|by rewrite lookup_insert_ne].
Qed.
