(* ===== verification/Kubelet.v ===== *)
(** The agent's reads of a kubelet, [internal/collector]: the capped reader of
    kubelet.go, the cAdvisor exposition of cadvisor.go, and the fetches of
    usage.go that give a poll what it starts from.

    A stream is what it would still deliver and how it ends; how much of it each
    call of [Read] returns is an input.  The text decoder of prometheus/common is
    a parameter, as is encoding/json. *)

From stdpp Require Import prelude gmap strings list.
From Stdlib Require Import ZArith Lia.
From S2P Require Import Prelude GoTime GoStrings Usage.
From S2P Require Metrics.
Local Open Scope Z_scope.

Definition maxSummaryBytes : Z := Z.shiftl 8 20.
Definition maxCadvisorBytes : Z := Z.shiftl 64 20.
Definition kubeletFetchConcurrency : Z := 8.

(** ** The capped reader *)

Inductive ending := EOF | StreamFailed.
Inductive read_error := Ended (e : ending) | ResponseTooLarge.

Record stream := mkStream { st_left : list Byte.byte; st_end : ending }.
(** One [Read] of the transport: at most [room] bytes, at most [n] of them; the
    end comes once nothing is left, with the last bytes or after them. *)
Record reading := mkReading { rd_room : nat; rd_n : nat; rd_with_end : bool }.
Definition read (r : stream) (room : nat) (rd : reading) : list Byte.byte * option ending * stream :=
  let n := Nat.min room (rd_n rd) in
  let got := take n (st_left r) in let left_ := drop n (st_left r) in
  let ended := bool_decide (left_ = []) && (bool_decide (got = []) || rd_with_end rd) in
  (got, if ended then Some (st_end r) else None, mkStream left_ (st_end r)).

Record cappedReader := mkCapped { cr_r : stream; cr_limit : Z; cr_read : Z }.
Definition Read (c : cappedReader) (rd : reading) : list Byte.byte * option read_error * cappedReader :=
  let remaining := cr_limit c - cr_read c in
  let room := if remaining + 1 <? Z.of_nat (rd_room rd) then Z.to_nat (remaining + 1) else rd_room rd in
  let '(got, err, r) := read (cr_r c) room rd in
  let c := mkCapped r (cr_limit c) (cr_read c + Z.of_nat (length got)) in
  (got, if cr_limit c <? cr_read c then Some ResponseTooLarge else Ended <$> err, c).

(** [io.ReadAll]; [None] when the calls given are not enough to reach the end. *)
Fixpoint ReadAll (c : cappedReader) (acc : list Byte.byte) (rds : list reading) : option (result read_error (list Byte.byte)) :=
  match rds with
  | [] => None
  | rd :: rds =>
      let '(got, err, c) := Read c rd in
      match err with
      | None => ReadAll c (acc ++ got) rds
      | Some (Ended EOF) => Some (Ok (acc ++ got))
      | Some e => Some (Err e)
      end
  end.
Definition readCapped (r : stream) (limit : Z) (rds : list reading) : option (result read_error (list Byte.byte)) :=
  ReadAll (mkCapped r limit 0) [] rds.

(** ** The exposition *)

Definition metricThrottledPeriods : string := "container_cpu_cfs_throttled_periods_total".
Definition metricTotalPeriods : string := "container_cpu_cfs_periods_total".
Definition metricStartTime : string := "container_start_time_seconds".

#[export] Instance cadvisorKey_eq_dec : EqDecision cadvisorKey.
Proof. solve_decision. Defined.
#[export] Instance cadvisorKey_countable : Countable cadvisorKey.
Proof.
  refine (inj_countable' (fun k => (ck_namespace k, ck_pod k, ck_container k)) (fun x => mkCadvisorKey x.1.1 x.1.2 x.2) _).
  by intros [].
Defined.

Abbreviation float64 := SpecFloat.spec_float (only parsing).
(** A message of the decoder: an absent field reads as its zero. *)
Record Metric := mkMetric {
  m_label : list (string * string); m_counter : option float64; m_gauge : option float64; m_timestampMs : Z;
}.
Record MetricFamily := mkFamily { mf_name : string; mf_metric : list Metric }.

(** Toward zero; [None] for what is not a finite number. *)
Definition truncate (f : float64) : option Z :=
  match f with
  | SpecFloat.S754_zero _ => Some 0
  | SpecFloat.S754_finite s m e =>
      let v := if 0 <=? e then Z.pos m * 2 ^ e else Z.pos m / 2 ^ (- e) in Some (if s then - v else v)
  | _ => None
  end.
Definition IsNaN (f : float64) : bool := match f with SpecFloat.S754_nan => true | _ => false end.
Definition negative (f : float64) : bool := match f with SpecFloat.S754_finite true _ _ | SpecFloat.S754_infinity true => true | _ => false end.
Definition above_zero (f : float64) : bool := match f with SpecFloat.S754_finite false _ _ | SpecFloat.S754_infinity false => true | _ => false end.

Section exposition.
(** What the machine makes of a float that does not fit the integer type. *)
Context (wild : float64 -> Z).
Definition uint64_of_float (f : float64) : Z :=
  match truncate f with Some z => if (0 <=? z) && (z <=? maxUint64) then z else wild f | None => wild f end.
Definition int64_of_float (f : float64) : Z :=
  match truncate f with Some z => if (minInt64 <=? z) && (z <=? maxInt64) then z else wild f | None => wild f end.

Definition take_label (key : cadvisorKey) (label : string * string) : cadvisorKey :=
  if bool_decide (label.1 = "namespace"%string) then mkCadvisorKey label.2 (ck_pod key) (ck_container key)
  else if bool_decide (label.1 = "pod"%string) then mkCadvisorKey (ck_namespace key) label.2 (ck_container key)
  else if bool_decide (label.1 = "container"%string) then mkCadvisorKey (ck_namespace key) (ck_pod key) label.2
  else key.
Definition cadvisorMetricKey (m : Metric) : option cadvisorKey :=
  let key := foldl take_label (mkCadvisorKey "" "" "") (m_label m) in
  if bool_decide (ck_namespace key = ""%string) || bool_decide (ck_pod key = ""%string) || bool_decide (ck_container key = ""%string)
     || bool_decide (ck_container key = "POD"%string)
  then None else Some key.

Definition counterValue (m : Metric) : Z * bool :=
  let v := default (SpecFloat.S754_zero false) (m_counter m) in
  if IsNaN v || negative v then (0, false) else (uint64_of_float v, true).
Definition UnixMilli (ms : Z) : Time := unixEpoch + ms * 1000000.
Definition metricTime (m : Metric) (fallback : Time) : Time :=
  if m_timestampMs m =? 0 then fallback else UnixMilli (m_timestampMs m).

Definition noSample : cadvisorSample := mkCadvisorSample 0 0 false false 0 0.
Definition take_metric (name : string) (samples : gmap cadvisorKey cadvisorSample) (m : Metric) : gmap cadvisorKey cadvisorSample :=
  match cadvisorMetricKey m with
  | None => samples
  | Some key =>
      let s := default noSample (samples !! key) in
      let s :=
        if bool_decide (name = metricThrottledPeriods) then
          let '(v, ok) := counterValue m in
          mkCadvisorSample v (Usage.periods s) ok (hasPeriods s) (metricTime m (sample_ts s)) (sample_start s)
        else if bool_decide (name = metricTotalPeriods) then
          let '(v, ok) := counterValue m in
          mkCadvisorSample (Usage.throttled s) v (hasThrottled s) ok (metricTime m (sample_ts s)) (sample_start s)
        else if bool_decide (name = metricStartTime) then
          let v := default (SpecFloat.S754_zero false) (m_gauge m) in
          if above_zero v then
            mkCadvisorSample (Usage.throttled s) (Usage.periods s) (hasThrottled s) (hasPeriods s) (sample_ts s)
              (unixEpoch + int64_of_float (SpecFloat.SFmul 53 1024 v (Metrics.to_float Second)))
          else s
        else s in
      <[key := s]> samples
  end.
Definition wanted (name : string) : bool :=
  bool_decide (name = metricThrottledPeriods) || bool_decide (name = metricTotalPeriods) || bool_decide (name = metricStartTime).
Definition take_family (samples : gmap cadvisorKey cadvisorSample) (f : MetricFamily) : gmap cadvisorKey cadvisorSample :=
  if negb (wanted (mf_name f)) then samples else foldl (take_metric (mf_name f)) samples (mf_metric f).

(** The decoder's families, and whether it came to the end of the stream. *)
Definition parseCadvisor (decoded : list MetricFamily * bool) : option (gmap cadvisorKey cadvisorSample) :=
  if decoded.2 then Some (foldl take_family ∅ decoded.1) else None.

(** ** The fetches *)

Context (unmarshal : list Byte.byte -> option (list PodStats)) (decode : cappedReader -> list reading -> list MetricFamily * bool).

(** A request answered: the stream and how it was read; [None] is a request that
    failed. *)
Definition fetchSummary (answer : option (stream * list reading)) : option (list PodStats) :=
  '(r, rds) ← answer;
  match readCapped r maxSummaryBytes rds with Some (Ok raw) => unmarshal raw | _ => None end.
Definition fetchCadvisor (answer : option (stream * list reading)) : option (gmap cadvisorKey cadvisorSample) :=
  '(r, rds) ← answer; parseCadvisor (decode (mkCapped r maxCadvisorBytes 0) rds).
(** Whatever the order the workers take the nodes in, the reads are in the order of
    the nodes. *)
Definition fetchAll (summaries expositions : string -> option (stream * list reading)) (nodes : list string) : list nodeReads :=
  (fun n => mkNodeReads n (fetchSummary (summaries n)) (map_to_list <$> fetchCadvisor (expositions n))) <$> nodes.
End exposition.

(** ** A response is whole or refused *)

Lemma Read_spec c rd : 0 <= cr_read c <= cr_limit c -> (0 < rd_room rd)%nat ->
  let '(got, err, c') := Read c rd in
  st_left (cr_r c) = got ++ st_left (cr_r c') /\ st_end (cr_r c') = st_end (cr_r c) /\ cr_limit c' = cr_limit c /\
  cr_read c' = cr_read c + Z.of_nat (length got) /\ cr_read c' <= cr_limit c + 1 /\
  match err with
  | Some ResponseTooLarge => cr_limit c < cr_read c'
  | Some (Ended e) => cr_read c' <= cr_limit c /\ st_left (cr_r c') = [] /\ e = st_end (cr_r c)
  | None => cr_read c' <= cr_limit c /\ ((0 < rd_n rd)%nat -> got <> [])
  end.
Proof.
  intros Hr Hroom. unfold Read, read. set (n := Nat.min _ (rd_n rd)).
  assert (Z.of_nat n <= cr_limit c - cr_read c + 1 /\ ((0 < rd_n rd)%nat -> (0 < n)%nat)) as [Hn Hpos]
    by (subst n; destruct (Z.ltb_spec (cr_limit c - cr_read c + 1) (Z.of_nat (rd_room rd))); lia).
  pose proof (length_take (st_left (cr_r c)) n) as Hl. cbn.
  split_and!; [by rewrite take_drop|done|done|done|lia|].
  destruct (Z.ltb_spec (cr_limit c) (cr_read c + Z.of_nat (length (take n (st_left (cr_r c)))))) as [Hlt|Hge]; [done|].
  destruct (bool_decide (drop n _ = [])) eqn:Ed; cbn [andb fmap option_fmap option_map].
  - apply bool_decide_eq_true in Ed. destruct (bool_decide (take n _ = [])) eqn:Et; cbn [orb]; [by split|].
    apply bool_decide_eq_false in Et. by destruct (rd_with_end rd).
  - split; [lia|]. intros Hp Ht. apply bool_decide_eq_false in Ed. apply (f_equal length) in Ht. rewrite Hl in Ht. cbn in Ht.
    assert (length (st_left (cr_r c)) = 0%nat) as H0 by lia. apply nil_length_inv in H0. by rewrite H0, drop_nil in Ed.
Qed.

(** The bytes of a response and its end decide the result, whatever the sizes of
    the reads; and what was asked of the transport is never more than one byte past
    the limit ([Read_spec]). *)
Definition verdict (data : list Byte.byte) (e : ending) (limit : Z) : result read_error (list Byte.byte) :=
  if limit <? Z.of_nat (length data) then Err ResponseTooLarge
  else match e with EOF => Ok data | StreamFailed => Err (Ended StreamFailed) end.

Lemma ReadAll_verdict limit data e c acc rds res :
  cr_limit c = limit -> st_end (cr_r c) = e -> data = acc ++ st_left (cr_r c) -> cr_read c = Z.of_nat (length acc) -> cr_read c <= limit ->
  Forall (fun rd => (0 < rd_room rd)%nat) rds -> ReadAll c acc rds = Some res -> res = verdict data e limit.
Proof.
  intros <- <- -> Hr Hle Hrds. revert c acc Hr Hle. induction Hrds as [|rd rds Hroom _ IH]; intros c acc Hr Hle; [done|]. cbn [ReadAll].
  pose proof (Read_spec c rd ltac:(lia) Hroom) as H. destruct (Read c rd) as [[got err] c']. destruct H as (Hd & He & Hlim & Hrd & Hmax & Herr).
  rewrite Hd, app_assoc. destruct err as [[[]|]|].
  - destruct Herr as (Hok & Hnil & Heof). intros [= <-]. unfold verdict. rewrite Hnil, app_nil_r, <-Heof.
    destruct (Z.ltb_spec (cr_limit c) (Z.of_nat (length (acc ++ got)))); [rewrite length_app in *; lia|done].
  - destruct Herr as (Hok & Hnil & Heof). intros [= <-]. unfold verdict. rewrite Hnil, app_nil_r, <-Heof.
    destruct (Z.ltb_spec (cr_limit c) (Z.of_nat (length (acc ++ got)))); [rewrite length_app in *; lia|done].
  - intros [= <-]. unfold verdict. destruct (Z.ltb_spec (cr_limit c) (Z.of_nat (length ((acc ++ got) ++ st_left (cr_r c'))))); [done|].
    rewrite !length_app in *; lia.
  - rewrite <-Hlim, <-He. apply IH; rewrite ?length_app; lia.
Qed.

Lemma ReadAll_ends c acc rds : 0 <= cr_read c <= cr_limit c -> Forall (fun rd => (0 < rd_room rd)%nat /\ (0 < rd_n rd)%nat) rds ->
  (length (st_left (cr_r c)) < length rds)%nat -> is_Some (ReadAll c acc rds).
Proof.
  intros Hr Hrds. revert c acc Hr. induction Hrds as [|rd rds [Hroom Hn] _ IH]; intros c acc Hr Hlen; [cbn in Hlen; lia|]. cbn [ReadAll].
  pose proof (Read_spec c rd Hr Hroom) as H. destruct (Read c rd) as [[got err] c']. destruct H as (Hd & He & Hlim & Hrd & Hmax & Herr).
  destruct err as [[[]|]|]; [by eexists..|]. destruct Herr as [Hle Hgot]. specialize (Hgot Hn).
  apply IH; [lia|]. rewrite Hd, length_app in Hlen. destruct got; [done|]. cbn in Hlen. lia.
Qed.

(** A truncated response is not a smaller response: however the transport cuts
    it, a response is either read whole or refused, and enough reads that make
    progress decide it. *)
Lemma response_is_whole_or_refused r limit rds :
  0 <= limit -> Forall (fun rd => (0 < rd_room rd)%nat /\ (0 < rd_n rd)%nat) rds -> (length (st_left r) < length rds)%nat ->
  readCapped r limit rds = Some (verdict (st_left r) (st_end r) limit).
Proof.
  intros Hl Hrds Hlen. unfold readCapped. destruct (ReadAll_ends (mkCapped r limit 0) [] rds) as [res Hres]; [cbn; lia|done|done|].
  rewrite Hres. f_equal. apply (ReadAll_verdict limit _ _ (mkCapped r limit 0) [] rds res); try done.
  eapply Forall_impl; [exact Hrds|]. by intros rd [H _].
Qed.

(** ** What the exposition says of a container *)

Section exposition_facts.
Context (wild : float64 -> Z).

(** A row that attributes to a container of a pod. *)
Definition attributable (k : cadvisorKey) : Prop :=
  ck_namespace k <> ""%string /\ ck_pod k <> ""%string /\ ck_container k <> ""%string /\ ck_container k <> "POD"%string.
Lemma cadvisorMetricKey_attributable m k : cadvisorMetricKey m = Some k -> attributable k.
Proof. unfold cadvisorMetricKey. repeat case_bool_decide; cbn; try done. by intros [= <-]. Qed.

Lemma take_metric_keys name samples m : map_Forall (fun k _ => attributable k) samples -> map_Forall (fun k _ => attributable k) (take_metric wild name samples m).
Proof.
  intros Hs. unfold take_metric. destruct (cadvisorMetricKey m) eqn:E; [|done].
  apply map_Forall_insert_2; [by eapply cadvisorMetricKey_attributable|done].
Qed.

(** Only containers of pods are sampled, and nothing of the exposition but the
    three families is looked at. *)
Lemma parse_keeps_three_families fams ok :
  parseCadvisor wild (fams, ok) = parseCadvisor wild (List.filter (fun f => wanted (mf_name f)) fams, ok) /\
  (forall samples, parseCadvisor wild (fams, ok) = Some samples -> map_Forall (fun k _ => attributable k) samples).
Proof.
  unfold parseCadvisor. cbn [fst snd]. destruct ok; [|done]. split.
  - f_equal. generalize (∅ : gmap cadvisorKey cadvisorSample). induction fams as [|fam fams IH]; intros s; [done|]. cbn [foldl List.filter].
    destruct (wanted (mf_name fam)) eqn:E; [apply IH|]. rewrite IH. unfold take_family at 2. by rewrite E.
  - intros samples [= <-]. assert (forall s, map_Forall (fun k _ => attributable k) s -> map_Forall (fun k _ => attributable k) (foldl (take_family wild) s fams)) as H;
      [|by apply H]. induction fams as [|fam fams IH]; intros s Hs; [done|]. apply IH. unfold take_family. destruct (negb _); [done|].
    generalize (mf_metric fam) as ms. intros ms. revert s Hs. induction ms as [|m ms IHm]; intros s Hs; [done|]. by apply IHm, take_metric_keys.
Qed.

Definition demo_row (container : string) (v : Z) : Metric :=
  mkMetric [("container", container); ("namespace", "shop"); ("pod", "web-0")]%string (Some (Metrics.to_float v)) None 1700000000000.
Example an_exposition :
  let started := mkMetric [("container", "app"); ("namespace", "shop"); ("pod", "web-0")]%string None (Some (SpecFloat.SFdiv 53 1024 (Metrics.to_float 3) (Metrics.to_float 2))) 0 in
  map_to_list <$> parseCadvisor wild ([mkFamily metricThrottledPeriods [demo_row "app" 7; demo_row "POD" 9; demo_row "" 11];
                                       mkFamily "container_memory_rss" [demo_row "app" 1]; mkFamily metricTotalPeriods [demo_row "app" 90];
                                       mkFamily metricStartTime [started]], true)
  = Some [(mkCadvisorKey "shop" "web-0" "app", mkCadvisorSample 7 90 true true (UnixMilli 1700000000000) (unixEpoch + 1500000000))].
Proof. vm_compute. reflexivity. Qed.
End exposition_facts.
