(* ===== verification/Endpoints.v ===== *)
(** The listeners of the two roles: the probes of [internal/health/server.go], the
    scrape of [internal/metrics/handler.go], and the checks main.go and node.go
    give them.

    A handler takes what it reads of a request, its method, and answers what it
    writes: a status, headers and a body.  net/http's own part (binding, timeouts,
    dropping the body of an answer to HEAD) is not modelled. *)

From stdpp Require Import prelude gmap strings.
From Stdlib Require Import ZArith Lia Ascii.
From S2P Require Import Prelude GoTime GoStrings WatchHealth Metrics.
Local Open Scope Z_scope.
Local Open Scope list_scope.

(** ** Durations as text *)

(** [Duration.String].  [frac] is [fmtFrac]: the last [prec] digits of [v] behind a
    dot without trailing zeros, and what is left of [v]. *)
Fixpoint frac (prec : nat) (v : Z) (print : bool) (acc : string) : string * Z :=
  match prec with
  | O => (if print then "." +:+ acc else acc, v)
  | S prec =>
      let digit := v mod 10 in
      let print := print || negb (digit =? 0) in
      frac prec (v / 10) print (if print then FormatUint digit +:+ acc else acc)
  end.
Definition with_frac (prec : nat) (v : Z) (unit_ : string) : string :=
  let '(f, v) := frac prec v false "" in FormatUint v +:+ f +:+ unit_.
Definition micro : string := String (ascii_of_N 194) (String (ascii_of_N 181) "s").
Definition DurationString (d : Duration) : string :=
  let u := Z.abs d in
  let body :=
    if u =? 0 then "0s"%string
    else if u <? 1000 then FormatUint u +:+ "ns"
    else if u <? 1000000 then with_frac 3 u micro
    else if u <? Second then with_frac 6 u "ms"
    else
      let '(f, u) := frac 9 u false "" in
      let s := FormatUint (u mod 60) +:+ f +:+ "s" in
      let u := u / 60 in
      if u =? 0 then s
      else
        let s := FormatUint (u mod 60) +:+ "m" +:+ s in
        let u := u / 60 in
        if u =? 0 then s else FormatUint u +:+ "h" +:+ s in
  if d <? 0 then "-" +:+ body else body.

(** ** Answers *)

Record response := mkResponse { Status : Z; Header : list (string * string); ResponseBody : string }.
Definition StatusOK := 200.
Definition StatusNotFound := 404.
Definition StatusMethodNotAllowed := 405.
Definition StatusInternalServerError := 500.
Definition StatusServiceUnavailable := 503.

Definition newline : string := String newline_byte EmptyString.
(** [http.Error]. *)
Definition HttpError (header : list (string * string)) (msg : string) (code : Z) : response :=
  mkResponse code (header ++ [("Content-Type", "text/plain; charset=utf-8"); ("X-Content-Type-Options", "nosniff")]%string) (msg +:+ newline).

Definition read_method (m : string) : bool := bool_decide (m = "GET"%string) || bool_decide (m = "HEAD"%string).
(** The refusal every handler starts with. *)
Definition read_only (m : string) (k : response) : response :=
  if read_method m then k else HttpError [("Allow", "GET, HEAD")]%string "read-only endpoint" StatusMethodNotAllowed.

(** ** Probes *)

Definition check : Type := bool * string.

Definition answer (c : check) (m : string) : response :=
  read_only m
    (let header := [("Content-Type", "text/plain; charset=utf-8")]%string in
     if negb c.1 then mkResponse StatusServiceUnavailable header (c.2 +:+ newline)
     else mkResponse StatusOK header ("ok" +:+ newline)).

(** ** The scrape *)

(** What an encoder writes of one value, and whether it got through. *)
Fixpoint encode_all {A} (encode : A -> string * bool) (l : list A) : string :=
  match l with
  | [] => ""
  | a :: l => let '(out, ok) := encode a in if ok then out +:+ encode_all encode l else out
  end.

(** The content type and the encoder are prometheus/common's. *)
Definition metrics_handler (format : string) (encode : MetricFamily -> string * bool) (gathered : result metric_error (list MetricFamily)) (m : string) : response :=
  read_only m
    match gathered with
    | Err _ => HttpError [] "metrics unavailable" StatusInternalServerError
    | Ok families =>
        mkResponse StatusOK [("Content-Type"%string, format)] (encode_all encode families)
    end.

(** ** The health listener *)

Definition LivePath : string := "/livez".
Definition ReadyPath : string := "/readyz".
Definition MetricsPath : string := "/metrics".
Definition not_found : response := HttpError [] "404 page not found" StatusNotFound.

Definition health_listener (live ready : check) (metrics : option (string -> response)) (path m : string) : response :=
  if bool_decide (path = LivePath) then answer live m
  else if bool_decide (path = ReadyPath) then answer ready m
  else if bool_decide (path = MetricsPath) then from_option (fun h => h m) not_found metrics
  else not_found.

(** ** What each role answers *)

Definition controller_live (beat : Heartbeat) (now : Time) : check :=
  let '(alive, age) := Alive beat now in
  if negb alive then (false, "the collection pass last ran " +:+ DurationString (Round age Second) +:+ " ago") else (true, ""%string).
Definition controller_ready (spool_open pods_synced nodes_synced : bool) : check :=
  if negb spool_open then (false, "no spool is open; this agent collects into its log only"%string)
  else if negb pods_synced || negb nodes_synced then (false, "informer caches are still syncing"%string)
  else (true, ""%string).
Definition node_live (beat : Heartbeat) (now : Time) : check :=
  let '(alive, age) := Alive beat now in
  if negb alive then (false, "the scan pass last started " +:+ DurationString (Round age Second) +:+ " ago") else (true, ""%string).
Definition node_ready (passed : bool) : check :=
  if negb passed then (false, "the first scan pass has not finished"%string) else (true, ""%string).

(** [nodeLivenessDeadline]. *)
Definition nodePassCeiling : Duration := Minute.
Definition nodeLivenessDeadline (interval : Duration) : Duration :=
  if interval <=? 0 then nodePassCeiling else (wrap64 (3 * interval) +w nodePassCeiling)%go.
Definition controllerLivenessDeadline : Duration := 3 * Minute.

(** ** What is answered *)

Example durations_print :
  DurationString <$> [0; 1500; 1500000000; 90 * Second; Hour; - (61 * Minute + 1)] = ["0s"; "1.5" +:+ micro; "1.5s"; "1m30s"; "1h0m0s"; "-1h1m0.000000001s"]%string.
Proof. vm_compute. reflexivity. Qed.

Lemma read_only_status m k : read_method m = false -> Status (read_only m k) = StatusMethodNotAllowed.
Proof. unfold read_only. by intros ->. Qed.

Lemma answer_status c m : read_method m = true -> Status (answer c m) = if c.1 then StatusOK else StatusServiceUnavailable.
Proof. unfold answer, read_only. intros ->. by destruct (c.1). Qed.

(** The stamp of a loop is that of its latest pass. *)
Lemma beats_keep_the_latest h ts t : foldl Beat h (ts ++ [t]) = mkHeartbeat t (hb_deadline h).
Proof.
  rewrite foldl_app. cbn. unfold Beat at 1. f_equal. clear t. revert h.
  induction ts as [|t ts IH]; intros h; [done|]. cbn. by rewrite IH.
Qed.

(** What the kubelet is told.  Nothing but GET and HEAD is answered, whatever the
    path and the checks; the controller is alive exactly while its last pass began
    no longer than three intervals ago, a node while its last scan began within
    its deadline; ready is a spool open and both caches filled, or a first scan
    finished. *)
Lemma probes_tell_the_role h ts t now spool_open pods nodes passed metrics path m :
  let beat := foldl Beat h (ts ++ [t]) in
  (read_method m = false ->
     forall live ready, Status (health_listener live ready metrics path m) = StatusNotFound \/
       Status (health_listener live ready metrics path m) = StatusMethodNotAllowed \/ exists r, metrics = Some r /\ path = MetricsPath) /\
  (read_method m = true -> Sub now t <= hb_deadline h -> Status (answer (controller_live beat now) m) = StatusOK /\ Status (answer (node_live beat now) m) = StatusOK) /\
  (read_method m = true -> hb_deadline h < Sub now t ->
     Status (answer (controller_live beat now) m) = StatusServiceUnavailable /\ Status (answer (node_live beat now) m) = StatusServiceUnavailable) /\
  (read_method m = true ->
     Status (answer (controller_ready spool_open pods nodes) m) = (if spool_open && pods && nodes then StatusOK else StatusServiceUnavailable) /\
     Status (answer (node_ready passed) m) = if passed then StatusOK else StatusServiceUnavailable).
Proof.
  intros beat. unfold beat. rewrite beats_keep_the_latest. split_and!.
  - intros Hm live ready. unfold health_listener, answer. repeat case_bool_decide; rewrite ?read_only_status by done; auto.
    destruct metrics as [r|]; [|by left]. right. right. by exists r.
  - intros Hm Hs. rewrite !answer_status by done. unfold controller_live, node_live, Alive. cbn. by rewrite (proj2 (Z.leb_le _ _) Hs).
  - intros Hm Hs. rewrite !answer_status by done. unfold controller_live, node_live, Alive. cbn. by rewrite (proj2 (Z.leb_gt _ _) Hs).
  - intros Hm. rewrite !answer_status by done. unfold controller_ready, node_ready. by destruct spool_open, pods, nodes, passed.
Qed.
