(* ===== verification/Gate.v ===== *)
(** Whether a node profiles at all: the readiness gate of
    [internal/ebpfgate/probe.go], the start and end of a capture in
    [internal/nodeprofile] (capture.go, capture_linux.go), and what node.go and
    pipeline.go make of them.

    The tracer is third-party: which of its set-up calls fail is an input, and the
    calls made are the log.  What [fmt.Sscanf] does with "%d.%d" is modelled.  A
    kernel release is ASCII. *)

From stdpp Require Import prelude gmap strings list.
From Stdlib Require Import ZArith Lia Ascii.
From S2P Require Import Prelude GoTime GoStrings NodeReport Binding SymbolFilter Capture Pipeline.
From S2P Require Config Metrics.
Local Open Scope Z_scope.
Local Open Scope go_scope.

(** ** The kernel's version *)

(** [SkipSpace] under [Sscanf], to which a newline is not a space but an error. *)
Fixpoint skip_space (s : string) : option string :=
  match s with
  | EmptyString => Some EmptyString
  | String c s' => if bool_decide (c = newline_byte) then None else if is_space c then skip_space s' else Some s
  end.
Fixpoint take_digits (s : string) : string * string :=
  match s with
  | EmptyString => (EmptyString, EmptyString)
  | String c s' => match digit_value c with None => (EmptyString, s) | Some _ => let '(ds, rest) := take_digits s' in (String c ds, rest) end
  end.
Definition cut_sign (s : string) : string * string :=
  match s with String "+"%char s' => ("+"%string, s') | String "-"%char s' => ("-"%string, s') | _ => (EmptyString, s) end.
(** What the verb [%d] reads, and what it leaves. *)
Definition scan_int (s : string) : option (Z * string) :=
  s ← skip_space s;
  let '(sign, s) := cut_sign s in
  let '(ds, rest) := take_digits s in
  if bool_decide (ds = EmptyString) then None else n ← ParseInt (sign +:+ ds); Some (n, rest).

Definition parseKernelVersion (osrelease : string) : option (Z * Z) :=
  '(major, s) ← scan_int (TrimSpace osrelease);
  match s with
  | String "."%char s => '(minor, _) ← scan_int s; Some (major, minor)
  | _ => None
  end.

(** ** The gate *)

Definition ReasonSupported : string := "supported".
Definition ReasonKernelTooOld : string := "kernel_too_old".
Definition ReasonBTFAbsent : string := "btf_absent".
Definition ReasonKernelUnknown : string := "kernel_unknown".
Definition ReasonProgramLoadFailed : string := "program_load_failed".
Definition minKernelMajor : Z := 5.
Definition minKernelMinor : Z := 8.

Record Result := mkResult { Reason : string; KernelVersion : string; Major : Z; Minor : Z; BTFPresent : bool }.
Definition Supported (r : Result) : bool := bool_decide (Reason r = ReasonSupported).

(** The two files: whether the BTF one is there, and the release, if readable. *)
Definition Probe (btf : bool) (osrelease : option string) : Result :=
  match osrelease with
  | None => mkResult ReasonKernelUnknown "" 0 0 btf
  | Some raw =>
      let version := TrimSpace raw in
      match parseKernelVersion version with
      | None => mkResult ReasonKernelUnknown version 0 0 btf
      | Some (major, minor) =>
          let verdict reason := mkResult reason version major minor btf in
          if (major <? minKernelMajor) || ((major =? minKernelMajor) && (minor <? minKernelMinor)) then verdict ReasonKernelTooOld
          else if negb btf then verdict ReasonBTFAbsent
          else verdict ReasonSupported
      end
  end.

Definition ebpfGate (btf : bool) (osrelease : option string) (m : ProfilingCoverage) : Result * ProfilingCoverage :=
  let res := Probe btf osrelease in (res, setState (Reason res) m).

(** ** A capture *)

Record CaptureConfig := mkCaptureConfig { SamplesPerSecond : Z; ReporterInterval : Duration; MonitorInterval : Duration }.
Definition withDefaults (c : CaptureConfig) : CaptureConfig :=
  mkCaptureConfig (if SamplesPerSecond c <=? 0 then 20 else SamplesPerSecond c)
    (if ReporterInterval c <=? 0 then 5 * Second else ReporterInterval c)
    (if MonitorInterval c <=? 0 then 5 * Second else MonitorInterval c).

(** Which call on the tracer fails. *)
Record tracer_faults := mkTracerFaults {
  tf_new : bool; tf_attach : bool; tf_enable : bool; tf_sched : bool; tf_prctl : bool; tf_maps : bool;
}.
Inductive tracer_call :=
| NewTracer | StartPIDEventProcessor | AttachTracer | EnableProfiling | AttachSchedMonitor | AttachPrctlMonitor | StartMapMonitors
| HandleTrace (trace : list RawFrame) (meta : TraceEventMeta) | Close.

(** A call whose failure closes the tracer and is the error returned. *)
Definition must (c : tracer_call) (failed : bool) (rest : list tracer_call * bool) : list tracer_call * bool :=
  if failed then ([c; Close], false) else (c :: rest.1, rest.2).
Definition startCapture (t : tracer_faults) : list tracer_call * bool :=
  if tf_new t then ([NewTracer], false)
  else
    let '(calls, ok) :=
      must AttachTracer (tf_attach t) (must EnableProfiling (tf_enable t) (must AttachSchedMonitor (tf_sched t)
        (let '(calls, ok) := must StartMapMonitors (tf_maps t) ([], true) in (AttachPrctlMonitor :: calls, ok)))) in
    (NewTracer :: StartPIDEventProcessor :: calls, ok).

(** What the loop of [run] receives: a trace, the context's end, or the tracer's
    own. *)
Inductive received := Trace (t : option (list RawFrame * TraceEventMeta)) | CtxDone | TracerDone.
(** The calls it makes, and whether it returned. *)
Fixpoint pump (es : list received) : list tracer_call * bool :=
  match es with
  | [] => ([], false)
  | Trace t :: es => let '(calls, ended) := pump es in ((match t with Some (tr, meta) => [HandleTrace tr meta] | None => [] end) ++ calls, ended)
  | (CtxDone | TracerDone) :: _ => ([Close], true)
  end.
(** [watch]: [stopped] once the loop has returned with the context still live. *)
Definition watch (es : list received) (ctx_ended : bool) : bool := (pump es).2 && negb ctx_ended.
Definition captured_events (calls : list tracer_call) : list event :=
  omap (fun c => match c with HandleTrace tr meta => Some (Captured tr meta) | _ => None end) calls.

(** ** The node *)

Section node.
Context (parse : string -> option Profile) (check_valid : Profile -> bool) (encode : Profile -> option string).

Definition pipeline_settings (node : string) (p : Config.NodeProfiling) : settings :=
  mkSettings node (samplesPerSecond (Config.np_OverheadCeilingPercent p)) (Config.np_AllowedModulePrefixes p)
    (if bool_decide (Config.np_ThirdPartySymbols p = Config.ThirdPartySymbolsKeep) then ThirdPartyKeep else ThirdPartyDrop).

(** [runProfilingPipeline]: [cancelled] says a failed start failed because the
    agent was already stopping. *)
Definition runProfilingPipeline (node : string) (p : Config.NodeProfiling) (t : tracer_faults) (cancelled : bool) (now : Time)
    (es : list event) (m : ProfilingCoverage) : ProfilingCoverage * list (tick * WindowReport) :=
  if (startCapture t).2 then
    let '(s, log) := run parse check_valid encode (pipeline_settings node p) (wrap64 (Config.np_IntervalSeconds p * Second)) es (started now m) in
    (pp_metrics s, log)
  else (if cancelled then m else setState ReasonProgramLoadFailed m, []).

(** What [runNode] does about profiling, by its master switch. *)
Definition profiling (enableEBPF : bool) (btf : bool) (osrelease : option string) (node : string) (p : Config.NodeProfiling)
    (t : tracer_faults) (cancelled : bool) (now : Time) (es : list event) : ProfilingCoverage * list (tick * WindowReport) :=
  let m := newProfilingMetrics in
  if negb enableEBPF then (m, [])
  else
    let '(res, m) := ebpfGate btf osrelease m in
    if Supported res then runProfilingPipeline node (Config.NodeNormalized p) t cancelled now es m else (m, []).
End node.

(** ** Reading a release back *)

Lemma TrimRight_app s t : no_space s = true -> TrimRight (s +:+ t) = s +:+ TrimRight t.
Proof.
  induction s as [|c s IH]; [done|]. intros [Hc Hs]%andb_true_iff. rewrite !string_app_cons. cbn [TrimRight]. rewrite IH by done.
  apply negb_true_iff in Hc. destruct (s +:+ TrimRight t) eqn:E; [by rewrite Hc|done].
Qed.
Lemma digit_not_space c d : digit_value c = Some d -> is_space c = false /\ c <> newline_byte.
Proof.
  unfold digit_value, is_space. case_bool_decide as H; [|done]. intros _. split.
  - apply orb_false_iff. split; [apply N.eqb_neq; lia|]. apply andb_false_iff. right. apply N.leb_gt. lia.
  - intros ->. vm_compute in H. naive_solver.
Qed.
Lemma digits_no_space s : all_digits s = true -> no_space s = true.
Proof.
  induction s as [|c s IH]; [done|]. cbn. intros [Hc Hs]%andb_true_iff. apply bool_decide_eq_true in Hc as [d Hd].
  by rewrite (proj1 (digit_not_space _ _ Hd)), IH.
Qed.

(** What does not continue a number. *)
Definition stops (s : string) : Prop := match s with EmptyString => True | String c _ => digit_value c = None end.
Lemma stops_TrimRight s : stops s -> stops (TrimRight s).
Proof. destruct s as [|c s]; [done|]. cbn. intros Hc. repeat case_match; done. Qed.

Lemma take_digits_app ds rest : all_digits ds = true -> stops rest -> take_digits (ds +:+ rest) = (ds, rest).
Proof.
  induction ds as [|c ds IH]; intros Hd Hr.
  - destruct rest as [|c rest]; [done|]. rewrite string_app_nil. cbn [take_digits]. unfold stops in Hr. by rewrite Hr.
  - cbn in Hd. apply andb_true_iff in Hd as [Hc Hd]. apply bool_decide_eq_true in Hc as [d Hc]. rewrite string_app_cons. cbn [take_digits].
    by rewrite Hc, IH.
Qed.

Lemma cut_sign_digit c s d : digit_value c = Some d -> cut_sign (String c s) = (EmptyString, String c s).
Proof. intros Hc. destruct c as [[] [] [] [] [] [] [] []]; vm_compute in Hc; (discriminate || reflexivity). Qed.

Lemma scan_int_print n rest : 0 <= n <= maxInt64 -> stops rest -> scan_int (FormatUint n +:+ rest) = Some (n, rest).
Proof.
  intros Hn Hr. pose proof (all_digits_FormatUint n) as Hd. pose proof (FormatUint_nonempty n) as Hne.
  assert (ParseInt (FormatUint n) = Some n) as Hp
    by (rewrite <-(FormatInt_pos n) by lia; apply ParseInt_FormatInt; unfold int64_ok, minInt64, maxInt64 in *; lia).
  unfold scan_int. destruct (FormatUint n) as [|c s] eqn:E; [done|].
  destruct (all_digits_head _ _ _ Hd eq_refl) as [d Hc]. destruct (digit_not_space _ _ Hc) as [Hs Hnl].
  rewrite string_app_cons. cbn [skip_space]. rewrite bool_decide_false by done. rewrite Hs. cbn [mbind option_bind].
  rewrite <-string_app_cons, <-E.
  rewrite E, string_app_cons, (cut_sign_digit _ _ _ Hc), <-string_app_cons, <-E.
  rewrite take_digits_app by (done || apply all_digits_FormatUint). rewrite bool_decide_false by (by rewrite E). rewrite string_app_nil, E, Hp. done.
Qed.

Lemma release_reads_back major minor suffix :
  0 <= major <= maxInt64 -> 0 <= minor <= maxInt64 -> stops suffix ->
  parseKernelVersion (FormatUint major +:+ "." +:+ FormatUint minor +:+ suffix) = Some (major, minor).
Proof.
  intros HM Hm Hs. unfold parseKernelVersion.
  assert (TrimSpace (FormatUint major +:+ "." +:+ FormatUint minor +:+ suffix) = FormatUint major +:+ "." +:+ FormatUint minor +:+ TrimRight suffix) as ->.
  { unfold TrimSpace. pose proof (all_digits_FormatUint major) as Hd. pose proof (digits_no_space _ Hd) as Hns.
    assert (TrimLeft (FormatUint major +:+ "." +:+ FormatUint minor +:+ suffix) = FormatUint major +:+ "." +:+ FormatUint minor +:+ suffix) as ->.
    { destruct (FormatUint major) as [|c s] eqn:E; [by apply FormatUint_nonempty in E|]. rewrite string_app_cons. cbn in Hns |- *.
      apply andb_true_iff in Hns as [Hc _]. apply negb_true_iff in Hc. by rewrite Hc. }
    rewrite TrimRight_app by done. f_equal. rewrite TrimRight_app by done. f_equal.
    apply TrimRight_app, digits_no_space, all_digits_FormatUint. }
  rewrite scan_int_print by done. rewrite string_app_cons, string_app_nil. cbn [mbind option_bind]. by rewrite scan_int_print by (done || by apply stops_TrimRight).
Qed.

(** ** Properties *)

(** The version rules: it is asked first, and 5.8 is where it opens. *)
Lemma gate_opens_from_5_8 btf major minor suffix :
  0 <= major <= maxInt64 -> 0 <= minor <= maxInt64 -> stops suffix ->
  let enough := 5 < major \/ (major = 5 /\ 8 <= minor) in
  let res := Probe btf (Some (FormatUint major +:+ "." +:+ FormatUint minor +:+ suffix)) in
  Major res = major /\ Minor res = minor /\ BTFPresent res = btf /\
  (Supported res = true <-> enough /\ btf = true) /\
  (Reason res = ReasonKernelTooOld <-> ~ enough) /\ (Reason res = ReasonBTFAbsent <-> enough /\ btf = false).
Proof.
  intros HM Hm Hs enough res. pose proof (release_reads_back major minor suffix HM Hm Hs) as Hp.
  assert (parseKernelVersion (TrimSpace (FormatUint major +:+ "." +:+ FormatUint minor +:+ suffix)) = Some (major, minor)) as Hp'.
  { revert Hp. unfold parseKernelVersion. by rewrite TrimSpace_idem. }
  subst res. unfold Probe, Supported. rewrite Hp'.
  destruct ((major <? minKernelMajor) || ((major =? minKernelMajor) && (minor <? minKernelMinor))) eqn:E;
    unfold minKernelMajor, minKernelMinor in E; [|destruct btf]; cbn; subst enough;
    split_and!; try done; (split; [intros H|intros [H1 H2] || intros H]); first [done|lia|split; [lia|done]|idtac].
Qed.

(** A tracer that was made is closed when the start fails, and not before. *)
Lemma failed_start_closes_the_tracer t :
  let '(calls, ok) := startCapture t in
  (ok = false -> tf_new t = false -> last calls = Some Close /\ Close ∉ removelast calls) /\ (ok = true -> Close ∉ calls) /\
  (tf_new t = true -> calls = [NewTracer]).
Proof.
  destruct t as [[] [] [] [] [] []]; cbn; (split; [|split]); try done; intros; try (split; [done|]);
    rewrite ?not_elem_of_cons; repeat split; try done; apply not_elem_of_nil.
Qed.

Section node_life.
Context (parse : string -> option Profile) (check_valid : Profile -> bool) (encode : Profile -> option string).
Abbreviation runs := (run parse check_valid encode).

Definition stopped_tick (e : event) : bool := match e with Ticked t => tk_stopped t | Captured _ _ => false end.

Lemma run_app cfg refresh es es' s :
  runs cfg refresh (es ++ es') s =
  let '(s1, log) := runs cfg refresh es s in let '(s2, log') := runs cfg refresh es' s1 in (s2, log ++ log').
Proof.
  revert s. induction es as [|e es IH]; intros s; cbn [app run]; [by destruct (runs _ _ es' s)|].
  destruct (step _ _ _ _ _ s e) as [s1 posted]. rewrite IH. destruct (runs _ _ es s1) as [s2 log]. destruct (runs _ _ es' s2) as [s3 log'].
  by rewrite app_assoc.
Qed.

Lemma ship_groups_state cfg ff start end_ ship gs posted m :
  State (foldl (ship_group parse check_valid encode cfg ff start end_ ship) (posted, m) gs).2 = State m.
Proof.
  revert posted m. induction gs as [|g gs IH]; intros posted m; [done|]. cbn [foldl].
  assert (State (ship_group parse check_valid encode cfg ff start end_ ship (posted, m) g).2 = State m) as Hg.
  { unfold ship_group. destruct (Filter _ _). repeat case_match; done. }
  destruct (ship_group _ _ _ _ _ _ _ _ _ _) as [posted' m']. by rewrite IH.
Qed.

(** An event of a live capture leaves the state alone, a stopped tick ends it. *)
Lemma step_state cfg refresh e s : pp_ended s = false ->
  let '(s', posted) := step parse check_valid encode cfg refresh s e in
  pp_ended s' = stopped_tick e /\
  State (pp_metrics s') = (if stopped_tick e then ReasonCaptureStopped else State (pp_metrics s)) /\ (stopped_tick e = true -> posted = []).
Proof.
  intros He. destruct e as [trace meta|t]; cbn [step stopped_tick]; [done|]. unfold on_tick. rewrite He.
  destruct (tk_stopped t); [done|]. destruct (refresh_targets _ _ _), (Drain _) as [buffer samples]. unfold processWindow.
  repeat case_bool_decide; try done.
  match goal with |- context [foldl (ship_group _ _ _ _ ?ff ?a ?b ?sh) ([], ?m) ?l] =>
    pose proof (ship_groups_state cfg ff a b sh l [] m) as Hs; destruct (foldl _ ([], m) l) end.
  cbn in *. split; [done|]. split; [|done]. rewrite Hs. by case_match.
Qed.

Lemma ended_run cfg refresh es s : pp_ended s = true ->
  (runs cfg refresh es s).2 = [] /\ State (pp_metrics (runs cfg refresh es s).1) = State (pp_metrics s).
Proof.
  revert s. induction es as [|e es IH]; intros s He; [done|]. cbn [run].
  assert (exists s', step parse check_valid encode cfg refresh s e = (s', []) /\ pp_ended s' = true /\ State (pp_metrics s') = State (pp_metrics s))
    as (s' & -> & He' & Hs).
  { destruct e; cbn; unfold on_tick; rewrite ?He; eexists; (split; [done|]); by rewrite ?He. }
  destruct (IH s' He') as [H1 H2]. destruct (runs _ _ es s') as [s2 log]. cbn in *. rewrite H1. split; [by destruct e|congruence].
Qed.

Lemma run_state cfg refresh es s : pp_ended s = false ->
  State (pp_metrics (runs cfg refresh es s).1) = (if existsb stopped_tick es then ReasonCaptureStopped else State (pp_metrics s)).
Proof.
  revert s. induction es as [|e es IH]; intros s He; [done|]. cbn [run existsb].
  pose proof (step_state cfg refresh e s He) as Hs. destruct (step _ _ _ _ _ s e) as [s' posted]. destruct Hs as (He' & Hs & _).
  destruct (stopped_tick e) eqn:Et; cbn [orb].
  - pose proof (ended_run cfg refresh es s' He') as [_ H]. destruct (runs _ _ es s'). cbn in *. by rewrite H.
  - pose proof (IH s' He') as H. destruct (runs _ _ es s'). cbn in *. by rewrite H, Hs.
Qed.

Lemma stopped_silent cfg refresh tk after s : tk_stopped tk = true -> (runs cfg refresh (Ticked tk :: after) s).2 = [].
Proof.
  intros Hk. destruct (pp_ended s) eqn:He; [by apply ended_run|]. cbn [run].
  pose proof (step_state cfg refresh (Ticked tk) s He) as Hs. destruct (step _ _ _ _ _ s (Ticked tk)) as [s' posted].
  cbn [stopped_tick] in Hs. rewrite Hk in Hs. destruct Hs as (He' & _ & Hp).
  pose proof (ended_run cfg refresh after s' He') as [Ha _]. destruct (runs _ _ after s') as [s2 log]. cbn in *. by rewrite Ha, Hp.
Qed.

(** C38. A node's profiling state is why it is or is not profiling.  Through any
    captures and ticks it is "disabled" exactly without the master switch, else
    the gate's refusal, else that the programs did not load or that the capture
    stopped, and "supported" otherwise; the controller's metrics know every value
    it takes.  A profile leaves the node only if the switch is on, the gate passed
    and the tracer started, and none leaves at or after the tick that found the
    capture stopped. *)
Theorem profiling_state_says_why (enableEBPF btf : bool) (osrelease : option string) (node : string) (p : Config.NodeProfiling)
    (t : tracer_faults) (cancelled : bool) (now : Time) (es : list event) :
  let life es := profiling parse check_valid encode enableEBPF btf osrelease node p t cancelled now es in
  let gate := Probe btf osrelease in
  let loaded := (startCapture t).2 in
  State (life es).1 =
    (if negb enableEBPF then stateDisabled
     else if negb (Supported gate) then Reason gate
     else if negb loaded then if cancelled then ReasonSupported else ReasonProgramLoadFailed
     else if existsb stopped_tick es then ReasonCaptureStopped else ReasonSupported) /\
  Metrics.profilingState (State (life es).1) = State (life es).1 /\
  ((life es).2 <> [] -> enableEBPF = true /\ Supported gate = true /\ loaded = true) /\
  (forall before tk after, es = before ++ Ticked tk :: after -> tk_stopped tk = true -> (life es).2 = (life before).2).
Proof.
  intros life gate loaded. assert (State (life es).1 =
    (if negb enableEBPF then stateDisabled
     else if negb (Supported gate) then Reason gate
     else if negb loaded then if cancelled then ReasonSupported else ReasonProgramLoadFailed
     else if existsb stopped_tick es then ReasonCaptureStopped else ReasonSupported)) as Hstate.
  { unfold life, profiling, ebpfGate. destruct enableEBPF; cbn [negb]; [|done]. fold gate.
    destruct (Supported gate) eqn:Hs; cbn [negb]; [|done]. apply bool_decide_eq_true in Hs.
    unfold runProfilingPipeline. fold loaded. destruct loaded; cbn [negb]; [|destruct cancelled; [exact Hs|done]].
    match goal with |- context [runs ?cfg ?refresh es ?s] => pose proof (run_state cfg refresh es s eq_refl) as H; destruct (runs cfg refresh es s) end.
    cbn in *. rewrite H. by destruct (existsb _ _). }
  split; [exact Hstate|]. split.
  - rewrite Hstate. subst gate. unfold Probe. repeat case_match; reflexivity.
  - split.
    + unfold life, profiling, ebpfGate, runProfilingPipeline. fold gate loaded. destruct enableEBPF; [|done]. cbn [negb].
      destruct (Supported gate); [|done]. by destruct loaded.
    + intros before tk after -> Hk. unfold life, profiling, ebpfGate, runProfilingPipeline. fold gate loaded.
      destruct enableEBPF; [|done]. cbn [negb]. destruct (Supported gate); [|done]. destruct loaded; [|done].
      match goal with |- context [runs ?cfg ?refresh before ?s] => pose proof (run_app cfg refresh before (Ticked tk :: after) s) as H;
        pose proof (stopped_silent cfg refresh tk after (runs cfg refresh before s).1 Hk) as Hq;
        destruct (runs cfg refresh before s) as [s1 log] end.
      cbn [fst] in Hq. rewrite H. destruct (runs _ _ (Ticked tk :: after) s1) as [s2 log']. cbn [fst snd] in *. by rewrite Hq, app_nil_r.
Qed.
End node_life.

(** A capture of a targeted container, a window posted, then a tracer that gives
    up: the profile stays the only one, and the node says why. *)
Definition demo_node_config : Config.NodeProfiling := Config.mkNodeProfiling [] "" 0 0 0.
Definition no_faults : tracer_faults := mkTracerFaults false false false false true false.
Definition demo_tick (stopped : bool) (at_ : Time) : tick :=
  mkTick stopped at_ (Replied ["c1"%string]) (Replied ["u1"%string]) None (fun _ => mkPodBinding "u1" "c1") (Some (fun _ => true)) at_.
Definition demo_window : list event :=
  [Captured [mkRawFrame "main.run" "/src/run.go" 3 "go"] (mkTraceEventMeta 1 7 "app" "c1" ∅); Ticked (demo_tick false 60)].
Definition demo_life (es : list event) : ProfilingCoverage * list (tick * WindowReport) :=
  profiling (fun b => if bool_decide (b = "bytes"%string) then Some demo_profile else None) (fun _ => true) (fun _ => Some "bytes"%string)
    true true (Some ("6.8.0-1064-gcp" +:+ String newline_byte EmptyString)) "node-1" demo_node_config no_faults false 0 es.

Lemma profiling_state_says_why_witness :
  let es := demo_window ++ Ticked (demo_tick true 120) :: demo_window in
  State (demo_life es).1 = ReasonCaptureStopped /\ (demo_life es).2 = (demo_life demo_window).2 /\ length (demo_life es).2 = 1%nat.
Proof.
  intros es.
  destruct (profiling_state_says_why (fun b => if bool_decide (b = "bytes"%string) then Some demo_profile else None) (fun _ => true)
              (fun _ => Some "bytes"%string) true true (Some ("6.8.0-1064-gcp" +:+ String newline_byte EmptyString)) "node-1" demo_node_config
              no_faults false 0 es) as (_ & _ & _ & Hs).
  split; [vm_compute; reflexivity|]. split; [|vm_compute; reflexivity].
  exact (Hs demo_window (demo_tick true 120) demo_window eq_refl eq_refl).
Defined.

(** A release whose number runs past what an int holds is unknown, not new. *)
Example releases :
  parseKernelVersion "5.15.49-linuxkit" = Some (5, 15) /\ parseKernelVersion "6" = None /\ parseKernelVersion "v6.1" = None /\
  parseKernelVersion "99999999999999999999.1" = None /\ parseKernelVersion "5. 8" = Some (5, 8).
Proof. vm_compute. split_and!; reflexivity. Qed.
