(* ===== verification/Decisions.v ===== *)
(** What the filters decided, by name: the listing of
    [internal/collector/decisions.go] and the endpoint that answers it,
    [internal/decisions/server.go].

    The listers are those of client-go: [None] is a listing that failed. *)

From stdpp Require Import prelude gmap strings sorting.
From Stdlib Require Import ZArith Lia.
From S2P Require Import Prelude GoTime GoStrings Cluster Admission PodWatcher PodIndex Endpoints.
From S2P Require Model.
Local Open Scope Z_scope.
Local Open Scope list_scope.

Record Decision_ := mkDecision {
  dc_Kind : string; dc_Namespace : string; dc_Name : string;
  dc_Collected : bool; dc_Profiled : bool; dc_Reason : option ExclusionReason; dc_Workload : option UnresolvedWorkload;
}.

Record listers := mkListers {
  ns_list : option (list (string * annotations)); pod_list : option (list Pod); job_list : option (list Job);
}.

(** ** One object *)

Definition namespace_decision (f : Filter) (ns : string * annotations) : Decision_ :=
  let reason := AdmitNamespace f ns.1 ns.2 in
  let collected := bool_decide (reason = None) in
  mkDecision "Namespace" "" ns.1 collected (collected && negb (says_no ProfileAnnotation ns.2)) reason None.

Definition pod_decision (c : caches) (f : Filter) (pod : Pod) : Decision_ :=
  let ns := namespaceAnnotations c (Namespace (p_meta pod)) in
  let workload := workloadAnnotations c pod in
  let reason := AdmitPod f pod ns workload in
  let collected := bool_decide (reason = None) in
  mkDecision "Pod" (Namespace (p_meta pod)) (ObjName (p_meta pod)) collected (collected && AdmitProfiling pod ns workload) reason
    (Unresolved workload).

Definition job_decision (c : caches) (f : Filter) (job : Job) : Decision_ :=
  let workload := jobWorkloadAnnotations c job in
  let reason := AdmitJob f job (namespaceAnnotations c (Namespace (j_meta job))) workload in
  mkDecision "Job" (Namespace (j_meta job)) (ObjName (j_meta job)) (bool_decide (reason = None)) false reason (Unresolved workload).

(** ** The listing *)

Definition namespaceDecisions (l : listers) (f : Filter) : list Decision_ := namespace_decision f <$> default [] (ns_list l).
Definition podDecisions (l : listers) (c : caches) (f : Filter) : list Decision_ := pod_decision c f <$> default [] (pod_list l).
Definition jobDecisions (l : listers) (c : caches) (f : Filter) : list Decision_ := job_decision c f <$> default [] (job_list l).

Definition decision_key (d : Decision_) : string * (string * string) := (dc_Kind d, (dc_Namespace d, dc_Name d)).
Definition decision_less (a b : Decision_) : bool :=
  lexi (dc_Kind a) (dc_Kind b) (lexi (dc_Namespace a) (dc_Namespace b) (go_lt (dc_Name a) (dc_Name b))).

Definition Decisions (l : listers) (c : caches) (w : PodWatcher) : list Decision_ :=
  sort_slice decision_less (namespaceDecisions l (filter_ w) ++ podDecisions l c (filter_ w) ++ jobDecisions l c (filter_ w)).

(** ** The endpoint *)

(** [encode] is what encoding/json writes of one decision, newline included, and
    whether it got through. *)
Definition Path : string := "/collection".
Definition decisions_handler (encode : Decision_ -> string * bool) (list_ : list Decision_) (synced : bool) (m : string) : response :=
  read_only m
    (if negb synced then HttpError [] "informer caches are still syncing" StatusServiceUnavailable
     else
       let header := [("Content-Type", "application/x-ndjson; charset=utf-8")]%string in
       if bool_decide (m = "HEAD"%string) then mkResponse StatusOK header ""
       else mkResponse StatusOK header (encode_all encode list_)).
Definition decisions_listener encode list_ synced (path m : string) : response :=
  if bool_decide (path = Path) then decisions_handler encode list_ synced m else not_found.

(** ** The listing is the filter's answer *)

Lemma Decisions_rules l c w f : same_rules f (filter_ w) ->
  Decisions l c w = sort_slice decision_less (namespaceDecisions l f ++ podDecisions l c f ++ jobDecisions l c f).
Proof.
  intros [Ha Hd]. unfold Decisions. do 2 f_equal; [|f_equal]; apply list_fmap_ext; intros i x _;
    unfold namespace_decision, pod_decision, job_decision, AdmitNamespace, AdmitPod, AdmitJob, namespaceAllowed; by rewrite Ha, Hd.
Qed.

Lemma decision_less_key a b : decision_less a b = go_lt (decision_key a) (decision_key b).
Proof. reflexivity. Qed.

Lemma pod_decision_admission c f p :
  let d := decide_pod c p f in
  dc_Collected (pod_decision c f p) = collect d /\ dc_Profiled (pod_decision c f p) = profile d /\ dc_Reason (pod_decision c f p) = reason d.
Proof. done. Qed.

Lemma job_decision_admission c f j w :
  same_rules f (filter_ w) -> dc_Collected (job_decision c f j) = (admitJob c j w).2.
Proof.
  intros [Ha Hd]. unfold job_decision, admitJob. cbn. unfold AdmitJob, namespaceAllowed. by rewrite Ha, Hd.
Qed.

(** A line for each namespace, pod and job listed, as the filter decides of it. *)
Definition lines_of (l : listers) (c : caches) (f : Filter) : list Decision_ :=
  (namespace_decision f <$> default [] (ns_list l)) ++ (pod_decision c f <$> default [] (pod_list l)) ++
  (job_decision c f <$> default [] (job_list l)).

(** By kind, then namespace, then name. *)
Definition in_order (a b : Decision_) : Prop :=
  go_lt (dc_Kind a) (dc_Kind b) = true \/
  dc_Kind a = dc_Kind b /\ (go_lt (dc_Namespace a) (dc_Namespace b) = true \/
    dc_Namespace a = dc_Namespace b /\ (go_lt (dc_Name a) (dc_Name b) = true \/ dc_Name a = dc_Name b)).

Lemma go_lt_false_cases (a b : string) : go_lt b a = false -> go_lt a b = true \/ a = b.
Proof. intros H. destruct (go_lt a b) eqn:E; [by left|right]. by apply go_lt_trichotomy. Qed.

Lemma not_after_in_order a b : not_after decision_less a b -> in_order a b.
Proof.
  unfold not_after, decision_less, lexi, in_order. intros H.
  case_bool_decide as Hk; [right; split; [done|]|apply go_lt_false_cases in H as [?|?]; [by left|by destruct Hk]].
  case_bool_decide as Hn; [right; split; [done|]|apply go_lt_false_cases in H as [?|?]; [by left|by destruct Hn]].
  by apply go_lt_false_cases.
Qed.

(** What one more event adds to the count of a control that refuses a pod. *)
Definition raised (f : Filter) (es : list event) (e : event) (r : ExclusionReason) : Z :=
  refused (balance_of f (es ++ [e])) r - refused (balance_of f es) r.

Lemma raised_by_the_reason f es c clk p r :
  raised f es (EAdd c clk p) r = if decide (dc_Reason (pod_decision c f p) = Some r) then 1 else 0.
Proof.
  unfold raised. rewrite balance_snoc. cbn [balance_step]. destruct (pod_decision_admission c f p) as (Hc & _ & ->).
  destruct (collect (decide_pod c p f)) eqn:Hcol; cbn [refused].
  - rewrite decide_False; [lia|]. unfold decide_pod in *. cbn in *. apply bool_decide_eq_true in Hcol. by rewrite Hcol.
  - unfold one_more. case_decide; lia.
Qed.

(** Nothing a pod's admission rests on changed between the caches. *)
Definition nothing_moved (c c' : caches) (p : Pod) : Prop :=
  namespaceAnnotations c (Namespace (p_meta p)) = namespaceAnnotations c' (Namespace (p_meta p)) /\
  workloadAnnotations c p = workloadAnnotations c' p.


Definition demo_listers (a : annotations) : listers :=
  mkListers (Some [("shop"%string, a)]) (Some [demo_pod "web-0" "u1" ∅ 5; demo_pod "db-0" "u2" opted_out 0]) (Some []).


(** The listing runs ahead of the agent.  A namespace that opts out is listed as
    refused with its pods at once, while the agent goes on collecting each of them
    until the next event about it. *)
Lemma listing_runs_ahead_of_the_agent :
  let c := mkCaches (fun _ => Some opted_out) (replicaSets demo_caches) (deployments demo_caches) (jobs demo_caches) (cronJobs demo_caches)
             (statefulSets demo_caches) (daemonSets demo_caches) (pods demo_caches) (podList demo_caches) in
  let w := (run demo_filter demo_events).1 in
  (fun d => (dc_Kind d, dc_Name d, dc_Collected d)) <$> Decisions (demo_listers opted_out) c w =
    [("Namespace", "shop", false); ("Pod", "db-0", false); ("Pod", "web-0", false)]%string /\
  Model.piName <$> Pods w = ["web-0"%string].
Proof. split; vm_compute; reflexivity. Qed.

(** ** The endpoint answers the whole listing or none of it *)

Lemma decisions_endpoint encode list_ synced m :
  Forall (fun d => (encode d).2 = true) list_ ->
  let r := decisions_handler encode list_ synced m in
  (Status r = StatusOK <-> read_method m = true /\ synced = true) /\
  (Status r = StatusOK -> m = "GET"%string -> ResponseBody r = foldr (fun d s => (encode d).1 +:+ s) ""%string list_) /\
  (Status r <> StatusOK -> forall list', decisions_handler encode list' synced m = r).
Proof.
  intros He r. unfold r, decisions_handler, read_only. destruct (read_method m) eqn:Hm; cbn.
  2: { split_and!; [by split; [|intros []]|done|done]. }
  destruct synced; cbn; [|by split_and!; [split; [|intros []]|..]].
  split_and!; [by case_bool_decide| |by case_bool_decide].
  intros _ ->. rewrite (bool_decide_eq_false_2 ("GET"%string = "HEAD"%string)) by done. cbn. clear r Hm. induction He as [|d l Hd _ IH]; [done|]. cbn. destruct (encode d) as [out ok]. cbn in *. subst ok. by rewrite IH.
Qed.
