(* ===== verification/Controller.v ===== *)
(** The controller's flush pass, its shutdown and its startup: [cmd/agent]'s
    [flush.go], [recover.go], [states.go] and the flush closures of [main.go].

    The closures share the spool and the seven journals; here they are functions
    on one [agent] state.  A [pass] is what the outside gives one pass over the
    writers: the clock at each closure's reading, the agent's own states and
    counters, and the bytes of the snapshot payloads. *)

From stdpp Require Import prelude gmap strings sorting.
From Stdlib Require Import ZArith Lia.
From S2P Require Import Prelude GoTime GoStrings Journal Registry Cadence FileNames Spool Recover OnDisk.
From S2P Require Pull.
From S2P Require Model UsageRecord Accumulator Usage Restarts Disruptions NodeEvents JobRuns Goroutines States Counters.
Local Open Scope Z_scope.

(** ** Passes over the writers *)

Section passes.
Context {St : Type}.

Record flusher := mkFlusher { run : St -> St; onShutdown : bool }.

Definition runFlushers (flushers : list flusher) (shutdown : bool) (st : St) : St :=
  foldl (fun st f => if shutdown && negb (onShutdown f) then st else run f st) st flushers.

(** [ship] is the shipper's final round, [None] without a backend. *)
Definition runShutdown (flushers : list flusher) (ship : option (St -> St)) (st : St) : St :=
  let st := runFlushers flushers true st in
  match ship with
  | None => st
  | Some FinalRound => FinalRound st
  end.
End passes.
Arguments flusher : clear implicits.

(** ** State *)

Record journals := mkJournals {
  restarts : Restarts.Restarts;
  disruptions : Disruptions.Disruptions;
  nodes : NodeEvents.NodeEvents;
  states : States.States;
  counters : Counters.Counters;
  jobs : JobRuns.JobRuns;
  goroutines : Goroutines.Goroutines;
}.

(** [spool] is [None] when none is configured. *)
Record agent := mkAgent { spool : option Spool; accumulators : journals }.

Definition set_restarts (x : Restarts.Restarts) (j : journals) : journals :=
  mkJournals x (disruptions j) (nodes j) (states j) (counters j) (jobs j) (goroutines j).
Definition set_disruptions (x : Disruptions.Disruptions) (j : journals) : journals :=
  mkJournals (restarts j) x (nodes j) (states j) (counters j) (jobs j) (goroutines j).
Definition set_nodes (x : NodeEvents.NodeEvents) (j : journals) : journals :=
  mkJournals (restarts j) (disruptions j) x (states j) (counters j) (jobs j) (goroutines j).
Definition set_states (x : States.States) (j : journals) : journals :=
  mkJournals (restarts j) (disruptions j) (nodes j) x (counters j) (jobs j) (goroutines j).
Definition set_counters (x : Counters.Counters) (j : journals) : journals :=
  mkJournals (restarts j) (disruptions j) (nodes j) (states j) x (jobs j) (goroutines j).
Definition set_jobs (x : JobRuns.JobRuns) (j : journals) : journals :=
  mkJournals (restarts j) (disruptions j) (nodes j) (states j) (counters j) x (goroutines j).
Definition set_goroutines (x : Goroutines.Goroutines) (j : journals) : journals :=
  mkJournals (restarts j) (disruptions j) (nodes j) (states j) (counters j) (jobs j) x.

(** ** What the agent says of itself ([states.go]) *)

Record SourceHealth := mkSourceHealth { sh_name : string; FailingSince : option Time }.

(** [shipping] is [None] without a backend, otherwise its [HaltedSince]. *)
Definition agentStates (sources : list SourceHealth) (shipping : option (option Time)) : list States.AgentState :=
  ((fun src => States.mkAgentState States.StateFailing (sh_name src) (FailingSince src)) <$> sources)
  ++ match shipping with
     | Some haltedSince => [States.mkAgentState States.StateHalted States.SubjectShip haltedSince]
     | None => []
     end.

(** A [uint64] narrowed, saturating. *)
Definition asCount (n : Z) : Z := if maxInt64 <? n then maxInt64 else n.

Record IntakeRejections := mkIntakeRejections { Unauthorized : Z; TooLarge_ : Z; Malformed : Z }.

Definition agentCounters (filter_ : Model.Coverage) (obs : Usage.Observation) (pull : option Pull.PullCoverage)
    (intake : option IntakeRejections) : gmap string Z :=
  let out : gmap string Z := list_to_map [
    ("filter.pods_observed", Model.PodsObserved filter_);
    ("filter.excluded_namespace_filter", Model.ExcludedNamespaceFilter filter_);
    ("filter.excluded_namespace_annotation", Model.ExcludedNamespaceAnnotation filter_);
    ("filter.excluded_workload_annotation", Model.ExcludedWorkloadAnnotation filter_);
    ("filter.excluded_pod_annotation", Model.ExcludedPodAnnotation filter_);
    ("filter.excluded_profiling_annotation", Model.ExcludedProfilingAnnotation filter_);
    ("filter.workload_unknown_kind", Model.WorkloadUnknownKind filter_);
    ("filter.workload_not_cached", Model.WorkloadNotCached filter_);
    ("filter.jobs_observed", Model.JobsObserved filter_);
    ("filter.jobs_excluded_namespace_filter", Model.JobsExcludedNamespaceFilter filter_);
    ("filter.jobs_excluded_namespace_annotation", Model.JobsExcludedNamespaceAnnotation filter_);
    ("filter.jobs_excluded_workload_annotation", Model.JobsExcludedWorkloadAnnotation filter_);
    ("filter.jobs_excluded_annotation", Model.JobsExcludedAnnotation filter_);
    ("observation.polls_attempted", Usage.PollsAttempted obs);
    ("observation.polls_failed", Usage.PollsFailed obs)]%string in
  let out := match pull with
             | Some c => <["pprof_pull.shipped"%string := Pull.Shipped c]>
                           (<["pprof_pull.refused"%string := Pull.Refused c]>
                             (<["pprof_pull.unreachable"%string := Pull.Unreachable c]>
                               (<["pprof_pull.invalid"%string := Pull.Invalid c]> out)))
             | None => out
             end in
  match intake with
  | Some c => <["intake_rejections.unauthorized"%string := asCount (Unauthorized c)]>
                (<["intake_rejections.too_large"%string := asCount (TooLarge_ c)]>
                  (<["intake_rejections.malformed"%string := asCount (Malformed c)]> out))
  | None => out
  end.

(** ** The flush closures *)

Record encoders := mkEncoders {
  enc_restarts : windowKey -> list Restarts.RestartRecord -> option string;
  enc_disruptions : windowKey -> list Disruptions.DisruptionRecord -> option string;
  enc_nodes : windowKey -> list NodeEvents.NodeEventRecord -> option string;
  enc_jobs : windowKey -> list JobRuns.JobRunRecord -> option string;
  enc_goroutines : windowKey -> list Goroutines.GoroutineRecord -> option string;
  enc_states : windowKey -> list States.StateRecord -> option string;
  enc_counters : windowKey -> list Counters.CounterRecord -> option string;
}.

Record pass := mkPass {
  now_coverage : Time; now_restarts : Time; now_disruptions : Time;
  now_jobs : Time; now_nodes : Time; now_goroutines : Time;
  startedAt : Time;
  own_states : list States.AgentState;       (** [agentStates] of this pass *)
  own_counters : gmap string Z;              (** [agentCounters] of this pass *)
  snapshot_bytes : string -> option string;  (** by payload kind *)
  has_inventory : bool;                      (** [goStore != nil] *)
  builds : list (string * option string);    (** [PendingBuilds]: digest and bytes *)
  env : string -> io;                        (** clock and faults, by file name *)
}.

Section agent.
Context (sha256 : string -> string) (enc : encoders).

(** [append(j.CloseBefore(now), j.Snapshots()...)], written unless empty; an
    error is logged and nothing more. *)
Definition flush_journal {R J : Type} (close : J -> list R * J) (Snapshots : J -> list R)
    (Write : Spool -> list R -> Spool * option write_error) (s : Spool) (j : J) : Spool * J :=
  let '(closed, j) := close j in
  match closed ++ Snapshots j with
  | [] => (s, j)
  | records => ((Write s records).1, j)
  end.

Definition flushRestarts (p : pass) (a : agent) : agent :=
  match spool a with
  | None => a
  | Some s =>
      let '(s, j) := flush_journal (fun j => Restarts.CloseBefore j (now_restarts p)) Restarts.Snapshots
                       (fun s => WriteContainerRestarts sha256 s (enc_restarts enc) (env p)) s
                       (restarts (accumulators a)) in
      mkAgent (Some s) (set_restarts j (accumulators a))
  end.

Definition flushDisruptions (p : pass) (a : agent) : agent :=
  match spool a with
  | None => a
  | Some s =>
      let '(s, j) := flush_journal (fun j => Disruptions.CloseBefore j (now_disruptions p)) Disruptions.Snapshots
                       (fun s => WritePodDisruptions sha256 s (enc_disruptions enc) (env p)) s
                       (disruptions (accumulators a)) in
      mkAgent (Some s) (set_disruptions j (accumulators a))
  end.

Definition flushNodeLifecycle (p : pass) (a : agent) : agent :=
  match spool a with
  | None => a
  | Some s =>
      let '(s, j) := flush_journal (fun j => NodeEvents.CloseBefore j (now_nodes p)) NodeEvents.Snapshots
                       (fun s => WriteNodeLifecycle sha256 s (enc_nodes enc) (env p)) s
                       (nodes (accumulators a)) in
      mkAgent (Some s) (set_nodes j (accumulators a))
  end.

Definition flushJobRuns (p : pass) (a : agent) : agent :=
  match spool a with
  | None => a
  | Some s =>
      let '(s, j) := flush_journal (fun j => JobRuns.CloseBefore j (now_jobs p)) JobRuns.Snapshots
                       (fun s => WriteJobRuns sha256 s (enc_jobs enc) (env p)) s
                       (jobs (accumulators a)) in
      mkAgent (Some s) (set_jobs j (accumulators a))
  end.

Definition flushGoroutineCounts (p : pass) (a : agent) : agent :=
  match spool a with
  | None => a
  | Some s =>
      let '(s, j) := flush_journal (fun j => Goroutines.CloseBefore j (now_goroutines p)) Goroutines.Snapshots
                       (fun s => WriteGoroutineCounts sha256 s (enc_goroutines enc) (env p)) s
                       (goroutines (accumulators a)) in
      mkAgent (Some s) (set_goroutines j (accumulators a))
  end.

(** Payloads under fixed names, each error logged and passed over. *)
Definition write_files (p : pass) (files : list (string * string * option string)) (s : Spool) : Spool :=
  foldl (fun s f => (write sha256 s f.1.1 f.1.2 f.2 (env p f.1.2)).1) s files.

Definition snapshot_file (p : pass) (f : string * string) : string * string * option string :=
  (f, snapshot_bytes p f.1).

Definition coverage_file : list (string * string) := [("collection_coverage", "collection-coverage.json")]%string.

Definition metadata_files : list (string * string) :=
  [("workload_metadata", "workload-metadata.json"); ("node_metadata", "node-metadata.json");
   ("workload_revisions", "workload-revisions.json"); ("workload_policy", "workload-policy.json");
   ("cluster_policy", "cluster-policy.json"); ("restart_counters", "restart-counters.json")]%string.

Definition inventory_files : list (string * string) :=
  [("go_inventory", "go-inventory.json"); ("process_peaks", "process-peaks.json");
   ("process_counters", "process-counters.json"); ("listening_ports", "listening-ports.json")]%string.

Definition build_file (b : string * option string) : string * string * option string :=
  (("go_build", go_build_name b.1), b.2)%string.

Definition flushMetadata (p : pass) (a : agent) : agent :=
  mkAgent (write_files p (snapshot_file p <$> metadata_files) <$> spool a) (accumulators a).

(** The publishing half; a build without a digest is refused before any write. *)
Definition flushInventory (p : pass) (a : agent) : agent :=
  if negb (has_inventory p) then a
  else mkAgent (write_files p ((snapshot_file p <$> inventory_files)
                               ++ (build_file <$> filter (fun b => b.1 <> ""%string) (builds p))) <$> spool a)
         (accumulators a).

(** The coverage report, then the two journals fed from what it carried. *)
Definition logCoverage (p : pass) (a : agent) : agent :=
  match spool a with
  | None => a
  | Some s =>
      let s := write_files p (snapshot_file p <$> coverage_file) s in
      let st := States.Observe (states (accumulators a)) (now_coverage p) (own_states p) in
      let '(s, st) := flush_journal (fun j => States.CloseBefore j (now_coverage p)) States.Snapshots
                        (fun s => WriteAgentStates sha256 s (enc_states enc) (env p)) s st in
      let c := Counters.Observe (counters (accumulators a)) (now_coverage p) (startedAt p) (own_counters p) in
      let '(s, c) := flush_journal (fun j => Counters.CloseBefore j (now_coverage p)) Counters.Snapshots
                       (fun s => WriteAgentCounters sha256 s (enc_counters enc) (env p)) s c in
      mkAgent (Some s) (set_counters c (set_states st (accumulators a)))
  end.

Definition flushers (p : pass) : list (flusher agent) :=
  [mkFlusher (logCoverage p) true; mkFlusher (flushMetadata p) false; mkFlusher (flushInventory p) true;
   mkFlusher (flushRestarts p) true; mkFlusher (flushDisruptions p) true; mkFlusher (flushJobRuns p) true;
   mkFlusher (flushNodeLifecycle p) true; mkFlusher (flushGoroutineCounts p) true].
End agent.

(** ** Startup *)

Definition resume_journals (rec : Recovery) (j : journals) : journals * Z :=
  let '(r, n1) := Restarts.Resume (restarts j) (rRestarts rec) in
  let '(d, n2) := Disruptions.Resume (disruptions j) (rDisruptions rec) in
  let '(ne, n3) := NodeEvents.Resume (nodes j) (rNodeEvents rec) in
  let '(jr, n4) := JobRuns.Resume (jobs j) (rJobRuns rec) in
  let '(g, n5) := Goroutines.Resume (goroutines j) (rGoroutineCounts rec) in
  let '(st, n6) := States.Resume (states j) (rAgentStates rec) in
  let '(c, n7) := Counters.Resume (counters j) (rAgentCounters rec) in
  (mkJournals r d ne st c jr g, n1 + n2 + n3 + n4 + n5 + n6 + n7).

(** [listed] is [false] when the directory could not be read. *)
Definition seedOpenWindows (dec : decoders) (listed : bool) (s : Spool) (poller : Usage.UsagePoller)
    (j : journals) (now : Time) : Spool * Usage.UsagePoller * journals * Z :=
  if negb listed then (s, poller, j, 0)
  else
    let '(recovery, s) := RecoverOpenWindows dec s now in
    let poller := (Usage.Seed poller (Records recovery)).1 in
    let '(j, seeded) := resume_journals recovery j in
    (s, poller, j, seeded).

(** ** One journal through a flush and a startup *)

(** A window length the file names can carry. *)
Definition good_length (len : Duration) : Prop := 0 < len <= maxInt64 /\ len mod Second = 0.

Section one_journal.
Context {R K O : Type} `{JournalLaws R K O} `{Countable K}.
Context (windowOf : R -> windowKey) (prefix kind : string).
Context (encode : windowKey -> list R -> option string) (decode : string -> option (journalWindow R)).
Implicit Types (m : gmap K R).

(** Filed under their own keys, in windows of this length with printable names. *)
Definition placed (len : Duration) m : Prop :=
  filed m /\ forall k r, m !! k = Some r ->
    windowOf r = mkWindowKey (record_start r) (Z.quot len Second) /\ printable (windowOf r).

Definition flush_records (len now : Z) m : list R :=
  (close_before len now m).1 ++ snapshots (close_before len now m).2.

(** What the next process's journal holds: the records still open, each as a
    copy that went through the file. *)
Definition resumed (len now : Z) m : gmap K R :=
  (record_adopt ∘ record_clone) <$> filter (fun kr => still_open len now kr.2 = true) m.

Definition clone_keeps_window : Prop := forall r, windowOf (record_clone r) = windowOf r.

Lemma end_of_window len st : good_length len -> end_ (mkWindowKey st (Z.quot len Second)) = st + len.
Proof.
  intros [Hl Hm]. unfold end_, Add. cbn [start seconds].
  assert (Z.quot len Second * Second = len) as ->.
  { rewrite Z.quot_div_nonneg by (unfold Second; lia). pose proof (Z.div_mod len Second). unfold Second in *. lia. }
  rewrite wrap64_id by go_lia. done.
Qed.

Lemma elem_of_flush len now m r :
  r ∈ flush_records len now m <-> exists k r0, m !! k = Some r0 /\ r = record_clone r0.
Proof. unfold flush_records. rewrite close_before_perm. apply elem_of_snapshots. Qed.

Lemma flush_windows len now m r :
  clone_keeps_window -> placed len m -> r ∈ flush_records len now m -> printable (windowOf r).
Proof. intros Hc [_ Hp] (k & r0 & Hk & ->)%elem_of_flush. rewrite Hc. by apply (Hp k). Qed.

(** The startup read hands a fresh journal exactly the open ones. *)
Lemma resume_from_disk len now now2 m d rs :
  clone_keeps_window -> good_length len -> placed len m ->
  holds windowOf prefix encode d (flush_records len now m) ->
  no_stale windowOf prefix now2 d (flush_records len now m) ->
  codec windowOf kind encode decode (flush_records len now m) ->
  (forall r, r ∈ rs <-> exists e, e ∈ entries d /\ r ∈ read_of windowOf prefix kind decode d now2 e) ->
  (resume ∅ rs).1 = resumed len now2 m.
Proof.
  intros Hcl Hlen Hpl Hh Hst Hco Hrs. unfold resumed. rewrite map_fmap_compose.
  apply resume_members.
  - intros k r Hr. rewrite lookup_fmap in Hr.
    destruct (filter _ m !! k) as [r0|] eqn:E; [|done]. cbn in Hr. injection Hr as <-.
    rewrite key_clone. by apply (filed_filter (fun kr => still_open len now2 kr.2 = true) m (proj1 Hpl)).
  - intros r. rewrite Hrs, (read_back windowOf prefix kind encode decode d now2 _ Hh Hst Hco)
      by (intros ?; by apply flush_windows).
    rewrite elem_of_flush. setoid_rewrite lookup_fmap. setoid_rewrite fmap_Some.
    setoid_rewrite map_lookup_filter_Some. cbn [snd]. unfold still_open, After, Add.
    split.
    + intros [(k & r0 & Hk & ->) Ho]. exists k, r0. split; [|done]. split; [done|].
      destruct (proj2 Hpl k r0 Hk) as [Hw _]. rewrite Hcl, Hw, end_of_window in Ho by done. by apply Z.ltb_lt.
    + intros (k & r0 & [Hk Ho] & ->). split; [by exists k, r0|].
      destruct (proj2 Hpl k r0 Hk) as [Hw _]. rewrite Hcl, Hw, end_of_window by done. by apply Z.ltb_lt.
Qed.

(** A faultless flush leaves every open window in its file. *)
Lemma flush_lands {J : Type} sha256 (close : J -> list R * J) (Snapshots_ : J -> list R) s env (j : J)
    entry len now m :
  (close j).1 ++ Snapshots_ (close j).2 = flush_records len now m ->
  Lookup kind = Some entry -> Trigger_ (Cadence_ entry) <> TriggerChanged ->
  (forall n, io_fault (env n) = NoFault) -> all_chars safe_char prefix = true ->
  clone_keeps_window -> placed len m -> codec windowOf kind encode decode (flush_records len now m) ->
  let s' := (flush_journal close Snapshots_
    (fun s => write_windows windowOf sha256 s kind (journalWindowName prefix) encode env) s j).1 in
  (forall n, HasPrefix n prefix = false -> dir s' !! n = dir s !! n) /\
  (forall now2, no_stale windowOf prefix now2 (dir s) (flush_records len now m) ->
     holds windowOf prefix encode (dir s') (flush_records len now m) /\
     no_stale windowOf prefix now2 (dir s') (flush_records len now m)).
Proof.
  intros Hrs HL Ht Hf Hs Hcl Hpl Hco. unfold flush_journal. destruct (close j) as [out j']. cbn [fst snd] in Hrs.
  rewrite Hrs. destruct (flush_records len now m) as [|r l] eqn:E; cbn [fst].
  - split; [done|]. intros now2 Hst. by split.
  - destruct (write_windows_lands windowOf prefix kind encode decode sha256 s env (r :: l) entry HL Ht Hf Hs)
      as (s' & -> & Hh & Hst & Hout); [|done|].
    + intros x Hx. rewrite <-E in Hx. by eapply flush_windows.
    + cbn [fst]. split; [done|]. intros now2 Hn2. split; [done|by apply Hst].
Qed.
End one_journal.

(** ** Which journal a file belongs to *)

Lemma other_prefix p q n :
  HasPrefix p q = false -> HasPrefix q p = false -> HasPrefix n p = true -> HasPrefix n q = false.
Proof.
  intros H1 H2 Hp. destruct (HasPrefix n q) eqn:E; [|done].
  destruct (HasPrefix_compare n p q Hp E); congruence.
Qed.

Lemma fold_gathers {R} (get : Recovery -> list R) (reads : string * node -> list R) step es rec :
  (forall rec e, get (step rec e) = get rec ++ reads e) ->
  get (foldl step rec es) = get rec ++ mjoin (reads <$> es).
Proof.
  intros Hs. revert rec. induction es as [|e es IH]; intros rec; [by rewrite app_nil_r|].
  cbn [foldl]. by rewrite IH, Hs, <-app_assoc.
Qed.

Lemma gathered {R} (get : Recovery -> list R) (reads : fs -> Time -> string * node -> list R) dec s now :
  get no_recovery = [] ->
  (forall rec e, get (recover_usage dec (dir s) now rec e) = get rec) ->
  (forall rec e, get (recover_entry dec (dir s) now rec e) = get rec ++ reads (dir s) now e) ->
  forall r, r ∈ get (RecoverOpenWindows dec s now).1 <-> exists e, e ∈ entries (dir s) /\ r ∈ reads (dir s) now e.
Proof.
  intros H0 Hu Hj r. unfold RecoverOpenWindows, recoverJournals. cbn [fst].
  rewrite (fold_gathers get (reads (dir s) now)) by done.
  rewrite (fold_gathers get (fun _ => [])) by (intros; by rewrite app_nil_r).
  assert (forall es : list (string * node), mjoin ((fun _ => [] : list R) <$> es) = []) as ->.
  { intros es. by induction es as [|e es IH]. }
  rewrite H0, app_nil_r, app_nil_l, list_elem_of_join. setoid_rewrite list_elem_of_fmap. split.
  - intros (l & Hr & e & -> & He). by exists e.
  - intros (e & He & Hr). eexists. split; [exact Hr|]. by exists e.
Qed.

Lemma took_other {R A} (get : Recovery -> A) nm (out : option (result recover_error (list R))) add rec :
  (forall rs rec, get (add rs rec) = get rec) -> (forall nm e rec, get (addSkipped nm e rec) = get rec) ->
  (forall rec, get (incJournalWindows rec) = get rec) ->
  get (took nm out add rec) = get rec.
Proof. intros Ha Hs Hi. destruct out as [[rs|e]|]; cbn; by rewrite ?Hi, ?Ha, ?Hs. Qed.

(** The entries of one journal: its own prefix is the one that matches. *)
Definition reads_of {R} (windowOf : R -> windowKey) (prefix kind : string) (decode : string -> option (journalWindow R))
    (d : fs) (now : Time) (e : string * node) : list R := read_of windowOf prefix kind decode d now e.

#[local] Ltac own_entries :=
  unfold reads_of; intros rec [nm [|data m]]; unfold recover_entry, read_of; cbn [fst snd]; [by rewrite app_nil_r|];
  unfold restart_window, disruption_window, node_window, job_window, goroutine_window, state_window, counter_window;
  destruct (HasSuffix nm ".json"); cbn [negb]; [|by rewrite app_nil_r];
  repeat match goal with
  | |- _ (if HasPrefix nm ?p then took _ _ _ _ else _) = _ =>
      destruct (HasPrefix nm p) eqn:?;
        [first
           [ rewrite took_other by done;
             match goal with |- context [if HasPrefix nm ?q then _ else _] =>
               rewrite (other_prefix p q nm) by (reflexivity || assumption) end;
             by rewrite app_nil_r
           | match goal with |- context [resumeInto ?a ?b ?c ?e ?f ?i ?w] =>
               destruct (resumeInto a b c e f i w) as [[?|?]|]; cbn; by rewrite ?app_nil_r end ]
        |]
  end; by rewrite app_nil_r.

#[local] Ltac from_spool :=
  [> done|intros rec e; unfold recover_usage; destruct (e.2); [done|]; repeat case_match; done|own_entries].

Section recovered.
Context (dec : decoders) (s : Spool) (now : Time).
Abbreviation found get windowOf prefix kind decode :=
  (forall r, r ∈ get (RecoverOpenWindows dec s now).1 <->
     exists e, e ∈ entries (dir s) /\ r ∈ read_of windowOf prefix kind decode (dir s) now e).

Lemma recovered_restarts :
  found rRestarts restart_window restartsNamePrefix kindContainerRestarts (dec_restarts dec).
Proof. apply (gathered rRestarts (reads_of restart_window _ _ (dec_restarts dec))); from_spool. Qed.
Lemma recovered_disruptions :
  found rDisruptions disruption_window disruptionsNamePrefix kindPodDisruptions (dec_disruptions dec).
Proof. apply (gathered rDisruptions (reads_of disruption_window _ _ (dec_disruptions dec))); from_spool. Qed.
Lemma recovered_nodes :
  found rNodeEvents node_window nodeLifecycleNamePrefix kindNodeLifecycle (dec_nodes dec).
Proof. apply (gathered rNodeEvents (reads_of node_window _ _ (dec_nodes dec))); from_spool. Qed.
Lemma recovered_jobs :
  found rJobRuns job_window jobRunsNamePrefix kindJobRuns (dec_jobs dec).
Proof. apply (gathered rJobRuns (reads_of job_window _ _ (dec_jobs dec))); from_spool. Qed.
Lemma recovered_goroutines :
  found rGoroutineCounts goroutine_window goroutineCountsNamePrefix kindGoroutineCounts (dec_goroutines dec).
Proof. apply (gathered rGoroutineCounts (reads_of goroutine_window _ _ (dec_goroutines dec))); from_spool. Qed.
Lemma recovered_states :
  found rAgentStates state_window agentStatesNamePrefix kindAgentStates (dec_states dec).
Proof. apply (gathered rAgentStates (reads_of state_window _ _ (dec_states dec))); from_spool. Qed.
Lemma recovered_counters :
  found rAgentCounters counter_window agentCountersNamePrefix kindAgentCounters (dec_counters dec).
Proof. apply (gathered rAgentCounters (reads_of counter_window _ _ (dec_counters dec))); from_spool. Qed.
End recovered.

#[local] Existing Instances Restarts.Key_eq_dec Restarts.Key_countable
  Restarts.restart_record Restarts.restart_laws Disruptions.disruption_record Disruptions.disruption_laws
  NodeEvents.node_event_record NodeEvents.node_event_laws JobRuns.job_run_record JobRuns.job_run_laws
  Goroutines.goroutine_record Goroutines.goroutine_laws States.state_record States.state_laws
  Counters.counter_record Counters.counter_laws.

(** ** A whole pass *)

Inductive journal_kind := JStates | JCounters | JRestarts | JDisruptions | JJobs | JNodes | JGoroutines.
#[export] Instance journal_kind_eq_dec : EqDecision journal_kind.
Proof. solve_decision. Defined.

Definition journal_prefix (i : journal_kind) : string :=
  match i with
  | JStates => agentStatesNamePrefix
  | JCounters => agentCountersNamePrefix
  | JRestarts => restartsNamePrefix
  | JDisruptions => disruptionsNamePrefix
  | JJobs => jobRunsNamePrefix
  | JNodes => nodeLifecycleNamePrefix
  | JGoroutines => goroutineCountsNamePrefix
  end.

Lemma journal_prefixes_apart i i' n :
  i <> i' -> HasPrefix n (journal_prefix i) = true -> HasPrefix n (journal_prefix i') = false.
Proof. intros Hne. destruct i, i'; try done; by apply other_prefix. Qed.

(** Names no journal uses, temp file included. *)
Definition foreign_name (nm : string) : Prop :=
  forall i, HasPrefix nm (journal_prefix i) = false /\ HasPrefix (tmp_name nm) (journal_prefix i) = false.

Lemma foreign_lead lead rest :
  (forall i, HasPrefix lead (journal_prefix i) = false /\ HasPrefix (journal_prefix i) lead = false) ->
  foreign_name (lead +:+ rest).
Proof.
  intros Hl i. destruct (Hl i) as [H1 H2]. unfold tmp_name. rewrite <-string_app_assoc.
  split; apply (other_prefix lead); try done; apply HasPrefix_app.
Qed.

Lemma foreign_literal nm :
  (forall i, HasPrefix nm (journal_prefix i) = false /\ HasPrefix (journal_prefix i) nm = false) -> foreign_name nm.
Proof. intros H. rewrite <-(string_app_nil_r nm). by apply foreign_lead. Qed.

Definition spares_journals (d d' : fs) : Prop := forall i, same_files (journal_prefix i) d d'.

Lemma write_touches sha256 s kind nm payload e n :
  n <> nm -> n <> tmp_name nm -> dir (write sha256 s kind nm payload e).1 !! n = dir s !! n.
Proof.
  intros H1 H2. unfold write. destruct (Lookup kind); [|done]. destruct (encodePayload nm payload); [|done].
  destruct (due _ _ _ _ _ _) as [f []]; cbn [negb]; [|done].
  destruct (io_fault e) as [|[part|]|]; cbn; rewrite ?lookup_insert_ne, ?lookup_delete_ne by done; done.
Qed.

Lemma write_files_spares sha256 p files s :
  Forall (fun f => foreign_name f.1.2) files -> spares_journals (dir s) (dir (write_files sha256 p files s)).
Proof.
  intros Hf i n Hn. revert s. induction Hf as [|f files Hf _ IH]; intros s; [done|]. cbn.
  change (foldl _ ?s files) with (write_files sha256 p files s). rewrite IH. apply write_touches.
  - intros ->. destruct (Hf i). congruence.
  - intros ->. destruct (Hf i). congruence.
Qed.

Section whole_pass.
Context (sha256 : string -> string) (enc : encoders) (dec : decoders) (p : pass) (j : journals) (now2 : Time).

(** The two journals the coverage report feeds, as its flush finds them. *)
Definition observed_states : States.States := States.Observe (states j) (now_coverage p) (own_states p).
Definition observed_counters : Counters.Counters :=
  Counters.Observe (counters j) (now_coverage p) (startedAt p) (own_counters p).

(** What one journal needs: well placed records and a codec for what is written. *)
Definition sound_journal {R K O} `{JournalRecord R K O} `{Countable K} (windowOf : R -> windowKey)
    (kind : string) encode decode (len at_ : Z) (m : gmap K R) : Prop :=
  good_length len /\ placed windowOf len m /\ codec windowOf kind encode decode (flush_records len at_ m).

Definition sound (i : journal_kind) : Prop :=
  match i with
  | JStates => sound_journal state_window kindAgentStates (enc_states enc) (dec_states dec)
      (States.windowLength observed_states) (now_coverage p) (States.open observed_states)
  | JCounters => sound_journal counter_window kindAgentCounters (enc_counters enc) (dec_counters dec)
      (Counters.windowLength observed_counters) (now_coverage p) (Counters.open observed_counters)
  | JRestarts => sound_journal restart_window kindContainerRestarts (enc_restarts enc) (dec_restarts dec)
      (Restarts.windowLength (restarts j)) (now_restarts p) (Restarts.open (restarts j))
  | JDisruptions => sound_journal disruption_window kindPodDisruptions (enc_disruptions enc) (dec_disruptions dec)
      (Disruptions.windowLength (disruptions j)) (now_disruptions p) (Disruptions.open (disruptions j))
  | JJobs => sound_journal job_window kindJobRuns (enc_jobs enc) (dec_jobs dec)
      (JobRuns.windowLength (jobs j)) (now_jobs p) (JobRuns.open (jobs j))
  | JNodes => sound_journal node_window kindNodeLifecycle (enc_nodes enc) (dec_nodes dec)
      (NodeEvents.windowLength (nodes j)) (now_nodes p) (NodeEvents.open (nodes j))
  | JGoroutines => sound_journal goroutine_window kindGoroutineCounts (enc_goroutines enc) (dec_goroutines dec)
      (Goroutines.windowLength (goroutines j)) (now_goroutines p) (Goroutines.open (goroutines j))
  end.

(** What a journal's flush writes, and how. *)
Record disk_view := mkView {
  v_record : Type;
  v_windowOf : v_record -> windowKey;
  v_encode : windowKey -> list v_record -> option string;
  v_records : list v_record;
}.

Definition view (i : journal_kind) : disk_view :=
  match i with
  | JStates => mkView _ state_window (enc_states enc)
      (flush_records (States.windowLength observed_states) (now_coverage p) (States.open observed_states))
  | JCounters => mkView _ counter_window (enc_counters enc)
      (flush_records (Counters.windowLength observed_counters) (now_coverage p) (Counters.open observed_counters))
  | JRestarts => mkView _ restart_window (enc_restarts enc)
      (flush_records (Restarts.windowLength (restarts j)) (now_restarts p) (Restarts.open (restarts j)))
  | JDisruptions => mkView _ disruption_window (enc_disruptions enc)
      (flush_records (Disruptions.windowLength (disruptions j)) (now_disruptions p) (Disruptions.open (disruptions j)))
  | JJobs => mkView _ job_window (enc_jobs enc)
      (flush_records (JobRuns.windowLength (jobs j)) (now_jobs p) (JobRuns.open (jobs j)))
  | JNodes => mkView _ node_window (enc_nodes enc)
      (flush_records (NodeEvents.windowLength (nodes j)) (now_nodes p) (NodeEvents.open (nodes j)))
  | JGoroutines => mkView _ goroutine_window (enc_goroutines enc)
      (flush_records (Goroutines.windowLength (goroutines j)) (now_goroutines p) (Goroutines.open (goroutines j)))
  end.

(** No other file of the journal names a window still open at [now2]. *)
Definition pending (i : journal_kind) (d : fs) : Prop :=
  no_stale (v_windowOf (view i)) (journal_prefix i) now2 d (v_records (view i)).

Definition on_disk (i : journal_kind) (d : fs) : Prop :=
  holds (v_windowOf (view i)) (journal_prefix i) (v_encode (view i)) d (v_records (view i)).

(** After the journals of [done] were flushed. *)
Definition flushed (done_ : list journal_kind) (d : fs) : Prop :=
  forall i, pending i d /\ (i ∈ done_ -> on_disk i d).

Definition lands (i : journal_kind) (d d' : fs) : Prop :=
  (forall n, HasPrefix n (journal_prefix i) = false -> d' !! n = d !! n) /\
  (pending i d -> on_disk i d' /\ pending i d').

Lemma same_pending i d d' : same_files (journal_prefix i) d d' -> pending i d -> pending i d'.
Proof. apply no_stale_same. Qed.

Lemma same_on_disk i d d' : same_files (journal_prefix i) d d' -> on_disk i d -> on_disk i d'.
Proof. apply holds_same. Qed.

Lemma flushed_spares done_ d d' : spares_journals d d' -> flushed done_ d -> flushed done_ d'.
Proof.
  intros Hs Hf i. destruct (Hf i) as [Hp Hd]. split; [by eapply same_pending|].
  intros Hi. eapply same_on_disk; [apply Hs|auto].
Qed.

Lemma flushed_lands done_ i d d' : lands i d d' -> flushed done_ d -> flushed (i :: done_) d'.
Proof.
  intros [Hout Hland] Hf i'. destruct (decide (i' = i)) as [->|Hne].
  - destruct (Hland (proj1 (Hf i))). done.
  - assert (same_files (journal_prefix i') d d') as Hs.
    { intros n Hn. apply Hout. by apply (journal_prefixes_apart i'). }
    destruct (Hf i') as [Hp Hd]. split; [by eapply same_pending|].
    intros Hi. apply elem_of_cons in Hi as [|Hi]; [done|]. eapply same_on_disk; [exact Hs|auto].
Qed.
Hypothesis faultless : forall n, io_fault (env p n) = NoFault.

Lemma flushRestarts_lands a s :
  sound JRestarts -> spool a = Some s -> restarts (accumulators a) = restarts j ->
  exists s' x, flushRestarts sha256 enc p a = mkAgent (Some s') (set_restarts x (accumulators a)) /\ lands JRestarts (dir s) (dir s').
Proof.
  intros (Hlen & Hpl & Hco) Hs Hj. unfold flushRestarts. rewrite Hs, Hj.
  pose proof (flush_lands restart_window (journal_prefix JRestarts) kindContainerRestarts _ _ sha256 (fun j => Restarts.CloseBefore j (now_restarts p)) Restarts.Snapshots s (env p)
    (restarts j) _ _ (now_restarts p) _ eq_refl eq_refl ltac:(discriminate) faultless eq_refl (fun _ => eq_refl) Hpl Hco) as [Hout Hland].
  destruct (flush_journal _ _ _ s _) as [s' x] eqn:E. exists s', x. split; [done|].
  split; [|intros Hp]; [apply Hout|by apply Hland].
Qed.

Lemma flushDisruptions_lands a s :
  sound JDisruptions -> spool a = Some s -> disruptions (accumulators a) = disruptions j ->
  exists s' x, flushDisruptions sha256 enc p a = mkAgent (Some s') (set_disruptions x (accumulators a)) /\ lands JDisruptions (dir s) (dir s').
Proof.
  intros (Hlen & Hpl & Hco) Hs Hj. unfold flushDisruptions. rewrite Hs, Hj.
  pose proof (flush_lands disruption_window (journal_prefix JDisruptions) kindPodDisruptions _ _ sha256 (fun j => Disruptions.CloseBefore j (now_disruptions p)) Disruptions.Snapshots s (env p)
    (disruptions j) _ _ (now_disruptions p) _ eq_refl eq_refl ltac:(discriminate) faultless eq_refl (fun _ => eq_refl) Hpl Hco) as [Hout Hland].
  destruct (flush_journal _ _ _ s _) as [s' x] eqn:E. exists s', x. split; [done|].
  split; [|intros Hp]; [apply Hout|by apply Hland].
Qed.

Lemma flushJobRuns_lands a s :
  sound JJobs -> spool a = Some s -> jobs (accumulators a) = jobs j ->
  exists s' x, flushJobRuns sha256 enc p a = mkAgent (Some s') (set_jobs x (accumulators a)) /\ lands JJobs (dir s) (dir s').
Proof.
  intros (Hlen & Hpl & Hco) Hs Hj. unfold flushJobRuns. rewrite Hs, Hj.
  pose proof (flush_lands job_window (journal_prefix JJobs) kindJobRuns _ _ sha256 (fun j => JobRuns.CloseBefore j (now_jobs p)) JobRuns.Snapshots s (env p)
    (jobs j) _ _ (now_jobs p) _ eq_refl eq_refl ltac:(discriminate) faultless eq_refl (fun _ => eq_refl) Hpl Hco) as [Hout Hland].
  destruct (flush_journal _ _ _ s _) as [s' x] eqn:E. exists s', x. split; [done|].
  split; [|intros Hp]; [apply Hout|by apply Hland].
Qed.

Lemma flushNodeLifecycle_lands a s :
  sound JNodes -> spool a = Some s -> nodes (accumulators a) = nodes j ->
  exists s' x, flushNodeLifecycle sha256 enc p a = mkAgent (Some s') (set_nodes x (accumulators a)) /\ lands JNodes (dir s) (dir s').
Proof.
  intros (Hlen & Hpl & Hco) Hs Hj. unfold flushNodeLifecycle. rewrite Hs, Hj.
  pose proof (flush_lands node_window (journal_prefix JNodes) kindNodeLifecycle _ _ sha256 (fun j => NodeEvents.CloseBefore j (now_nodes p)) NodeEvents.Snapshots s (env p)
    (nodes j) _ _ (now_nodes p) _ eq_refl eq_refl ltac:(discriminate) faultless eq_refl (fun _ => eq_refl) Hpl Hco) as [Hout Hland].
  destruct (flush_journal _ _ _ s _) as [s' x] eqn:E. exists s', x. split; [done|].
  split; [|intros Hp]; [apply Hout|by apply Hland].
Qed.

Lemma flushGoroutineCounts_lands a s :
  sound JGoroutines -> spool a = Some s -> goroutines (accumulators a) = goroutines j ->
  exists s' x, flushGoroutineCounts sha256 enc p a = mkAgent (Some s') (set_goroutines x (accumulators a)) /\ lands JGoroutines (dir s) (dir s').
Proof.
  intros (Hlen & Hpl & Hco) Hs Hj. unfold flushGoroutineCounts. rewrite Hs, Hj.
  pose proof (flush_lands goroutine_window (journal_prefix JGoroutines) kindGoroutineCounts _ _ sha256 (fun j => Goroutines.CloseBefore j (now_goroutines p)) Goroutines.Snapshots s (env p)
    (goroutines j) _ _ (now_goroutines p) _ eq_refl eq_refl ltac:(discriminate) faultless eq_refl (fun _ => eq_refl) Hpl Hco) as [Hout Hland].
  destruct (flush_journal _ _ _ s _) as [s' x] eqn:E. exists s', x. split; [done|].
  split; [|intros Hp]; [apply Hout|by apply Hland].
Qed.

Lemma logCoverage_lands a s :
  sound JStates -> sound JCounters -> spool a = Some s -> accumulators a = j ->
  exists s' st c d1 d2, logCoverage sha256 enc p a = mkAgent (Some s') (set_counters c (set_states st j)) /\
    spares_journals (dir s) d1 /\ lands JStates d1 d2 /\ lands JCounters d2 (dir s').
Proof.
  intros (Hlen & Hpl & Hco) (Hlen' & Hpl' & Hco') Hs Hj. unfold logCoverage. rewrite Hs, Hj. cbn zeta.
  assert (spares_journals (dir s) (dir (write_files sha256 p (snapshot_file p <$> coverage_file) s))) as Hsp.
  { apply write_files_spares. repeat constructor; apply foreign_literal; by intros []. }
  set (s1 := write_files sha256 p _ s) in *.
  pose proof (flush_lands state_window (journal_prefix JStates) kindAgentStates _ _ sha256
    (fun j => States.CloseBefore j (now_coverage p)) States.Snapshots s1 (env p)
    observed_states _ _ (now_coverage p) _ eq_refl eq_refl ltac:(discriminate) faultless eq_refl (fun _ => eq_refl) Hpl Hco)
    as [Hout Hland].
  unfold observed_states in Hout, Hland.
  destruct (flush_journal _ _ (fun s => WriteAgentStates _ s _ _) s1 _) as [s2 st] eqn:E.
  pose proof (flush_lands counter_window (journal_prefix JCounters) kindAgentCounters _ _ sha256
    (fun j => Counters.CloseBefore j (now_coverage p)) Counters.Snapshots s2 (env p)
    observed_counters _ _ (now_coverage p) _ eq_refl eq_refl ltac:(discriminate) faultless eq_refl (fun _ => eq_refl) Hpl' Hco')
    as [Hout' Hland'].
  unfold observed_counters in Hout', Hland'.
  destruct (flush_journal _ _ (fun s => WriteAgentCounters _ s _ _) s2 _) as [s3 c] eqn:E'.
  exists s3, st, c, (dir s1), (dir s2). split; [done|]. split; [done|].
  match type of Hout with forall n, _ -> dir ?t !! _ = _ => assert (t = s2) as Ht by exact (f_equal fst E) end.
  match type of Hout' with forall n, _ -> dir ?t !! _ = _ => assert (t = s3) as Ht' by exact (f_equal fst E') end.
  rewrite Ht in Hout, Hland. rewrite Ht' in Hout', Hland'.
  split; (split; [assumption|intros Hp]); [by apply Hland|by apply Hland'].
Qed.

Lemma flushMetadata_spares a s :
  spool a = Some s ->
  exists s', flushMetadata sha256 p a = mkAgent (Some s') (accumulators a) /\ spares_journals (dir s) (dir s').
Proof.
  intros Hs. unfold flushMetadata. rewrite Hs. eexists. split; [done|]. apply write_files_spares.
  repeat constructor; apply foreign_literal; by intros [].
Qed.

Lemma flushInventory_spares a s :
  spool a = Some s ->
  exists s', flushInventory sha256 p a = mkAgent (Some s') (accumulators a) /\ spares_journals (dir s) (dir s').
Proof.
  intros Hs. unfold flushInventory. destruct (has_inventory p); cbn [negb].
  - rewrite Hs. eexists. split; [done|]. apply write_files_spares. apply Forall_app. split.
    + repeat constructor; apply foreign_literal; by intros [].
    + apply Forall_fmap, Forall_true. intros b. cbn. apply (foreign_lead "go-build-"). by intros [].
  - exists s. rewrite <-Hs. split; [by destruct a|done].
Qed.

(** One pass, periodic or at shutdown, leaves every journal in the spool. *)
Lemma pass_flushes a s shutdown :
  (forall i, sound i) -> spool a = Some s -> accumulators a = j -> (forall i, pending i (dir s)) ->
  exists s', spool (runFlushers (flushers sha256 enc p) shutdown a) = Some s' /\
    forall i, on_disk i (dir s') /\ pending i (dir s').
Proof.
  intros Hsound Hs Hj Hp. unfold runFlushers, flushers. cbn [foldl run onShutdown negb].
  rewrite andb_false_r, andb_true_r.
  assert (flushed [] (dir s)) as F0 by (intros i; split; [apply Hp|by intros ?%elem_of_nil]).
  destruct (logCoverage_lands a s (Hsound _) (Hsound _) Hs Hj) as (s1 & st & c & d1 & d2 & -> & H1 & H2 & H3).
  assert (flushed [JCounters; JStates] (dir s1)) as F1.
  { eapply flushed_lands; [exact H3|]. eapply flushed_lands; [exact H2|]. by eapply flushed_spares. }
  clear H1 H2 H3 F0.
  assert (exists s2, (if shutdown then mkAgent (Some s1) (set_counters c (set_states st j))
                      else flushMetadata sha256 p (mkAgent (Some s1) (set_counters c (set_states st j))))
                     = mkAgent (Some s2) (set_counters c (set_states st j)) /\ flushed [JCounters; JStates] (dir s2))
    as (s2 & -> & F2).
  { destruct shutdown; [by exists s1|].
    destruct (flushMetadata_spares (mkAgent (Some s1) (set_counters c (set_states st j))) s1 eq_refl) as (s2 & -> & H).
    exists s2. split; [done|]. by eapply flushed_spares. }
  destruct (flushInventory_spares (mkAgent (Some s2) (set_counters c (set_states st j))) s2 eq_refl) as (s3 & -> & H3).
  pose proof (flushed_spares _ _ _ H3 F2) as F3. clear F1 F2 H3. cbn [accumulators].
  match goal with |- context [flushRestarts sha256 enc p ?a] =>
    destruct (flushRestarts_lands a s3 (Hsound _) eq_refl eq_refl) as (s4 & x4 & -> & H4) end.
  pose proof (flushed_lands _ _ _ _ H4 F3) as F4. cbn [accumulators].
  match goal with |- context [flushDisruptions sha256 enc p ?a] =>
    destruct (flushDisruptions_lands a s4 (Hsound _) eq_refl eq_refl) as (s5 & x5 & -> & H5) end.
  pose proof (flushed_lands _ _ _ _ H5 F4) as F5.
  match goal with |- context [flushJobRuns sha256 enc p ?a] =>
    destruct (flushJobRuns_lands a s5 (Hsound _) eq_refl eq_refl) as (s6 & x6 & -> & H6) end.
  pose proof (flushed_lands _ _ _ _ H6 F5) as F6.
  match goal with |- context [flushNodeLifecycle sha256 enc p ?a] =>
    destruct (flushNodeLifecycle_lands a s6 (Hsound _) eq_refl eq_refl) as (s7 & x7 & -> & H7) end.
  pose proof (flushed_lands _ _ _ _ H7 F6) as F7.
  match goal with |- context [flushGoroutineCounts sha256 enc p ?a] =>
    destruct (flushGoroutineCounts_lands a s7 (Hsound _) eq_refl eq_refl) as (s8 & x8 & -> & H8) end.
  pose proof (flushed_lands _ _ _ _ H8 F7) as F8.
  exists s8. split; [done|]. intros i. destruct (F8 i) as [Hpe Hd]. split; [|exact Hpe].
  apply Hd. destruct i; rewrite !elem_of_cons; tauto.
Qed.

End whole_pass.

(** ** Across a restart *)

(** The journals of a new process: [New…] with the lengths of the old. *)
Definition new_journals (j : journals) : journals :=
  mkJournals (Restarts.mkRestarts (Restarts.windowLength (restarts j)) ∅)
    (Disruptions.mkDisruptions (Disruptions.windowLength (disruptions j)) ∅)
    (NodeEvents.mkNodeEvents (NodeEvents.windowLength (nodes j)) ∅)
    (States.mkStates (States.windowLength (states j)) ∅ ∅)
    (Counters.fresh (Counters.windowLength (counters j)) ∅)
    (JobRuns.mkJobRuns (JobRuns.windowLength (jobs j)) ∅)
    (Goroutines.mkGoroutines (Goroutines.windowLength (goroutines j)) ∅).

(** The open windows of the old process's journals that are still open at [now]. *)
Definition resumed_journals (p : pass) (j : journals) (now : Time) : journals :=
  let st := observed_states p j in
  let c := observed_counters p j in
  mkJournals
    (Restarts.mkRestarts (Restarts.windowLength (restarts j))
       (resumed (Restarts.windowLength (restarts j)) now (Restarts.open (restarts j))))
    (Disruptions.mkDisruptions (Disruptions.windowLength (disruptions j))
       (resumed (Disruptions.windowLength (disruptions j)) now (Disruptions.open (disruptions j))))
    (NodeEvents.mkNodeEvents (NodeEvents.windowLength (nodes j))
       (resumed (NodeEvents.windowLength (nodes j)) now (NodeEvents.open (nodes j))))
    (States.mkStates (States.windowLength (states j)) (resumed (States.windowLength st) now (States.open st)) ∅)
    (Counters.fresh (Counters.windowLength (counters j)) (resumed (Counters.windowLength c) now (Counters.open c)))
    (JobRuns.mkJobRuns (JobRuns.windowLength (jobs j))
       (resumed (JobRuns.windowLength (jobs j)) now (JobRuns.open (jobs j))))
    (Goroutines.mkGoroutines (Goroutines.windowLength (goroutines j))
       (resumed (Goroutines.windowLength (goroutines j)) now (Goroutines.open (goroutines j)))).

Lemma resume_journals_fresh rec p j now :
  (resume ∅ (rRestarts rec)).1 = resumed (Restarts.windowLength (restarts j)) now (Restarts.open (restarts j)) ->
  (resume ∅ (rDisruptions rec)).1 = resumed (Disruptions.windowLength (disruptions j)) now (Disruptions.open (disruptions j)) ->
  (resume ∅ (rNodeEvents rec)).1 = resumed (NodeEvents.windowLength (nodes j)) now (NodeEvents.open (nodes j)) ->
  (resume ∅ (rJobRuns rec)).1 = resumed (JobRuns.windowLength (jobs j)) now (JobRuns.open (jobs j)) ->
  (resume ∅ (rGoroutineCounts rec)).1 = resumed (Goroutines.windowLength (goroutines j)) now (Goroutines.open (goroutines j)) ->
  (resume ∅ (rAgentStates rec)).1
    = resumed (States.windowLength (observed_states p j)) now (States.open (observed_states p j)) ->
  (resume ∅ (rAgentCounters rec)).1
    = resumed (Counters.windowLength (observed_counters p j)) now (Counters.open (observed_counters p j)) ->
  (resume_journals rec (new_journals j)).1 = resumed_journals p j now.
Proof.
  intros H1 H2 H3 H4 H5 H6 H7. unfold resume_journals, resumed_journals, new_journals, Counters.fresh,
    Restarts.Resume, Disruptions.Resume, NodeEvents.Resume, JobRuns.Resume, Goroutines.Resume, States.Resume, Counters.Resume.
  cbn [restarts disruptions nodes jobs goroutines states counters Restarts.open Restarts.windowLength
    Disruptions.open Disruptions.windowLength NodeEvents.open NodeEvents.windowLength JobRuns.open JobRuns.windowLength
    Goroutines.open Goroutines.windowLength States.open States.windowLength States.seen Counters.open
    Counters.windowLength Counters.prev Counters.prevSince Counters.prevAt].
  rewrite <-H1, <-H2, <-H3, <-H4, <-H5, <-H6, <-H7.
  repeat match goal with |- context [resume ∅ ?l] => destruct (resume ∅ l); cbn [fst] end. done.
Qed.

(** ** Properties *)

(** C2. A restart resumes every journal (ADR 0077, ADR 0088, ADR 0089): whatever
    the seven journals hold, one pass over the writers — the periodic one or the
    one a shutdown makes — followed by the startup of a new process leaves each
    of its journals with exactly the records whose windows are still open, each
    once and as its file holds it, and changes no file. *)
Theorem restart_resumes_every_journal (sha256 : string -> string) (enc : encoders) (dec : decoders) (p : pass)
    (j : journals) (s : Spool) (shutdown : bool) (poller : Usage.UsagePoller) (now : Time) :
  (forall n, io_fault (env p n) = NoFault) ->
  (forall i, sound enc dec p j i) -> (forall i, pending enc p j now i (dir s)) ->
  exists s', spool (runFlushers (flushers sha256 enc p) shutdown (mkAgent (Some s) j)) = Some s' /\
    let '(s'', _, j', _) := seedOpenWindows dec true s' poller (new_journals j) now in
    dir s'' = dir s' /\ j' = resumed_journals p j now.
Proof.
  intros Hf Hsound Hp.
  destruct (pass_flushes sha256 enc dec p j now Hf (mkAgent (Some s) j) s shutdown Hsound eq_refl eq_refl Hp)
    as (s' & Hs' & Hdisk). exists s'. split; [exact Hs'|].
  unfold seedOpenWindows. cbn [negb].
  destruct (RecoverOpenWindows dec s' now) as [rec s''] eqn:E.
  destruct (resume_journals rec (new_journals j)) as [j' n] eqn:Ej. split; [by injection E as _ <-|].
  change j' with (j', n).1. rewrite <-Ej. change rec with (rec, s'').1. rewrite <-E.
  apply resume_journals_fresh.
  - destruct (Hsound JRestarts) as (Hl & Hpl & Hco), (Hdisk JRestarts) as [Hh Hst].
    by apply (resume_from_disk restart_window restartsNamePrefix kindContainerRestarts (enc_restarts enc) (dec_restarts dec) _ _ _ _ _ _
                ltac:(by intros ?) Hl Hpl Hh Hst Hco), recovered_restarts.
  - destruct (Hsound JDisruptions) as (Hl & Hpl & Hco), (Hdisk JDisruptions) as [Hh Hst].
    by apply (resume_from_disk disruption_window disruptionsNamePrefix kindPodDisruptions (enc_disruptions enc) (dec_disruptions dec) _ _ _ _ _ _
                ltac:(by intros ?) Hl Hpl Hh Hst Hco), recovered_disruptions.
  - destruct (Hsound JNodes) as (Hl & Hpl & Hco), (Hdisk JNodes) as [Hh Hst].
    by apply (resume_from_disk node_window nodeLifecycleNamePrefix kindNodeLifecycle (enc_nodes enc) (dec_nodes dec) _ _ _ _ _ _
                ltac:(by intros ?) Hl Hpl Hh Hst Hco), recovered_nodes.
  - destruct (Hsound JJobs) as (Hl & Hpl & Hco), (Hdisk JJobs) as [Hh Hst].
    by apply (resume_from_disk job_window jobRunsNamePrefix kindJobRuns (enc_jobs enc) (dec_jobs dec) _ _ _ _ _ _
                ltac:(by intros ?) Hl Hpl Hh Hst Hco), recovered_jobs.
  - destruct (Hsound JGoroutines) as (Hl & Hpl & Hco), (Hdisk JGoroutines) as [Hh Hst].
    by apply (resume_from_disk goroutine_window goroutineCountsNamePrefix kindGoroutineCounts (enc_goroutines enc) (dec_goroutines dec) _ _ _ _ _ _
                ltac:(by intros ?) Hl Hpl Hh Hst Hco), recovered_goroutines.
  - destruct (Hsound JStates) as (Hl & Hpl & Hco), (Hdisk JStates) as [Hh Hst].
    by apply (resume_from_disk state_window agentStatesNamePrefix kindAgentStates (enc_states enc) (dec_states dec) _ _ _ _ _ _
                ltac:(by intros ?) Hl Hpl Hh Hst Hco), recovered_states.
  - destruct (Hsound JCounters) as (Hl & Hpl & Hco), (Hdisk JCounters) as [Hh Hst].
    by apply (resume_from_disk counter_window agentCountersNamePrefix kindAgentCounters (enc_counters enc) (dec_counters dec) _ _ _ _ _ _
                ltac:(by intros ?) Hl Hpl Hh Hst Hco), recovered_counters.
Qed.

Section empty_journal.
Context {R K O : Type} `{JournalLaws R K O} `{Countable K}.

Lemma flush_records_empty len at_ : flush_records len at_ (∅ : gmap K R) = [].
Proof.
  destruct (flush_records len at_ ∅) as [|r l] eqn:E; [done|].
  assert (r ∈ flush_records len at_ (∅ : gmap K R)) as (k & r0 & Hk & _)%elem_of_flush
    by (rewrite E; apply list_elem_of_here). by rewrite lookup_empty in Hk.
Qed.

Lemma sound_empty windowOf kind encode decode len at_ :
  good_length len -> sound_journal windowOf kind encode decode len at_ (∅ : gmap K R).
Proof.
  intros Hl. split; [done|]. split; [split; by intros k r Hr%lookup_empty_Some|].
  intros k g. by rewrite flush_records_empty, group_lookup.
Qed.
End empty_journal.

(** A journal with one container's restarts in an hour half gone. *)
Definition demo_hour : Time := unixEpoch + 480000 * Hour.
Definition demo_restart : Restarts.RestartRecord :=
  Restarts.mkRestartRecord (Restarts.mkKey "shop" "web-1" "app") (Model.mkWorkloadRef "Deployment" "web")
    demo_hour 3600 5 (Some {["OOMKilled"%string := 1]}) 4 (Some 137).
Definition demo_journals : journals :=
  mkJournals (Restarts.mkRestarts Hour {[record_key demo_restart := demo_restart]})
    (Disruptions.mkDisruptions Hour ∅) (NodeEvents.mkNodeEvents Hour ∅) (States.mkStates Hour ∅ ∅)
    (Counters.fresh Hour ∅) (JobRuns.mkJobRuns Hour ∅) (Goroutines.mkGoroutines Hour ∅).
Definition demo_encoders : encoders :=
  mkEncoders (fun _ _ => Some "{}"%string) (fun _ _ => None) (fun _ _ => None) (fun _ _ => None) (fun _ _ => None)
    (fun _ _ => None) (fun _ _ => None).
Definition demo_decoders : decoders :=
  mkDecoders (fun _ => None)
    (fun s => if decide (s = document "{}")
              then Some (mkJournalWindow kindContainerRestarts demo_hour 3600 [demo_restart]) else None)
    (fun _ => None) (fun _ => None) (fun _ => None) (fun _ => None) (fun _ => None) (fun _ => None).
Definition demo_pass : pass :=
  let now := demo_hour + 30 * Minute in
  mkPass now now now now now now (demo_hour - Hour) [] ∅ (fun _ => None) false [] (fun _ => mkIo now now NoFault).

Lemma demo_sound i : sound demo_encoders demo_decoders demo_pass demo_journals i.
Proof.
  assert (good_length Hour) as Hl by (vm_compute; intuition discriminate).
  destruct i; try (apply sound_empty; exact Hl). split; [exact Hl|]. split.
  - assert (forall k r, Restarts.open (restarts demo_journals) !! k = Some r -> record_key demo_restart = k /\ demo_restart = r)
      as Hone by (intros k r Hr; cbn [restarts Restarts.open demo_journals] in Hr; by apply lookup_singleton_Some in Hr).
    split; intros k r [<- <-]%Hone; [done|]. split; [done|]. vm_compute. intuition discriminate.
  - assert (flush_records (Restarts.windowLength (restarts demo_journals)) (now_restarts demo_pass)
              (Restarts.open (restarts demo_journals)) = [demo_restart]) as -> by (vm_compute; reflexivity).
    intros k g. rewrite group_lookup. rewrite filter_cons, filter_nil.
    case_decide as Hk; [|done]. intros [= <-]. subst k. exists "{}"%string.
    split; [done|]. split; [vm_compute; discriminate|]. unfold demo_decoders. cbn [dec_restarts].
    by rewrite decide_True.
Qed.

Lemma restart_resumes_every_journal_witness :
  exists s', spool (runFlushers (flushers (fun s => s) demo_encoders demo_pass) true
                      (mkAgent (Some (NewSpool ∅ 0)) demo_journals)) = Some s' /\
    let '(s'', _, j', _) := seedOpenWindows demo_decoders true s' Usage.NewUsagePoller (new_journals demo_journals)
                              (demo_hour + 31 * Minute) in
    dir s'' = dir s' /\ j' = resumed_journals demo_pass demo_journals (demo_hour + 31 * Minute).
Proof.
  apply (restart_resumes_every_journal (fun s => s) demo_encoders demo_decoders demo_pass demo_journals
           (NewSpool ∅ 0) true Usage.NewUsagePoller (demo_hour + 31 * Minute)).
  - reflexivity.
  - exact demo_sound.
  - intros i n k nd Hd. change (dir (NewSpool ∅ 0)) with (∅ : fs) in Hd. by apply lookup_empty_Some in Hd.
Defined.
