(* ===== verification/Wiring.v ===== *)
(** The controller assembled: what [run] of [cmd/agent/main.go] builds out of the
    components, and the closures it gives them.

    A [world] is the state those closures share.  Each goroutine of the controller
    moves it by the steps of [happen]: an informer event, a poll, a push from a
    node, a pprof round, a pass over the writers.  A step is one callback, run
    against one state of the pod index; a pass can be taken a writer at a time
    ([a_pass_is_its_writers]), with the other goroutines' steps in between. *)

From stdpp Require Import prelude gmap strings list.
From Stdlib Require Import ZArith Lia.
From S2P Require Import Prelude GoTime GoStrings FileNames PodWatcher Spool Writers.
From S2P Require Model Admission Cluster Nodes Usage UsageRecord Restarts Disruptions JobRuns NodeEvents Goroutines States Counters.
From S2P Require Metrics Kubelet.
From S2P Require Metadata Revisions Policy Targeting NodeIntake NodeReport Inventory Probe Readings SymbolFilter Pull Shipper Recover Controller Config Network.
#[local] Existing Instances Probe.Target_eq_dec Probe.Target_countable.
Local Open Scope Z_scope.
Local Open Scope go_scope.

(** ** State *)

(** What [buildNodeIntake] makes: the verifier its handlers share, and the
    refusals of the two that count them. *)
Record receiver := mkReceiver { verifier : NodeIntake.Verifier; reports : NodeIntake.Rejections; profiles : NodeIntake.Rejections }.

(** What a nil pointer stands for is [None]: no backend of the kind configured. *)
Record world := mkWorld {
  pods : PodWatcher; fleet : Nodes.NodeWatcher; poller : Usage.UsagePoller; agent : Controller.agent;
  publisher : option Targeting.Publisher; goStore : option Inventory.Store;
  prober : option Probe.Prober; puller : option Pull.Puller; counter : option Readings.Counter;
  intake : option receiver; pprofExcluded : Z; profilesReceived : Z; profilesUnjoined : Z;
}.

Definition set_pods x (w : world) : world :=
  mkWorld x (fleet w) (poller w) (agent w) (publisher w) (goStore w) (prober w) (puller w) (counter w) (intake w) (pprofExcluded w) (profilesReceived w) (profilesUnjoined w).
Definition set_fleet x (w : world) : world :=
  mkWorld (pods w) x (poller w) (agent w) (publisher w) (goStore w) (prober w) (puller w) (counter w) (intake w) (pprofExcluded w) (profilesReceived w) (profilesUnjoined w).
Definition set_poller x (w : world) : world :=
  mkWorld (pods w) (fleet w) x (agent w) (publisher w) (goStore w) (prober w) (puller w) (counter w) (intake w) (pprofExcluded w) (profilesReceived w) (profilesUnjoined w).
Definition set_agent x (w : world) : world :=
  mkWorld (pods w) (fleet w) (poller w) x (publisher w) (goStore w) (prober w) (puller w) (counter w) (intake w) (pprofExcluded w) (profilesReceived w) (profilesUnjoined w).
Definition set_publisher x (w : world) : world :=
  mkWorld (pods w) (fleet w) (poller w) (agent w) x (goStore w) (prober w) (puller w) (counter w) (intake w) (pprofExcluded w) (profilesReceived w) (profilesUnjoined w).
Definition set_goStore x (w : world) : world :=
  mkWorld (pods w) (fleet w) (poller w) (agent w) (publisher w) x (prober w) (puller w) (counter w) (intake w) (pprofExcluded w) (profilesReceived w) (profilesUnjoined w).
Definition set_prober x (w : world) : world :=
  mkWorld (pods w) (fleet w) (poller w) (agent w) (publisher w) (goStore w) x (puller w) (counter w) (intake w) (pprofExcluded w) (profilesReceived w) (profilesUnjoined w).
Definition set_puller x (w : world) : world :=
  mkWorld (pods w) (fleet w) (poller w) (agent w) (publisher w) (goStore w) (prober w) x (counter w) (intake w) (pprofExcluded w) (profilesReceived w) (profilesUnjoined w).
Definition set_counter x (w : world) : world :=
  mkWorld (pods w) (fleet w) (poller w) (agent w) (publisher w) (goStore w) (prober w) (puller w) x (intake w) (pprofExcluded w) (profilesReceived w) (profilesUnjoined w).
Definition set_intake x (w : world) : world :=
  mkWorld (pods w) (fleet w) (poller w) (agent w) (publisher w) (goStore w) (prober w) (puller w) (counter w) x (pprofExcluded w) (profilesReceived w) (profilesUnjoined w).
Definition set_tallies excluded received unjoined (w : world) : world :=
  mkWorld (pods w) (fleet w) (poller w) (agent w) (publisher w) (goStore w) (prober w) (puller w) (counter w) (intake w) excluded received unjoined.

Definition journals (w : world) : Controller.journals := Controller.accumulators (agent w).
Definition spool (w : world) : option Spool := Controller.spool (agent w).
Definition set_journals (j : Controller.journals) (w : world) : world := set_agent (Controller.mkAgent (spool w) j) w.
Definition set_spool (s : Spool) (w : world) : world := set_agent (Controller.mkAgent (Some s) (journals w)) w.

(** [if spool != nil { if err := spool.Write...; err != nil { log } }] *)
Definition on_spool {E} (write : Spool -> Spool * E) (w : world) : world :=
  match spool w with None => w | Some s => set_spool (write s).1 w end.

(** ** What a pass is given *)

(** The clock as each closure reads it, by payload kind, and the caches of the
    watches as the listings find them. *)
Record pass := mkPass {
  ps_now : string -> Time; ps_env : string -> io; ps_startedAt : Time; ps_version : string; ps_config : Config.Shape;
  ps_shipping : option (Shipper.Shipping * option Time);
  ps_sources : list Policy.policySource; ps_unavailable_for : Duration;
  ps_caches : Cluster.caches; ps_strategies : Revisions.strategy_caches; ps_sets : list Revisions.ReplicaSet;
  ps_policies : Policy.policy_caches;
}.

Section wiring.
Context (sha256 : string -> string) (json : payload -> option string).
(** The pprof library. *)
Context (parse : string -> option SymbolFilter.Profile) (check_valid : SymbolFilter.Profile -> bool)
  (encode : SymbolFilter.Profile -> option string).

Definition put (env : string -> io) (p : payload) (w : world) : world :=
  on_spool (fun s => write_payload sha256 json s (env (payload_file p)) p) w.

(** ** Callbacks of the watchers *)

(** One callback of the pod watcher; [None] is a panic of the restart journal. *)
Definition dispatch (env : string -> io) (r : report) (w : world) : option world :=
  let j := journals w in
  match r with
  | RPod _ => Some w
  | ROOM o => Some (put env (OOM o) w)
  | RRestart e => r ← Restarts.Observe (Controller.restarts j) e; Some (set_journals (Controller.set_restarts r j) w)
  | RDisruption d => Some (set_journals (Controller.set_disruptions (Disruptions.Observe (Controller.disruptions j) d) j) w)
  | RJob r => Some (set_journals (Controller.set_jobs (JobRuns.Observe (Controller.jobs j) r) j) w)
  end.
Definition dispatch_all (env : string -> io) (rs : list report) (w : option world) : option world :=
  foldl (fun w r => w ≫= dispatch env r) w rs.
Definition pod_event (env : string -> io) (e : event) (w : world) : option world :=
  let '(p, rs) := step (pods w) e in dispatch_all env rs (Some (set_pods p w)).

Definition observe_node (r : Nodes.node_report) (w : world) : world :=
  match r with
  | Nodes.OnNode _ => w
  | Nodes.OnLifecycle l =>
      let j := journals w in set_journals (Controller.set_nodes (NodeEvents.Observe (Controller.nodes j) l) j) w
  end.
Definition node_event (e : Nodes.node_event) (w : world) : world :=
  let '(f, rs) := Nodes.node_step (fleet w) e in foldl (fun w r => observe_node r w) (set_fleet f w) rs.

(** ** The usage poller *)

Definition poll (cancelled : bool) (reads : list Usage.nodeReads) (now : Time) (w : world) : world :=
  let p := pods w in
  set_poller (Usage.pollOnce (LookupPod p) (HostNetwork p) (LookupPodByName p) cancelled reads now (poller w)).1 w.

Definition onClosed (env : string -> io) (stuck : gset string) (records : list UsageRecord.Record_) (w : world) : world :=
  let obs := Usage.Observation_ (poller w) in
  on_spool (fun s => Recover.WriteClosedWindows sha256 s (fun k g => json (UsageWindow k obs g)) env stuck records) w.
Definition onSnapshot (env : string -> io) (records : list UsageRecord.Record_) (w : world) : world :=
  let w := match publisher w with
           | None => w
           | Some p => set_publisher (Some (Targeting.Publish (Targeting.opted_out (pods w)) records p)) w
           end in
  let obs := Usage.Observation_ (poller w) in
  on_spool (fun s => Recover.WriteUsageSnapshot sha256 s (fun k g => json (UsageSnapshot k obs g)) env records) w.
Definition onNetwork (env : string -> io) (records : list Network.NetworkRecord) (w : world) : world :=
  let obs := Usage.Observation_ (poller w) in
  on_spool (fun s => WriteNetworkWindows sha256 json s obs env records) w.

(** A callback is made only with records to hand on. *)
Definition unless_empty {A} (l : list A) (f : list A -> world -> world) (w : world) : world :=
  match l with [] => w | _ => f l w end.
Definition flush_usage (now : Time) (env : string -> io) (stuck : gset string) (w : world) : world :=
  let '(fl, p) := Usage.flush now (poller w) in
  let w := set_poller p w in
  let w := unless_empty (Usage.closed fl) (onClosed env stuck) w in
  let w := unless_empty (Usage.snapshot fl) (onSnapshot env) w in
  unless_empty (Usage.network fl) (onNetwork env) w.

(** ** Pushes from the nodes *)

(** [onReport]; [node] is the one the token names. *)
Definition onReport (at_ : Time) (node : string) (report : NodeReport.Report) (w : world) : world :=
  match goStore w with
  | None => w
  | Some s => set_goStore (Some (Inventory.Ingest at_ report (Inventory.podContainerResolver (pods w) node) s)) w
  end.

Definition profile_key (r : NodeIntake.ProfileReport) (x : string * Model.WorkloadRef * containerIdentity) : ProfileKey :=
  mkProfileKey x.1.1 (Model.Name x.1.2) (ci_name x.2) (ci_imageDigest x.2) (NodeIntake.CaptureStart r) (NodeIntake.CaptureEnd r).
Definition onProfile (env : string -> io) (node : string) (r : NodeIntake.ProfileReport) (w : world) : world :=
  match LookupContainerOnNode (pods w) (NodeIntake.PodUID r) (NodeIntake.pr_ContainerID r) node with
  | None => set_tallies (pprofExcluded w) (profilesReceived w) (profilesUnjoined w +u 1) w
  | Some x =>
      let received w := set_tallies (pprofExcluded w) (profilesReceived w +u 1) (profilesUnjoined w) w in
      let p := EBPFProfile (profile_key r x) (NodeIntake.Pprof r) in
      match spool w with
      | None => received w
      | Some s =>
          match write_payload sha256 json s (env (payload_file p)) p with
          | (s, Some _) => set_spool s w
          | (s, None) => received (set_spool s w)
          end
      end
  end.

(** The two push endpoints: what a handler accepted goes to its callback, under
    the node of the token. *)
Definition receive_report (at_ : Time) (rq : NodeIntake.request NodeReport.Report) (w : world) : world :=
  match intake w with
  | None => w
  | Some rc =>
      let o := NodeIntake.ServeHTTP (verifier rc) NodeReport.r_Node (reports rc) rq in
      let w := set_intake (Some (mkReceiver (verifier rc) (NodeIntake.rejections o) (profiles rc))) w in
      match NodeIntake.handed o with None => w | Some (id, report) => onReport at_ (NodeIntake.Node id) report w end
  end.
Definition receive_profile (env : string -> io) (rq : NodeIntake.request NodeIntake.ProfileReport) (w : world) : world :=
  match intake w with
  | None => w
  | Some rc =>
      let o := NodeIntake.ServeHTTP (verifier rc) NodeIntake.pr_Node (profiles rc) rq in
      let w := set_intake (Some (mkReceiver (verifier rc) (reports rc) (NodeIntake.rejections o))) w in
      match NodeIntake.handed o with None => w | Some (id, report) => onProfile env (NodeIntake.Node id) report w end
  end.
(** The two queries answer from the index and keep nothing; the targets route is
    mounted only with a publisher. *)
Definition answer_targets (rq : NodeIntake.request string) (w : world) : option (NodeIntake.outcome (list string)) :=
  rc ← intake w; p ← publisher w; Some (NodeIntake.TargetsServeHTTP (verifier rc) p (pods w) rq).
Definition answer_scope (rq : NodeIntake.request string) (w : world) : option (NodeIntake.outcome (list string)) :=
  rc ← intake w; Some (NodeIntake.ScopeServeHTTP (verifier rc) (pods w) rq).

(** ** The pprof funnel *)

(** [candidates]: what is admitted now, with the exclusions counted on the way. *)
Definition candidates (w : world) : list Probe.Candidate * world :=
  match goStore w with
  | None => ([], w)
  | Some s =>
      let '(kept, excluded) := Probe.admitted_candidates (pods w) s in
      (kept, set_tallies excluded (profilesReceived w) (profilesUnjoined w) w)
  end.

(** A round of the prober: each candidate's turn, its address read off the index. *)
Definition probe_round (c : Cluster.caches) (turns : Probe.Candidate -> Probe.turn) (w : world) : world :=
  match prober w with
  | None => w
  | Some p =>
      let '(cands, w) := candidates w in
      let turn cand :=
        let t := turns cand in
        Probe.mkTurn cand (Probe.tn_due t) (Probe.Address c (pods w) cand) (Probe.tn_response t) (Probe.tn_recorded t)
          (Probe.tn_cancelled t) in
      set_prober (Some (Probe.round (turn <$> cands) p).1) w
  end.

(** What the puller and the counter are handed. *)
Definition confirmed (w : world) : list Probe.Candidate * world :=
  match prober w with
  | None => ([], w)
  | Some p => let '(cands, w) := candidates w in (Probe.Confirmed p cands, w)
  end.

Definition pulled_payload (p : Pull.Pulled) : payload :=
  PprofProfile (mkProfileKey (Pull.pu_Namespace p) (Pull.pu_WorkloadName p) (Pull.pu_Container p) (Pull.pu_ImageDigest p)
                  (Pull.pu_Start p) (Pull.pu_End p)) (Pull.pu_Pprof p)
    (mkProfileDrops (SymbolFilter.ThirdPartyDropped (Pull.pu_Dropped p)) (SymbolFilter.UnsymbolizedDropped (Pull.pu_Dropped p))
       (SymbolFilter.SamplesFiltered (Pull.pu_Dropped p))).
(** A cycle of the puller.  The write of a profile happens in its visit, and
    [vs_spooled] is how it went; what was handed to the sink is written here. *)
Definition pull_cycle (c : Cluster.caches) (now : Time) (env : string -> io) (visits : nat -> Pull.surroundings) (w : world)
    : world :=
  match puller w with
  | None => w
  | Some p =>
      let '(cands, w) := confirmed w in
      let visit i :=
        let v := visits i in
        Pull.mkSurroundings (Pull.vs_ended v) (Probe.Address c (pods w)) (Pull.vs_start v) (Pull.vs_response v) (Pull.vs_end v)
          (Pull.vs_pulled v) (Pull.vs_held v) (Pull.vs_spooled v) in
      let '(p, log) := Pull.cycle parse check_valid encode now visit cands p in
      foldl (fun w pu => put env (pulled_payload pu) w) (set_puller (Some p) w) (omap Pull.cp_sink log)
  end.

(** A round of the counter, each reading observed by the goroutine journal. *)
Definition count_round (c : Cluster.caches) (envs : Probe.Candidate -> Readings.surroundings) (w : world) : world :=
  match counter w with
  | None => w
  | Some n =>
      let '(cands, w) := confirmed w in
      let around cand :=
        let e := envs cand in
        Readings.mkSurroundings (Readings.su_done e) (Readings.su_checked e) (Probe.Replica c (pods w) cand)
          (Readings.su_observed e) (Readings.su_response e) (Readings.su_held e) in
      let '(n, log) := Readings.count_round around cands n in
      let j := journals w in
      set_journals (Controller.set_goroutines (foldl Goroutines.Observe (Controller.goroutines j) (Readings.samples log)) j)
        (set_counter (Some n) w)
  end.

(** ** The writers *)

(** [encoding/json] of a journal's windows, stamped by the pass. *)
Definition encoders_of (p : pass) : Controller.encoders :=
  let at_ kind := ps_now p kind in
  Controller.mkEncoders
    (fun k rs => json (ContainerRestarts (at_ Recover.kindContainerRestarts) k rs))
    (fun k rs => json (PodDisruptions (at_ Recover.kindPodDisruptions) k rs))
    (fun k rs => json (NodeLifecycle (at_ Recover.kindNodeLifecycle) k rs))
    (fun k rs => json (JobRuns (at_ Recover.kindJobRuns) k rs))
    (fun k rs => json (GoroutineCounts (at_ Recover.kindGoroutineCounts) k rs))
    (fun k rs => json (AgentStates (at_ "collection_coverage"%string) k rs))
    (fun k rs => json (AgentCounters (at_ "collection_coverage"%string) k rs)).

Definition refusals (w : world) : option NodeIntake.IntakeRejections :=
  (fun rc => NodeIntake.intakeRejections (reports rc) (profiles rc)) <$> intake w.
Definition coverage_of (p : pass) (w : world) : coverage :=
  let ebpf s := let pc := Inventory.ProfileCoverage s in
                if 0 <? Inventory.pc_Nodes pc then Some (pc, profilesReceived w, profilesUnjoined w) else None in
  let excluded pc := Probe.mkProbeCoverage (Probe.pbConfirmed pc) (Probe.pbAbsent pc) (Probe.pbUnreachable pc) (pprofExcluded w) in
  mkCoveragePayload (ps_startedAt p) (mkAgentInfo (ps_version p) (ps_config p) (Usage.Signals (poller w)))
    (Policy.SourceHealths (ps_sources p) (ps_unavailable_for p) (ps_now p "collection_coverage"%string))
    (Admission.Snapshot (filter_ (pods w))) (PlacementDrops_ (pods w)) (Nodes.Drops (fleet w))
    (Inventory.Counters_ <$> goStore w) (Inventory.ScanCoverage <$> goStore w) (goStore w ≫= ebpf)
    (excluded ∘ Probe.ProbeSnapshot <$> prober w) (refusals w) (Pull.pl_cover <$> puller w) (Readings.cover <$> counter w)
    (ps_shipping p).

(** The pass as the closures over the journals see it. *)
Definition journal_pass (p : pass) (w : world) : Controller.pass :=
  let now := ps_now p in
  let cov := coverage_of p w in
  let health h := Controller.mkSourceHealth (Policy.shName h) (Policy.shFailingSince h) in
  let refused r := Controller.mkIntakeRejections (NodeIntake.Unauthorized r) (NodeIntake.TooLarge r) (NodeIntake.Malformed r) in
  Controller.mkPass (now "collection_coverage"%string) (now Recover.kindContainerRestarts) (now Recover.kindPodDisruptions)
    (now Recover.kindJobRuns) (now Recover.kindNodeLifecycle) (now Recover.kindGoroutineCounts) (ps_startedAt p)
    (Controller.agentStates (health <$> co_Sources cov) (snd <$> ps_shipping p))
    (Controller.agentCounters (co_Filter cov) (Usage.Observation_ (poller w)) (co_PprofPull cov) (refused <$> refusals w))
    (fun kind => if bool_decide (kind = "collection_coverage"%string) then json (CollectionCoverage (now kind) cov) else None)
    (bool_decide (is_Some (goStore w))) [] (ps_env p).

(** A closure over the spool and the journals alone. *)
Definition over_agent (p : pass) (f : Controller.pass -> Controller.agent -> Controller.agent) (w : world) : world :=
  set_agent (f (journal_pass p w) (agent w)) w.

(** [flushMetadata]: six payloads of one instant. *)
Definition metadata_payloads (p : pass) (w : world) : list payload :=
  let at_ := ps_now p "workload_metadata"%string in
  let entries := map_values (index (pods w)) in
  let '(policies, gaps) := Policy.WorkloadPolicies (ps_policies p) (pods w) entries (ps_sources p) (ps_unavailable_for p) (ps_now p "workload_policy"%string) in
  let '(cluster, clusterGaps) := Policy.ClusterPolicies (ps_policies p) entries (ps_sources p) (ps_unavailable_for p) (ps_now p "cluster_policy"%string) in
  [WorkloadMetadata at_ (Metadata.Aggregate (Pods (pods w)) (Revisions.UpdateStrategies (ps_strategies p) (pods w)));
   NodeMetadata at_ (Nodes.Nodes (fleet w));
   WorkloadRevisions at_ (Revisions.Aggregate (Revisions.ReplicaSets (ps_sets p) (pods w)));
   WorkloadPolicy at_ gaps policies; ClusterPolicy at_ clusterGaps cluster;
   RestartCounters at_ (PodWatcher.RestartCounters (ps_caches p) (pods w))].
Definition flushMetadata (p : pass) (w : world) : world :=
  match spool w with None => w | Some _ => foldl (fun w x => put (ps_env p) x w) w (metadata_payloads p w) end.

(** [flushInventory]: forget, publish, and write each pending build once. *)
Definition inventory_payloads (p : pass) (prober : option Probe.Prober) (s : Inventory.Store) : list payload :=
  let at_ kind := ps_now p kind in
  let ports := Inventory.PortSnapshot s in
  [GoInventory (at_ "go_inventory"%string) (Inventory.Coverage_ s) (Inventory.Snapshot s);
   ProcessPeaks (at_ "process_peaks"%string) (Inventory.PeakSnapshot s);
   ProcessCounters (at_ "process_counters"%string) (Inventory.CounterSnapshot s);
   ListeningPorts (at_ "listening_ports"%string) (match prober with None => ports | Some pr => Probe.Stamp pr ports end)].
Definition write_pending (env : string -> io) (w : world) (b : Inventory.BuildFacts) : world :=
  match spool w, goStore w with
  | Some s, Some store =>
      match WriteGoBuild sha256 json s (env (payload_file (GoBuild b))) b with
      | (s, Some _) => set_spool s w
      | (s, None) => set_goStore (Some (Inventory.MarkBuildWritten (Inventory.bf_ImageDigest b) store)) (set_spool s w)
      end
  | _, _ => w
  end.
Definition flushInventory (p : pass) (w : world) : world :=
  match goStore w, spool w with
  | Some store, Some _ =>
      let store := Inventory.forget_departed (pods w) (Nodes.Names (fleet w)) store in
      let w := foldl (fun w x => put (ps_env p) x w) (set_goStore (Some store) w) (inventory_payloads p (prober w) store) in
      foldl (write_pending (ps_env p)) w (Inventory.PendingBuilds store)
  | _, _ => w
  end.

(** The set both passes agree on, in its order. *)
Definition flushers (p : pass) : list (Controller.flusher world) :=
  let over f := over_agent p (fun jp => f jp) in
  let enc := encoders_of p in
  [Controller.mkFlusher (over (Controller.logCoverage sha256 enc)) true;
   Controller.mkFlusher (flushMetadata p) false;
   Controller.mkFlusher (flushInventory p) true;
   Controller.mkFlusher (over (Controller.flushRestarts sha256 enc)) true;
   Controller.mkFlusher (over (Controller.flushDisruptions sha256 enc)) true;
   Controller.mkFlusher (over (Controller.flushJobRuns sha256 enc)) true;
   Controller.mkFlusher (over (Controller.flushNodeLifecycle sha256 enc)) true;
   Controller.mkFlusher (over (Controller.flushGoroutineCounts sha256 enc)) true].

(** A turn of the periodic pass: the writers, then the sweep. *)
Definition periodic (p : pass) (raced stuck : gset string) (swept_at : Time) (w : world) : world :=
  on_spool (fun s => Sweep raced stuck s swept_at) (Controller.runFlushers (flushers p) false w).

(** ** What happens *)

Inductive happening :=
| HPod (env : string -> io) (e : event)
| HNode (e : Nodes.node_event)
| HPoll (cancelled : bool) (reads : list Usage.nodeReads) (now : Time)
| HUsageFlush (now : Time) (env : string -> io) (stuck : gset string)
| HReport (at_ : Time) (rq : NodeIntake.request NodeReport.Report)
| HProfile (env : string -> io) (rq : NodeIntake.request NodeIntake.ProfileReport)
| HProbe (c : Cluster.caches) (turns : Probe.Candidate -> Probe.turn)
| HPull (c : Cluster.caches) (now : Time) (env : string -> io) (visits : nat -> Pull.surroundings)
| HCount (c : Cluster.caches) (envs : Probe.Candidate -> Readings.surroundings)
| HPass (p : pass) (raced stuck : gset string) (swept_at : Time)
| HFlush (p : pass) (i : nat)    (** one writer of a pass, with other callbacks before and after it *)
| HSweep (raced stuck : gset string) (swept_at : Time)
| HAcknowledged (nm : string)   (** the shipper removed a payload it delivered *)
| HShutdown (p : pass).

Definition happen (w : world) (h : happening) : option world :=
  match h with
  | HPod env e => pod_event env e w
  | HNode e => Some (node_event e w)
  | HPoll cancelled reads now => Some (poll cancelled reads now w)
  | HUsageFlush now env stuck => Some (flush_usage now env stuck w)
  | HReport at_ rq => Some (receive_report at_ rq w)
  | HProfile env rq => Some (receive_profile env rq w)
  | HProbe c turns => Some (probe_round c turns w)
  | HPull c now env visits => Some (pull_cycle c now env visits w)
  | HCount c envs => Some (count_round c envs w)
  | HPass p raced stuck swept_at => Some (periodic p raced stuck swept_at w)
  | HFlush p i => Some (match flushers p !! i with None => w | Some f => Controller.run f w end)
  | HSweep raced stuck swept_at => Some (on_spool (fun s => Sweep raced stuck s swept_at) w)
  | HAcknowledged nm => Some (on_spool (fun s => (setDir (delete nm (dir s)) s, tt)) w)
  | HShutdown p => Some (Controller.runShutdown (flushers p) None w)
  end.
Definition run_all (hs : list happening) (w : option world) : option world := foldl (fun w h => w ≫= fun w => happen w h) w hs.

Lemma writers_in_turn p l k w : drop k (flushers p) = l ->
  run_all (HFlush p <$> seq k (length l)) (Some w) = Some (Controller.runFlushers l false w).
Proof.
  revert k w. induction l as [|f l IH]; intros k w Hl; [done|]. unfold Controller.runFlushers. cbn [length seq foldl]. rewrite fmap_cons.
  assert (flushers p !! k = Some f) as Hk.
  { pose proof (lookup_drop (flushers p) k 0) as H. rewrite Hl, Nat.add_0_r in H. by rewrite <-H. }
  assert (drop (S k) (flushers p) = l) as Hd by (rewrite <-Nat.add_1_r, <-drop_drop, Hl; done).
  cbn [andb]. specialize (IH (S k) (Controller.run f w) Hd). unfold run_all, Controller.runFlushers in *. cbn [foldl mbind option_bind happen].
  rewrite Hk. exact IH.
Qed.
(** A pass is its writers in turn, when nothing comes between them. *)
Lemma a_pass_is_its_writers p raced stuck swept_at w :
  run_all ((HFlush p <$> seq 0 (length (flushers p))) ++ [HSweep raced stuck swept_at]) (Some w) = happen w (HPass p raced stuck swept_at).
Proof. pose proof (writers_in_turn p (flushers p) 0 w eq_refl) as H. unfold run_all in *. rewrite foldl_app, H. cbn [foldl mbind option_bind happen]. unfold periodic. reflexivity. Qed.
End wiring.

(** ** Which role runs *)

Definition roleController : string := "controller".
Definition roleNode : string := "node".
Definition parseRole (args : list string) : string * list string :=
  match args with
  | a :: rest => if negb (HasPrefix a "-") then (a, rest) else (roleController, args)
  | [] => (roleController, args)
  end.
(** The status the process leaves with: [failed] says whether the role returned an
    error. *)
Definition exit_status (failed : string -> list string -> bool) (args : list string) : Z :=
  let '(role, rest) := parseRole args in
  if bool_decide (role = roleController) || bool_decide (role = roleNode) then if failed role rest then 1 else 0 else 2.

(** *** The heap's ceiling, memlimit.go *)

(** The constant 0.80 as a [float64]. *)
Definition memoryLimitFraction : Metrics.float64 := SpecFloat.S754_finite false 7205759403792794 (-53).
Definition memoryLimit (raw : string) : option Z :=
  bytes ← ParseInt raw;
  if bytes <=? 0 then None
  else Kubelet.truncate (SpecFloat.SFmul 53 1024 (Metrics.to_float bytes) memoryLimitFraction).
(** What [debug.SetMemoryLimit] is called with, if it is. *)
Definition applyMemoryLimit (env : option string) : option Z := raw ← env; memoryLimit raw.
Example memory_limits :
  applyMemoryLimit (Some "536870912"%string) = Some 429496729 /\ applyMemoryLimit (Some "9223372036854775807"%string) = Some 7378697629483821056 /\
  applyMemoryLimit (Some "1"%string) = Some 0 /\ applyMemoryLimit (Some "512Mi"%string) = None /\ applyMemoryLimit (Some "-1"%string) = None.
Proof. vm_compute. split_and!; reflexivity. Qed.

(** ** How the controller starts *)

(** What the configuration turns on. *)
Record settings := mkSettings {
  st_filter : Admission.Filter; st_spool : option Spool; st_topN : option Z; st_intake : option receiver; st_pprof : bool;
  st_pull : bool; st_allowed : list string; st_thirdParty : SymbolFilter.ThirdPartyPolicy;
}.

Definition DefaultNodeIntakeListenAddress : string := ":8080".
Definition DefaultNodeIntakeAudience : string := "rebuildstack-controller".
Definition or_default (s d : string) : string := if bool_decide (s = ""%string) then d else s.
(** [jwt] is the token check for an audience; without an expected subject there is
    no receiver to build. *)
Definition buildNodeIntake (jwt : string -> string -> option NodeIntake.nodeBoundClaims) (cfg : Config.NodeIntakeConfig)
    : option (string * receiver) :=
  let addr := or_default (Config.ni_ListenAddress cfg) DefaultNodeIntakeListenAddress in
  let audience := or_default (Config.ni_Audience cfg) DefaultNodeIntakeAudience in
  if bool_decide (Config.ni_ExpectedSubject cfg = ""%string) then None
  else Some (addr, mkReceiver (NodeIntake.mkVerifier (jwt audience) (Config.ni_ExpectedSubject cfg)) NodeIntake.NewHandler NodeIntake.NewProfileHandler).

(** The paths the receiver serves. *)
Definition reportPath : string := "/v1/node-inventory".
Definition profilePath : string := "/v1/node-profile".
Definition targetsPath : string := "/v1/node-targets".
Definition scopePath : string := "/v1/node-scope".
Definition NewServer (profile targets scope : bool) : list string :=
  [reportPath] ++ (if profile then [profilePath] else []) ++ (if targets then [targetsPath] else []) ++ (if scope then [scopePath] else []).
Definition routes (w : world) : list string :=
  match intake w with None => [] | Some _ => NewServer true (bool_decide (is_Some (publisher w))) true end.

(** [found] is the spool directory as it was; [None] is a startup failure. *)
Definition configured (jwt : string -> string -> option NodeIntake.nodeBoundClaims) (found : fs) (cfg : Config.Config)
    : option settings :=
  let ns := Config.Namespaces (Config.cf_Filters cfg) in let pf := Config.cf_Profiling cfg in
  let settings_with rc :=
    mkSettings (Admission.NewFilter (Config.Allow ns) (Config.Deny ns))
      (if bool_decide (Config.Dir (Config.cf_Spool cfg) = ""%string) then None
       else Some (NewSpool found (wrap64 (Config.MaxAgeHours (Config.cf_Spool cfg) * Hour))))
      (if Config.cp_Enabled pf then Some (Config.cp_TopN (Config.ControllerNormalized pf)) else None)
      rc (Config.pd_Enabled (Config.cp_Pprof pf)) (Config.pd_Pull (Config.cp_Pprof pf)) (Config.cp_AllowedModulePrefixes pf)
      (if bool_decide (Config.cp_ThirdPartySymbols pf = Config.ThirdPartySymbolsKeep) then SymbolFilter.ThirdPartyKeep else SymbolFilter.ThirdPartyDrop) in
  if Config.ni_Enabled (Config.cf_NodeIntake cfg)
  then '(_, rc) ← buildNodeIntake jwt (Config.cf_NodeIntake cfg); Some (settings_with (Some rc))
  else Some (settings_with None).

Definition newJournals : Controller.journals :=
  let len := Usage.UsageWindowLength in
  Controller.mkJournals (Restarts.mkRestarts len ∅) (Disruptions.mkDisruptions len ∅) (NodeEvents.mkNodeEvents len ∅)
    (States.mkStates len ∅ ∅) (Counters.fresh len ∅) (JobRuns.mkJobRuns len ∅) (Goroutines.mkGoroutines len ∅).

(** [run] up to the start of its tasks: [listed] and [dec] are what the startup
    read of the spool finds. *)
Definition start (dec : Recover.decoders) (listed : bool) (st : settings) (now : Time) : world :=
  let '(spool, poller, j) :=
    match st_spool st with
    | None => (None, Usage.NewUsagePoller, newJournals)
    | Some s => let '(s, p, j, _) := Controller.seedOpenWindows dec listed s Usage.NewUsagePoller newJournals now in (Some s, p, j)
    end in
  let spooled := bool_decide (is_Some spool) in
  let receiving := bool_decide (is_Some (st_intake st)) in
  let probing := receiving && st_pprof st in
  mkWorld (NewPodWatcher (st_filter st)) (Nodes.OnNodeLifecycle (Nodes.NewNodeWatcher now)) poller (Controller.mkAgent spool j)
    (Targeting.NewPublisher <$> st_topN st)
    (if receiving then Some (Inventory.NewStore now) else None)
    (if probing then Some ∅ else None)
    (if probing && st_pull st && spooled then Some (Pull.New (st_allowed st) (st_thirdParty st)) else None)
    (if probing && spooled then Some Readings.NewCounter else None) (st_intake st) 0 0 0.
