(* ===== verification/Placement.v ===== *)
(** Where the records of the journals are filed: under their own keys, in
    windows of the journal's length with printable names.  This is what the
    startup read relies on ([OnDisk], [Controller]); here every way a journal
    changes is shown to keep it. *)

From stdpp Require Import prelude gmap strings sorting.
From Stdlib Require Import ZArith Lia.
From S2P Require Import Prelude GoTime GoStrings Journal Model FileNames Spool Recover OnDisk Controller.
From S2P Require Spans Restarts Disruptions NodeEvents JobRuns Goroutines States Counters.
Local Open Scope Z_scope.

#[local] Existing Instances Restarts.Key_eq_dec Restarts.Key_countable
  Restarts.restart_record Restarts.restart_laws Disruptions.disruption_record Disruptions.disruption_laws
  Disruptions.disruption_event NodeEvents.node_event_record NodeEvents.node_event_laws NodeEvents.node_event
  JobRuns.job_run_record JobRuns.job_run_laws JobRuns.job_run_event
  Goroutines.goroutine_record Goroutines.goroutine_laws States.state_record States.state_laws
  Counters.counter_record Counters.counter_laws.

(** An instant whose window starts between the epoch and what an [int64] of
    nanoseconds after it can say (the years 1970 to 2262). *)
Definition in_range (len : Duration) (t : Time) : Prop := unixEpoch + len <= t <= unixEpoch + maxInt64.

Lemma in_range_window len t :
  good_length len -> in_range len t -> printable (mkWindowKey (Truncate t len) (Z.quot len Second)).
Proof.
  intros [Hl Hm] Ht. pose proof (Truncate_bounds len (proj1 Hl) t) as Hb.
  pose proof (Truncate_aligned len (proj1 Hl) t) as Ha. unfold printable, in_range in *. cbn [start seconds].
  apply Z.mod_divide in Hm as [q Hq]; [|unfold Second; lia].
  apply Z.mod_divide in Ha as [w Hw]; [|lia].
  assert (0 < q) by (unfold Second in Hq; lia).
  split; [lia|]. split; [|split; [lia|]].
  - rewrite Hw, Hq. unfold unixEpoch. replace (w * (q * Second) - 62135596800 * Second)
      with ((w * q - 62135596800) * Second) by lia. apply Z.mod_mul. unfold Second. lia.
  - rewrite Z.quot_div_nonneg by (unfold Second; lia). rewrite Hq, Z.div_mul by (unfold Second; lia).
    unfold Second in Hq. lia.
Qed.

Lemma in_range_between len a b t : in_range len a -> in_range len b -> a <= t <= b -> in_range len t.
Proof. unfold in_range. lia. Qed.

Section one_journal.
Context {R K O : Type} `{JournalLaws R K O} `{Countable K}.
Context (windowOf : R -> windowKey) (len : Duration) (Hlen : good_length len).
Implicit Types (m : gmap K R).

(** Every window begins at a multiple of the length, so two of them are the same
    or do not overlap. *)
Definition aligned m : Prop := forall k r, m !! k = Some r -> record_start r mod len = 0.
Definition well_placed m : Prop := placed windowOf len m /\ aligned m.

Lemma aligned_apart m k k' r r' :
  aligned m -> m !! k = Some r -> m !! k' = Some r' -> record_start r < record_start r' -> record_start r + len <= record_start r'.
Proof.
  intros Ha Hr%Ha Hr'%Ha Hlt. destruct Hlen as [Hl _].
  apply Z.mod_divide in Hr as [a Ea]; [|lia]. apply Z.mod_divide in Hr' as [b Eb]; [|lia].
  rewrite Ea, Eb in *. assert (a < b) by nia. nia.
Qed.

(** A record in the window of an instant. *)
Definition in_window_of (t : Time) (r : R) : Prop :=
  record_start r = Truncate t len /\ windowOf r = mkWindowKey (Truncate t len) (Z.quot len Second).

Lemma placed_empty : well_placed (∅ : gmap K R).
Proof. split; [split|]; by intros k r Hr%lookup_empty_Some. Qed.

Lemma placed_insert m r :
  well_placed m -> record_start r mod len = 0 ->
  windowOf r = mkWindowKey (record_start r) (Z.quot len Second) -> printable (windowOf r) ->
  well_placed (<[record_key r := r]> m).
Proof.
  intros [[Hf Hw] Ha] Hal Hr Hp. split; [split; [by apply filed_insert|]|].
  - intros k r' [[_ <-]|[_ Hk]]%lookup_insert_Some; [done|by apply (Hw k)].
  - intros k r' [[_ <-]|[_ Hk]]%lookup_insert_Some; [done|by apply (Ha k)].
Qed.

Lemma placed_insert_at m r t :
  well_placed m -> in_range len t -> in_window_of t r -> well_placed (<[record_key r := r]> m).
Proof.
  intros Hm Ht [Hs Hw]. apply placed_insert; [done|rewrite Hs; apply Truncate_aligned, Hlen|by rewrite Hw, Hs|].
  rewrite Hw. by apply in_range_window.
Qed.

(** A record replaced by one in the same place, or made for the window of [t]. *)
Lemma placed_update m key rec r t :
  well_placed m -> in_range len t ->
  m !! key = Some rec \/ (record_key rec = key /\ in_window_of t rec) ->
  record_key r = record_key rec -> windowOf r = windowOf rec -> record_start r = record_start rec ->
  well_placed (<[key := r]> m).
Proof.
  intros Hm Ht [Hk|[<- Hin]] Hkey Hw Hs.
  - pose proof Hm as [[Hf Hwn] Ha]. pose proof (Hf _ _ Hk) as <-. destruct (Hwn _ _ Hk) as [H1' H2']. rewrite <-Hkey.
    apply placed_insert; [done|rewrite Hs; by eapply Ha|by rewrite Hw, H1', Hs|by rewrite Hw].
  - rewrite <-Hkey. apply (placed_insert_at m r t); [done|done|].
    destruct Hin. split; [by rewrite Hs|by rewrite Hw].
Qed.

Lemma placed_close now m : well_placed m -> well_placed (close_before len now m).2.
Proof.
  intros [[Hf Hw] Ha]. split; [split; [by apply (filed_filter _ m)|]|].
  - intros k r [Hr _]%close_before_open. by apply (Hw k).
  - intros k r [Hr _]%close_before_open. by apply (Ha k).
Qed.

Lemma placed_resume m rs :
  (forall r, windowOf (record_adopt r) = windowOf r) ->
  well_placed m ->
  (forall r, r ∈ rs -> windowOf r = mkWindowKey (record_start (record_adopt r)) (Z.quot len Second) /\ printable (windowOf r) /\
     record_start (record_adopt r) mod len = 0) ->
  well_placed (resume m rs).1.
Proof.
  intros Hadopt [[Hf Hw] Ha] Hrs. split; [split; [by apply resume_filed|]|]; intros k r; unfold resume; rewrite resume_lookup;
    (destruct (m !! k) eqn:E; [intros [= <-]; first [by apply (Hw k)|by apply (Ha k)]|]);
    (destruct (head _) as [r0|] eqn:Eh; [|done]); intros [= <-];
    apply head_Some_elem_of, list_elem_of_filter in Eh as [_ Hr]; rewrite ?Hadopt; by destruct (Hrs r0 Hr) as (? & ? & ?).
Qed.
End one_journal.

Section events.
Context {E R K O : Type} `{JournalLaws R K O, !EventJournal E R K O} `{Countable K}.
Context (windowOf : R -> windowKey) (len : Duration) (at_of : E -> Time).

Lemma placed_event m e :
  good_length len -> in_range len (at_of e) ->
  (forall r, event_record len e = Some r -> in_window_of windowOf len (at_of e) r) ->
  well_placed windowOf len m -> well_placed windowOf len (file_event len m e).
Proof.
  intros Hl Ht Hr Hm. unfold file_event. destruct (event_record len e) as [r|]; [|done].
  by apply (placed_insert_at windowOf len Hl m r (at_of e)); [| |apply Hr].
Qed.
End events.

(** ** The journals with counters *)

Lemma restarts_placed len j e j' :
  good_length len -> Restarts.windowLength j = len -> in_range len (crObservedAt e) ->
  well_placed restart_window len (Restarts.open j) -> Restarts.Observe j e = Some j' ->
  well_placed restart_window len (Restarts.open j').
Proof.
  intros Hl <- Ht Hp. unfold Restarts.Observe. destruct (crRestarts e <=? 0); [by intros [= <-]|].
  cbn zeta. destruct (Restarts.fold_event e _) as [r'|] eqn:E; [|done]. cbn. intros [= <-]. cbn [Restarts.open].
  pose proof (Restarts.fold_event_key _ _ _ E) as Hk. apply Restarts.fold_event_window in E as [Hs Hw].
  apply (placed_update _ _ Hl _ _ (default (Restarts.new_record (Restarts.windowLength j) e)
           (Restarts.open j !! Restarts.event_key (Restarts.windowLength j) e)) r' (crObservedAt e) Hp Ht).
  - destruct (Restarts.open j !! _) as [r|] eqn:Er; [by left|by right].
  - cbn. by rewrite Hk, Hs.
  - unfold restart_window. by rewrite Hs, Hw.
  - exact Hs.
Qed.

Lemma goroutines_placed len g c :
  good_length len -> Goroutines.windowLength g = len -> in_range len (gcObservedAt c) ->
  well_placed goroutine_window len (Goroutines.open g) -> well_placed goroutine_window len (Goroutines.open (Goroutines.Observe g c)).
Proof.
  intros Hl <- Ht Hp. unfold Goroutines.Observe. destruct (gcGoroutines c <=? 0); [done|]. cbn [Goroutines.open].
  apply (placed_update _ _ Hl _ _ (default (Goroutines.new_record (Goroutines.windowLength g) c)
           (Goroutines.open g !! Goroutines.reading_key (Goroutines.windowLength g) c)) _ (gcObservedAt c) Hp Ht).
  - destruct (Goroutines.open g !! _) as [r|] eqn:Er; [by left|by right].
  - unfold Goroutines.add_sample. by destruct (_ <=? _)%nat.
  - unfold Goroutines.add_sample. by destruct (_ <=? _)%nat.
  - unfold Goroutines.add_sample. by destruct (_ <=? _)%nat.
Qed.

(** ** Spans *)

Lemma split_loop_starts len fuel lo from to :
  0 < len -> lo <= from -> Forall (fun s => lo <= Spans.span_start s <= to) (Spans.split_loop len to fuel from).
Proof.
  intros Hl. revert from. induction fuel as [|fuel IH]; intros from Hlo; [constructor|].
  cbn [Spans.split_loop]. unfold Before, After, Add. destruct (Z.ltb_spec from to); [|constructor].
  pose proof (Truncate_bounds len Hl from). constructor; [cbn; lia|]. apply IH. ltb_cases.
Qed.

(** ** The states journal *)

(** A change that keeps a record in its place. *)
Definition keeps_place (f : States.StateRecord -> States.StateRecord) : Prop :=
  forall r, record_key (f r) = record_key r /\ state_window (f r) = state_window r /\ record_start (f r) = record_start r.

Definition states_placed (len : Duration) (s : States.States) : Prop :=
  States.windowLength s = len /\ well_placed state_window len (States.open s) /\
  forall key l, States.seen s !! key = Some l -> in_range len (States.accruedTo l).

Lemma states_update_placed len s st t f :
  good_length len -> in_range len t -> keeps_place f -> states_placed len s -> states_placed len (States.update s st t f).
Proof.
  intros Hl Ht Hf (<- & Hp & Hs). split; [done|]. split; [|exact Hs]. cbn [States.update States.open].
  destruct (Hf (States.record s st t)) as (Hk & Hw & Hst).
  apply (placed_update _ _ Hl _ _ (States.record s st t) _ t Hp Ht); [|done..].
  unfold States.record. destruct (States.open s !! _) as [r|] eqn:E; [by left|by right].
Qed.

Lemma states_accrue_placed len s st l t :
  good_length len -> in_range len (States.accruedTo l) -> in_range len t ->
  states_placed len s -> states_placed len (States.accrue s st l t).
Proof.
  intros Hl Ha Ht Hs. unfold States.accrue. pose proof (proj1 Hs) as Hlen. unfold Spans.split. rewrite Hlen.
  pose proof (split_loop_starts len (Spans.split_fuel len (States.accruedTo l) t) (States.accruedTo l)
                (States.accruedTo l) t (proj1 (proj1 Hl)) (Z.le_refl _)) as Hss.
  clear Hlen. generalize dependent s. induction Hss as [|sp ss Hsp Hss IH]; intros s Hs; [done|]. cbn [foldl].
  apply IH. apply states_update_placed; [done|exact (in_range_between _ _ _ _ Ha Ht Hsp)| |done].
  intros r. unfold States.accrue_span. destruct (IsZero _); [done|]. by destruct (Before _ _).
Qed.

Lemma states_observe_one_placed len t s st :
  good_length len -> in_range len t -> states_placed len s -> states_placed len (States.observe_one t s st).
Proof.
  intros Hl Ht Hs. unfold States.observe_one. destruct (_ || _); [done|]. cbn zeta.
  set (s1 := match States.seen s !! States.seen_key st with Some p => _ | None => _ end).
  assert (states_placed len s1) as H1.
  { unfold s1. destruct (States.seen s !! States.seen_key st) as [l|] eqn:E; [|done]. destruct (After _ _); [|done].
    by apply states_accrue_placed; [|eapply Hs| |]. }
  set (s2 := match States.Since st with Some _ => _ | None => _ end).
  assert (states_placed len s2) as H2.
  { unfold s2. destruct (States.Since st); [|done]. unfold States.enter.
    case_bool_decide; [done|]. destruct (_ && _); (apply states_update_placed; [done..|by intros r|done]). }
  assert (states_placed len (States.stamp s2 st t)) as H3 by (by apply states_update_placed; [| |intros r|]).
  destruct H3 as (Hln & Hp & Hse). split; [done|]. split; [done|]. cbn [States.seen].
  intros key l [[_ <-]|[_ Hk]]%lookup_insert_Some; [done|by eapply Hse].
Qed.

Lemma states_observe_placed len t s sts :
  good_length len -> in_range len t -> states_placed len s -> states_placed len (States.Observe s t sts).
Proof.
  intros Hl Ht. unfold States.Observe. revert s. induction sts as [|st sts IH]; intros s Hs; [done|].
  cbn [foldl]. by apply IH, states_observe_one_placed.
Qed.

(** ** The counters journal *)

Definition counters_placed (len : Duration) (c : Counters.Counters) : Prop :=
  Counters.windowLength c = len /\ well_placed counter_window len (Counters.open c) /\
  (Counters.prevSince c = 0 \/ in_range len (Counters.prevAt c)).

Lemma counters_update_placed len c nm t f :
  good_length len -> in_range len t ->
  (forall r, record_key (f r) = record_key r /\ counter_window (f r) = counter_window r /\ record_start (f r) = record_start r) ->
  counters_placed len c -> counters_placed len (Counters.update c nm t f).
Proof.
  intros Hl Ht Hf (<- & Hp & Hs). split; [done|]. split; [|exact Hs]. cbn [Counters.update Counters.open].
  destruct (Hf (Counters.record c nm t)) as (Hk & Hw & Hst).
  apply (placed_update _ _ Hl _ _ (Counters.record c nm t) _ t Hp Ht); [|done..].
  unfold Counters.record. destruct (Counters.open c !! _) as [r|] eqn:E; [by left|by right].
Qed.

Lemma counters_fold_placed {A} len (step : Counters.Counters -> A -> Counters.Counters) (l : list A) c :
  Forall (fun x => forall c, counters_placed len c -> counters_placed len (step c x)) l ->
  counters_placed len c -> counters_placed len (foldl step c l).
Proof. intros Hl. revert c. induction Hl as [|x l Hx _ IH]; intros c Hc; [done|]. cbn. by apply IH, Hx. Qed.

Lemma counters_observe_placed len c t since readings :
  good_length len -> in_range len t -> counters_placed len c ->
  counters_placed len (Counters.Observe c t since readings).
Proof.
  intros Hl Ht Hc. unfold Counters.Observe. cbn zeta.
  set (c1 := if Counters.sameBase c since && After t (Counters.prevAt c) then Counters.accrue c t readings else c).
  assert (counters_placed len c1) as H1.
  { unfold c1. destruct (Counters.sameBase c since && After t (Counters.prevAt c)) eqn:E; [|done].
    apply andb_true_iff in E as [Hb _]. unfold Counters.sameBase, IsZero in Hb.
    apply andb_true_iff in Hb as [Hz%negb_true_iff%Z.eqb_neq _].
    destruct Hc as (Hlen & Hp & [?|Hat]); [done|]. unfold Counters.accrue. cbn zeta.
    apply counters_fold_placed.
    - apply Forall_true. intros nr c' Hc'. unfold Counters.rise. destruct (Counters.prev c' !! nr.1); [|done].
      destruct (_ <? _); [done|]. apply counters_update_placed; [done..|by intros r|done].
    - unfold Spans.split. rewrite Hlen. apply counters_fold_placed; [|by split; [|split; [|right]]].
      eapply Forall_impl; [apply (split_loop_starts len _ (Counters.prevAt c)); [apply Hl|lia]|].
      intros sp Hsp c' Hc'. unfold Counters.observe_span. apply counters_fold_placed; [|done].
      apply Forall_true. intros nr c'' Hc''.
      apply counters_update_placed; [done|exact (in_range_between _ _ _ _ Hat Ht Hsp)|by intros r|done]. }
  assert (counters_placed len (foldl (Counters.stamp t) c1 (map_to_list readings))) as (Hln & Hp & _).
  { apply counters_fold_placed; [|done]. apply Forall_true. intros nr c' Hc'.
    apply counters_update_placed; [done..|by intros r|done]. }
  split; [done|]. split; [done|by right].
Qed.

(** ** Properties *)

(** C20. Every journal keeps its records placed, so a restart can always resume it:
    each starts with none, and every observation at an instant between 1970 and
    2262 leaves every record under its own key, in a window of the journal's
    length that begins at a multiple of it, so that no two windows overlap
    ([aligned_apart]), and whose file name says it exactly. *)
Theorem observations_stay_placed (len : Duration) :
  good_length len ->
  (forall j e j', Restarts.windowLength j = len -> in_range len (crObservedAt e) ->
     well_placed restart_window len (Restarts.open j) -> Restarts.Observe j e = Some j' ->
     well_placed restart_window len (Restarts.open j')) /\
  (forall j e, Disruptions.windowLength j = len -> in_range len (pdDisruptedAt e) ->
     well_placed disruption_window len (Disruptions.open j) ->
     well_placed disruption_window len (Disruptions.open (Disruptions.Observe j e))) /\
  (forall j e, NodeEvents.windowLength j = len -> in_range len (nlAt e) ->
     well_placed node_window len (NodeEvents.open j) -> well_placed node_window len (NodeEvents.open (NodeEvents.Observe j e))) /\
  (forall j e, JobRuns.windowLength j = len -> in_range len (jrFinishedAt e) ->
     well_placed job_window len (JobRuns.open j) -> well_placed job_window len (JobRuns.open (JobRuns.Observe j e))) /\
  (forall j e, Goroutines.windowLength j = len -> in_range len (gcObservedAt e) ->
     well_placed goroutine_window len (Goroutines.open j) ->
     well_placed goroutine_window len (Goroutines.open (Goroutines.Observe j e))) /\
  (forall j t sts, in_range len t -> states_placed len j -> states_placed len (States.Observe j t sts)) /\
  (forall j t since readings, in_range len t -> counters_placed len j ->
     counters_placed len (Counters.Observe j t since readings)).
Proof.
  intros Hl. split; [intros j e j' Hj Ht; by apply (restarts_placed len)|].
  split; [|split; [|split; [|split; [|split]]]].
  - intros j e <- Ht. apply (placed_event _ _ pdDisruptedAt _ e Hl Ht).
    intros r. unfold event_record, Disruptions.disruption_event. destruct (IsZero _); [done|]. by intros [= <-].
  - intros j e <- Ht. apply (placed_event _ _ nlAt _ e Hl Ht).
    intros r. unfold event_record, NodeEvents.node_event. destruct (_ || _); [done|]. by intros [= <-].
  - intros j e <- Ht. apply (placed_event _ _ jrFinishedAt _ e Hl Ht).
    intros r. unfold event_record, JobRuns.job_run_event. destruct (IsZero _); [done|]. by intros [= <-].
  - intros j e Hj Ht. by apply goroutines_placed.
  - intros j t sts Ht. by apply states_observe_placed.
  - intros j t since readings Ht. by apply counters_observe_placed.
Qed.

Lemma observations_stay_placed_witness :
  well_placed restart_window Hour (Restarts.open (default (Restarts.mkRestarts Hour ∅)
    (Restarts.Observe (Restarts.mkRestarts Hour ∅) (Restarts.demo_event 2 "Error" (demo_hour + Minute))))).
Proof.
  destruct (Restarts.Observe (Restarts.mkRestarts Hour ∅) (Restarts.demo_event 2 "Error" (demo_hour + Minute))) as [j'|] eqn:E.
  - apply (proj1 (observations_stay_placed Hour ltac:(vm_compute; intuition discriminate))
             (Restarts.mkRestarts Hour ∅) (Restarts.demo_event 2 "Error" (demo_hour + Minute)) j');
      [reflexivity|vm_compute; intuition discriminate|apply placed_empty|exact E].
  - apply placed_empty.
Defined.
