(* ===== verification/Handover.v ===== *)
(** Where shipping and resuming meet: the spool is at once the queue the shipper
    empties ([internal/shipper]) and the memory a restart resumes from
    ([internal/sink/recover.go], [cmd/agent/recover.go]). *)

From stdpp Require Import prelude gmap strings.
From Stdlib Require Import ZArith Lia.
From S2P Require Import Prelude GoTime GoStrings Registry FileNames Spool Recover OnDisk.
From S2P Require Usage Shipper Controller.
Local Open Scope Z_scope.

(** A round in which the backend takes everything: every payload can be read, is
    within the ceiling, names a registered kind, is answered 2xx and removed, and
    no writer interferes. *)
Definition taken (envelope_kind : string -> option string) (ws : string -> Shipper.delivery) (d : Shipper.sdir) : Prop :=
  forall n f, d !! n = Some (Shipper.SFile f) -> HasSuffix n ".tmp" = false ->
    (exists kind, Shipper.offerable envelope_kind (ws n) f kind) /\
    (exists status, Shipper.answer (ws n) = Some status /\ Shipper.success status) /\
    Shipper.cancelled (ws n) = false /\ Shipper.removable (ws n) = true /\
    (forall d, Shipper.meanwhile (ws n) d = d).

Lemma deliver_taken envelope_kind w n s d f kind status :
  d !! n = Some (Shipper.SFile f) -> Shipper.offerable envelope_kind w f kind ->
  Shipper.answer w = Some status -> Shipper.success status -> Shipper.removable w = true ->
  (forall d, Shipper.meanwhile w d = d) ->
  exists s' posted, Shipper.deliver envelope_kind w n s d = (s', delete n d, true, posted).
Proof.
  intros Hf (Hr & Hsz & Hk) Ha [H1 H2] Hrm Hm. unfold Shipper.deliver. rewrite Hf, Hr, Hk, Ha, Hm. cbn [negb].
  destruct (Z.ltb_spec Shipper.MaxPayloadBytes (size_of (Shipper.content f))); [lia|].
  destruct (Z.leb_spec 200 status), (Z.ltb_spec status 300); try lia. cbn [andb].
  unfold Shipper.acknowledged. rewrite Hf, bool_decide_eq_true_2, Hrm by done. cbn [negb]. by do 2 eexists.
Qed.

Lemma ship_loop_taken envelope_kind ws l s d :
  NoDup (Shipper.sp_name <$> l) ->
  (forall f, f ∈ l -> exists g kind status,
     d !! Shipper.sp_name f = Some (Shipper.SFile g) /\ Shipper.offerable envelope_kind (ws (Shipper.sp_name f)) g kind /\
     Shipper.answer (ws (Shipper.sp_name f)) = Some status /\ Shipper.success status /\
     Shipper.cancelled (ws (Shipper.sp_name f)) = false /\ Shipper.removable (ws (Shipper.sp_name f)) = true /\
     (forall d, Shipper.meanwhile (ws (Shipper.sp_name f)) d = d)) ->
  let '(_, d', _) := Shipper.ship_loop envelope_kind ws l s d in
  forall n, d' !! n = if decide (n ∈ Shipper.sp_name <$> l) then None else d !! n.
Proof.
  revert s d. induction l as [|f l IH]; intros s d Hnd Hl; [intros n; by rewrite decide_False by apply not_elem_of_nil|].
  rewrite fmap_cons in Hnd. apply NoDup_cons in Hnd as [Hf Hnd].
  destruct (Hl f (list_elem_of_here _ _)) as (g & kind & status & Hg & Ho & Ha & Hs & Hc & Hr & Hm).
  cbn [Shipper.ship_loop]. rewrite Hc.
  destruct (deliver_taken envelope_kind _ (Shipper.sp_name f) s d g kind status Hg Ho Ha Hs Hr Hm) as (s' & posted & ->).
  specialize (IH s' (delete (Shipper.sp_name f) d) Hnd). 
  destruct (Shipper.ship_loop envelope_kind ws l s' _) as [[s2 d2] attempted]. rewrite fmap_cons.
  intros n. rewrite IH.
  - destruct (decide (n = Shipper.sp_name f)) as [->|Hne].
    + rewrite decide_False by done. rewrite decide_True by apply list_elem_of_here. apply lookup_delete_eq.
    + rewrite lookup_delete_ne by done.
      destruct (decide (n ∈ Shipper.sp_name <$> l)) as [Hin|Hin].
      * by rewrite decide_True by (by apply list_elem_of_further).
      * by rewrite decide_False by (by intros [?|?]%elem_of_cons).
  - intros x Hx. destruct (Hl x (list_elem_of_further _ _ _ Hx)) as (g' & k' & st' & Hg' & Hrest).
    exists g', k', st'. split; [|exact Hrest]. rewrite lookup_delete_ne; [done|].
    intros E. apply Hf. rewrite E. by apply list_elem_of_fmap_2.
Qed.

(** Only directories and temp files are left. *)
Definition emptied (d : fs) : Prop := forall n nd, d !! n = Some nd -> nd = DirNode \/ HasSuffix n ".tmp" = true.

Lemma round_taken envelope_kind ws s d :
  Shipper.halted s = false -> Shipper.held s = ∅ -> taken envelope_kind ws d ->
  emptied (Shipper.spool_dir (Shipper.Round envelope_kind ∅ ws s d).1.2).
Proof.
  intros Hh Hheld Ht. unfold Shipper.Round. rewrite Hh.
  pose proof (Shipper.elem_of_pending ∅ s d) as Hin. pose proof (Shipper.pending_names_NoDup ∅ s d) as Hnd.
  destruct (Shipper.pending ∅ s d) as [l s1]. cbn [fst] in *.
  pose proof (ship_loop_taken envelope_kind ws l s1 d Hnd) as H.
  destruct (Shipper.ship_loop envelope_kind ws l s1 d) as [[s2 d2] attempted]. cbn [fst snd].
  intros n nd Hn. unfold Shipper.spool_dir in Hn. rewrite lookup_fmap in Hn.
  destruct (d2 !! n) as [x|] eqn:E; [|done]. cbn in Hn. injection Hn as <-. rewrite H in E.
  - destruct (decide (n ∈ Shipper.sp_name <$> l)) as [|Hl]; [done|].
    destruct x as [|f]; [by left|right]. destruct (HasSuffix n ".tmp") eqn:Et; [done|exfalso]. apply Hl.
    apply list_elem_of_fmap. exists (Shipper.mkSpooled n (Shipper.modified f)). split; [done|].
    apply Hin. exists f. cbn [Shipper.sp_name Shipper.sp_modTime]. rewrite Hheld, lookup_empty.
    by repeat split.
  - intros f Hf. apply Hin in Hf as (g & Hg & _ & Hsuf & _).
    destruct (Ht _ _ Hg Hsuf) as ([kind Ho] & (status & Ha & Hs) & Hc & Hr & Hm). by exists g, kind, status.
Qed.

(** ** A startup over an emptied spool *)

Lemma tmp_not_json n : HasSuffix n ".tmp" = true -> HasSuffix n ".json" = false /\ HasSuffix n usageSnapshotSuffix = false.
Proof.
  intros [r ->]%HasSuffix_Some. unfold usageSnapshotSuffix. split; apply not_true_iff_false; intros [r' E]%HasSuffix_Some;
    apply (f_equal last_char) in E; by rewrite !last_char_app in E.
Qed.

Lemma recover_emptied dec s now :
  emptied (dir s) -> (RecoverOpenWindows dec s now).1 = no_recovery.
Proof.
  intros He. unfold RecoverOpenWindows, recoverJournals. cbn [fst].
  assert (forall n nd, (n, nd) ∈ entries (dir s) -> nd = DirNode \/ HasSuffix n ".tmp" = true) as Hen
    by (intros n nd ?%elem_of_entries; by eapply He).
  assert (forall es rec, (forall n nd, (n, nd) ∈ es -> nd = DirNode \/ HasSuffix n ".tmp" = true) ->
            foldl (recover_usage dec (dir s) now) rec es = rec /\ foldl (recover_entry dec (dir s) now) rec es = rec) as Hfold.
  { induction es as [|[n nd] es IH]; intros rec Hes; [done|]. cbn [foldl].
    assert (recover_usage dec (dir s) now rec (n, nd) = rec /\ recover_entry dec (dir s) now rec (n, nd) = rec) as [-> ->].
    { unfold recover_usage, recover_entry. cbn [fst snd]. destruct nd as [|data m]; [done|].
      destruct (Hes n (FileNode data m) (list_elem_of_here _ _)) as [|Ht]; [done|].
      by destruct (tmp_not_json n Ht) as [-> ->]. }
    apply IH. intros n' nd' Hin. apply Hes. by apply list_elem_of_further. }
  rewrite (proj1 (Hfold _ _ Hen)). apply (Hfold _ _ Hen).
Qed.

(** ** Properties *)

(** C21. Delivery undoes resumption: once a round has delivered what the spool
    held, open windows included, a restart of the agent resumes nothing — not one
    journal record and not one usage record — so the next write of each open
    window, under the key the backend already has it under, starts over from
    what the new process saw. *)
Theorem delivered_windows_are_not_resumed (envelope_kind : string -> option string)
    (ws : string -> Shipper.delivery) (ship : Shipper.Shipper) (d : Shipper.sdir) (dec : decoders) (s : Spool)
    (poller : Usage.UsagePoller) (j : Controller.journals) (now : Time) :
  Shipper.halted ship = false -> Shipper.held ship = ∅ -> taken envelope_kind ws d ->
  dir s = Shipper.spool_dir (Shipper.Round envelope_kind ∅ ws ship d).1.2 ->
  let '(_, poller', j', seeded) := Controller.seedOpenWindows dec true s poller (Controller.new_journals j) now in
  poller' = poller /\ j' = Controller.new_journals j /\ seeded = 0.
Proof.
  intros Hh Hheld Ht Hd. unfold Controller.seedOpenWindows. cbn [negb].
  pose proof (round_taken envelope_kind ws ship d Hh Hheld Ht) as He. rewrite <-Hd in He.
  pose proof (recover_emptied dec s now He) as Hr.
  destruct (RecoverOpenWindows dec s now) as [rec s']. cbn [fst] in Hr. subst rec. done.
Qed.

(** The open hour of [Controller.demo_journals], on disk and then delivered. *)
Definition demo_dir : Shipper.sdir :=
  {[journalWindowName restartsNamePrefix (mkWindowKey Controller.demo_hour 3600)
      := Shipper.SFile (Shipper.mkSFile 7 (document "{}") (Controller.demo_hour + 30 * Minute))]}.

Lemma delivered_windows_are_not_resumed_witness :
  let ws := fun _ => Shipper.demo_delivery 200 in
  let s := setDir (Shipper.spool_dir (Shipper.Round Shipper.demo_kind ∅ ws Shipper.demo_shipper demo_dir).1.2) (NewSpool ∅ 0) in
  let '(_, poller', j', seeded) :=
    Controller.seedOpenWindows Controller.demo_decoders true s Usage.NewUsagePoller
      (Controller.new_journals Controller.demo_journals) (Controller.demo_hour + 31 * Minute) in
  poller' = Usage.NewUsagePoller /\ j' = Controller.new_journals Controller.demo_journals /\ seeded = 0.
Proof.
  intros ws s.
  apply (delivered_windows_are_not_resumed Shipper.demo_kind ws Shipper.demo_shipper demo_dir Controller.demo_decoders s
           Usage.NewUsagePoller Controller.demo_journals (Controller.demo_hour + 31 * Minute) eq_refl eq_refl).
  - intros n f Hn _. unfold demo_dir in Hn. apply lookup_singleton_Some in Hn as [_ [= <-]]. split.
    + exists "container_restarts"%string. split; [done|]. split; [vm_compute; discriminate|reflexivity].
    + split; [exists 200; split; [done|split; lia]|done].
  - reflexivity.
Defined.
