(* ===== verification/Consent.v ===== *)
(** The controller's promise, over the assembled controller of Wiring.v: nothing
    it writes names an object that did not consent to being collected.

    What was seen to consent grows with the events.  The invariant says that what
    every component holds (journals, accumulators, inventory) names only what was
    seen; each step keeps it, and each payload a step writes is built from it. *)

From stdpp Require Import prelude gmap strings list.
From Stdlib Require Import ZArith Lia Ascii.
From S2P Require Import Prelude GoTime GoStrings FileNames Journal PodWatcher PodIndex Spool OnDisk Writers Wiring.
From S2P Require Model Admission Cluster Nodes Usage UsageRecord Restarts Disruptions JobRuns NodeEvents Goroutines States Counters.
From S2P Require Metadata Revisions Policy Targeting NodeIntake NodeReport Contributions Inventory Probe Readings SymbolFilter Pull.
From S2P Require Shipper Recover Controller Config Accumulator Network Windowing Registry Cadence Handover.
#[local] Existing Instances Probe.Target_eq_dec Probe.Target_countable.
#[local] Existing Instances Restarts.Key_eq_dec Restarts.Key_countable
  Restarts.restart_record Restarts.restart_laws Disruptions.disruption_record Disruptions.disruption_laws
  NodeEvents.node_event_record NodeEvents.node_event_laws JobRuns.job_run_record JobRuns.job_run_laws
  Goroutines.goroutine_record Goroutines.goroutine_laws States.state_record States.state_laws
  Counters.counter_record Counters.counter_laws.
Local Open Scope Z_scope.

(** ** What was seen to consent *)

Definition about_pod (e : event) : option (Cluster.caches * Cluster.Pod) :=
  match e with EAdd c _ p | EUpdate c _ _ p => Some (c, p) | _ => None end.

(** A pod of this namespace, name and workload, as an event that found it consenting. *)
Definition event_pod (f : Admission.Filter) (es : list event) (ns nm : string) (wl : Model.WorkloadRef) : Prop :=
  exists e c p, e ∈ es /\ about_pod e = Some (c, p) /\ consents f c p /\
    Cluster.Namespace (Cluster.p_meta p) = ns /\ Cluster.ObjName (Cluster.p_meta p) = nm /\ resolveWorkload c p = wl.
Definition event_job (f : Admission.Filter) (es : list event) (ns nm : string) (wl : Model.WorkloadRef) : Prop :=
  exists c now j, EJob c now j ∈ es /\ job_consents f c j /\
    Cluster.Namespace (Cluster.j_meta j) = ns /\ Cluster.ObjName (Cluster.j_meta j) = nm /\ resolveJobWorkload j = wl.

(** Pods and jobs, by their names and workload. *)
Record memory := mkMemory { m_pod : string -> string -> Model.WorkloadRef -> Prop; m_job : string -> string -> Model.WorkloadRef -> Prop }.
Definition nobody : memory := mkMemory (fun _ _ _ => False) (fun _ _ _ => False).

(** What a payload names is among these.  The payloads about nodes, the agent itself and
    a build by its digest name no pod, job or workload. *)
Definition names (m : memory) (p : payload) : Prop :=
  let pod := m_pod m in
  let workload ns wl := exists nm, pod ns nm wl in
  let of_key k := workload (Contributions.kNamespace k) (Model.mkWorkloadRef (Contributions.kWorkloadKind k) (Contributions.kWorkloadName k)) in
  match p with
  | ContainerRestarts _ _ rs =>
      forall r, r ∈ rs -> pod (Restarts.Namespace (Restarts.RKey r)) (Restarts.Pod (Restarts.RKey r)) (Restarts.Workload r)
  | PodDisruptions _ _ rs => forall r, r ∈ rs -> pod (Disruptions.Namespace r) (Disruptions.Pod r) (Disruptions.Workload r)
  | GoroutineCounts _ _ rs =>
      forall r, r ∈ rs -> pod (Restarts.Namespace (Goroutines.RKey r)) (Restarts.Pod (Goroutines.RKey r)) (Goroutines.Workload r)
  | OOM e => pod (Model.okNamespace e) (Model.okPod e) (Model.okWorkload e)
  | RestartCounters _ rs => forall r, r ∈ rs -> pod (Model.rcNamespace r) (Model.rcPod r) (Model.rcWorkload r)
  | JobRuns _ _ rs => forall r, r ∈ rs -> m_job m (JobRuns.Namespace r) (JobRuns.Name r) (JobRuns.Workload r)
  | UsageSnapshot _ _ rs | UsageWindow _ _ rs =>
      forall r, r ∈ rs -> workload (UsageRecord.Namespace (UsageRecord.RKey r))
        (Model.mkWorkloadRef (UsageRecord.WorkloadKind (UsageRecord.RKey r)) (UsageRecord.WorkloadName (UsageRecord.RKey r)))
  | NetworkWindow _ _ rs =>
      forall r, r ∈ rs -> workload (Network.NNamespace (Network.NKey r))
        (Model.mkWorkloadRef (Network.NWorkloadKind (Network.NKey r)) (Network.NWorkloadName (Network.NKey r)))
  | WorkloadMetadata _ rs =>
      forall r, r ∈ rs -> workload (Metadata.kNamespace (Metadata.mKey r))
        (Model.mkWorkloadRef (Metadata.kWorkloadKind (Metadata.mKey r)) (Metadata.kWorkloadName (Metadata.mKey r)))
  | WorkloadRevisions _ rs => forall r, r ∈ rs -> workload (Revisions.rrNamespace r) (Revisions.rrWorkload r)
  | WorkloadPolicy _ _ rs => forall r, r ∈ rs -> workload (Policy.wpNamespace r) (Policy.wpWorkload r)
  | ClusterPolicy _ _ c => forall n, n ∈ Policy.cpNamespaces c -> exists wl, workload (Policy.npNamespace n) wl
  | GoInventory _ _ rs => forall r, r ∈ rs -> of_key (Inventory.g_Key r)
  | ProcessPeaks _ rs => forall r, r ∈ rs -> of_key (Contributions.bKey (Inventory.pk_Key r))
  | ProcessCounters _ rs => forall r, r ∈ rs -> of_key (Contributions.bKey (Inventory.cr_Key r))
  | ListeningPorts _ rs => forall r, r ∈ rs -> of_key (Contributions.bKey (Inventory.pr_Key r))
  | EBPFProfile k _ | PprofProfile k _ _ => exists kind, workload (FileNames.Namespace k) (Model.mkWorkloadRef kind (FileNames.Workload k))
  | CollectionCoverage _ _ | AgentStates _ _ _ | AgentCounters _ _ _ | NodeMetadata _ _ | NodeLifecycle _ _ _ | GoBuild _ => True
  end.

Lemma names_more (m m' : memory) p :
  (forall ns nm wl, m_pod m ns nm wl -> m_pod m' ns nm wl) -> (forall ns nm wl, m_job m ns nm wl -> m_job m' ns nm wl) ->
  names m p -> names m' p.
Proof. intros Hp Hj. destruct p; cbn; naive_solver. Qed.

(** Everything up to a life of the process is relative to what earlier lives had
    seen, which the spool may still hold. *)
Section consent.
Context (past : memory).

Definition seen_pod (f : Admission.Filter) (es : list event) (ns nm : string) (wl : Model.WorkloadRef) : Prop :=
  m_pod past ns nm wl \/ event_pod f es ns nm wl.
Definition seen_job (f : Admission.Filter) (es : list event) (ns nm : string) (wl : Model.WorkloadRef) : Prop :=
  m_job past ns nm wl \/ event_job f es ns nm wl.
Definition seen (f : Admission.Filter) (es : list event) : memory := mkMemory (seen_pod f es) (seen_job f es).
Definition seen_workload (f : Admission.Filter) (es : list event) (ns : string) (wl : Model.WorkloadRef) : Prop :=
  exists nm, seen_pod f es ns nm wl.
Definition may_hold (f : Admission.Filter) (es : list event) (p : payload) : Prop := names (seen f es) p.

Lemma seen_pod_more f es es' ns nm wl : es ⊆ es' -> seen_pod f es ns nm wl -> seen_pod f es' ns nm wl.
Proof. intros Hs [H|(e & c & p & He & H)]; [by left|right]. exists e, c, p. split; [by apply Hs|done]. Qed.
Lemma seen_workload_more f es es' ns wl : es ⊆ es' -> seen_workload f es ns wl -> seen_workload f es' ns wl.
Proof. intros Hs [nm H]. exists nm. by eapply seen_pod_more. Qed.
Lemma seen_job_more f es es' ns nm wl : es ⊆ es' -> seen_job f es ns nm wl -> seen_job f es' ns nm wl.
Proof. intros Hs [H|(c & now & j & He & H)]; [by left|right]. exists c, now, j. split; [by apply Hs|done]. Qed.
Lemma may_hold_more f es es' p : es ⊆ es' -> may_hold f es p -> may_hold f es' p.
Proof. intros Hs. apply names_more; intros ns nm wl; [by apply seen_pod_more|by apply seen_job_more]. Qed.

Lemma latest_seen es uid c p : latest es uid = Some (c, p) -> exists e, e ∈ es /\ about_pod e = Some (c, p).
Proof.
  induction es as [|e es IH] using rev_ind; [by intros|]. rewrite latest_snoc. intros H.
  assert (latest es uid = Some (c, p) \/ about_pod e = Some (c, p)) as [Hl|He].
  { destruct e; cbn in *; auto; case_bool_decide; auto; done. }
  - destruct (IH Hl) as (e' & Hin & He'). exists e'. split; [set_solver|done].
  - exists e. split; [set_solver|done].
Qed.
Lemma collected_seen f es uid c p : collected f es uid c p ->
  seen_pod f es (Cluster.Namespace (Cluster.p_meta p)) (Cluster.ObjName (Cluster.p_meta p)) (resolveWorkload c p).
Proof. intros [Hl Hc]. destruct (latest_seen _ _ _ _ Hl) as (e & He & Ha). right. by exists e, c, p. Qed.

(** ** What a callback names *)

Definition report_names (f : Admission.Filter) (es : list event) (r : report) : Prop :=
  match r with
  | RPod _ => True
  | ROOM k => seen_pod f es (Model.okNamespace k) (Model.okPod k) (Model.okWorkload k)
  | RRestart e => seen_pod f es (Model.crNamespace e) (Model.crPod e) (Model.crWorkload e)
  | RDisruption d => seen_pod f es (Model.pdNamespace d) (Model.pdPod d) (Model.pdWorkload d)
  | RJob r => seen_job f es (Model.jrNamespace r) (Model.jrName r) (Model.jrWorkload r)
  end.

Section reports.
Context (P : report -> Prop) (c : Cluster.caches) (p : Cluster.Pod).
Hypothesis Pod_report : forall r, (match r with
  | RPod _ => True
  | ROOM k => Model.okNamespace k = Cluster.Namespace (Cluster.p_meta p) /\ Model.okPod k = Cluster.ObjName (Cluster.p_meta p) /\ Model.okWorkload k = resolveWorkload c p
  | RRestart e => Model.crNamespace e = Cluster.Namespace (Cluster.p_meta p) /\ Model.crPod e = Cluster.ObjName (Cluster.p_meta p) /\ Model.crWorkload e = resolveWorkload c p
  | RDisruption d => Model.pdNamespace d = Cluster.Namespace (Cluster.p_meta p) /\ Model.pdPod d = Cluster.ObjName (Cluster.p_meta p) /\ Model.pdWorkload d = resolveWorkload c p
  | RJob _ => False end) -> P r.

Lemma foldl_reports {A} (g : PodWatcher * list report -> A -> PodWatcher * list report) l :
  (forall out a, Forall P out.2 -> Forall P (g out a).2) -> forall out, Forall P out.2 -> Forall P (foldl g out l).2.
Proof. intros Hg. induction l as [|a l IH]; intros out H; cbn [foldl]; [done|]. by apply IH, Hg. Qed.

Lemma observe_pod_reports clk b w : Forall P (observe_pod c clk p b w).2.
Proof.
  unfold observe_pod. set (w0 := indexPod _ _ _ _).
  assert (H1 : Forall P (reportPodIfChanged (Cluster.UID (Cluster.p_meta p)) (describe c p) w0).2).
  { unfold reportPodIfChanged. case_match; cbn; [done|]. constructor; [by apply Pod_report|done]. }
  destruct (reportPodIfChanged _ _ _) as [w1 r1]. cbn [snd] in H1.
  assert (H2 : Forall P (reportOOMKills c p w1).2).
  { apply foldl_reports; [|done]. intros out s Ho. apply foldl_reports; [|done]. clear Ho.
    intros [w' rs] t Ho. unfold report_oom. cbn [snd] in Ho. repeat case_match; try done. cbn.
    apply Forall_app. split; [done|]. constructor; [by apply Pod_report|done]. }
  destruct (reportOOMKills _ _ _) as [w2 r2]. cbn [snd] in H2.
  assert (H3 : Forall P (reportRestarts c (restarts_at clk) p w2).2).
  { apply foldl_reports; [|done]. intros [w' rs] s Ho. unfold report_restart. cbn [snd] in Ho.
    repeat case_match; try done. cbn. apply Forall_app. split; [done|]. constructor; [by apply Pod_report|done]. }
  destruct (reportRestarts _ _ _ _) as [w3 r3]. cbn [snd] in H3.
  assert (H4 : Forall P (reportDisruptions c (condition_at clk) p w3).2).
  { unfold reportDisruptions. repeat case_match; cbn; try done. constructor; [by apply Pod_report|done]. }
  destruct (reportDisruptions _ _ _ _) as [w4 r4]. cbn [snd] in H4 |- *. rewrite !Forall_app. done.
Qed.
End reports.

Lemma step_names f es w e :
  same_rules f (filter_ w) -> Forall (report_names f (es ++ [e])) (step w e).2.
Proof.
  intros Hf.
  assert (Hpod : forall c p, about_pod e = Some (c, p) -> collect (decide_pod c p f) = true -> forall clk b w',
    Forall (report_names f (es ++ [e])) (observe_pod c clk p b w').2).
  { intros c p He Hc%decide_pod_consents clk b w'. apply observe_pod_reports.
    intros r Hr. destruct r; cbn in *; try done; destruct Hr as (-> & -> & ->); right; exists e, c, p; (split; [set_solver|done]). }
  destruct e as [c clk p|c clk old p|p|c now job|job]; cbn [step]; try done.
  - unfold AddFunc, admit_pod. rewrite (decide_pod_rules _ _ _ _ Hf). destruct (collect _) eqn:Hc; [|done]. by eapply Hpod.
  - unfold UpdateFunc, admit_pod. rewrite (decide_pod_rules _ _ _ _ Hf). destruct (collect _) eqn:Hc; [|done].
    pose proof (Hpod c p eq_refl Hc clk (profile (decide_pod c p f)) (setFilter (count_admission c p (decide_pod c p f) (filter_ w)) w)) as H.
    cbn beta iota. match goal with |- context [observe_pod c clk p ?b ?w'] => pose proof (Hpod c p eq_refl Hc clk b w') as H'; destruct (observe_pod c clk p b w') end.
    exact H'.
  - unfold reportJobRun. destruct (jobOutcomeOf now job) as [[[]]|]; [|done].
    destruct (admitJob c job w) as [w1 a] eqn:Ha. destruct a; cbn [negb]; [|done]. case_match; [done|]. cbn.
    constructor; [|done]. right. exists c, now, job. split; [set_solver|]. split; [|done].
    unfold admitJob in Ha. apply (f_equal snd), bool_decide_eq_true in Ha.
    apply AdmitJob_consents. rewrite <-Ha. unfold Admission.AdmitJob, Admission.namespaceAllowed. by destruct Hf as [-> ->].
Qed.

(** ** What the journals hold *)

Section held.
Context (f : Admission.Filter) (es : list event).

Definition restart_ok (r : Restarts.RestartRecord) : Prop :=
  seen_pod f es (Restarts.Namespace (Restarts.RKey r)) (Restarts.Pod (Restarts.RKey r)) (Restarts.Workload r) /\ is_Some (Restarts.Reasons r).
Definition disruption_ok (r : Disruptions.DisruptionRecord) : Prop :=
  seen_pod f es (Disruptions.Namespace r) (Disruptions.Pod r) (Disruptions.Workload r).
Definition job_ok (r : JobRuns.JobRunRecord) : Prop := seen_job f es (JobRuns.Namespace r) (JobRuns.Name r) (JobRuns.Workload r).
Definition goroutine_ok (r : Goroutines.GoroutineRecord) : Prop :=
  seen_pod f es (Restarts.Namespace (Goroutines.RKey r)) (Restarts.Pod (Goroutines.RKey r)) (Goroutines.Workload r).

Record journals_ok (j : Controller.journals) : Prop := {
  ok_restarts : map_Forall (fun _ => restart_ok) (Restarts.open (Controller.restarts j));
  ok_disruptions : map_Forall (fun _ => disruption_ok) (Disruptions.open (Controller.disruptions j));
  ok_jobs : map_Forall (fun _ => job_ok) (JobRuns.open (Controller.jobs j));
  ok_goroutines : map_Forall (fun _ => goroutine_ok) (Goroutines.open (Controller.goroutines j));
}.

Lemma fold_event_names e r : is_Some (Restarts.Reasons r) ->
  exists r', Restarts.fold_event e r = Some r' /\ Restarts.RKey r' = Restarts.RKey r /\ Restarts.Workload r' = Restarts.Workload r /\
    is_Some (Restarts.Reasons r').
Proof.
  intros [m Hm]. unfold Restarts.fold_event, Restarts.countReason. case_bool_decide; [by eexists; split; [done|]|]. cbn. rewrite Hm. cbn.
  eexists. split; [done|]. unfold Restarts.setExitCode. by case_match.
Qed.

(** The restart journal never panics on what it holds. *)
Lemma restarts_observe j e :
  map_Forall (fun _ => restart_ok) (Restarts.open j) -> seen_pod f es (Model.crNamespace e) (Model.crPod e) (Model.crWorkload e) ->
  exists j', Restarts.Observe j e = Some j' /\ map_Forall (fun _ => restart_ok) (Restarts.open j').
Proof.
  intros Hj He. unfold Restarts.Observe. case_match; [by exists j|].
  set (rec := default _ _). assert (restart_ok rec) as [Hs Hr].
  { subst rec. destruct (Restarts.open j !! _) as [r|] eqn:E; [by apply (Hj _ _ E)|]. split; [exact He|by eexists]. }
  destruct (fold_event_names e rec Hr) as (r' & -> & Hk & Hw & Hr'). cbn. eexists. split; [done|]. cbn.
  apply map_Forall_insert_2; [|done]. split; [by rewrite Hk, Hw|done].
Qed.

Lemma filed_ok {E R K O} `{JournalRecord R K O, !EventJournal E R K O, Countable K} (P : R -> Prop) len (m : gmap K R) (e : E) :
  (forall r, event_record len e = Some r -> P r) -> map_Forall (fun _ => P) m -> map_Forall (fun _ => P) (file_event len m e).
Proof. intros He Hm. unfold file_event. destruct (event_record len e) eqn:Er; [|done]. apply map_Forall_insert_2; auto. Qed.

Lemma disruptions_observe d e :
  map_Forall (fun _ => disruption_ok) (Disruptions.open d) -> seen_pod f es (Model.pdNamespace e) (Model.pdPod e) (Model.pdWorkload e) ->
  map_Forall (fun _ => disruption_ok) (Disruptions.open (Disruptions.Observe d e)).
Proof.
  intros Hd He. apply filed_ok; [|done]. intros r. unfold event_record, Disruptions.disruption_event. case_match; [done|].
  by intros [= <-].
Qed.
Lemma jobs_observe j r :
  map_Forall (fun _ => job_ok) (JobRuns.open j) -> seen_job f es (Model.jrNamespace r) (Model.jrName r) (Model.jrWorkload r) ->
  map_Forall (fun _ => job_ok) (JobRuns.open (JobRuns.Observe j r)).
Proof.
  intros Hj Hr. apply filed_ok; [|done]. intros x. unfold event_record, JobRuns.job_run_event. case_match; [done|]. by intros [= <-].
Qed.
Lemma goroutines_observe g c :
  map_Forall (fun _ => goroutine_ok) (Goroutines.open g) -> seen_pod f es (Model.gcNamespace c) (Model.gcPod c) (Model.gcWorkload c) ->
  map_Forall (fun _ => goroutine_ok) (Goroutines.open (Goroutines.Observe g c)).
Proof.
  intros Hg Hc. unfold Goroutines.Observe. case_match; [done|]. cbn. apply map_Forall_insert_2; [|done].
  set (rec := default _ _). assert (goroutine_ok rec) as Hrec.
  { subst rec. destruct (Goroutines.open g !! _) eqn:E; [exact (Hg _ _ E)|exact Hc]. }
  unfold Goroutines.add_sample. by case_match.
Qed.

(** ** What the accumulators hold *)

Definition usage_ok (k : UsageRecord.Key) : Prop :=
  seen_workload f es (UsageRecord.Namespace k) (Model.mkWorkloadRef (UsageRecord.WorkloadKind k) (UsageRecord.WorkloadName k)).
Definition network_ok (k : Network.NetworkKey) : Prop :=
  seen_workload f es (Network.NNamespace k) (Model.mkWorkloadRef (Network.NWorkloadKind k) (Network.NWorkloadName k)).
Definition acc_ok (a : Accumulator.Accumulator) : Prop := map_Forall (fun _ r => usage_ok (UsageRecord.RKey r)) (Accumulator.open a).
Definition net_ok (a : Network.NetworkAccumulator) : Prop := map_Forall (fun _ r => network_ok (Network.NKey r)) (Network.nopen a).
Definition poller_ok (p : Usage.UsagePoller) : Prop := acc_ok (Usage.acc p) /\ net_ok (Usage.netAcc p).

Definition keeps_key (g : UsageRecord.Record_ -> UsageRecord.Record_) : Prop := forall r, UsageRecord.RKey (g r) = UsageRecord.RKey r.
Lemma updateAt_ok a k st g : usage_ok k -> keeps_key g -> acc_ok a -> acc_ok (Accumulator.updateAt a k st g).
Proof.
  intros Hk Hg Ha. apply map_Forall_insert_2; [|done]. rewrite Hg. unfold Accumulator.recordAt.
  destruct (Accumulator.open a !! _) eqn:E; [exact (Ha _ _ E)|exact Hk].
Qed.
Lemma addProRata_ok a k from to n g : usage_ok k -> (forall v, keeps_key (fun r => g r v)) -> acc_ok a -> acc_ok (Accumulator.addProRata a k from to n g).
Proof.
  intros Hk Hg. unfold Accumulator.addProRata. generalize (Windowing.split (Accumulator.win a) from to n) as l. intros l. revert a.
  induction l as [|x l IH]; intros a Ha; cbn [foldl]; [done|]. apply IH, updateAt_ok; auto.
Qed.
Lemma step_ok a o : usage_ok (Usage.observed_key o) -> acc_ok a -> acc_ok (Accumulator.step a o).
Proof.
  intros Hk Ha. destruct o; cbn in *; unfold Accumulator.ObserveCPUDelta, Accumulator.ObserveThrottling, Accumulator.ObserveCPUPSI,
    Accumulator.ObserveMemoryPSI, Accumulator.ObserveMemory, Accumulator.updateRecord;
    repeat case_match; repeat first [done|apply updateAt_ok|apply addProRata_ok]; try done; by intros ?.
Qed.

Lemma net_updateAt_ok a k st g : network_ok k -> (forall r, Network.NKey (g r) = Network.NKey r) -> net_ok a -> net_ok (Network.updateAt a k st g).
Proof.
  intros Hk Hg Ha. apply map_Forall_insert_2; [|done]. rewrite Hg. unfold Network.recordAt.
  destruct (Network.nopen a !! _) eqn:E; [exact (Ha _ _ E)|exact Hk].
Qed.
Lemma spread_ok a k from to n g : network_ok k -> (forall v r, Network.NKey (g v r) = Network.NKey r) -> net_ok a -> net_ok (Network.spread a k from to n g).
Proof.
  intros Hk Hg. unfold Network.spread. generalize (Windowing.split (Network.nwin a) from to n) as l. intros l. revert a.
  induction l as [|x l IH]; intros a Ha; cbn [foldl]; [done|]. apply IH, net_updateAt_ok; auto.
Qed.
Lemma net_observe_ok a k from to d h : network_ok k -> net_ok a -> net_ok (Network.Observe a k from to d h).
Proof.
  intros Hk Ha. unfold Network.Observe. case_match; [done|]. cbn zeta. apply net_updateAt_ok; [done|by intros []|].
  repeat (apply spread_ok; [done|by intros ? []|]). done.
Qed.
End held.

(** ** Polls *)

Lemma foldl_ok {A B} (Q : A -> Prop) (g : A -> B -> A) l a : (forall a b, b ∈ l -> Q a -> Q (g a b)) -> Q a -> Q (foldl g a l).
Proof. revert a. induction l as [|b l IH]; intros a Hg Ha; cbn [foldl]; [done|]. apply IH; [set_solver|]. apply Hg; [set_solver|done]. Qed.

Section polls.
Context (f : Admission.Filter) (es : list event).
Implicit Types (p : Usage.UsagePoller).

Lemma setAcc_ok o p : usage_ok f es (Usage.observed_key o) -> poller_ok f es p ->
  poller_ok f es (Usage.setAcc (Accumulator.step (Usage.acc p) o) p).
Proof. intros Hk [Ha Hn]. split; [by apply step_ok|done]. Qed.
Lemma markSignal_ok nm p : poller_ok f es p -> poller_ok f es (Usage.markSignal nm p).
Proof. done. Qed.
Lemma mark_psi_ok psi p : poller_ok f es p -> poller_ok f es (Usage.mark_psi psi p).
Proof. by destruct psi. Qed.

Lemma observeCPU_ok k from to n p : usage_ok f es k -> poller_ok f es p -> poller_ok f es (Usage.observeCPU k from to n p).
Proof. intros. unfold Usage.observeCPU. case_match; [done|]. by apply (setAcc_ok (Accumulator.OCPU k from to _)). Qed.
Lemma observeCPUPSI_ok psi k from to n p : usage_ok f es k -> poller_ok f es p -> poller_ok f es (Usage.observeCPUPSI psi k from to n p).
Proof. intros. unfold Usage.observeCPUPSI. case_match; [done|]. by apply (setAcc_ok (Accumulator.OCPUPSI k from to _)). Qed.

Lemma ingest_cpu_ok k start c p st : usage_ok f es k -> poller_ok f es p -> poller_ok f es (Usage.ingest_cpu k start c p st).1.
Proof.
  intros Hk Hp. unfold Usage.ingest_cpu. destruct (Usage.UsageCoreNanoSeconds c); [|done]. cbn zeta.
  set (p1 := Usage.mark_psi _ _). assert (poller_ok f es p1) as H1 by (by apply mark_psi_ok).
  repeat case_match; cbn [fst]; auto using observeCPUPSI_ok, observeCPU_ok.
Qed.
Lemma ingest_memory_ok k start m p st : usage_ok f es k -> poller_ok f es p -> poller_ok f es (Usage.ingest_memory k start m p st).1.
Proof.
  intros Hk Hp. unfold Usage.ingest_memory. destruct (Usage.WorkingSetBytes m) as [bytes|]; [|done]. cbn zeta.
  set (p1 := Usage.mark_psi _ _). assert (poller_ok f es p1) as H1 by (by apply mark_psi_ok).
  case_match; [|done]. cbn [fst].
  pose proof (setAcc_ok (Accumulator.OMemory k (Usage.mem_at m) (Usage.clampToInt64 bytes)) p1 Hk H1) as H2. cbn [Accumulator.step] in H2.
  repeat (case_match; [|try done]); try done; by apply (setAcc_ok (Accumulator.OMemoryPSI k _ _ _)).
Qed.
Lemma ingestContainer_ok tk k c now p : usage_ok f es k -> poller_ok f es p -> poller_ok f es (Usage.ingestContainer tk k c now p).
Proof.
  intros Hk Hp. unfold Usage.ingestContainer. set (st := Usage.setSeen _ _).
  destruct (Usage.cs_cpu c) as [cpu|].
  - pose proof (ingest_cpu_ok k (Usage.StartTime c) cpu p st Hk Hp) as H1. destruct (Usage.ingest_cpu _ _ _ _ _) as [p1 st1].
    destruct (Usage.cs_memory c) as [m|]; [|exact H1].
    pose proof (ingest_memory_ok k (Usage.StartTime c) m p1 st1 Hk H1) as H2. by destruct (Usage.ingest_memory _ _ _ _ _).
  - destruct (Usage.cs_memory c) as [m|]; [|exact Hp].
    pose proof (ingest_memory_ok k (Usage.StartTime c) m p st Hk Hp) as H2. by destruct (Usage.ingest_memory _ _ _ _ _).
Qed.

Context (LookupPod : string -> option (string * Model.WorkloadRef)) (HostNetwork : string -> bool).
Context (LookupPodByName : string -> string -> option (string * Model.WorkloadRef)).
Hypothesis LookupPod_seen : forall uid ns wl, LookupPod uid = Some (ns, wl) -> seen_workload f es ns wl.
Hypothesis LookupPodByName_seen : forall ns nm uid wl, LookupPodByName ns nm = Some (uid, wl) -> seen_workload f es ns wl.

Lemma ingestNetwork_ok uid k net now p : network_ok f es k -> poller_ok f es p -> poller_ok f es (Usage.ingestNetwork HostNetwork uid k net now p).
Proof.
  intros Hk [Ha Hn]. unfold Usage.ingestNetwork. destruct net as [net|]; [|by split]. cbn zeta.
  repeat case_match; try (by split). split; [done|]. by apply net_observe_ok.
Qed.

Lemma ingest_pod_ok now p pod : poller_ok f es p -> poller_ok f es (Usage.ingest_pod LookupPod HostNetwork now p pod).
Proof.
  intros Hp. unfold Usage.ingest_pod. destruct (LookupPod (Usage.ps_uid pod)) as [[ns wl]|] eqn:E; [|done].
  apply LookupPod_seen in E. destruct wl as [kind nm]. cbn [Model.Kind Model.Name].
  apply ingestNetwork_ok; [done|]. apply foldl_ok; [|done]. intros q c _ Hq. by apply ingestContainer_ok.
Qed.
Lemma ingest_sample_ok now p ks : poller_ok f es p -> poller_ok f es (Usage.ingest_sample LookupPodByName now p ks).
Proof.
  intros Hp. unfold Usage.ingest_sample. destruct ks as [k s]. case_match; [done|].
  destruct (LookupPodByName _ _) as [[uid wl]|] eqn:E; [|done]. apply LookupPodByName_seen in E. destruct wl as [kind nm].
  cbn [Model.Kind Model.Name]. cbn zeta.
  set (rk := UsageRecord.mkKey _ _ _ _). assert (usage_ok f es rk) as Hk by exact E.
  assert (forall from to x y, poller_ok f es (Usage.setAcc (Accumulator.ObserveThrottling (Usage.acc (Usage.markSignal "throttling" p)) rk from to x y) (Usage.markSignal "throttling" p))) as Ht.
  { intros. by apply (setAcc_ok (Accumulator.OThrottling rk from to x y)). }
  repeat case_match; first [exact Hp|apply Ht|apply markSignal_ok, Hp].
Qed.
Lemma ingest_ok s now p : poller_ok f es p -> poller_ok f es (Usage.ingest LookupPod HostNetwork s now p).
Proof. intros Hp. unfold Usage.ingest. apply foldl_ok; [|done]. intros q x _. apply ingest_pod_ok. Qed.
Lemma ingestCadvisor_ok s now p : poller_ok f es p -> poller_ok f es (Usage.ingestCadvisor LookupPodByName s now p).
Proof. intros Hp. unfold Usage.ingestCadvisor. apply foldl_ok; [|done]. intros q x _. apply ingest_sample_ok. Qed.
Lemma pollOnce_ok cancelled reads now p : poller_ok f es p ->
  poller_ok f es (Usage.pollOnce LookupPod HostNetwork LookupPodByName cancelled reads now p).1.
Proof.
  intros Hp. unfold Usage.pollOnce. destruct cancelled; [done|].
  assert (poller_ok f es (foldl (Usage.poll_node LookupPod HostNetwork LookupPodByName now) (p, []) reads).1) as H.
  { apply (foldl_ok (fun out => poller_ok f es out.1)); [|done]. intros [q errs] r _ Hq. cbn [fst] in Hq. unfold Usage.poll_node.
    set (q1 := Usage.countPoll _ _ q). assert (poller_ok f es q1) as H1 by done.
    destruct (Usage.summary r) as [s|], (Usage.samples r) as [s2|]; cbn [fst]; try done;
      [apply ingestCadvisor_ok, (ingest_ok s now q1 H1)|exact (ingest_ok s now q1 H1)|by apply ingestCadvisor_ok]. }
  destruct (foldl _ _ _) as [q errs]. cbn [fst] in *. unfold Usage.sweep. cbn zeta. by case_match.
Qed.

Lemma flush_ok now p fl p' : Usage.flush now p = (fl, p') -> poller_ok f es p ->
  poller_ok f es p' /\
  (forall r, r ∈ Usage.closed fl -> usage_ok f es (UsageRecord.RKey r)) /\
  (forall r, r ∈ Usage.snapshot fl -> usage_ok f es (UsageRecord.RKey r)) /\
  (forall r, r ∈ Usage.network fl -> network_ok f es (Network.NKey r)).
Proof.
  unfold Usage.flush. destruct (Network.CloseBefore (Usage.netAcc p) now) as [network n] eqn:En. cbn. intros [= <- <-] [Ha Hn].
  unfold Network.CloseBefore in En. injection En as <- <-. split; [split|].
  - intros k r [Hr _]%map_lookup_filter_Some. exact (Ha _ _ Hr).
  - intros k r [Hr _]%map_lookup_filter_Some. exact (Hn _ _ Hr).
  - cbn. split_and!; intros r.
    + unfold Accumulator.sortRecords. rewrite elem_of_sort_slice, elem_of_map_values. intros (k & [Hr _]%map_lookup_filter_Some). exact (Ha _ _ Hr).
    + unfold Accumulator.Snapshots, Accumulator.sortRecords. rewrite elem_of_sort_slice, list_elem_of_fmap.
      intros (r0 & -> & (k & [Hr _]%map_lookup_filter_Some)%elem_of_map_values). exact (Ha _ _ Hr).
    + unfold Network.sortNetworkRecords. rewrite elem_of_sort_slice, elem_of_map_values. intros (k & [Hr _]%map_lookup_filter_Some). exact (Hn _ _ Hr).
Qed.
End polls.

(** ** What the pod index answers

    The API server gives a UID one namespace and name for ever, and neither holds
    a slash. *)

Section answers.
Context (identity : string -> string * string).

Definition api_pod (p : Cluster.Pod) : Prop :=
  let m := Cluster.p_meta p in
  has_byte "/"%char (Cluster.Namespace m) = false /\ has_byte "/"%char (Cluster.ObjName m) = false /\
  identity (Cluster.UID m) = (Cluster.Namespace m, Cluster.ObjName m).
Definition api_events (es : list event) : Prop := forall e c p, e ∈ es -> about_pod e = Some (c, p) -> api_pod p.

Definition names_filed (w : PodWatcher) : Prop :=
  forall k uid, nameIndex w !! k = Some uid -> k = name_key (identity uid).1 (identity uid).2.

Lemma indexPod_names c p b w : api_pod p -> names_filed w -> names_filed (indexPod p (describe c p) b w).
Proof.
  intros (_ & _ & Hi) Hw k uid. cbn. intros [[<- <-]|[_ H]]%lookup_insert_Some; [by rewrite Hi|by apply Hw].
Qed.
Lemma dropPod_names uid w : names_filed w -> names_filed (dropPod uid w).
Proof.
  intros Hw k u. unfold dropPod. destruct (index w !! uid); cbn; [|apply Hw]. case_bool_decide; [|apply Hw].
  intros [_ Hk]%lookup_delete_Some. by apply Hw.
Qed.
Lemma step_names_filed w e : (forall c p, about_pod e = Some (c, p) -> api_pod p) -> names_filed w -> names_filed (step w e).1.
Proof.
  intros He Hw. destruct e as [c clk p|c clk old p|p|c now job|job]; cbn [step about_pod] in *.
  - unfold AddFunc, admit_pod. destruct (collect _); [|done].
    match goal with |- context [observe_pod c clk p ?b ?w'] => pose proof (observe_pod_same c clk p b w') as (_ & Hn & _) end.
    intros k uid. rewrite Hn. apply indexPod_names; [by eapply He|done].
  - unfold UpdateFunc, admit_pod. destruct (collect _).
    + match goal with |- context [observe_pod c clk p ?b ?w'] => pose proof (observe_pod_same c clk p b w') as (_ & Hn & _); destruct (observe_pod c clk p b w') as [w1 rs] end.
      cbn [fst] in *. intros k uid. rewrite (proj2 (countTransition_index _ _ _)), Hn. apply indexPod_names; [by eapply He|done].
    + cbn [fst]. intros k uid. rewrite (proj2 (countTransition_index _ _ _)). by apply dropPod_names.
  - cbn [fst]. exact (dropPod_names (Cluster.UID (Cluster.p_meta p)) w Hw).
  - intros k uid. rewrite (proj2 (reportJobRun_index c now job w)). apply Hw.
  - done.
Qed.

Lemma run_names f es : api_events es -> names_filed (run f es).1.
Proof.
  induction es as [|e es IH] using rev_ind; intros Ha; [by intros k uid|]. rewrite run_snoc. cbn [fst].
  apply step_names_filed; [intros c p He; apply (Ha e c p); [set_solver|done]|]. apply IH. intros e' c p He'. apply (Ha e' c p). set_solver.
Qed.

Lemma slash_splits a b a' b' : has_byte "/"%char a = false -> has_byte "/"%char b = false ->
  name_key a' b' = name_key a b -> a' = a /\ b' = b.
Proof.
  unfold name_key. revert a'. induction a as [|x a IH]; intros [|y a'] Ha Hb E; cbn in *.
  - split; [done|]. by injection E.
  - injection E as -> E. exfalso. change (a' +:+ String "/" b' = b) in E. revert Hb. rewrite <-E, has_byte_app. cbn. by rewrite orb_true_r.
  - injection E as Ex _. apply orb_false_iff in Ha as [Hx%bool_decide_eq_false _]. by rewrite Ex in Hx.
  - injection E as -> E. apply orb_false_iff in Ha as [_ Ha]. destruct (IH a' Ha Hb E) as [-> ->]. done.
Qed.

Section index.
Context (f : Admission.Filter) (es : list event) (Hes : informer_order es) (Hapi : api_events es).
Let w := (run f es).1.

Lemma collected_api uid c p : collected f es uid c p -> api_pod p /\ Cluster.UID (Cluster.p_meta p) = uid.
Proof.
  intros [Hl _]. split; [|by eapply latest_uid]. destruct (latest_seen _ _ _ _ Hl) as (e & He & Ha). by eapply Hapi.
Qed.

Lemma entry_seen uid e : index w !! uid = Some e ->
  seen_pod f es (e_namespace e) (e_name e) (e_workload e) /\ identity uid = (e_namespace e, e_name e) /\
  has_byte "/"%char (e_namespace e) = false /\ has_byte "/"%char (e_name e) = false /\
  (forall p, LookupPod w uid = Some p -> p = (e_namespace e, e_workload e)).
Proof.
  intros He. pose proof He as (c & p & Hc & ->)%exposed_entry; [|done]. destruct (collected_api _ _ _ Hc) as ((Hn & Ho & Hi) & <-).
  split; [by eapply collected_seen|]. split; [done|]. split; [done|]. split; [done|]. intros q. unfold LookupPod. rewrite He. by intros [= <-].
Qed.
Lemma value_seen e : e ∈ map_values (index w) -> seen_pod f es (e_namespace e) (e_name e) (e_workload e).
Proof. intros [uid He]%elem_of_map_values. by apply (entry_seen uid). Qed.

Lemma LookupPod_seen uid ns wl : LookupPod w uid = Some (ns, wl) -> seen_workload f es ns wl.
Proof.
  unfold LookupPod. intros (e & He & [= -> ->])%fmap_Some. eexists. by apply (entry_seen uid).
Qed.
Lemma LookupPodByName_seen ns nm uid wl : LookupPodByName w ns nm = Some (uid, wl) -> seen_workload f es ns wl.
Proof.
  unfold LookupPodByName. intros (u & Hu & (e & He & [= <- <-])%bind_Some)%bind_Some.
  destruct (entry_seen u e He) as (Hs & Hi & Hn & Ho & _). apply (run_names f es Hapi) in Hu. rewrite Hi in Hu. cbn in Hu.
  destruct (slash_splits _ _ _ _ Hn Ho Hu) as [-> ->]. by eexists.
Qed.
Lemma LookupContainer_seen uid cid node x : LookupContainerOnNode w uid cid node = Some x -> seen_workload f es x.1.1 x.1.2.
Proof.
  unfold LookupContainerOnNode. intros (e & He & Hx)%bind_Some. case_match; [done|].
  apply bind_Some in Hx as (ci & _ & [= <-]). eexists. by apply (entry_seen uid).
Qed.
Lemma PodReplica_seen c ns wl container digest addr nm :
  PodReplica c w ns wl container digest = Some (addr, nm) -> seen_pod f es ns nm wl.
Proof.
  unfold PodReplica. intros (n & Hn & Ha)%head_Some_elem_of%list_elem_of_omap. rewrite elem_of_sort_slice in Hn.
  apply list_elem_of_fmap in Hn as (e & -> & He). apply list_elem_of_In, List.filter_In in He as [He Hr]. apply list_elem_of_In in He.
  unfold replica_of in Hr. rewrite !andb_true_iff, !bool_decide_eq_true in Hr. destruct Hr as ((((<- & <-) & _) & _) & _).
  apply bind_Some in Ha as (q & _ & Ha). case_bool_decide; [done|]. injection Ha as _ <-. by apply value_seen.
Qed.
Lemma Address_seen c cand addr : Probe.Address c w cand = Some addr ->
  seen_workload f es (Probe.cd_Namespace cand) (Model.mkWorkloadRef (Probe.cd_WorkloadKind cand) (Probe.cd_WorkloadName cand)).
Proof.
  unfold Probe.Address, PodAddress. intros (ip & (x & Hx & _)%fmap_Some & _)%fmap_Some. destruct x. eexists. by eapply PodReplica_seen.
Qed.
Lemma Pods_seen i : i ∈ Pods w -> seen_pod f es (Model.piNamespace i) (Model.piName i) (Model.piWorkload i).
Proof. intros (uid & c & p & Hc & ->)%Pods_exposed; [|done]. by eapply collected_seen. Qed.

(** ** The payloads of the listings *)

Lemma metadata_seen at_ strategies : may_hold f es (WorkloadMetadata at_ (Metadata.Aggregate (Pods w) strategies)).
Proof.
  intros r Hr%Metadata.Aggregate_elem. rewrite Metadata.gathered_lookup in Hr.
  apply Metadata.summary_Some in Hr as (first & rest & Hf & _).
  assert (first ∈ Metadata.replicas_of (Metadata.mKey r) (Metadata.occurrences (Pods w))) as Hin by (rewrite Hf; by left).
  apply list_elem_of_filter in Hin as [<- Hin]. apply list_elem_of_bind in Hin as (i & Hc & Hi).
  apply list_elem_of_fmap in Hc as (c & -> & _). cbn. eexists. apply Pods_seen in Hi. by destruct (Model.piWorkload i).
Qed.
Lemma revisions_seen at_ sets : may_hold f es (WorkloadRevisions at_ (Revisions.Aggregate (Revisions.ReplicaSets sets w))).
Proof.
  intros r. unfold Revisions.Aggregate. rewrite elem_of_sort_slice, list_elem_of_fmap. intros (i & -> & Hi).
  apply Revisions.ReplicaSets_elem in Hi as (s & _ & (o & _ & Hk & ->)%Revisions.collected_set_Some).
  apply Revisions.elem_of_workloads in Hk as (e & He & Hk). unfold Revisions.entry_workload in Hk. injection Hk as H1 H2 H3.
  cbn. rewrite H1, H2, H3. eexists. apply value_seen in He. by destruct (e_workload e).
Qed.
Lemma policies_seen at_ c sources d now :
  may_hold f es (WorkloadPolicy at_ (Policy.WorkloadPolicies c w (map_values (index w)) sources d now).2
                   (Policy.WorkloadPolicies c w (map_values (index w)) sources d now).1).
Proof.
  intros r (key & ref & Href & -> & _)%Policy.elem_of_policy_records.
  apply Policy.collected_refs in Href as (e & He & <- & <-). cbn. eexists. by apply value_seen.
Qed.
Lemma cluster_seen at_ c sources d now :
  may_hold f es (ClusterPolicy at_ (Policy.ClusterPolicies c (map_values (index w)) sources d now).2
                   (Policy.ClusterPolicies c (map_values (index w)) sources d now).1).
Proof.
  intros n ((e & He & <-) & _)%Policy.cluster_policy_is_of_collected_namespaces. eexists _, _. by apply value_seen.
Qed.
Lemma counters_seen at_ c : Forall api_pod (Cluster.podList c) -> may_hold f es (RestartCounters at_ (PodWatcher.RestartCounters c w)).
Proof.
  intros Hc r. unfold PodWatcher.RestartCounters. rewrite elem_of_sort_slice, list_elem_of_bind.
  intros (q & Hin & Hq). destruct (LookupPod w (Cluster.UID (Cluster.p_meta q))) as [[ns wl]|] eqn:Hl; [|set_solver].
  apply list_elem_of_omap in Hin as (s & _ & Hs). unfold counter_of in Hs.
  destruct (_ <=? 0); [done|]. apply bind_Some in Hs as (b & _ & [= <-]). cbn.
  pose proof Hl as Hl'. unfold LookupPod in Hl'. apply fmap_Some in Hl' as (e & He & _).
  destruct (entry_seen _ _ He) as (Hs & Hi & _ & _ & Hw). apply Hw in Hl. injection Hl as -> ->.
  rewrite Forall_forall in Hc. destruct (Hc q Hq) as (_ & _ & Hq'). rewrite Hi in Hq'. injection Hq' as <- <-. done.
Qed.

Lemma container_seen k : Inventory.collected_container f es k ->
  seen_workload f es (Contributions.kNamespace k) (Model.mkWorkloadRef (Contributions.kWorkloadKind k) (Contributions.kWorkloadName k)).
Proof.
  intros (uid & c & p & cont & Hc & _ & ->). cbn. eexists. apply collected_seen in Hc. by destruct (resolveWorkload c p).
Qed.

End index.
End answers.

(** ** The inventory *)

Definition store_ok (s : Inventory.Store) : Prop := exists F, Inventory.simulates s F /\ Inventory.well_keyed s.

Lemma apply_op_ok s o : Inventory.names_node o -> store_ok s -> store_ok (Inventory.apply_op s o).
Proof. intros Hn (F & Hs & Hk). exists (Inventory.stand F o). split; [by apply Inventory.simulates_step|by apply Inventory.well_keyed_step]. Qed.

Lemma forgotten_ok w nodes s : store_ok s -> store_ok (Inventory.forget_departed w nodes s).
Proof.
  intros Hs. apply (apply_op_ok _ (Inventory.ORetainNodes nodes)); [done|].
  by apply (apply_op_ok _ (Inventory.ORetain (Inventory.LiveKeys (Pods w)))).
Qed.

Lemma inventory_seen f es p prober nodes s x :
  informer_order es -> store_ok s ->
  x ∈ inventory_payloads p prober (Inventory.forget_departed (run f es).1 nodes s) -> may_hold f es x.
Proof.
  intros Hes (F & Hs & Hk) Hx. pose proof (Inventory.LiveKeys_collected f es Hes) as Hlive.
  set (live := Inventory.LiveKeys (Pods (run f es).1)) in *.
  destruct (Inventory.forgotten_snapshots s F live nodes Hs) as (Hp & Hc & Ho). fold live in Hp, Hc, Ho.
  set (s' := Inventory.forget_departed _ nodes s) in *.
  assert (Inventory.well_keyed s') as Hk'
    by exact (Inventory.well_keyed_step _ (Inventory.ORetainNodes nodes) (Inventory.well_keyed_step _ (Inventory.ORetain live) Hk)).
  unfold inventory_payloads in Hx. rewrite !elem_of_cons in Hx.
  destruct Hx as [->|[->|[->|[->|Hx]]]]; [..|by apply not_elem_of_nil in Hx]; cbn [may_hold].
  - intros g Hg. rewrite (Inventory.elem_of_Snapshot s' g Hk') in Hg. apply container_seen, Hlive.
    subst s'. cbn in Hg. apply map_lookup_filter_Some in Hg as [_ Hg]. by rewrite elem_of_list_to_set in Hg.
  - intros r Hr. apply container_seen, Hlive. by apply Hp in Hr as [? _].
  - intros r Hr. apply container_seen, Hlive. by apply Hc in Hr as [? _].
  - intros r Hr. destruct prober as [pr|].
    + unfold Probe.Stamp in Hr. apply list_elem_of_fmap in Hr as (r0 & -> & Hr). cbn. apply container_seen, Hlive. by apply Ho in Hr as [? _].
    + apply container_seen, Hlive. by apply Ho in Hr as [? _].
Qed.

(** ** What is on disk *)

Section disk.
Context (sha256 : string -> string) (json : payload -> option string).

(** Every payload file is the document of a payload that may be written. *)
Definition clean (ok : payload -> Prop) (d : fs) : Prop :=
  forall nm data m, HasSuffix nm ".json" = true -> d !! nm = Some (FileNode data m) ->
    exists p doc, ok p /\ nm = payload_file p /\ json p = Some doc /\ data = document doc.

Lemma clean_more (ok ok' : payload -> Prop) d : (forall p, ok p -> ok' p) -> clean ok d -> clean ok' d.
Proof. intros Ho Hd nm data m Hn Hf. destruct (Hd nm data m Hn Hf) as (p & doc & ? & ?). eauto. Qed.
Lemma clean_subset ok d d' : d' ⊆ d -> clean ok d -> clean ok d'.
Proof. intros Hs Hd nm data m Hn Hf. apply (Hd nm data m Hn). by eapply lookup_weaken. Qed.

Lemma write_node s kind nm payload env : dir (write sha256 s kind nm payload env).1 = dir s \/
  exists data m, dir (write sha256 s kind nm payload env).1 = <[tmp_name nm := FileNode data m]> (dir s) \/
    (exists doc, payload = Some doc /\ dir (write sha256 s kind nm payload env).1 = <[nm := FileNode (document doc) m]> (delete (tmp_name nm) (dir s))).
Proof.
  unfold write. destruct (Registry.Lookup kind); [|by left]. unfold encodePayload.
  destruct (negb _); [by left|]. destruct payload as [doc|]; [|by left].
  destruct (Cadence.due _ _ _ _ _ _) as [g []]; cbn [negb]; [|by left].
  destruct (io_fault env) as [|[part|]|]; cbn; [|right; by eexists _, _; left|by left|right; by eexists _, _; left].
  right. eexists "", _. right. eexists. split; [done|]. done.
Qed.

Lemma write_clean ok s env p : ok p -> clean ok (dir s) -> clean ok (dir (write_payload sha256 json s env p).1).
Proof.
  intros Hp Hd. unfold write_payload.
  destruct (write_node s (payload_kind p) (payload_file p) (json p) env) as [->|(data & m & [->|(doc & Hdoc & ->)])]; [done| |].
  - intros nm data' m' Hn [[<- _]|[_ Hf]]%lookup_insert_Some; [|by eapply Hd].
    exfalso. by apply (json_not_tmp _ Hn (payload_file p)).
  - intros nm data' m' Hn [[<- [= <- <-]]|[_ Hf]]%lookup_insert_Some; [by exists p, doc|].
    apply lookup_delete_Some in Hf as [_ Hf]. by eapply Hd.
Qed.

Section windows.
Context {R : Type} (windowOf : R -> windowKey) (make : windowKey -> list R -> payload) (kind : string) (nm : windowKey -> string).
Hypothesis make_kind : forall k g, payload_kind (make k g) = kind.
Hypothesis make_file : forall k g, payload_file (make k g) = nm k.

Lemma write_windows_clean (ok : payload -> Prop) s env rs :
  (forall k g, (forall r, r ∈ g -> r ∈ rs) -> ok (make k g)) -> clean ok (dir s) ->
  clean ok (dir (Recover.write_windows windowOf sha256 s kind nm (fun k g => json (make k g)) env rs).1).
Proof.
  intros Hok Hd. unfold Recover.write_windows.
  assert (forall k g, (k, g) ∈ map_to_list (Recover.group_by_window windowOf rs) -> ok (make k g)) as Hg.
  { intros k g Hin%elem_of_map_to_list. apply Hok. intros r Hr. rewrite Recover.group_lookup in Hin.
    destruct (filter _ rs) as [|x l] eqn:E; [done|]. injection Hin as <-. rewrite <-E in Hr.
    by apply list_elem_of_filter in Hr as [_ Hr]. }
  revert s Hd Hg. induction (map_to_list _) as [|[k g] groups IH]; intros s Hd Hg; [done|]. cbn [Recover.write_groups].
  assert (clean ok (dir (write sha256 s kind (nm k) (json (make k g)) (env (nm k))).1)) as H1.
  { pose proof (write_clean ok s (env (nm k)) (make k g) (Hg k g (list_elem_of_here _ _)) Hd) as H.
    unfold write_payload in H. by rewrite make_kind, make_file in H. }
  destruct (write _ _ _ _ _ _) as [s1 [e|]]; [exact H1|]. apply IH; [exact H1|]. intros k' g' Hin. apply Hg. by right.
Qed.
End windows.

Lemma remove_subset stuck nm s s' : remove stuck nm s = Some s' -> dir s' ⊆ dir s.
Proof. unfold remove. case_bool_decide; [done|]. intros [= <-]. apply delete_subseteq. Qed.
Lemma sweep_loop_subset raced stuck cutoff now l s kept total :
  dir (sweep_loop raced stuck s cutoff now l kept total).1 ⊆ dir s.
Proof.
  revert s kept total. induction l as [|[nm [|data m]] l IH]; intros s kept total; cbn [sweep_loop]; [done|apply IH|].
  case_bool_decide; [apply IH|]. case_match; [|apply IH]. destruct (remove stuck nm s) as [s1|] eqn:Hr; [|done].
  etrans; [apply IH|]. cbn. by eapply remove_subset.
Qed.
Lemma evict_loop_subset stuck kept s total count : dir (evict_loop stuck s kept total count).1 ⊆ dir s.
Proof.
  revert s total count. induction kept as [|x kept IH]; intros s total count; cbn [evict_loop]; [done|].
  case_match; [done|]. cbn zeta. destruct (remove stuck (f_name x) s) as [s1|] eqn:Hr; [|done]. etrans; [apply IH|]. cbn. by eapply remove_subset.
Qed.
Lemma Sweep_subset raced stuck s now : dir (Sweep raced stuck s now).1 ⊆ dir s.
Proof.
  unfold Sweep. cbn zeta. pose proof (sweep_loop_subset raced stuck (Add now (- maxAge s)) now (entries (dir s)) (setCadence (Cadence.prune (cadence s) (Add now (- maxAge s))) s) [] 0) as H1.
  destruct (sweep_loop _ _ _ _ _ _ _ _) as [s1 [[kept total]|]]; [|done]. cbn [fst] in H1. cbn in H1. case_match; [done|].
  pose proof (evict_loop_subset stuck (sort_slice older kept) s1 total (Z.of_nat (length kept))) as H2.
  destruct (evict_loop _ _ _ _ _) as [s2 [[t c]|]]; cbn [fst] in H2 |- *; (etrans; [exact H2|exact H1]).
Qed.

Lemma close_groups_clean ok encode env stuck groups s :
  (forall k g, (k, g) ∈ groups -> exists p, ok p /\ payload_kind p = "usage_window"%string /\
     payload_file p = name k +:+ ".json" /\ json p = encode k g) ->
  clean ok (dir s) -> clean ok (dir (Recover.close_groups sha256 s encode env stuck groups).1).
Proof.
  revert s. induction groups as [|[k g] groups IH]; intros s Hg Hd; [done|]. cbn [Recover.close_groups].
  destruct (Hg k g (list_elem_of_here _ _)) as (p & Hp & Hkind & Hfile & Hj).
  pose proof (write_clean ok s (env (name k +:+ ".json")) p Hp Hd) as H1. unfold write_payload in H1. rewrite Hkind, Hfile, Hj in H1.
  destruct (write _ _ _ _ _ _) as [s1 [e|]]; [exact H1|]. destruct (remove _ _ s1) as [s2|] eqn:Hr; [|exact H1].
  apply IH; [intros k' g' Hin; apply Hg; by right|]. eapply clean_subset; [by eapply remove_subset|exact H1].
Qed.
End disk.

(** ** The invariant *)

Record world_ok (json : payload -> option string) (f : Admission.Filter) (es : list event) (w : world) : Prop := {
  ok_pods : pods w = (run f es).1;
  ok_journals : journals_ok f es (journals w);
  ok_poller : poller_ok f es (poller w);
  ok_store : forall s, goStore w = Some s -> store_ok s;
  ok_disk : forall s, spool w = Some s -> clean json (may_hold f es) (dir s);
}.

Section passes.
Context (sha256 : string -> string) (json : payload -> option string).
Context (f : Admission.Filter) (es : list event).
Abbreviation W := (world_ok json f es).
Abbreviation disk := (clean json (may_hold f es)).

Lemma on_spool_ok {E} (g : Spool -> Spool * E) w :
  (forall s, disk (dir s) -> disk (dir (g s).1)) -> W w -> W (on_spool g w).
Proof.
  intros Hg Hw. unfold on_spool. destruct (spool w) as [s|] eqn:Hsp; [|exact Hw]. destruct Hw as [H1 H2 H3 H4 H5].
  split; try done. intros s' [= <-]. apply Hg, H5. done.
Qed.
Lemma put_ok env p w : may_hold f es p -> W w -> W (put sha256 json env p w).
Proof. intros Hp. apply on_spool_ok. intros s. by apply write_clean. Qed.
Lemma put_all_ok env ps w : (forall p, p ∈ ps -> may_hold f es p) -> W w -> W (foldl (fun w x => put sha256 json env x w) w ps).
Proof. intros Hp Hw. apply foldl_ok; [|done]. intros w' p Hin. by apply put_ok, Hp. Qed.
Lemma put_keeps env p w : pods (put sha256 json env p w) = pods w /\ goStore (put sha256 json env p w) = goStore w /\
  fleet (put sha256 json env p w) = fleet w /\ (is_Some (spool (put sha256 json env p w)) <-> is_Some (spool w)).
Proof. unfold put, on_spool. by destruct (spool w) eqn:Hsp; [|rewrite Hsp]. Qed.

Lemma set_journals_ok j w : journals_ok f es j -> W w -> W (set_journals j w).
Proof. intros Hj [H1 H2 H3 H4 H5]. by split. Qed.

(** One journal through a flush. *)
Lemma flush_journal_ok {R K O J} `{JournalLaws R K O, Countable K} (P : R -> Prop) (open : J -> gmap K R) (mk : gmap K R -> J) len now
    (Snapshots : J -> list R) (windowOf : R -> windowKey) (make : windowKey -> list R -> payload) kind nm env s (j : J) :
  (forall m, Snapshots (mk m) = snapshots m) -> (forall m, open (mk m) = m) ->
  (forall k g, payload_kind (make k g) = kind) -> (forall k g, payload_file (make k g) = nm k) ->
  (forall r, P r -> P (record_clone r)) -> (forall k g, (forall r, r ∈ g -> P r) -> may_hold f es (make k g)) ->
  map_Forall (fun _ => P) (open j) -> disk (dir s) ->
  let out := Controller.flush_journal (fun j => let '(out, m) := close_before len now (open j) in (out, mk m)) Snapshots
    (fun s => Recover.write_windows windowOf sha256 s kind nm (fun k g => json (make k g)) env) s j in
  disk (dir out.1) /\ map_Forall (fun _ => P) (open out.2).
Proof.
  intros Hsn Hop Hki Hfi Hcl Hmk Hj Hd. unfold Controller.flush_journal.
  assert (forall r, r ∈ (close_before len now (open j)).1 ++ snapshots (close_before len now (open j)).2 -> P r) as Hr.
  { intros r Hr. pose proof (Controller.elem_of_flush len now (open j) r) as He. unfold Controller.flush_records in He.
    apply He in Hr as (k & r0 & Hk & ->). apply Hcl. by apply (Hj k). }
  assert (map_Forall (fun _ => P) (close_before len now (open j)).2) as Hm.
  { intros k r [Hk _]%map_lookup_filter_Some. by apply (Hj k). }
  destruct (close_before len now (open j)) as [closed m]. cbn [fst snd] in *. rewrite Hsn.
  destruct (closed ++ snapshots m) as [|x l] eqn:E; cbn zeta; cbn [fst snd]; rewrite Hop; (split; [|done]); [done|].
  rewrite <-E. apply write_windows_clean; [done|done| |done]. intros k g Hg. apply Hmk. intros r Hin. apply Hr. rewrite <-E. by apply Hg.
Qed.

Lemma any_ok {K A} `{Countable K} (m : gmap K A) : map_Forall (fun _ _ => True) m.
Proof. by intros k a _. Qed.

(** What a closure over the spool and the journals must keep. *)
Definition agent_ok (a : Controller.agent) : Prop :=
  journals_ok f es (Controller.accumulators a) /\ forall s, Controller.spool a = Some s -> disk (dir s).
Definition keeps_agent (g : Controller.agent -> Controller.agent) : Prop := forall a, agent_ok a -> agent_ok (g a).

Lemma over_agent_ok p g w : keeps_agent (g (journal_pass json p w)) -> W w -> W (over_agent json p g w).
Proof. intros Hg [H1 H2 H3 H4 H5]. destruct (Hg (agent w) (conj H2 H5)) as [Hj Hd]. by split. Qed.

(** The two ends of a flush: nothing to write, or what [flush_journal_ok] says. *)
Ltac settle Hflush Hj :=
  destruct (close_before _ _ _) as [closed m]; cbn zeta beta iota in *; destruct Hflush as [Hdisk Hopen]; destruct Hj;
  destruct (closed ++ _); (split; [by split|]); intros ? [= <-]; exact Hdisk.

Lemma flush_restarts_keeps p jp : keeps_agent (Controller.flushRestarts sha256 (encoders_of json p) jp).
Proof.
  intros a [Hj Hd]. unfold Controller.flushRestarts. destruct (Controller.spool a) as [s|] eqn:Hs; [|by split; [|rewrite Hs]].
  set (j := Controller.restarts (Controller.accumulators a)).
  pose proof (flush_journal_ok (restart_ok f es) Restarts.open (Restarts.mkRestarts (Restarts.windowLength j))
    (Restarts.windowLength j) (Controller.now_restarts jp) Restarts.Snapshots
    (fun r => mkWindowKey (Restarts.WindowStart r) (Restarts.WindowSeconds r)) (ContainerRestarts (ps_now p Recover.kindContainerRestarts))
    Recover.kindContainerRestarts (journalWindowName restartsNamePrefix) (Controller.env jp) s j
    (fun _ => eq_refl) (fun _ => eq_refl) (fun _ _ => eq_refl) (fun _ _ => eq_refl) (fun r Hr => Hr)
    (fun k g Hg r Hr => proj1 (Hg r Hr)) (ok_restarts _ _ _ Hj) (Hd s eq_refl)) as Hflush.
  unfold Controller.flush_journal, Restarts.CloseBefore in *. settle Hflush Hj.
Qed.
Lemma flush_disruptions_keeps p jp : keeps_agent (Controller.flushDisruptions sha256 (encoders_of json p) jp).
Proof.
  intros a [Hj Hd]. unfold Controller.flushDisruptions. destruct (Controller.spool a) as [s|] eqn:Hs; [|by split; [|rewrite Hs]].
  set (j := Controller.disruptions (Controller.accumulators a)).
  pose proof (flush_journal_ok (disruption_ok f es) Disruptions.open (Disruptions.mkDisruptions (Disruptions.windowLength j))
    (Disruptions.windowLength j) (Controller.now_disruptions jp) Disruptions.Snapshots
    (fun r => mkWindowKey (Disruptions.WindowStart r) (Disruptions.WindowSeconds r)) (PodDisruptions (ps_now p Recover.kindPodDisruptions))
    Recover.kindPodDisruptions (journalWindowName disruptionsNamePrefix) (Controller.env jp) s j
    (fun _ => eq_refl) (fun _ => eq_refl) (fun _ _ => eq_refl) (fun _ _ => eq_refl) (fun r Hr => Hr)
    (fun k g Hg => Hg) (ok_disruptions _ _ _ Hj) (Hd s eq_refl)) as Hflush.
  unfold Controller.flush_journal, Disruptions.CloseBefore in *. settle Hflush Hj.
Qed.
Lemma flush_jobs_keeps p jp : keeps_agent (Controller.flushJobRuns sha256 (encoders_of json p) jp).
Proof.
  intros a [Hj Hd]. unfold Controller.flushJobRuns. destruct (Controller.spool a) as [s|] eqn:Hs; [|by split; [|rewrite Hs]].
  set (j := Controller.jobs (Controller.accumulators a)).
  pose proof (flush_journal_ok (job_ok f es) JobRuns.open (JobRuns.mkJobRuns (JobRuns.windowLength j))
    (JobRuns.windowLength j) (Controller.now_jobs jp) JobRuns.Snapshots
    (fun r => mkWindowKey (JobRuns.WindowStart r) (JobRuns.WindowSeconds r)) (JobRuns (ps_now p Recover.kindJobRuns))
    Recover.kindJobRuns (journalWindowName jobRunsNamePrefix) (Controller.env jp) s j
    (fun _ => eq_refl) (fun _ => eq_refl) (fun _ _ => eq_refl) (fun _ _ => eq_refl) (fun r Hr => Hr)
    (fun k g Hg => Hg) (ok_jobs _ _ _ Hj) (Hd s eq_refl)) as Hflush.
  unfold Controller.flush_journal, JobRuns.CloseBefore in *. settle Hflush Hj.
Qed.
Lemma flush_nodes_keeps p jp : keeps_agent (Controller.flushNodeLifecycle sha256 (encoders_of json p) jp).
Proof.
  intros a [Hj Hd]. unfold Controller.flushNodeLifecycle. destruct (Controller.spool a) as [s|] eqn:Hs; [|by split; [|rewrite Hs]].
  set (j := Controller.nodes (Controller.accumulators a)).
  pose proof (flush_journal_ok (fun _ => True) NodeEvents.open (NodeEvents.mkNodeEvents (NodeEvents.windowLength j))
    (NodeEvents.windowLength j) (Controller.now_nodes jp) NodeEvents.Snapshots
    (fun r => mkWindowKey (NodeEvents.WindowStart r) (NodeEvents.WindowSeconds r)) (NodeLifecycle (ps_now p Recover.kindNodeLifecycle))
    Recover.kindNodeLifecycle (journalWindowName nodeLifecycleNamePrefix) (Controller.env jp) s j
    (fun _ => eq_refl) (fun _ => eq_refl) (fun _ _ => eq_refl) (fun _ _ => eq_refl) (fun r Hr => Hr)
    (fun k g _ => I) (any_ok _) (Hd s eq_refl)) as Hflush.
  unfold Controller.flush_journal, NodeEvents.CloseBefore in *. settle Hflush Hj.
Qed.
Lemma flush_goroutines_keeps p jp : keeps_agent (Controller.flushGoroutineCounts sha256 (encoders_of json p) jp).
Proof.
  intros a [Hj Hd]. unfold Controller.flushGoroutineCounts. destruct (Controller.spool a) as [s|] eqn:Hs; [|by split; [|rewrite Hs]].
  set (j := Controller.goroutines (Controller.accumulators a)).
  pose proof (flush_journal_ok (goroutine_ok f es) Goroutines.open (Goroutines.mkGoroutines (Goroutines.windowLength j))
    (Goroutines.windowLength j) (Controller.now_goroutines jp) Goroutines.Snapshots
    (fun r => mkWindowKey (Goroutines.WindowStart r) (Goroutines.WindowSeconds r)) (GoroutineCounts (ps_now p Recover.kindGoroutineCounts))
    Recover.kindGoroutineCounts (journalWindowName goroutineCountsNamePrefix) (Controller.env jp) s j
    (fun _ => eq_refl) (fun _ => eq_refl) (fun _ _ => eq_refl) (fun _ _ => eq_refl) (fun r Hr => Hr)
    (fun k g Hg => Hg) (ok_goroutines _ _ _ Hj) (Hd s eq_refl)) as Hflush.
  unfold Controller.flush_journal, Goroutines.CloseBefore in *. settle Hflush Hj.
Qed.

Lemma flush_states_disk p jp s (j : States.States) : disk (dir s) ->
  disk (dir (Controller.flush_journal (fun j => States.CloseBefore j (Controller.now_coverage jp)) States.Snapshots
    (fun s => Recover.WriteAgentStates sha256 s (Controller.enc_states (encoders_of json p)) (Controller.env jp)) s j).1).
Proof.
  intros Hd.
  pose proof (flush_journal_ok (fun _ => True) States.open (fun m => States.mkStates (States.windowLength j) m (States.seen j))
    (States.windowLength j) (Controller.now_coverage jp) States.Snapshots
    (fun r => mkWindowKey (States.WindowStart r) (States.WindowSeconds r)) (AgentStates (ps_now p "collection_coverage"%string))
    Recover.kindAgentStates (journalWindowName agentStatesNamePrefix) (Controller.env jp) s j
    (fun _ => eq_refl) (fun _ => eq_refl) (fun _ _ => eq_refl) (fun _ _ => eq_refl) (fun r Hr => Hr)
    (fun k g _ => I) (any_ok _) Hd) as [H1 _].
  unfold Controller.flush_journal, States.CloseBefore in *. destruct (close_before _ _ _) as [closed m]. cbn zeta beta iota in *.
  destruct (closed ++ _); exact H1.
Qed.
Lemma flush_counters_disk p jp s (j : Counters.Counters) : disk (dir s) ->
  disk (dir (Controller.flush_journal (fun j => Counters.CloseBefore j (Controller.now_coverage jp)) Counters.Snapshots
    (fun s => Recover.WriteAgentCounters sha256 s (Controller.enc_counters (encoders_of json p)) (Controller.env jp)) s j).1).
Proof.
  intros Hd.
  pose proof (flush_journal_ok (fun _ => True) Counters.open
    (fun m => Counters.mkCounters (Counters.windowLength j) m (Counters.prev j) (Counters.prevSince j) (Counters.prevAt j))
    (Counters.windowLength j) (Controller.now_coverage jp) Counters.Snapshots
    (fun r => mkWindowKey (Counters.WindowStart r) (Counters.WindowSeconds r)) (AgentCounters (ps_now p "collection_coverage"%string))
    Recover.kindAgentCounters (journalWindowName agentCountersNamePrefix) (Controller.env jp) s j
    (fun _ => eq_refl) (fun _ => eq_refl) (fun _ _ => eq_refl) (fun _ _ => eq_refl) (fun r Hr => Hr)
    (fun k g _ => I) (any_ok _) Hd) as [H1 _].
  unfold Controller.flush_journal, Counters.CloseBefore in *. destruct (close_before _ _ _) as [closed m]. cbn zeta beta iota in *.
  destruct (closed ++ _); exact H1.
Qed.

Lemma coverage_keeps p w : keeps_agent (Controller.logCoverage sha256 (encoders_of json p) (journal_pass json p w)).
Proof.
  intros a [Hj Hd]. unfold Controller.logCoverage. destruct (Controller.spool a) as [s|] eqn:Hs; [|by split; [|rewrite Hs]].
  set (s1 := Controller.write_files _ _ _ s).
  assert (disk (dir s1)) as H1 by exact (write_clean sha256 json (may_hold f es) s (ps_env p "collection-coverage.json"%string)
    (CollectionCoverage (ps_now p "collection_coverage"%string) (coverage_of p w)) I (Hd s eq_refl)).
  set (jp := journal_pass json p w). set (st := States.Observe _ _ _).
  pose proof (flush_states_disk p jp s1 st H1) as H2. destruct (Controller.flush_journal _ _ _ s1 st) as [s2 st2]. cbn [fst] in H2.
  set (c := Counters.Observe _ _ _ _).
  pose proof (flush_counters_disk p jp s2 c H2) as H3. destruct (Controller.flush_journal _ _ _ s2 c) as [s3 c3]. cbn [fst] in H3.
  destruct Hj. split; [by split|]. intros s' [= <-]. exact H3.
Qed.

(** *** A whole pass *)

Context (identity : string -> string * string) (Hes : informer_order es) (Hapi : api_events identity es).
Implicit Types (w : world) (p : pass).

Lemma flushMetadata_ok p w : Forall (api_pod identity) (Cluster.podList (ps_caches p)) -> W w -> W (flushMetadata sha256 json p w).
Proof.
  intros Hp Hw. unfold flushMetadata. destruct (spool w); [|done]. apply put_all_ok; [|done]. intros x Hx.
  unfold metadata_payloads, Policy.WorkloadPolicies, Policy.ClusterPolicies in Hx. cbn zeta beta iota in Hx. rewrite (ok_pods _ _ _ _ Hw) in Hx. rewrite !elem_of_cons in Hx.
  destruct Hx as [->|[->|[->|[->|[->|[->|Hx]]]]]]; [| | | | | |by apply not_elem_of_nil in Hx].
  - by eapply metadata_seen.
  - done.
  - by eapply revisions_seen.
  - by eapply policies_seen.
  - by eapply cluster_seen.
  - by eapply counters_seen.
Qed.

Lemma set_goStore_ok st w : (forall s, st = Some s -> store_ok s) -> W w -> W (set_goStore st w).
Proof. intros Hs [H1 H2 H3 H4 H5]. by split. Qed.
Lemma set_spool_ok s w : disk (dir s) -> W w -> W (set_spool s w).
Proof. intros Hs [H1 H2 H3 H4 H5]. split; try done. by intros s' [= <-]. Qed.

Lemma write_pending_ok env b w : W w -> W (write_pending sha256 json env w b).
Proof.
  intros Hw. unfold write_pending. destruct (spool w) as [s|] eqn:Hs; [|done]. destruct (goStore w) as [st|] eqn:Hst; [|done].
  unfold WriteGoBuild. case_bool_decide; [apply set_spool_ok; [by apply (ok_disk _ _ _ _ Hw)|done]|].
  pose proof (write_clean sha256 json (may_hold f es) s (env (payload_file (GoBuild b))) (GoBuild b) I (ok_disk _ _ _ _ Hw s Hs)) as Hd.
  destruct (write_payload _ _ _ _ _) as [s1 [e|]]; cbn [fst fmap option_fmap option_map] in *; [by apply set_spool_ok|].
  apply set_goStore_ok; [|by apply set_spool_ok]. intros st' [= <-].
  apply (apply_op_ok st (Inventory.OMark (Inventory.bf_ImageDigest b))); [done|]. by apply (ok_store _ _ _ _ Hw).
Qed.

Lemma flushInventory_ok p w : W w -> W (flushInventory sha256 json p w).
Proof.
  intros Hw. unfold flushInventory. destruct (goStore w) as [st|] eqn:Hst; [|done]. destruct (spool w); [|done].
  pose proof (ok_store _ _ _ _ Hw st Hst) as Hok. apply foldl_ok; [intros w' b _; apply write_pending_ok|].
  apply put_all_ok.
  - intros x Hx. rewrite (ok_pods _ _ _ _ Hw) in Hx. by eapply inventory_seen.
  - apply set_goStore_ok; [|done]. intros st' [= <-]. by apply forgotten_ok.
Qed.

Lemma flusher_ok p fl w : Forall (api_pod identity) (Cluster.podList (ps_caches p)) -> fl ∈ flushers sha256 json p -> W w -> W (Controller.run fl w).
Proof.
  intros Hp Hfl Hw. unfold flushers in Hfl. rewrite !elem_of_cons in Hfl.
  destruct Hfl as [->|[->|[->|[->|[->|[->|[->|[->|Hx]]]]]]]]; [..|by apply not_elem_of_nil in Hx]; cbn [Controller.run].
  - apply over_agent_ok; [apply coverage_keeps|done].
  - by apply flushMetadata_ok.
  - by apply flushInventory_ok.
  - apply over_agent_ok; [apply flush_restarts_keeps|done].
  - apply over_agent_ok; [apply flush_disruptions_keeps|done].
  - apply over_agent_ok; [apply flush_jobs_keeps|done].
  - apply over_agent_ok; [apply flush_nodes_keeps|done].
  - apply over_agent_ok; [apply flush_goroutines_keeps|done].
Qed.
Lemma runFlushers_ok p shutdown w : Forall (api_pod identity) (Cluster.podList (ps_caches p)) -> W w ->
  W (Controller.runFlushers (flushers sha256 json p) shutdown w).
Proof.
  intros Hp Hw. unfold Controller.runFlushers. apply foldl_ok; [|done]. intros w' fl Hfl Hw'. destruct (shutdown && _); [done|]. by apply (flusher_ok p).
Qed.

(** ** The other callbacks *)

Lemma dispatch_ok env r w : report_names f es r -> W w -> exists w', dispatch sha256 json env r w = Some w' /\ W w'.
Proof.
  intros Hr Hw. pose proof (ok_journals _ _ _ _ Hw) as Hj. destruct r as [i|k|e|d|j]; cbn [dispatch report_names] in *.
  - by exists w.
  - eexists. split; [done|]. by apply put_ok.
  - destruct (restarts_observe f es (Controller.restarts (journals w)) e (ok_restarts _ _ _ Hj) Hr) as (r' & -> & Hr').
    cbn. eexists. split; [done|]. apply set_journals_ok; [|done]. destruct Hj. by split.
  - eexists. split; [done|]. apply set_journals_ok; [|done]. pose proof (disruptions_observe f es _ d (ok_disruptions _ _ _ Hj) Hr). destruct Hj. by split.
  - eexists. split; [done|]. apply set_journals_ok; [|done]. pose proof (jobs_observe f es _ j (ok_jobs _ _ _ Hj) Hr). destruct Hj. by split.
Qed.
Lemma dispatch_all_ok env rs w : Forall (report_names f es) rs -> W w ->
  exists w', dispatch_all sha256 json env rs (Some w) = Some w' /\ W w'.
Proof.
  intros Hrs. revert w. induction Hrs as [|r rs Hr Hrs IH]; intros w Hw; [by exists w|].
  destruct (dispatch_ok env r w Hr Hw) as (w1 & E & H1). unfold dispatch_all. cbn. rewrite E. by apply IH.
Qed.

Lemma node_event_ok e w : W w -> W (node_event e w).
Proof.
  intros Hw. unfold node_event. destruct (Nodes.node_step (fleet w) e) as [fl rs]. apply foldl_ok.
  - intros w' r _ Hw'. destruct r; [done|]. cbn. apply set_journals_ok; [|done]. destruct (ok_journals _ _ _ _ Hw'). by split.
  - destruct Hw. by split.
Qed.

Lemma poll_ok cancelled reads now w : W w -> W (poll cancelled reads now w).
Proof.
  intros Hw. pose proof (ok_pods _ _ _ _ Hw) as Hp. unfold poll. rewrite Hp.
  pose proof (pollOnce_ok f es _ (HostNetwork (run f es).1) _ (LookupPod_seen identity f es Hes Hapi) (LookupPodByName_seen identity f es Hes Hapi)
    cancelled reads now _ (ok_poller _ _ _ _ Hw)) as H. destruct Hw. by split.
Qed.

Lemma onClosed_ok env stuck rs w : (forall r, r ∈ rs -> usage_ok f es (UsageRecord.RKey r)) -> W w -> W (onClosed sha256 json env stuck rs w).
Proof.
  intros Hrs. apply on_spool_ok. intros s Hd. unfold Recover.WriteClosedWindows. apply close_groups_clean; [|done].
  intros k g Hin%elem_of_map_to_list. exists (UsageWindow k (Usage.Observation_ (poller w)) g). split_and!; try done.
  intros r Hr. apply Hrs. rewrite Recover.group_lookup in Hin.
  destruct (filter _ rs) as [|x l] eqn:E; [done|]. injection Hin as <-. rewrite <-E in Hr. by apply list_elem_of_filter in Hr as [_ Hr].
Qed.
Lemma unless_empty_ok {A} (l : list A) g w : (W w -> W (g l w)) -> W w -> W (unless_empty l g w).
Proof. destruct l; auto. Qed.
Lemma set_publisher_ok x w : W w -> W (set_publisher x w).
Proof. intros [H1 H2 H3 H4 H5]. by split. Qed.
Lemma onSnapshot_ok env rs w : (forall r, r ∈ rs -> usage_ok f es (UsageRecord.RKey r)) -> W w -> W (onSnapshot sha256 json env rs w).
Proof.
  intros Hrs Hw. unfold onSnapshot. set (w1 := match publisher w with None => w | Some _ => _ end). assert (W w1) as H1 by (subst w1; destruct (publisher w); [by apply set_publisher_ok|done]).
  apply on_spool_ok; [|done]. intros s Hd. apply (write_windows_clean _ _ _ (fun k g => UsageSnapshot k (Usage.Observation_ (poller w1)) g)); [done|done| |done].
  intros k g Hg r Hr. by apply Hrs, Hg.
Qed.
Lemma onNetwork_ok env rs w : (forall r, r ∈ rs -> network_ok f es (Network.NKey r)) -> W w -> W (onNetwork sha256 json env rs w).
Proof.
  intros Hrs. apply on_spool_ok. intros s Hd. unfold WriteNetworkWindows.
  apply (write_windows_clean _ _ _ (fun k g => NetworkWindow k (Usage.Observation_ (poller w)) g)); [done|done| |done].
  intros k g Hg r Hr. by apply Hrs, Hg.
Qed.
Lemma flush_usage_ok now env stuck w : W w -> W (flush_usage sha256 json now env stuck w).
Proof.
  intros Hw. unfold flush_usage. destruct (Usage.flush now (poller w)) as [fl p] eqn:E.
  destruct (flush_ok f es _ _ _ _ E (ok_poller _ _ _ _ Hw)) as (Hp & Hc & Hs & Hn).
  apply unless_empty_ok; [by apply onNetwork_ok|]. apply unless_empty_ok; [by apply onSnapshot_ok|]. apply unless_empty_ok; [by apply onClosed_ok|].
  destruct Hw. by split.
Qed.

Lemma onReport_ok at_ node r w : NodeReport.r_Node r <> ""%string -> at_ <> 0 -> W w -> W (onReport at_ node r w).
Proof.
  intros Hn Ha Hw. unfold onReport. destruct (goStore w) as [st|] eqn:Hst; [|done]. apply set_goStore_ok; [|done]. intros st' [= <-].
  apply (apply_op_ok st (Inventory.OIngest at_ r (Inventory.podContainerResolver (pods w) node))); [done|]. by apply (ok_store _ _ _ _ Hw).
Qed.
Lemma set_tallies_ok a b c w : W w -> W (set_tallies a b c w).
Proof. intros [H1 H2 H3 H4 H5]. by split. Qed.
Lemma onProfile_ok env node r w : W w -> W (onProfile sha256 json env node r w).
Proof.
  intros Hw. unfold onProfile. destruct (LookupContainerOnNode _ _ _ _) as [x|] eqn:Hx; [|by apply set_tallies_ok].
  destruct (spool w) as [s|] eqn:Hs; [|by apply set_tallies_ok]. rewrite (ok_pods _ _ _ _ Hw) in Hx.
  assert (may_hold f es (EBPFProfile (profile_key r x) (NodeIntake.Pprof r))) as Hm.
  { exists (Model.Kind x.1.2). eapply LookupContainer_seen in Hx; [|done..]. cbn. by destruct (x.1.2). }
  pose proof (write_clean sha256 json (may_hold f es) s (env (payload_file (EBPFProfile (profile_key r x) (NodeIntake.Pprof r)))) _ Hm (ok_disk _ _ _ _ Hw s Hs)) as Hd.
  destruct (write_payload _ _ _ _ _) as [s1 [e|]]; cbn [fst] in Hd; [by apply set_spool_ok|]. by apply set_tallies_ok, set_spool_ok.
Qed.

Lemma set_intake_ok x w : W w -> W (set_intake x w).
Proof. intros [H1 H2 H3 H4 H5]. by split. Qed.
Lemma receive_report_ok at_ rq w : at_ <> 0 -> W w -> W (receive_report at_ rq w).
Proof.
  intros Ha Hw. unfold receive_report. destruct (intake w) as [rc|]; [|done].
  destruct (NodeIntake.handed _) as [[id r]|] eqn:E; [|by apply set_intake_ok].
  apply NodeIntake.ServeHTTP_handed in E as (_ & _ & Hn & Hne). apply onReport_ok; [by rewrite Hn|done|by apply set_intake_ok].
Qed.
Lemma receive_profile_ok env rq w : W w -> W (receive_profile sha256 json env rq w).
Proof.
  intros Hw. unfold receive_profile. destruct (intake w) as [rc|]; [|done].
  destruct (NodeIntake.handed _) as [[id r]|]; [apply onProfile_ok|]; by apply set_intake_ok.
Qed.

(** The funnel moves nothing but its own counters. *)
Lemma candidates_ok w : W w -> W (candidates w).2 /\ pods (candidates w).2 = pods w.
Proof. intros Hw. unfold candidates. destruct (goStore w); [|done]. destruct (Probe.admitted_candidates _ _). split; [by apply set_tallies_ok|done]. Qed.
Lemma confirmed_ok w : W w -> W (confirmed w).2 /\ pods (confirmed w).2 = pods w.
Proof.
  intros Hw. unfold confirmed. destruct (prober w); [|done]. pose proof (candidates_ok w Hw) as H. by destruct (candidates w).
Qed.
Lemma probe_round_ok c turns w : W w -> W (probe_round c turns w).
Proof.
  intros Hw. unfold probe_round. destruct (prober w); [|done]. pose proof (candidates_ok w Hw) as [H _]. destruct (candidates w) as [cs w1].
  cbn [snd] in H. destruct H. by split.
Qed.

Lemma pulled_seen c (vs : nat -> Pull.surroundings) parse check_valid encode i cands pl pu :
  (forall j, Pull.vs_address (vs j) = Probe.Address c (run f es).1) ->
  pu ∈ omap Pull.cp_sink (Pull.cycle_loop parse check_valid encode i vs cands pl).2 -> may_hold f es (pulled_payload pu).
Proof.
  intros Hvs. revert i pl. induction cands as [|cand cands IH]; intros i pl; cbn [Pull.cycle_loop]; [by intros H%not_elem_of_nil|].
  destruct (_ || _); [by intros H%not_elem_of_nil|].
  pose proof (Pull.visit_spec parse check_valid encode (vs i) cand pl) as Hv. rewrite Hvs in Hv.
  destruct (Pull.visit _ _ _ (vs i) cand pl) as [pl1 made].
  specialize (IH (S i) pl1). destruct (Pull.cycle_loop _ _ _ (S i) vs cands pl1) as [pl2 log]. cbn [snd] in *.
  rewrite omap_app, elem_of_app. intros [Hin|Hin]; [|by apply IH].
  destruct (Probe.Address c (run f es).1 cand) as [addr|] eqn:Ha; [|injection Hv as -> ->; by apply not_elem_of_nil in Hin].
  destruct Hv as (p' & cap & [= -> ->] & _ & _ & _ & _ & _ & Hsink).
  eapply Address_seen in Ha; [|done..]. cbn in Hin. destruct (Pull.is_handed _).
  - destruct Hsink as (pu' & Hpu & Hns & Hk & Hn & _). rewrite Hpu in Hin. cbn in Hin. apply list_elem_of_singleton in Hin as ->.
    exists (Probe.cd_WorkloadKind cand). cbn. by rewrite Hns, Hn.
  - rewrite Hsink in Hin. by apply not_elem_of_nil in Hin.
Qed.
Lemma pull_cycle_ok parse check_valid encode c now env visits w : W w -> W (pull_cycle sha256 json parse check_valid encode c now env visits w).
Proof.
  intros Hw. unfold pull_cycle. destruct (puller w) as [pl|]; [|done]. pose proof (confirmed_ok w Hw) as [H1 H2].
  destruct (confirmed w) as [cands w1]. cbn [snd] in H1, H2. rewrite (ok_pods _ _ _ _ H1).
  set (vs := fun i => _).
  pose proof (fun pu => pulled_seen c vs parse check_valid encode 0 (Pull.due pl now cands) pl pu (fun _ => eq_refl)) as Hseen.
  unfold Pull.cycle. destruct (Pull.cycle_loop _ _ _ 0 vs _ pl) as [pl1 log]. cbn [snd] in Hseen.
  apply foldl_ok; [|destruct H1; by split]. intros w' pu Hpu Hw'. apply put_ok; [|done]. by apply Hseen.
Qed.

Lemma samples_seen c envs n cands cn g :
  (forall cand, Readings.su_replica (envs cand) = Probe.Replica c (run f es).1 cand) ->
  g ∈ Readings.samples (Readings.read_loop envs n cands cn).2 -> seen_pod f es (Model.gcNamespace g) (Model.gcPod g) (Model.gcWorkload g).
Proof.
  intros He. revert n cn. induction cands as [|cand cands IH]; intros n cn; cbn [Readings.read_loop]; [by intros H%not_elem_of_nil|].
  destruct (_ || _); [by intros H%not_elem_of_nil|]. destruct (Readings.heldOff _ _ _); [apply IH|].
  destruct (Readings.visit (envs cand) cand cn) as [c1 o] eqn:Hv. apply Readings.visit_accounts in Hv as [Ha _].
  specialize (IH (n + 1) c1). destruct (Readings.read_loop envs (n + 1) cands c1) as [c2 log]. cbn [snd] in *.
  unfold Readings.samples. cbn [omap list_omap]. destruct o as [g0| |]; cbn [snd]; [|exact IH..].
  intros [->|Hin]%elem_of_cons; [|by apply IH]. destruct Ha as (addr & pod & k & Hr & _ & ->). cbn in *. rewrite He in Hr.
  unfold Probe.Replica in Hr. apply fmap_Some in Hr as ([ip nm] & Hr & [= _ ->]). by eapply PodReplica_seen.
Qed.
Lemma count_round_ok c envs w : W w -> W (count_round c envs w).
Proof.
  intros Hw. unfold count_round. destruct (counter w) as [cn|]; [|done]. pose proof (confirmed_ok w Hw) as [H1 _].
  destruct (confirmed w) as [cands w1]. cbn [snd] in H1. rewrite (ok_pods _ _ _ _ H1). set (around := fun cand => _).
  pose proof (fun g => samples_seen c around 0 (Readings.processes cands) cn g (fun _ => eq_refl)) as Hs.
  unfold Readings.count_round. destruct (Readings.read_loop around 0 _ cn) as [cn1 log]. cbn [snd] in Hs.
  apply set_journals_ok; [|destruct H1; by split]. pose proof (ok_journals _ _ _ _ H1) as Hj.
  assert (map_Forall (fun _ => goroutine_ok f es) (Goroutines.open (foldl Goroutines.Observe (Controller.goroutines (journals w1)) (Readings.samples log)))) as Hg.
  { apply (foldl_ok (fun g => map_Forall (fun _ => goroutine_ok f es) (Goroutines.open g))); [|apply Hj].
    intros g x Hx Hg. apply goroutines_observe; [done|]. by apply Hs. }
  destruct Hj. by split.
Qed.
End passes.

(** ** One step of the controller *)

Lemma world_ok_more json f es e w :
  world_ok json f es w -> world_ok json f (es ++ [e]) (set_pods (step (pods w) e).1 w).
Proof.
  assert (es ⊆ es ++ [e]) as Hs by set_solver. intros [H1 [J1 J2 J3 J4] [Ha Hn] H4 H5]. split; cbn.
  - by rewrite run_snoc, H1.
  - split; intros k r Hr; [destruct (J1 _ _ Hr) as [Hp Hm]; split; [|exact Hm]|pose proof (J2 _ _ Hr) as Hp|pose proof (J3 _ _ Hr) as Hp|pose proof (J4 _ _ Hr) as Hp];
      unfold disruption_ok, job_ok, goroutine_ok in *; eauto using seen_pod_more, seen_job_more.
  - split; [intros k r Hr; pose proof (Ha _ _ Hr) as Hp|intros k r Hr; pose proof (Hn _ _ Hr) as Hp];
      unfold usage_ok, network_ok in *; eauto using seen_workload_more.
  - exact H4.
  - intros s Hsp. eapply clean_more; [|by apply H5]. intros p. by apply may_hold_more.
Qed.

(** What the surroundings of a step are assumed to be: the listed pods are objects
    of the API server, and the clock of the controller has been set. *)
Definition sane (identity : string -> string * string) (h : happening) : Prop :=
  match h with
  | HPass p _ _ _ | HFlush p _ | HShutdown p => Forall (api_pod identity) (Cluster.podList (ps_caches p))
  | HReport at_ _ => at_ <> 0
  | _ => True
  end.
(** The events the pod watcher was given. *)
Definition pod_events (hs : list happening) : list event :=
  omap (fun h => match h with HPod _ e => Some e | _ => None end) hs.

Section lives.
Context (sha256 : string -> string) (json : payload -> option string).
Context (parse : string -> option SymbolFilter.Profile) (check_valid : SymbolFilter.Profile -> bool)
  (encode : SymbolFilter.Profile -> option string).
Context (identity : string -> string * string) (f : Admission.Filter).
Abbreviation happens := (happen sha256 json parse check_valid encode).

Lemma pod_event_ok env es e w : informer_order es -> world_ok json f es w ->
  exists w', pod_event sha256 json env e w = Some w' /\ world_ok json f (es ++ [e]) w'.
Proof.
  intros Hes Hw. unfold pod_event. pose proof (world_ok_more json f es e w Hw) as Hw'.
  pose proof (step_names f es (pods w) e) as Hn. destruct (step (pods w) e) as [p rs]. cbn [fst snd] in *.
  apply dispatch_all_ok; [|done]. apply Hn. rewrite (ok_pods _ _ _ _ Hw). destruct (run_index f es Hes) as [Hf _]. exact Hf.
Qed.

Lemma happen_ok es w h :
  informer_order (es ++ pod_events [h]) -> api_events identity (es ++ pod_events [h]) -> sane identity h -> world_ok json f es w ->
  exists w', happens w h = Some w' /\ world_ok json f (es ++ pod_events [h]) w'.
Proof.
  intros Ho Ha Hh Hw. destruct h; cbn in Ho, Ha, Hh; cbn [happen pod_events omap list_omap].
  { apply pod_event_ok; [|done]. by eapply informer_order_snoc. }
  all: rewrite app_nil_r in *; eexists; split; [reflexivity|].
  - by apply node_event_ok.
  - by eapply poll_ok.
  - by apply flush_usage_ok.
  - by apply receive_report_ok.
  - by eapply receive_profile_ok.
  - by apply probe_round_ok.
  - by eapply pull_cycle_ok.
  - by eapply count_round_ok.
  - apply on_spool_ok; [|by eapply runFlushers_ok]. intros s. eapply clean_subset, Sweep_subset.
  - case_match eqn:E; [|done]. apply list_elem_of_lookup_2 in E. by eapply flusher_ok.
  - apply on_spool_ok; [|done]. intros s. eapply clean_subset, Sweep_subset.
  - apply on_spool_ok; [|done]. intros s. eapply clean_subset, delete_subseteq.
  - unfold Controller.runShutdown. cbn zeta. by eapply runFlushers_ok.
Qed.

Lemma run_all_ok hs es w :
  informer_order (es ++ pod_events hs) -> api_events identity (es ++ pod_events hs) -> Forall (sane identity) hs -> world_ok json f es w ->
  exists w', run_all sha256 json parse check_valid encode hs (Some w) = Some w' /\ world_ok json f (es ++ pod_events hs) w'.
Proof.
  induction hs as [|h hs IH] using rev_ind; intros Ho Ha Hh Hw; [exists w; by rewrite app_nil_r|].
  unfold pod_events in *. rewrite omap_app, app_assoc in *. fold (pod_events hs) in *. fold (pod_events [h]) in *.
  apply Forall_app in Hh as [Hhs Hh]. rewrite Forall_singleton in Hh.
  destruct IH as (w1 & E & H1); [| |done|done|].
  - destruct h; cbn in Ho; rewrite ?app_nil_r in Ho; try done. by eapply informer_order_snoc.
  - intros e c p He. apply Ha. set_solver.
  - unfold run_all in *. rewrite foldl_app, E. cbn. by apply happen_ok.
Qed.

(** A life begins with nothing held. *)
Lemma fresh_ok w :
  pods w = NewPodWatcher f -> journals_ok f [] (journals w) -> poller_ok f [] (poller w) ->
  (forall s, goStore w = Some s -> exists now, s = Inventory.NewStore now) ->
  (forall s, spool w = Some s -> clean json (may_hold f []) (dir s)) -> world_ok json f [] w.
Proof.
  intros Hp Hj Ho Hg Hs. split; [by rewrite Hp|done|done| |done].
  intros st [now ->]%Hg. eexists. split; [apply Inventory.simulates_new|done].
Qed.
(** A spool with nothing but temporary files names no payload. *)
Lemma emptied_clean ok d : Handover.emptied d -> clean json ok d.
Proof.
  intros He nm data m Hnm Hl. destruct (He _ _ Hl) as [|Ht]; [done|]. destruct (Handover.tmp_not_json _ Ht) as [E _]. congruence.
Qed.

(** What a start needs of what it resumed. *)
Lemma start_ok dec listed st now :
  f = st_filter st ->
  (forall s, st_spool st = Some s -> clean json (may_hold f []) (dir s) /\
     let rec := (Recover.RecoverOpenWindows dec s now).1 in
     journals_ok f [] (Controller.resume_journals rec newJournals).1 /\ poller_ok f [] (Usage.Seed Usage.NewUsagePoller (Recover.Records rec)).1) ->
  world_ok json f [] (start dec listed st now).
Proof.
  intros Hf He.
  assert (forall g : Inventory.Store, (if bool_decide (is_Some (st_intake st)) then Some (Inventory.NewStore now) else None) = Some g -> exists t, g = Inventory.NewStore t) as Hg
    by (intros g; case_bool_decide; [intros [= <-]; eauto|done]).
  unfold start. destruct (st_spool st) as [s|] eqn:Hs; [|by apply fresh_ok; cbn; rewrite ?Hf].
  destruct (He s eq_refl) as (Hc & Hj & Hp). unfold Controller.seedOpenWindows. destruct listed; cbn [negb].
  - assert (dir (Recover.RecoverOpenWindows dec s now).2 = dir s) as Hd by done.
    destruct (Recover.RecoverOpenWindows dec s now) as [rec s']. cbn [fst snd] in *.
    destruct (Controller.resume_journals rec newJournals) as [j n]. cbn [fst] in Hj.
    apply fresh_ok; cbn; [by rewrite Hf|done|done|done|]. intros s0 [= <-]. by rewrite Hd.
  - apply fresh_ok; cbn; [by rewrite Hf|by split|done|done|]. by intros s0 [= <-].
Qed.
Lemma start_emptied dec listed st now :
  f = st_filter st -> (forall s, st_spool st = Some s -> Handover.emptied (dir s)) -> world_ok json f [] (start dec listed st now).
Proof.
  intros Hf He. apply start_ok; [done|]. intros s Hs. specialize (He s Hs). split; [by apply emptied_clean|].
  rewrite (Handover.recover_emptied dec s now He). by split.
Qed.
End lives.
End consent.

(** ** Properties *)

(** The promise of the agent, over the assembled controller.  Whatever the
    order of its informer events, polls, pushes from the nodes, pprof rounds,
    passes over the writers, sweeps, deliveries and shutdown, and however its
    writes fail: no step panics, and every payload file it leaves on disk is the
    document of a payload whose every pod, job and workload was the subject of an
    event that found it consenting under the configured filter. *)
Theorem only_consenting_objects_are_recorded
    (sha256 : string -> string) (json : payload -> option string) (parse : string -> option SymbolFilter.Profile)
    (check_valid : SymbolFilter.Profile -> bool) (encode : SymbolFilter.Profile -> option string)
    (identity : string -> string * string) (dec : Recover.decoders) (listed : bool) (st : settings) (now : Time)
    (hs : list happening) :
  informer_order (pod_events hs) -> api_events identity (pod_events hs) -> Forall (sane identity) hs ->
  (forall s, st_spool st = Some s -> Handover.emptied (dir s)) ->
  exists w, run_all sha256 json parse check_valid encode hs (Some (start dec listed st now)) = Some w /\
    forall s nm data m, spool w = Some s -> HasSuffix nm ".json" = true -> dir s !! nm = Some (FileNode data m) ->
      exists p doc, may_hold nobody (st_filter st) (pod_events hs) p /\ nm = payload_file p /\ json p = Some doc /\ data = document doc.
Proof.
  intros Ho Ha Hh He. destruct (run_all_ok nobody sha256 json parse check_valid encode identity (st_filter st) hs [] (start dec listed st now) Ho Ha Hh)
    as (w & E & Hw); [by apply start_emptied|]. exists w. split; [exact E|].
  intros s nm data m Hs Hnm Hl. by apply (ok_disk _ _ _ _ _ Hw s Hs nm data m).
Qed.

(** A short life over [PodIndex.demo_events]: a pod restarts twice, another opts
    out; the writers run, and run again at the shutdown. *)
Definition demo_at : Time := unixEpoch + Hour + Minute.
Definition demo_life_pass : pass :=
  mkPass (fun _ => demo_at) (fun _ => mkIo demo_at demo_at NoFault) unixEpoch "v1"
    (Config.mkShape unixEpoch 0 1 true 10 true true 0 true false 72) None [] Minute demo_caches
    (Revisions.mkStrategyCaches (fun _ _ => None) (fun _ _ => None) (fun _ _ => None)) []
    (Policy.mkPolicyCaches None None None None None None None None None None).
Definition demo_life : list happening :=
  (HPod (fun _ => mkIo demo_at demo_at NoFault) <$> demo_events) ++
  [HUsageFlush demo_at (fun _ => mkIo demo_at demo_at NoFault) ∅; HPass demo_life_pass ∅ ∅ demo_at; HShutdown demo_life_pass].
Definition demo_receiver : receiver := mkReceiver NodeIntake.demo_verifier NodeIntake.NewHandler NodeIntake.NewProfileHandler.
Definition demo_settings : settings :=
  mkSettings demo_filter (Some (NewSpool ∅ 0)) (Some 10) (Some demo_receiver) true true [] SymbolFilter.ThirdPartyDrop.
Definition demo_json (p : payload) : option string := Some (payload_kind p).
Definition demo_decoders : Recover.decoders := Controller.demo_decoders.
Definition demo_identity (uid : string) : string * string :=
  if bool_decide (uid = "u1"%string) then ("shop", "web-0")%string else ("shop", "db-0")%string.
Definition demo_end : option world :=
  run_all (fun s => s) demo_json (fun _ => None) (fun _ => true) (fun _ => None) demo_life
    (Some (start demo_decoders true demo_settings unixEpoch)).
Definition demo_file (nm : string) : option string :=
  w ← demo_end; s ← spool w; match dir s !! nm with Some (FileNode d _) => Some d | _ => None end.

Lemma demo_api : api_events demo_identity (pod_events demo_life).
Proof.
  change (pod_events demo_life) with demo_events. intros e c p He Ha. unfold demo_events in He.
  rewrite !elem_of_cons in He. destruct He as [->|[->|[->|[->|He]]]]; [..|by apply not_elem_of_nil in He];
    injection Ha as <- <-; repeat split; vm_compute; reflexivity.
Defined.

(** The restart window this life leaves behind is the document of a payload about
    consenting pods. *)
Lemma only_consenting_objects_are_recorded_witness :
  exists p, may_hold nobody demo_filter demo_events p /\ payload_file p = "restarts-3600-3600.json"%string /\
    demo_file "restarts-3600-3600.json" = Some (document "container_restarts").
Proof.
  destruct (only_consenting_objects_are_recorded (fun s => s) demo_json (fun _ => None) (fun _ => true) (fun _ => None) demo_identity
              demo_decoders true demo_settings unixEpoch demo_life) as (w & Hw & Hd).
  - exact demo_order.
  - exact demo_api.
  - repeat constructor.
  - intros s [= <-] n nd Hn. change (dir (NewSpool ∅ 0)) with (∅ : fs) in Hn. by apply lookup_empty_Some in Hn.
  - assert (demo_file "restarts-3600-3600.json" = Some (document "container_restarts")) as Hf by (vm_compute; reflexivity).
    fold demo_end in Hw. pose proof Hf as Hf'. unfold demo_file in Hf'. rewrite Hw in Hf'. cbn in Hf'.
    destruct (spool w) as [s|] eqn:Hs; [|discriminate]. cbn in Hf'.
    destruct (dir s !! "restarts-3600-3600.json"%string) as [[|d m]|] eqn:E; [discriminate| |discriminate].
    destruct (Hd s "restarts-3600-3600.json"%string d m eq_refl eq_refl E) as (p & doc & Hp & Hn & _).
    exists p. split; [exact Hp|]. split; [symmetry; exact Hn|exact Hf].
Defined.

(** ** What consent does not undo *)

Definition named_json (p : payload) : option string :=
  match p with
  | ContainerRestarts _ _ rs => Some (String.concat "," ((fun r => Restarts.Pod (Restarts.RKey r)) <$> rs))
  | _ => Some (payload_kind p)
  end.
Definition pass_at (at_ : Time) : pass :=
  mkPass (fun _ => at_) (fun _ => mkIo at_ at_ NoFault) unixEpoch "v1" (ps_config demo_life_pass) None [] Minute demo_caches
    (ps_strategies demo_life_pass) [] (ps_policies demo_life_pass).
Definition file_after (st : settings) (now : Time) (hs : list happening) (nm : string) : option string :=
  w ← run_all (fun s => s) named_json (fun _ => None) (fun _ => true) (fun _ => None) hs (Some (start demo_decoders true st now));
  s ← spool w; match dir s !! nm with Some (FileNode d _) => Some d | _ => None end.

(** A pod that opts out leaves the index at once, but the open window of the
    restart journal still names it in the passes that follow. *)
Definition opting_out : list event :=
  [EAdd demo_caches demo_clock (demo_pod "web-0" "u1" ∅ 3);
   EUpdate demo_caches demo_clock (demo_pod "web-0" "u1" ∅ 3) (demo_pod "web-0" "u1" ∅ 5);
   EUpdate demo_caches demo_clock (demo_pod "web-0" "u1" ∅ 5) (demo_pod "web-0" "u1" opted_out 5)].
Example an_opted_out_pod_stays_in_the_open_window :
  index (run demo_filter opting_out).1 = ∅ /\
  file_after demo_settings unixEpoch
    ((HPod (fun _ => mkIo demo_at demo_at NoFault) <$> opting_out) ++ [HPass (pass_at demo_at) ∅ ∅ demo_at])
    "restarts-3600-3600.json" = Some (document "web-0").
Proof. split; vm_compute; reflexivity. Qed.

(** A restart with a narrower filter resumes the open windows of the previous
    configuration, and writes them again: the namespace is denied here, and no
    event was seen at all. *)
Definition narrowed : settings :=
  mkSettings (Admission.NewFilter [] ["shop"%string])
    (Some (NewSpool {[journalWindowName restartsNamePrefix (mkWindowKey Controller.demo_hour 3600) := FileNode (document "{}") Controller.demo_hour]} 0))
    None None false false [] SymbolFilter.ThirdPartyDrop.
Example a_narrower_filter_resumes_what_it_excludes :
  let now := Controller.demo_hour + 30 * Minute in
  file_after narrowed now [HPass (pass_at now) ∅ ∅ now] (journalWindowName restartsNamePrefix (mkWindowKey Controller.demo_hour 3600)) =
    Some (document "web-1").
Proof. vm_compute. reflexivity. Qed.
