(* ===== verification/Lives.v ===== *)
(** The agent over its restarts: lives of the controller over one spool directory,
    each with its own configuration, events and end, the next resuming what the
    previous one left ([run] of [cmd/agent/main.go], [seedOpenWindows] of
    [cmd/agent/recover.go]).

    What a life resumes it read from documents, so the promise of Consent.v carries
    over a restart as long as decoding a document returns the objects it was
    rendered from: [ReadsBack] says so of [encoding/json], one field per kind the
    startup read resumes by the name of a pod, a job or a workload.  The node,
    state and counter journals it also resumes name none. *)

From stdpp Require Import prelude gmap strings list.
From Stdlib Require Import ZArith Lia.
From S2P Require Import Prelude GoTime GoStrings FileNames Journal PodWatcher PodIndex Spool OnDisk Writers Wiring Consent.
From S2P Require Model Admission Cluster Usage UsageRecord Restarts Disruptions JobRuns NodeEvents Goroutines States Counters.
From S2P Require SymbolFilter NodeIntake Recover Controller Config Accumulator Handover.
#[local] Existing Instances Model.WorkloadRef_eq_dec Restarts.Key_eq_dec Restarts.Key_countable
  Restarts.restart_record Restarts.restart_laws Disruptions.disruption_record Disruptions.disruption_laws
  NodeEvents.node_event_record NodeEvents.node_event_laws JobRuns.job_run_record JobRuns.job_run_laws
  Goroutines.goroutine_record Goroutines.goroutine_laws States.state_record States.state_laws
  Counters.counter_record Counters.counter_laws.
Local Open Scope Z_scope.

(** ** Decoding what was rendered *)

(** The object a record is about. *)
Definition restart_object (r : Restarts.RestartRecord) : Restarts.Key * Model.WorkloadRef := (Restarts.RKey r, Restarts.Workload r).
Definition disruption_object (r : Disruptions.DisruptionRecord) := (Disruptions.Namespace r, Disruptions.Pod r, Disruptions.Workload r).
Definition job_object (r : JobRuns.JobRunRecord) := (JobRuns.Namespace r, JobRuns.Name r, JobRuns.Workload r).
Definition goroutine_object (r : Goroutines.GoroutineRecord) := (Goroutines.RKey r, Goroutines.Workload r).

Definition restarts_of (p : payload) := match p with ContainerRestarts _ _ rs => Some rs | _ => None end.
Definition disruptions_of (p : payload) := match p with PodDisruptions _ _ rs => Some rs | _ => None end.
Definition jobs_of (p : payload) := match p with JobRuns _ _ rs => Some rs | _ => None end.
Definition goroutines_of (p : payload) := match p with GoroutineCounts _ _ rs => Some rs | _ => None end.
Definition usage_of (p : payload) : option (list (option UsageRecord.Record_)) :=
  match p with UsageSnapshot _ _ rs => Some (Some <$> rs) | _ => None end.

(** A document decoded under a kind was rendered from a payload of that kind, and
    each record read is about an object of a record rendered. *)
Definition reads {R O} (json : payload -> option string) (dec : string -> option (Recover.journalWindow R)) (kind : string)
    (held : payload -> option (list R)) (object : R -> O) : Prop :=
  forall p doc w, json p = Some doc -> dec (document doc) = Some w -> Recover.jw_kind w = kind ->
    exists rs, held p = Some rs /\ forall r, r ∈ Recover.jw_records w -> object r ∈ object <$> rs.

Class ReadsBack (json : payload -> option string) (dec : Recover.decoders) : Prop := {
  rb_usage : reads json (Recover.dec_usage dec) Recover.kindUsageSnapshot usage_of (fmap UsageRecord.RKey);
  rb_restarts : reads json (Recover.dec_restarts dec) Recover.kindContainerRestarts restarts_of restart_object;
  rb_disruptions : reads json (Recover.dec_disruptions dec) Recover.kindPodDisruptions disruptions_of disruption_object;
  rb_jobs : reads json (Recover.dec_jobs dec) Recover.kindJobRuns jobs_of job_object;
  rb_goroutines : reads json (Recover.dec_goroutines dec) Recover.kindGoroutineCounts goroutines_of goroutine_object;
}.

(** ** What a startup resumes *)

Section resume.
Context (json : payload -> option string) (dec : Recover.decoders) `{!ReadsBack json dec}.
Context (past : memory) (f : Admission.Filter).
Abbreviation disk := (clean json (names past)).

Definition usage_known (o : option UsageRecord.Record_) : Prop := forall r, o = Some r -> usage_ok past f [] (UsageRecord.RKey r).
Definition restart_known (r : Restarts.RestartRecord) : Prop :=
  seen_pod past f [] (Restarts.Namespace (Restarts.RKey r)) (Restarts.Pod (Restarts.RKey r)) (Restarts.Workload r).

Record recovered_ok (rec : Recover.Recovery) : Prop := {
  rec_usage : Forall (fun r => usage_known (Some r)) (Recover.Records rec);
  rec_restarts : Forall restart_known (Recover.rRestarts rec);
  rec_disruptions : Forall (disruption_ok past f []) (Recover.rDisruptions rec);
  rec_jobs : Forall (job_ok past f []) (Recover.rJobRuns rec);
  rec_goroutines : Forall (goroutine_ok past f []) (Recover.rGoroutineCounts rec);
}.

(** A window read from a clean directory is about objects its file's payload names. *)
Lemma window_known {R O} d nm kind k (decode : string -> option (Recover.journalWindow R)) windowOf held (object : R -> O) (ok : R -> Prop) rs :
  reads json decode kind held object ->
  (forall p l r r', names past p -> held p = Some l -> r' ∈ l -> object r = object r' -> ok r) ->
  disk d -> HasSuffix nm ".json" = true ->
  Recover.read_window d nm kind k decode windowOf = Ok rs -> Forall ok rs.
Proof.
  intros Hr Hok Hd Hnm H. apply Recover.read_window_ok in H as (_ & data & m & w & Hf & _ & Hw & Hk & _ & _ & <-).
  destruct (Hd nm data m Hnm Hf) as (p & doc & Hp & _ & Hj & ->). destruct (Hr p doc w Hj Hw Hk) as (l & Hl & Hin).
  apply Forall_forall. intros r (r' & E & Hr')%Hin%list_elem_of_fmap. by eapply Hok.
Qed.
Lemma resumed_known {R O} d nm prefix kind now (decode : string -> option (Recover.journalWindow R)) windowOf held (object : R -> O) (ok : R -> Prop) rs :
  reads json decode kind held object ->
  (forall p l r r', names past p -> held p = Some l -> r' ∈ l -> object r = object r' -> ok r) ->
  disk d -> HasSuffix nm ".json" = true ->
  Recover.resumeInto d nm prefix kind now decode windowOf = Some (Ok rs) -> Forall ok rs.
Proof.
  intros Hr Hok Hd Hnm. unfold Recover.resumeInto. destruct (parseWindowName _ _); [|done]. case_match; [|done].
  intros [= Hrs]. by eapply window_known.
Qed.

Lemma took_ok {R} nm (out : option (result Recover.recover_error (list R))) (P : R -> Prop) add rec :
  (forall rs, out = Some (Ok rs) -> Forall P rs) -> (forall rs, Forall P rs -> recovered_ok (add rs rec)) ->
  recovered_ok rec -> recovered_ok (Recover.took nm out add rec).
Proof.
  intros Ho Ha Hr. destruct out as [[rs|e]|]; cbn; [|by destruct Hr|done].
  destruct (Ha rs (Ho rs eq_refl)). by split.
Qed.

Lemma restarts_known p l r r' :
  names past p -> restarts_of p = Some l -> r' ∈ l -> restart_object r = restart_object r' -> restart_known r.
Proof. destruct p; try done. cbn. intros Hp [= <-] Hr [= Hk Hw]. left. rewrite Hk, Hw. by apply Hp. Qed.
Lemma disruptions_known p l r r' :
  names past p -> disruptions_of p = Some l -> r' ∈ l -> disruption_object r = disruption_object r' -> disruption_ok past f [] r.
Proof. destruct p; try done. cbn. intros Hp [= <-] Hr [= Hn Hq Hw]. left. rewrite Hn, Hq, Hw. by apply Hp. Qed.
Lemma jobs_known p l r r' :
  names past p -> jobs_of p = Some l -> r' ∈ l -> job_object r = job_object r' -> job_ok past f [] r.
Proof. destruct p; try done. cbn. intros Hp [= <-] Hr [= Hn Hq Hw]. left. rewrite Hn, Hq, Hw. by apply Hp. Qed.
Lemma goroutines_known p l r r' :
  names past p -> goroutines_of p = Some l -> r' ∈ l -> goroutine_object r = goroutine_object r' -> goroutine_ok past f [] r.
Proof. destruct p; try done. cbn. intros Hp [= <-] Hr [= Hk Hw]. left. rewrite Hk, Hw. by apply Hp. Qed.
Lemma usages_known p l o o' :
  names past p -> usage_of p = Some l -> o' ∈ l -> UsageRecord.RKey <$> o = UsageRecord.RKey <$> o' -> usage_known o.
Proof.
  destruct p; try done. cbn. intros Hp [= <-] (r' & -> & Hr')%list_elem_of_fmap E r ->. injection E as E.
  destruct (Hp r' Hr') as [nm H]. exists nm. left. by rewrite E.
Qed.

Lemma recover_entry_ok d now rec e : disk d -> recovered_ok rec -> recovered_ok (Recover.recover_entry dec d now rec e).
Proof.
  intros Hd Hr. unfold Recover.recover_entry. destruct e as [nm [|data m]]; cbn [fst snd]; [done|].
  destruct (HasSuffix nm ".json") eqn:Hnm; cbn [negb]; [|done].
  assert (Htrue : forall R (rs : list R), Forall (fun _ => True) rs) by (intros; by apply Forall_true).
  repeat match goal with |- recovered_ok (if ?b then _ else _) => destruct b end; try done;
    (eapply took_ok; [intros rs Hrs|intros rs Hrs; destruct Hr; split; cbn; rewrite ?Forall_app; split_and?; done|done]);
    cbn beta; first
    [by eapply (resumed_known _ _ _ _ _ _ _ _ _ _ _ rb_restarts restarts_known)
    |by eapply (resumed_known _ _ _ _ _ _ _ _ _ _ _ rb_disruptions disruptions_known)
    |by eapply (resumed_known _ _ _ _ _ _ _ _ _ _ _ rb_jobs jobs_known)
    |by eapply (resumed_known _ _ _ _ _ _ _ _ _ _ _ rb_goroutines goroutines_known)
    |apply Htrue].
Qed.

Lemma snapshot_is_json nm : HasSuffix nm usageSnapshotSuffix = true -> HasSuffix nm ".json" = true.
Proof.
  intros [r ->]%HasSuffix_Some. change usageSnapshotSuffix with (".snapshot" +:+ ".json")%string. rewrite string_app_assoc.
  apply HasSuffix_app.
Qed.
Lemma recover_usage_ok d now rec e : disk d -> recovered_ok rec -> recovered_ok (Recover.recover_usage dec d now rec e).
Proof.
  intros Hd Hr. unfold Recover.recover_usage. destruct e as [nm [|data m]]; cbn [fst snd]; [done|].
  destruct (HasSuffix nm usageSnapshotSuffix) eqn:Hs; cbn [negb]; [|done]. apply snapshot_is_json in Hs.
  repeat case_match; try done; [|by destruct Hr].
  match goal with E : Recover.readUsageSnapshot _ _ _ _ = Ok ?l |- _ =>
    assert (Forall usage_known l) as Hl by (by eapply (window_known _ _ _ _ _ _ _ _ _ _ rb_usage usages_known)) end.
  destruct Hr. split; cbn; try done. apply Forall_app. split; [done|].
  apply Forall_forall. intros r (o & Ho & E)%list_elem_of_omap. cbn in E. subst o. rewrite Forall_forall in Hl. by apply Hl.
Qed.

Lemma recovery_ok s now : disk (dir s) -> recovered_ok (Recover.RecoverOpenWindows dec s now).1.
Proof.
  intros Hd. unfold Recover.RecoverOpenWindows, Recover.recoverJournals. cbn zeta. cbn [fst].
  apply Recover.fold_keeps; [intros; by apply recover_entry_ok|].
  apply Recover.fold_keeps; [intros; by apply recover_usage_ok|]. by split.
Qed.

(** Adopting known records keeps what a journal holds known. *)
Lemma resume_keeps {R K O} `{JournalRecord R K O, Countable K} (Q : R -> Prop) (m : gmap K R) rs :
  map_Forall (fun _ => Q) m -> Forall (fun r => Q (record_adopt r)) rs -> map_Forall (fun _ => Q) (resume m rs).1.
Proof.
  intros Hm Hrs. unfold resume. generalize 0 as n. revert m Hm. induction Hrs as [|r rs Hr _ IH]; intros m Hm n; [done|].
  cbn [foldl]. destruct (resume_one (m, n) r) as [m' n'] eqn:E. apply IH. unfold resume_one in E.
  case_match; injection E as <- _; [done|]. by apply map_Forall_insert_2.
Qed.

Lemma journals_resume rec j :
  recovered_ok rec -> journals_ok past f [] j -> journals_ok past f [] (Controller.resume_journals rec j).1.
Proof.
  intros [_ Hr Hd Hj Hg] [J1 J2 J3 J4]. unfold Controller.resume_journals, Restarts.Resume, Disruptions.Resume, NodeEvents.Resume,
    JobRuns.Resume, Goroutines.Resume, States.Resume, Counters.Resume.
  pose proof (resume_keeps (restart_ok past f []) (Restarts.open (Controller.restarts j)) (Recover.rRestarts rec) J1) as H1.
  pose proof (resume_keeps (disruption_ok past f []) _ (Recover.rDisruptions rec) J2 Hd) as H2.
  pose proof (resume_keeps (job_ok past f []) _ (Recover.rJobRuns rec) J3 Hj) as H3.
  pose proof (resume_keeps (goroutine_ok past f []) (Goroutines.open (Controller.goroutines j)) (Recover.rGoroutineCounts rec) J4) as H4.
  repeat match goal with |- context [resume ?m ?l] => destruct (resume m l) as [? ?] end. cbn [fst] in *.
  split; cbn; [apply H1|exact H2|exact H3|apply H4].
  - eapply Forall_impl; [exact Hr|]. intros r H. cbn. unfold Restarts.adopt. cbn.
    destruct (Restarts.Reasons r) eqn:E; (split; [exact H|]); cbn; rewrite ?E; by eexists.
  - eapply Forall_impl; [exact Hg|]. intros r H. cbn. unfold Goroutines.adopt. by case_match.
Qed.

Lemma merge_keeps_key r o : UsageRecord.RKey (UsageRecord.Merge r o).1 = UsageRecord.RKey r.
Proof. unfold UsageRecord.Merge. by repeat case_match. Qed.
Lemma seed_acc_ok a r : usage_known (Some r) -> acc_ok past f [] a -> acc_ok past f [] (Accumulator.Seed a r).1.
Proof.
  intros Hr Ha. specialize (Hr r eq_refl). unfold Accumulator.Seed. repeat (case_match; [done|]). repeat case_match; try done. cbn [fst].
  match goal with E : UsageRecord.Merge _ _ = (?m, _) |- _ => pose proof (f_equal (fun x => UsageRecord.RKey x.1) E) as Hk end.
  cbn in Hk. rewrite merge_keeps_key in Hk.
  apply map_Forall_insert_2; [|done]. rewrite <-Hk. unfold Accumulator.recordAt.
  destruct (Accumulator.open a !! _) eqn:Eo; [exact (Ha _ _ Eo)|exact Hr].
Qed.
Lemma seeded_ok rs p : Forall (fun r => usage_known (Some r)) rs -> poller_ok past f [] p -> poller_ok past f [] (Usage.Seed p rs).1.
Proof.
  intros Hrs Hp. unfold Usage.Seed. apply (foldl_ok (fun out => poller_ok past f [] out.1)); [|done].
  intros [q errs] r Hr [Ha Hn]. cbn [fst] in *. rewrite Forall_forall in Hrs. pose proof (seed_acc_ok (Usage.acc q) r (Hrs r Hr) Ha) as Hs.
  unfold Usage.seed_one. destruct (Accumulator.Seed (Usage.acc q) r) as [a [e|]]; by split.
Qed.

(** A start over a directory that names only the past. *)
Lemma start_resumed listed st now :
  f = st_filter st -> (forall s, st_spool st = Some s -> disk (dir s)) -> world_ok past json f [] (start dec listed st now).
Proof.
  intros Hf Hd. apply start_ok; [done|]. intros s Hs. specialize (Hd s Hs). pose proof (recovery_ok s now Hd) as Hr.
  split; [|split].
  - eapply clean_more; [|exact Hd]. intros p. apply names_more; by left.
  - apply journals_resume; [done|]. by split.
  - apply seeded_ok; [apply Hr|]. by split.
Qed.
End resume.

(** ** Lives over one directory *)

(** One run of the process: its configuration, whether the startup read could list
    the directory, and what happened until it ended. *)
Record life := mkLife { lf_config : Config.Config; lf_listed : bool; lf_now : Time; lf_happens : list happening }.

Definition life_filter (l : life) : Admission.Filter :=
  let ns := Config.Namespaces (Config.cf_Filters (lf_config l)) in Admission.NewFilter (Config.Allow ns) (Config.Deny ns).
Definition life_events (l : life) : list event := pod_events (lf_happens l).
Definition life_sane (identity : string -> string * string) (l : life) : Prop :=
  informer_order (life_events l) /\ api_events identity (life_events l) /\ Forall (sane identity) (lf_happens l).

Section run.
Context (sha256 : string -> string) (json : payload -> option string).
Context (parse : string -> option SymbolFilter.Profile) (check_valid : SymbolFilter.Profile -> bool)
  (encode : SymbolFilter.Profile -> option string).
Context (jwt : string -> string -> option NodeIntake.nodeBoundClaims) (dec : Recover.decoders).

(** The directory a life leaves; one whose configuration is refused, or names no
    spool, leaves it as it was.  [None] is a panic. *)
Definition live (d : fs) (l : life) : option fs :=
  match configured jwt d (lf_config l) with
  | None => Some d
  | Some st =>
      w ← run_all sha256 json parse check_valid encode (lf_happens l) (Some (start dec (lf_listed l) st (lf_now l)));
      Some (match spool w with None => d | Some s => dir s end)
  end.
Definition run_lives (d : fs) (ls : list life) : option fs := foldl (fun d l => d ≫= fun d => live d l) (Some d) ls.

(** What some life that started saw to consent, under the filter of that life. *)
Definition began (l : life) : Prop := is_Some (configured jwt ∅ (lf_config l)).
Definition consented_in (ls : list life) : memory :=
  mkMemory (fun ns nm wl => exists l, l ∈ ls /\ began l /\ event_pod (life_filter l) (life_events l) ns nm wl)
    (fun ns nm wl => exists l, l ∈ ls /\ began l /\ event_job (life_filter l) (life_events l) ns nm wl).

Lemma configured_settings d cfg st :
  configured jwt d cfg = Some st ->
  st_filter st = (let ns := Config.Namespaces (Config.cf_Filters cfg) in Admission.NewFilter (Config.Allow ns) (Config.Deny ns)) /\
  (forall s, st_spool st = Some s -> dir s = d) /\ is_Some (configured jwt ∅ cfg).
Proof.
  unfold configured. destruct (Config.ni_Enabled _).
  - destruct (buildNodeIntake _ _) as [[a rc]|]; cbn; [|done]. intros [= <-]. split; [done|]. cbn. split; [|by eexists].
    case_bool_decide; [done|]. by intros s [= <-].
  - intros [= <-]. split; [done|]. cbn. split; [|by eexists]. case_bool_decide; [done|]. by intros s [= <-].
Qed.

Lemma consented_more ls l p : names (consented_in ls) p -> names (consented_in (ls ++ [l])) p.
Proof. apply names_more; intros ns nm wl (l' & Hl & H); exists l'; (split; [set_solver|done]). Qed.
Lemma consented_last ls l p :
  began l -> may_hold (consented_in ls) (life_filter l) (life_events l) p -> names (consented_in (ls ++ [l])) p.
Proof.
  intros Hb. unfold may_hold. apply names_more; intros ns nm wl [(l' & Hl & H)|H];
    [exists l'|exists l|exists l'|exists l]; (split; [set_solver|done]).
Qed.

Context `{!ReadsBack json dec} (identity : string -> string * string).

Lemma live_ok ls l d :
  life_sane identity l -> clean json (names (consented_in ls)) d ->
  exists d', live d l = Some d' /\ clean json (names (consented_in (ls ++ [l]))) d'.
Proof.
  intros (Ho & Ha & Hh) Hd.
  assert (clean json (names (consented_in (ls ++ [l]))) d) as Hd' by (eapply clean_more; [|exact Hd]; intros p; apply consented_more).
  unfold live. destruct (configured jwt d (lf_config l)) as [st|] eqn:Hc; [|by exists d].
  destruct (configured_settings _ _ _ Hc) as (Hf & Hs & Hb).
  destruct (run_all_ok (consented_in ls) sha256 json parse check_valid encode identity (life_filter l) (lf_happens l) []
              (start dec (lf_listed l) st (lf_now l)) Ho Ha Hh) as (w & -> & Hw).
  { apply start_resumed; [done|done|]. intros s Hsp. by rewrite (Hs s Hsp). }
  cbn. eexists. split; [reflexivity|]. destruct (spool w) as [s|] eqn:Hsp; [|done].
  eapply clean_more; [|exact (ok_disk _ _ _ _ _ Hw s Hsp)]. intros p. by apply consented_last.
Qed.
Lemma run_lives_ok ls d :
  Forall (life_sane identity) ls -> clean json (names (consented_in [])) d ->
  exists d', run_lives d ls = Some d' /\ clean json (names (consented_in ls)) d'.
Proof.
  intros Hls Hd. induction ls as [|l ls IH] using rev_ind; [by exists d|].
  apply Forall_app in Hls as [Hls Hl]. rewrite Forall_singleton in Hl. destruct (IH Hls) as (d1 & E & H1).
  unfold run_lives in *. rewrite foldl_app, E. cbn. by apply live_ok.
Qed.
End run.

(** ** Properties *)

(** C1. The promise of the agent over its restarts.  Whatever its lives: each with
    its own configuration, node audience, informer events, polls, pushes, pprof
    rounds, passes, sweeps, deliveries and end, each resuming what the spool
    holds: no step panics, and every payload file left on disk is the document of
    a payload whose every pod, job and workload was, in some life that started,
    the subject of an event that found it consenting under that life's filter. *)
Theorem recorded_objects_consented_in_some_life
    (sha256 : string -> string) (json : payload -> option string) (parse : string -> option SymbolFilter.Profile)
    (check_valid : SymbolFilter.Profile -> bool) (encode : SymbolFilter.Profile -> option string)
    (jwt : string -> string -> option NodeIntake.nodeBoundClaims) (dec : Recover.decoders) (identity : string -> string * string)
    (d : fs) (ls : list life) :
  ReadsBack json dec -> Handover.emptied d -> Forall (life_sane identity) ls ->
  exists d', run_lives sha256 json parse check_valid encode jwt dec d ls = Some d' /\
    forall nm data m, HasSuffix nm ".json" = true -> d' !! nm = Some (FileNode data m) ->
      exists p doc, names (consented_in jwt ls) p /\ nm = payload_file p /\ json p = Some doc /\ data = document doc.
Proof.
  intros Hr He Hls. destruct (run_lives_ok sha256 json parse check_valid encode jwt dec identity ls d Hls) as (d' & E & Hd);
    [by apply emptied_clean|]. exists d'. split; [exact E|]. exact Hd.
Qed.

(** The life of Consent.v, then one under a filter that denies the namespace, whose
    only act is a pass: it writes the resumed restart window again. *)
Definition demo_config (deny : list string) : Config.Config :=
  Config.mkConfig (Config.mkFilters (Config.mkNamespaceFilters [] deny)) (Config.mkSpoolConfig "/spool" 72)
    (Config.cf_Backend Config.zeroConfig) (Config.cf_NodeIntake Config.zeroConfig) (Config.cf_Profiling Config.zeroConfig)
    (Config.cf_Health Config.zeroConfig) (Config.cf_Collection Config.zeroConfig).
Definition demo_later : Time := demo_at + Minute.
Definition demo_lives : list life :=
  [mkLife (demo_config ["kube-*"%string]) true unixEpoch demo_life;
   mkLife (demo_config ["shop"%string]) true demo_later [HPass (pass_at demo_later) ∅ ∅ demo_later]].

Definition demo_record : Restarts.RestartRecord :=
  Restarts.mkRestartRecord (Restarts.mkKey "shop" "web-0" "app") (Model.mkWorkloadRef "none" "") (unixEpoch + Hour) 3600 2 (Some ∅) 2 None.
Definition naming_json (p : payload) : option string :=
  match p with
  | ContainerRestarts _ _ rs => if bool_decide (restart_object demo_record ∈ restart_object <$> rs) then Some "shop/web-0"%string else None
  | _ => Some (payload_kind p)
  end.
Definition naming_decoders : Recover.decoders :=
  Recover.mkDecoders (fun _ => None)
    (fun s => if decide (s = document "shop/web-0")
              then Some (Recover.mkJournalWindow Recover.kindContainerRestarts (unixEpoch + Hour) 3600 [demo_record]) else None)
    (fun _ => None) (fun _ => None) (fun _ => None) (fun _ => None) (fun _ => None) (fun _ => None).

Lemma document_inj s t : document s = document t -> s = t.
Proof.
  unfold document. revert t. induction s as [|c s IH]; intros [|c' t]; rewrite ?string_app_nil, ?string_app_cons; [done| | |].
  - intros [= _ E]. by destruct t.
  - intros [= _ E]. by destruct s.
  - intros [= -> E]. f_equal. by apply IH.
Qed.
#[local] Instance naming_reads_back : ReadsBack naming_json naming_decoders.
Proof.
  split; try done. intros p doc w Hj Hd _. cbn in Hd. case_decide as E; [|done]. injection Hd as <-. apply document_inj in E as ->.
  destruct p; try done. cbn in Hj |- *. case_bool_decide as H; [|done]. eexists. split; [done|]. by intros r ->%list_elem_of_singleton.
Defined.
Lemma demo_lives_sane : Forall (life_sane demo_identity) demo_lives.
Proof.
  unfold demo_lives. constructor; [|constructor; [|constructor]].
  - split; [exact demo_order|]. split; [exact demo_api|]. repeat constructor.
  - split; [exact informer_order_nil|]. split; [intros e c p H; by apply elem_of_nil in H|]. repeat constructor.
Defined.
Definition demo_spool : option fs :=
  run_lives (fun s => s) naming_json (fun _ => None) (fun _ => true) (fun _ => None) (fun _ _ => None) naming_decoders ∅ demo_lives.

(** The window left behind was written by the second life, and names a pod the
    first saw consenting. *)
Lemma recorded_objects_consented_in_some_life_witness :
  demo_spool ≫= (fun d => d !! "restarts-3600-3600.json"%string) = Some (FileNode (document "shop/web-0") demo_later) /\
  exists p, names (consented_in (fun _ _ => None) demo_lives) p /\ payload_file p = "restarts-3600-3600.json"%string /\
    naming_json p = Some "shop/web-0"%string.
Proof.
  destruct (recorded_objects_consented_in_some_life (fun s => s) naming_json (fun _ => None) (fun _ => true) (fun _ => None)
              (fun _ _ => None) naming_decoders demo_identity ∅ demo_lives naming_reads_back) as (d & Hd & Hf).
  - intros n nd Hn. by apply lookup_empty_Some in Hn.
  - exact demo_lives_sane.
  - assert (demo_spool ≫= (fun d => d !! "restarts-3600-3600.json"%string) = Some (FileNode (document "shop/web-0") demo_later)) as H
      by (vm_compute; reflexivity).
    split; [exact H|]. fold demo_spool in Hd. rewrite Hd in H. cbn [mbind option_bind] in H.
    destruct (Hf "restarts-3600-3600.json"%string _ _ eq_refl H) as (p & doc & Hp & Hn & Hj & Hdoc). apply document_inj in Hdoc as <-.
    exists p. split; [exact Hp|]. split; [symmetry; exact Hn|exact Hj].
Defined.
