(* ===== verification/System.v ===== *)
(** Both roles together: one controller, the nodes of the cluster, and what travels
    between them ([run] of [cmd/agent/main.go], [runNode] of [cmd/agent/node.go],
    the clients of [cmd/agent/nodeship.go]).

    A node asks and pushes, the controller answers.  An answer is what the
    controller's own handler makes of the request at the moment it arrives; the
    transport may lose it, or spoil it so that it does not decode.  A push joins
    what was sent, and may arrive later, repeatedly or never.  Between a query and
    what the node does with the answer anything else may happen, as it may between
    the two passes of a node: its scanner's and its profiler's. *)

From stdpp Require Import prelude gmap strings list.
From Stdlib Require Import ZArith Lia.
From S2P Require Import Prelude GoTime GoStrings FileNames PodWatcher PodIndex Spool OnDisk Writers Wiring Consent.
From S2P Require Model Admission Cluster SymbolFilter NodeIntake NodeReport Binding Capture Pipeline Gate NodeRole Endpoints.
From S2P Require Recover Config Handover Usage.
Local Open Scope Z_scope.

(** ** State *)

(** The flags of [runNode]; an endpoint that is not configured is [false]. *)
Record flags := mkFlags {
  fl_node : string; fl_interval : Duration; fl_reports : bool; fl_scope : bool; fl_ebpf : bool; fl_targets : bool; fl_profile : bool;
}.

(** One node agent: its scanner, its profiler (or the metrics of one that does not
    run), and the controller's answers its next passes will work from. *)
Record node := mkNode {
  nd_flags : flags; nd_settings : Pipeline.settings; nd_refresh : Duration;
  nd_scanner : NodeRole.node_state; nd_profiler : NodeReport.ProfilingCoverage + Pipeline.pipeline;
  nd_answer : NodeIntake.request string -> NodeRole.exchange (list string); nd_targets : Pipeline.reply; nd_scope : Pipeline.reply;
}.
Definition nd_cfg (n : node) : NodeRole.node_config := NodeRole.mkNodeConfig (fl_node (nd_flags n)) (fl_scope (nd_flags n)).
Definition set_scanner x a (n : node) : node :=
  mkNode (nd_flags n) (nd_settings n) (nd_refresh n) x (nd_profiler n) a (nd_targets n) (nd_scope n).
Definition set_profiler x targets scope (n : node) : node :=
  mkNode (nd_flags n) (nd_settings n) (nd_refresh n) (nd_scanner n) x (nd_answer n) targets scope.

Inductive message := MReport (r : NodeIntake.request NodeReport.Report) | MProfile (r : NodeIntake.request NodeIntake.ProfileReport).

Record system := mkSystem { controller : world; nodes : gmap string node; sent : list message }.
Definition set_node (nm : string) (n : node) (s : system) : system := mkSystem (controller s) (<[nm := n]> (nodes s)) (sent s).

(** ** A node starts *)

Definition no_answer (r : NodeIntake.request string) : NodeRole.exchange (list string) := NodeRole.NoAnswer.

(** [runNode] up to its first pass; [None] is a startup failure. *)
Definition runNode (fl : flags) (p : Config.NodeProfiling) (btf : bool) (osrelease : option string) (t : Gate.tracer_faults)
    (cancelled : bool) (now : Time) : option node :=
  if bool_decide (fl_node fl = ""%string) then None
  else
    let m := Pipeline.newProfilingMetrics in
    let p := Config.NodeNormalized p in
    let profiler :=
      if negb (fl_ebpf fl) then inl m
      else
        let '(res, m) := Gate.ebpfGate btf osrelease m in
        if negb (Gate.Supported res) then inl m
        else if (Gate.startCapture t).2 then inr (Pipeline.started now m)
        else inl (if cancelled then m else Pipeline.setState Gate.ReasonProgramLoadFailed m) in
    Some (mkNode fl (Gate.pipeline_settings (fl_node fl) p) (wrap64 (Config.np_IntervalSeconds p * Second))
            (NodeRole.newNode (NodeRole.mkNodeConfig (fl_node fl) (fl_scope fl)) (Binding.NewModuleFilter Binding.DefaultInfraModulePrefixes)
               now (Endpoints.nodeLivenessDeadline (fl_interval fl)) (fl_reports fl))
            profiler no_answer Pipeline.Failed Pipeline.Failed).

(** ** Queries *)

(** How an answer travels back. *)
Inductive transport := Lost | Spoiled | Heard.
Definition carried (tr : transport) (o : option (NodeIntake.outcome (list string))) : NodeRole.exchange (list string) :=
  match tr, o with
  | Lost, _ | _, None => NodeRole.NoAnswer
  | Spoiled, Some o => NodeRole.Answered (NodeIntake.status o) None
  | Heard, Some o => NodeRole.Answered (NodeIntake.status o) (NodeIntake.handed o)
  end.

Definition fetch_targets (w : world) (file : option string) (tr : transport) (n : node) : Pipeline.reply :=
  NodeRole.fetch (fl_targets (nd_flags n)) file (fl_node (nd_flags n)) (fun r => carried tr (answer_targets r w)).
Definition fetch_scope (w : world) (file : option string) (tr : transport) (n : node) : Pipeline.reply :=
  NodeRole.fetch (fl_scope (nd_flags n)) file (fl_node (nd_flags n)) (fun r => carried tr (answer_scope r w)).

(** ** Passes *)

(** A pass of the scanner over the answer its query got, reporting what the
    profiler beside it counted. *)
Definition node_pass (su : NodeRole.surroundings) (n : node) : node * option (NodeIntake.request NodeReport.Report) :=
  let metrics := match nd_profiler n with inl m => m | inr p => Pipeline.pp_metrics p end in
  let su := NodeRole.mkSurroundings (NodeRole.su_beat su) (NodeRole.su_now su) (NodeRole.su_scopeToken su) (nd_answer n)
              (NodeRole.su_entries su) (NodeRole.su_proc su) metrics (NodeRole.su_reportToken su) (NodeRole.su_encodes su)
              (NodeRole.su_send su) in
  let '(st, m) := NodeRole.scanOnce (nd_cfg n) su (nd_scanner n) in (set_scanner st no_answer n, m).

(** What the surroundings give a tick of the profiler. *)
Record window := mkWindow {
  wi_stopped : bool; wi_end : Time; wi_binding : Z -> Binding.PodBinding; wi_delivered : Pipeline.WindowReport -> bool;
  wi_restart : Time; wi_token : option string;
}.
(** A tick works from the modules the scanner found. *)
Definition tick_of (n : node) (t : window) : Pipeline.tick :=
  Pipeline.mkTick (wi_stopped t) (wi_end t) (nd_targets n) (nd_scope n) (NodeRole.moduleIndex (nd_scanner n)) (wi_binding t)
    (if fl_profile (nd_flags n) then Some (wi_delivered t) else None) (wi_restart t).

(** [profileShipper.ship]. *)
Definition profile_report (r : Pipeline.WindowReport) : NodeIntake.ProfileReport :=
  NodeIntake.mkProfileReport (Pipeline.wr_Node r) (Pipeline.wr_PodUID r) (Pipeline.wr_ContainerID r) 0 (Pipeline.wr_Start r)
    (Pipeline.wr_End r) (Pipeline.wr_Pprof r).
Definition ship_profile (file : option string) (r : Pipeline.WindowReport) : option (NodeIntake.request NodeIntake.ProfileReport) :=
  (NodeRole.ship file true (profile_report r) (fun _ => NodeRole.NoAnswer)).1.

Section system.
Context (sha256 : string -> string) (json : payload -> option string).
Context (parse : string -> option SymbolFilter.Profile) (check_valid : SymbolFilter.Profile -> bool)
  (encode : SymbolFilter.Profile -> option string).

Inductive occurrence :=
| Happens (h : happening)   (** anything at the controller, a push of a stranger included *)
| Boots (fl : flags) (p : Config.NodeProfiling) (btf : bool) (osrelease : option string) (t : Gate.tracer_faults) (cancelled : bool)
    (now : Time)
| AsksScope (nm : string) (tr : transport)
| Passes (nm : string) (su : NodeRole.surroundings)
| AsksTargets (nm : string) (file : option string) (tr : transport)
| AsksWindowScope (nm : string) (file : option string) (tr : transport)
| Samples (nm : string) (trace : list Capture.RawFrame) (meta : Capture.TraceEventMeta)
| Ticks (nm : string) (t : window)
| Arrives (i : nat) (env : string -> io) (at_ : Time).

Definition at_node (nm : string) (f : node -> system) (s : system) : system :=
  match nodes s !! nm with None => s | Some n => f n end.

(** [None] is a panic. *)
Definition occur (s : system) (o : occurrence) : option system :=
  let w := controller s in
  let happens h := w ← happen sha256 json parse check_valid encode w h; Some (mkSystem w (nodes s) (sent s)) in
  match o with
  | Happens h => happens h
  | Boots fl p btf osrelease t cancelled now =>
      Some (match runNode fl p btf osrelease t cancelled now with None => s | Some n => set_node (fl_node fl) n s end)
  | AsksScope nm tr =>
      Some (at_node nm (fun n => set_node nm (set_scanner (nd_scanner n) (fun r => carried tr (answer_scope r w)) n) s) s)
  | Passes nm su =>
      Some (at_node nm (fun n => let '(n, m) := node_pass su n in
                                 mkSystem w (<[nm := n]> (nodes s)) (sent s ++ (MReport <$> option_list m))) s)
  | AsksTargets nm file tr =>
      Some (at_node nm (fun n => set_node nm (set_profiler (nd_profiler n) (fetch_targets w file tr n) (nd_scope n) n) s) s)
  | AsksWindowScope nm file tr =>
      Some (at_node nm (fun n => set_node nm (set_profiler (nd_profiler n) (nd_targets n) (fetch_scope w file tr n) n) s) s)
  | Samples nm trace meta =>
      Some (at_node nm (fun n => set_node nm
        (match nd_profiler n with
         | inl _ => n
         | inr p => set_profiler (inr (Pipeline.step parse check_valid encode (nd_settings n) (nd_refresh n) p (Pipeline.Captured trace meta)).1)
                      (nd_targets n) (nd_scope n) n
         end) s) s)
  | Ticks nm t =>
      Some (at_node nm (fun n =>
        match nd_profiler n with
        | inl _ => s
        | inr p =>
            let '(p, posted) := Pipeline.step parse check_valid encode (nd_settings n) (nd_refresh n) p (Pipeline.Ticked (tick_of n t)) in
            mkSystem w (<[nm := set_profiler (inr p) Pipeline.Failed Pipeline.Failed n]> (nodes s))
              (sent s ++ (MProfile <$> omap (ship_profile (wi_token t)) posted))
        end) s)
  | Arrives i env at_ =>
      match sent s !! i with
      | None => Some s
      | Some (MReport r) => happens (HReport at_ r)
      | Some (MProfile r) => happens (HProfile env r)
      end
  end.
Definition occur_all (os : list occurrence) (s : option system) : option system := foldl (fun s o => s ≫= fun s => occur s o) s os.
End system.

(** ** What travels *)

(** At some moment so far the pod was collected, and on this node. *)
Definition known (f : Admission.Filter) (es : list event) (nm uid : string) : Prop :=
  exists es' c pod, es' `prefix_of` es /\ collected f es' uid c pod /\ Cluster.NodeName pod = nm.
(** The container was one of such a pod, which had not declined profiling. *)
Definition targetable (f : Admission.Filter) (es : list event) (nm cid : string) : Prop :=
  exists es' uid c pod, es' `prefix_of` es /\ PodIndex.profiled f es' uid c pod /\ Cluster.NodeName pod = nm /\
    is_Some (containerIndex pod !! cid).

Definition credential {A} (r : NodeIntake.request A) : Prop :=
  NodeIntake.Method r = "POST"%string /\ is_Some (NodeIntake.bearerToken (NodeIntake.Authorization r)).
Definition message_ok (f : Admission.Filter) (es : list event) (m : message) : Prop :=
  match m with
  | MReport r =>
      credential r /\ exists report, NodeIntake.ReqBody r = NodeIntake.Body report false /\
        Forall (fun b => known f es (NodeReport.r_Node report) (NodeReport.b_PodUID b)) (NodeReport.r_Binaries report)
  | MProfile r =>
      credential r /\ exists report, NodeIntake.ReqBody r = NodeIntake.Body report false /\
        known f es (NodeIntake.pr_Node report) (NodeIntake.PodUID report) /\
        targetable f es (NodeIntake.pr_Node report) (NodeIntake.pr_ContainerID report)
  end.

Section invariant.
Context (f : Admission.Filter).

Lemma known_more es es' nm uid : es `prefix_of` es' -> known f es nm uid -> known f es' nm uid.
Proof. intros Hp (es0 & c & pod & H0 & H). exists es0, c, pod. split; [by etrans|done]. Qed.
Lemma targetable_more es es' nm cid : es `prefix_of` es' -> targetable f es nm cid -> targetable f es' nm cid.
Proof. intros Hp (es0 & uid & c & pod & H0 & H). exists es0, uid, c, pod. split; [by etrans|done]. Qed.
Lemma message_more es es' m : es `prefix_of` es' -> message_ok f es m -> message_ok f es' m.
Proof.
  intros Hp. destruct m; cbn; [intros (Hc & report & Hb & H)|intros (Hc & report & Hb & H1 & H2)]; (split; [done|]); exists report; (split; [done|]).
  - eapply Forall_impl; [exact H|]. intros b. by apply known_more.
  - split; [by eapply known_more|by eapply targetable_more].
Qed.

Definition reply_ok (P : string -> Prop) (r : Pipeline.reply) : Prop := forall ids, r = Pipeline.Replied ids -> Forall P ids.
Definition event_ok (es : list event) (nm : string) (e : Pipeline.event) : Prop :=
  match e with
  | Pipeline.Captured _ _ => True
  | Pipeline.Ticked t => reply_ok (targetable f es nm) (Pipeline.tk_targets t) /\ reply_ok (known f es nm) (Pipeline.tk_scope t)
  end.

(** A node knows of pods what the controller told it. *)
Record node_ok (es : list event) (nm : string) (n : node) : Prop := {
  no_name : fl_node (nd_flags n) = nm;
  no_settings : Pipeline.ns_node (nd_settings n) = nm;
  no_asked : exists es' v, es' `prefix_of` es /\ informer_order es' /\
    forall r, NodeRole.may_come_back (NodeIntake.ScopeServeHTTP v (run f es').1 r) (nd_answer n r);
  no_targets : reply_ok (targetable f es nm) (nd_targets n);
  no_scope : reply_ok (known f es nm) (nd_scope n);
  no_profiler : forall p, nd_profiler n = inr p -> exists now log, Pipeline.grounded now (nd_refresh n) log p /\ Forall (event_ok es nm) log;
}.

Lemma reply_more P Q r : (forall x, P x -> Q x) -> reply_ok P r -> reply_ok Q r.
Proof. intros H Hr ids E. eapply Forall_impl; [by apply Hr|done]. Qed.
Lemma node_more es es' nm n : es `prefix_of` es' -> node_ok es nm n -> node_ok es' nm n.
Proof.
  intros Hp [H1 H2 (es0 & v & H0 & H3) H4 H5 H6]. split; [done|done| | | |].
  - exists es0, v. split; [by etrans|done].
  - eapply reply_more; [|exact H4]. intros x. by apply targetable_more.
  - eapply reply_more; [|exact H5]. intros x. by apply known_more.
  - intros p Hpr. destruct (H6 p Hpr) as (now & log & Hg & Hl). exists now, log. split; [done|]. eapply Forall_impl; [exact Hl|].
    intros [|t]; cbn; [done|]. intros [Ht Hs]. split; (eapply reply_more; [|done]); intros x; [by apply targetable_more|by apply known_more].
Qed.

Lemma unanswered_ok es : exists es' v, es' `prefix_of` es /\ informer_order es' /\
  forall r, NodeRole.may_come_back (NodeIntake.ScopeServeHTTP v (run f es').1 r) (no_answer r).
Proof. exists [], (NodeIntake.mkVerifier (fun _ => None) ""). split; [apply prefix_nil|]. split; [|done]. exact informer_order_nil. Qed.
Lemma failed_ok P : reply_ok P Pipeline.Failed.
Proof. by intros ids. Qed.

Lemma boots_ok es fl p btf osrelease t cancelled now n :
  runNode fl p btf osrelease t cancelled now = Some n -> node_ok es (fl_node fl) n.
Proof.
  unfold runNode. case_bool_decide; [done|]. intros [= <-]. split; cbn; [done|done|apply unanswered_ok|apply failed_ok|apply failed_ok|].
  intros q Hq. repeat case_match; try done. injection Hq as <-. eexists _, [].
  split; [apply Pipeline.started_grounded|constructor].
Qed.

(** *** Queries *)

Lemma carried_heard tr o status ids :
  carried tr o = NodeRole.Answered status (Some ids) -> exists out, o = Some out /\ NodeIntake.handed out = Some ids.
Proof. destruct tr, o as [out|]; cbn; try done. intros [= _ H]. by exists out. Qed.
Lemma carried_may_come_back tr o : NodeRole.may_come_back o (carried tr (Some o)).
Proof. destruct tr; cbn; [done|done|]. split; [done|]. by intros ids Hh _. Qed.

Section asked.
Context (w : world) (es : list event).
Hypothesis (Hw : pods w = (run f es).1) (Hes : informer_order es).

Lemma asked_scope tr : exists es' v, es' `prefix_of` es /\ informer_order es' /\
  forall r, NodeRole.may_come_back (NodeIntake.ScopeServeHTTP v (run f es').1 r) (carried tr (answer_scope r w)).
Proof.
  unfold answer_scope. destruct (intake w) as [rc|]; cbn.
  - exists es, (verifier rc). split; [done|]. split; [done|]. intros r. rewrite Hw. apply carried_may_come_back.
  - destruct (unanswered_ok es) as (es' & v & H1 & H2 & H3). exists es', v. split; [done|]. split; [done|]. by destruct tr.
Qed.
Lemma fetched_targets file tr n :
  reply_ok (targetable f es (fl_node (nd_flags n))) (fetch_targets w file tr n).
Proof.
  intros ids Hf. apply NodeRole.fetch_replied in Hf as (token & status & _ & Hs & _). apply carried_heard in Hs as (out & Ho & Hh).
  unfold answer_targets in Ho. destruct (intake w) as [rc|]; [|done]. destruct (publisher w) as [p|]; [|done]. cbn in Ho. injection Ho as <-.
  rewrite Hw in Hh. apply NodeIntake.targets_answer_profiled in Hh as (id & more & _ & Hb & Hc); [|done]. cbn in Hb. injection Hb as Hn _.
  apply Forall_forall. intros cid Hin. destruct (Hc cid Hin) as (uid & c & pod & Hpr & Hnode & Hi & _).
  exists es, uid, c, pod. split; [done|]. by rewrite Hn.
Qed.
Lemma fetched_scope file tr n : reply_ok (known f es (fl_node (nd_flags n))) (fetch_scope w file tr n).
Proof.
  intros ids Hf. apply NodeRole.fetch_replied in Hf as (token & status & _ & Hs & _). apply carried_heard in Hs as (out & Ho & Hh).
  unfold answer_scope in Ho. destruct (intake w) as [rc|]; [|done]. cbn in Ho. injection Ho as <-.
  rewrite Hw in Hh. apply NodeIntake.scope_answer_collected in Hh as (id & more & _ & Hb & Hc); [|done]. cbn in Hb. injection Hb as Hn _.
  apply Forall_forall. intros uid Hin. destruct (Hc uid Hin) as (c & pod & Hpr & Hnode).
  exists es, c, pod. split; [done|]. by rewrite Hn.
Qed.
End asked.

(** *** Passes *)

Lemma node_pass_ok es nm su n n' m :
  node_pass su n = (n', m) -> node_ok es nm n -> node_ok es nm n' /\ Forall (message_ok f es) (MReport <$> option_list m).
Proof.
  unfold node_pass. cbn zeta. set (su' := NodeRole.mkSurroundings _ _ _ _ _ _ _ _ _ _).
  destruct (NodeRole.scanOnce (nd_cfg n) su' (nd_scanner n)) as [st m'] eqn:E. intros [= <- <-] [H1 H2 (es' & v & Hp & Ho & Hc) H4 H5 H6].
  split; [split; [done|done|apply unanswered_ok|done|done|done]|].
  destruct m' as [r|]; [|constructor]. apply Forall_singleton. apply (f_equal snd), NodeRole.scanOnce_sends in E as (token & res & s' & Ht & Hs & ->).
  cbn. split; [split; [done|]; cbn; rewrite (NodeRole.bearer_credential _ _ Ht); by eexists|].
  eexists. split; [done|]. cbn. apply NodeRole.scanned_in_scope in Hs. eapply Forall_impl; [exact Hs|]. intros b Hb.
  apply (NodeRole.scope_is_consenting v f (nd_cfg n) su' es') in Hb as (c & pod & Hcol & Hn); [|by split]. exists es', c, pod. by split_and!.
Qed.

Lemma ship_profile_ok es nm file posted :
  Forall (fun r => Pipeline.wr_Node r = nm /\ known f es nm (Pipeline.wr_PodUID r) /\ targetable f es nm (Pipeline.wr_ContainerID r)) posted ->
  Forall (message_ok f es) (MProfile <$> omap (ship_profile file) posted).
Proof.
  intros Hp. apply Forall_fmap, Forall_forall. intros m (r & Hr & Hm)%list_elem_of_omap. rewrite Forall_forall in Hp.
  destruct (Hp r Hr) as (<- & Hk & Ht). unfold ship_profile, NodeRole.ship in Hm.
  destruct (NodeRole.readProjectedToken file) as [token|] eqn:Htok; [|done]. cbn in Hm. injection Hm as <-. cbn.
  split; [split; [done|]; cbn; rewrite (NodeRole.bearer_credential _ _ Htok); by eexists|]. by eexists.
Qed.

Context (parse : string -> option SymbolFilter.Profile) (check_valid : SymbolFilter.Profile -> bool)
  (encode : SymbolFilter.Profile -> option string).

(** A profiler's step on what the node knows. *)
Lemma profiler_step_ok es nm n p e :
  node_ok es nm n -> nd_profiler n = inr p -> event_ok es nm e ->
  let '(p', posted) := Pipeline.step parse check_valid encode (nd_settings n) (nd_refresh n) p e in
  (forall targets scope, reply_ok (targetable f es nm) targets -> reply_ok (known f es nm) scope ->
     node_ok es nm (set_profiler (inr p') targets scope n)) /\
  Forall (fun r => Pipeline.wr_Node r = nm /\ known f es nm (Pipeline.wr_PodUID r) /\ targetable f es nm (Pipeline.wr_ContainerID r)) posted.
Proof.
  intros [H1 H2 H3 H4 H5 H6] Hp He. destruct (H6 p Hp) as (now & log & Hg & Hl).
  pose proof (Pipeline.step_posts parse check_valid encode (nd_settings n) now (nd_refresh n) log e p Hg) as [Hg' Hpost].
  assert (Forall (event_ok es nm) (log ++ [e])) as Hl' by (apply Forall_app; by split; [|constructor]).
  destruct (Pipeline.step _ _ _ _ _ p e) as [p' posted] eqn:Es. cbn [fst snd] in *. split.
  - intros targets scope Ht Hs. split; cbn; try done. intros q [= <-]. by exists now, (log ++ [e]).
  - destruct e as [|t]; [cbn in Es; injection Es as <- <-; constructor|].
    rewrite Forall_forall in Hl'. rewrite Forall_forall in Hpost. apply Forall_forall. intros r Hr.
    destruct (Hpost (t, r)) as (before & after & start & caught & asked & ids & uids & Hlog & _ & Hf & Hcid & Hsc & Huid & Hn & _);
      [by apply list_elem_of_fmap_2|].
    assert (forall t', Pipeline.Ticked t' ∈ before ++ [Pipeline.Ticked t] -> Pipeline.Ticked t' ∈ log ++ [Pipeline.Ticked t]) as Hin.
    { intros t' Hin. rewrite Hlog. apply elem_of_app in Hin as [?| ->%list_elem_of_singleton]; apply elem_of_app; [by left|right; left]. }
    split; [congruence|]. split.
    + destruct (Hl' (Pipeline.Ticked t)) as [_ Hk]; [apply elem_of_app; right; left|].
      specialize (Hk _ Hsc). rewrite Forall_forall in Hk. by apply Hk.
    + destruct Hf as (Ht' & past & later & E & _). destruct (Hl' (Pipeline.Ticked asked)) as [Hk _];
        [apply Hin; rewrite E; apply elem_of_app; right; left|].
      specialize (Hk _ Ht'). rewrite Forall_forall in Hk. by apply Hk.
Qed.
End invariant.

(** ** The whole *)

(** The events the pod watcher was given, and what the surroundings are assumed
    to be. *)
Definition system_events (os : list occurrence) : list event :=
  os ≫= fun o => match o with Happens h => pod_events [h] | _ => [] end.
Definition system_sane (identity : string -> string * string) (o : occurrence) : Prop :=
  match o with Happens h => sane identity h | Arrives _ _ at_ => at_ <> 0 | _ => True end.

Section whole.
Context (sha256 : string -> string) (json : payload -> option string).
Context (parse : string -> option SymbolFilter.Profile) (check_valid : SymbolFilter.Profile -> bool)
  (encode : SymbolFilter.Profile -> option string).
Context (identity : string -> string * string) (f : Admission.Filter) (past : memory).

Record system_ok (es : list event) (s : system) : Prop := {
  so_world : world_ok past json f es (controller s);
  so_nodes : map_Forall (node_ok f es) (nodes s);
  so_sent : Forall (message_ok f es) (sent s);
}.

Lemma system_more es es' w s :
  es `prefix_of` es' -> world_ok past json f es' w -> system_ok es s -> system_ok es' (mkSystem w (nodes s) (sent s)).
Proof.
  intros Hp Hw [_ Hn Hs]. split; [done| |].
  - intros nm n Hl. eapply node_more; [exact Hp|by apply Hn].
  - eapply Forall_impl; [exact Hs|]. intros m. by apply message_more.
Qed.
Lemma set_node_ok es nm n s : node_ok f es nm n -> system_ok es s -> system_ok es (set_node nm n s).
Proof. intros Hn [Hw Hns Hs]. split; [done| |done]. by apply map_Forall_insert_2. Qed.
Lemma sends_ok es nm n ms s :
  node_ok f es nm n -> Forall (message_ok f es) ms -> system_ok es s ->
  system_ok es (mkSystem (controller s) (<[nm := n]> (nodes s)) (sent s ++ ms)).
Proof. intros Hn Hm [Hw Hns Hs]. split; [done|by apply map_Forall_insert_2|]. by apply Forall_app. Qed.
Lemma at_node_ok es nm g s :
  (forall n, node_ok f es nm n -> system_ok es (g n)) -> system_ok es s -> system_ok es (at_node nm g s).
Proof. intros Hg Hs. unfold at_node. destruct (nodes s !! nm) as [n|] eqn:E; [|done]. apply Hg. by apply (so_nodes _ _ Hs). Qed.

Abbreviation occurs := (occur sha256 json parse check_valid encode).

Lemma happens_ok es s h :
  informer_order (es ++ pod_events [h]) -> api_events identity (es ++ pod_events [h]) -> sane identity h -> system_ok es s ->
  exists w, happen sha256 json parse check_valid encode (controller s) h = Some w /\
    system_ok (es ++ pod_events [h]) (mkSystem w (nodes s) (sent s)).
Proof.
  intros Ho Ha Hh Hs. destruct (happen_ok past sha256 json parse check_valid encode identity f es (controller s) h Ho Ha Hh (so_world _ _ Hs)) as (w & E & Hw).
  exists w. split; [exact E|]. apply (system_more es); [by apply prefix_app_r|done|done].
Qed.

Lemma occur_ok es s o :
  informer_order (es ++ system_events [o]) -> api_events identity (es ++ system_events [o]) -> system_sane identity o -> system_ok es s ->
  exists s', occurs s o = Some s' /\ system_ok (es ++ system_events [o]) s'.
Proof.
  intros Ho Ha Hsane Hs. pose proof (ok_pods _ _ _ _ _ (so_world _ _ Hs)) as Hpods.
  destruct o; unfold system_events in *; cbn [mbind list_bind] in *; rewrite ?app_nil_r in *; cbn [occur].
  - destruct (happens_ok es s h Ho Ha Hsane Hs) as (w & -> & Hw). by eexists.
  - eexists. split; [done|]. destruct (runNode _ _ _ _ _ _ _) as [n|] eqn:E; [|done]. apply set_node_ok; [by eapply boots_ok|done].
  - eexists. split; [done|]. apply at_node_ok; [|done]. intros n [H1 H2 _ H4 H5 H6]. apply set_node_ok; [|done].
    split; try done. by apply asked_scope.
  - eexists. split; [done|]. apply at_node_ok; [|done]. intros n Hn. destruct (node_pass su n) as [n' m] eqn:E.
    destruct (node_pass_ok f es nm su n n' m E Hn). by apply sends_ok.
  - eexists. split; [done|]. apply at_node_ok; [|done]. intros n [H1 H2 H3 H4 H5 H6]. apply set_node_ok; [|done].
    split; try done. cbn. rewrite <-H1. by apply fetched_targets.
  - eexists. split; [done|]. apply at_node_ok; [|done]. intros n [H1 H2 H3 H4 H5 H6]. apply set_node_ok; [|done].
    split; try done. cbn. rewrite <-H1. by apply fetched_scope.
  - eexists. split; [done|]. apply at_node_ok; [|done]. intros n Hn. apply set_node_ok; [|done].
    destruct (nd_profiler n) as [|p] eqn:E; [done|].
    pose proof (profiler_step_ok f parse check_valid encode es nm n p (Pipeline.Captured trace meta) Hn E I) as H.
    destruct (Pipeline.step _ _ _ _ _ p _) as [p' posted]. destruct H as [H _]. apply H; apply Hn.
  - eexists. split; [done|]. apply at_node_ok; [|done]. intros n Hn. destruct (nd_profiler n) as [|p] eqn:E; [done|].
    pose proof (profiler_step_ok f parse check_valid encode es nm n p (Pipeline.Ticked (tick_of n t)) Hn E) as H.
    destruct (Pipeline.step _ _ _ _ _ p _) as [p' posted]. destruct H as [H Hposted]; [split; apply Hn|].
    apply sends_ok; [apply H; apply failed_ok|by apply (ship_profile_ok f es nm)|done].
  - destruct (sent s !! i) as [[r|r]|]; [| |by exists s].
    + destruct (happens_ok es s (HReport at_ r)) as (w & -> & Hw); cbn; rewrite ?app_nil_r; try done. exists (mkSystem w (nodes s) (sent s)). split; [done|]. cbn in Hw. by rewrite app_nil_r in Hw.
    + destruct (happens_ok es s (HProfile env r)) as (w & -> & Hw); cbn; rewrite ?app_nil_r; try done. exists (mkSystem w (nodes s) (sent s)). split; [done|]. cbn in Hw. by rewrite app_nil_r in Hw.
Qed.

Lemma occur_all_ok os es s :
  informer_order (es ++ system_events os) -> api_events identity (es ++ system_events os) -> Forall (system_sane identity) os ->
  system_ok es s ->
  exists s', occur_all sha256 json parse check_valid encode os (Some s) = Some s' /\ system_ok (es ++ system_events os) s'.
Proof.
  induction os as [|o os IH] using rev_ind; intros Ho Ha Hh Hs; [exists s; by rewrite app_nil_r|].
  assert (system_events (os ++ [o]) = system_events os ++ system_events [o]) as E by (unfold system_events; apply bind_app).
  rewrite E, app_assoc in *. apply Forall_app in Hh as [Hos Hh]. rewrite Forall_singleton in Hh.
  destruct IH as (s1 & E1 & H1); [| |done|done|].
  - clear -Ho. revert Ho. generalize (es ++ system_events os) as l. intros l Ho before c clk p after ->.
    apply (Ho before c clk p (after ++ system_events [o])). by rewrite <-app_assoc.
  - intros e c p He. apply Ha. set_solver.
  - unfold occur_all in *. rewrite foldl_app, E1. cbn [foldl]. by apply occur_ok.
Qed.
End whole.

(** ** Properties *)

(** C37. The promise of the whole system.  Whatever its nodes, started and restarted
    at any time, find in their process tables and capture of their processes, and
    however queries and pushes are lost, spoiled, delayed or repeated among
    everything else the controller does: nothing panics; every report ever sent is
    a POST under a credential that names only pods which at some moment were
    collected on the node it speaks for; every profile sent is of such a pod, and
    of a container of such a pod that had not declined profiling; and every
    payload file names only what consented. *)
Theorem nothing_travels_without_consent
    (sha256 : string -> string) (json : payload -> option string) (parse : string -> option SymbolFilter.Profile)
    (check_valid : SymbolFilter.Profile -> bool) (encode : SymbolFilter.Profile -> option string)
    (identity : string -> string * string) (dec : Recover.decoders) (listed : bool) (st : settings) (now : Time)
    (os : list occurrence) :
  informer_order (system_events os) -> api_events identity (system_events os) -> Forall (system_sane identity) os ->
  (forall s, st_spool st = Some s -> Handover.emptied (dir s)) ->
  exists s, occur_all sha256 json parse check_valid encode os (Some (mkSystem (start dec listed st now) ∅ [])) = Some s /\
    Forall (message_ok (st_filter st) (system_events os)) (sent s) /\
    forall sp nm data m, spool (controller s) = Some sp -> HasSuffix nm ".json" = true -> dir sp !! nm = Some (FileNode data m) ->
      exists p doc, may_hold nobody (st_filter st) (system_events os) p /\ nm = payload_file p /\ json p = Some doc /\ data = document doc.
Proof.
  intros Ho Ha Hh He.
  destruct (occur_all_ok sha256 json parse check_valid encode identity (st_filter st) nobody os []
              (mkSystem (start dec listed st now) ∅ []) Ho Ha Hh) as (s & E & [Hw _ Hs]).
  { split; [by apply start_emptied|apply map_Forall_empty|constructor]. }
  exists s. split; [exact E|]. split; [exact Hs|]. intros sp nm data m Hsp Hnm Hl. by apply (ok_disk _ _ _ _ _ Hw sp Hsp nm data m).
Qed.

(** A poll finds a collected pod using CPU, and its workload becomes a target.  A
    node starts, asks for its scope, scans a process of that pod and one of a pod
    that opted out, and its report arrives; its profiler captures the same
    processes, asks what to profile, and posts a window. *)
Definition demo_flags : flags := mkFlags "node-1" Minute true true true true true.
Definition demo_reads : list Usage.nodeReads :=
  [Usage.mkNodeReads "node-1"
     (Some [Usage.mkPodStats NodeRole.pod_a
              [Usage.mkContainerStats "app" (unixEpoch + Hour) (Some (Usage.mkCPUStats demo_at (Some Second) None)) None] None]) None].
Definition demo_env : string -> io := fun _ => mkIo demo_at demo_at NoFault.
Definition demo_binding (pid : Z) : Binding.PodBinding :=
  Binding.mkPodBinding (if pid =? 1 then NodeRole.pod_a else "99999999-2222-3333-4444-555555555555") (if pid =? 1 then "ab12" else "cd34").
Definition demo_capture (pid : Z) : occurrence :=
  Samples "node-1" [Capture.mkRawFrame "main.run" "/src/run.go" 3 "go"] (Capture.mkTraceEventMeta 1 pid "app" "" ∅).
Definition demo_occurrences : list occurrence :=
  ((fun e => Happens (HPod demo_env e)) <$> NodeRole.demo_node_events) ++
  [Happens (HPoll false demo_reads demo_at); Happens (HUsageFlush demo_at demo_env ∅);
   Boots demo_flags (Config.mkNodeProfiling [] "" 0 0 0) true (Some "6.8.0") Gate.no_faults false demo_at;
   AsksScope "node-1" Heard; Passes "node-1" NodeRole.demo_surroundings; Arrives 0 demo_env demo_at;
   demo_capture 1; demo_capture 2; AsksTargets "node-1" (Some "token-1"%string) Heard; AsksWindowScope "node-1" (Some "token-1"%string) Heard;
   Ticks "node-1" (mkWindow false (demo_at + Minute) demo_binding (fun _ => true) (demo_at + Minute) (Some "token-1"%string));
   Arrives 1 demo_env demo_at].
Definition demo_identities (uid : string) : string * string :=
  if bool_decide (uid = NodeRole.pod_a) then ("shop", "web-0")%string else ("shop", "db-0")%string.
Definition demo_system : option system :=
  occur_all (fun s => s) demo_json (fun b => if bool_decide (b = "bytes"%string) then Some Pipeline.demo_profile else None) (fun _ => true)
    (fun _ => Some "bytes"%string) demo_occurrences
    (Some (mkSystem (start demo_decoders true demo_settings unixEpoch) ∅ [])).

Lemma demo_node_api : api_events demo_identities NodeRole.demo_node_events.
Proof.
  intros e c p He Ha. unfold NodeRole.demo_node_events in He.
  rewrite !elem_of_cons in He. destruct He as [->|[->|He]]; [..|by apply not_elem_of_nil in He];
    injection Ha as <- <-; repeat split; vm_compute; reflexivity.
Defined.


Lemma nothing_travels_without_consent_witness :
  exists s r q, demo_system = Some s /\ sent s = [MReport r; MProfile q] /\
    Forall (message_ok demo_filter NodeRole.demo_node_events) [MReport r; MProfile q] /\
    (exists report, NodeIntake.ReqBody r = NodeIntake.Body report false /\ NodeReport.b_PodUID <$> NodeReport.r_Binaries report = [NodeRole.pod_a]) /\
    (exists report, NodeIntake.ReqBody q = NodeIntake.Body report false /\ NodeIntake.PodUID report = NodeRole.pod_a) /\
    profilesReceived (controller s) = 1.
Proof.
  destruct (nothing_travels_without_consent (fun s => s) demo_json
              (fun b => if bool_decide (b = "bytes"%string) then Some Pipeline.demo_profile else None) (fun _ => true)
              (fun _ => Some "bytes"%string) demo_identities demo_decoders true demo_settings unixEpoch demo_occurrences) as (s & Hs & Hm & _).
  - exact NodeRole.demo_node_order.
  - exact demo_node_api.
  - repeat constructor; discriminate.
  - intros s [= <-] n nd Hn. change (dir (NewSpool ∅ 0)) with (∅ : fs) in Hn. by apply lookup_empty_Some in Hn.
  - fold demo_system in Hs. change (system_events demo_occurrences) with NodeRole.demo_node_events in Hm.
    assert (exists r q, (fun s => (sent s, profilesReceived (controller s))) <$> demo_system = Some ([MReport r; MProfile q], 1) /\
              (exists report, NodeIntake.ReqBody r = NodeIntake.Body report false /\
                NodeReport.b_PodUID <$> NodeReport.r_Binaries report = [NodeRole.pod_a]) /\
              (exists report, NodeIntake.ReqBody q = NodeIntake.Body report false /\ NodeIntake.PodUID report = NodeRole.pod_a))
      as (r & q & Hr & Hb & Hq)
      by (vm_compute; do 2 eexists; split; [reflexivity|]; split; eexists; split; reflexivity).
    rewrite Hs in Hr. cbn in Hr. injection Hr as Hr Hp. rewrite Hr in Hm. exists s, r, q. exact (conj Hs (conj Hr (conj Hm (conj Hb (conj Hq Hp))))).
Defined.
